(* ===== verification/_CoqProject ===== *)
-Q . S2P
Prelude.v
CLib.v
Hash.v
HashMap.v
Packet.v
NameServer.v
NsProofs.v
NsHandlers.v
NsClaims.v
QrtrClaims.v
QmiCodec.v
QmiMessages.v
QmiDecode.v
QmiEncode.v
QmiTurns.v
QmiClaims.v
Storage.v
StorageProofs.v
StorageClaims.v
SharedMem.v
Rmtfs.v
RmtfsProofs.v
RmtfsWire.v
RmtfsSafety.v
RmtfsClaims.v
Assoc.v
Json.v
JsonProofs.v
JsonHeap.v
JsonMemory.v
PdMapper.v
PdProofs.v
Firmware.v
PdClaims.v
PdMain.v
Dll.v
QrtrList.v
TftpList.v
ListLoops.v
Waiter.v
WaiterProofs.v
Tftp.v
TftpClaims.v
TftpMain.v
Fir.v
FirProofs.v
Lights.v
CFloat.v
Aec.v
AecProofs.v
AecClaims.v
AudioHw.v
AudioTime.v
AudioClaims.v
Gralloc.v
GrallocClaims.v
QmiTlv.v
QrtrTools.v
ToolsClaims.v
NsMain.v
Fds.v
Rproc.v
MemOpen.v
RmtfsLoop.v
RmtfsSession.v
HexDump.v
Locks.v
AudioLocks.v
GrallocLocks.v
Hal.v
