(* ===== verification/Prelude.v ===== *)
(** * Verification of the services of device-xiaomi-beryllium

    The repository is the Android device tree of a phone.  Its own programs are
    the user space of the Qualcomm IPC router under src/qcom, which lets the
    remote processors of the chip (modem, DSPs) use files and services of
    the main processor, and a few hardware modules under src/audio,
    src/gralloc, src/liblight and src/libmemtrack.

    ** The programs

    - qrtr-ns (src/qcom/qrtr/src) is the name server of the router: services
      announce themselves with control packets, observers look them up and are
      told about changes.  Programs talk to it through libqrtr
      (src/qcom/qrtr/lib/qrtr.c), which also has the codec of QMI messages
      (qmi.c) the other services speak.
    - rmtfs (src/qcom/rmtfs) gives the modem access to its partitions: it opens
      them for the modem and copies sectors between files and a window of
      shared memory.
    - pd-mapper (src/qcom/pd-mapper) reads JSON files from the firmware
      directories and answers which protection domains provide a service.
    - tqftpserv (src/qcom/tqftpserv) serves files to remote processors with
      TFTP over the router.
    - the audio HAL (src/audio) plays and records with tinyalsa, with an
      equaliser for the speaker and a queue of what was played as reference for
      an echo canceller; the lights HAL (src/liblight) sets the backlight.
    - gralloc (src/gralloc) allocates graphics buffers with libgbm and locks them
      for the processor.

    ** Files of the development

    - Prelude: machine integers, byte-addressed objects, outcomes, tactics.
      CLib: what is used of the C library.
    - Hash, HashMap: src/qcom/qrtr/src/hash.c and map.c, an open-addressing table;
      its operations refine those of a finite map.
    - Packet: src/qcom/qrtr/lib/qrtr.c, control packets and the client calls.
    - NameServer: src/qcom/qrtr/src/ns.c, one definition per handler over the
      state of nodes, servers and observers.  NsProofs and NsHandlers have its
      invariant and the behaviour of each handler, NsClaims and QrtrClaims the
      theorems, the latter through the client library; NsMain is the program around
      it, its arguments, socket and loop on the waiter.
    - QmiCodec, QmiMessages: src/qcom/qrtr/lib/qmi.c and the message tables of
      rmtfs and pd-mapper.  QmiDecode bounds the accesses of the decoder,
      QmiEncode relates the encoder to a reference encoder, QmiTurns has the
      rules for the turns of the decoder on well-formed messages, QmiClaims states
      safety and refinement for messages.
    - Storage (StorageProofs, StorageClaims), SharedMem, Rmtfs (RmtfsProofs,
      RmtfsSafety, RmtfsClaims): storage.c, sharedmem.c and rmtfs.c of
      src/qcom/rmtfs.  The service is proved against the interfaces
      SectorStore, which both storage modes implement, and MemDev, the memory as
      mapped or as a device.  MemOpen: the opening of sharedmem.c for both
      builds, with udev, sysfs and the device tree as answers of the
      system.  Fds: open descriptors, which MemOpen and Rproc count.  HexDump: util.c.
      RmtfsWire: the requests of the modem as bytes; RmtfsSession: the abstract
      service rmtfs implements.
    - Assoc, Json (JsonProofs), PdMapper (PdProofs), Firmware, PdClaims:
      assoc.c, json.c and pd-mapper.c of src/qcom/pd-mapper, and PdMain its main.
      JsonHeap and JsonMemory have json.c once more on linked blocks
      of memory, with json_free; Json is what they refine.
    - Dll, QrtrList, TftpList: the two intrusive list headers, on linked cells;
      the models of their clients use sequences instead.  ListLoops: the loops
      of the name server and of the waiter that free the items they visit.
    - Waiter, WaiterProofs: src/qcom/qrtr/src/waiter.c.
    - Tftp, TftpClaims: tqftpserv.c and translate.c of src/qcom/tqftpserv.  TftpMain:
      its main loop, with select, the fd_set and the open descriptors.
    - Fir, FirProofs: src/audio/fir_filter.c; Lights: src/liblight/lights.c.
    - CFloat: floating-point arithmetic.  Aec (AecProofs, AecClaims):
      src/audio/audio_aec.c and fifo_wrapper.cpp, the reference of the echo
      canceller.  AudioHw (AudioTime, AudioClaims): src/audio/audio_hw.c, the
      device and its streams.  Locks: threads that take locks; AudioLocks gives it the
      mutexes and shared fields of both, GrallocLocks those of gralloc.
    - Gralloc, GrallocClaims: src/gralloc/gralloc_gbm.cpp and gralloc.cpp.
    - Hal: opening and closing the lights device, the description of the microphone, the
      calls of the audio HAL without a state, and src/libmemtrack.
    - QrtrTools, ToolsClaims: lookup.c, cfg.c and addr.c of src/qcom/qrtr/src and
      lib/logging.c, and qrtr-lookup together with the name server.
    - Rproc, RmtfsLoop: rproc.c and the main loop of rmtfs.c, with the helper
      threads and signals as labels of a transition system.  QmiTlv: qmi_tlv.c.

    ** How the code is modelled

    A C function is a function of the state it reads to its result and the state
    it leaves, in the type [outcome]: [Ret] is a return, [Fault] an access
    outside an object, through NULL, to freed memory, or a failed assertion, and
    [OutOfFuel] a loop that has not ended.  Structures passed to the codec are
    the lists of their bytes, so that layouts, padding and overruns are visible;
    integers are kept to their width by [u8], [u16], [u32], [u64], [s32], [s64].
    What the operating system answers (files, sockets, memory, the clock) is an
    argument or a class; packets sent are part of the result or of a trace.
    Uninitialised memory is an argument named junk or stk.

    Fuel: [map_reput] and [assoc_set] nest once, so 2 is enough (shown); the loop
    of BYE takes a turn per server; [qmi_fuel] exceeds the length of a message
    plus the size of its descriptor; the JSON reader needs three times
    the length of the text (shown for texts of the grammar; on a lone bracket no
    fuel is enough, which is a defect of the reader); the probing loops
    and walks take a turn per slot or cell, the time stamps of the echo reference
    a turn per packet queued, and carrying seconds a turn per second.  A window
    of tqftpserv counts blocks with 16 bits, so more than 65536 turns mean that it does not
    end; json_free needs two turns per block.  The main loops take a turn per
    answer of the system, and the list of answers is their fuel.  The theorems say that these
    bounds suffice; where a loop of the program does not end, a theorem says
    that no fuel does.

    ** What is shown

    - Name server: every reachable state is consistent and every packet is
      handled ([ns_safe]); registrations on free ports refine a finite map
      ([ns_registry_refines]); each command changes and sends exactly what it
      should; a publication reaches the observers.  The program handles every packet
      poll announces, in order, through the waiter ([ns_serves_every_packet]).
    - Codec: decoding stays inside its structure on every input, where the
      descriptor fits the structure (all but two of the daemons' do), encoding writes
      the reference bytes, responses decode to what was encoded.
    - rmtfs: from [main] on, the bytes sent in answer to a sequence of requests of
      any nodes are those of an abstract service of ten handles, and files and
      memory hold what it describes, for the sequences that service is defined on and without -v ([rmtfs_keeps_contract]).
      The requests of the modem, and others that avoid the listed defects, are answered and keep the
      state consistent; transfers refine a reference transfer; sectors written
      are read back; accesses outside a mapped window are refused.  In every
      interleaving with its threads and signals the stop thread has tried to stop the modem before the
      service ends for it ([stop_written_before_leaving]) and requests are answered until
      then ([service_goes_on]); looking for its control
      file leaks no descriptor.  Opening the memory finds the region
      ([android_region_found]) and leaves exactly its descriptor open.
      A hex dump reads back as the buffer.
    - Tools: what was published is listed by qrtr-lookup ([published_is_listed]),
      qrtr-cfg sends the address it is given; messages of the TLV builder are read back.
    - pd-mapper: JSON texts are read as what they denote, every map file is
      loaded once, and from its start on, clients are answered with exactly the
      matching domains ([pd_mapper_answers]).  The reader builds these values in memory, and
      nothing of them is freed twice or kept ([json_memory]).
    - tqftpserv: files arrive intact in both directions, also among other clients
      ([file_served_among_others]), options are granted as asked, files are opened
      only where they are served (up to names with [..]); the loop neither crashes nor mixes up
      descriptors ([tftp_service_safe]).
    - Lists, waiter, filter, lights: refinement of sequences, also under the loops that
      free items; bounded poll sets and timely wake-ups, equality with a
      convolution, range of the brightness.
    - Audio: what is played is what the echo reference gives, in order and
      with its time, and what is played is what was written, equalised ([echo_reference_roundtrip]); downmixing in place takes
      means; a failing canceller costs no samples; time stamps of the playback
      are accurate.  Calls from several threads always complete, and where streams are
      opened and closed by one thread the guarded fields are not raced for ([audio_calls_complete]).
    - gralloc: buffers have one handle, their locks are counted and mapped ones are
      those locked for the processor ([locks_consistent]),
      the planes of YV12 buffers fit where they can; calls from several threads complete
      and do not race for the buffers.
    - Defects of the code found on the way are stated where they are proved
      and listed in the manifest.

    ** Not modelled

    Log output, but for the line of a close request that crashes rmtfs with -v;
    widths of the sizes and counts of the hash table, which are naturals (a table of
    2^31 slots does not fit the memory of the device); reading the clock; what a forked daemon of the name server does to its
    terminal; allocations that fail in pd-mapper; freeing in fir_release and map_destroy; qrtr_poll, which is
    one call of the system; build files, policies and firmware.  The queue, the resampler and the headers of the
    Android audio libraries are classes with the laws that are used. *)

From Stdlib Require Import ZArith Lia.
From stdpp Require Import base gmap list numbers strings.

#[global] Open Scope Z_scope.

(** ** Machine integers

    A C unsigned integer of width [w] is a [Z] kept in [0 .. 2^w) by an
    explicit wrap; a C [int] is a [Z] in [-2^31 .. 2^31). *)

Definition u8 (z : Z) : Z := z mod 256.
Definition u16 (z : Z) : Z := z mod 65536.
Definition u32 (z : Z) : Z := z mod 4294967296.
Definition u64 (z : Z) : Z := z mod 18446744073709551616.

(** Conversion of an unsigned 32-bit (64-bit) value to the signed type of the
    same width, as gcc and clang define it. *)
Definition s32 (z : Z) : Z :=
  let r := u32 z in if r <? 2147483648 then r else r - 4294967296.
Definition s64 (z : Z) : Z :=
  let r := u64 z in if r <? 9223372036854775808 then r else r - 18446744073709551616.

Definition UINT_MAX : Z := 4294967295.

(** ** Error numbers used by the sources (Linux values) *)

Definition ENOENT : Z := 2.
Definition EINTR : Z := 4.
Definition ENOMEM : Z := 12.
Definition EFAULT : Z := 14.
Definition EINVAL : Z := 22.
Definition EMSGSIZE : Z := 90.
Definition ENETRESET : Z := 102.

(** ** Bytes and strings

    A byte is a [Z] in [0 .. 256); [char] is unsigned, as the arm64 ABI of the
    device has it.  A C string is the list of its characters without the
    terminating NUL. *)

Definition is_byte (b : Z) : Prop := 0 <= b < 256.

Fixpoint bytes_of_string (s : string) : list Z :=
  match s with
  | EmptyString => []
  | String c s' => Z.of_N (Ascii.N_of_ascii c) :: bytes_of_string s'
  end.

(** Little-endian encoding of [n] bytes, and its inverse. *)
Fixpoint le_bytes (n : nat) (z : Z) : list Z :=
  match n with
  | O => []
  | S n' => z mod 256 :: le_bytes n' (z / 256)
  end.

Fixpoint le_val (bs : list Z) : Z :=
  match bs with
  | [] => 0
  | b :: bs' => b + 256 * le_val bs'
  end.

(** ** Outcomes

    [Ret] is a normal return, [Fault] an access outside the object the pointer
    belongs to (or through NULL), [OutOfFuel] a loop or recursion that did not
    finish within the fuel given to the model. *)

Inductive outcome (A : Type) : Type :=
| Ret (a : A)
| Fault
| OutOfFuel.
Arguments Ret {A} _.
Arguments Fault {A}.
Arguments OutOfFuel {A}.

#[global] Instance outcome_ret : MRet outcome := fun A a => Ret a.
#[global] Instance outcome_bind : MBind outcome := fun A B f m =>
  match m with
  | Ret a => f a
  | Fault => Fault
  | OutOfFuel => OutOfFuel
  end.

#[global] Instance outcome_eq_dec {A} `{EqDecision A} : EqDecision (outcome A).
Proof. solve_decision. Defined.

(** A computation that returns has returned from its first part. *)
Lemma outcome_bind_inv {A B} (m : outcome A) (f : A -> outcome B) b : m ≫= f = Ret b -> exists a, m = Ret a /\ f a = Ret b.
Proof. destruct m as [a| |]; [|done|done]. intros H. by exists a. Qed.

(** ** Byte-addressed objects *)

(** The C object [m] as the list of its bytes: [load m off len] reads the
    [len] bytes at [off], [store m off bs] overwrites them. *)
Definition load (m : list Z) (off len : Z) : outcome (list Z) :=
  if (0 <=? off) && (0 <=? len) && (off + len <=? Z.of_nat (length m))
  then Ret (take (Z.to_nat len) (drop (Z.to_nat off) m))
  else Fault.

Definition store (m : list Z) (off : Z) (bs : list Z) : outcome (list Z) :=
  if (0 <=? off) && (off + Z.of_nat (length bs) <=? Z.of_nat (length m))
  then Ret (take (Z.to_nat off) m ++ bs ++ drop (Z.to_nat off + length bs) m)
  else Fault.

(** ** Tactics and hint databases *)

Create HintDb qipc discriminated.

(** Case analysis on the boolean integer comparisons of the goal and context. *)
Ltac zcases :=
  repeat match goal with
  | |- context [?a =? ?b] => destruct (Z.eqb_spec a b)
  | |- context [?a <? ?b] => destruct (Z.ltb_spec a b)
  | |- context [?a <=? ?b] => destruct (Z.leb_spec a b)
  | H : context [?a =? ?b] |- _ => destruct (Z.eqb_spec a b)
  | H : context [?a <? ?b] |- _ => destruct (Z.ltb_spec a b)
  | H : context [?a <=? ?b] |- _ => destruct (Z.leb_spec a b)
  end.

(** Unfold the wraps and let [lia] reason with their quotients. *)
Ltac wrap_lia :=
  unfold s32, s64, u8, u16, u32, u64, is_byte in *; Z.to_euclidean_division_equations; lia.

(** ** Facts about the wraps *)

Lemma u8_range z : 0 <= u8 z < 256.
Proof. apply Z.mod_pos_bound. lia. Qed.

Lemma u16_range z : 0 <= u16 z < 65536.
Proof. apply Z.mod_pos_bound. lia. Qed.

Lemma u32_range z : 0 <= u32 z < 4294967296.
Proof. wrap_lia. Qed.

Lemma u32_small z : 0 <= z < 4294967296 -> u32 z = z.
Proof. intros. by apply Z.mod_small. Qed.

Lemma u16_small z : 0 <= z < 65536 -> u16 z = z.
Proof. intros. by apply Z.mod_small. Qed.

Lemma u8_small z : 0 <= z < 256 -> u8 z = z.
Proof. intros. by apply Z.mod_small. Qed.

Lemma u64_small z : 0 <= z < 18446744073709551616 -> u64 z = z.
Proof. intros. by apply Z.mod_small. Qed.

Lemma s32_small z : 0 <= z < 2147483648 -> s32 z = z.
Proof. intros. unfold s32. rewrite u32_small by lia. zcases; lia. Qed.

Lemma s64_small z : 0 <= z < 9223372036854775808 -> s64 z = z.
Proof. intros. unfold s64. rewrite u64_small by lia. zcases; lia. Qed.

Lemma s32_id z : - 2147483648 <= z < 2147483648 -> s32 z = z.
Proof. intros. unfold s32, u32. zcases; Z.to_euclidean_division_equations; lia. Qed.

#[export] Hint Resolve u32_range : qipc.

(** ** Facts about little-endian encodings *)

Lemma length_le_bytes n z : length (le_bytes n z) = n.
Proof. revert z; induction n; intros; simpl; auto. Qed.

Lemma le_bytes_byte n z : Forall is_byte (le_bytes n z).
Proof.
  revert z; induction n; intros; simpl; constructor; auto.
  unfold is_byte. apply Z.mod_pos_bound. lia.
Qed.

Lemma le_val_bytes n z : le_val (le_bytes n z) = z mod 2 ^ (8 * Z.of_nat n).
Proof.
  revert z; induction n as [|n IH]; intros z.
  { simpl. by rewrite Z.mod_1_r. }
  cbn [le_bytes le_val]. rewrite IH.
  replace (8 * Z.of_nat (S n)) with (8 + 8 * Z.of_nat n) by lia.
  rewrite Z.pow_add_r by lia. change (2 ^ 8) with 256.
  rewrite Z.rem_mul_r by (try apply Z.pow_pos_nonneg; lia). lia.
Qed.

Lemma le_val_bytes_small n z :
  0 <= z < 2 ^ (8 * Z.of_nat n) -> le_val (le_bytes n z) = z.
Proof. intros. rewrite le_val_bytes. by apply Z.mod_small. Qed.

Lemma le_bytes_val bs : Forall is_byte bs -> le_bytes (length bs) (le_val bs) = bs.
Proof.
  induction 1 as [|b bs Hb Hbs IH]; [done|].
  cbn [length le_val le_bytes]. f_equal.
  - rewrite Z.mul_comm, Z_mod_plus_full. by apply Z.mod_small.
  - rewrite Z.mul_comm, Z_div_plus_full by lia.
    unfold is_byte in Hb. rewrite Z.div_small by lia. done.
Qed.

Lemma le_bytes_mod n z : le_bytes n z = le_bytes n (z mod 2 ^ (8 * Z.of_nat n)).
Proof. rewrite <- le_val_bytes. rewrite <- (length_le_bytes n z) at 2. by rewrite le_bytes_val by apply le_bytes_byte. Qed.

Lemma le_bytes_u32 z : le_bytes 4 (u32 z) = le_bytes 4 z.
Proof. symmetry. apply (le_bytes_mod 4). Qed.

Lemma le_val_range bs :
  Forall is_byte bs -> 0 <= le_val bs < 2 ^ (8 * Z.of_nat (length bs)).
Proof.
  induction 1 as [|b bs Hb Hbs IH]; [simpl; lia|].
  cbn [length le_val]. unfold is_byte in Hb.
  replace (8 * Z.of_nat (S (length bs))) with (8 + 8 * Z.of_nat (length bs)) by lia.
  rewrite Z.pow_add_r by lia. change (2 ^ 8) with 256. lia.
Qed.

#[export] Hint Resolve length_le_bytes le_bytes_byte : qipc.
#[global] Arguments le_bytes : simpl never.
#[global] Arguments le_val : simpl never.

(** Checking that a concrete list consists of bytes. *)
Definition bytes_b (l : list Z) : bool := forallb (fun b => (0 <=? b) && (b <? 256)) l.

Lemma bytes_check l : bytes_b l = true -> Forall is_byte l.
Proof.
  induction l as [|b l IH]; intros Hb; [done|]. apply andb_true_iff in Hb as [Hb Hl].
  constructor; [|by apply IH]. unfold is_byte. lia.
Qed.

(** ** Facts about loads and stores *)

Lemma load_ret m off len :
  0 <= off -> 0 <= len -> off + len <= Z.of_nat (length m) ->
  load m off len = Ret (take (Z.to_nat len) (drop (Z.to_nat off) m)).
Proof. intros. unfold load. zcases; simpl; try done; lia. Qed.

Lemma load_ret_inv m off len bs :
  load m off len = Ret bs ->
  0 <= off /\ 0 <= len /\ off + len <= Z.of_nat (length m)
  /\ bs = take (Z.to_nat len) (drop (Z.to_nat off) m).
Proof. unfold load. zcases; simpl; intros; simplify_eq; auto. Qed.

Lemma length_load m off len bs :
  load m off len = Ret bs -> Z.of_nat (length bs) = len.
Proof.
  intros (?&?&?&->)%load_ret_inv. rewrite length_take, length_drop. lia.
Qed.

Lemma store_ret m off bs :
  0 <= off -> off + Z.of_nat (length bs) <= Z.of_nat (length m) ->
  store m off bs = Ret (take (Z.to_nat off) m ++ bs ++ drop (Z.to_nat off + length bs) m).
Proof. intros. unfold store. zcases; simpl; try done; lia. Qed.

Lemma store_ret_inv m off bs m' :
  store m off bs = Ret m' ->
  0 <= off /\ off + Z.of_nat (length bs) <= Z.of_nat (length m)
  /\ m' = take (Z.to_nat off) m ++ bs ++ drop (Z.to_nat off + length bs) m.
Proof. unfold store. zcases; simpl; intros; simplify_eq; auto. Qed.

Lemma length_store m off bs m' :
  store m off bs = Ret m' -> length m' = length m.
Proof.
  intros (?&?&->)%store_ret_inv.
  rewrite !length_app, length_take, length_drop. lia.
Qed.

(** What was stored is what is loaded. *)
Lemma load_store_same m off bs m' :
  store m off bs = Ret m' -> load m' off (Z.of_nat (length bs)) = Ret bs.
Proof.
  intros Hs. pose proof (length_store _ _ _ _ Hs) as Hl.
  apply store_ret_inv in Hs as (?&?&->).
  rewrite load_ret by lia. f_equal.
  rewrite drop_app_ge by (rewrite length_take; lia).
  rewrite length_take.
  replace (Z.to_nat off - Nat.min (Z.to_nat off) (length m))%nat with 0%nat by lia.
  rewrite drop_0, Nat2Z.id. by rewrite take_app_length.
Qed.

(** A load inside the middle part of three. *)
Lemma load_mid (a b c : list Z) off len :
  off = Z.of_nat (length a) -> len = Z.of_nat (length b) -> load (a ++ b ++ c) off len = Ret b.
Proof.
  intros -> ->. rewrite load_ret by (rewrite ?length_app; lia). rewrite !Nat2Z.id, drop_app_length, take_app_length. done.
Qed.

Lemma store_mid (a b b' c : list Z) off :
  off = Z.of_nat (length a) -> length b' = length b -> store (a ++ b ++ c) off b' = Ret (a ++ b' ++ c).
Proof.
  intros -> Hl. rewrite store_ret by (rewrite ?length_app; lia). rewrite Nat2Z.id, take_app_length. do 3 f_equal.
  rewrite Hl. replace (length a + length b)%nat with (length (a ++ b)) by (by rewrite length_app). by rewrite app_assoc, drop_app_length.
Qed.

(** Loads of consecutive blocks. *)
Lemma load_join m d a b bs1 bs2 :
  load m d a = Ret bs1 -> load m (d + a) b = Ret bs2 -> load m d (a + b) = Ret (bs1 ++ bs2).
Proof.
  intros (? & ? & ? & ->)%load_ret_inv (? & ? & ? & ->)%load_ret_inv. rewrite load_ret by lia.
  f_equal. rewrite !Z2Nat.inj_add by lia. by rewrite <- take_take_drop, drop_drop.
Qed.

Lemma load_split m d a b bs :
  0 <= a -> 0 <= b -> load m d (a + b) = Ret bs ->
  exists bs1 bs2, load m d a = Ret bs1 /\ load m (d + a) b = Ret bs2 /\ bs = bs1 ++ bs2.
Proof.
  intros Ha Hb (? & ? & ? & ->)%load_ret_inv. rewrite !load_ret by lia. eexists _, _.
  split_and!; [done|done|]. rewrite !Z2Nat.inj_add by lia. by rewrite <- take_take_drop, drop_drop.
Qed.

Lemma load_in m d n : 0 <= d -> 0 <= n -> d + n <= Z.of_nat (length m) ->
  exists bs, load m d n = Ret bs /\ Z.of_nat (length bs) = n.
Proof. intros. rewrite load_ret by lia. eexists. split; [done|]. rewrite length_take, length_drop. lia. Qed.

Lemma store_in m d bs : 0 <= d -> d + Z.of_nat (length bs) <= Z.of_nat (length m) ->
  exists m', store m d bs = Ret m' /\ length m' = length m.
Proof.
  intros. destruct (store m d bs) as [m'| |] eqn:E;
    [|rewrite store_ret in E by lia; done|rewrite store_ret in E by lia; done].
  exists m'. split; [done|]. by eapply length_store.
Qed.

(** A store leaves the other bytes alone. *)
Lemma store_lookup_other m off bs m' (i : nat) :
  store m off bs = Ret m' ->
  Z.of_nat i < off \/ off + Z.of_nat (length bs) <= Z.of_nat i ->
  m' !! i = m !! i.
Proof.
  intros (?&?&->)%store_ret_inv [Hi|Hi].
  - rewrite lookup_app_l by (rewrite length_take; lia).
    apply lookup_take_lt. lia.
  - rewrite lookup_app_r by (rewrite length_take; lia).
    rewrite length_take, lookup_app_r by lia.
    rewrite lookup_drop. f_equal. lia.
Qed.

Lemma store_lookup_in m off bs m' (i : nat) :
  store m off bs = Ret m' ->
  off <= Z.of_nat i < off + Z.of_nat (length bs) ->
  m' !! i = bs !! (i - Z.to_nat off)%nat.
Proof.
  intros (?&?&->)%store_ret_inv Hi.
  rewrite lookup_app_r by (rewrite length_take; lia).
  rewrite length_take, lookup_app_l by lia. f_equal. lia.
Qed.

Lemma load_bytes m off len bs : Forall is_byte m -> load m off len = Ret bs -> Forall is_byte bs.
Proof. intros Hm (_ & _ & _ & ->)%load_ret_inv. by apply Forall_take, Forall_drop. Qed.

Lemma store_bytes m off bs m' :
  Forall is_byte m -> Forall is_byte bs -> store m off bs = Ret m' -> Forall is_byte m'.
Proof.
  intros Hm Hb (_ & _ & ->)%store_ret_inv.
  apply Forall_app_2; [by apply Forall_take|]. apply Forall_app_2; [done|by apply Forall_drop].
Qed.

(** ** Facts about lists *)

(** Filters that agree on the elements of a list select the same elements. *)
Lemma filter_ext_elem {A} (f g : A -> bool) (l : list A) :
  (forall x, x ∈ l -> f x = g x) ->
  filter (fun x => Is_true (f x)) l = filter (fun x => Is_true (g x)) l.
Proof.
  induction l as [|x l IH]; intros Hfg; [done|]. rewrite !filter_cons.
  rewrite (Hfg x) by (by left). rewrite IH by (intros y Hy; apply Hfg; by right).
  by case_decide.
Qed.

(** Different keys of a map are no more than its size: a walk along them has fuel enough. *)
Lemma nodup_size {A} (h : gmap Z A) xs : NoDup xs -> (forall x, x ∈ xs -> is_Some (h !! x)) -> (length xs <= size h)%nat.
Proof.
  intros Hnd Hin. rewrite <- size_dom, <- (size_list_to_set (C := gset Z) xs Hnd). apply subseteq_size.
  intros x Hx. apply elem_of_list_to_set in Hx. by apply elem_of_dom, Hin.
Qed.
