(* ===== verification/CLib.v ===== *)
(** * The C library

    The functions of the C library that the services use and that compute
    something: character classes, numbers in decimal, paths.  Calls of the
    operating system are not here but arguments of the models.  [char] is
    unsigned, as on the target, and a string is the list of its characters
    without the NUL. *)

From Stdlib Require Import ZArith Lia.
From stdpp Require Import base list numbers strings.
From S2P Require Import Prelude.

(** ** Characters *)

Definition isspace (ch : Z) : bool := ((9 <=? ch) && (ch <=? 13)) || (ch =? 32).
Definition isdigit (ch : Z) : bool := (48 <=? ch) && (ch <=? 57).

Definition c_slash : Z := 47.

(** ** Strings and paths *)

Definition strlen (s : list Z) : Z := Z.of_nat (length s).

(** The characters in front of the first NUL. *)
Fixpoint until_nul (bs : list Z) : list Z :=
  match bs with [] => [] | b :: bs' => if b =? 0 then [] else b :: until_nul bs' end.

(** [dirname], on the characters from the last to the first: trailing slashes,
    the last component and the slashes in front of it are dropped, but never
    the first character. *)
Fixpoint back_while (p : Z -> bool) (r : list Z) : list Z :=
  match r with
  | [] => []
  | c :: r' => match r' with [] => r | _ => if p c then back_while p r' else r end
  end.

Definition is_slash (c : Z) : bool := c =? c_slash.

Definition dirname (path : list Z) : list Z :=
  match back_while (fun c => negb (is_slash c)) (back_while is_slash (reverse path)) with
  | [] => bytes_of_string "."
  | [c] => if is_slash c then [c_slash] else bytes_of_string "."
  | _ :: r => reverse (back_while is_slash r)
  end.

Lemma length_back_while p r : (length (back_while p r) <= length r)%nat.
Proof.
  induction r as [|c r IH]; [done|]. cbn [back_while]. destruct r as [|c' r]; [done|].
  destruct (p c); [|done]. cbn [length] in *. lia.
Qed.

Lemma length_dirname v : v <> [] -> (length (dirname v) <= length v)%nat.
Proof.
  intros Hv. unfold dirname.
  pose proof (length_back_while (fun c => negb (is_slash c)) (back_while is_slash (reverse v))) as H1.
  pose proof (length_back_while is_slash (reverse v)) as H2. rewrite length_reverse in H2.
  assert (1 <= length v)%nat by (destruct v; [done|cbn; lia]).
  destruct (back_while _ (back_while is_slash (reverse v))) as [|c [|c' r]]; [cbn; lia|destruct (is_slash c); cbn; lia|].
  rewrite length_reverse. pose proof (length_back_while is_slash (c' :: r)). cbn [length] in *. lia.
Qed.

(** ** Numbers *)

(** Decimal digits, as [sprintf] writes them; 20 are enough for 64 bits. *)
Fixpoint dec_digits (fuel : nat) (z : Z) (acc : list Z) : list Z :=
  match fuel with
  | O => acc
  | S fuel' =>
      let acc := (48 + z mod 10) :: acc in
      if z <? 10 then acc else dec_digits fuel' (z / 10) acc
  end.

Definition c_minus : Z := 45.

Definition sprintf_d (z : Z) : list Z := if z <? 0 then c_minus :: dec_digits 20 (- z) [] else dec_digits 20 z [].

(** [atoi]: white space, a sign, digits; [strtol] saturates, the cast truncates. *)
Fixpoint skip_space (s : list Z) : list Z :=
  match s with c :: s' => if isspace c then skip_space s' else s | [] => [] end.

Fixpoint digits_prefix (acc : Z) (s : list Z) : Z :=
  match s with c :: s' => if isdigit c then digits_prefix (10 * acc + (c - 48)) s' else acc | [] => acc end.

Definition strtol (s : list Z) : Z :=
  match skip_space s with
  | c :: s' =>
      if c =? c_minus then Z.max (- digits_prefix 0 s') (- 9223372036854775808)
      else Z.min (digits_prefix 0 (if c =? 43 then s' else c :: s')) 9223372036854775807
  | [] => 0
  end.

Definition atoi (s : list Z) : Z := s32 (u32 (strtol s)).

Lemma dec_digits_val fuel : forall z acc,
  0 <= z < 10 ^ Z.of_nat fuel -> digits_prefix 0 (dec_digits fuel z acc) = digits_prefix z acc.
Proof.
  induction fuel as [|fuel IH]; intros z acc Hz; cbn [dec_digits].
  { change (10 ^ Z.of_nat 0) with 1 in Hz. by replace z with 0 by lia. }
  pose proof (Z.div_mod z 10 ltac:(lia)) as Hd. pose proof (Z.mod_pos_bound z 10 ltac:(lia)) as Hm.
  assert (isdigit (48 + z mod 10) = true) as Hdig.
  { unfold isdigit. destruct (Z.leb_spec 48 (48 + z mod 10)), (Z.leb_spec (48 + z mod 10) 57); done || lia. }
  assert (forall a, digits_prefix a ((48 + z mod 10) :: acc) = digits_prefix (10 * a + z mod 10) acc) as Hstep.
  { intros a. cbn [digits_prefix]. rewrite Hdig. f_equal. lia. }
  destruct (Z.ltb_spec z 10).
  - rewrite Hstep. f_equal. rewrite Z.mod_small; lia.
  - rewrite IH, Hstep; [f_equal; lia|]. rewrite Nat2Z.inj_succ, Z.pow_succ_r in Hz by lia.
    split; [apply Z.div_pos; lia|apply Z.div_lt_upper_bound; lia].
Qed.

Lemma dec_digits_digits fuel : forall z acc,
  Forall (fun c => isdigit c = true) acc -> Forall (fun c => isdigit c = true) (dec_digits fuel z acc).
Proof.
  induction fuel as [|fuel IH]; intros z acc Ha; cbn [dec_digits]; [done|].
  pose proof (Z.mod_pos_bound z 10 ltac:(lia)) as Hm.
  assert (isdigit (48 + z mod 10) = true) as Hdig.
  { unfold isdigit. destruct (Z.leb_spec 48 (48 + z mod 10)), (Z.leb_spec (48 + z mod 10) 57); done || lia. }
  destruct (z <? 10); [by constructor|]. apply IH. by constructor.
Qed.

Lemma isdigit_range c : isdigit c = true -> 48 <= c <= 57.
Proof. unfold isdigit. intros H. apply andb_true_iff in H as [H1%Z.leb_le H2%Z.leb_le]. lia. Qed.

(** Numbers are read back as they are printed. *)
Lemma strtol_sprintf v : 0 <= v < 9223372036854775808 -> strtol (sprintf_d v) = v.
Proof.
  intros Hv. unfold sprintf_d. destruct (Z.ltb_spec v 0); [lia|].
  pose proof (dec_digits_val 20 v [] ltac:(change (10 ^ Z.of_nat 20) with 100000000000000000000; lia)) as Hval.
  pose proof (dec_digits_digits 20 v [] ltac:(constructor)) as Hdig.
  unfold strtol. destruct (dec_digits 20 v []) as [|c s]; [done|]. apply list.Forall_cons in Hdig as [Hc _].
  pose proof (isdigit_range c Hc) as Hr. cbn [skip_space].
  assert (isspace c = false) as ->.
  { unfold isspace. destruct (Z.leb_spec 9 c), (Z.leb_spec c 13), (Z.eqb_spec c 32); try done; lia. }
  unfold c_minus. destruct (Z.eqb_spec c 45); [lia|]. destruct (Z.eqb_spec c 43); [lia|].
  rewrite Hval. cbn [digits_prefix]. lia.
Qed.

Lemma atoi_sprintf v : 0 <= v < 2147483648 -> atoi (sprintf_d v) = v.
Proof.
  intros Hv. unfold atoi. rewrite strtol_sprintf by lia. rewrite u32_small by lia. by apply s32_small.
Qed.

Lemma sprintf_no_nul v : 0 <= v -> Forall (fun c => c <> 0) (sprintf_d v).
Proof.
  intros Hv. unfold sprintf_d. destruct (Z.ltb_spec v 0); [lia|].
  eapply Forall_impl; [by apply dec_digits_digits|]. intros c Hc%isdigit_range. lia.
Qed.

Lemma length_dec_digits fuel : forall z acc, (length (dec_digits fuel z acc) <= fuel + length acc)%nat.
Proof.
  induction fuel as [|fuel IH]; intros z acc; cbn [dec_digits]; [lia|].
  destruct (z <? 10); [cbn; lia|]. specialize (IH (z / 10) ((48 + z mod 10) :: acc)). cbn in IH. lia.
Qed.

Lemma length_sprintf v : 0 <= v -> (length (sprintf_d v) <= 20)%nat.
Proof.
  intros Hv. unfold sprintf_d. destruct (Z.ltb_spec v 0); [lia|]. pose proof (length_dec_digits 20 v []). cbn in *. lia.
Qed.

(** Ten digits are enough for 32 bits. *)
Lemma dec_digits_enough n m : forall z acc,
  (1 <= n)%nat -> 0 <= z < 10 ^ Z.of_nat n -> dec_digits (n + m) z acc = dec_digits n z acc.
Proof.
  induction n as [|n IH]; intros z acc Hn Hz; [lia|]. cbn [Nat.add dec_digits].
  destruct (Z.ltb_spec z 10); [done|]. destruct n as [|n]; [change (10 ^ Z.of_nat 1) with 10 in Hz; lia|].
  apply IH; [lia|]. rewrite Nat2Z.inj_succ, Z.pow_succ_r in Hz by lia.
  split; [apply Z.div_pos; lia|apply Z.div_lt_upper_bound; lia].
Qed.

Lemma length_sprintf_signed v : (length (sprintf_d v) <= 21)%nat.
Proof.
  unfold sprintf_d. destruct (v <? 0); [pose proof (length_dec_digits 20 (- v) [])|pose proof (length_dec_digits 20 v [])]; cbn [length] in *; lia.
Qed.

Lemma length_sprintf_small v : 0 <= v < 10000000000 -> (length (sprintf_d v) <= 10)%nat.
Proof.
  intros Hv. unfold sprintf_d. destruct (Z.ltb_spec v 0); [lia|].
  rewrite (dec_digits_enough 10 10) by (lia || (change (10 ^ Z.of_nat 10) with 10000000000; lia)).
  pose proof (length_dec_digits 10 v []). cbn [length] in *. lia.
Qed.

(** ** Numbers in any base *)

(** The value of a digit, 36 for other characters. *)
Definition digit_value (c : Z) : Z :=
  if (48 <=? c) && (c <=? 57) then c - 48
  else if (97 <=? c) && (c <=? 122) then c - 87
  else if (65 <=? c) && (c <=? 90) then c - 55
  else 36.

(** The digits in front: whether there are any, their value, and the rest. *)
Fixpoint read_digits (base : Z) (any : bool) (acc : Z) (s : list Z) : bool * Z * list Z :=
  match s with
  | c :: s' => if digit_value c <? base then read_digits base true (acc * base + digit_value c) s' else (any, acc, s)
  | [] => (any, acc, [])
  end.

(** Whether a number starts with 0x and a digit. *)
Definition hex_prefix (s : list Z) : bool :=
  match s with
  | z :: x :: c :: _ => (z =? 48) && ((x =? 120) || (x =? 88)) && (digit_value c <? 16)
  | _ => false
  end.

(** The base of a number, 0 standing for 16 behind 0x, 8 behind 0 and else 10, and
    the number without 0x. *)
Definition number_base (base : Z) (s : list Z) : Z * list Z :=
  if ((base =? 0) || (base =? 16)) && hex_prefix s then (16, drop 2 s)
  else if base =? 0 then (match s with c :: _ => if c =? 48 then 8 else 10 | [] => 10 end, s)
  else (base, s).

Definition ULONG_MAX : Z := 18446744073709551615.

(** [strtoul]: the value, what is behind the number, and whether it is out of
    range; without digits the value is 0 and nothing is read. *)
Definition strtoul (base : Z) (s : list Z) : Z * list Z * bool :=
  let s1 := skip_space s in
  let '(neg, s2) :=
    match s1 with c :: s' => if c =? c_minus then (true, s') else if c =? 43 then (false, s') else (false, s1) | [] => (false, s1) end in
  let '(base, s3) := number_base base s2 in
  let '(any, value, rest) := read_digits base false 0 s3 in
  if negb any then (0, s, false)
  else if ULONG_MAX <? value then (ULONG_MAX, rest, true)
  else ((if (neg : bool) then u64 (- value) else value), rest, false).

Lemma digit_value_digit c : isdigit c = true -> digit_value c = c - 48.
Proof. unfold digit_value, isdigit. by intros ->. Qed.

Lemma read_digits_dec s : forall any acc,
  Forall (fun c => isdigit c = true) s -> read_digits 10 any acc s = (any || negb (bool_decide (s = [])), digits_prefix acc s, []).
Proof.
  induction s as [|c s IH]; intros any acc Hs; cbn [read_digits digits_prefix]; [by rewrite orb_false_r|].
  apply list.Forall_cons in Hs as [Hc Hs]. rewrite Hc, digit_value_digit by done. pose proof (isdigit_range c Hc).
  destruct (Z.ltb_spec (c - 48) 10); [|lia]. rewrite IH by done. cbn. rewrite orb_true_r. do 2 f_equal. f_equal. lia.
Qed.

(** [strtoul] reads back what [printf] writes. *)
Lemma strtoul_sprintf v : 0 <= v <= ULONG_MAX -> strtoul 10 (sprintf_d v) = (v, [], false) /\ sprintf_d v <> [].
Proof.
  unfold ULONG_MAX. intros Hv. unfold sprintf_d. destruct (Z.ltb_spec v 0); [lia|].
  pose proof (dec_digits_val 20 v [] ltac:(change (10 ^ Z.of_nat 20) with 100000000000000000000; lia)) as Hval.
  pose proof (dec_digits_digits 20 v [] ltac:(constructor)) as Hdig.
  assert (dec_digits 20 v [] <> []) as Hne.
  { intros He. assert (forall f z acc, acc <> [] -> dec_digits f z acc <> []) as Hacc.
    { induction f as [|f IH]; intros z acc Ha; cbn [dec_digits]; [done|]. destruct (z <? 10); [done|]. by apply IH. }
    cbn [dec_digits] in He. destruct (v <? 10); [done|]. revert He. by apply (Hacc 19%nat). }
  split; [|done]. unfold strtoul. destruct (dec_digits 20 v []) as [|c s] eqn:Hs; [done|].
  pose proof Hdig as Hdig'. apply list.Forall_cons in Hdig' as [Hc _]. pose proof (isdigit_range c Hc) as Hr.
  assert (skip_space (c :: s) = c :: s) as ->.
  { cbn [skip_space]. assert (isspace c = false) as ->; [|done]. unfold isspace. zcases; try done; lia. }
  unfold c_minus. destruct (Z.eqb_spec c 45); [lia|]. destruct (Z.eqb_spec c 43); [lia|]. change (number_base 10 (c :: s)) with (10, c :: s). cbv beta iota.
  rewrite read_digits_dec, Hval by done. cbn [orb negb bool_decide decide_rel]. cbn [digits_prefix].
  rewrite bool_decide_eq_false_2 by done. cbn [negb]. unfold ULONG_MAX. destruct (Z.ltb_spec 18446744073709551615 v); [lia|done].
Qed.
