(* ===== verification/Hash.v ===== *)
(** * Hash functions (src/qcom/qrtr/src/hash.c)

    The name server keys its tables by [hash_u32] of node ids and ports, and
    compares hashes, never the ids themselves.  That is sound because
    [hash_u32] is a bijection of the 32-bit words. *)

From Stdlib Require Import ZArith Lia.
From stdpp Require Import base list.
From S2P Require Import Prelude.

(** [hash_mem(data, len)]: [data] is the list of its [len] bytes. *)
Fixpoint hash_mem_loop (h : Z) (data : list Z) : Z :=
  match data with
  | [] => h
  | b :: data' =>
      hash_mem_loop (Z.lxor (Z.lxor (Z.shiftr h 27) (u32 (Z.shiftl h 5))) b) data'
  end.

Definition hash_mem (data : list Z) : Z :=
  hash_mem_loop (u32 (Z.of_nat (length data))) data.

(** [hash_string(value)]: [value] without its NUL, so [strlen] is [length]. *)
Definition hash_string (value : list Z) : Z := hash_mem value.

(** [value * 2654435761UL] is computed in 64 bits, then truncated. *)
Definition hash_u32 (value : Z) : Z := u32 (u64 (value * 2654435761)).

Definition hash_u64 (value : Z) : Z :=
  Z.lxor (hash_u32 (u32 (Z.land value 4294967295))) (hash_u32 (u32 (Z.shiftr value 32))).

(** Pointers have 64 bits on the target, so the first return is the one taken. *)
Definition hash_pointer (value : Z) : Z := hash_u64 (u64 value).

(** ** The multiplier is odd, so multiplication by it can be undone *)

Definition unhash_u32 (k : Z) : Z := u32 (k * 244002641).

Lemma hash_u32_range v : 0 <= hash_u32 v < 4294967296.
Proof. apply u32_range. Qed.

Lemma u32_u64 z : u32 (u64 z) = u32 z.
Proof.
  unfold u32, u64. change 18446744073709551616 with (4294967296 * 4294967296).
  rewrite Z.rem_mul_r by lia.
  by rewrite (Z.mul_comm 4294967296), Z_mod_plus_full, Z.mod_mod by lia.
Qed.

Lemma unhash_hash_u32 v : 0 <= v < 4294967296 -> unhash_u32 (hash_u32 v) = v.
Proof.
  intros Hv. unfold unhash_u32, hash_u32. rewrite u32_u64. unfold u32.
  rewrite Z.mul_mod_idemp_l by lia.
  replace (v * 2654435761 * 244002641)
    with (v + v * 150801925 * 4294967296) by ring.
  rewrite Z_mod_plus_full. by apply Z.mod_small.
Qed.

(** Two node ids (or ports) hash to the same key only if they are equal. *)
Lemma hash_u32_eq a b :
  0 <= a < 4294967296 -> 0 <= b < 4294967296 -> hash_u32 a = hash_u32 b -> a = b.
Proof.
  intros Ha Hb He. rewrite <- (unhash_hash_u32 a Ha), <- (unhash_hash_u32 b Hb).
  by rewrite He.
Qed.

#[export] Hint Resolve hash_u32_range hash_u32_eq : qipc.

(** [hash_mem] stays in 32 bits on byte strings. *)
Lemma lxor_bound n a b : 0 <= n -> 0 <= a < 2 ^ n -> 0 <= b < 2 ^ n -> 0 <= Z.lxor a b < 2 ^ n.
Proof.
  intros Hn [Ha Ha'] [Hb Hb'].
  assert (0 <= Z.lxor a b) as Hx by (apply Z.lxor_nonneg; lia).
  split; [done|].
  destruct (Z.eq_dec (Z.lxor a b) 0) as [->|Hne]; [by apply Z.pow_pos_nonneg; lia|].
  apply Z.log2_lt_pow2; [lia|].
  pose proof (Z.log2_lxor a b Ha Hb) as Hl.
  assert (forall c, 0 <= c < 2 ^ n -> 0 < n -> Z.log2 c < n) as Hlog.
  { intros c [Hc Hc'] Hn'. destruct (Z.eq_dec c 0) as [->|?]; [by simpl|].
    apply Z.log2_lt_pow2; lia. }
  destruct (Z.eq_dec n 0) as [->|?].
  { assert (a = 0) as -> by lia. assert (b = 0) as -> by lia. done. }
  pose proof (Hlog a ltac:(lia) ltac:(lia)). pose proof (Hlog b ltac:(lia) ltac:(lia)). lia.
Qed.

Lemma hash_mem_loop_range data : forall h,
  0 <= h < 2 ^ 32 -> Forall is_byte data -> 0 <= hash_mem_loop h data < 2 ^ 32.
Proof.
  induction data as [|b data IH]; intros h Hh Hd; [done|].
  inversion_clear Hd as [|? ? Hb Hd']. simpl. apply IH; [|done].
  apply lxor_bound; [lia| |unfold is_byte in Hb; lia].
  apply lxor_bound; [lia| |].
  - rewrite Z.shiftr_div_pow2 by lia. split; [apply Z.div_pos; lia|].
    apply Z.div_lt_upper_bound; lia.
  - apply (u32_range (Z.shiftl h 5)).
Qed.
