(* ===== verification/HashMap.v ===== *)
(** * The open-addressing hash table (src/qcom/qrtr/src/map.c, map.h)

    A table is an array of slots; a slot is NULL, the marker [&deleted], or a
    pointer to an item, whose key is stored in the item itself.  The structure
    an item is embedded in (a [struct server] or [struct node] of the name
    server) is the payload [V].  Sizes and indices are natural numbers: the
    code keeps them in 32 bits, which a table of eight-byte slots does not
    exhaust on the device.

    The first part translates the operations.  The second part shows that a
    table without duplicate keys implements a finite map, and that this is
    preserved by insertions of fresh keys and by removals.  The third part
    shows where the code leaves that contract: overwriting a key behind a
    deleted slot leaves two items with that key in the table. *)

From Stdlib Require Import ZArith Lia.
From stdpp Require Import base gmap list numbers.
From S2P Require Import Prelude.

Section map_ops.
Context {V : Type}.

(** [struct map_item] with the structure it is embedded in. *)
Record map_item : Type := MkItem { key : Z; payload : V }.

(** [struct map_entry]: the pointer [item]. *)
Inductive map_entry : Type :=
| Null
| Deleted
| Item (it : map_item).

Record map : Type := MkMap { size : nat; count : nat; data : list map_entry }.

Definition map_create : map := MkMap 0 0 [].

(** [map_clear(map, release)]: the items handed to [release], in order, and
    the emptied table. *)
Definition entry_item (e : map_entry) : option map_item :=
  match e with Item it => Some it | _ => None end.

Definition map_clear (m : map) : list map_item * map :=
  (omap entry_item (data m), MkMap (size m) 0 (replicate (length (data m)) Null)).

(** [key % map->size] and [(idx + 1) % map->size]. *)
Definition home (n : nat) (k : Z) : nat := Z.to_nat (k mod Z.of_nat n).
Definition next_idx (n idx : nat) : nat := ((idx + 1) mod n)%nat.

(** The loop of [map_hash]: the slot chosen for [k] and whether it was free. *)
Fixpoint map_hash_loop (n : nat) (d : list map_entry) (k : Z) (idx fuel : nat)
    : option (nat * bool) :=
  match fuel with
  | O => None
  | S fuel' =>
      match d !! idx with
      | Some (Item it) =>
          if key it =? k then Some (idx, false)
          else map_hash_loop n d k (next_idx n idx) fuel'
      | _ => Some (idx, true)
      end
  end.

(** [map_hash(map, key)]: an error code or the index of the slot; [count] grows
    when the slot was free. *)
Definition map_hash (m : map) (k : Z) : map * (Z + nat) :=
  if (count m =? size m)%nat then (m, inl (-1))
  else
    match map_hash_loop (size m) (data m) k (home (size m) k) (size m) with
    | Some (idx, true) => (MkMap (size m) (count m + 1) (data m), inr idx)
    | Some (idx, false) => (m, inr idx)
    | None => (m, inl (-2))
    end.

(** [map->data[rc].item = value], with the key written into the item. *)
Definition set_slot (m : map) (idx : nat) (k : Z) (value : option V) : map :=
  let e := match value with Some v => Item (MkItem k v) | None => Null end in
  MkMap (size m) (count m) (<[idx := e]> (data m)).

(** The loop of [map_rehash] that puts the live items of the old array into the
    new one; [put] is [map_put]. *)
Fixpoint map_rehash_loop (put : map -> Z -> V -> outcome (map * Z))
    (oldt : list map_entry) (m : map) : outcome (map * Z) :=
  match oldt with
  | [] => Ret (m, 0)
  | Item it :: oldt' =>
      '(m', rc) ← put m (key it) (payload it);
      if rc <? 0 then Ret (m', rc) else map_rehash_loop put oldt' m'
  | _ :: oldt' => map_rehash_loop put oldt' m
  end.

Definition map_rehash (put : map -> Z -> V -> outcome (map * Z)) (calloc_ok : bool)
    (m : map) : outcome (map * Z) :=
  if calloc_ok then
    map_rehash_loop put (data m) (MkMap (size m + 256) 0 (replicate (size m + 256) Null))
  else Ret (m, -1).

(** [map_reput(map, key, value, old)]: the table, the return code and what was
    written to [*old].  [calloc_ok] says whether [calloc] succeeds; [fuel] bounds
    the recursion through [map_rehash] and the retries. *)
Fixpoint map_reput_fuel (fuel : nat) (calloc_ok : bool) (m : map) (k : Z) (value : option V)
    : outcome (map * Z * option map_item) :=
  match fuel with
  | O => OutOfFuel
  | S fuel' =>
      match map_hash m k with
      | (m1, inr idx) =>
          let old := match data m1 !! idx with Some (Item it) => Some it | _ => None end in
          Ret (set_slot m1 idx k value, 0, old)
      | (m1, inl _) =>
          '(m2, rc) ← map_rehash (fun m' k' v' =>
                         r ← map_reput_fuel fuel' calloc_ok m' k' (Some v'); Ret (fst r))
                       calloc_ok m1;
          if rc <? 0 then Ret (m2, rc, None)
          else map_reput_fuel fuel' calloc_ok m2 k value
      end
  end.

(** A call rehashes at most once, and the insertions of that rehash never
    rehash again (see [map_reput_no_rehash] and [map_reput_total]), so two
    levels are enough. *)
Definition map_reput (calloc_ok : bool) (m : map) (k : Z) (value : option V) :=
  map_reput_fuel 2 calloc_ok m k value.

Definition map_put (calloc_ok : bool) (m : map) (k : Z) (value : option V)
    : outcome (map * Z) :=
  r ← map_reput calloc_ok m k value; Ret (fst r).

(** The loop of [map_find]. *)
Fixpoint map_find_loop (n : nat) (d : list map_entry) (k : Z) (idx fuel : nat)
    : option nat :=
  match fuel with
  | O => None
  | S fuel' =>
      match d !! idx with
      | Some Deleted => map_find_loop n d k (next_idx n idx) fuel'
      | Some (Item it) =>
          if key it =? k then Some idx
          else map_find_loop n d k (next_idx n idx) fuel'
      | _ => None
      end
  end.

Definition map_find (m : map) (k : Z) : option nat :=
  if (size m =? 0)%nat then None
  else map_find_loop (size m) (data m) k (home (size m) k) (size m).

Definition map_contains (m : map) (k : Z) : Z :=
  match map_find m k with None => 0 | Some _ => 1 end.

Definition map_get (m : map) (k : Z) : option map_item :=
  match map_find m k with
  | None => None
  | Some i => data m !! i ≫= entry_item
  end.

(** [map_remove(map, key)]: the table and [!e]. *)
Definition map_remove (m : map) (k : Z) : map * Z :=
  match map_find m k with
  | Some i => (MkMap (size m) (count m - 1) (<[i := Deleted]> (data m)), 0)
  | None => (m, 1)
  end.

Definition map_length (m : option map) : nat :=
  match m with Some m => count m | None => 0 end.

(** Iterators are indices; [map_iter_from(map, start)] is the next live slot. *)
Fixpoint map_iter_loop (d : list map_entry) (i fuel : nat) : option nat :=
  match fuel with
  | O => None
  | S fuel' =>
      match d !! i with
      | Some (Item _) => Some i
      | _ => map_iter_loop d (i + 1) fuel'
      end
  end.

Definition map_iter_from (m : map) (start : nat) : option nat :=
  map_iter_loop (data m) start (size m - start).

Definition map_iter_next (m : map) (iter : option nat) : option nat :=
  match iter with None => None | Some i => map_iter_from m (i + 1) end.

Definition map_iter_first (m : map) : option nat := map_iter_from m 0.

Definition map_iter_item (m : map) (iter : nat) : option map_item :=
  data m !! iter ≫= entry_item.

(** [map_for_each(map, iter)] over a table its body does not change: the items
    in the order they are visited. *)
Fixpoint map_for_each_loop (m : map) (iter : option nat) (fuel : nat) : list map_item :=
  match fuel, iter with
  | S fuel', Some i =>
      match map_iter_item m i with
      | Some it => it :: map_for_each_loop m (map_iter_next m iter) fuel'
      | None => []
      end
  | _, _ => []
  end.

Definition map_for_each (m : map) : list map_item :=
  map_for_each_loop m (map_iter_first m) (size m).

End map_ops.

Arguments map_item V : clear implicits.
Arguments map_entry V : clear implicits.
Arguments map V : clear implicits.

(** ** Well-formed tables *)

Section map_facts.
Context {V : Type}.
Implicit Types (m : map V) (d : list (map_entry V)) (it : map_item V) (k : Z).

(** The [j]-th slot probed for key [k] in a table of [n] slots. *)
Definition probe (n : nat) (k : Z) (j : nat) : nat := ((home n k + j) mod n)%nat.

(** The live items, in array order. *)
Definition items m : list (map_item V) := omap entry_item (data m).

(** No empty slot lies between the home slot of a live item and the item. *)
Definition reachable d : Prop :=
  forall i it, d !! i = Some (Item it) ->
    exists j, (j < length d)%nat /\ i = probe (length d) (key it) j
      /\ forall j', (j' < j)%nat -> d !! probe (length d) (key it) j' <> Some Null.

Definition map_wf m : Prop :=
  size m = length (data m) /\ count m = length (items m) /\ reachable (data m).

(** No two live items have the same key. *)
Definition map_uniq m : Prop := NoDup (key <$> items m).

(** A slot [map_find] steps over when it looks for [k]. *)
Definition skips k (e : map_entry V) : Prop :=
  e = Deleted \/ exists it, e = Item it /\ key it <> k.

(** A slot both loops step over: a live item of another key. *)
Definition other_item k (e : map_entry V) : Prop := exists it, e = Item it /\ key it <> k.

(** *** Probe sequences *)

Lemma probe_lt n k j : (0 < n)%nat -> (probe n k j < n)%nat.
Proof. intros. unfold probe. apply Nat.mod_upper_bound. lia. Qed.

Lemma home_lt n k : (0 < n)%nat -> (home n k < n)%nat.
Proof. intros. unfold home. pose proof (Z.mod_pos_bound k (Z.of_nat n)). lia. Qed.

Lemma probe_0 n k : (0 < n)%nat -> probe n k 0 = home n k.
Proof.
  intros. unfold probe. rewrite Nat.add_0_r. apply Nat.mod_small. by apply home_lt.
Qed.

Lemma next_idx_probe n k j : (0 < n)%nat -> next_idx n (probe n k j) = probe n k (S j).
Proof.
  intros. unfold next_idx, probe. rewrite Nat.Div0.add_mod_idemp_l. f_equal. lia.
Qed.

(** Every slot is probed. *)
Lemma probe_surj n k i : (i < n)%nat -> exists j, (j < n)%nat /\ probe n k j = i.
Proof.
  intros Hi. pose proof (home_lt n k ltac:(lia)) as Hh.
  destruct (decide (home n k <= i)%nat).
  - exists (i - home n k)%nat. split; [lia|]. unfold probe.
    replace (home n k + (i - home n k))%nat with i by lia. by apply Nat.mod_small.
  - exists (i + n - home n k)%nat. split; [lia|]. unfold probe.
    replace (home n k + (i + n - home n k))%nat with (i + 1 * n)%nat by lia.
    rewrite Nat.Div0.mod_add. by apply Nat.mod_small.
Qed.

(** *** What the two loops compute *)

Lemma map_find_loop_spec d k j fuel :
  (0 < length d)%nat -> (j + fuel = length d)%nat ->
  (forall j', (j' < j)%nat -> exists e, d !! probe (length d) k j' = Some e /\ skips k e) ->
  match map_find_loop (length d) d k (probe (length d) k j) fuel with
  | Some i => exists j1 it, (j1 < length d)%nat /\ i = probe (length d) k j1
      /\ d !! i = Some (Item it) /\ key it = k
      /\ (forall j', (j' < j1)%nat -> exists e, d !! probe (length d) k j' = Some e /\ skips k e)
  | None => exists j1, (j1 <= length d)%nat
      /\ (j1 = length d \/ d !! probe (length d) k j1 = Some Null)
      /\ (forall j', (j' < j1)%nat -> exists e, d !! probe (length d) k j' = Some e /\ skips k e)
  end.
Proof.
  intros Hn. revert j. induction fuel as [|fuel IH]; intros j Hj Hsk; simpl.
  { exists j. split_and!; auto; lia. }
  pose proof (probe_lt (length d) k j Hn) as Hlt.
  apply lookup_lt_is_Some_2 in Hlt as [e He]. rewrite He.
  assert (skips k e -> forall j', (j' < S j)%nat ->
    exists e', d !! probe (length d) k j' = Some e' /\ skips k e') as Hstep.
  { intros Hse j' Hj'. destruct (decide (j' = j)) as [->|]; [by eauto|].
    apply Hsk. lia. }
  destruct e as [| |it].
  - exists j. split_and!; auto; lia.
  - rewrite next_idx_probe by done. apply IH; [lia|]. apply Hstep. by left.
  - destruct (Z.eqb_spec (key it) k) as [Hk|Hk].
    + exists j, it. split_and!; auto; lia.
    + rewrite next_idx_probe by done. apply IH; [lia|]. apply Hstep. right. by exists it.
Qed.

Lemma map_find_spec m k :
  size m = length (data m) ->
  match map_find m k with
  | Some i => exists j1 it, (j1 < size m)%nat /\ i = probe (size m) k j1
      /\ data m !! i = Some (Item it) /\ key it = k
      /\ (forall j', (j' < j1)%nat -> exists e, data m !! probe (size m) k j' = Some e /\ skips k e)
  | None => exists j1, (j1 <= size m)%nat
      /\ (j1 = size m \/ data m !! probe (size m) k j1 = Some Null)
      /\ (forall j', (j' < j1)%nat -> exists e, data m !! probe (size m) k j' = Some e /\ skips k e)
  end.
Proof.
  intros Hs. unfold map_find. destruct (Nat.eqb_spec (size m) 0) as [Hz|Hz].
  { exists 0%nat. split_and!; [lia|by left|lia]. }
  rewrite Hs in *. rewrite <- probe_0 by lia.
  apply map_find_loop_spec; lia.
Qed.

Lemma map_hash_loop_spec d k j fuel :
  (0 < length d)%nat -> (j + fuel = length d)%nat ->
  (forall j', (j' < j)%nat -> exists e, d !! probe (length d) k j' = Some e /\ other_item k e) ->
  match map_hash_loop (length d) d k (probe (length d) k j) fuel with
  | Some (i, free) => exists j1 e, (j1 < length d)%nat /\ i = probe (length d) k j1
      /\ d !! i = Some e
      /\ (if free then entry_item e = None else exists it, e = Item it /\ key it = k)
      /\ (forall j', (j' < j1)%nat -> exists e', d !! probe (length d) k j' = Some e' /\ other_item k e')
  | None =>
      forall j', (j' < length d)%nat -> exists e, d !! probe (length d) k j' = Some e /\ other_item k e
  end.
Proof.
  intros Hn. revert j. induction fuel as [|fuel IH]; intros j Hj Hsk; simpl.
  { intros. apply Hsk. lia. }
  pose proof (probe_lt (length d) k j Hn) as Hlt.
  apply lookup_lt_is_Some_2 in Hlt as [e He]. rewrite He.
  destruct e as [| |it]; try (exists j; eexists; split_and!; eauto; lia).
  destruct (Z.eqb_spec (key it) k) as [Hk|Hk].
  - exists j, (Item it). split_and!; eauto; lia.
  - rewrite next_idx_probe by done. apply IH; [lia|].
    intros j' Hj'. destruct (decide (j' = j)) as [->|]; [|apply Hsk; lia].
    exists (Item it). split; [done|]. by exists it.
Qed.

(** *** Items and slots *)

Lemma elem_of_items m it : it ∈ items m <-> exists i, data m !! i = Some (Item it).
Proof.
  unfold items. rewrite list_elem_of_omap. split.
  - intros (e & He & Hit). destruct e; simplify_eq/=.
    by apply list_elem_of_lookup in He.
  - intros [i Hi]. exists (Item it). split; [|done].
    apply list_elem_of_lookup. eauto.
Qed.

Lemma items_insert_split d i e e' :
  d !! i = Some e ->
  exists l1 l2, omap entry_item d = l1 ++ omap entry_item [e] ++ l2
    /\ omap entry_item (<[i := e']> d) = l1 ++ omap entry_item [e'] ++ l2.
Proof.
  intros Hi. exists (omap entry_item (take i d)), (omap entry_item (drop (S i) d)).
  pose proof (lookup_lt_Some _ _ _ Hi) as Hlt. split.
  - rewrite <- (take_drop_middle d i e Hi) at 1. rewrite omap_app. by destruct e.
  - rewrite insert_take_drop by done. rewrite omap_app. by destruct e'.
Qed.

(** Filling a free slot adds an item; freeing a slot removes its item. *)
Lemma items_fill d i e it :
  d !! i = Some e -> entry_item e = None ->
  omap entry_item (<[i := Item it]> d) ≡ₚ it :: omap entry_item d.
Proof.
  intros Hi He. destruct (items_insert_split d i e (Item it) Hi) as (l1 & l2 & -> & ->).
  simpl. rewrite He. simpl. by rewrite Permutation_middle.
Qed.

Lemma items_free d i it e :
  d !! i = Some (Item it) -> entry_item e = None ->
  it :: omap entry_item (<[i := e]> d) ≡ₚ omap entry_item d.
Proof.
  intros Hi He. destruct (items_insert_split d i _ e Hi) as (l1 & l2 & -> & ->).
  simpl. rewrite He. simpl. by rewrite Permutation_middle.
Qed.

Lemma length_items_le d : (length (omap (@entry_item V) d) <= length d)%nat.
Proof. induction d as [|[] d IH]; csimpl; lia. Qed.

Lemma items_full d :
  (forall i e, d !! i = Some e -> entry_item e <> None) ->
  length (omap (@entry_item V) d) = length d.
Proof.
  induction d as [|e d IH]; intros H; [done|].
  pose proof (H 0%nat e eq_refl). destruct e; csimpl in *; try done.
  f_equal. apply IH. intros i e' Hi. apply (H (S i) e' Hi).
Qed.

(** *** Lookups of a well-formed table *)

Lemma map_get_Some m k it :
  size m = length (data m) -> map_get m k = Some it -> it ∈ items m /\ key it = k.
Proof.
  intros Hs Hg. unfold map_get in Hg. pose proof (map_find_spec m k Hs) as Hf.
  destruct (map_find m k) as [i|]; [|done].
  destruct Hf as (j1 & it' & _ & _ & Hi & Hk & _).
  rewrite Hi in Hg. simplify_eq/=. split; [|done]. apply elem_of_items. eauto.
Qed.

Lemma map_get_None m k :
  map_wf m -> map_get m k = None <-> (forall it, it ∈ items m -> key it <> k).
Proof.
  intros (Hs & Hc & Hr). unfold map_get. pose proof (map_find_spec m k Hs) as Hf.
  destruct (map_find m k) as [i|]; split.
  - destruct Hf as (? & it' & _ & _ & Hi & _). by rewrite Hi.
  - intros H. destruct Hf as (? & it' & _ & _ & Hi & Hk & _).
    exfalso. apply (H it'); [|done]. apply elem_of_items. eauto.
  - intros _ it [i Hi]%elem_of_items Hk.
    destruct (Hr i it Hi) as (j & Hj & Hij & Hnn). rewrite <- Hs, Hk in *.
    destruct Hf as (j1 & Hj1 & Hstop & Hsk).
    destruct (decide (j < j1)%nat) as [Hlt|Hge].
    + destruct (Hsk j Hlt) as (e & He & [->|(it' & -> & Hne)]); simplify_eq.
    + destruct Hstop as [->|Hnull]; [lia|].
      destruct (decide (j = j1)) as [->|]; [rewrite <- Hij in Hnull; by simplify_eq|].
      apply (Hnn j1); [lia|done].
  - done.
Qed.

(** With unique keys a lookup is decided by the items alone. *)
Lemma map_get_uniq m k it :
  map_wf m -> map_uniq m -> map_get m k = Some it <-> it ∈ items m /\ key it = k.
Proof.
  intros Hwf Hu. split; [apply map_get_Some, Hwf|].
  intros [Hin Hk]. destruct (map_get m k) as [it'|] eqn:Hg.
  - apply map_get_Some in Hg as [Hin' Hk']; [|apply Hwf]. f_equal.
    unfold map_uniq in Hu.
    apply list_elem_of_lookup in Hin as [a Ha]. apply list_elem_of_lookup in Hin' as [b Hb].
    assert (a = b) as ->; [|congruence].
    eapply NoDup_lookup; [exact Hu| |].
    + rewrite list_lookup_fmap, Ha. done.
    + rewrite list_lookup_fmap, Hb. simpl. congruence.
  - rewrite map_get_None in Hg by done. by destruct (Hg it).
Qed.

(** Hence two tables with the same items answer alike. *)
Lemma map_get_ext m m' k :
  map_wf m -> map_uniq m -> map_wf m' -> map_uniq m' ->
  items m ≡ₚ items m' -> map_get m k = map_get m' k.
Proof.
  intros Hw Hu Hw' Hu' Hp. apply option_eq. intros it.
  rewrite !map_get_uniq by done. by rewrite Hp.
Qed.

Lemma map_uniq_perm m m' : items m ≡ₚ items m' -> map_uniq m -> map_uniq m'.
Proof. unfold map_uniq. intros Hp. by rewrite Hp. Qed.

Lemma map_uniq_cons m m' it :
  map_wf m -> map_uniq m -> items m' ≡ₚ it :: items m -> map_get m (key it) = None ->
  map_uniq m'.
Proof.
  intros Hwf Hu Hp Hg. unfold map_uniq in *. rewrite Hp. csimpl.
  apply NoDup_cons_2; [|done]. intros (it' & Hk & Hin)%list_elem_of_fmap.
  rewrite map_get_None in Hg by done. by apply (Hg it').
Qed.

(** An item of another key does not matter to a lookup. *)
Lemma map_get_cons m m' it k :
  map_wf m -> map_uniq m -> map_wf m' -> map_uniq m' -> items m' ≡ₚ it :: items m ->
  key it <> k -> map_get m' k = map_get m k.
Proof.
  intros Hwf Hu Hwf' Hu' Hp Hk. apply option_eq. intros x.
  rewrite !map_get_uniq, Hp, elem_of_cons by done. naive_solver.
Qed.

(** *** Writing a slot *)

Lemma insert_not_null d i e x :
  e <> Null -> d !! x <> Some Null -> <[i := e]> d !! x <> Some Null.
Proof.
  intros He Hx. rewrite list_lookup_insert. case_decide; [|done].
  intros [=]. done.
Qed.

Lemma reachable_insert d j it :
  reachable d -> (j < length d)%nat ->
  (forall j', (j' < j)%nat -> d !! probe (length d) (key it) j' <> Some Null) ->
  reachable (<[probe (length d) (key it) j := Item it]> d).
Proof.
  intros Hr Hj Hnn i it' Hi. rewrite length_insert.
  destruct (decide (i = probe (length d) (key it) j)) as [->|Hne].
  - rewrite list_lookup_insert_eq in Hi by (apply probe_lt; lia). simplify_eq.
    exists j. split_and!; [done..|]. intros. apply insert_not_null; auto.
  - rewrite list_lookup_insert_ne in Hi by done.
    destruct (Hr i it' Hi) as (j' & ? & ? & Hn'). exists j'. split_and!; [done..|].
    intros. apply insert_not_null; auto.
Qed.

Lemma reachable_delete d i : reachable d -> reachable (<[i := Deleted]> d).
Proof.
  intros Hr x it Hx. rewrite length_insert. rewrite list_lookup_insert in Hx.
  case_decide; [done|]. destruct (Hr x it Hx) as (j & ? & ? & Hn).
  exists j. split_and!; [done..|]. intros. apply insert_not_null; auto.
Qed.

(** [map_hash] on a table with a free slot: it answers an index, which holds
    the key or is free, and all slots before it hold other keys. *)
Lemma map_hash_ok m k :
  map_wf m -> (count m < size m)%nat ->
  exists m1 j e, map_hash m k = (m1, inr (probe (size m) k j)) /\ (j < size m)%nat
    /\ size m1 = size m /\ data m1 = data m
    /\ data m !! probe (size m) k j = Some e
    /\ (forall j', (j' < j)%nat -> exists e', data m !! probe (size m) k j' = Some e' /\ other_item k e')
    /\ ((entry_item e = None /\ count m1 = count m + 1)%nat
        \/ (exists it, e = Item it /\ key it = k /\ count m1 = count m)).
Proof.
  intros (Hs & Hc & Hr) Hlt. unfold map_hash.
  destruct (Nat.eqb_spec (count m) (size m)); [lia|].
  pose proof (map_hash_loop_spec (data m) k 0 (length (data m)) ltac:(lia) ltac:(lia)
                ltac:(lia)) as Hl.
  rewrite probe_0 in Hl by lia. rewrite <- Hs in Hl.
  destruct (map_hash_loop _ _ _ _ _) as [[i free]|].
  - destruct Hl as (j & e & Hj & -> & He & Hfree & Hbefore).
    destruct free; [|destruct Hfree as (it & -> & Hk)]; eexists _, j, _; split_and!; eauto.
  - exfalso. pose proof (items_full (data m)) as Hfull. unfold items in Hc.
    rewrite Hfull in Hc; [lia|].
    intros i e Hi. destruct (probe_surj (size m) k i) as (j & Hj & Hp).
    { rewrite Hs. by eapply lookup_lt_Some. }
    destruct (Hl j Hj) as (e' & He' & it & -> & _). rewrite Hp in He'. by simplify_eq.
Qed.

Lemma probe_inj n k j j' : (j < n)%nat -> (j' < n)%nat -> probe n k j = probe n k j' -> j = j'.
Proof.
  intros Hj Hj'. unfold probe. pose proof (home_lt n k ltac:(lia)) as Hh.
  intros He.
  assert (forall x, (x < n)%nat ->
    ((home n k + x) mod n = home n k + x /\ home n k + x < n
     \/ (home n k + x) mod n = home n k + x - n /\ n <= home n k + x)%nat) as Hmod.
  { intros x Hx. destruct (decide (home n k + x < n)%nat).
    - left. rewrite Nat.mod_small; lia.
    - right. split; [|lia].
      replace (home n k + x)%nat with (home n k + x - n + 1 * n)%nat at 1 by lia.
      rewrite Nat.Div0.mod_add. apply Nat.mod_small. lia. }
  pose proof (Hmod j Hj). pose proof (Hmod j' Hj'). lia.
Qed.

(** An item is found when the slots probed before it hold other keys. *)
Lemma map_get_at m k j it :
  size m = length (data m) -> (j < size m)%nat ->
  data m !! probe (size m) k j = Some (Item it) -> key it = k ->
  (forall j', (j' < j)%nat -> exists e, data m !! probe (size m) k j' = Some e /\ other_item k e) ->
  map_get m k = Some it.
Proof.
  intros Hs Hj Hat Hk Hb. unfold map_get. pose proof (map_find_spec m k Hs) as Hf.
  assert (forall j1, (j1 < j)%nat -> data m !! probe (size m) k j1 <> Some Null
    /\ forall it', data m !! probe (size m) k j1 = Some (Item it') -> key it' <> k) as Hb'.
  { intros j1 H1. destruct (Hb j1 H1) as (e & He & it' & -> & Hne). rewrite He.
    split; [done|]. intros it'' [=<-]. done. }
  assert (forall e, data m !! probe (size m) k j = Some e -> ~ skips k e) as Hns.
  { intros e He [->|(it' & -> & Hne)]; rewrite Hat in He; by simplify_eq. }
  destruct (map_find m k) as [i|].
  - destruct Hf as (j1 & it' & Hj1 & -> & Hi & Hk' & Hsk). rewrite Hi. simpl.
    destruct (lt_eq_lt_dec j1 j) as [[Hl| ->]|Hl].
    + exfalso. apply (proj2 (Hb' j1 Hl) it'); done.
    + rewrite Hat in Hi. by simplify_eq.
    + destruct (Hsk j Hl) as (e & He & Hse). by apply Hns in He.
  - destruct Hf as (j1 & Hj1 & Hstop & Hsk). exfalso.
    destruct (lt_eq_lt_dec j1 j) as [[Hl| ->]|Hl].
    + destruct Hstop as [->|Hnull]; [lia|]. by apply (Hb' j1 Hl).
    + destruct Hstop as [->|Hnull]; [lia|]. by rewrite Hat in Hnull.
    + destruct (Hsk j Hl) as (e & He & Hse). by apply Hns in He.
Qed.

(** An empty slot reached over other keys shows that the key is absent. *)
Lemma map_get_null m k j :
  map_wf m -> (j < size m)%nat -> data m !! probe (size m) k j = Some Null ->
  (forall j', (j' < j)%nat -> exists e, data m !! probe (size m) k j' = Some e /\ other_item k e) ->
  map_get m k = None.
Proof.
  intros Hwf Hj Hnull Hb. apply map_get_None; [done|]. intros it [i Hi]%elem_of_items Hk.
  destruct Hwf as (Hs & _ & Hr). destruct (Hr i it Hi) as (j2 & Hj2 & -> & Hnn).
  rewrite <- Hs, Hk in *. destruct (lt_eq_lt_dec j2 j) as [[Hl| ->]|Hl].
  - destruct (Hb j2 Hl) as (e & He & it' & -> & Hne). by simplify_eq.
  - by simplify_eq.
  - by apply (Hnn j Hl).
Qed.

Lemma not_deleted_insert d i it :
  Deleted ∉ d -> Deleted ∉ <[i := Item it]> d.
Proof.
  intros Hd [x Hx]%list_elem_of_lookup. rewrite list_lookup_insert in Hx.
  case_decide; [done|]. apply Hd, list_elem_of_lookup. eauto.
Qed.

(** [map_reput] on a table with a free slot: one write, no rehash. *)
Lemma map_reput_no_rehash fuel ok m k v :
  map_wf m -> (count m < size m)%nat ->
  exists m' old, map_reput_fuel (S fuel) ok m k (Some v) = Ret (m', 0, old)
    /\ map_wf m' /\ size m' = size m
    /\ map_get m' k = Some (MkItem k v)
    /\ (Deleted ∉ data m -> Deleted ∉ data m')
    /\ ((old = None /\ items m' ≡ₚ MkItem k v :: items m
          /\ (Deleted ∉ data m -> map_get m k = None))
        \/ (exists it l1 l2, old = Some it /\ key it = k
              /\ items m = l1 ++ it :: l2 /\ items m' = l1 ++ MkItem k v :: l2)).
Proof.
  intros Hwf Hlt. destruct (map_hash_ok m k Hwf Hlt)
    as (m1 & j & e & Hh & Hj & Hs1 & Hd1 & He & Hbefore & Hcase).
  pose proof Hwf as (Hs & Hc & Hr). simpl. rewrite Hh, Hd1, He. eexists _, _.
  split; [reflexivity|]. unfold set_slot. rewrite Hd1, Hs1.
  set (d' := <[probe (size m) k j := Item (MkItem k v)]> (data m)).
  assert (length d' = length (data m)) as Hld by apply length_insert.
  assert (reachable d') as Hr'.
  { unfold d'. rewrite Hs. apply (reachable_insert _ _ (MkItem k v)); [done|lia|].
    intros j' Hj'. rewrite <- Hs. simpl. destruct (Hbefore j' Hj') as (e' & -> & it & -> & _).
    done. }
  assert (map_get (MkMap (size m) (count m1) d') k = Some (MkItem k v)) as Hget.
  { apply (map_get_at _ _ j); simpl; [lia|done| |done|].
    - apply list_lookup_insert_eq. rewrite <- Hs. apply probe_lt. lia.
    - intros j' Hj'. unfold d'. rewrite list_lookup_insert_ne; [by apply Hbefore|].
      intros Heq. apply probe_inj in Heq; lia. }
  destruct Hcase as [[Hfree Hcnt]|(it & -> & Hk & Hcnt)].
  - pose proof (items_fill (data m) _ e (MkItem k v) He Hfree) as Hp. fold d' in Hp.
    split_and!; [split_and!|done|done|by apply not_deleted_insert|left]; simpl; [lia| |done|].
    { unfold items in *. simpl. rewrite Hp. simpl. lia. }
    destruct e; simpl in *; [|split_and!; [done..|]|done].
    + split_and!; [done..|]. intros _. by eapply map_get_null.
    + intros Hnd. exfalso. apply Hnd, list_elem_of_lookup. eauto.
  - destruct (items_insert_split (data m) _ _ (Item (MkItem k v)) He) as (l1 & l2 & H1 & H2).
    fold d' in H2. csimpl in *.
    split_and!; [split_and!|done|done|by apply not_deleted_insert|right]; simpl;
      [lia| |done|by exists it, l1, l2].
    unfold items in *. simpl. rewrite H2, Hcnt, Hc, H1, !length_app. done.
Qed.

(** *** Rehashing *)

(** The insertion function [map_rehash] is given. *)
Definition put_fuel (fuel : nat) (ok : bool) (m : map V) (k : Z) (v : V) : outcome (map V * Z) :=
  r ← map_reput_fuel fuel ok m k (Some v); Ret (fst r).

#[local] Arguments map_reput_fuel : simpl never.

Lemma map_rehash_loop_spec fuel ok oldt : forall m,
  map_wf m -> (count m + length (omap entry_item oldt) < size m)%nat ->
  exists m', map_rehash_loop (put_fuel (S fuel) ok) oldt m = Ret (m', 0)
    /\ map_wf m' /\ size m' = size m
    /\ (count m' <= count m + length (omap entry_item oldt))%nat
    /\ (forall it, it ∈ items m' -> it ∈ items m \/ it ∈ omap entry_item oldt)
    /\ (Deleted ∉ data m -> Deleted ∉ data m')
    /\ (NoDup (key <$> items m ++ omap entry_item oldt) ->
        items m' ≡ₚ items m ++ omap entry_item oldt).
Proof.
  induction oldt as [|e oldt IH]; intros m Hwf Hlt.
  { exists m. csimpl in *. rewrite app_nil_r. split_and!; auto; lia. }
  destruct e as [| |it]; csimpl in *; try by apply IH.
  destruct (map_reput_no_rehash fuel ok m (key it) (payload it) Hwf ltac:(lia))
    as (m1 & old & Hput & Hwf1 & Hs1 & _ & Hnd1 & Hitems).
  assert (put_fuel (S fuel) ok m (key it) (payload it) = Ret (m1, 0)) as ->.
  { unfold put_fuel. by rewrite Hput. }
  csimpl.
  assert (MkItem (key it) (payload it) = it) as Heta by (by destruct it). rewrite Heta in *.
  pose proof (proj1 (proj2 Hwf)) as Hc. pose proof (proj1 (proj2 Hwf1)) as Hc1.
  assert (count m1 <= S (count m))%nat as Hle.
  { rewrite Hc, Hc1. destruct Hitems as [(_ & Hp & _)|(it' & l1 & l2 & _ & _ & H1 & H2)].
    - rewrite Hp. simpl. lia.
    - rewrite H1, H2, !length_app. simpl. lia. }
  destruct (IH m1 Hwf1 ltac:(lia)) as (m' & Hm' & Hwf' & Hs' & Hc' & Hsub & Hnd' & Hperm).
  exists m'. split_and!; [done|done|congruence|lia| |by auto|].
  - intros x Hx. destruct (Hsub x Hx) as [Hx1|Hx1]; [|set_solver].
    destruct Hitems as [(_ & Hp & _)|(it' & l1 & l2 & _ & _ & H1 & H2)].
    + rewrite Hp in Hx1. set_solver.
    + rewrite H2 in Hx1. rewrite H1. set_solver.
  - intros Hnd. destruct Hitems as [(_ & Hp & _)|(it' & l1 & l2 & _ & Hk & H1 & H2)].
    + rewrite Hperm; rewrite Hp; [|rewrite <- Permutation_middle in Hnd; done].
      by rewrite <- Permutation_middle.
    + exfalso. rewrite H1, !fmap_app in Hnd. csimpl in Hnd. rewrite Hk in Hnd.
      rewrite <- Permutation_middle in Hnd. apply NoDup_cons_1_1 in Hnd as Hni.
      apply Hni. set_solver.
Qed.

Lemma map_wf_create : map_wf (@map_create V).
Proof. split_and!; [done..|]. intros i it Hi. done. Qed.

Lemma map_wf_fresh n : map_wf (MkMap n 0 (replicate n (@Null V))).
Proof.
  assert (omap entry_item (replicate n (@Null V)) = []) as Hom.
  { induction n; csimpl; done. }
  split_and!; [by simpl; rewrite length_replicate|by unfold items; simpl; rewrite Hom|].
  intros i it Hi. apply lookup_replicate in Hi as [? _]. done.
Qed.

Lemma items_fresh n c : items (MkMap n c (replicate n (@Null V))) = [].
Proof. unfold items. simpl. induction n; csimpl; done. Qed.

Lemma map_rehash_ok fuel m :
  map_wf m ->
  exists m', map_rehash (put_fuel (S fuel) true) true m = Ret (m', 0)
    /\ map_wf m' /\ size m' = (size m + 256)%nat /\ (count m' < size m')%nat
    /\ Deleted ∉ data m'
    /\ (forall it, it ∈ items m' -> it ∈ items m)
    /\ (map_uniq m -> items m' ≡ₚ items m).
Proof.
  intros (Hs & Hc & Hr). unfold map_rehash.
  pose proof (length_items_le (data m)) as Hle.
  destruct (map_rehash_loop_spec fuel true (data m) _ (map_wf_fresh (size m + 256)))
    as (m' & Hm' & Hwf' & Hs' & Hc' & Hsub & Hnd & Hperm).
  { simpl. lia. }
  simpl in *. exists m'. split_and!; [done..|lia| | |].
  - apply Hnd. intros [? _]%elem_of_replicate. done.
  - intros it Hit. destruct (Hsub it Hit) as [H|H]; [|done].
    rewrite items_fresh in H. set_solver.
  - rewrite items_fresh in Hperm. done.
Qed.

(** *** Insertion, on every branch *)

(** One write to a table [m2] that holds the items of [m]. *)
Lemma map_reput_write fuel ok m m2 k v :
  map_wf m -> map_wf m2 -> (count m2 < size m2)%nat ->
  (forall it, it ∈ items m2 -> it ∈ items m) -> (map_uniq m -> items m2 ≡ₚ items m) ->
  exists m' old, map_reput_fuel (S fuel) ok m2 k (Some v) = Ret (m', 0, old) /\ map_wf m'
    /\ map_get m' k = Some (MkItem k v)
    /\ (forall it, it ∈ items m' -> it = MkItem k v \/ it ∈ items m)
    /\ (map_uniq m -> map_get m k = None -> old = None /\ items m' ≡ₚ MkItem k v :: items m)
    /\ (map_uniq m -> Deleted ∉ data m2 -> forall it, map_get m k = Some it ->
         exists l, items m ≡ₚ it :: l /\ items m' ≡ₚ MkItem k v :: l /\ old = Some it).
Proof.
  intros Hwf Hwf2 Hlt2 Hsub Hperm.
  destruct (map_reput_no_rehash fuel ok m2 k v Hwf2 Hlt2)
    as (m' & old & Hr & Hwf' & _ & Hget & _ & Hit).
  assert (map_uniq m -> map_uniq m2) as Hu2.
  { intros Hu. apply (map_uniq_perm m); [|done]. symmetry. auto. }
  assert (map_uniq m -> map_get m2 k = map_get m k) as Hext.
  { intros Hu. apply map_get_ext; auto. }
  exists m', old. destruct Hit as [(-> & Hp & Hnd)|(it & l1 & l2 & -> & Hk & H1 & H2)];
    split_and!; try done.
  - intros it Hin. rewrite Hp in Hin. set_solver.
  - intros Hu _. by rewrite Hp, Hperm.
  - intros Hu Hd it Hg. specialize (Hnd Hd). rewrite Hext in Hnd by done. congruence.
  - intros x Hin. rewrite H2 in Hin. specialize (Hsub x). rewrite H1 in Hsub. set_solver.
  - intros Hu Hg. rewrite <- Hext in Hg by done. rewrite map_get_None in Hg by done.
    exfalso. apply (Hg it); [|done]. rewrite H1. set_solver.
  - intros Hu _ it' Hg. rewrite <- Hext in Hg by done.
    assert (map_get m2 k = Some it) as G2.
    { apply map_get_uniq; [done|by apply Hu2|]. rewrite H1. set_solver. }
    rewrite Hg in G2. simplify_eq. exists (l1 ++ l2).
    rewrite <- Hperm, H1, H2 by done. by rewrite <- !Permutation_middle.
Qed.

(** The effect of [map_reput] with a non-NULL value: it fails only when the table
    is full and [calloc] fails, and then changes nothing. *)
Lemma map_reput_total ok m k v :
  map_wf m ->
  exists m' rc old, map_reput ok m k (Some v) = Ret (m', rc, old) /\ map_wf m'
    /\ ((rc = -1 /\ ok = false /\ count m = size m /\ m' = m /\ old = None)
        \/ (rc = 0 /\ map_get m' k = Some (MkItem k v)
            /\ (forall it, it ∈ items m' -> it = MkItem k v \/ it ∈ items m)
            /\ (map_uniq m -> map_get m k = None ->
                 old = None /\ items m' ≡ₚ MkItem k v :: items m)
            /\ (map_uniq m -> Deleted ∉ data m \/ count m = size m ->
                 forall it, map_get m k = Some it ->
                 exists l, items m ≡ₚ it :: l /\ items m' ≡ₚ MkItem k v :: l /\ old = Some it))).
Proof.
  intros Hwf. pose proof Hwf as (Hs & Hc & _). pose proof (length_items_le (data m)) as Hle.
  fold (items m) in Hle.
  unfold map_reput. destruct (decide (count m = size m)) as [Hfull|Hfree].
  - change (map_reput_fuel 2 ok m k (Some v)) with
      (match map_hash m k with
       | (m1, inr idx) =>
           Ret (set_slot m1 idx k (Some v), 0,
                match data m1 !! idx with Some (Item it) => Some it | _ => None end)
       | (m1, inl _) =>
           map_rehash (put_fuel 1 ok) ok m1 ≫= (fun '(m2, rc) =>
             if rc <? 0 then Ret (m2, rc, None) else map_reput_fuel 1 ok m2 k (Some v))
       end).
    unfold map_hash. rewrite Hfull, Nat.eqb_refl. destruct ok.
    + destruct (map_rehash_ok 0 m Hwf) as (m2 & Hm2 & Hwf2 & _ & Hlt2 & Hnd & Hsub & Hperm).
      rewrite Hm2. csimpl.
      destruct (map_reput_write 0 true m m2 k v) as (m' & old & Hr & Hw' & Hg & Hin & Hf & He); auto.
      exists m', 0, old. split_and!; auto. right. split_and!; auto.
    + unfold map_rehash. csimpl. exists m, (-1), None. split_and!; [done|done|by left].
  - destruct (map_reput_write 1 ok m m k v) as (m' & old & Hr & Hw' & Hg & Hin & Hf & He); auto; [lia|].
    exists m', 0, old. split_and!; auto. right. split_and!; auto.
    intros Hu [Hd|?]; [by apply He|done].
Qed.

(** *** Removal, clearing and iteration *)

Lemma map_remove_spec m k :
  map_wf m ->
  match map_get m k with
  | None => map_remove m k = (m, 1)
  | Some it => exists m', map_remove m k = (m', 0) /\ map_wf m'
      /\ items m ≡ₚ it :: items m' /\ key it = k
  end.
Proof.
  intros (Hs & Hc & Hr). unfold map_get, map_remove.
  pose proof (map_find_spec m k Hs) as Hf. destruct (map_find m k) as [i|]; [|done].
  destruct Hf as (j & it & Hj & -> & Hi & Hk & _). rewrite Hi. simpl.
  pose proof (items_free (data m) _ it Deleted Hi eq_refl) as Hp.
  eexists. split; [reflexivity|]. split_and!; [split_and!|..]; simpl.
  - by rewrite length_insert.
  - unfold items in *. simpl. rewrite <- Hp in Hc. simpl in Hc. lia.
  - by apply reachable_delete.
  - by unfold items; simpl; rewrite Hp.
  - done.
Qed.

Lemma map_clear_spec m :
  map_wf m -> fst (map_clear m) = items m /\ map_wf (snd (map_clear m))
              /\ items (snd (map_clear m)) = [].
Proof.
  intros (Hs & _ & _). unfold map_clear. simpl. rewrite Hs.
  split_and!; [done|apply map_wf_fresh|apply items_fresh].
Qed.

Lemma map_iter_loop_spec d i fuel :
  (i + fuel = length d)%nat ->
  match map_iter_loop d i fuel with
  | Some x => exists it, (i <= x < length d)%nat /\ d !! x = Some (Item it)
      /\ omap entry_item (drop i d) = it :: omap entry_item (drop (S x) d)
  | None => omap entry_item (drop i d) = []
  end.
Proof.
  revert i. induction fuel as [|fuel IH]; intros i Hi; simpl.
  { rewrite drop_ge by lia. done. }
  assert (i < length d)%nat as Hlt by lia.
  apply lookup_lt_is_Some_2 in Hlt as [e He]. rewrite He.
  rewrite (drop_S d e i He). destruct e as [| |it]; csimpl.
  3: { exists it. split_and!; [lia..|done|done]. }
  all: specialize (IH (i + 1)%nat ltac:(lia)); rewrite Nat.add_1_r in *;
    destruct (map_iter_loop d (S i) fuel) as [x|]; [|done];
    destruct IH as (it & ? & ? & ?); exists it; split_and!; [lia..|done|done].
Qed.

Lemma map_for_each_loop_spec m fuel : forall i,
  size m = length (data m) -> (size m <= i + fuel)%nat -> (i <= size m)%nat ->
  map_for_each_loop m (map_iter_from m i) fuel = omap entry_item (drop i (data m)).
Proof.
  induction fuel as [|fuel IH]; intros i Hs Hi Hle; simpl.
  { rewrite drop_ge by lia. done. }
  pose proof (map_iter_loop_spec (data m) i (size m - i) ltac:(lia)) as Hl.
  unfold map_iter_from. destruct (map_iter_loop _ _ _) as [x|]; [|done].
  destruct Hl as (it & Hlt & Hit & ->). unfold map_iter_item. rewrite Hit. simpl. f_equal.
  rewrite Nat.add_1_r. apply IH; lia.
Qed.

Lemma map_for_each_items m : map_wf m -> map_for_each m = items m.
Proof. intros (Hs & _). by apply (map_for_each_loop_spec m _ 0); [|lia|lia]. Qed.

(** *** Removal while iterating *)

Lemma map_remove_shape m k :
  size (fst (map_remove m k)) = size m /\ length (data (fst (map_remove m k))) = length (data m).
Proof. unfold map_remove. destruct (map_find m k); simpl; by rewrite ?length_insert. Qed.

Lemma map_uniq_slot m x y it it' :
  map_uniq m -> (x < y)%nat -> data m !! x = Some (Item it) -> data m !! y = Some (Item it') ->
  key it <> key it'.
Proof.
  intros Hu Hlt Hx Hy Hk. unfold map_uniq, items in Hu.
  rewrite <- (take_drop_middle _ _ _ Hx), omap_app in Hu. csimpl in *.
  rewrite fmap_app in Hu. apply list.NoDup_app in Hu as (_ & _ & Hu). csimpl in *.
  apply NoDup_cons_1_1 in Hu. apply Hu. rewrite Hk. apply list_elem_of_fmap_2.
  apply list_elem_of_omap. exists (Item it'). split; [|done].
  apply list_elem_of_lookup. exists (y - S x)%nat. rewrite lookup_drop. by replace (S x + (y - S x))%nat with y by lia.
Qed.

(** Removing the item an iterator stands on frees its slot and no other. *)
Lemma map_remove_slot m x it :
  map_wf m -> map_uniq m -> data m !! x = Some (Item it) ->
  data (fst (map_remove m (key it))) = <[x := Deleted]> (data m).
Proof.
  intros Hwf Hu Hx. assert (map_get m (key it) = Some it) as Hg.
  { apply map_get_uniq; [done..|]. split; [|done]. apply elem_of_items. eauto. }
  unfold map_get in Hg. unfold map_remove. pose proof (map_find_spec m (key it) (proj1 Hwf)) as Hf.
  destruct (map_find m (key it)) as [y|]; [|done]. simpl.
  destruct Hf as (_ & it' & _ & _ & Hy & Hk & _).
  destruct (lt_eq_lt_dec x y) as [[Hlt| ->]|Hlt]; [|done|].
  - by destruct (map_uniq_slot m x y it it').
  - by destruct (map_uniq_slot m y x it' it).
Qed.

(** After the removal, what is left to visit is what is left in the table. *)
Lemma map_remove_rest m x it :
  map_wf m -> map_uniq m -> data m !! x = Some (Item it) ->
  items m = it :: omap entry_item (drop (S x) (data m)) ->
  items m = it :: items (fst (map_remove m (key it)))
  /\ items (fst (map_remove m (key it)))
     = omap entry_item (drop (S x) (data (fst (map_remove m (key it))))).
Proof.
  intros Hwf Hu Hx Hit. rewrite Hit. unfold items in *. rewrite (map_remove_slot m x it) by done.
  assert (x < length (data m))%nat as Hlt by (by eapply lookup_lt_Some).
  rewrite drop_insert_lt by lia. rewrite insert_take_drop by done.
  rewrite <- (take_drop_middle _ _ _ Hx) in Hit at 1. rewrite omap_app in *. csimpl in *.
  destruct (omap entry_item (take x (data m))) as [|it' l] eqn:Ht;
    [done|].
  simpl in Hit. injection Hit as _ Hl. apply (f_equal length) in Hl.
  rewrite length_app in Hl. simpl in Hl. lia.
Qed.

(** ** The table as a finite map *)

(** [m] represents the finite map [M]. *)
Definition map_repr m (M : gmap Z V) : Prop :=
  map_wf m /\ map_uniq m /\ forall k, M !! k = payload <$> map_get m k.

Lemma map_repr_items m M k v :
  map_repr m M -> M !! k = Some v <-> MkItem k v ∈ items m.
Proof.
  intros (Hwf & Hu & HM). rewrite HM, fmap_Some. split.
  - intros (it & Hg & ->). apply map_get_Some in Hg as [? <-]; [|apply Hwf].
    by destruct it.
  - intros Hin. exists (MkItem k v). split; [|done]. by apply map_get_uniq.
Qed.

(** A table is determined by its items. *)
Lemma map_repr_intro m M :
  map_wf m -> map_uniq m -> (forall k v, M !! k = Some v <-> MkItem k v ∈ items m) ->
  map_repr m M.
Proof.
  intros Hwf Hu H. split_and!; [done..|]. intros k. apply option_eq. intros v.
  rewrite H, fmap_Some. split.
  - intros Hin. exists (MkItem k v). split; [|done]. by apply map_get_uniq.
  - intros (it & Hg & ->). apply map_get_Some in Hg as [? <-]; [|apply Hwf].
    by destruct it.
Qed.

Lemma map_repr_create : map_repr (@map_create V) ∅.
Proof.
  apply map_repr_intro; [apply map_wf_create|constructor|].
  intros k v. unfold items. simpl. rewrite lookup_empty. set_solver.
Qed.

(** Adding an item whose key is not among the others. *)
Lemma map_repr_cons m m' M k v l :
  map_wf m' -> map_repr m M -> items m ≡ₚ l -> items m' ≡ₚ MkItem k v :: l ->
  M !! k = None -> map_repr m' (<[k := v]> M).
Proof.
  intros Hwf' Hrep Hl Hl' Hk. pose proof Hrep as (Hwf & Hu & HM).
  apply map_repr_intro; [done| |].
  - unfold map_uniq in *. rewrite Hl'. csimpl. apply NoDup_cons_2; [|by rewrite <- Hl].
    intros ([k' v'] & Heq & Hin)%list_elem_of_fmap. simpl in Heq. subst k'.
    rewrite <- Hl in Hin. apply (map_repr_items m M k v' Hrep) in Hin. congruence.
  - intros k' v'. rewrite Hl', elem_of_cons, <- Hl, <- (map_repr_items m M k' v' Hrep).
    rewrite lookup_insert. case_decide; naive_solver.
Qed.

(** Taking an item away. *)
Lemma map_repr_uncons m m' M it :
  map_wf m' -> map_repr m M -> items m ≡ₚ it :: items m' ->
  map_repr m' (delete (key it) M).
Proof.
  intros Hwf' Hrep Hl. pose proof Hrep as (Hwf & Hu & HM). unfold map_uniq in Hu.
  rewrite Hl in Hu. csimpl in Hu. apply map_repr_intro; [done|by eapply NoDup_cons_1_2|].
  intros k v. rewrite lookup_delete. apply NoDup_cons_1_1 in Hu.
  case_decide as Hk.
  - split; [done|]. intros Hin. exfalso. apply Hu, list_elem_of_fmap. by exists (MkItem k v).
  - rewrite (map_repr_items m M k v Hrep), Hl, elem_of_cons. naive_solver.
Qed.

End map_facts.

(** ** Operations on a represented map *)

Section map_repr_ops.
Context {V : Type}.
Implicit Types (m : map V) (M : gmap Z V).

Lemma map_put_repr m M k v :
  map_repr m M -> M !! k = None \/ Deleted ∉ data m ->
  exists m', map_put true m k (Some v) = Ret (m', 0) /\ map_repr m' (<[k := v]> M).
Proof.
  intros Hrep Hk. pose proof Hrep as (Hwf & Hu & HM).
  destruct (map_reput_total true m k v Hwf) as (m' & rc & old & Hr & Hwf' & Hc).
  destruct Hc as [(_ & ? & _)|(-> & _ & _ & Hnew & Hrepl)]; [done|].
  exists m'. unfold map_put. rewrite Hr. split; [done|].
  destruct (map_get m k) as [it|] eqn:Hg.
  - destruct Hk as [Hk|Hd]; [rewrite HM, Hg in Hk; done|].
    destruct (Hrepl Hu (or_introl Hd) it eq_refl) as (l & Hl & Hl' & _).
    apply map_get_Some in Hg as [_ Hit]; [|apply Hwf].
    assert (forall it', it' ∈ l -> key it' <> k) as Hfresh.
    { intros it' Hin Heq. unfold map_uniq in Hu. rewrite Hl in Hu. csimpl in Hu.
      apply NoDup_cons_1_1 in Hu. apply Hu, list_elem_of_fmap. exists it'. by rewrite Hit. }
    apply map_repr_intro; [done| |].
    + unfold map_uniq in *. rewrite Hl in Hu. rewrite Hl'. csimpl in *. by rewrite <- Hit.
    + intros k' v'. rewrite lookup_insert, Hl', elem_of_cons. case_decide as Heq.
      * subst k'. split; [naive_solver|]. intros [[=->]|Hin]; [done|]. by apply Hfresh in Hin.
      * rewrite (map_repr_items m M k' v' Hrep), Hl, elem_of_cons. naive_solver.
  - destruct (Hnew Hu eq_refl) as [_ Hp]. eapply map_repr_cons; eauto.
    by rewrite HM, Hg.
Qed.

Lemma map_remove_repr m M k :
  map_repr m M ->
  exists m', map_remove m k = (m', match M !! k with Some _ => 0 | None => 1 end)
    /\ map_repr m' (delete k M).
Proof.
  intros Hrep. pose proof Hrep as (Hwf & Hu & HM).
  pose proof (map_remove_spec m k Hwf) as Hs. rewrite HM.
  destruct (map_get m k) as [it|] eqn:Hg; simpl.
  - destruct Hs as (m' & Hr & Hwf' & Hl & <-). exists m'. split; [done|].
    by eapply map_repr_uncons.
  - exists m. split; [done|]. rewrite delete_id; [done|]. by rewrite HM, Hg.
Qed.

End map_repr_ops.

(** ** The contract of the table *)

Section map_contract.
Context {V : Type}.
Implicit Types (m : map V) (M : gmap Z V).

(** [map_put] of a non-NULL item always returns.  It succeeds and the item
    is then the one found under its key, or it returns -1 with the table
    unchanged, which happens only when every slot is in use and [calloc]
    fails.  The structural invariant is kept in both cases. *)
Theorem map_put_total ok m k v :
  map_wf m ->
  exists m' rc, map_put ok m k (Some v) = Ret (m', rc) /\ map_wf m'
    /\ (rc = 0 /\ map_get m' k = Some (MkItem k v)
        \/ rc = -1 /\ m' = m /\ ok = false /\ count m = size m).
Proof.
  intros Hwf. destruct (map_reput_total ok m k v Hwf) as (m' & rc & old & Hr & Hwf' & Hc).
  exists m', rc. unfold map_put. rewrite Hr. split_and!; [done..|].
  destruct Hc as [(-> & ? & ? & ? & _)|(-> & ? & _)]; naive_solver.
Qed.

(** C19: putting an item refines insertion into the finite map the table
    represents, for a key that is absent or in a table without deleted slots;
    a full table grows on the way. *)
Theorem map_put_refines m M k v :
  map_repr m M -> M !! k = None \/ Deleted ∉ data m ->
  exists m', map_put true m k (Some v) = Ret (m', 0) /\ map_repr m' (<[k := v]> M).
Proof. apply map_put_repr. Qed.

(** C20: [map_remove] refines deletion; its return value tells whether the key
    was absent. *)
Theorem map_remove_refines m M k :
  map_repr m M ->
  exists m', map_remove m k = (m', match M !! k with Some _ => 0 | None => 1 end)
    /\ map_repr m' (delete k M).
Proof. apply map_remove_repr. Qed.

(** [map_for_each] visits every entry of the represented map exactly once. *)
Theorem map_for_each_refines m M :
  map_repr m M -> (fun it => (key it, payload it)) <$> map_for_each m ≡ₚ map_to_list M.
Proof.
  intros Hrep. pose proof Hrep as (Hwf & Hu & HM).
  rewrite map_for_each_items by done. apply NoDup_Permutation.
  - apply (NoDup_fmap_1 fst). rewrite <- list_fmap_compose. exact Hu.
  - apply NoDup_map_to_list.
  - intros [k v]. rewrite elem_of_map_to_list, (map_repr_items m M k v Hrep).
    rewrite list_elem_of_fmap. split.
    + intros ([k' v'] & [= -> ->] & ?). done.
    + intros. by exists (MkItem k v).
Qed.

(** overwriting a key whose item lies behind a deleted slot does not
    overwrite it.  [map_reput] reports that nothing was replaced, the table then
    holds two items with the key, and removing the key once makes the stale item
    visible again.  (Finding: a removal does not remove the key.) *)
Theorem map_reput_behind_deleted ok m k v old j :
  map_wf m -> (count m < size m)%nat -> map_get m k = Some old ->
  (j < size m)%nat -> data m !! probe (size m) k j = Some Deleted ->
  (forall j', (j' < j)%nat -> exists e, data m !! probe (size m) k j' = Some e /\ other_item k e) ->
  exists m', map_reput ok m k (Some v) = Ret (m', 0, None)
    /\ items m' ≡ₚ MkItem k v :: items m
    /\ map_get m' k = Some (MkItem k v)
    /\ map_get (fst (map_remove m' k)) k <> None.
Proof.
  intros Hwf Hlt Hg Hj Hd Hb.
  destruct (map_hash_ok m k Hwf Hlt) as (m1 & j1 & e & Hh & Hj1 & _ & Hd1 & He & Hb1 & Hcase).
  assert (j1 = j) as ->.
  { destruct (lt_eq_lt_dec j1 j) as [[Hl|?]|Hl]; [|done|].
    - destruct (Hb j1 Hl) as (e' & He' & it & -> & Hne). simplify_eq.
      destruct Hcase as [[? _]|(it' & ? & ? & _)]; by simplify_eq.
    - destruct (Hb1 j Hl) as (e' & He' & it & -> & _). by simplify_eq. }
  simplify_eq.
  destruct (map_reput_no_rehash 1 ok m k v Hwf Hlt) as (m' & o & Hr & Hwf' & _ & Hg' & _ & Hit).
  exists m'. unfold map_reput. cbn [map_reput_fuel] in Hr |- *. rewrite Hh, Hd1, Hd in *.
  simplify_eq. destruct Hit as [(_ & Hp & _)|(it & l1 & l2 & ? & _)]; [|done].
  split_and!; [done|done|done|].
  pose proof (map_remove_spec _ k Hwf') as Hs. rewrite Hg' in Hs.
  destruct Hs as (m'' & Hrm & Hwf'' & Hp'' & _). rewrite Hrm. simpl.
  rewrite Hp in Hp''. apply Permutation_cons_inv in Hp''.
  rewrite map_get_None by done. intros Hno.
  apply map_get_Some in Hg as [Hin Hk]; [|apply Hwf]. apply (Hno old); [|done].
  by rewrite <- Hp''.
Qed.

End map_contract.

(** ** Concrete tables *)

(** Keys 1 and 257 share slot 1 of the first table of 256 slots. *)
Definition table_1_257 : map Z :=
  match map_put true map_create 1 (Some 10) ≫= (fun r => map_put true (fst r) 257 (Some 20)) with
  | Ret (m, _) => m
  | _ => map_create
  end.

(** ... and after removing key 1, key 257 lies behind a deleted slot. *)
Definition table_tomb : map Z := fst (map_remove table_1_257 1).

Lemma table_1_257_repr : map_repr table_1_257 (<[257 := 20]> (<[1 := 10]> ∅)).
Proof.
  destruct (map_put_repr _ _ 1 10 map_repr_create (or_introl eq_refl)) as (m1 & H1 & R1).
  destruct (map_put_repr _ _ 257 20 R1 (or_introl eq_refl)) as (m2 & H2 & R2).
  unfold table_1_257. rewrite H1. simpl. rewrite H2. exact R2.
Qed.

Lemma table_tomb_wf : map_wf table_tomb.
Proof.
  destruct (map_remove_repr _ _ 1 table_1_257_repr) as (m' & H & R).
  unfold table_tomb. rewrite H. apply R.
Qed.

Lemma map_put_total_witness :
  exists m' rc, map_put false (@map_create Z) 7 (Some 1) = Ret (m', rc) /\ map_wf m'
    /\ (rc = 0 /\ map_get m' 7 = Some (MkItem 7 1)
        \/ rc = -1 /\ m' = map_create /\ false = false
           /\ count (@map_create Z) = size (@map_create Z)).
Proof. apply (map_put_total (V := Z) false map_create 7 1), map_wf_create. Defined.

Lemma map_put_refines_witness :
  exists m', map_put true table_1_257 7 (Some 30) = Ret (m', 0)
    /\ map_repr m' (<[7 := 30]> (<[257 := 20]> (<[1 := 10]> ∅))).
Proof.
  apply (map_put_refines (V := Z) table_1_257 _ 7 30 table_1_257_repr).
  left. reflexivity.
Defined.

Lemma map_remove_refines_witness :
  exists m', map_remove table_1_257 257 = (m', 0)
    /\ map_repr m' (delete 257 (<[257 := 20]> (<[1 := 10]> ∅))).
Proof. exact (map_remove_refines (V := Z) table_1_257 _ 257 table_1_257_repr). Defined.

Lemma map_for_each_refines_witness :
  (fun it => (key it, payload it)) <$> map_for_each table_1_257
    ≡ₚ map_to_list (<[257 := 20]> (<[1 := 10]> ∅)).
Proof. exact (map_for_each_refines (V := Z) table_1_257 _ table_1_257_repr). Defined.

Lemma map_reput_behind_deleted_witness :
  exists m', map_reput true table_tomb 257 (Some 21) = Ret (m', 0, None)
    /\ items m' ≡ₚ MkItem 257 21 :: items table_tomb
    /\ map_get m' 257 = Some (MkItem 257 21)
    /\ map_get (fst (map_remove m' 257)) 257 <> None.
Proof.
  apply (map_reput_behind_deleted (V := Z) true table_tomb 257 21 (MkItem 257 20) 0);
    [apply table_tomb_wf|vm_compute; lia|vm_compute; reflexivity|vm_compute; lia
    |vm_compute; reflexivity|intros j' Hj'; lia].
Defined.
