(* ===== verification/Packet.v ===== *)
(** * QRTR control packets and the client library (src/qcom/qrtr/lib/qrtr.c, libqrtr.h)

    Wire layout of [struct qrtr_ctrl_pkt], the calls clients use to publish and
    look up services, and the decoder [qrtr_decode].  The kernel's answers to
    the system calls are arguments of the definitions. *)

From Stdlib Require Import ZArith Lia.
From stdpp Require Import base list numbers.
From S2P Require Import Prelude.

(** ** Constants of libqrtr.h *)

Definition AF_QIPCRTR : Z := 42.
Definition QRTR_NODE_BCAST : Z := 4294967295.
Definition QRTR_PORT_CTRL : Z := 4294967294.

Definition QRTR_TYPE_DATA : Z := 1.
Definition QRTR_TYPE_HELLO : Z := 2.
Definition QRTR_TYPE_BYE : Z := 3.
Definition QRTR_TYPE_NEW_SERVER : Z := 4.
Definition QRTR_TYPE_DEL_SERVER : Z := 5.
Definition QRTR_TYPE_DEL_CLIENT : Z := 6.
Definition QRTR_TYPE_RESUME_TX : Z := 7.
Definition QRTR_TYPE_EXIT : Z := 8.
Definition QRTR_TYPE_PING : Z := 9.
Definition QRTR_TYPE_NEW_LOOKUP : Z := 10.
Definition QRTR_TYPE_DEL_LOOKUP : Z := 11.

(** ** Addresses and packets *)

Record sockaddr_qrtr : Type := MkSq { sq_family : Z; sq_node : Z; sq_port : Z }.

Definition sizeof_sockaddr_qrtr : Z := 12.

#[global] Instance sockaddr_qrtr_eq_dec : EqDecision sockaddr_qrtr.
Proof. solve_decision. Defined.

(** [struct qrtr_ctrl_pkt]: the command and the union seen as its [server] arm.
    The [client] arm overlays the first two words: [client.node] is the word of
    [server.service] and [client.port] the word of [server.instance]. *)
Record qrtr_ctrl_pkt : Type := MkPkt
  { cmd : Z; pk_service : Z; pk_instance : Z; pk_node : Z; pk_port : Z }.

Definition client_node (p : qrtr_ctrl_pkt) : Z := pk_service p.
Definition client_port (p : qrtr_ctrl_pkt) : Z := pk_instance p.

Definition sizeof_ctrl_pkt : Z := 20.

(** The packet in memory, little-endian words. *)
Definition ctrl_pkt_bytes (p : qrtr_ctrl_pkt) : list Z :=
  le_bytes 4 (cmd p) ++ le_bytes 4 (pk_service p) ++ le_bytes 4 (pk_instance p)
  ++ le_bytes 4 (pk_node p) ++ le_bytes 4 (pk_port p).

(** The word at byte offset [off] of a buffer that is at least [off + 4] long. *)
Definition le32_at (buf : list Z) (off : nat) : Z := le_val (take 4 (drop off buf)).

Definition ctrl_pkt_of_bytes (buf : list Z) : qrtr_ctrl_pkt :=
  MkPkt (le32_at buf 0) (le32_at buf 4) (le32_at buf 8) (le32_at buf 12) (le32_at buf 16).

Definition ctrl_pkt_wf (p : qrtr_ctrl_pkt) : Prop :=
  0 <= cmd p < 4294967296 /\ 0 <= pk_service p < 4294967296
  /\ 0 <= pk_instance p < 4294967296 /\ 0 <= pk_node p < 4294967296
  /\ 0 <= pk_port p < 4294967296.

(** ** System calls of a client *)

Inductive syscall : Type :=
| Socket
| Setsockopt
| Bind (sq : sockaddr_qrtr)
| Close (fd : Z)
| Sendto (dst : sockaddr_qrtr) (data : list Z).

(** [getsockname(sock, sq, &sl)]: return code, address and length. *)
Record sockname : Type := MkSockname { gs_rc : Z; gs_sq : sockaddr_qrtr; gs_sl : Z }.

Definition qrtr_getname (g : sockname) : option sockaddr_qrtr :=
  if negb (gs_rc g =? 0) then None
  else if negb (sq_family (gs_sq g) =? AF_QIPCRTR) || negb (gs_sl g =? sizeof_sockaddr_qrtr)
  then None
  else Some (gs_sq g).

(** [qrtr_open(rport)]: the descriptor or -1, and the system calls made.
    [sock], [rc_opt] and [rc_bind] are the kernel's answers. *)
Definition qrtr_open (rport sock rc_opt rc_bind : Z) : Z * list syscall :=
  if sock <? 0 then (-1, [Socket])
  else if negb (rc_opt =? 0) then (-1, [Socket; Setsockopt; Close sock])
  else if negb (rport =? 0) then
    let sq := MkSq AF_QIPCRTR 1 (u32 rport) in
    if rc_bind <? 0 then (-1, [Socket; Setsockopt; Bind sq; Close sock])
    else (sock, [Socket; Setsockopt; Bind sq])
  else (sock, [Socket; Setsockopt]).

Definition qrtr_close (sock : Z) : list syscall := [Close sock].

(** [qrtr_sendto(sock, node, port, data, sz)]; [rc] is what [sendto] returns. *)
Definition qrtr_sendto (node port : Z) (data : list Z) (rc : Z) : Z * list syscall :=
  ((if rc <? 0 then -1 else 0), [Sendto (MkSq AF_QIPCRTR node port) data]).

(** [instance << 8 | version] with both [uint16_t]. *)
Definition instance_word (version instance : Z) : Z := Z.lor (Z.shiftl instance 8) version.

(** The four requests to the name server.  [g] is the answer of [getsockname],
    [rc] that of [sendto]. *)
Definition send_ctrl (mk : sockaddr_qrtr -> qrtr_ctrl_pkt) (g : sockname) (rc : Z)
    : Z * list syscall :=
  match qrtr_getname g with
  | None => (-1, [])
  | Some sq => qrtr_sendto (sq_node sq) QRTR_PORT_CTRL (ctrl_pkt_bytes (mk sq)) rc
  end.

Definition qrtr_new_server (service version instance : Z) :=
  send_ctrl (fun _ => MkPkt QRTR_TYPE_NEW_SERVER service (instance_word version instance) 0 0).

Definition qrtr_remove_server (service version instance : Z) :=
  send_ctrl (fun sq => MkPkt QRTR_TYPE_DEL_SERVER service (instance_word version instance)
                         (sq_node sq) (sq_port sq)).

Definition qrtr_publish := qrtr_new_server.
Definition qrtr_bye := qrtr_remove_server.

Definition qrtr_new_lookup (service version instance : Z) :=
  send_ctrl (fun _ => MkPkt QRTR_TYPE_NEW_LOOKUP service (instance_word version instance) 0 0).

Definition qrtr_remove_lookup (service version instance : Z) :=
  send_ctrl (fun sq => MkPkt QRTR_TYPE_DEL_LOOKUP service (instance_word version instance)
                         (sq_node sq) (sq_port sq)).

(** [qrtr_recv] and [qrtr_recvfrom]: [rc] is the kernel's answer; the address is
    handed on only when the call succeeded. *)
Definition qrtr_recv (rc : Z) : Z := rc.

Definition qrtr_recvfrom (rc : Z) (sq : sockaddr_qrtr) : Z * option (Z * Z) :=
  if rc <? 0 then (rc, None) else (rc, Some (sq_node sq, sq_port sq)).

(** ** Decoding *)

Record qrtr_packet : Type := MkQpkt
  { p_type : Z; p_node : Z; p_port : Z; p_service : Z; p_instance : Z; p_version : Z;
    p_data : list Z; p_data_len : Z }.

(** [qrtr_decode(dest, buf, len, sq)]: the return code and [*dest]; fields that
    are not assigned keep their value. *)
Definition qrtr_decode (dest : qrtr_packet) (buf : list Z) (len : Z) (sq : sockaddr_qrtr)
    : Z * qrtr_packet :=
  if sq_port sq =? QRTR_PORT_CTRL then
    if len <? sizeof_ctrl_pkt then (- EMSGSIZE, dest)
    else
      let ctrl := ctrl_pkt_of_bytes buf in
      let t := s32 (cmd ctrl) in
      if t =? QRTR_TYPE_BYE then
        (0, MkQpkt t (client_node ctrl) (p_port dest) (p_service dest) (p_instance dest)
              (p_version dest) (p_data dest) (p_data_len dest))
      else if t =? QRTR_TYPE_DEL_CLIENT then
        (0, MkQpkt t (client_node ctrl) (client_port ctrl) (p_service dest) (p_instance dest)
              (p_version dest) (p_data dest) (p_data_len dest))
      else if (t =? QRTR_TYPE_NEW_SERVER) || (t =? QRTR_TYPE_DEL_SERVER) then
        (0, MkQpkt t (pk_node ctrl) (pk_port ctrl) (pk_service ctrl)
              (Z.shiftr (pk_instance ctrl) 8) (Z.land (pk_instance ctrl) 255)
              (p_data dest) (p_data_len dest))
      else
        (0, MkQpkt 0 (p_node dest) (p_port dest) (p_service dest) (p_instance dest)
              (p_version dest) (p_data dest) (p_data_len dest))
  else
    (0, MkQpkt QRTR_TYPE_DATA (sq_node sq) (sq_port sq) (p_service dest) (p_instance dest)
          (p_version dest) buf len).

(** ** Facts *)

Lemma length_ctrl_pkt_bytes p : length (ctrl_pkt_bytes p) = 20%nat.
Proof. unfold ctrl_pkt_bytes. rewrite !length_app, !length_le_bytes. done. Qed.

Lemma le32_at_app pre w rest off :
  length pre = off -> 0 <= w < 4294967296 -> le32_at (pre ++ le_bytes 4 w ++ rest) off = w.
Proof.
  intros <- Hw. unfold le32_at. rewrite drop_app_length.
  replace 4%nat with (length (le_bytes 4 w)) at 1 by apply length_le_bytes.
  rewrite take_app_length. by apply le_val_bytes_small.
Qed.

(** A packet followed by anything is read back. *)
Lemma ctrl_pkt_bytes_decode p rest :
  ctrl_pkt_wf p -> ctrl_pkt_of_bytes (ctrl_pkt_bytes p ++ rest) = p.
Proof.
  intros (H0 & H1 & H2 & H3 & H4). destruct p as [c s i n q].
  cbn in H0, H1, H2, H3, H4.
  unfold ctrl_pkt_of_bytes, ctrl_pkt_bytes. cbn [cmd pk_service pk_instance pk_node pk_port].
  f_equal.
  - rewrite <- app_assoc. by apply (le32_at_app []).
  - rewrite <- !app_assoc. by apply (le32_at_app (le_bytes 4 c)).
  - rewrite <- !app_assoc, (app_assoc (le_bytes 4 c)). apply le32_at_app; [|done].
    by rewrite length_app, !length_le_bytes.
  - rewrite <- !app_assoc, (app_assoc (le_bytes 4 c)), (app_assoc (_ ++ _) (le_bytes 4 i)).
    apply le32_at_app; [|done]. by rewrite !length_app, !length_le_bytes.
  - rewrite <- !app_assoc, (app_assoc (le_bytes 4 c)), (app_assoc (_ ++ _) (le_bytes 4 i)),
      (app_assoc (_ ++ _) (le_bytes 4 n)).
    apply le32_at_app; [|done]. by rewrite !length_app, !length_le_bytes.
Qed.

Lemma le32_at_range buf off : Forall is_byte buf -> (off + 4 <= length buf)%nat ->
  0 <= le32_at buf off < 4294967296.
Proof.
  intros Hb Hl. unfold le32_at.
  pose proof (le_val_range (take 4 (drop off buf))) as Hr.
  rewrite length_take, length_drop in Hr.
  replace (Nat.min 4 (length buf - off)) with 4%nat in Hr by lia.
  apply Hr. by apply Forall_take, Forall_drop.
Qed.

Lemma instance_word_fields version instance :
  0 <= version < 256 -> 0 <= instance < 65536 ->
  instance_word version instance = instance * 256 + version
  /\ Z.land (instance_word version instance) 255 = version
  /\ Z.shiftr (instance_word version instance) 8 = instance.
Proof.
  intros Hv Hi. unfold instance_word.
  assert (Z.lor (Z.shiftl instance 8) version = instance * 256 + version) as He.
  { rewrite Z.shiftl_mul_pow2 by lia. change (2 ^ 8) with 256.
    rewrite <- Z.lxor_lor, <- Z.add_nocarry_lxor; [done|..].
    all: change 256 with (2 ^ 8); rewrite <- Z.shiftl_mul_pow2 by lia; apply Z.bits_inj';
      intros n Hn; rewrite Z.land_spec, Z.bits_0;
      destruct (decide (n < 8));
      [rewrite Z.shiftl_spec_low by lia; done
      |rewrite (Z.bits_above_log2 version n); [by rewrite andb_false_r|lia|];
       destruct (decide (version = 0)) as [->|]; [simpl; lia|];
       apply Z.log2_lt_pow2; [lia|]; apply Z.lt_le_trans with (2 ^ 8); [lia|];
       apply Z.pow_le_mono_r; lia]. }
  rewrite He. split_and!; [done| |].
  - change 255 with (Z.ones 8). rewrite Z.land_ones by lia. change (2 ^ 8) with 256.
    rewrite Z.add_comm, Z_mod_plus_full. by apply Z.mod_small.
  - rewrite Z.shiftr_div_pow2 by lia. change (2 ^ 8) with 256.
    rewrite Z.div_add_l by lia. rewrite Z.div_small; lia.
Qed.
