(* ===== verification/NameServer.v ===== *)
(** * The QRTR name server (src/qcom/qrtr/src/ns.c)

    The daemon keeps a table of nodes, each with a table of the servers
    registered on it, and a list of observers ("lookups").  It is driven by
    control packets; a packet handler updates the tables and sends packets.

    The state is [ns_state]: the [struct context], the global table [nodes],
    the heap of [struct node]s the table points into, and the trace of the calls
    made to the outside (packets sent, allocations).  The outside is the class
    [Env]: what [sendto] and [calloc] answer may depend on the whole trace. *)

From Stdlib Require Import ZArith Lia.
From stdpp Require Import base gmap list numbers.
From S2P Require Import Prelude Hash HashMap Packet.

(** ** Data *)

Record lookup : Type := MkLookup { lk_service : Z; lk_instance : Z; lk_sq : sockaddr_qrtr }.

Record server : Type := MkServer
  { srv_service : Z; srv_instance : Z; srv_node : Z; srv_port : Z }.

Record server_filter : Type := MkFilter
  { f_service : Z; f_instance : Z; f_ifilter : Z }.

Record node : Type := MkNode { node_id : Z; services : map server }.

Inductive event : Type :=
| EvSend (dst : sockaddr_qrtr) (bytes : list Z)
| EvCalloc.

(** The outside: answers depend on everything that happened before. *)
Class Env : Type := MkEnv
  { env_sendto : list event -> sockaddr_qrtr -> list Z -> Z;
    env_calloc : list event -> bool;
    (** bytes of an uninitialised stack object *)
    env_stack : list event -> list Z }.

Record ns_state : Type := MkNs
  { sock : Z;
    local_node : Z;              (** an [int] *)
    bcast_sq : sockaddr_qrtr;
    lookups : list lookup;
    nodes : map nat;             (** payload: pointer to a [struct node] *)
    heap : list node;            (** the nodes, by pointer *)
    trace : list event }.

(** [ctx->local_node] where it meets an [unsigned int]. *)
Definition local_id (st : ns_state) : Z := u32 (local_node st).

(** ** The state monad of the handlers *)

Definition ns (A : Type) : Type := ns_state -> outcome (A * ns_state).

#[global] Instance ns_ret : MRet ns := fun A a st => Ret (a, st).
#[global] Instance ns_bind : MBind ns := fun A B f m st =>
  match m st with
  | Ret (a, st') => f a st'
  | Fault => Fault
  | OutOfFuel => OutOfFuel
  end.

Definition ns_get : ns ns_state := fun st => Ret (st, st).
Definition ns_fault {A} : ns A := fun _ => Fault.

Definition set_sock (s : Z) : ns unit := fun st =>
  Ret (tt, MkNs s (local_node st) (bcast_sq st) (lookups st) (nodes st) (heap st) (trace st)).
Definition set_lookups (l : list lookup) : ns unit := fun st =>
  Ret (tt, MkNs (sock st) (local_node st) (bcast_sq st) l (nodes st) (heap st) (trace st)).
Definition set_nodes (m : map nat) : ns unit := fun st =>
  Ret (tt, MkNs (sock st) (local_node st) (bcast_sq st) (lookups st) m (heap st) (trace st)).
Definition set_heap (h : list node) : ns unit := fun st =>
  Ret (tt, MkNs (sock st) (local_node st) (bcast_sq st) (lookups st) (nodes st) h (trace st)).
Definition log_event (e : event) : ns unit := fun st =>
  Ret (tt, MkNs (sock st) (local_node st) (bcast_sq st) (lookups st) (nodes st) (heap st)
             (trace st ++ [e])).

Definition lift {A} (o : outcome A) : ns A := fun st =>
  match o with Ret a => Ret (a, st) | Fault => Fault | OutOfFuel => OutOfFuel end.

(** [*node], through a pointer. *)
Definition deref (p : nat) : ns node :=
  st ← ns_get;
  match heap st !! p with Some nd => mret nd | None => ns_fault end.

(** [node->services = m]. *)
Definition set_services (p : nat) (m : map server) : ns unit :=
  st ← ns_get; nd ← deref p; set_heap (<[p := MkNode (node_id nd) m]> (heap st)).

Section handlers.
Context `{Env}.

Definition sendto (dst : sockaddr_qrtr) (bytes : list Z) : ns Z :=
  st ← ns_get; _ ← log_event (EvSend dst bytes); mret (env_sendto (trace st) dst bytes).

Definition calloc : ns bool :=
  st ← ns_get; _ ← log_event EvCalloc; mret (env_calloc (trace st)).

(** ** Tables *)

Definition node_get (id : Z) : ns (option nat) :=
  st ← ns_get;
  match map_get (nodes st) (hash_u32 id) with
  | Some mi => mret (Some (payload mi))
  | None =>
      ok ← calloc;
      if negb ok then mret None
      else
        st ← ns_get;
        let p := length (heap st) in
        _ ← set_heap (heap st ++ [MkNode id map_create]);
        ok' ← calloc;
        '(m, rc) ← lift (map_put ok' (nodes st) (hash_u32 id) (Some p));
        _ ← set_nodes m;
        if negb (rc =? 0) then mret None (* free(node) *)
        else mret (Some p)
  end.

Definition server_match (srv : server) (f : server_filter) : bool :=
  if negb (f_service f =? 0) && negb (srv_service srv =? f_service f) then false
  else
    let ifilter := if (f_ifilter f =? 0) && negb (f_instance f =? 0) then UINT_MAX
                   else f_ifilter f in
    Z.land (srv_instance srv) ifilter =? f_instance f.

(** [server_query(f, list)]: the servers put on the list, in order. *)
Fixpoint server_query_nodes (h : list node) (f : server_filter) (ps : list nat)
    : outcome (list server) :=
  match ps with
  | [] => Ret []
  | p :: ps' =>
      match h !! p with
      | None => Fault
      | Some nd =>
          rest ← server_query_nodes h f ps';
          Ret (filter (fun srv => Is_true (server_match srv f))
                 (payload <$> map_for_each (services nd)) ++ rest)
      end
  end.

Definition server_query (f : server_filter) : ns (list server) :=
  st ← ns_get;
  lift (server_query_nodes (heap st) f (payload <$> map_for_each (nodes st))).

(** ** Packets sent *)

Definition server_pkt (c : Z) (srv : server) : qrtr_ctrl_pkt :=
  MkPkt c (srv_service srv) (srv_instance srv) (srv_node srv) (srv_port srv).

Definition service_announce_new (dest : sockaddr_qrtr) (srv : server) : ns Z :=
  sendto dest (ctrl_pkt_bytes (server_pkt QRTR_TYPE_NEW_SERVER srv)).

Definition service_announce_del (dest : sockaddr_qrtr) (srv : server) : ns Z :=
  sendto dest (ctrl_pkt_bytes (server_pkt QRTR_TYPE_DEL_SERVER srv)).

(** The packet [lookup_notify] sends; a NULL server leaves the zeroed body. *)
Definition notify_pkt (srv : option server) (new : bool) : qrtr_ctrl_pkt :=
  let c := if new then QRTR_TYPE_NEW_SERVER else QRTR_TYPE_DEL_SERVER in
  match srv with
  | Some srv => server_pkt c srv
  | None => MkPkt c 0 0 0 0
  end.

Definition lookup_notify (to : sockaddr_qrtr) (srv : option server) (new : bool) : ns Z :=
  sendto to (ctrl_pkt_bytes (notify_pkt srv new)).

Fixpoint announce_loop (sq : sockaddr_qrtr) (srvs : list server) : ns Z :=
  match srvs with
  | [] => mret 0
  | srv :: srvs' =>
      rc ← service_announce_new sq srv;
      if rc <? 0 then mret rc else announce_loop sq srvs'
  end.

Definition annouce_servers (sq : sockaddr_qrtr) : ns Z :=
  st ← ns_get;
  n ← node_get (local_id st);
  match n with
  | None => mret 0
  | Some p => nd ← deref p; announce_loop sq (payload <$> map_for_each (services nd))
  end.

(** ** Servers *)

Definition server_add (service instance id port : Z) : ns (option server) :=
  if (service =? 0) || (port =? 0) then mret None
  else
    ok ← calloc;
    if negb ok then mret None
    else
      let srv := MkServer service instance id port in
      n ← node_get id;
      match n with
      | None => mret None
      | Some p =>
          nd ← deref p;
          ok' ← calloc;
          '(m, rc, _) ← lift (map_reput ok' (services nd) (hash_u32 port) (Some srv));
          _ ← set_services p m;
          if negb (rc =? 0) then mret None else mret (Some srv)
      end.

(** The tests of the loops over [ctx->lookups] in [server_del] and
    [ctrl_cmd_new_server]. *)
Definition lookup_match (lk : lookup) (service instance : Z) : bool :=
  if negb (lk_service lk =? 0) && negb (lk_service lk =? service) then false
  else if negb (lk_instance lk =? 0) && negb (lk_instance lk =? instance) then false
  else true.

Fixpoint notify_loop (lks : list lookup) (srv : server) (service instance : Z) (new : bool)
    : ns unit :=
  match lks with
  | [] => mret tt
  | lk :: lks' =>
      if lookup_match lk service instance then
        _ ← lookup_notify (lk_sq lk) (Some srv) new;
        notify_loop lks' srv service instance new
      else notify_loop lks' srv service instance new
  end.

Definition server_del (p : nat) (port : Z) : ns Z :=
  nd ← deref p;
  match map_get (services nd) (hash_u32 port) with
  | None => mret (- ENOENT)
  | Some mi =>
      let srv := payload mi in
      _ ← set_services p (fst (map_remove (services nd) (key mi)));
      st ← ns_get;
      _ ← (if srv_node srv =? local_id st
           then _ ← service_announce_del (bcast_sq st) srv; mret tt
           else mret tt);
      st ← ns_get;
      _ ← notify_loop (lookups st) srv (srv_service srv) (srv_instance srv) false;
      mret 0
  end.

(** ** Command handlers *)

Definition ctrl_cmd_hello (sq : sockaddr_qrtr) (buf : list Z) : ns Z :=
  rc ← sendto sq buf;
  if 0 <? rc then annouce_servers sq else mret rc.

(** The first loop of [ctrl_cmd_bye]: the table shrinks while it is walked. *)
Fixpoint bye_loop (p : nat) (iter : option nat) (fuel : nat) : ns unit :=
  match iter with
  | None => mret tt
  | Some i =>
      match fuel with
      | O => lift OutOfFuel
      | S fuel' =>
          nd ← deref p;
          match map_iter_item (services nd) i with
          | None => ns_fault
          | Some mi =>
              _ ← server_del p (srv_port (payload mi));
              nd ← deref p;
              bye_loop p (map_iter_next (services nd) iter) fuel'
          end
      end
  end.

(** The loops that tell every local service about a client that left. *)
Fixpoint propagate_loop (srvs : list server) (bytes : list Z) : ns unit :=
  match srvs with
  | [] => mret tt
  | srv :: srvs' =>
      _ ← sendto (MkSq AF_QIPCRTR (srv_node srv) (srv_port srv)) bytes;
      propagate_loop srvs' bytes
  end.

Definition ctrl_cmd_bye (from : sockaddr_qrtr) : ns Z :=
  n ← node_get (sq_node from);
  match n with
  | None => mret 0
  | Some p =>
      nd ← deref p;
      _ ← bye_loop p (map_iter_first (services nd)) (size (services nd));
      st ← ns_get;
      ln ← node_get (local_id st);
      match ln with
      | None => mret 0
      | Some lp =>
          lnd ← deref lp;
          _ ← propagate_loop (payload <$> map_for_each (services lnd))
                (ctrl_pkt_bytes (MkPkt QRTR_TYPE_BYE (sq_node from) 0 0 0));
          mret 0
      end
  end.

(** [pkt] is not cleared here: only the command and the client arm are written. *)
Definition del_client_bytes (junk : list Z) (id port : Z) : list Z :=
  le_bytes 4 QRTR_TYPE_DEL_CLIENT ++ le_bytes 4 id ++ le_bytes 4 port ++ take 8 junk.

Definition ctrl_cmd_del_client (from : sockaddr_qrtr) (id port : Z) : ns Z :=
  st ← ns_get;
  if negb (sq_node from =? id) then mret (- EINVAL)
  else if (sq_node from =? local_id st) && negb (sq_port from =? port) then mret (- EINVAL)
  else
    _ ← set_lookups (filter (fun lk => ~ (sq_node (lk_sq lk) = id /\ sq_port (lk_sq lk) = port))
                       (lookups st));
    n ← node_get id;
    _ ← match n with
        | Some p => _ ← server_del p port; mret tt
        | None => mret tt
        end;
    st ← ns_get;
    ln ← node_get (local_id st);
    match ln with
    | None => mret 0
    | Some lp =>
        lnd ← deref lp;
        st ← ns_get;
        _ ← propagate_loop (payload <$> map_for_each (services lnd))
              (del_client_bytes (env_stack (trace st)) id port);
        mret 0
    end.

Definition ctrl_cmd_new_server (from : sockaddr_qrtr) (service instance id port : Z) : ns Z :=
  st ← ns_get;
  let '(id, port) := if sq_node from =? local_id st then (sq_node from, sq_port from)
                     else (id, port) in
  if negb (sq_node from =? id) then mret (- EINVAL)
  else
    s ← server_add service instance id port;
    match s with
    | None => mret (- EINVAL)
    | Some srv =>
        st ← ns_get;
        rc ← (if srv_node srv =? local_id st
              then service_announce_new (bcast_sq st) srv else mret 0);
        st ← ns_get;
        _ ← notify_loop (lookups st) srv service instance true;
        mret rc
    end.

Definition ctrl_cmd_del_server (from : sockaddr_qrtr) (service instance id port : Z) : ns Z :=
  st ← ns_get;
  let '(id, port) := if sq_node from =? local_id st then (sq_node from, sq_port from)
                     else (id, port) in
  if negb (sq_node from =? id) then mret (- EINVAL)
  else if (sq_node from =? local_id st) && negb (sq_port from =? port) then mret (- EINVAL)
  else
    n ← node_get id;
    match n with
    | None => mret (- ENOENT)
    | Some p => server_del p port
    end.

Fixpoint reply_loop (to : sockaddr_qrtr) (srvs : list server) : ns unit :=
  match srvs with
  | [] => mret tt
  | srv :: srvs' => _ ← lookup_notify to (Some srv) true; reply_loop to srvs'
  end.

Definition ctrl_cmd_new_lookup (from : sockaddr_qrtr) (service instance : Z) : ns Z :=
  st ← ns_get;
  if negb (sq_node from =? local_id st) then mret (- EINVAL)
  else
    ok ← calloc;
    if negb ok then mret (- EINVAL)
    else
      st ← ns_get;
      _ ← set_lookups (lookups st ++ [MkLookup service instance from]);
      srvs ← server_query (MkFilter service instance 0);
      _ ← reply_loop from srvs;
      _ ← lookup_notify from None true;
      mret 0.

Definition del_lookup_match (from : sockaddr_qrtr) (service instance : Z) (lk : lookup) : bool :=
  (sq_node (lk_sq lk) =? sq_node from) && (sq_port (lk_sq lk) =? sq_port from)
  && (lk_service lk =? service)
  && negb (negb (lk_instance lk =? 0) && negb (lk_instance lk =? instance)).

Definition ctrl_cmd_del_lookup (from : sockaddr_qrtr) (service instance : Z) : ns Z :=
  st ← ns_get;
  _ ← set_lookups (filter (fun lk => ~ Is_true (del_lookup_match from service instance lk))
                     (lookups st));
  mret 0.

(** ** The control port *)

(** What [recvfrom] delivers: its return value, the 4096 bytes of the stack
    buffer afterwards, and the sender. *)
Record reception : Type := MkRx { rx_len : Z; rx_buf : list Z; rx_sq : sockaddr_qrtr }.

Definition u32_range_of (z : Z) : Prop := 0 <= z < 4294967296.

(** The kernel delivers at most the buffer's size, bytes are bytes, and node and
    port are [__u32]. *)
Definition rx_valid (rx : reception) : Prop :=
  length (rx_buf rx) = 4096%nat /\ Forall is_byte (rx_buf rx) /\ rx_len rx <= 4096
  /\ u32_range_of (sq_node (rx_sq rx)) /\ u32_range_of (sq_port (rx_sq rx)).

(** The dispatch on [cmd]. *)
Definition ctrl_dispatch (rx : reception) : ns Z :=
  let msg := ctrl_pkt_of_bytes (rx_buf rx) in
  let sq := rx_sq rx in
  let c := cmd msg in
  if c =? QRTR_TYPE_HELLO then ctrl_cmd_hello sq (take (Z.to_nat (rx_len rx)) (rx_buf rx))
  else if c =? QRTR_TYPE_BYE then ctrl_cmd_bye sq
  else if c =? QRTR_TYPE_DEL_CLIENT then
    ctrl_cmd_del_client sq (client_node msg) (client_port msg)
  else if c =? QRTR_TYPE_NEW_SERVER then
    ctrl_cmd_new_server sq (pk_service msg) (pk_instance msg) (pk_node msg) (pk_port msg)
  else if c =? QRTR_TYPE_DEL_SERVER then
    ctrl_cmd_del_server sq (pk_service msg) (pk_instance msg) (pk_node msg) (pk_port msg)
  else if (c =? QRTR_TYPE_EXIT) || (c =? QRTR_TYPE_PING) || (c =? QRTR_TYPE_RESUME_TX) then mret 0
  else if c =? QRTR_TYPE_NEW_LOOKUP then
    ctrl_cmd_new_lookup sq (pk_service msg) (pk_instance msg)
  else if c =? QRTR_TYPE_DEL_LOOKUP then
    ctrl_cmd_del_lookup sq (pk_service msg) (pk_instance msg)
  else mret 0.

Definition ctrl_port_fn (rx : reception) : ns unit :=
  if rx_len rx <=? 0 then set_sock (-1)
  else if rx_len rx <? 4 then mret tt
  else _ ← ctrl_dispatch rx; mret tt.

Definition say_hello : ns Z :=
  st ← ns_get;
  rc ← sendto (bcast_sq st) (ctrl_pkt_bytes (MkPkt QRTR_TYPE_HELLO 0 0 0 0));
  if rc <? 0 then mret rc else mret 0.

(** The state [main] sets up before it says hello: [s] is the control socket and
    [id] the node [getsockname] reported. *)
Definition ns_init (s id : Z) : ns_state :=
  MkNs s (s32 id) (MkSq AF_QIPCRTR QRTR_NODE_BCAST QRTR_PORT_CTRL) [] map_create [] [].

(** One turn of [while (ctx.sock >= 0) waiter_wait(w)] that delivers a packet. *)
Inductive ns_step : ns_state -> ns_state -> Prop :=
| ns_step_recv rx st st' :
    0 <= sock st -> rx_valid rx -> ctrl_port_fn rx st = Ret (tt, st') -> ns_step st st'.

(** The end of [main]: [map_clear(&nodes, node_mi_free)], which clears the
    services of every node; the servers released, in order. *)
Definition node_mi_free (h : list node) (mi : map_item nat) : list server :=
  match h !! payload mi with
  | Some nd => payload <$> fst (map_clear (services nd))
  | None => []
  end.

Definition ns_shutdown (st : ns_state) : list server :=
  concat (node_mi_free (heap st) <$> fst (map_clear (nodes st))).

End handlers.
