(* ===== verification/NsProofs.v ===== *)
(** * Correctness of the name server

    The invariant [ns_inv] of the tables, that every handler returns and keeps
    it, and the functional behaviour of the handlers: what is registered
    afterwards and which packets were sent, in order. *)

From Stdlib Require Import ZArith Lia.
From stdpp Require Import base gmap list numbers relations.
From S2P Require Import Prelude Hash HashMap Packet NameServer.

(** ** Views of the state *)

(** The pointer the table [nodes] has for a node id. *)
Definition node_ptr (st : ns_state) (id : Z) : option nat :=
  payload <$> map_get (nodes st) (hash_u32 id).

(** The server registered for a node and port. *)
Definition ns_lookup (st : ns_state) (id port : Z) : option server :=
  p ← node_ptr st id; nd ← heap st !! p; payload <$> map_get (services nd) (hash_u32 port).

(** Appending to the trace. *)
Definition add_trace (st : ns_state) (evs : list event) : ns_state :=
  MkNs (sock st) (local_node st) (bcast_sq st) (lookups st) (nodes st) (heap st)
    (trace st ++ evs).

(** The notifications of a server to the observers that match it, in order. *)
Definition notify_events (lks : list lookup) (srv : server) (service instance : Z) (new : bool)
    : list event :=
  (fun lk => EvSend (lk_sq lk) (ctrl_pkt_bytes (notify_pkt (Some srv) new)))
    <$> filter (fun lk => Is_true (lookup_match lk service instance)) lks.

Definition reply_events (to : sockaddr_qrtr) (srvs : list server) : list event :=
  (fun srv => EvSend to (ctrl_pkt_bytes (notify_pkt (Some srv) true))) <$> srvs.

Definition propagate_events (srvs : list server) (bytes : list Z) : list event :=
  (fun srv => EvSend (MkSq AF_QIPCRTR (srv_node srv) (srv_port srv)) bytes) <$> srvs.

(** ** The invariant *)

Definition server_ok (id : Z) (it : map_item server) : Prop :=
  key it = hash_u32 (srv_port (payload it)) /\ srv_node (payload it) = id
  /\ srv_service (payload it) <> 0 /\ srv_port (payload it) <> 0
  /\ u32_range_of (srv_port (payload it)) /\ u32_range_of (srv_instance (payload it)).

Definition node_ok (nd : node) : Prop :=
  u32_range_of (node_id nd) /\ map_wf (services nd)
  /\ forall it, it ∈ items (services nd) -> server_ok (node_id nd) it.

Record ns_inv (st : ns_state) : Prop := MkInv
  { inv_wf : map_wf (nodes st);
    inv_uniq : map_uniq (nodes st);
    inv_ptr : forall it, it ∈ items (nodes st) ->
      exists nd, heap st !! payload it = Some nd /\ key it = hash_u32 (node_id nd);
    inv_heap : forall p nd, heap st !! p = Some nd -> node_ok nd;
    inv_lookups : forall lk, lk ∈ lookups st -> sq_node (lk_sq lk) = local_id st }.

(** What no handler changes but [ctrl_port_fn] on a dead socket. *)
Definition same_ctx (st st' : ns_state) : Prop :=
  sock st' = sock st /\ local_node st' = local_node st /\ bcast_sq st' = bcast_sq st.

Lemma same_ctx_local st st' : same_ctx st st' -> local_id st' = local_id st.
Proof. intros (_ & H & _). unfold local_id. by rewrite H. Qed.

Lemma same_ctx_trans st1 st2 st3 : same_ctx st1 st2 -> same_ctx st2 st3 -> same_ctx st1 st3.
Proof. unfold same_ctx. intuition congruence. Qed.

Lemma same_ctx_refl st : same_ctx st st.
Proof. done. Qed.

#[export] Hint Resolve same_ctx_refl same_ctx_trans : qipc.

(** ** Monad equations *)

Lemma ns_bind_ret {A B} (m : ns A) (f : A -> ns B) st a st' :
  m st = Ret (a, st') -> (m ≫= f) st = f a st'.
Proof. intros Hm. unfold mbind, ns_bind. by rewrite Hm. Qed.

Lemma ns_bind_get {B} (f : ns_state -> ns B) st : (ns_get ≫= f) st = f st st.
Proof. done. Qed.

Lemma deref_ok p st nd : heap st !! p = Some nd -> deref p st = Ret (nd, st).
Proof. intros Hp. unfold deref. rewrite ns_bind_get. by rewrite Hp. Qed.

Lemma add_trace_nil st : add_trace st [] = st.
Proof. destruct st. unfold add_trace. simpl. by rewrite app_nil_r. Qed.

Lemma add_trace_app st e1 e2 : add_trace (add_trace st e1) e2 = add_trace st (e1 ++ e2).
Proof. unfold add_trace. simpl. by rewrite app_assoc. Qed.

Lemma ns_inv_add_trace st evs : ns_inv st -> ns_inv (add_trace st evs).
Proof. intros []. by constructor. Qed.

#[export] Hint Resolve ns_inv_add_trace : qipc.

Section ns_facts.
Context `{Env}.

Lemma sendto_eq dst b st :
  sendto dst b st = Ret (env_sendto (trace st) dst b, add_trace st [EvSend dst b]).
Proof. done. Qed.

Lemma calloc_eq st : calloc st = Ret (env_calloc (trace st), add_trace st [EvCalloc]).
Proof. done. Qed.

Lemma notify_loop_eq lks srv service instance new : forall st,
  notify_loop lks srv service instance new st
  = Ret (tt, add_trace st (notify_events lks srv service instance new)).
Proof.
  unfold notify_events. induction lks as [|lk lks IH]; intros st; simpl.
  { by rewrite add_trace_nil. }
  rewrite filter_cons. destruct (lookup_match lk service instance) eqn:Hm; simpl.
  - erewrite ns_bind_ret by apply sendto_eq. rewrite IH, add_trace_app. done.
  - apply IH.
Qed.

Lemma reply_loop_eq to srvs : forall st,
  reply_loop to srvs st = Ret (tt, add_trace st (reply_events to srvs)).
Proof.
  induction srvs as [|srv srvs IH]; intros st; simpl; [by rewrite add_trace_nil|].
  erewrite ns_bind_ret by apply sendto_eq. by rewrite IH, add_trace_app.
Qed.

Lemma propagate_loop_eq srvs bytes : forall st,
  propagate_loop srvs bytes st = Ret (tt, add_trace st (propagate_events srvs bytes)).
Proof.
  induction srvs as [|srv srvs IH]; intros st; simpl; [by rewrite add_trace_nil|].
  erewrite ns_bind_ret by apply sendto_eq. by rewrite IH, add_trace_app.
Qed.

(** [annouce_servers] sends the announcements up to the first failed send. *)
Lemma announce_loop_eq sq srvs : forall st,
  exists rc n, announce_loop sq srvs st
    = Ret (rc, add_trace st ((fun srv => EvSend sq (ctrl_pkt_bytes (server_pkt QRTR_TYPE_NEW_SERVER srv)))
                               <$> take n srvs))
    /\ (0 <= rc -> (length srvs <= n)%nat /\ rc = 0).
Proof.
  induction srvs as [|srv srvs IH]; intros st; simpl.
  { exists 0, 0%nat. rewrite add_trace_nil. split; [done|]. intros. split; [lia|done]. }
  erewrite ns_bind_ret by apply sendto_eq.
  destruct (Z.ltb_spec (env_sendto (trace st) sq
    (ctrl_pkt_bytes (server_pkt QRTR_TYPE_NEW_SERVER srv))) 0) as [Hrc|Hrc].
  - eexists _, 1%nat. split; [by destruct srvs|]. lia.
  - destruct (IH (add_trace st [EvSend sq (ctrl_pkt_bytes (server_pkt QRTR_TYPE_NEW_SERVER srv))]))
      as (rc & n & Heq & Hn).
    exists rc, (S n). rewrite Heq, add_trace_app. simpl. split; [done|].
    intros Hr. apply Hn in Hr as [? ?]. split; [simpl; lia|done].
Qed.

(** ** Tables *)

(** Two states that agree on the tables. *)
Lemma node_ptr_add_trace st evs id : node_ptr (add_trace st evs) id = node_ptr st id.
Proof. done. Qed.

Lemma ns_lookup_add_trace st evs id port : ns_lookup (add_trace st evs) id port = ns_lookup st id port.
Proof. done. Qed.

Lemma node_ptr_spec st id p :
  ns_inv st -> u32_range_of id -> node_ptr st id = Some p ->
  exists nd, heap st !! p = Some nd /\ node_id nd = id.
Proof.
  intros Hinv Hid Hp. unfold node_ptr in Hp. apply fmap_Some in Hp as (it & Hg & ->).
  apply map_get_Some in Hg as [Hin Hk]; [|apply Hinv].
  destruct (inv_ptr _ Hinv it Hin) as (nd & Hnd & Hkey). exists nd. split; [done|].
  apply hash_u32_eq; [apply (inv_heap _ Hinv _ _ Hnd)|done|congruence].
Qed.

Lemma node_ok_create id : u32_range_of id -> node_ok (MkNode id map_create).
Proof.
  intros. split_and!; [done|apply map_wf_create|]. intros it. unfold items. simpl. set_solver.
Qed.
(** [st'] differs from [st] only by allocations: new empty nodes at most. *)
Record quiet (st st' : ns_state) : Prop := MkQuiet
  { q_ctx : same_ctx st st';
    q_lookups : lookups st' = lookups st;
    q_trace : exists k, trace st' = trace st ++ replicate k EvCalloc;
    q_heap : forall p nd, heap st !! p = Some nd -> heap st' !! p = Some nd;
    q_ptr : forall id p, u32_range_of id -> node_ptr st id = Some p -> node_ptr st' id = Some p;
    q_registry : forall id port, u32_range_of id -> ns_lookup st' id port = ns_lookup st id port;
    q_new : forall p nd, heap st' !! p = Some nd -> heap st !! p = Some nd \/ services nd = map_create;
    q_ptr_new : forall id p, u32_range_of id -> node_ptr st' id = Some p ->
      node_ptr st id = Some p \/ exists nd, heap st' !! p = Some nd /\ services nd = map_create }.

Lemma quiet_refl st : quiet st st.
Proof. constructor; eauto with qipc. exists 0%nat. by rewrite app_nil_r. Qed.

Lemma lookup_snoc_create (h : list node) id p nd :
  (h ++ [MkNode id map_create]) !! p = Some nd ->
  h !! p = Some nd \/ services nd = map_create.
Proof.
  intros [Hnd|[_ Hnd]]%lookup_app_Some; [by left|].
  apply list_lookup_singleton_Some in Hnd as [_ <-]. by right.
Qed.

Lemma quiet_uniq st st' : quiet st st' ->
  (forall p nd, heap st !! p = Some nd -> map_uniq (services nd)) ->
  (forall p nd, heap st' !! p = Some nd -> map_uniq (services nd)).
Proof.
  intros Hq Hu p nd [Hnd|Hnd]%(q_new _ _ Hq); [by apply (Hu p)|]. rewrite Hnd.
  unfold map_uniq, items. simpl. constructor.
Qed.

Lemma quiet_alloc st : quiet st (add_trace st [EvCalloc]).
Proof. constructor; try done; [by exists 1%nat|by left|by left]. Qed.

(** Entering a new, empty node into the table. *)
Lemma new_node_inv st m id :
  ns_inv st -> u32_range_of id -> node_ptr st id = None -> map_wf m ->
  items m ≡ₚ MkItem (hash_u32 id) (length (heap st)) :: items (nodes st) ->
  let st' := MkNs (sock st) (local_node st) (bcast_sq st) (lookups st) m
               (heap st ++ [MkNode id map_create]) (trace st ++ [EvCalloc; EvCalloc]) in
  ns_inv st' /\ quiet st st' /\ node_ptr st' id = Some (length (heap st)).
Proof.
  intros Hinv Hid Hnone Hwf Hp st'. unfold node_ptr in Hnone. apply fmap_None in Hnone.
  assert (map_uniq m) as Hu by (by apply (map_uniq_cons (nodes st) m _ (inv_wf _ Hinv) (inv_uniq _ Hinv) Hp)).
  assert (forall id', u32_range_of id' -> id' <> id -> node_ptr st' id' = node_ptr st id') as Hother.
  { intros id' Hid' Hne. unfold node_ptr. simpl. f_equal.
    apply (map_get_cons (nodes st) m _ _ (inv_wf _ Hinv) (inv_uniq _ Hinv) Hwf Hu Hp).
    simpl. intros Heq. apply Hne. by apply hash_u32_eq. }
  assert (node_ptr st' id = Some (length (heap st))) as Hnew.
  { unfold node_ptr. simpl. apply fmap_Some.
    exists (MkItem (hash_u32 id) (length (heap st))). split; [|done].
    apply map_get_uniq; [done..|]. rewrite Hp. split; [by left|done]. }
  assert (forall p nd, heap st !! p = Some nd -> heap st' !! p = Some nd) as Hheap.
  { intros p nd Hnd. simpl. by apply lookup_app_l_Some. }
  split_and!; [|constructor|done]; simpl; try done.
  - constructor; simpl; try done; try apply Hinv.
    + intros it. rewrite Hp, elem_of_cons. intros [->|Hin].
      * exists (MkNode id map_create). simpl. split; [|done]. by rewrite list_lookup_middle.
      * destruct (inv_ptr _ Hinv it Hin) as (nd & ? & ?). exists nd. split; [|done].
        by apply Hheap.
    + intros p nd [Hnd|[_ Hnd]]%lookup_app_Some; [by apply (inv_heap _ Hinv p)|].
      apply list_lookup_singleton_Some in Hnd as [_ <-]. by apply node_ok_create.
  - by exists 2%nat.
  - intros id' p Hid' Hptr. destruct (decide (id' = id)) as [->|]; [|by rewrite Hother].
    unfold node_ptr in Hptr. by rewrite Hnone in Hptr.
  - intros id' port Hid'. unfold ns_lookup. destruct (decide (id' = id)) as [->|Hne].
    + rewrite Hnew. unfold node_ptr. rewrite Hnone. simpl. rewrite list_lookup_middle by done.
      done.
    + rewrite Hother by done. destruct (node_ptr st id') as [p|] eqn:Hptr; [|done]. simpl.
      destruct (node_ptr_spec st id' p Hinv Hid' Hptr) as (nd & Hnd & _).
      pose proof (Hheap _ _ Hnd) as Hnd'. simpl in Hnd'. by rewrite Hnd, Hnd'.
  - apply lookup_snoc_create.
  - intros id' p Hid' Hptr. destruct (decide (id' = id)) as [->|Hne].
    + right. rewrite Hnew in Hptr. injection Hptr as <-. exists (MkNode id map_create).
      by rewrite list_lookup_middle.
    + left. by rewrite <- Hother.
Qed.

Lemma node_get_spec st id :
  ns_inv st -> u32_range_of id ->
  exists r st', node_get id st = Ret (r, st') /\ ns_inv st' /\ quiet st st'
    /\ match r with
       | Some p => node_ptr st' id = Some p
           /\ exists nd, heap st' !! p = Some nd /\ node_id nd = id
             /\ (node_ptr st id = None -> services nd = map_create)
       | None => node_ptr st id = None /\ ~ (forall h, env_calloc h = true)
       end.
Proof.
  intros Hinv Hid. unfold node_get. rewrite ns_bind_get.
  destruct (map_get (nodes st) (hash_u32 id)) as [mi|] eqn:Hg.
  { assert (node_ptr st id = Some (payload mi)) as Hp by (unfold node_ptr; by rewrite Hg).
    exists (Some (payload mi)), st. split_and!; auto using quiet_refl.
    destruct (node_ptr_spec st id _ Hinv Hid Hp) as (nd & ? & ?). exists nd. by rewrite Hp. }
  assert (node_ptr st id = None) as Hnone by (unfold node_ptr; by rewrite Hg).
  erewrite ns_bind_ret by apply calloc_eq.
  destruct (env_calloc (trace st)) eqn:Ha; simpl.
  2: { exists None, (add_trace st [EvCalloc]).
       split_and!; auto using quiet_alloc with qipc. intros Hall. congruence. }
  rewrite ns_bind_get. unfold set_heap, calloc. simpl.
  erewrite ns_bind_ret by reflexivity. erewrite ns_bind_ret by reflexivity. simpl.
  destruct (map_reput_total (env_calloc (trace st ++ [EvCalloc])) (nodes st) (hash_u32 id)
              (length (heap st)) (inv_wf _ Hinv)) as (m & rc & old & Hr & Hwf & Hcase).
  unfold map_put. simpl. rewrite Hr. simpl.
  erewrite ns_bind_ret by reflexivity. simpl. erewrite ns_bind_ret by reflexivity. simpl.
  rewrite <- app_assoc. simpl.
  destruct Hcase as [(-> & Hf & _ & -> & _)|(-> & _ & _ & Hnew & _)]; simpl.
  - eexists None, _. split; [reflexivity|]. split_and!; [| |done|intros Hall; congruence].
    + constructor; simpl; try apply Hinv.
      * intros it Hin. destruct (inv_ptr _ Hinv it Hin) as (nd & ? & ?).
        exists nd. split; [by apply lookup_app_l_Some|done].
      * intros p nd [Hnd|[_ Hnd]]%lookup_app_Some; [by apply (inv_heap _ Hinv p)|].
        apply list_lookup_singleton_Some in Hnd as [_ <-]. by apply node_ok_create.
    + constructor; simpl; try done; [by exists 2%nat|by intros; apply lookup_app_l_Some| |apply lookup_snoc_create|by left].
      intros id' port Hid'. unfold ns_lookup.
      change (node_ptr _ id') with (node_ptr st id') at 1.
      destruct (node_ptr st id') as [p|] eqn:Hptr; [|done]. simpl.
      destruct (node_ptr_spec st id' p Hinv Hid' Hptr) as (nd & Hnd & _).
      by rewrite Hnd, (lookup_app_l_Some _ _ _ _ Hnd).
  - destruct (Hnew (inv_uniq _ Hinv) Hg) as [_ Hp].
    destruct (new_node_inv st m id Hinv Hid Hnone Hwf Hp) as (Hi & Hq & Hpt).
    eexists (Some _), _. split; [reflexivity|]. split_and!; try done.
    exists (MkNode id map_create). split_and!; [|done..]. simpl. by rewrite list_lookup_middle.
Qed.

(** ** Updating the servers of a node *)

Definition with_services (st : ns_state) (p : nat) (nd : node) (m : map server) : ns_state :=
  MkNs (sock st) (local_node st) (bcast_sq st) (lookups st) (nodes st)
    (<[p := MkNode (node_id nd) m]> (heap st)) (trace st).

Lemma set_services_eq st p nd m :
  heap st !! p = Some nd -> set_services p m st = Ret (tt, with_services st p nd m).
Proof. intros Hp. unfold set_services. rewrite ns_bind_get.
  by rewrite (ns_bind_ret _ _ _ _ _ (deref_ok p st nd Hp)).
Qed.

Lemma with_services_inv st p nd m :
  ns_inv st -> heap st !! p = Some nd -> map_wf m ->
  (forall it, it ∈ items m -> server_ok (node_id nd) it) ->
  ns_inv (with_services st p nd m).
Proof.
  intros Hinv Hp Hwf Hok. constructor; simpl; try apply Hinv.
  - intros it Hin. destruct (inv_ptr _ Hinv it Hin) as (nd' & Hnd' & Hk).
    destruct (decide (payload it = p)) as [He|Hne].
    + rewrite He in Hnd' |- *. rewrite Hp in Hnd'. injection Hnd' as <-.
      rewrite list_lookup_insert_eq by (by eapply lookup_lt_Some). by eexists.
    + rewrite list_lookup_insert_ne by done. eauto.
  - intros p' nd'. rewrite list_lookup_insert. case_decide as Hd.
    + intros [= <-]. split_and!; simpl; try done. by apply (inv_heap _ Hinv p nd Hp).
    + apply Hinv.
Qed.

Lemma with_services_lookup_same st p nd m id port :
  ns_inv st -> u32_range_of id -> heap st !! p = Some nd -> node_ptr st id = Some p ->
  ns_lookup (with_services st p nd m) id port = payload <$> map_get m (hash_u32 port).
Proof.
  intros Hinv Hid Hp Hptr. unfold ns_lookup.
  change (node_ptr (with_services st p nd m) id) with (node_ptr st id). rewrite Hptr. simpl.
  rewrite list_lookup_insert_eq by (by eapply lookup_lt_Some). done.
Qed.

Lemma with_services_lookup_other st p nd m id port :
  ns_inv st -> u32_range_of id -> heap st !! p = Some nd -> node_id nd <> id ->
  ns_lookup (with_services st p nd m) id port = ns_lookup st id port.
Proof.
  intros Hinv Hid Hp Hne. unfold ns_lookup.
  change (node_ptr (with_services st p nd m) id) with (node_ptr st id).
  destruct (node_ptr st id) as [p'|] eqn:Hptr; [|done]. simpl.
  destruct (node_ptr_spec st id p' Hinv Hid Hptr) as (nd' & Hnd' & Hid').
  rewrite list_lookup_insert_ne; [done|]. intros ->. rewrite Hp in Hnd'. by simplify_eq.
Qed.

Lemma ns_lookup_at st p nd id port :
  node_ptr st id = Some p -> heap st !! p = Some nd ->
  ns_lookup st id port = payload <$> map_get (services nd) (hash_u32 port).
Proof. intros Hptr Hp. unfold ns_lookup. rewrite Hptr. simpl. by rewrite Hp. Qed.

Lemma quiet_trans st1 st2 st3 : quiet st1 st2 -> quiet st2 st3 -> quiet st1 st3.
Proof.
  intros [C1 L1 [k1 T1] H1 P1 R1 N1 Q1] [C2 L2 [k2 T2] H2 P2 R2 N2 Q2].
  constructor; eauto with qipc; try congruence.
  - exists (k1 + k2)%nat. by rewrite T2, T1, replicate_add, app_assoc.
  - intros id port Hid. by rewrite R2, R1.
  - intros p nd [Hp|Hp]%N2; eauto.
  - intros id p Hid [Hp|Hp]%Q2; [|by right|done]. apply Q1 in Hp as [Hp|(nd & ? & ?)]; eauto.
Qed.

#[local] Hint Resolve quiet_refl quiet_alloc quiet_trans : qipc.

(** No node's table has two servers of one port. *)
Definition ns_uniq (st : ns_state) : Prop :=
  forall p nd, heap st !! p = Some nd -> map_uniq (services nd).

Lemma with_services_id st p nd :
  heap st !! p = Some nd -> with_services st p nd (services nd) = st.
Proof.
  intros Hp. destruct st; unfold with_services; simpl in *. f_equal.
  apply list_insert_id. rewrite Hp. by destruct nd.
Qed.

Lemma with_services_uniq st p nd m :
  ns_uniq st -> map_uniq m -> ns_uniq (with_services st p nd m).
Proof.
  intros Hu Hm p' nd'. simpl. rewrite list_lookup_insert. case_decide; [|apply Hu].
  by intros [= <-].
Qed.

(** What [server_add] does when it succeeds. *)
Record registered (st st' : ns_state) (srv : server) : Prop := MkReg
  { reg_here : ns_lookup st' (srv_node srv) (srv_port srv) = Some srv;
    reg_nodes : forall id port, u32_range_of id -> id <> srv_node srv ->
      ns_lookup st' id port = ns_lookup st id port;
    reg_fresh : ns_uniq st -> ns_lookup st (srv_node srv) (srv_port srv) = None ->
      ns_uniq st' /\ forall port, u32_range_of port -> port <> srv_port srv ->
        ns_lookup st' (srv_node srv) port = ns_lookup st (srv_node srv) port }.

(** What [server_add] leaves alone. *)
Record allocs (st st' : ns_state) : Prop := MkAllocs
  { al_ctx : same_ctx st st';
    al_lookups : lookups st' = lookups st;
    al_trace : exists k, trace st' = trace st ++ replicate k EvCalloc }.

Lemma quiet_allocs st st' : quiet st st' -> allocs st st'.
Proof. intros []. by constructor. Qed.

Lemma put_server_ok nd m srv :
  node_ok nd -> server_ok (node_id nd) (MkItem (hash_u32 (srv_port srv)) srv) ->
  (forall it, it ∈ items m ->
     it = MkItem (hash_u32 (srv_port srv)) srv \/ it ∈ items (services nd)) ->
  forall it, it ∈ items m -> server_ok (node_id nd) it.
Proof. intros (_ & _ & Hok) Hsrv Hm it [->|Hin]%Hm; [done|by apply Hok]. Qed.

(** Entering a server into a node's table. *)
Lemma put_server st p nd m srv :
  ns_inv st -> node_ptr st (srv_node srv) = Some p -> heap st !! p = Some nd ->
  node_id nd = srv_node srv -> u32_range_of (srv_node srv) -> u32_range_of (srv_port srv) ->
  u32_range_of (srv_instance srv) -> srv_service srv <> 0 -> srv_port srv <> 0 -> map_wf m ->
  let it := MkItem (hash_u32 (srv_port srv)) srv in
  map_get m (hash_u32 (srv_port srv)) = Some it ->
  (forall x, x ∈ items m -> x = it \/ x ∈ items (services nd)) ->
  (map_uniq (services nd) -> map_get (services nd) (hash_u32 (srv_port srv)) = None ->
     items m ≡ₚ it :: items (services nd)) ->
  ns_inv (with_services st p nd m) /\ registered st (with_services st p nd m) srv.
Proof.
  intros Hinv Hptr Hp Hid Hrn Hrp Hri Hs0 Hp0 Hwf it Hg Hsub Hfresh.
  assert (map_wf (services nd)) as Hwf' by apply (inv_heap _ Hinv p nd Hp).
  split; [|constructor].
  - apply with_services_inv; try done. apply (put_server_ok nd m srv); try done.
    by apply (inv_heap _ Hinv p). 
  - rewrite with_services_lookup_same by done. by rewrite Hg.
  - intros id port Hr Hne. apply with_services_lookup_other; congruence.
  - intros Hu Hnone. rewrite (ns_lookup_at st p nd) in Hnone by done.
    apply fmap_None in Hnone. pose proof (Hu p nd Hp) as Hu'. specialize (Hfresh Hu' Hnone).
    assert (map_uniq m) as Hum by (by apply (map_uniq_cons _ _ _ Hwf' Hu' Hfresh)).
    split; [by apply with_services_uniq|]. intros port Hr Hne.
    rewrite with_services_lookup_same, (ns_lookup_at st p nd) by done. f_equal.
    apply (map_get_cons _ _ _ _ Hwf' Hu' Hwf Hum Hfresh). simpl.
    intros Heq. apply Hne. by apply hash_u32_eq.
Qed.

Lemma server_add_spec st service instance id port :
  ns_inv st -> u32_range_of id -> u32_range_of port -> u32_range_of instance ->
  exists r st', server_add service instance id port st = Ret (r, st') /\ ns_inv st'
    /\ allocs st st'
    /\ match r with
       | None => quiet st st' /\ (service = 0 \/ port = 0 \/ ~ (forall h, env_calloc h = true))
       | Some srv => srv = MkServer service instance id port /\ service <> 0 /\ port <> 0
           /\ registered st st' srv
       end.
Proof.
  intros Hinv Hid Hport Hinst. unfold server_add.
  destruct (Z.eqb_spec service 0) as [->|Hs0]; simpl.
  { exists None, st. split_and!; auto using quiet_refl, quiet_allocs. }
  destruct (Z.eqb_spec port 0) as [->|Hp0]; simpl.
  { exists None, st. split_and!; auto using quiet_refl, quiet_allocs. }
  erewrite ns_bind_ret by apply calloc_eq.
  destruct (env_calloc (trace st)) eqn:Ha; simpl.
  2: { exists None, (add_trace st [EvCalloc]).
       split_and!; auto using quiet_alloc, quiet_allocs with qipc.
       right; right. intros Hall. congruence. }
  destruct (node_get_spec (add_trace st [EvCalloc]) id (ns_inv_add_trace _ _ Hinv) Hid)
    as ([p|] & st2 & Heq & Hinv2 & Hq & Hr); rewrite (ns_bind_ret _ _ _ _ _ Heq).
  2: { exists None, st2. split_and!; eauto using quiet_allocs with qipc.
       right; right. apply Hr. }
  destruct Hr as (Hptr & nd & Hp & Hnid & _).
  rewrite (ns_bind_ret _ _ _ _ _ (deref_ok p st2 nd Hp)).
  erewrite ns_bind_ret by apply calloc_eq. set (st3 := add_trace st2 [EvCalloc]).
  assert (quiet st st3) as Hq3 by eauto with qipc.
  assert (map_wf (services nd)) as Hwf by apply (inv_heap _ Hinv2 p nd Hp).
  set (srv := MkServer service instance id port).
  destruct (map_reput_total (env_calloc (trace st2)) (services nd) (hash_u32 port) srv Hwf)
    as (m & rc & old & Hre & Hwfm & Hcase).
  rewrite Hre. erewrite ns_bind_ret by reflexivity. simpl.
  erewrite ns_bind_ret by (by apply (set_services_eq st3 p nd)).
  destruct Hcase as [(-> & Hf & _ & -> & _)|(-> & Hg & Hsub & Hfresh & _)]; simpl.
  - rewrite with_services_id by done. exists None, st3.
    split_and!; eauto using quiet_allocs with qipc. right; right. intros Hall. congruence.
  - destruct (put_server st3 p nd m srv) as [Hi Hreg]; try done; eauto with qipc.
    { intros ? ?. by apply Hfresh. }
    eexists (Some srv), _. split; [reflexivity|]. destruct (quiet_allocs _ _ Hq3).
    split_and!; try done.
    destruct Hreg as [R1 R2 R3]. constructor; [done| |].
    + intros. rewrite R2 by done. by apply (q_registry _ _ Hq3).
    + intros Hu Hn. rewrite <- (q_registry _ _ Hq3) in Hn by done.
      destruct R3 as [Hu3 R3]; [exact (quiet_uniq st st3 Hq3 Hu)|done|]. split; [done|].
      intros. rewrite R3 by done. by apply (q_registry _ _ Hq3).
Qed.

(** ** Removing servers *)

(** The packets about a server that left: a broadcast when it was a local one,
    then a notification to every observer that matches. *)
Definition del_events (st : ns_state) (srv : server) : list event :=
  (if srv_node srv =? local_id st
   then [EvSend (bcast_sq st) (ctrl_pkt_bytes (server_pkt QRTR_TYPE_DEL_SERVER srv))] else [])
  ++ notify_events (lookups st) srv (srv_service srv) (srv_instance srv) false.

(** [server_del] computes: the table without the server, and the packets. *)
Lemma server_del_eq st p nd port :
  heap st !! p = Some nd ->
  server_del p port st
  = match map_get (services nd) (hash_u32 port) with
    | None => Ret (- ENOENT, st)
    | Some mi => Ret (0, add_trace (with_services st p nd (fst (map_remove (services nd) (key mi))))
                          (del_events st (payload mi)))
    end.
Proof.
  intros Hp. unfold server_del. rewrite (ns_bind_ret _ _ _ _ _ (deref_ok p st nd Hp)).
  destruct (map_get (services nd) (hash_u32 port)) as [mi|]; [|done].
  rewrite (ns_bind_ret _ _ _ _ _ (set_services_eq st p nd _ Hp)). rewrite ns_bind_get.
  unfold del_events. change (local_id (with_services _ _ _ _)) with (local_id st).
  destruct (srv_node (payload mi) =? local_id st); simpl.
  - erewrite ns_bind_ret by (erewrite ns_bind_ret by apply sendto_eq; reflexivity).
    rewrite ns_bind_get. erewrite ns_bind_ret by apply notify_loop_eq.
    unfold mret, ns_ret. rewrite add_trace_app. done.
  - erewrite ns_bind_ret by reflexivity.
    rewrite ns_bind_get. erewrite ns_bind_ret by apply notify_loop_eq. done.
Qed.

Record deleted (st st' : ns_state) (srv : server) : Prop := MkDel
  { del_ctx : same_ctx st st';
    del_lookups : lookups st' = lookups st;
    del_nodes : nodes st' = nodes st;
    del_trace : trace st' = trace st ++ del_events st srv;
    del_others : forall id port, u32_range_of id -> id <> srv_node srv ->
      ns_lookup st' id port = ns_lookup st id port;
    del_uniq : ns_uniq st -> ns_uniq st' /\ ns_lookup st' (srv_node srv) (srv_port srv) = None
      /\ forall port, u32_range_of port -> port <> srv_port srv ->
           ns_lookup st' (srv_node srv) port = ns_lookup st (srv_node srv) port }.

Lemma map_remove_lookup m it m' k :
  map_wf m -> map_uniq m -> map_wf m' -> items m ≡ₚ it :: items m' ->
  map_uniq m' /\ map_get m' (key it) = None
  /\ (k <> key it -> map_get m' k = @map_get server m k).
Proof.
  intros Hwf Hu Hwf' Hp. pose proof Hu as Hu0. unfold map_uniq in Hu0. rewrite Hp in Hu0.
  csimpl in *. pose proof (NoDup_cons_1_2 _ _ Hu0) as Hu'. split_and!; [done| |].
  - apply map_get_None; [done|]. intros it' Hin Hk. apply (NoDup_cons_1_1 _ _ Hu0).
    rewrite <- Hk. by apply list_elem_of_fmap_2.
  - intros Hk. symmetry. by apply (map_get_cons m' m it).
Qed.

Lemma server_del_spec st p id port :
  ns_inv st -> u32_range_of id -> u32_range_of port -> node_ptr st id = Some p ->
  match ns_lookup st id port with
  | None => server_del p port st = Ret (- ENOENT, st)
  | Some srv => srv_node srv = id /\ srv_port srv = port
      /\ exists st', server_del p port st = Ret (0, st') /\ ns_inv st' /\ deleted st st' srv
  end.
Proof.
  intros Hinv Hid Hport Hptr. destruct (node_ptr_spec st id p Hinv Hid Hptr) as (nd & Hp & Hnid).
  rewrite (ns_lookup_at st p nd) by done. rewrite (server_del_eq st p nd port Hp).
  destruct (inv_heap _ Hinv p nd Hp) as (_ & Hwf & Hok).
  destruct (map_get (services nd) (hash_u32 port)) as [mi|] eqn:Hg; [|done]. simpl.
  destruct (map_get_Some _ _ _ (proj1 Hwf) Hg) as [Hin Hk].
  destruct (Hok mi Hin) as (Hk' & Hn & _ & _ & Hr & _).
  assert (srv_port (payload mi) = port) as Hpo by (apply hash_u32_eq; [done..|congruence]).
  pose proof (map_remove_spec (services nd) (key mi) Hwf) as Hrem. rewrite Hk, Hg in Hrem.
  destruct Hrem as (m' & Hrem & Hwf' & Hperm & _). rewrite Hk, Hrem. simpl.
  assert (ns_inv (with_services st p nd m')) as Hi.
  { apply with_services_inv; try done. intros it Hit. apply Hok. rewrite Hperm. by right. }
  split_and!; [congruence|done|]. eexists. split; [reflexivity|].
  split; [by apply ns_inv_add_trace|]. constructor; simpl; try done.
  - intros id' port' Hr' Hne. apply with_services_lookup_other; congruence.
  - intros Hu. destruct (map_remove_lookup _ mi m' 0 Hwf (Hu p nd Hp) Hwf' Hperm) as (Hu' & Hnone & _).
    split_and!; [by apply with_services_uniq| |].
    + rewrite ns_lookup_add_trace, with_services_lookup_same by congruence. by rewrite Hpo, <- Hk, Hnone.
    + intros port' Hr' Hne. rewrite ns_lookup_add_trace, with_services_lookup_same by congruence.
      rewrite (ns_lookup_at st p nd) by congruence. f_equal.
      apply (map_remove_lookup _ mi m' _ Hwf (Hu p nd Hp) Hwf' Hperm).
      rewrite Hk. intros Heq. apply Hne. rewrite Hpo. by apply hash_u32_eq.
Qed.

Lemma del_events_ext st st' srv :
  same_ctx st st' -> lookups st' = lookups st -> del_events st' srv = del_events st srv.
Proof.
  intros Hc Hl. unfold del_events. rewrite (same_ctx_local _ _ Hc), Hl.
  destruct Hc as (_ & _ & ->). done.
Qed.

(** What the first loop of [ctrl_cmd_bye] leaves alone. *)
Record departing (st st' : ns_state) (id : Z) : Prop := MkDeparting
  { dep_ctx : same_ctx st st';
    dep_lookups : lookups st' = lookups st;
    dep_nodes : nodes st' = nodes st;
    dep_trace : exists evs, trace st' = trace st ++ evs;
    dep_others : forall id' port, u32_range_of id' -> id' <> id ->
      ns_lookup st' id' port = ns_lookup st id' port }.

Lemma departing_refl st id : departing st st id.
Proof. constructor; try done. exists []. by rewrite app_nil_r. Qed.

Lemma departing_deleted st st1 st2 srv :
  deleted st st1 srv -> departing st1 st2 (srv_node srv) -> departing st st2 (srv_node srv).
Proof.
  intros [C1 L1 N1 T1 O1 _] [C2 L2 N2 [evs T2] O2]. constructor; eauto with qipc; try congruence.
  - exists (del_events st srv ++ evs). rewrite T2, T1. by rewrite app_assoc.
  - intros. rewrite O2, O1; done.
Qed.

(** What the loop does when no port occurs twice: every server goes, each with
    its packets, in table order. *)
Definition departed (st st' : ns_state) (p : nat) (m : map server) : Prop :=
  ns_uniq st' /\ trace st' = trace st ++ concat (del_events st ∘ payload <$> items m)
  /\ exists nd', heap st' !! p = Some nd' /\ items (services nd') = [].

Lemma departed_nil st p nd :
  ns_uniq st -> heap st !! p = Some nd -> items (services nd) = [] -> departed st st p (services nd).
Proof.
  intros Hu Hp Hi. split_and!; [done| |by exists nd]. rewrite Hi. simpl. by rewrite app_nil_r.
Qed.

Lemma departed_cons st st1 st2 p it m m1 :
  deleted st st1 (payload it) -> departed st1 st2 p m1 -> items m = it :: items m1 ->
  departed st st2 p m.
Proof.
  intros Hdel (Hu & Ht & Hend) Hi. split_and!; [done| |done].
  rewrite Ht, (del_trace _ _ _ Hdel), Hi. csimpl. rewrite <- app_assoc. do 3 f_equal.
  apply list_fmap_ext. intros _ it' _. simpl.
  apply del_events_ext; [apply (del_ctx _ _ _ Hdel)|apply (del_lookups _ _ _ Hdel)].
Qed.

(** One turn of the loop. *)
Lemma bye_loop_turn st p nd id x it :
  ns_inv st -> u32_range_of id -> node_ptr st id = Some p -> heap st !! p = Some nd ->
  data (services nd) !! x = Some (Item it) ->
  exists st1 mi, server_del p (srv_port (payload it)) st = Ret (0, st1) /\ ns_inv st1
    /\ heap st1 !! p = Some (MkNode (node_id nd) (fst (map_remove (services nd) (key mi))))
    /\ deleted st st1 (payload mi) /\ srv_node (payload mi) = id
    /\ (map_uniq (services nd) -> mi = it).
Proof.
  intros Hinv Hid Hptr Hp Hit.
  destruct (inv_heap _ Hinv p nd Hp) as (_ & Hwf & Hok).
  assert (it ∈ items (services nd)) as Hin by (apply elem_of_items; eauto).
  destruct (Hok it Hin) as (Hk & _ & _ & _ & Hr & _).
  pose proof (server_del_eq st p nd (srv_port (payload it)) Hp) as Heq.
  pose proof (server_del_spec st p id (srv_port (payload it)) Hinv Hid Hr Hptr) as Hd.
  rewrite (ns_lookup_at st p nd) in Hd by done.
  destruct (map_get (services nd) (hash_u32 (srv_port (payload it)))) as [mi|] eqn:Hg; simpl in Hd.
  2: { exfalso. rewrite map_get_None in Hg by done. by apply (Hg it). }
  destruct Hd as (Hn & _ & st1 & Hd & Hinv1 & Hdel). rewrite Hd in Heq. injection Heq as Heq.
  exists st1, mi. split_and!; try done.
  - rewrite Heq. simpl. by rewrite list_lookup_insert_eq by (by eapply lookup_lt_Some).
  - intros Hu. rewrite <- Hk in Hg. rewrite map_get_uniq in Hg by done. destruct Hg as [Hin' Hk'].
    assert (map_get (services nd) (key it) = Some it) as Hg1 by (by apply map_get_uniq).
    assert (map_get (services nd) (key it) = Some mi) as Hg2 by (by apply map_get_uniq).
    congruence.
Qed.

Lemma bye_loop_spec id p fuel : forall st nd i,
  ns_inv st -> u32_range_of id -> node_ptr st id = Some p -> heap st !! p = Some nd ->
  (size (services nd) <= i + fuel)%nat -> (i <= size (services nd))%nat ->
  exists st', bye_loop p (map_iter_from (services nd) i) fuel st = Ret (tt, st')
    /\ ns_inv st' /\ departing st st' id
    /\ (ns_uniq st -> items (services nd) = omap entry_item (drop i (data (services nd))) ->
        departed st st' p (services nd)).
Proof.
  induction fuel as [|fuel IH]; intros st nd i Hinv Hid Hptr Hp Hf Hle.
  all: destruct (inv_heap _ Hinv p nd Hp) as (_ & Hwf & _); pose proof Hwf as (Hs & _ & _).
  all: pose proof (map_iter_loop_spec (data (services nd)) i (size (services nd) - i) ltac:(lia)) as Hl.
  all: unfold map_iter_from; destruct (map_iter_loop _ _ _) as [x|]; cbn [bye_loop].
  1: { destruct Hl as (it & Hx & _). lia. }
  1, 3: exists st; split_and!; auto using departing_refl; intros Hu Hi;
    apply departed_nil; [done..|by rewrite Hi].
  destruct Hl as (it & Hx & Hit & Hdrop).
  rewrite (ns_bind_ret _ _ _ _ _ (deref_ok p st nd Hp)). unfold map_iter_item. rewrite Hit. simpl.
  destruct (bye_loop_turn st p nd id x it) as (st1 & mi & Hd & Hinv1 & Hp1 & Hdel & Hn & Hmi); try done.
  rewrite (ns_bind_ret _ _ _ _ _ Hd), (ns_bind_ret _ _ _ _ _ (deref_ok p st1 _ Hp1)).
  cbn [map_iter_next services].
  destruct (map_remove_shape (services nd) (key mi)) as [Hsz _].
  assert (node_ptr st1 id = Some p) as Hptr1 by (unfold node_ptr; by rewrite (del_nodes _ _ _ Hdel)).
  destruct (IH st1 _ (x + 1)%nat Hinv1 Hid Hptr1 Hp1) as (st' & Heq & Hinv' & Hdep & Hex);
    simpl; try lia.
  simpl in Heq. rewrite Heq.
  exists st'. split_and!; [done|done|rewrite <- Hn in *; by eapply departing_deleted|].
  intros Hu Hi. rewrite Hdrop in Hi. rewrite (Hmi (Hu p nd Hp)) in *.
  destruct (map_remove_rest (services nd) x it) as [Hm Hrest]; try done; [by apply (Hu p)|].
  eapply departed_cons; [done| |exact Hm]. simpl in Hex. apply Hex.
  - by apply (del_uniq _ _ _ Hdel).
  - by rewrite Nat.add_1_r.
Qed.

(** ** The local node *)

(** The servers of a node, in table order. *)
Definition node_servers (st : ns_state) (id : Z) : list server :=
  match node_ptr st id ≫= (heap st !!.) with
  | Some nd => payload <$> items (services nd)
  | None => []
  end.

Definition local_servers (st : ns_state) : list server := node_servers st (local_id st).

Lemma local_id_range st : u32_range_of (local_id st).
Proof. apply u32_range. Qed.

Lemma node_servers_at st p nd id :
  node_ptr st id = Some p -> heap st !! p = Some nd ->
  node_servers st id = payload <$> items (services nd).
Proof. intros Hptr Hp. unfold node_servers. rewrite Hptr. simpl. by rewrite Hp. Qed.

Lemma node_servers_quiet st st' id :
  ns_inv st -> quiet st st' -> u32_range_of id -> node_servers st' id = node_servers st id.
Proof.
  intros Hinv Hq Hid. unfold node_servers. destruct (node_ptr st id) as [p|] eqn:Hptr.
  - rewrite (q_ptr _ _ Hq _ _ Hid Hptr). simpl.
    destruct (node_ptr_spec st id p Hinv Hid Hptr) as (nd & Hp & _).
    by rewrite Hp, (q_heap _ _ Hq _ _ Hp).
  - destruct (node_ptr st' id) as [p'|] eqn:Hptr'; [|done]. simpl.
    apply (q_ptr_new _ _ Hq _ _ Hid) in Hptr' as [Hptr'|(nd & Hp & Hs)]; [congruence|].
    by rewrite Hp, Hs.
Qed.

Lemma local_servers_quiet st st' : ns_inv st -> quiet st st' -> local_servers st' = local_servers st.
Proof.
  intros Hinv Hq. unfold local_servers. rewrite (same_ctx_local _ _ (q_ctx _ _ Hq)).
  apply node_servers_quiet; [done..|apply local_id_range].
Qed.

Lemma local_node_spec st :
  ns_inv st ->
  exists r st', node_get (local_id st) st = Ret (r, st') /\ ns_inv st' /\ quiet st st'
    /\ match r with
       | Some p => exists nd, heap st' !! p = Some nd
           /\ payload <$> map_for_each (services nd) = local_servers st
       | None => local_servers st = []
       end.
Proof.
  intros Hinv. destruct (node_get_spec st _ Hinv (local_id_range st))
    as ([p|] & st' & Heq & Hinv' & Hq & Hr); eexists _, st'; split_and!; try done.
  - destruct Hr as (Hptr & nd & Hp & _ & Hnew). exists nd. split; [done|].
    rewrite map_for_each_items by (by apply (inv_heap _ Hinv' p)).
    rewrite <- (local_servers_quiet st st') by done. unfold local_servers.
    rewrite (same_ctx_local _ _ (q_ctx _ _ Hq)). symmetry. by apply (node_servers_at st' p).
  - destruct Hr as [Hr _]. unfold local_servers, node_servers. by rewrite Hr.
Qed.

(** ** HELLO *)

Definition announce_events (sq : sockaddr_qrtr) (srvs : list server) : list event :=
  (fun srv => EvSend sq (ctrl_pkt_bytes (server_pkt QRTR_TYPE_NEW_SERVER srv))) <$> srvs.

Lemma quiet_ns_lookup st st' evs id port :
  quiet st st' -> u32_range_of id -> ns_lookup (add_trace st' evs) id port = ns_lookup st id port.
Proof. intros Hq Hid. rewrite ns_lookup_add_trace. by apply (q_registry _ _ Hq). Qed.

Lemma annouce_servers_spec st sq :
  ns_inv st ->
  exists rc st1 n, quiet st st1 /\ ns_inv st1
    /\ annouce_servers sq st = Ret (rc, add_trace st1 (announce_events sq (take n (local_servers st))))
    /\ (0 <= rc -> (length (local_servers st) <= n)%nat /\ rc = 0).
Proof.
  intros Hinv. unfold annouce_servers. rewrite ns_bind_get.
  destruct (local_node_spec st Hinv) as ([p|] & st1 & Heq & Hinv1 & Hq & Hr);
    rewrite (ns_bind_ret _ _ _ _ _ Heq).
  - destruct Hr as (nd & Hp & Hls). rewrite (ns_bind_ret _ _ _ _ _ (deref_ok p st1 nd Hp)).
    rewrite Hls. destruct (announce_loop_eq sq (local_servers st) st1) as (rc & n & Hl & Hrc).
    exists rc, st1, n. done.
  - exists 0, st1, 0%nat. rewrite Hr. simpl. rewrite add_trace_nil. split_and!; try done; lia.
Qed.

End ns_facts.
