(* ===== verification/NsHandlers.v ===== *)
(** * The handlers of the name server

    What each control command does: which servers and observers there are
    afterwards, which packets were sent and in which order, and which commands
    are refused.  The theorems are stated against the view [ns_lookup] of the
    tables; the last part relates that view to a finite map from (node, port)
    to servers, the registry the name server promises to keep. *)

From Stdlib Require Import ZArith Lia.
From stdpp Require Import base gmap list numbers relations.
From S2P Require Import Prelude Hash HashMap Packet NameServer NsProofs.

(** ** New servers *)

(** The packets about a new server. *)
Definition new_events (st : ns_state) (srv : server) : list event :=
  (if srv_node srv =? local_id st
   then [EvSend (bcast_sq st) (ctrl_pkt_bytes (server_pkt QRTR_TYPE_NEW_SERVER srv))] else [])
  ++ notify_events (lookups st) srv (srv_service srv) (srv_instance srv) true.

(** The address a command is about: a local client speaks for itself. *)
Definition claimed (st : ns_state) (from : sockaddr_qrtr) (id port : Z) : Z * Z :=
  if sq_node from =? local_id st then (sq_node from, sq_port from) else (id, port).

Definition sq_range (sq : sockaddr_qrtr) : Prop :=
  u32_range_of (sq_node sq) /\ u32_range_of (sq_port sq).

Lemma claimed_range st from id port :
  sq_range from -> u32_range_of id -> u32_range_of port ->
  u32_range_of (claimed st from id port).1 /\ u32_range_of (claimed st from id port).2.
Proof. intros [? ?] ? ?. unfold claimed. by destruct (_ =? _). Qed.

Section handlers_facts.
Context `{Env}.

(** The three ways [ctrl_cmd_new_server] can end. *)
Lemma new_server_spec st from service instance id port :
  ns_inv st -> sq_range from -> u32_range_of instance -> u32_range_of id -> u32_range_of port ->
  let id' := (claimed st from id port).1 in
  let port' := (claimed st from id port).2 in
  let srv := MkServer service instance id' port' in
  (sq_node from <> id' /\ ctrl_cmd_new_server from service instance id port st = Ret (- EINVAL, st))
  \/ (exists st', sq_node from = id'
      /\ ctrl_cmd_new_server from service instance id port st = Ret (- EINVAL, st')
      /\ ns_inv st' /\ quiet st st'
      /\ (service = 0 \/ port' = 0 \/ ~ (forall h, env_calloc h = true)))
  \/ (exists rc st1, sq_node from = id' /\ service <> 0 /\ port' <> 0
      /\ ctrl_cmd_new_server from service instance id port st
         = Ret (rc, add_trace st1 (new_events st srv))
      /\ ns_inv st1 /\ allocs st st1 /\ registered st st1 srv).
Proof.
  intros Hinv Hsq Hinst Hid Hport. unfold ctrl_cmd_new_server. rewrite ns_bind_get.
  destruct (claimed_range st from id port Hsq Hid Hport) as [Hr1 Hr2].
  change (if sq_node from =? local_id st then (sq_node from, sq_port from) else (id, port))
    with (claimed st from id port).
  destruct (claimed st from id port) as [id' port'] eqn:Hcl. simpl in *.
  destruct (Z.eqb_spec (sq_node from) id') as [Heq|Hne]; simpl; [right|by left].
  destruct (server_add_spec st service instance id' port' Hinv Hr1 Hr2 Hinst)
    as ([srv|] & st1 & Hadd & Hinv1 & Hal & Hr); rewrite (ns_bind_ret _ _ _ _ _ Hadd).
  2: { left. exists st1. naive_solver. }
  right. destruct Hr as (-> & Hs0 & Hp0 & Hreg). rewrite ns_bind_get.
  set (srv := MkServer service instance id' port') in *.
  assert (local_id st1 = local_id st) as Hl by apply (same_ctx_local _ _ (al_ctx _ _ Hal)).
  unfold new_events. rewrite <- Hl, <- (al_lookups _ _ Hal).
  assert (bcast_sq st1 = bcast_sq st) as <- by apply (al_ctx _ _ Hal).
  destruct (srv_node srv =? local_id st1).
  - erewrite ns_bind_ret by apply sendto_eq. rewrite ns_bind_get.
    erewrite ns_bind_ret by apply notify_loop_eq. eexists _, st1. split_and!; try done.
    unfold mret, ns_ret. by rewrite add_trace_app.
  - erewrite ns_bind_ret by reflexivity. rewrite ns_bind_get.
    erewrite ns_bind_ret by apply notify_loop_eq. by exists 0, st1.
Qed.

(** ** Departing servers *)

Lemma del_server_spec st from service instance id port :
  ns_inv st -> sq_range from -> u32_range_of id -> u32_range_of port ->
  let id' := (claimed st from id port).1 in
  let port' := (claimed st from id port).2 in
  (sq_node from <> id' /\ ctrl_cmd_del_server from service instance id port st = Ret (- EINVAL, st))
  \/ (exists st', sq_node from = id' /\ ns_lookup st id' port' = None
      /\ ctrl_cmd_del_server from service instance id port st = Ret (- ENOENT, st')
      /\ ns_inv st' /\ quiet st st')
  \/ (exists srv st1 st2, sq_node from = id' /\ ns_lookup st id' port' = Some srv
      /\ srv_node srv = id' /\ srv_port srv = port'
      /\ ctrl_cmd_del_server from service instance id port st = Ret (0, st2)
      /\ ns_inv st1 /\ ns_inv st2 /\ quiet st st1 /\ deleted st1 st2 srv).
Proof.
  intros Hinv Hsq Hid Hport. unfold ctrl_cmd_del_server. rewrite ns_bind_get.
  destruct (claimed_range st from id port Hsq Hid Hport) as [Hr1 Hr2].
  change (if sq_node from =? local_id st then (sq_node from, sq_port from) else (id, port))
    with (claimed st from id port).
  destruct (claimed st from id port) as [id' port'] eqn:Hcl. simpl in *.
  destruct (Z.eqb_spec (sq_node from) id') as [Heq|Hne]; simpl; [right|by left].
  assert ((sq_node from =? local_id st) && negb (sq_port from =? port') = false) as ->.
  { unfold claimed in Hcl. destruct (sq_node from =? local_id st); simplify_eq; simpl; [by rewrite Z.eqb_refl|done]. }
  destruct (node_get_spec st id' Hinv Hr1) as ([p|] & st1 & Hget & Hinv1 & Hq & Hr);
    rewrite (ns_bind_ret _ _ _ _ _ Hget).
  2: { left. exists st1. split_and!; try done. unfold ns_lookup. by rewrite (proj1 Hr). }
  pose proof (server_del_spec st1 p id' port' Hinv1 Hr1 Hr2 (proj1 Hr)) as Hd.
  rewrite (q_registry _ _ Hq) in Hd by done. destruct (ns_lookup st id' port') as [srv|].
  - right. destruct Hd as (? & ? & st2 & Hd & Hinv2 & Hdel). exists srv, st1, st2. naive_solver.
  - left. by exists st1.
Qed.

(** ** Departing nodes *)

Definition bye_bytes (id : Z) : list Z := ctrl_pkt_bytes (MkPkt QRTR_TYPE_BYE id 0 0 0).

Lemma bye_spec st from :
  ns_inv st -> sq_range from ->
  (exists st', ctrl_cmd_bye from st = Ret (0, st') /\ ns_inv st' /\ quiet st st'
     /\ ~ (forall h, env_calloc h = true))
  \/ (exists st1 st2 st3,
      ctrl_cmd_bye from st
        = Ret (0, add_trace st3 (propagate_events (local_servers st2) (bye_bytes (sq_node from))))
      /\ ns_inv st2 /\ ns_inv st3
      /\ quiet st st1 /\ departing st1 st2 (sq_node from) /\ quiet st2 st3
      /\ (ns_uniq st -> ns_uniq st2
          /\ trace st2 = trace st1 ++ concat (del_events st <$> node_servers st (sq_node from))
          /\ node_servers st2 (sq_node from) = [])).
Proof.
  intros Hinv [Hid _]. unfold ctrl_cmd_bye.
  destruct (node_get_spec st _ Hinv Hid) as ([p|] & st1 & Hget & Hinv1 & Hq & Hr);
    rewrite (ns_bind_ret _ _ _ _ _ Hget).
  2: { left. exists st1. naive_solver. }
  right. destruct Hr as (Hptr & nd & Hp & Hnid & _).
  rewrite (ns_bind_ret _ _ _ _ _ (deref_ok p st1 nd Hp)).
  destruct (bye_loop_spec _ p (size (services nd)) st1 nd 0 Hinv1 Hid Hptr Hp ltac:(lia) ltac:(lia))
    as (st2 & Hbye & Hinv2 & Hdep & Hex).
  unfold map_iter_first. rewrite (ns_bind_ret _ _ _ _ _ Hbye), ns_bind_get.
  destruct (local_node_spec st2 Hinv2) as (r & st3 & Hl & Hinv3 & Hq3 & Hls).
  rewrite (ns_bind_ret _ _ _ _ _ Hl). exists st1, st2, st3. split_and!; try done.
  - destruct r as [lp|].
    + destruct Hls as (lnd & Hlp & Hls). rewrite (ns_bind_ret _ _ _ _ _ (deref_ok lp st3 lnd Hlp)).
      erewrite ns_bind_ret by apply propagate_loop_eq. by rewrite Hls.
    + rewrite Hls. unfold propagate_events. simpl. by rewrite add_trace_nil.
  - intros Hu. assert (ns_uniq st1) as Hu1 by exact (quiet_uniq _ _ Hq Hu).
    destruct (Hex Hu1) as (Hu2 & Ht & nd2 & Hp2 & Hnil); [done|].
    assert (node_ptr st2 (sq_node from) = Some p) as Hptr2
      by (unfold node_ptr; by rewrite (dep_nodes _ _ _ Hdep)).
    split_and!; [done| |by rewrite (node_servers_at st2 p nd2), Hnil].
    rewrite Ht, <- (node_servers_quiet st st1), (node_servers_at st1 p nd) by done.
    rewrite <- list_fmap_compose. do 2 f_equal. apply list_fmap_ext. intros _ it _. simpl.
    apply del_events_ext; apply Hq.
Qed.

(** ** Departing clients *)

(** The observers a departing client leaves behind. *)
Definition other_lookups (id port : Z) (lks : list lookup) : list lookup :=
  filter (fun lk => ~ (sq_node (lk_sq lk) = id /\ sq_port (lk_sq lk) = port)) lks.

Definition with_lookups (st : ns_state) (lks : list lookup) : ns_state :=
  MkNs (sock st) (local_node st) (bcast_sq st) lks (nodes st) (heap st) (trace st).

Lemma with_lookups_inv st lks :
  ns_inv st -> (forall lk, lk ∈ lks -> sq_node (lk_sq lk) = local_id st) ->
  ns_inv (with_lookups st lks).
Proof. intros [] Hl. by constructor. Qed.

Lemma other_lookups_inv st id port :
  ns_inv st -> ns_inv (with_lookups st (other_lookups id port (lookups st))).
Proof.
  intros Hinv. apply with_lookups_inv; [done|]. intros lk [_ Hin]%list_elem_of_filter.
  by apply Hinv.
Qed.

(** The server a client may have had goes with it: [st'] is [st] or [st] without
    that server. *)
Definition server_gone (st st' : ns_state) (id port : Z) : Prop :=
  match ns_lookup st id port with
  | None => st' = st
  | Some srv => srv_node srv = id /\ srv_port srv = port /\ deleted st st' srv
  end.

Lemma client_server_gone st id port :
  ns_inv st -> u32_range_of id -> u32_range_of port ->
  exists r st1 st2, node_get id st = Ret (r, st1) /\ quiet st st1 /\ ns_inv st2
    /\ match r with Some p => _ ← server_del p port; mret tt | None => mret tt end st1 = Ret (tt, st2)
    /\ server_gone st1 st2 id port.
Proof.
  intros Hinv Hid Hport. unfold server_gone.
  destruct (node_get_spec st id Hinv Hid) as ([p|] & st1 & Hget & Hinv1 & Hq & Hr).
  - pose proof (server_del_spec st1 p id port Hinv1 Hid Hport (proj1 Hr)) as Hd.
    destruct (ns_lookup st1 id port) as [srv|] eqn:Hlk.
    + destruct Hd as (Hn & Hp & st2 & Hd & Hinv2 & Hdel). exists (Some p), st1, st2.
      split_and!; try done; [by rewrite (ns_bind_ret _ _ _ _ _ Hd)|by rewrite Hlk].
    + exists (Some p), st1, st1.
      split_and!; try done; [by rewrite (ns_bind_ret _ _ _ _ _ Hd)|by rewrite Hlk].
  - exists None, st1, st1. split_and!; try done. rewrite (q_registry _ _ Hq) by done.
    unfold ns_lookup. by rewrite (proj1 Hr).
Qed.

Definition del_client_refused (st : ns_state) (from : sockaddr_qrtr) (id port : Z) : Prop :=
  sq_node from <> id \/ sq_node from = local_id st /\ sq_port from <> port.

Lemma del_client_spec st from id port :
  ns_inv st -> sq_range from -> u32_range_of id -> u32_range_of port ->
  (del_client_refused st from id port /\ ctrl_cmd_del_client from id port st = Ret (- EINVAL, st))
  \/ (exists st1 st2 st3 junk, ~ del_client_refused st from id port
      /\ ctrl_cmd_del_client from id port st
        = Ret (0, add_trace st3 (propagate_events (local_servers st2) (del_client_bytes junk id port)))
      /\ ns_inv st2 /\ ns_inv st3
      /\ quiet (with_lookups st (other_lookups id port (lookups st))) st1
      /\ server_gone st1 st2 id port /\ quiet st2 st3).
Proof.
  intros Hinv Hsq Hid Hport. unfold ctrl_cmd_del_client, del_client_refused. rewrite ns_bind_get.
  destruct (Z.eqb_spec (sq_node from) id) as [Heq|]; simpl; [|left; eauto].
  destruct (Z.eqb_spec (sq_node from) (local_id st)) as [Hl|Hl];
    destruct (Z.eqb_spec (sq_port from) port) as [Hp|]; simpl.
  2: { left; eauto. }
  all: right; set (st0 := with_lookups st (other_lookups id port (lookups st))).
  all: rewrite (ns_bind_ret _ _ _ tt st0) by done.
  all: destruct (client_server_gone st0 id port (other_lookups_inv st id port Hinv) Hid Hport)
         as (r & st1 & st2 & Hget & Hq & Hinv2 & Hdel & Hgone).
  all: rewrite (ns_bind_ret _ _ _ _ _ Hget), (ns_bind_ret _ _ _ _ _ Hdel), ns_bind_get.
  all: destruct (local_node_spec st2 Hinv2) as (ln & st3 & Hln & Hinv3 & Hq3 & Hls).
  all: rewrite (ns_bind_ret _ _ _ _ _ Hln).
  all: exists st1, st2, st3, (env_stack (trace st3)); split_and!; try done; [naive_solver|].
  all: destruct ln as [lp|];
    [destruct Hls as (lnd & Hlp & Hls); rewrite (ns_bind_ret _ _ _ _ _ (deref_ok lp st3 lnd Hlp)),
       ns_bind_get; erewrite ns_bind_ret by apply propagate_loop_eq; by rewrite Hls
    |rewrite Hls; unfold propagate_events; simpl; by rewrite add_trace_nil].
Qed.

(** ** Observers *)

(** All servers, in table order. *)
Definition all_servers (st : ns_state) : list server :=
  ps ← payload <$> items (nodes st);
  match heap st !! ps with Some nd => payload <$> items (services nd) | None => [] end.

Lemma server_query_nodes_spec (h : list node) f ps :
  (forall p, p ∈ ps -> exists nd, h !! p = Some nd /\ map_wf (services nd)) ->
  server_query_nodes h f ps
  = Ret (filter (fun srv => Is_true (server_match srv f))
           (p ← ps; match h !! p with Some nd => payload <$> items (services nd) | None => [] end)).
Proof.
  induction ps as [|p ps IH]; intros Hps; [done|]. csimpl.
  destruct (Hps p) as (nd & Hp & Hwf); [by left|]. rewrite Hp, IH by (intros; apply Hps; by right).
  simpl. rewrite filter_app, map_for_each_items by done. done.
Qed.

Lemma server_query_spec st f :
  ns_inv st ->
  server_query f st = Ret (filter (fun srv => Is_true (server_match srv f)) (all_servers st), st).
Proof.
  intros Hinv. unfold server_query. rewrite ns_bind_get. unfold lift.
  rewrite map_for_each_items by apply Hinv. rewrite server_query_nodes_spec; [done|].
  intros p (it & -> & Hin)%list_elem_of_fmap. destruct (inv_ptr _ Hinv it Hin) as (nd & Hp & _).
  exists nd. split; [done|]. by apply (inv_heap _ Hinv (payload it)).
Qed.

(** What a new observer is told: the servers that match its filter, then the
    zeroed packet that ends the list. *)
Definition lookup_reply (st : ns_state) (from : sockaddr_qrtr) (service instance : Z) : list event :=
  reply_events from (filter (fun srv => Is_true (server_match srv (MkFilter service instance 0)))
                       (all_servers st))
  ++ [EvSend from (ctrl_pkt_bytes (MkPkt QRTR_TYPE_NEW_SERVER 0 0 0 0))].

Lemma new_lookup_spec st from service instance :
  ns_inv st ->
  (sq_node from <> local_id st /\ ctrl_cmd_new_lookup from service instance st = Ret (- EINVAL, st))
  \/ (env_calloc (trace st) = false
      /\ ctrl_cmd_new_lookup from service instance st = Ret (- EINVAL, add_trace st [EvCalloc]))
  \/ (sq_node from = local_id st /\ env_calloc (trace st) = true
      /\ ns_inv (with_lookups st (lookups st ++ [MkLookup service instance from]))
      /\ ctrl_cmd_new_lookup from service instance st
         = Ret (0, add_trace (with_lookups st (lookups st ++ [MkLookup service instance from]))
                     (EvCalloc :: lookup_reply st from service instance))).
Proof.
  intros Hinv. unfold ctrl_cmd_new_lookup. rewrite ns_bind_get.
  destruct (Z.eqb_spec (sq_node from) (local_id st)) as [Hl|]; simpl; [right|by left].
  erewrite ns_bind_ret by apply calloc_eq.
  destruct (env_calloc (trace st)); simpl; [right|by left]. rewrite ns_bind_get.
  set (st1 := with_lookups st (lookups st ++ [MkLookup service instance from])).
  assert (ns_inv st1) as Hinv1.
  { apply with_lookups_inv; [done|]. intros lk [Hin| ->%list_elem_of_singleton]%elem_of_app;
      [by apply Hinv|done]. }
  split_and!; try done.
  rewrite (ns_bind_ret _ _ _ tt (add_trace st1 [EvCalloc])) by done.
  rewrite (ns_bind_ret _ _ _ _ _ (server_query_spec _ _ (ns_inv_add_trace _ _ Hinv1))).
  erewrite ns_bind_ret by apply reply_loop_eq. erewrite ns_bind_ret by apply sendto_eq.
  unfold mret, ns_ret, lookup_reply. rewrite !add_trace_app. done.
Qed.

(** ** The rest of the commands *)

Lemma hello_spec st sq buf :
  ns_inv st ->
  exists rc st', ctrl_cmd_hello sq buf st = Ret (rc, st') /\ ns_inv st' /\ same_ctx st st'.
Proof.
  intros Hinv. unfold ctrl_cmd_hello. erewrite ns_bind_ret by apply sendto_eq.
  destruct (0 <? _); [|by eexists _, _; split_and!; [reflexivity|apply ns_inv_add_trace|]].
  destruct (annouce_servers_spec (add_trace st [EvSend sq buf]) sq) as (rc & st1 & n & Hq & Hinv1 & -> & _);
    [by apply ns_inv_add_trace|].
  eexists _, _. split_and!; [reflexivity|by apply ns_inv_add_trace|apply Hq].
Qed.

Lemma del_lookup_inv st from service instance :
  ns_inv st ->
  exists st', ctrl_cmd_del_lookup from service instance st = Ret (0, st') /\ ns_inv st'
    /\ same_ctx st st'.
Proof.
  intros Hinv. eexists. split_and!; [reflexivity| |done]. apply with_lookups_inv; [done|].
  intros lk [_ Hin]%list_elem_of_filter. by apply Hinv.
Qed.

Lemma deleted_same st st' srv : deleted st st' srv -> same_ctx st st'.
Proof. by intros []. Qed.

Lemma server_gone_ctx st st' id port : server_gone st st' id port -> same_ctx st st'.
Proof.
  unfold server_gone. destruct (ns_lookup st id port); [|by intros ->].
  intros (_ & _ & Hd). apply Hd.
Qed.

(** A handler that returns in a good state of the same daemon. *)
Definition handled {A} (m : ns A) (st : ns_state) : Prop :=
  exists a st', m st = Ret (a, st') /\ ns_inv st' /\ same_ctx st st'.

Lemma same_ctx_add_trace st st' evs : same_ctx st st' -> same_ctx st (add_trace st' evs).
Proof. done. Qed.

#[local] Hint Resolve same_ctx_add_trace q_ctx al_ctx deleted_same dep_ctx server_gone_ctx same_ctx_refl same_ctx_trans
  ns_inv_add_trace : handled.

Lemma new_server_handled st from service instance id port :
  ns_inv st -> sq_range from -> u32_range_of instance -> u32_range_of id -> u32_range_of port ->
  handled (ctrl_cmd_new_server from service instance id port) st.
Proof.
  intros Hinv ? ? ? ?.
  destruct (new_server_spec st from service instance id port)
    as [[_ Heq]|[(st' & _ & Heq & ?)|(rc & st1 & _ & _ & _ & Heq & ? & ? & _)]]; try done;
    eexists _, _; (split; [exact Heq|]); destruct_and?; eauto 6 with handled.
Qed.

Lemma del_server_handled st from service instance id port :
  ns_inv st -> sq_range from -> u32_range_of id -> u32_range_of port ->
  handled (ctrl_cmd_del_server from service instance id port) st.
Proof.
  intros Hinv ? ? ?.
  destruct (del_server_spec st from service instance id port)
    as [[_ Heq]|[(st' & _ & _ & Heq & ?)|(srv & st1 & st2 & _ & _ & _ & _ & Heq & ? & ? & ? & ?)]]; try done;
    eexists _, _; (split; [exact Heq|]); destruct_and?; eauto 6 with handled.
Qed.

Lemma bye_handled st from : ns_inv st -> sq_range from -> handled (ctrl_cmd_bye from) st.
Proof.
  intros Hinv ?.
  destruct (bye_spec st from) as [(st' & Heq & ?)|(st1 & st2 & st3 & Heq & _ & ? & Hq1 & Hd & Hq3 & _)];
    try done; eexists _, _; (split; [exact Heq|]); [destruct_and?; eauto 6 with handled|].
  split; [auto with handled|]. eapply same_ctx_trans; [exact (q_ctx _ _ Hq1)|].
  eapply same_ctx_trans; [exact (dep_ctx _ _ _ Hd)|]. exact (q_ctx _ _ Hq3).
Qed.

Lemma del_client_handled st from id port :
  ns_inv st -> sq_range from -> u32_range_of id -> u32_range_of port ->
  handled (ctrl_cmd_del_client from id port) st.
Proof.
  intros Hinv ? ? ?. destruct (del_client_spec st from id port)
    as [(_ & Heq)|(st1 & st2 & st3 & junk & _ & Heq & ? & ? & Hq & Hg & Hq3)]; try done;
    eexists _, _; (split; [exact Heq|]); [done|].
  split; [auto with handled|]. eapply same_ctx_trans; [exact (q_ctx _ _ Hq)|].
  eapply same_ctx_trans; [exact (server_gone_ctx _ _ _ _ Hg)|]. exact (q_ctx _ _ Hq3).
Qed.

Lemma new_lookup_handled st from service instance :
  ns_inv st -> handled (ctrl_cmd_new_lookup from service instance) st.
Proof.
  intros Hinv. destruct (new_lookup_spec st from service instance Hinv)
    as [[_ Heq]|[[_ Heq]|(_ & _ & ? & Heq)]];
    eexists _, _; (split; [exact Heq|]); auto with handled.
  split; [by apply ns_inv_add_trace|done].
Qed.

Lemma ctrl_dispatch_handled st rx : ns_inv st -> rx_valid rx -> handled (ctrl_dispatch rx) st.
Proof.
  intros Hinv (Hlen & Hb & _ & Hn & Hp).
  assert (sq_range (rx_sq rx)) as Hsq by done. unfold ctrl_dispatch. cbv zeta.
  set (msg := ctrl_pkt_of_bytes (rx_buf rx)).
  assert (u32_range_of (pk_service msg) /\ u32_range_of (pk_instance msg) /\ u32_range_of (pk_node msg)
          /\ u32_range_of (pk_port msg) /\ u32_range_of (client_node msg)
          /\ u32_range_of (client_port msg)) as (? & ? & ? & ? & ? & ?).
  { unfold msg, client_node, client_port. simpl. split_and!; (apply le32_at_range; [done|lia]). }
  repeat case_match; try (by eexists _, _; split_and!);
    auto using bye_handled, del_client_handled, new_server_handled, del_server_handled, new_lookup_handled.
  - by apply hello_spec.
  - eexists. by apply del_lookup_inv.
Qed.

(** ** Matching *)

(** The filter [ctrl_cmd_new_lookup] queries with selects the servers the
    notification loops would report. *)
Lemma server_match_lookup srv service instance from :
  u32_range_of (srv_instance srv) ->
  server_match srv (MkFilter service instance 0)
  = lookup_match (MkLookup service instance from) (srv_service srv) (srv_instance srv).
Proof.
  intros Hr. unfold server_match, lookup_match. simpl.
  rewrite (Z.eqb_sym (srv_service srv) service).
  destruct (negb (service =? 0) && negb (service =? srv_service srv)); [done|].
  destruct (Z.eqb_spec instance 0) as [->|Hi]; simpl; [by rewrite Z.land_0_r|].
  change UINT_MAX with (Z.ones 32). rewrite Z.land_ones by lia.
  rewrite Z.mod_small by (exact Hr). rewrite Z.eqb_sym. by destruct (instance =? _).
Qed.

Lemma all_servers_elem st srv :
  ns_inv st -> srv ∈ all_servers st ->
  u32_range_of (srv_instance srv) /\ srv_service srv <> 0 /\ srv_port srv <> 0.
Proof.
  intros Hinv Hin. unfold all_servers in Hin. apply list_elem_of_bind in Hin as (p & Hin & Hp).
  destruct (heap st !! p) as [nd|] eqn:Hnd; [|set_solver].
  apply list_elem_of_fmap in Hin as (it & -> & Hin).
  apply (inv_heap _ Hinv p nd Hnd) in Hin as (_ & _ & ? & ? & _ & ?). done.
Qed.

Lemma ns_lookup_all st id port srv :
  ns_inv st -> ns_lookup st id port = Some srv -> srv ∈ all_servers st.
Proof.
  intros Hinv Hl. unfold ns_lookup, node_ptr in Hl.
  apply bind_Some in Hl as (p & Hp & Hl). apply bind_Some in Hl as (nd & Hnd & Hl).
  apply fmap_Some in Hp as (nit & Hg & ->). apply fmap_Some in Hl as (it & Hit & ->).
  apply map_get_Some in Hg as [Hg _]; [|apply Hinv].
  apply map_get_Some in Hit as [Hit _]; [|apply (inv_heap _ Hinv _ _ Hnd)].
  apply list_elem_of_bind. exists (payload nit). rewrite Hnd.
  split; by apply list_elem_of_fmap_2.
Qed.

(** ** The abstract registry *)

(** The commands that change the registry, with the packets' senders. *)
Inductive reg_cmd : Type :=
| RegNew (srv : server)
| RegDel (id port : Z)
| RegBye (id : Z).

Definition reg_apply (R : gmap (Z * Z) server) (c : reg_cmd) : gmap (Z * Z) server :=
  match c with
  | RegNew srv => <[(srv_node srv, srv_port srv) := srv]> R
  | RegDel id port => delete (id, port) R
  | RegBye id => filter (fun kv => kv.1.1 <> id) R
  end.

(** What a command must satisfy: machine-width fields, and a server is
    announced on a port that has none. *)
Definition reg_ok (R : gmap (Z * Z) server) (c : reg_cmd) : Prop :=
  match c with
  | RegNew srv => R !! (srv_node srv, srv_port srv) = None /\ srv_service srv <> 0
      /\ srv_port srv <> 0 /\ u32_range_of (srv_node srv) /\ u32_range_of (srv_port srv)
      /\ u32_range_of (srv_instance srv)
  | RegDel id port => u32_range_of id /\ u32_range_of port
  | RegBye id => u32_range_of id
  end.

Fixpoint reg_all_ok (R : gmap (Z * Z) server) (cs : list reg_cmd) : Prop :=
  match cs with
  | [] => True
  | c :: cs' => reg_ok R c /\ reg_all_ok (reg_apply R c) cs'
  end.

(** The handlers that carry the commands out. *)
Definition reg_run (c : reg_cmd) : ns Z :=
  match c with
  | RegNew srv => ctrl_cmd_new_server (MkSq AF_QIPCRTR (srv_node srv) (srv_port srv))
                    (srv_service srv) (srv_instance srv) (srv_node srv) (srv_port srv)
  | RegDel id port => ctrl_cmd_del_server (MkSq AF_QIPCRTR id port) 0 0 id port
  | RegBye id => ctrl_cmd_bye (MkSq AF_QIPCRTR id QRTR_PORT_CTRL)
  end.

Fixpoint reg_runs (cs : list reg_cmd) : ns unit :=
  match cs with
  | [] => mret tt
  | c :: cs' => _ ← reg_run c; reg_runs cs'
  end.

Record ns_repr (st : ns_state) (R : gmap (Z * Z) server) : Prop := MkRepr
  { repr_inv : ns_inv st;
    repr_uniq : ns_uniq st;
    repr_lookup : forall id port, u32_range_of id -> u32_range_of port ->
      R !! (id, port) = ns_lookup st id port }.

Lemma claimed_self st id port : claimed st (MkSq AF_QIPCRTR id port) id port = (id, port).
Proof. unfold claimed. simpl. by destruct (_ =? _). Qed.

Lemma ns_repr_new st R srv :
  (forall h, env_calloc h = true) -> ns_repr st R -> reg_ok R (RegNew srv) ->
  exists rc st', reg_run (RegNew srv) st = Ret (rc, st') /\ ns_repr st' (reg_apply R (RegNew srv)).
Proof.
  intros Hall [Hinv Hu HR] (Hnone & Hs & Hp & Hr1 & Hr2 & Hr3). unfold reg_run.
  pose proof (new_server_spec st (MkSq AF_QIPCRTR (srv_node srv) (srv_port srv)) (srv_service srv)
    (srv_instance srv) (srv_node srv) (srv_port srv) Hinv ltac:(done) Hr3 Hr1 Hr2) as Hsp.
  rewrite claimed_self in Hsp. simpl in Hsp.
  destruct Hsp as [[? _]|[(? & _ & _ & _ & _ & [?|[?|?]])|(rc & st1 & _ & _ & _ & Heq & Hi & _ & Hreg)]];
    try done.
  eexists _, _. split; [exact Heq|]. destruct Hreg as [Hhere Hn Hf]. simpl in *.
  rewrite HR in Hnone by done. destruct (Hf Hu Hnone) as [Hu1 Hf1]. clear Hf.
  constructor; [by apply ns_inv_add_trace|done|].
  intros id port Hid Hport. rewrite ns_lookup_add_trace.
  destruct (decide (id = srv_node srv)) as [->|Hne].
  - destruct (decide (port = srv_port srv)) as [->|Hne'].
    + rewrite lookup_insert_eq, Hhere. by destruct srv.
    + rewrite lookup_insert_ne by congruence. rewrite Hf1 by done. by apply HR.
  - rewrite lookup_insert_ne by congruence. rewrite Hn by done. by apply HR.
Qed.

Lemma quiet_repr st st' R : ns_inv st' -> quiet st st' -> ns_repr st R -> ns_repr st' R.
Proof.
  intros Hinv Hq [_ Hu HR]. constructor; [done|exact (quiet_uniq _ _ Hq Hu)|].
  intros. rewrite (q_registry _ _ Hq) by done. by apply HR.
Qed.

Lemma deleted_repr st st' R srv :
  ns_inv st' -> deleted st st' srv -> ns_repr st R ->
  ns_repr st' (delete (srv_node srv, srv_port srv) R).
Proof.
  intros Hinv Hd [_ Hu HR]. destruct (del_uniq _ _ _ Hd Hu) as (Hu' & Hnone & Hport).
  constructor; [done..|]. intros id port Hid Hp.
  destruct (decide (id = srv_node srv)) as [->|Hne].
  - destruct (decide (port = srv_port srv)) as [->|Hne']; [by rewrite lookup_delete_eq|].
    rewrite lookup_delete_ne by congruence. rewrite Hport by done. by apply HR.
  - rewrite lookup_delete_ne by congruence. rewrite (del_others _ _ _ Hd) by done. by apply HR.
Qed.

Lemma ns_repr_del st R id port :
  ns_repr st R -> reg_ok R (RegDel id port) ->
  exists rc st', reg_run (RegDel id port) st = Ret (rc, st')
    /\ ns_repr st' (reg_apply R (RegDel id port)).
Proof.
  intros HR [Hid Hport]. unfold reg_run.
  pose proof (del_server_spec st (MkSq AF_QIPCRTR id port) 0 0 id port (repr_inv _ _ HR)
    ltac:(done) Hid Hport) as Hsp.
  rewrite claimed_self in Hsp. simpl in Hsp.
  destruct Hsp as [[? _]|[(st' & _ & Hnone & Heq & Hi & Hq)
    |(srv & st1 & st2 & _ & _ & <- & <- & Heq & Hi1 & Hi & Hq & Hd)]]; [done|..];
    eexists _, _; (split; [exact Heq|]); simpl.
  - rewrite delete_id; [by eapply quiet_repr|]. rewrite <- Hnone. by apply HR.
  - eapply deleted_repr; [done..|]. by apply (quiet_repr st).
Qed.

Lemma node_servers_nil_lookup st id port :
  ns_inv st -> u32_range_of id -> node_servers st id = [] -> ns_lookup st id port = None.
Proof.
  intros Hinv Hid Hnil. unfold node_servers in Hnil. unfold ns_lookup.
  destruct (node_ptr st id) as [p|]; [|done]. simpl in *.
  destruct (heap st !! p) as [nd|] eqn:Hp; [|done]. simpl.
  apply fmap_nil_inv in Hnil.
  assert (map_get (services nd) (hash_u32 port) = None) as ->; [|done].
  apply map_get_None; [by apply (inv_heap _ Hinv p)|]. rewrite Hnil. set_solver.
Qed.

Lemma ns_repr_bye st R id :
  (forall h, env_calloc h = true) -> ns_repr st R -> reg_ok R (RegBye id) ->
  exists rc st', reg_run (RegBye id) st = Ret (rc, st') /\ ns_repr st' (reg_apply R (RegBye id)).
Proof.
  intros Hall [Hinv Hu HR] Hid. unfold reg_run.
  destruct (bye_spec st (MkSq AF_QIPCRTR id QRTR_PORT_CTRL) Hinv) as
    [(? & _ & _ & _ & Hno)|(st1 & st2 & st3 & Heq & Hi2 & Hi3 & Hq1 & Hd & Hq3 & Hex)]; [|done|].
  { split; [done|]. unfold QRTR_PORT_CTRL. split; simpl; lia. }
  eexists _, _. split; [exact Heq|]. simpl in *. destruct (Hex Hu) as (Hu2 & _ & Hnil).
  constructor; [by apply ns_inv_add_trace|exact (quiet_uniq _ _ Hq3 Hu2)|].
  intros id' port Hid' Hport. rewrite (quiet_ns_lookup st2 st3) by done.
  destruct (decide (id' = id)) as [->|Hne].
  - rewrite map_lookup_filter_None_2; [by rewrite node_servers_nil_lookup|].
    right. intros srv _. simpl. by intros [].
  - transitivity (R !! (id', port)).
    { apply option_eq. intros srv. rewrite map_lookup_filter_Some. naive_solver. }
    rewrite (dep_others _ _ _ Hd), (q_registry _ _ Hq1) by done. by apply HR.
Qed.

Lemma ns_repr_run st R c :
  (forall h, env_calloc h = true) -> ns_repr st R -> reg_ok R c ->
  exists rc st', reg_run c st = Ret (rc, st') /\ ns_repr st' (reg_apply R c).
Proof.
  destruct c; [by apply ns_repr_new|by intros _; apply ns_repr_del|by apply ns_repr_bye].
Qed.

Lemma ns_inv_init s id : ns_inv (ns_init s id).
Proof.
  constructor; simpl; try (intros ? ?; set_solver).
  - apply map_wf_create.
  - unfold map_uniq, items. simpl. constructor.
Qed.

(** The states the daemon can be in: [main] says hello, then packets arrive. *)
Definition ns_reachable (s id : Z) (st : ns_state) : Prop :=
  exists rc st0, say_hello (ns_init s id) = Ret (rc, st0) /\ 0 <= rc /\ rtc ns_step st0 st.

Lemma ctrl_port_fn_inv st rx :
  ns_inv st -> rx_valid rx -> exists st', ctrl_port_fn rx st = Ret (tt, st') /\ ns_inv st'.
Proof.
  intros Hinv Hrx. unfold ctrl_port_fn. destruct (rx_len rx <=? 0).
  { eexists. split; [reflexivity|]. destruct Hinv. by constructor. }
  destruct (rx_len rx <? 4); [by eexists|].
  destruct (ctrl_dispatch_handled st rx Hinv Hrx) as (a & st' & Heq & Hinv' & _).
  exists st'. by rewrite (ns_bind_ret _ _ _ _ _ Heq).
Qed.

Lemma ns_reachable_inv s id st : ns_reachable s id st -> ns_inv st.
Proof.
  intros (rc & st0 & Hs & _ & Hst). assert (ns_inv st0) as Hinv.
  { unfold say_hello in Hs. rewrite ns_bind_get in Hs.
    erewrite ns_bind_ret in Hs by apply sendto_eq.
    destruct (_ <? 0); injection Hs as _ <-; by apply ns_inv_add_trace, ns_inv_init. }
  clear Hs. induction Hst as [|st0 st1 st2 Hstep _ IH]; [done|]. apply IH.
  destruct Hstep as [rx st0 st1 _ Hrx Heq].
  destruct (ctrl_port_fn_inv st0 rx Hinv Hrx) as (st' & Heq' & Hinv'). congruence.
Qed.

End handlers_facts.
