(* ===== verification/NsClaims.v ===== *)
(** * What the name server guarantees

    The theorems about the daemon as a whole and about each command, with a
    concrete daemon ([demo_env]: sends and allocations succeed) on which their
    hypotheses hold. *)

From Stdlib Require Import ZArith Lia.
From stdpp Require Import base gmap list numbers relations.
From S2P Require Import Prelude Hash HashMap Packet NameServer NsProofs NsHandlers.

Section claims.
Context `{Env}.

(** C1: Name server safety.  In every state the daemon can reach from [main]
    the tables are consistent ([ns_inv]), and whatever packet of whatever length
    and content arrives next, the handler returns normally (no bad pointer, no
    endless probe loop) in a consistent state. *)
Theorem ns_safe s id st rx :
  ns_reachable s id st -> rx_valid rx ->
  ns_inv st /\ exists st', ctrl_port_fn rx st = Ret (tt, st') /\ ns_inv st'.
Proof. intros Hr Hrx. apply ns_reachable_inv in Hr. auto using ctrl_port_fn_inv. Qed.

(** C2: Registry refinement.  When allocations succeed, any sequence of
    NEW_SERVER (on ports that have no server), DEL_SERVER and BYE commands takes
    the tables from a representation of the registry [R], a finite map from
    (node, port) to servers, to a representation of the registry that results
    from inserting, deleting and dropping a node's entries in the same order. *)
Theorem ns_registry_refines cs : forall st R,
  (forall h, env_calloc h = true) -> ns_repr st R -> reg_all_ok R cs ->
  exists st', reg_runs cs st = Ret (tt, st') /\ ns_repr st' (foldl reg_apply R cs).
Proof.
  induction cs as [|c cs IH]; intros st R Hall HR Hok; [by exists st|].
  destruct Hok as [Hc Hcs]. destruct (ns_repr_run st R c Hall HR Hc) as (rc & st1 & Heq & HR1).
  destruct (IH st1 _ Hall HR1 Hcs) as (st2 & Heq2 & HR2). exists st2. split; [|done].
  simpl. by rewrite (ns_bind_ret _ _ _ _ _ Heq).
Qed.

(** C21: A NEW_SERVER command from its own node, with a service and a port, is
    registered, overrides what the port had, leaves every other node's servers
    alone, and sends exactly: the broadcast when the server is local, then one
    notification to each observer whose filter matches, in the order the
    observers were added. *)
Theorem new_server_registers st from service instance id port :
  ns_inv st -> sq_range from -> u32_range_of instance -> u32_range_of id -> u32_range_of port ->
  (forall h, env_calloc h = true) ->
  let id' := (claimed st from id port).1 in
  let port' := (claimed st from id port).2 in
  let srv := MkServer service instance id' port' in
  sq_node from = id' -> service <> 0 -> port' <> 0 ->
  exists rc st' k, ctrl_cmd_new_server from service instance id port st = Ret (rc, st')
    /\ ns_inv st' /\ ns_lookup st' id' port' = Some srv
    /\ (forall i p, u32_range_of i -> i <> id' -> ns_lookup st' i p = ns_lookup st i p)
    /\ trace st' = trace st ++ replicate k EvCalloc ++ new_events st srv.
Proof.
  intros Hinv Hsq Hi Hid Hport Hall id' port' srv Hf Hs Hp.
  destruct (new_server_spec st from service instance id port Hinv Hsq Hi Hid Hport)
    as [[? _]|[(? & _ & _ & _ & _ & Hbad)|(rc & st1 & _ & _ & _ & Heq & Hi1 & Hal & Hreg)]];
    [done|by destruct Hbad as [?|[?|?]]|].
  destruct Hal as [_ _ [k Hk]], Hreg as [R1 R2 _]. eexists rc, _, k. split; [exact Heq|].
  split_and!; [by apply ns_inv_add_trace|done|done|]. simpl. by rewrite Hk, app_assoc.
Qed.

(** C23: Commands that speak for another node (NEW_SERVER, DEL_SERVER,
    DEL_CLIENT), a local client's DEL_CLIENT for another port, and NEW_LOOKUP
    from a remote node are refused with [-EINVAL]: nothing is sent and nothing
    changes. *)
Theorem spoofed_commands_refused st from service instance id port :
  (sq_node from <> local_id st -> sq_node from <> id ->
     ctrl_cmd_new_server from service instance id port st = Ret (- EINVAL, st)
     /\ ctrl_cmd_del_server from service instance id port st = Ret (- EINVAL, st))
  /\ (del_client_refused st from id port ->
     ctrl_cmd_del_client from id port st = Ret (- EINVAL, st))
  /\ (sq_node from <> local_id st ->
     ctrl_cmd_new_lookup from service instance st = Ret (- EINVAL, st)).
Proof.
  unfold ctrl_cmd_new_server, ctrl_cmd_del_server, ctrl_cmd_del_client, ctrl_cmd_new_lookup.
  rewrite !ns_bind_get. split_and!.
  - intros Hl Hn. by rewrite (proj2 (Z.eqb_neq _ _) Hl), (proj2 (Z.eqb_neq _ _) Hn).
  - intros [Hn|[Hl Hp]]; [by rewrite (proj2 (Z.eqb_neq _ _) Hn)|].
    destruct (sq_node from =? id); [|done]. simpl.
    by rewrite (proj2 (Z.eqb_eq _ _) Hl), (proj2 (Z.eqb_neq _ _) Hp).
  - intros Hl. by rewrite (proj2 (Z.eqb_neq _ _) Hl).
Qed.

(** A local NEW_LOOKUP is answered with exactly the registered servers that
    the observer's filter matches (the filter of the notification loops), in
    table order, then the zeroed NEW_SERVER packet that ends the list; the
    observer is remembered behind the earlier ones; and a server registered
    under any (node, port) that matches is among the answers. *)
Theorem new_lookup_answers st from service instance :
  ns_inv st -> sq_node from = local_id st -> env_calloc (trace st) = true ->
  let lk := MkLookup service instance from in
  let found := filter (fun srv => Is_true (lookup_match lk (srv_service srv) (srv_instance srv)))
                 (all_servers st) in
  exists st', ctrl_cmd_new_lookup from service instance st = Ret (0, st')
    /\ trace st' = trace st ++ EvCalloc :: reply_events from found
         ++ [EvSend from (ctrl_pkt_bytes (MkPkt QRTR_TYPE_NEW_SERVER 0 0 0 0))]
    /\ lookups st' = lookups st ++ [lk]
    /\ (forall id port, ns_lookup st' id port = ns_lookup st id port)
    /\ (forall id port srv, ns_lookup st id port = Some srv ->
          lookup_match lk (srv_service srv) (srv_instance srv) = true -> srv ∈ found).
Proof.
  intros Hinv Hl Hc lk found.
  destruct (new_lookup_spec st from service instance Hinv) as [[? _]|[[? _]|(_ & _ & _ & Heq)]];
    [done|congruence|].
  eexists. split; [exact Heq|]. split_and!; try done.
  - simpl. unfold lookup_reply, found. do 4 f_equal.
    apply (filter_ext_elem (fun srv => server_match srv (MkFilter service instance 0))).
    intros srv Hin. rewrite (server_match_lookup srv service instance from); [done|].
    by apply (all_servers_elem st).
  - intros id port srv Hsrv Hm. apply list_elem_of_filter. rewrite Hm.
    split; [done|]. by apply (ns_lookup_all st id port).
Qed.

(** DEL_SERVER on tables without duplicate ports removes exactly the
    server of that (node, port) and sends exactly: the broadcast when it was
    local, then one notification per matching observer; with no such server it
    answers [-ENOENT] and sends nothing. *)
Theorem del_server_removes st from service instance id port :
  ns_inv st -> ns_uniq st -> sq_range from -> u32_range_of id -> u32_range_of port ->
  let id' := (claimed st from id port).1 in
  let port' := (claimed st from id port).2 in
  sq_node from = id' ->
  exists rc st' k, ctrl_cmd_del_server from service instance id port st = Ret (rc, st')
    /\ ns_lookup st' id' port' = None
    /\ (forall i p, u32_range_of i -> u32_range_of p -> (i, p) <> (id', port') ->
          ns_lookup st' i p = ns_lookup st i p)
    /\ match ns_lookup st id' port' with
       | None => rc = - ENOENT /\ trace st' = trace st ++ replicate k EvCalloc
       | Some srv => rc = 0 /\ trace st' = trace st ++ replicate k EvCalloc ++ del_events st srv
       end.
Proof.
  intros Hinv Hu Hsq Hid Hport id' port' Hf. subst id' port'.
  destruct (claimed_range st from id port Hsq Hid Hport) as [Hr1 Hr2].
  destruct (del_server_spec st from service instance id port Hinv Hsq Hid Hport)
    as [[? _]|[(st' & _ & Hnone & Heq & _ & Hq)
    |(srv & st1 & st2 & _ & Hl & Hn & Hp & Heq & _ & _ & Hq & Hd)]]; [done|..];
    destruct (claimed st from id port) as [id' port']; simpl in *.
  - destruct (q_trace _ _ Hq) as [k Hk]. exists (- ENOENT), st', k. split; [exact Heq|].
    rewrite Hnone. split_and!; try done.
    + rewrite (q_registry _ _ Hq) by done. done.
    + intros. by apply (q_registry _ _ Hq).
  - destruct (q_trace _ _ Hq) as [k Hk]. exists 0, st2, k. split; [exact Heq|]. rewrite Hl.
    destruct (del_uniq _ _ _ Hd (quiet_uniq _ _ Hq Hu)) as (_ & Hnone & Hports).
    rewrite Hn, Hp in *. split_and!; try done.
    + intros i p Hri Hrp Hne. destruct (decide (i = id')) as [->|Hi].
      * rewrite Hports by (by congruence). by apply (q_registry _ _ Hq).
      * rewrite (del_others _ _ _ Hd) by congruence. by apply (q_registry _ _ Hq).
    + rewrite (del_trace _ _ _ Hd), Hk, <- app_assoc.
      by rewrite (del_events_ext st st1) by apply Hq.
Qed.

(** C22: BYE from a node, on tables without duplicate ports, removes all of that
    node's servers and no other; for each of them, in table order, it sends
    what a DEL_SERVER would; then it passes the BYE on to every server that is
    left on the local node. *)
Theorem bye_removes_node st from :
  ns_inv st -> ns_uniq st -> sq_range from -> (forall h, env_calloc h = true) ->
  exists st' k1 k2, ctrl_cmd_bye from st = Ret (0, st') /\ ns_inv st'
    /\ (forall port, ns_lookup st' (sq_node from) port = None)
    /\ (forall id port, u32_range_of id -> id <> sq_node from ->
          ns_lookup st' id port = ns_lookup st id port)
    /\ trace st' = trace st ++ replicate k1 EvCalloc
         ++ concat (del_events st <$> node_servers st (sq_node from))
         ++ replicate k2 EvCalloc
         ++ propagate_events (local_servers st') (bye_bytes (sq_node from)).
Proof.
  intros Hinv Hu Hsq Hall.
  destruct (bye_spec st from Hinv Hsq) as
    [(? & _ & _ & _ & Hno)|(st1 & st2 & st3 & Heq & Hi2 & Hi3 & Hq1 & Hd & Hq3 & Hex)]; [done|].
  destruct (Hex Hu) as (_ & Ht & Hnil). destruct Hsq as [Hid _].
  destruct (q_trace _ _ Hq1) as [k1 Hk1], (q_trace _ _ Hq3) as [k3 Hk3].
  eexists _, k1, k3. split; [exact Heq|]. split_and!; [by apply ns_inv_add_trace|..].
  - intros port. rewrite (quiet_ns_lookup st2 st3) by done. by apply node_servers_nil_lookup.
  - intros i port Hri Hne. rewrite (quiet_ns_lookup st2 st3) by done.
    rewrite (dep_others _ _ _ Hd) by done. by apply (q_registry _ _ Hq1).
  - change (local_servers (add_trace st3 _)) with (local_servers st3).
    rewrite (local_servers_quiet st2 st3) by done. simpl. rewrite Hk3, Ht, Hk1.
    by rewrite <- !app_assoc.
Qed.

(** DEL_CLIENT, when it is not refused, forgets that client's observers
    (and no others), removes the server the client had, if any, with its
    packets, and passes the news on to every server of the local node. *)
Theorem del_client_forgets st from id port :
  ns_inv st -> ns_uniq st -> sq_range from -> u32_range_of id -> u32_range_of port ->
  ~ del_client_refused st from id port ->
  exists st' k1 k2 junk, ctrl_cmd_del_client from id port st = Ret (0, st')
    /\ lookups st' = other_lookups id port (lookups st)
    /\ ns_lookup st' id port = None
    /\ (forall i p, u32_range_of i -> u32_range_of p -> (i, p) <> (id, port) ->
          ns_lookup st' i p = ns_lookup st i p)
    /\ trace st' = trace st ++ replicate k1 EvCalloc
         ++ match ns_lookup st id port with
            | Some srv => del_events (with_lookups st (other_lookups id port (lookups st))) srv
            | None => []
            end
         ++ replicate k2 EvCalloc
         ++ propagate_events (local_servers st') (del_client_bytes junk id port).
Proof.
  intros Hinv Hu Hsq Hid Hport Hok. destruct (del_client_spec st from id port Hinv Hsq Hid Hport)
    as [(? & _)|(st1 & st2 & st3 & junk & _ & Heq & Hi2 & Hi3 & Hq1 & Hg & Hq3)]; [done|].
  set (st0 := with_lookups st (other_lookups id port (lookups st))) in *.
  destruct (q_trace _ _ Hq1) as [k1 Hk1], (q_trace _ _ Hq3) as [k3 Hk3].
  eexists _, k1, k3, junk. split; [exact Heq|].
  change (local_servers (add_trace st3 _)) with (local_servers st3).
  rewrite (local_servers_quiet st2 st3) by done. unfold server_gone in Hg.
  rewrite (q_registry _ _ Hq1) in Hg by done. change (ns_lookup st0) with (ns_lookup st) in Hg.
  assert (forall i p, u32_range_of i -> ns_lookup st1 i p = ns_lookup st i p) as Hsame
    by (intros; by apply (q_registry _ _ Hq1)).
  destruct (ns_lookup st id port) as [srv|] eqn:Hl.
  - destruct Hg as (Hn & Hp & Hd).
    assert (ns_uniq st1) as Hu1 by (exact (quiet_uniq _ _ Hq1 Hu)).
    destruct (del_uniq _ _ _ Hd Hu1) as (_ & Hnone & Hports). rewrite Hn, Hp in *. split_and!.
    + simpl. by rewrite (q_lookups _ _ Hq3), (del_lookups _ _ _ Hd), (q_lookups _ _ Hq1).
    + by rewrite (quiet_ns_lookup st2 st3).
    + intros i p Hri Hrp Hne. rewrite (quiet_ns_lookup st2 st3) by done.
      destruct (decide (i = id)) as [->|Hi].
      * rewrite Hports by congruence. by apply Hsame.
      * rewrite (del_others _ _ _ Hd) by congruence. by apply Hsame.
    + simpl. rewrite Hk3, (del_trace _ _ _ Hd), Hk1, (del_events_ext st0 st1) by apply Hq1.
      by rewrite <- !app_assoc.
  - subst st2. split_and!.
    + simpl. by rewrite (q_lookups _ _ Hq3), (q_lookups _ _ Hq1).
    + rewrite (quiet_ns_lookup st1 st3), Hsame by done. done.
    + intros i p Hri Hrp _. rewrite (quiet_ns_lookup st1 st3) by done. by apply Hsame.
    + simpl. rewrite Hk3, Hk1. by rewrite <- !app_assoc.
Qed.

End claims.

(** ** A concrete daemon *)

Definition demo_env : Env := MkEnv (fun _ _ b => Z.of_nat (length b)) (fun _ => true)
  (fun _ => replicate 8 170).

(** A service of the local node 1 and one of the modem, node 0. *)
Definition demo_local : server := MkServer 14 257 1 5.
Definition demo_modem : server := MkServer 66 513 0 7.

Definition demo_state : ns_state :=
  match @reg_runs demo_env [RegNew demo_local; RegNew demo_modem] (ns_init 3 1) with
  | Ret (_, st) => st
  | _ => ns_init 3 1
  end.

Lemma ns_repr_init s id : ns_repr (ns_init s id) ∅.
Proof. constructor; [apply ns_inv_init|by intros p nd|done]. Qed.

Lemma demo_state_repr : exists R, ns_repr demo_state R.
Proof.
  destruct (@ns_repr_run demo_env (ns_init 3 1) ∅ (RegNew demo_local)) as (rc & st1 & H1 & HR1);
    [done|apply ns_repr_init|by split_and!|].
  destruct (@ns_repr_run demo_env st1 _ (RegNew demo_modem) (fun _ => eq_refl) HR1)
    as (rc2 & st2 & H2 & HR2); [by split_and!|].
  exists (reg_apply (reg_apply ∅ (RegNew demo_local)) (RegNew demo_modem)).
  unfold demo_state. cbn [reg_runs].
  rewrite (ns_bind_ret _ _ _ _ _ H1), (ns_bind_ret _ _ _ _ _ H2). done.
Qed.

#[local] Opaque demo_state.

Lemma demo_local_id : local_id demo_state = 1.
Proof. vm_compute. reflexivity. Qed.

Lemma demo_claimed id port : claimed demo_state (MkSq AF_QIPCRTR id port) id port = (id, port).
Proof. apply claimed_self. Qed.

Lemma demo_state_inv : ns_inv demo_state.
Proof. destruct demo_state_repr as [R HR]. apply HR. Qed.

Lemma demo_state_uniq : ns_uniq demo_state.
Proof. destruct demo_state_repr as [R HR]. apply HR. Qed.

Lemma demo_reachable : @ns_reachable demo_env 3 1
  (add_trace (ns_init 3 1) [EvSend (MkSq AF_QIPCRTR QRTR_NODE_BCAST QRTR_PORT_CTRL)
                              (ctrl_pkt_bytes (MkPkt QRTR_TYPE_HELLO 0 0 0 0))]).
Proof. exists 0. eexists. split; [reflexivity|]. split; [lia|]. apply rtc_refl. Qed.

Lemma ns_safe_witness :
  exists st', @ctrl_port_fn demo_env (MkRx 4 (replicate 4096 3) (MkSq AF_QIPCRTR 0 9))
    (add_trace (ns_init 3 1) [EvSend (MkSq AF_QIPCRTR QRTR_NODE_BCAST QRTR_PORT_CTRL)
                              (ctrl_pkt_bytes (MkPkt QRTR_TYPE_HELLO 0 0 0 0))]) = Ret (tt, st')
    /\ ns_inv st'.
Proof.
  apply (@ns_safe demo_env 3 1); [exact demo_reachable|].
  split; [apply length_replicate|]. split; [apply Forall_replicate; unfold is_byte; lia|].
  by split_and!.
Defined.

Lemma ns_registry_refines_witness :
  exists st', @reg_runs demo_env [RegNew demo_local; RegNew demo_modem; RegDel 1 5; RegBye 0]
                (ns_init 3 1) = Ret (tt, st')
    /\ ns_repr st' (foldl reg_apply ∅ [RegNew demo_local; RegNew demo_modem; RegDel 1 5; RegBye 0]).
Proof.
  apply (@ns_registry_refines demo_env); [done|apply ns_repr_init|].
  by split_and!.
Defined.

Lemma new_server_registers_witness :
  exists rc st' k, @ctrl_cmd_new_server demo_env (MkSq AF_QIPCRTR 0 9) 70 1 0 9 demo_state = Ret (rc, st')
    /\ ns_inv st' /\ ns_lookup st' 0 9 = Some (MkServer 70 1 0 9)
    /\ (forall i p, u32_range_of i -> i <> 0 -> ns_lookup st' i p = ns_lookup demo_state i p)
    /\ trace st' = trace demo_state ++ replicate k EvCalloc ++ new_events demo_state (MkServer 70 1 0 9).
Proof.
  pose proof (@new_server_registers demo_env demo_state (MkSq AF_QIPCRTR 0 9) 70 1 0 9
    demo_state_inv) as Hw. rewrite demo_claimed in Hw. simpl in Hw. apply Hw; done.
Defined.

Lemma spoofed_commands_refused_witness :
  @ctrl_cmd_new_server demo_env (MkSq AF_QIPCRTR 0 9) 70 1 1 5 demo_state = Ret (- EINVAL, demo_state)
  /\ @ctrl_cmd_del_client demo_env (MkSq AF_QIPCRTR 1 9) 1 5 demo_state = Ret (- EINVAL, demo_state)
  /\ @ctrl_cmd_new_lookup demo_env (MkSq AF_QIPCRTR 0 9) 14 0 demo_state = Ret (- EINVAL, demo_state).
Proof.
  split_and!.
  - apply (@spoofed_commands_refused demo_env demo_state (MkSq AF_QIPCRTR 0 9) 70 1 1 5);
      rewrite ?demo_local_id; done.
  - apply (@spoofed_commands_refused demo_env demo_state (MkSq AF_QIPCRTR 1 9) 70 1 1 5).
    right. by rewrite demo_local_id.
  - apply (@spoofed_commands_refused demo_env demo_state (MkSq AF_QIPCRTR 0 9) 14 0 1 5);
      rewrite demo_local_id; done.
Defined.

Lemma new_lookup_answers_witness :
  exists st', @ctrl_cmd_new_lookup demo_env (MkSq AF_QIPCRTR 1 9) 66 0 demo_state = Ret (0, st')
    /\ trace st' = trace demo_state ++ EvCalloc :: reply_events (MkSq AF_QIPCRTR 1 9) [demo_modem]
         ++ [EvSend (MkSq AF_QIPCRTR 1 9) (ctrl_pkt_bytes (MkPkt QRTR_TYPE_NEW_SERVER 0 0 0 0))].
Proof.
  destruct (@new_lookup_answers demo_env demo_state (MkSq AF_QIPCRTR 1 9) 66 0 demo_state_inv)
    as (st' & Heq & Ht & _); [by rewrite demo_local_id|done|].
  exists st'. split; [exact Heq|]. rewrite Ht. vm_compute. reflexivity.
Defined.

Lemma del_server_removes_witness :
  exists rc st' k, @ctrl_cmd_del_server demo_env (MkSq AF_QIPCRTR 0 7) 66 513 0 7 demo_state = Ret (rc, st')
    /\ ns_lookup st' 0 7 = None /\ rc = 0
    /\ trace st' = trace demo_state ++ replicate k EvCalloc ++ del_events demo_state demo_modem.
Proof.
  pose proof (@del_server_removes demo_env demo_state (MkSq AF_QIPCRTR 0 7) 66 513 0 7
    demo_state_inv demo_state_uniq) as Hw.
  rewrite demo_claimed in Hw. simpl in Hw.
  destruct Hw as (rc & st' & k & Heq & Hn & _ & Hm); [done..|].
  assert (ns_lookup demo_state 0 7 = Some demo_modem) as Hl by (vm_compute; reflexivity).
  rewrite Hl in Hm. exists rc, st', k. destruct Hm as [-> Ht]. by split_and!.
Defined.

Lemma bye_removes_node_witness :
  exists st', @ctrl_cmd_bye demo_env (MkSq AF_QIPCRTR 0 QRTR_PORT_CTRL) demo_state = Ret (0, st')
    /\ forall port, ns_lookup st' 0 port = None.
Proof.
  destruct (@bye_removes_node demo_env demo_state (MkSq AF_QIPCRTR 0 QRTR_PORT_CTRL))
    as (st' & k1 & k2 & Heq & _ & Hn & _);
    [exact demo_state_inv|exact demo_state_uniq|by split|done|].
  exists st'. split; [exact Heq|exact Hn].
Defined.

Lemma del_client_forgets_witness :
  exists st', @ctrl_cmd_del_client demo_env (MkSq AF_QIPCRTR 1 5) 1 5 demo_state = Ret (0, st')
    /\ ns_lookup st' 1 5 = None.
Proof.
  destruct (@del_client_forgets demo_env demo_state (MkSq AF_QIPCRTR 1 5) 1 5)
    as (st' & k1 & k2 & junk & Heq & _ & Hn & _);
    [exact demo_state_inv|exact demo_state_uniq|by split|by split|by split|by intros [[]|[_ []]]|].
  exists st'. split; [exact Heq|exact Hn].
Defined.

(** ** Re-registering behind a deleted slot *)

(** What the tables' first-deleted-slot rule does to the name server.  On
    the local node a client registers a service on port 261, which shares its
    home slot with port 5; port 5's server goes away; the client then announces
    its service again with another instance.  Now the node has two servers on
    one port: an observer is told about both, and after one DEL_SERVER the
    stale one is still registered. *)
Theorem reregistered_port_is_duplicated :
  exists st st', @reg_runs demo_env
      [RegNew (MkServer 14 1 1 5); RegNew (MkServer 14 2 1 261); RegDel 1 5; RegNew (MkServer 14 3 1 261)]
      (ns_init 3 1) = Ret (tt, st)
    /\ node_servers st 1 = [MkServer 14 3 1 261; MkServer 14 2 1 261]
    /\ @reg_run demo_env (RegDel 1 261) st = Ret (0, st')
    /\ ns_lookup st' 1 261 = Some (MkServer 14 2 1 261).
Proof.
  eexists _, _. split; [vm_compute; reflexivity|]. split; [vm_compute; reflexivity|].
  split; vm_compute; reflexivity.
Qed.
