(* ===== verification/QrtrClaims.v ===== *)
(** * Client library and name server together

    A service published with the client library (qrtr.c) travels through the
    name server (ns.c) to an observer, who decodes it with the client library. *)

From Stdlib Require Import ZArith Lia.
From stdpp Require Import base gmap list numbers relations.
From S2P Require Import Prelude Hash HashMap Packet NameServer NsProofs NsHandlers NsClaims.

(** The datagram as [ctrl_port_fn] sees it: the bytes sent, then what the stack
    buffer held before. *)
Definition received (bytes stale : list Z) (from : sockaddr_qrtr) : reception :=
  MkRx (Z.of_nat (length bytes)) (bytes ++ stale) from.

Lemma instance_word_range version instance :
  0 <= version < 65536 -> 0 <= instance < 65536 -> u32_range_of (instance_word version instance).
Proof.
  intros Hv Hi. unfold instance_word, u32_range_of. assert (Z.shiftl instance 8 = instance * 256) as Hs by (by rewrite Z.shiftl_mul_pow2).
  split; [apply Z.lor_nonneg; lia|]. change 4294967296 with (2 ^ 32).
  destruct (decide (Z.lor (Z.shiftl instance 8) version = 0)) as [->|]; [done|]. apply Z.log2_lt_pow2; [pose proof (proj2 (Z.lor_nonneg (Z.shiftl instance 8) version)); lia|].
  rewrite Z.log2_lor by lia. apply Z.max_lub_lt; [|].
  - destruct (decide (instance = 0)) as [->|]; [done|]. apply Z.log2_lt_pow2; lia.
  - destruct (decide (version = 0)) as [->|]; [done|]. apply Z.log2_lt_pow2; lia.
Qed.

(** What the two halves of the word are: the low byte of the version, and the rest of it
    mixed into the instance. *)
Lemma instance_word_halves version instance :
  Z.land (instance_word version instance) 255 = Z.land version 255
  /\ Z.shiftr (instance_word version instance) 8 = Z.lor instance (Z.shiftr version 8).
Proof.
  unfold instance_word. split; apply Z.bits_inj_iff'; intros n Hn.
  - rewrite !Z.land_spec, Z.lor_spec. change 255 with (Z.ones 8). destruct (Z.ltb_spec n 8).
    + by rewrite Z.shiftl_spec_low.
    + by rewrite Z.ones_spec_high, !andb_false_r by lia.
  - rewrite Z.shiftr_spec, !Z.lor_spec, Z.shiftl_spec, Z.shiftr_spec by lia. by replace (n + 8 - 8) with n by lia.
Qed.

(** What an observer decodes from an announcement. *)
Lemma qrtr_decode_server dest c srv node stale version instance :
  c = QRTR_TYPE_NEW_SERVER \/ c = QRTR_TYPE_DEL_SERVER ->
  srv_instance srv = instance_word version instance ->
  ctrl_pkt_wf (server_pkt c srv) ->
  qrtr_decode dest (ctrl_pkt_bytes (server_pkt c srv) ++ stale) 20 (MkSq AF_QIPCRTR node QRTR_PORT_CTRL)
  = (0, MkQpkt c (srv_node srv) (srv_port srv) (srv_service srv) (Z.lor instance (Z.shiftr version 8)) (Z.land version 255)
          (p_data dest) (p_data_len dest)).
Proof.
  intros Hc Hi Hwf. unfold qrtr_decode. cbv zeta. rewrite ctrl_pkt_bytes_decode by done.
  destruct (instance_word_halves version instance) as (E1 & E2).
  destruct Hc as [-> | ->]; simpl; by rewrite Hi, E1, E2.
Qed.

Section publish.
Context `{Env}.

Lemma dispatch_new_server st from service iw stale :
  ctrl_pkt_wf (MkPkt QRTR_TYPE_NEW_SERVER service iw 0 0) ->
  ctrl_port_fn (received (ctrl_pkt_bytes (MkPkt QRTR_TYPE_NEW_SERVER service iw 0 0)) stale from) st
  = (_ ← ctrl_cmd_new_server from service iw 0 0; mret tt) st.
Proof.
  intros Hwf. unfold ctrl_port_fn, received, ctrl_dispatch. cbn [rx_len rx_buf rx_sq].
  rewrite length_ctrl_pkt_bytes, ctrl_pkt_bytes_decode by done. reflexivity.
Qed.

(** C15: End to end.  A client of the local node publishes a service with
    [qrtr_publish]; the name server, in any consistent state
    and with memory to spare, registers it under the address of the client's
    socket and notifies each observer whose filter matches; and what the
    observer decodes with [qrtr_decode] is the service that was published, the client's node and port, and, for
    versions below 256, the version and the instance.  Of a larger version it decodes the low byte, and the
    rest of it mixed into the instance. *)
Theorem publish_reaches_observer st sq service version instance stale lk dest rc :
  ns_inv st -> sq_range sq -> sq_node sq = local_id st -> sq_family sq = AF_QIPCRTR ->
  sq_port sq <> 0 -> u32_range_of service -> service <> 0 ->
  0 <= version < 65536 -> 0 <= instance < 65536 -> (forall h, env_calloc h = true) ->
  lk ∈ lookups st -> lookup_match lk service (instance_word version instance) = true ->
  exists bytes st' ann,
    qrtr_publish service version instance (MkSockname 0 sq sizeof_sockaddr_qrtr) rc
      = ((if rc <? 0 then -1 else 0), [Sendto (MkSq AF_QIPCRTR (sq_node sq) QRTR_PORT_CTRL) bytes])
    /\ ctrl_port_fn (received bytes stale sq) st = Ret (tt, st')
    /\ ns_lookup st' (sq_node sq) (sq_port sq)
       = Some (MkServer service (instance_word version instance) (sq_node sq) (sq_port sq))
    /\ EvSend (lk_sq lk) ann ∈ trace st'
    /\ qrtr_decode dest ann (Z.of_nat (length ann)) (MkSq AF_QIPCRTR (local_id st) QRTR_PORT_CTRL)
       = (0, MkQpkt QRTR_TYPE_NEW_SERVER (sq_node sq) (sq_port sq) service (Z.lor instance (Z.shiftr version 8)) (Z.land version 255)
               (p_data dest) (p_data_len dest))
    /\ (version < 256 -> Z.lor instance (Z.shiftr version 8) = instance /\ Z.land version 255 = version).
Proof.
  intros Hinv Hsq Hl Hfam Hp0 Hs Hs0 Hv Hi Hall Hlk Hm.
  pose proof (instance_word_range version instance Hv Hi) as Hw.
  assert (ctrl_pkt_wf (MkPkt QRTR_TYPE_NEW_SERVER service (instance_word version instance) 0 0)) as Hwf
    by (unfold ctrl_pkt_wf; simpl; unfold QRTR_TYPE_NEW_SERVER; split_and!; destruct Hs, Hw; lia).
  pose proof (new_server_spec st sq service (instance_word version instance) 0 0 Hinv Hsq Hw
    ltac:(split; lia) ltac:(split; lia)) as Hsp.
  unfold claimed in Hsp. rewrite (proj2 (Z.eqb_eq _ _) Hl) in Hsp. cbn [fst snd] in Hsp.
  destruct Hsp as [[? _]|[(? & _ & _ & _ & _ & [?|[?|?]])|(rc' & st1 & _ & _ & _ & Heq & _ & Hal & Hreg)]];
    try done.
  set (srv := MkServer service (instance_word version instance) (sq_node sq) (sq_port sq)) in *.
  eexists _, _, (ctrl_pkt_bytes (server_pkt QRTR_TYPE_NEW_SERVER srv)). split_and!.
  - unfold qrtr_publish, qrtr_new_server, send_ctrl, qrtr_getname. cbn [gs_rc gs_sq gs_sl].
    rewrite Hfam. reflexivity.
  - rewrite dispatch_new_server by done. by rewrite (ns_bind_ret _ _ _ _ _ Heq).
  - apply (reg_here _ _ _ Hreg).
  - simpl. apply elem_of_app. right. unfold new_events. apply elem_of_app. right.
    apply list_elem_of_fmap. exists lk. split; [done|]. apply list_elem_of_filter.
    simpl. by rewrite Hm.
  - rewrite length_ctrl_pkt_bytes.
    rewrite <- (app_nil_r (ctrl_pkt_bytes (server_pkt QRTR_TYPE_NEW_SERVER srv))).
    apply (qrtr_decode_server _ _ srv); try (by left); try done.
  - intros Hlt. destruct (instance_word_halves version instance) as [<- <-].
    by destruct (instance_word_fields version instance) as (_ & -> & ->); [lia|lia|].
Qed.

End publish.

(** ** A concrete run *)

Definition demo_observer : lookup := MkLookup 43 0 (MkSq AF_QIPCRTR 1 20).

Lemma demo_observed_inv : ns_inv (with_lookups (ns_init 3 1) [demo_observer]).
Proof.
  apply with_lookups_inv; [apply ns_inv_init|]. intros lk ->%list_elem_of_singleton. done.
Qed.

Lemma publish_reaches_observer_witness : exists bytes st' ann,
  qrtr_publish 43 1 2 (MkSockname 0 (MkSq AF_QIPCRTR 1 30) sizeof_sockaddr_qrtr) 20
    = (0, [Sendto (MkSq AF_QIPCRTR 1 QRTR_PORT_CTRL) bytes])
  /\ @ctrl_port_fn demo_env (received bytes [] (MkSq AF_QIPCRTR 1 30))
       (with_lookups (ns_init 3 1) [demo_observer]) = Ret (tt, st')
  /\ EvSend (MkSq AF_QIPCRTR 1 20) ann ∈ trace st'
  /\ qrtr_decode (MkQpkt 0 0 0 0 0 0 [] 0) ann (Z.of_nat (length ann)) (MkSq AF_QIPCRTR 1 QRTR_PORT_CTRL)
     = (0, MkQpkt QRTR_TYPE_NEW_SERVER 1 30 43 2 1 [] 0).
Proof.
  destruct (@publish_reaches_observer demo_env (with_lookups (ns_init 3 1) [demo_observer])
    (MkSq AF_QIPCRTR 1 30) 43 1 2 [] demo_observer (MkQpkt 0 0 0 0 0 0 [] 0) 20)
    as (bytes & st' & ann & H1 & H2 & _ & H4 & H5 & _);
    [exact demo_observed_inv|by split|reflexivity|reflexivity|done|by split|done|lia|lia|done
    |by left|reflexivity|].
  exists bytes, st', ann. split_and!; [exact H1|exact H2|exact H4|exact H5].
Defined.
