(* ===== verification/QmiCodec.v ===== *)
(** * The QMI encoder and decoder (src/qcom/qrtr/lib/qmi.c)

    A message is described by an array of [qmi_elem_info], ended by a [QMI_EOTI]
    element.  [qmi_encode] reads a C structure (an object of bytes) and writes
    type-length-value triples; [qmi_decode] does the reverse.  Memory is modelled
    as byte lists with [load] and [store], so that an access outside the object
    shows up as [Fault]; pointers into the buffer and the structure are offsets.
    Loops and the recursion into nested structures share one fuel argument:
    each turn of a loop and each nested call uses one unit. *)

From Stdlib Require Import ZArith Lia.
From stdpp Require Import base list numbers.
From S2P Require Import Prelude Packet.

(** ** Descriptors (libqrtr.h) *)

Inductive qmi_elem_type : Type :=
| QMI_EOTI
| QMI_OPT_FLAG
| QMI_DATA_LEN
| QMI_UNSIGNED_1_BYTE
| QMI_UNSIGNED_2_BYTE
| QMI_UNSIGNED_4_BYTE
| QMI_UNSIGNED_8_BYTE
| QMI_SIGNED_1_BYTE_ENUM
| QMI_SIGNED_2_BYTE_ENUM
| QMI_SIGNED_4_BYTE_ENUM
| QMI_STRUCT
| QMI_STRING.

Inductive qmi_array_type : Type := NO_ARRAY | STATIC_ARRAY | VAR_LEN_ARRAY.

#[global] Instance qmi_elem_type_eq_dec : EqDecision qmi_elem_type.
Proof. solve_decision. Defined.
#[global] Instance qmi_array_type_eq_dec : EqDecision qmi_array_type.
Proof. solve_decision. Defined.

Unset Elimination Schemes.
Inductive qmi_elem_info : Type := MkEi
  { data_type : qmi_elem_type; elem_len : Z; elem_size : Z; array_type : qmi_array_type;
    tlv_type : Z; offset : Z; ei_array : option (list qmi_elem_info) }.
Set Elimination Schemes.

(** [{}]: the element that ends an array. *)
Definition eoti : qmi_elem_info := MkEi QMI_EOTI 0 0 NO_ARRAY 0 0 None.

Definition is_basic (t : qmi_elem_type) : bool :=
  match t with
  | QMI_UNSIGNED_1_BYTE | QMI_UNSIGNED_2_BYTE | QMI_UNSIGNED_4_BYTE | QMI_UNSIGNED_8_BYTE
  | QMI_SIGNED_1_BYTE_ENUM | QMI_SIGNED_2_BYTE_ENUM | QMI_SIGNED_4_BYTE_ENUM => true
  | _ => false
  end.

Definition TLV_HDR : Z := 3.
Definition OPTIONAL_TLV_TYPE_START : Z := 16.

(** The number of elements of a descriptor, nested arrays included. *)
Fixpoint ei_size (e : qmi_elem_info) : nat :=
  match ei_array e with
  | None => 1
  | Some l => S ((fix go l := match l with [] => 0 | e :: l' => ei_size e + go l' end) l)
  end%nat.

Fixpoint ei_sizes (l : list qmi_elem_info) : nat :=
  match l with [] => 0 | e :: l' => ei_size e + ei_sizes l' end%nat.

(** ** Walking a descriptor *)

Fixpoint skip_same (t : Z) (l : list qmi_elem_info) : outcome (list qmi_elem_info) :=
  match l with
  | [] => Fault
  | e :: l' => if tlv_type e =? t then skip_same t l' else Ret l
  end.

(** [skip_to_next_elem(temp_ei, level)]; [l] starts at [temp_ei]. *)
Definition skip_to_next_elem (l : list qmi_elem_info) (level : Z) : outcome (list qmi_elem_info) :=
  match l with
  | [] => Fault
  | e :: l' => if 1 <? level then Ret l' else skip_same (tlv_type e) l'
  end.

(** [qmi_calc_min_msg_len(ei_array, level)], an [int] that is assumed not to
    overflow. *)
Fixpoint qmi_calc_min_msg_len_loop (fuel : nat) (l : list qmi_elem_info) (level min_msg_len : Z)
    : outcome Z :=
  match fuel, l with
  | O, _ => OutOfFuel
  | S _, [] => Fault
  | S fuel', e :: l' =>
      let hdr := if level =? 1 then TLV_HDR else 0 in
      match data_type e with
      | QMI_EOTI => Ret min_msg_len
      | QMI_OPT_FLAG =>
          l'' ← skip_to_next_elem l level;
          qmi_calc_min_msg_len_loop fuel' l'' level min_msg_len
      | QMI_DATA_LEN =>
          qmi_calc_min_msg_len_loop fuel' l' level
            (min_msg_len + if elem_size e =? 1 then 1 else 2)
      | QMI_STRUCT =>
          n ← match ei_array e with
              | None => Ret 0
              | Some a => qmi_calc_min_msg_len_loop fuel' a (level + 1) 0
              end;
          qmi_calc_min_msg_len_loop fuel' l' level (min_msg_len + n + hdr)
      | QMI_STRING =>
          let n := if 1 <? level then if elem_len e <=? 256 then 1 else 2 else 0 in
          qmi_calc_min_msg_len_loop fuel' l' level
            (min_msg_len + n + elem_len e * elem_size e + hdr)
      | _ =>
          qmi_calc_min_msg_len_loop fuel' l' level (min_msg_len + elem_len e * elem_size e + hdr)
      end
  end.

Definition qmi_calc_min_msg_len (fuel : nat) (ei : option (list qmi_elem_info)) (level : Z)
    : outcome Z :=
  match ei with
  | None => Ret 0
  | Some l => qmi_calc_min_msg_len_loop fuel l level 0
  end.

(** ** Copying *)

(** [strlen] of the string at [off] in the object [m]. *)
Fixpoint strlen_loop (m : list Z) (n : Z) : outcome Z :=
  match m with
  | [] => Fault
  | b :: m' => if b =? 0 then Ret n else strlen_loop m' (n + 1)
  end.

Definition strlen (m : list Z) (off : Z) : outcome Z :=
  if 0 <=? off then strlen_loop (drop (Z.to_nat off) m) 0 else Fault.

(** The loop of [qmi_encode_basic_elem] and [qmi_decode_basic_elem]: [n] turns
    that copy [sz] bytes from [src] at [s] to [dst] at [d]. *)
Fixpoint copy_loop (n : nat) (dst : list Z) (d : Z) (src : list Z) (s sz rc : Z)
    : outcome (list Z * Z) :=
  match n with
  | O => Ret (dst, rc)
  | S n' =>
      bs ← load src s sz;
      dst' ← store dst d bs;
      copy_loop n' dst' (d + sz) src (s + sz) sz (u32 (rc + sz))
  end.

Definition qmi_encode_basic_elem (dst : list Z) (d : Z) (src : list Z) (s elem_len elem_size : Z)
    : outcome (list Z * Z) :=
  '(dst', rc) ← copy_loop (Z.to_nat elem_len) dst d src s elem_size 0; Ret (dst', s32 rc).

Definition qmi_decode_basic_elem (dst : list Z) (d : Z) (src : list Z) (s elem_len elem_size : Z)
    : outcome (list Z * Z) :=
  '(dst', rc) ← copy_loop (Z.to_nat elem_len) dst d src s elem_size 0; Ret (dst', s32 rc).

(** ** Encoding *)

(** The buffer written so far and the return code. *)
Definition enc_result : Type := list Z * Z.

(** The loop of [qmi_encode_struct_elem]; [encode] is [qmi_encode] on the nested
    descriptor: destination, its offset, source offset and room. *)
Fixpoint encode_struct_loop (encode : list Z -> Z -> Z -> Z -> outcome enc_result)
    (n : nat) (buf : list Z) (dst src esz out_buf_len encoded_bytes : Z) : outcome enc_result :=
  match n with
  | O => Ret (buf, encoded_bytes)
  | S n' =>
      '(buf', rc) ← encode buf dst src (u32 (out_buf_len - encoded_bytes));
      if rc <? 0 then Ret (buf', rc)
      else encode_struct_loop encode n' buf' (dst + rc) (src + esz) esz out_buf_len
             (encoded_bytes + rc)
  end.

Definition qmi_encode_string_elem (e : qmi_elem_info) (buf : list Z) (dst : Z) (c_struct : list Z)
    (src out_buf_len enc_level : Z) : outcome enc_result :=
  len ← strlen c_struct src;
  let string_len := u32 len in
  let string_len_sz := if elem_len e <=? 256 then 1 else 2 in
  if elem_len e <? string_len then Ret (buf, - EINVAL)
  else if enc_level =? 1 then
    if out_buf_len <? string_len + TLV_HDR then Ret (buf, - EINVAL)
    else qmi_encode_basic_elem buf dst c_struct src string_len (elem_size e)
  else if out_buf_len <? u32 (string_len + string_len_sz) then Ret (buf, - EINVAL)
  else
    '(buf', rc) ← qmi_encode_basic_elem buf dst (le_bytes 4 string_len) 0 1 string_len_sz;
    '(buf'', rc') ← qmi_encode_basic_elem buf' (dst + rc) c_struct src string_len (elem_size e);
    Ret (buf'', rc + rc').

(** The local variables of [qmi_encode] that live across turns of its loop. *)
Record enc_vars : Type := MkEnc
  { e_data_len : Z; e_dst : Z; e_tlv_pointer : Z; e_tlv_len : Z; e_bytes : Z; e_tlv : bool }.

(** [UPDATE_ENCODE_VARIABLES] without the step to the next element. *)
Definition enc_update (v : enc_vars) (rc : Z) : enc_vars :=
  MkEnc (e_data_len v) (e_dst v + rc) (e_tlv_pointer v) (u32 (e_tlv_len v + rc))
    (u32 (e_bytes v + rc)) true.

Definition enc_set_data_len (v : enc_vars) (n : Z) : enc_vars :=
  MkEnc n (e_dst v) (e_tlv_pointer v) (e_tlv_len v) (e_bytes v) (e_tlv v).

Definition enc_set_tlv (v : enc_vars) (b : bool) : enc_vars :=
  MkEnc (e_data_len v) (e_dst v) (e_tlv_pointer v) (e_tlv_len v) (e_bytes v) b.

(** The end of a turn: the header of a finished TLV at level 1. *)
Definition enc_finish_tlv (t : Z) (enc_level : Z) (buf : list Z) (v : enc_vars)
    : outcome (list Z * enc_vars) :=
  if e_tlv v && (enc_level =? 1) then
    buf' ← store buf (e_tlv_pointer v)
             [u8 t; Z.land (e_tlv_len v) 255; Z.land (Z.shiftr (e_tlv_len v) 8) 255];
    Ret (buf', MkEnc (e_data_len v) (e_dst v + TLV_HDR) (e_dst v) 0
                 (u32 (e_bytes v + TLV_HDR)) false)
  else Ret (buf, v).

(** The choice of [data_len_value] at the top of a turn; [None] is the error
    return. *)
Definition enc_data_len (e : qmi_elem_info) (cur : Z) : option Z :=
  match array_type e with
  | NO_ARRAY => Some 1
  | STATIC_ARRAY => Some (elem_len e)
  | VAR_LEN_ARRAY => if (cur <=? 0) || (elem_len e <? cur) then None else Some cur
  end.

(** [qmi_encode(ei_array, out_buf, in_c_struct, out_buf_len, enc_level)] from
    the element [l] starts at. [in_c] is the offset of the structure in the
    object [c_struct]. *)
Fixpoint qmi_encode_loop (fuel : nat) (l : list qmi_elem_info) (c_struct : list Z)
    (in_c out_buf_len enc_level : Z) (buf : list Z) (v : enc_vars) : outcome enc_result :=
  match fuel, l with
  | O, _ => OutOfFuel
  | S _, [] => Fault
  | S fuel', e :: l' =>
      if decide (data_type e = QMI_EOTI) then Ret (buf, s32 (e_bytes v))
      else
        match enc_data_len e (e_data_len v) with
        | None => Ret (buf, - EINVAL)
        | Some n =>
            let v := enc_set_data_len v n in
            let src := in_c + offset e in
            let continue l buf v :=
              '(buf, v) ← enc_finish_tlv (tlv_type e) enc_level buf v;
              qmi_encode_loop fuel' l c_struct in_c out_buf_len enc_level buf v in
            match data_type e with
            | QMI_OPT_FLAG =>
                flag ← load c_struct src 1;
                if decide (flag = [0]) then l'' ← skip_to_next_elem l enc_level; continue l'' buf v
                else continue l' buf v
            | QMI_DATA_LEN =>
                bs ← load c_struct src (elem_size e);
                word ← store (le_bytes 4 n) 0 bs;
                let data_len_sz := if elem_size e =? 1 then 1 else 2 in
                if out_buf_len <? u32 (data_len_sz + e_bytes v) + TLV_HDR
                then Ret (buf, - EINVAL)
                else
                  '(buf', rc) ← qmi_encode_basic_elem buf (e_dst v) word 0 1 data_len_sz;
                  let v := enc_update (enc_set_data_len v (le_val word)) rc in
                  if le_val word =? 0
                  then l'' ← skip_to_next_elem l' enc_level; continue l'' buf' v
                  else continue l' buf' (enc_set_tlv v false)
            | QMI_STRUCT =>
                let nested b d s room :=
                  match ei_array e with
                  | None => Ret (b, 0)
                  | Some a => qmi_encode_loop fuel' a c_struct s room (enc_level + 1) b
                                (MkEnc 0 d d 0 0 false)
                  end in
                '(buf', rc) ← encode_struct_loop nested (Z.to_nat n) buf (e_dst v) src
                                (elem_size e) (u32 (out_buf_len - e_bytes v)) 0;
                if rc <? 0 then Ret (buf', rc) else continue l' buf' (enc_update v rc)
            | QMI_STRING =>
                '(buf', rc) ← qmi_encode_string_elem e buf (e_dst v) c_struct src
                                (u32 (out_buf_len - e_bytes v)) enc_level;
                if rc <? 0 then Ret (buf', rc) else continue l' buf' (enc_update v rc)
            | _ =>
                if out_buf_len <? u32 (n * elem_size e + e_bytes v) + TLV_HDR
                then Ret (buf, - EINVAL)
                else
                  '(buf', rc) ← qmi_encode_basic_elem buf (e_dst v) c_struct src n (elem_size e);
                  continue l' buf' (enc_update v rc)
            end
        end
  end.

(** [qmi_encode] writes at [out] in [buf]. *)
Definition qmi_encode (fuel : nat) (ei : option (list qmi_elem_info)) (buf : list Z) (out : Z)
    (c_struct : list Z) (in_c out_buf_len enc_level : Z) : outcome enc_result :=
  match ei with
  | None => Ret (buf, 0)
  | Some l =>
      qmi_encode_loop fuel l c_struct in_c out_buf_len enc_level buf
        (MkEnc 0 (if enc_level =? 1 then out + TLV_HDR else out) out 0 0 false)
  end.

(** ** Decoding *)

(** The structure written so far and the return code. *)
Definition dec_result : Type := list Z * Z.

(** The loop of [qmi_decode_struct_elem]: [decode] is [qmi_decode] on the nested
    descriptor (structure, offset in it, offset in the message, length).  Its
    result is the structure, the return code or [decoded_bytes], and [i]. *)
Fixpoint decode_struct_loop (decode : list Z -> Z -> Z -> Z -> outcome dec_result)
    (n : nat) (c_struct : list Z) (dst src esz tlv_len decoded_bytes i : Z)
    : outcome (list Z * Z * Z) :=
  match n with
  | O => Ret (c_struct, decoded_bytes, i)
  | S n' =>
      if u32 decoded_bytes <? tlv_len then
        '(c', rc) ← decode c_struct dst src (u32 (tlv_len - decoded_bytes));
        if rc <? 0 then Ret (c', rc, i)
        else decode_struct_loop decode n' c' (dst + esz) (src + rc) esz tlv_len
               (decoded_bytes + rc) (i + 1)
      else Ret (c_struct, decoded_bytes, i)
  end.

Definition qmi_decode_struct_elem (decode : list Z -> Z -> Z -> Z -> outcome dec_result)
    (c_struct : list Z) (dst src esz elem_len tlv_len dec_level : Z) : outcome dec_result :=
  '(c', decoded_bytes, i) ← decode_struct_loop decode (Z.to_nat elem_len) c_struct dst src esz
                              tlv_len 0 0;
  if decoded_bytes <? 0 then Ret (c', decoded_bytes)
  else if ((dec_level <=? 2) && negb (decoded_bytes =? tlv_len))
          || ((2 <? dec_level) && ((i <? elem_len) || (tlv_len <? decoded_bytes)))
  then Ret (c', - EFAULT)
  else Ret (c', decoded_bytes).

Definition qmi_decode_string_elem (e : qmi_elem_info) (c_struct : list Z) (dst : Z)
    (msg : list Z) (src tlv_len dec_level : Z) : outcome dec_result :=
  '(string_len, decoded_bytes) ←
    (if dec_level =? 1 then Ret (tlv_len, 0)
     else
       let string_len_sz := if elem_len e <=? 256 then 1 else 2 in
       '(word, rc) ← qmi_decode_basic_elem (le_bytes 4 0) 0 msg src 1 string_len_sz;
       Ret (le_val word, rc));
  if elem_len e <? string_len then Ret (c_struct, - EINVAL)
  else if tlv_len <? string_len then Ret (c_struct, - EFAULT)
  else
    '(c', rc) ← qmi_decode_basic_elem c_struct dst msg (src + decoded_bytes) string_len (elem_size e);
    c'' ← store c' (dst + string_len) [0];
    Ret (c'', decoded_bytes + rc).

(** [find_ei(ei_array, type)]: the rest of the array from the element found. *)
Fixpoint find_ei (l : list qmi_elem_info) (type : Z) : outcome (option (list qmi_elem_info)) :=
  match l with
  | [] => Fault
  | e :: l' =>
      if decide (data_type e = QMI_EOTI) then Ret None
      else if tlv_type e =? u8 type then Ret (Some l)
      else find_ei l' type
  end.

(** The local variables of [qmi_decode] that live across turns of its loop;
    [d_ei] is where [temp_ei] points, which only nested levels use. *)
Record dec_vars : Type := MkDec
  { d_ei : list qmi_elem_info; d_data_len : Z; d_src : Z; d_bytes : Z }.

(** Head of the array; reading past its end is a fault. *)
Definition ei_head (l : list qmi_elem_info) : outcome qmi_elem_info :=
  match l with [] => Fault | e :: _ => Ret e end.

(** The first part of a turn at level 1: the TLV header and the element it
    names. [inl] is the error return, [inr None] the skipped TLV. *)
Definition dec_tlv (ei : list qmi_elem_info) (msg : list Z) (v : dec_vars)
    : outcome (Z + (dec_vars * option (list qmi_elem_info * Z))) :=
  hdr ← load msg (d_src v) TLV_HDR;
  match hdr with
  | [t; lo; hi] =>
      let tlv_len := Z.lor lo (Z.shiftl hi 8) in
      let v1 := MkDec (d_ei v) (d_data_len v) (d_src v + TLV_HDR) (u32 (d_bytes v + TLV_HDR)) in
      found ← find_ei ei t;
      match found with
      | Some l => Ret (inr (v1, Some (l, tlv_len)))
      | None =>
          if t <? OPTIONAL_TLV_TYPE_START then Ret (inl (- EINVAL))
          else Ret (inr (MkDec (d_ei v) (d_data_len v) (d_src v1 + tlv_len)
                           (u32 (d_bytes v1 + tlv_len)), None))
      end
  | _ => Fault
  end.

(** The optional flag: set, and step to the element it belongs to. *)
Definition dec_opt_flag (l : list qmi_elem_info) (c_struct : list Z) (out_c : Z)
    : outcome (list qmi_elem_info * list Z) :=
  e ← ei_head l;
  if decide (data_type e = QMI_OPT_FLAG) then
    c' ← store c_struct (out_c + offset e) [1]; Ret (drop 1 l, c')
  else Ret (l, c_struct).

(** The length of a variable array: decode, store as a [uint32_t], step to the
    array. *)
Definition dec_array_len (l : list qmi_elem_info) (c_struct : list Z) (out_c : Z) (msg : list Z)
    (v : dec_vars) (tlv_len : Z) : outcome (list qmi_elem_info * list Z * dec_vars * Z) :=
  e ← ei_head l;
  if decide (data_type e = QMI_DATA_LEN) then
    let data_len_sz := if elem_size e =? 1 then 1 else 2 in
    '(word, rc) ← qmi_decode_basic_elem (le_bytes 4 (d_data_len v)) 0 msg (d_src v) 1 data_len_sz;
    c' ← store c_struct (out_c + offset e) word;
    Ret (drop 1 l, c',
         MkDec (d_ei v) (le_val word) (d_src v + rc) (u32 (d_bytes v + rc)),
         u32 (tlv_len - data_len_sz))
  else Ret (l, c_struct, v, tlv_len).

Definition dec_data_len (e : qmi_elem_info) (cur : Z) : option Z :=
  match array_type e with
  | NO_ARRAY => Some 1
  | STATIC_ARRAY => Some (elem_len e)
  | VAR_LEN_ARRAY => if elem_len e <? cur then None else Some cur
  end.

(** The rest of a turn, from the element [l] starts at: the structure and either
    the error that is returned ([inl]) or the variables of the next turn ([inr]).
    [decode] is [qmi_decode] one level down. *)
Definition dec_element
    (decode : list qmi_elem_info -> list Z -> Z -> Z -> Z -> outcome dec_result)
    (l : list qmi_elem_info) (c_struct : list Z) (out_c : Z) (msg : list Z)
    (tlv_len dec_level : Z) (v : dec_vars) : outcome (list Z * (Z + dec_vars)) :=
  '(l, c) ← dec_opt_flag l c_struct out_c;
  '(l, c, v, tlv_len) ← dec_array_len l c out_c msg v tlv_len;
  e ← ei_head l;
  match dec_data_len e (d_data_len v) with
  | None => Ret (c, inl (- EINVAL))
  | Some n =>
      let dst := out_c + offset e in
      let next (r : dec_result) : outcome (list Z * (Z + dec_vars)) :=
        let '(c, rc) := r in
        Ret (c, inr (MkDec (drop 1 l) n (d_src v + rc) (u32 (d_bytes v + rc)))) in
      let next_or_err (r : dec_result) : outcome (list Z * (Z + dec_vars)) :=
        if snd r <? 0 then Ret (fst r, inl (snd r)) else next r in
      match data_type e with
      | QMI_EOTI | QMI_OPT_FLAG | QMI_DATA_LEN => Ret (c, inl (- EINVAL))
      | QMI_STRUCT =>
          let nested c d s len :=
            match ei_array e with
            | None => if 0 <? len then Fault else Ret (c, 0)
            | Some a => decode a c d s len
            end in
          r ← qmi_decode_struct_elem nested c dst (d_src v) (elem_size e) n tlv_len (dec_level + 1);
          next_or_err r
      | QMI_STRING =>
          r ← qmi_decode_string_elem e c dst msg (d_src v) tlv_len dec_level;
          next_or_err r
      | _ =>
          r ← qmi_decode_basic_elem c dst msg (d_src v) n (elem_size e);
          next r
      end
  end.

(** [qmi_decode(ei_array, out_c_struct, in_buf, in_buf_len, dec_level)] from the
    state [v]; [out_c] is the offset of the structure in the object [c_struct]
    and [msg] the object the message lies in. *)
Fixpoint qmi_decode_loop (fuel : nat) (ei : list qmi_elem_info) (c_struct : list Z) (out_c : Z)
    (msg : list Z) (in_buf_len dec_level : Z) (v : dec_vars) : outcome dec_result :=
  match fuel with
  | O => OutOfFuel
  | S fuel' =>
      let element l tlv_len v :=
        r ← dec_element
              (fun a c d s len => qmi_decode_loop fuel' a c d msg len (dec_level + 1) (MkDec a 0 s 0))
              l c_struct out_c msg tlv_len dec_level v;
        match r with
        | (c, inl err) => Ret (c, err)
        | (c, inr v') => qmi_decode_loop fuel' ei c out_c msg in_buf_len dec_level v'
        end in
      if in_buf_len <=? d_bytes v then Ret (c_struct, s32 (d_bytes v))
      else if dec_level =? 1 then
        t ← dec_tlv ei msg v;
        match t with
        | inl err => Ret (c_struct, err)
        | inr (v, None) => qmi_decode_loop fuel' ei c_struct out_c msg in_buf_len dec_level v
        | inr (v, Some (l, tlv_len)) => element l tlv_len v
        end
      else
        e ← ei_head (d_ei v);
        if (2 <=? dec_level) && bool_decide (data_type e = QMI_EOTI)
        then Ret (c_struct, s32 (d_bytes v))
        else element (d_ei v) (u32 (in_buf_len - d_bytes v)) v
  end.

Definition qmi_decode (fuel : nat) (ei : list qmi_elem_info) (c_struct : list Z) (out_c : Z)
    (msg : list Z) (src in_buf_len dec_level : Z) : outcome dec_result :=
  qmi_decode_loop fuel ei c_struct out_c msg in_buf_len dec_level (MkDec ei 0 src 0).

(** ** Messages *)

Definition sizeof_qmi_header : Z := 7.

Record qmi_header : Type := MkHdr { h_type : Z; h_txn_id : Z; h_msg_id : Z; h_msg_len : Z }.

Definition qmi_header_bytes (h : qmi_header) : list Z :=
  le_bytes 1 (h_type h) ++ le_bytes 2 (h_txn_id h) ++ le_bytes 2 (h_msg_id h)
  ++ le_bytes 2 (h_msg_len h).

Definition qmi_header_of (bs : list Z) : qmi_header :=
  MkHdr (le_val (take 1 bs)) (le_val (take 2 (drop 1 bs))) (le_val (take 2 (drop 3 bs)))
    (le_val (take 2 (drop 5 bs))).

(** Fuel that is enough for a descriptor and a message length. *)
Definition qmi_fuel (ei : option (list qmi_elem_info)) (len : Z) : nat :=
  (2 + Z.to_nat len + match ei with None => 0 | Some l => ei_sizes l end)%nat.

(** [qmi_encode_message(pkt, type, msg_id, txn_id, c_struct, ei)]: [buf] is the
    object [pkt->data] points to and [data_len] is [pkt->data_len].  The result
    is the return value and the buffer; on success the return value is also the
    new [pkt->data_len]. *)
Definition qmi_encode_message (buf : list Z) (data_len type msg_id txn_id : Z)
    (c_struct : option (list Z)) (ei : option (list qmi_elem_info)) : outcome (Z * list Z) :=
  let fuel := qmi_fuel ei data_len in
  min ← match c_struct with
        | None => qmi_calc_min_msg_len fuel ei 1
        | Some _ => Ret 0
        end;
  if negb (min =? 0) then Ret (- EINVAL, buf)
  else if data_len <? sizeof_qmi_header then Ret (- EMSGSIZE, buf)
  else
    '(buf', msglen) ←
      match c_struct with
      | None => Ret (buf, 0)
      | Some c => qmi_encode fuel ei buf sizeof_qmi_header c 0
                    (u32 (data_len - sizeof_qmi_header)) 1
      end;
    if msglen <? 0 then Ret (msglen, buf')
    else
      buf'' ← store buf' 0 (qmi_header_bytes (MkHdr (u8 type) (u16 txn_id) (u16 msg_id) (u16 msglen)));
      Ret (sizeof_qmi_header + msglen, buf'').

(** [qmi_decode_header(pkt, msg_id)]: the return code and [*msg_id] when it is
    assigned. *)
Definition qmi_decode_header (buf : list Z) (data_len : Z) : outcome (Z * option Z) :=
  bs ← load buf 0 sizeof_qmi_header;
  let h := qmi_header_of bs in
  if negb (h_msg_len h =? u64 (data_len - sizeof_qmi_header)) then Ret (- EINVAL, None)
  else Ret (0, Some (h_msg_id h)).

(** [qmi_decode_message(c_struct, txn, pkt, type, id, ei)]: the return code, the
    structure and [*txn] when it is assigned. *)
Definition qmi_decode_message (c_struct : list Z) (buf : list Z) (data_len type id : Z)
    (ei : option (list qmi_elem_info)) : outcome (Z * list Z * option Z) :=
  match ei with
  | None => Ret (- EINVAL, c_struct, None)
  | Some l =>
      if data_len =? 0 then Ret (- EINVAL, c_struct, None)
      else
        bs ← load buf 0 sizeof_qmi_header;
        let h := qmi_header_of bs in
        if negb (h_type h =? type) then Ret (- EINVAL, c_struct, None)
        else if negb (h_msg_id h =? id) then Ret (- EINVAL, c_struct, None)
        else
          let len := u32 (data_len - sizeof_qmi_header) in
          '(c', rc) ← qmi_decode (qmi_fuel ei len) l c_struct 0 buf sizeof_qmi_header len 1;
          Ret (rc, c', Some (h_txn_id h))
  end.
