(* ===== verification/QmiMessages.v ===== *)
(** * The QMI message descriptors

    The tables of src/qcom/rmtfs/qmi_rmtfs.c, src/qcom/pd-mapper/servreg_loc.c
    and the common response header of src/qcom/qrtr/lib/qmi.c, with the layout of
    the structures they describe (LP64: [size_t] is 8 bytes, [bool] one). *)

From Stdlib Require Import ZArith Lia.
From stdpp Require Import base list numbers.
From S2P Require Import Prelude Packet QmiCodec.

(** An element that is no array and has no nested descriptor. *)
Definition ei_plain (t : qmi_elem_type) (size tlv off : Z) : qmi_elem_info :=
  MkEi t 1 size NO_ARRAY tlv off None.

(** A structure that is no array. *)
Definition ei_struct (size tlv off : Z) (a : list qmi_elem_info) : qmi_elem_info :=
  MkEi QMI_STRUCT 1 size NO_ARRAY tlv off (Some a).

(** ** src/qcom/qrtr/lib/qmi.c *)

Definition sizeof_qmi_response_type_v01 : Z := 4.

Definition qmi_response_type_v01_ei : list qmi_elem_info :=
  [ei_plain QMI_SIGNED_2_BYTE_ENUM 2 0 0; ei_plain QMI_SIGNED_2_BYTE_ENUM 2 0 2; eoti].

(** ** src/qcom/rmtfs/qmi_rmtfs.c *)

Definition QMI_RMTFS_OPEN : Z := 1.
Definition QMI_RMTFS_CLOSE : Z := 2.
Definition QMI_RMTFS_RW_IOVEC : Z := 3.
Definition QMI_RMTFS_ALLOC_BUFF : Z := 4.
Definition QMI_RMTFS_GET_DEV_ERROR : Z := 5.
Definition QMI_RMTFS_FORCE_SYNC_IND : Z := 6.

Definition QMI_RMTFS_RESULT_SUCCESS : Z := 0.
Definition QMI_RMTFS_RESULT_FAILURE : Z := 1.
Definition QMI_RMTFS_ERR_NONE : Z := 0.
Definition QMI_RMTFS_ERR_INTERNAL : Z := 1.
Definition QMI_RMTFS_ERR_MALFORMED_MSG : Z := 2.

Definition sizeof_rmtfs_open_req : Z := 260.
Definition sizeof_rmtfs_open_resp : Z := 12.
Definition sizeof_rmtfs_close_req : Z := 4.
Definition sizeof_rmtfs_close_resp : Z := 4.
Definition sizeof_rmtfs_iovec_req : Z := 3080.
Definition sizeof_rmtfs_iovec_resp : Z := 4.
Definition sizeof_rmtfs_alloc_buf_req : Z := 8.
Definition sizeof_rmtfs_alloc_buf_resp : Z := 16.
Definition sizeof_rmtfs_dev_error_req : Z := 4.
Definition sizeof_rmtfs_dev_error_resp : Z := 6.
Definition sizeof_rmtfs_force_sync : Z := 48.

Definition rmtfs_qmi_result_ei : list qmi_elem_info :=
  [ei_plain QMI_UNSIGNED_2_BYTE 2 0 0; ei_plain QMI_UNSIGNED_2_BYTE 2 0 2; eoti].

Definition rmtfs_iovec_entry_ei : list qmi_elem_info :=
  [ei_plain QMI_UNSIGNED_4_BYTE 4 0 0; ei_plain QMI_UNSIGNED_4_BYTE 4 0 4;
   ei_plain QMI_UNSIGNED_4_BYTE 4 0 8; eoti].

Definition rmtfs_open_req_ei : list qmi_elem_info :=
  [MkEi QMI_STRING 256 1 VAR_LEN_ARRAY 1 4 None; eoti].

Definition rmtfs_open_resp_ei : list qmi_elem_info :=
  [ei_struct 4 2 0 rmtfs_qmi_result_ei; ei_plain QMI_OPT_FLAG 1 16 4;
   ei_plain QMI_UNSIGNED_4_BYTE 4 16 8; eoti].

Definition rmtfs_close_req_ei : list qmi_elem_info := [ei_plain QMI_UNSIGNED_4_BYTE 4 1 0; eoti].

Definition rmtfs_close_resp_ei : list qmi_elem_info := [ei_struct 4 2 0 rmtfs_qmi_result_ei; eoti].

Definition rmtfs_iovec_req_ei : list qmi_elem_info :=
  [ei_plain QMI_UNSIGNED_4_BYTE 4 1 0; ei_plain QMI_UNSIGNED_1_BYTE 1 2 4;
   ei_plain QMI_DATA_LEN 1 3 8;
   MkEi QMI_STRUCT 255 12 VAR_LEN_ARRAY 3 16 (Some rmtfs_iovec_entry_ei);
   ei_plain QMI_UNSIGNED_1_BYTE 1 4 3076; eoti].

Definition rmtfs_iovec_resp_ei : list qmi_elem_info := [ei_struct 4 2 0 rmtfs_qmi_result_ei; eoti].

Definition rmtfs_alloc_buf_req_ei : list qmi_elem_info :=
  [ei_plain QMI_UNSIGNED_4_BYTE 4 1 0; ei_plain QMI_UNSIGNED_4_BYTE 4 2 4; eoti].

Definition rmtfs_alloc_buf_resp_ei : list qmi_elem_info :=
  [ei_struct 4 2 0 rmtfs_qmi_result_ei; ei_plain QMI_OPT_FLAG 1 16 4;
   ei_plain QMI_UNSIGNED_8_BYTE 8 16 8; eoti].

Definition rmtfs_dev_error_req_ei : list qmi_elem_info := [ei_plain QMI_UNSIGNED_4_BYTE 4 1 0; eoti].

Definition rmtfs_dev_error_resp_ei : list qmi_elem_info :=
  [ei_struct 4 2 0 rmtfs_qmi_result_ei; ei_plain QMI_OPT_FLAG 1 16 4;
   ei_plain QMI_UNSIGNED_1_BYTE 1 16 5; eoti].

Definition rmtfs_force_sync_ei : list qmi_elem_info :=
  [ei_plain QMI_DATA_LEN 1 1 0; MkEi QMI_UNSIGNED_1_BYTE 10 4 VAR_LEN_ARRAY 1 8 None; eoti].

(** ** src/qcom/pd-mapper/servreg_loc.c *)

Definition SERVREG_LOC_GET_DOMAIN_LIST : Z := 33.
Definition SERVREG_LOC_PFR : Z := 36.

Definition sizeof_servreg_loc_domain_list_entry : Z := 272.
Definition sizeof_servreg_loc_get_domain_list_req : Z := 268.
Definition sizeof_servreg_loc_get_domain_list_resp : Z := 69380.
Definition sizeof_servreg_loc_pfr_req : Z := 520.
Definition sizeof_servreg_loc_pfr_resp : Z := 4.

Definition servreg_loc_qmi_result_ei : list qmi_elem_info :=
  [ei_plain QMI_UNSIGNED_2_BYTE 2 0 0; ei_plain QMI_UNSIGNED_2_BYTE 2 0 2; eoti].

Definition servreg_loc_domain_list_entry_ei : list qmi_elem_info :=
  [MkEi QMI_STRING 256 1 NO_ARRAY 0 4 None; ei_plain QMI_UNSIGNED_4_BYTE 4 0 260;
   ei_plain QMI_UNSIGNED_1_BYTE 1 0 264; ei_plain QMI_UNSIGNED_4_BYTE 4 0 268; eoti].

Definition servreg_loc_get_domain_list_req_ei : list qmi_elem_info :=
  [MkEi QMI_STRING 256 1 VAR_LEN_ARRAY 1 4 None; ei_plain QMI_OPT_FLAG 1 16 260;
   ei_plain QMI_UNSIGNED_4_BYTE 4 16 264; eoti].

Definition servreg_loc_get_domain_list_resp_ei : list qmi_elem_info :=
  [ei_struct 4 2 0 servreg_loc_qmi_result_ei;
   ei_plain QMI_OPT_FLAG 1 16 4; ei_plain QMI_UNSIGNED_2_BYTE 2 16 6;
   ei_plain QMI_OPT_FLAG 1 17 8; ei_plain QMI_UNSIGNED_2_BYTE 2 17 10;
   ei_plain QMI_OPT_FLAG 1 18 12; ei_plain QMI_DATA_LEN 1 18 16;
   MkEi QMI_STRUCT 255 272 VAR_LEN_ARRAY 18 20 (Some servreg_loc_domain_list_entry_ei); eoti].

Definition servreg_loc_pfr_req_ei : list qmi_elem_info :=
  [MkEi QMI_STRING 256 1 VAR_LEN_ARRAY 1 4 None; MkEi QMI_STRING 256 1 VAR_LEN_ARRAY 2 264 None; eoti].

Definition servreg_loc_pfr_resp_ei : list qmi_elem_info :=
  [ei_struct 4 2 0 servreg_loc_qmi_result_ei; eoti].

(** The descriptors of a family of messages, with the size of their structures. *)
Definition rmtfs_messages : list (list qmi_elem_info * Z) :=
  [(rmtfs_open_req_ei, sizeof_rmtfs_open_req); (rmtfs_open_resp_ei, sizeof_rmtfs_open_resp);
   (rmtfs_close_req_ei, sizeof_rmtfs_close_req); (rmtfs_close_resp_ei, sizeof_rmtfs_close_resp);
   (rmtfs_iovec_req_ei, sizeof_rmtfs_iovec_req); (rmtfs_iovec_resp_ei, sizeof_rmtfs_iovec_resp);
   (rmtfs_alloc_buf_req_ei, sizeof_rmtfs_alloc_buf_req);
   (rmtfs_alloc_buf_resp_ei, sizeof_rmtfs_alloc_buf_resp);
   (rmtfs_dev_error_req_ei, sizeof_rmtfs_dev_error_req);
   (rmtfs_dev_error_resp_ei, sizeof_rmtfs_dev_error_resp);
   (rmtfs_force_sync_ei, sizeof_rmtfs_force_sync)].

Definition servreg_messages : list (list qmi_elem_info * Z) :=
  [(servreg_loc_get_domain_list_req_ei, sizeof_servreg_loc_get_domain_list_req);
   (servreg_loc_get_domain_list_resp_ei, sizeof_servreg_loc_get_domain_list_resp);
   (servreg_loc_pfr_req_ei, sizeof_servreg_loc_pfr_req);
   (servreg_loc_pfr_resp_ei, sizeof_servreg_loc_pfr_resp)].
