(* ===== verification/QmiDecode.v ===== *)
(** * Safety and termination of the QMI decoder

    For a descriptor whose elements fit the structure ([ei_ok]), [qmi_decode]
    returns on every message, never writes outside the structure, and never
    reads further behind the message than the largest element it may expect
    ([ei_wires]). *)

From Stdlib Require Import ZArith Lia.
From stdpp Require Import base list numbers.
From S2P Require Import Prelude Packet QmiCodec QmiMessages.

(** ** Well-formed descriptors *)

Definition elem_count (e : qmi_elem_info) : Z :=
  match array_type e with NO_ARRAY => 1 | _ => elem_len e end.

(** The most bytes an element takes on the wire. *)
Fixpoint ei_wire (e : qmi_elem_info) : N :=
  match data_type e with
  | QMI_EOTI | QMI_OPT_FLAG => 0
  | QMI_DATA_LEN => 2
  | QMI_STRING => 2 + Z.to_N (elem_len e)
  | QMI_STRUCT =>
      Z.to_N (elem_count e) *
      match ei_array e with
      | None => 0
      | Some a => (fix go l := match l with [] => 0 | e :: l' => ei_wire e + go l' end) a
      end
  | _ => Z.to_N (elem_count e * elem_size e)
  end%N.

Fixpoint ei_wires (l : list qmi_elem_info) : N :=
  match l with [] => 0 | e :: l' => ei_wire e + ei_wires l' end%N.

(** The last element, and no other needed, is [QMI_EOTI]. *)
Fixpoint ei_terminated (l : list qmi_elem_info) : bool :=
  match l with
  | [] => false
  | [e] => bool_decide (data_type e = QMI_EOTI)
  | _ :: l' => ei_terminated l'
  end.

(** What the decoder writes for an element lies within [size] bytes; for a
    string that includes the terminating NUL. *)
Fixpoint ei_ok (size : Z) (e : qmi_elem_info) : bool :=
  (0 <=? offset e) && (0 <=? elem_len e) && (0 <=? elem_size e) &&
  match data_type e with
  | QMI_EOTI => true
  | QMI_OPT_FLAG => offset e + 1 <=? size
  | QMI_DATA_LEN => offset e + 4 <=? size
  | QMI_STRING => (elem_size e =? 1) && (offset e + elem_len e + 1 <=? size)
  | QMI_STRUCT =>
      (offset e + elem_count e * elem_size e <=? size) &&
      match ei_array e with
      | None => false
      | Some a => ei_terminated a &&
          (fix go l := match l with [] => true | x :: l' => ei_ok (elem_size e) x && go l' end) a
      end
  | _ => offset e + elem_count e * elem_size e <=? size
  end.

Definition ei_oks (size : Z) (l : list qmi_elem_info) : bool := forallb (ei_ok size) l.

(** A descriptor of a structure of [size] bytes. *)
Definition ei_list_ok (size : Z) (l : list qmi_elem_info) : Prop :=
  ei_terminated l = true /\ ei_oks size l = true.

(** ** Facts about descriptors *)

Lemma ei_wire_struct e a :
  data_type e = QMI_STRUCT -> ei_array e = Some a ->
  ei_wire e = (Z.to_N (elem_count e) * ei_wires a)%N.
Proof. destruct e as [? ? ? ? ? ? ar]; simpl. intros -> ->. reflexivity. Qed.

Lemma ei_wire_basic e :
  is_basic (data_type e) = true -> ei_wire e = Z.to_N (elem_count e * elem_size e).
Proof. destruct e as [dt ? ? ? ? ? ?]; simpl. by destruct dt. Qed.

Lemma ei_size_struct e a : ei_array e = Some a -> ei_size e = S (ei_sizes a).
Proof. destruct e as [? ? ? ? ? ? ar]; simpl. intros ->. reflexivity. Qed.

Lemma ei_size_pos e : (0 < ei_size e)%nat.
Proof. destruct e as [? ? ? ? ? ? [a|]]; simpl; lia. Qed.

Lemma ei_sizes_elem e l : e ∈ l -> (ei_size e <= ei_sizes l)%nat.
Proof. induction 1; simpl; lia. Qed.

Lemma ei_ok_nonneg size e : ei_ok size e = true -> 0 <= offset e /\ 0 <= elem_len e /\ 0 <= elem_size e.
Proof. destruct e; simpl. rewrite !andb_true_iff, !Z.leb_le. lia. Qed.

Lemma ei_ok_struct size e :
  ei_ok size e = true -> data_type e = QMI_STRUCT ->
  offset e + elem_count e * elem_size e <= size
  /\ exists a, ei_array e = Some a /\ ei_list_ok (elem_size e) a.
Proof.
  destruct e as [dt el es at_ tt off ar]. simpl. intros Hok ->. simpl in Hok.
  apply andb_true_iff in Hok as [_ Hok]. apply andb_true_iff in Hok as [Hsz Hok].
  split; [by apply Z.leb_le|]. destruct ar as [a|]; [|done]. exists a. split; [done|].
  by apply andb_true_iff in Hok.
Qed.

Lemma ei_ok_basic size e :
  ei_ok size e = true -> is_basic (data_type e) = true ->
  offset e + elem_count e * elem_size e <= size.
Proof.
  destruct e as [dt el es at_ tt off ar]. simpl. intros Hok Hb.
  apply andb_true_iff in Hok as [_ Hok]. apply Z.leb_le. by destruct dt.
Qed.

Lemma ei_ok_string size e :
  ei_ok size e = true -> data_type e = QMI_STRING ->
  elem_size e = 1 /\ offset e + elem_len e + 1 <= size.
Proof.
  destruct e as [dt el es at_ tt off ar]. simpl. intros Hok ->.
  apply andb_true_iff in Hok as [_ Hok]. apply andb_true_iff in Hok as [H1 H2].
  split; [by apply Z.eqb_eq|by apply Z.leb_le].
Qed.

Lemma ei_ok_opt size e : ei_ok size e = true -> data_type e = QMI_OPT_FLAG -> offset e + 1 <= size.
Proof.
  destruct e as [dt el es at_ tt off ar]. simpl. intros Hok ->.
  apply andb_true_iff in Hok as [_ Hok]. by apply Z.leb_le.
Qed.

Lemma ei_ok_data_len size e :
  ei_ok size e = true -> data_type e = QMI_DATA_LEN -> offset e + 4 <= size.
Proof.
  destruct e as [dt el es at_ tt off ar]. simpl. intros Hok ->.
  apply andb_true_iff in Hok as [_ Hok]. by apply Z.leb_le.
Qed.

#[local] Arguments ei_size : simpl never.
#[local] Arguments ei_wire : simpl never.

(** Stepping to the next element stays inside the array. *)
Lemma ei_list_ok_next size e l :
  ei_list_ok size (e :: l) -> data_type e <> QMI_EOTI -> ei_list_ok size l.
Proof.
  intros [Ht Hok] Hne. apply andb_true_iff in Hok as [_ Hok]. split; [|done].
  destruct l; simpl in Ht; [|done]. apply bool_decide_eq_true in Ht. done.
Qed.

Lemma ei_list_ok_head size l :
  ei_list_ok size l -> exists e l', l = e :: l' /\ ei_ok size e = true.
Proof.
  intros [Ht Hok]. destruct l as [|e l]; [done|]. apply andb_true_iff in Hok as [? _]. eauto.
Qed.

(** ** Copies *)

Lemma copy_loop_safe n : forall dst d src s sz rc,
  0 <= d -> 0 <= s -> 0 <= sz -> 0 <= rc ->
  d + Z.of_nat n * sz <= Z.of_nat (length dst) -> s + Z.of_nat n * sz <= Z.of_nat (length src) ->
  rc + Z.of_nat n * sz < 2147483648 ->
  exists dst', copy_loop n dst d src s sz rc = Ret (dst', rc + Z.of_nat n * sz)
    /\ length dst' = length dst.
Proof.
  induction n as [|n IH]; intros dst d src s sz rc Hd Hs Hsz Hrc Hfit Hsrc Hmax; cbn [copy_loop].
  { exists dst. split; [do 2 f_equal; lia|done]. }
  rewrite load_ret by nia. cbn [mbind outcome_bind].
  assert (Z.of_nat (length (take (Z.to_nat sz) (drop (Z.to_nat s) src))) = sz) as Hl
    by (rewrite length_take, length_drop; nia).
  rewrite store_ret by (rewrite ?Hl; nia). cbn [mbind outcome_bind].
  match goal with |- context [copy_loop n ?b] => set (dst1 := b) end.
  assert (length dst1 = length dst) as Hl1.
  { apply (length_store dst d (take (Z.to_nat sz) (drop (Z.to_nat s) src))).
    rewrite store_ret by (rewrite ?Hl; nia). done. }
  rewrite u32_small by nia.
  destruct (IH dst1 (d + sz) src (s + sz) sz (rc + sz)) as (dst' & Heq & Hl'); try nia.
  exists dst'. rewrite Heq. split; [do 2 f_equal; lia|lia].
Qed.

Lemma copy_loop_bytes n : forall dst d src s sz rc dst' rc',
  Forall is_byte dst -> Forall is_byte src -> copy_loop n dst d src s sz rc = Ret (dst', rc') ->
  Forall is_byte dst'.
Proof.
  induction n as [|n IH]; intros dst d src s sz rc dst' rc' Hd Hs; cbn [copy_loop]; [congruence|].
  destruct (load src s sz) as [bs| |] eqn:Hld; try done. cbn [mbind outcome_bind].
  destruct (store dst d bs) as [dst1| |] eqn:Hst; try done. cbn [mbind outcome_bind].
  apply IH; [|done]. eapply store_bytes; [exact Hd| |exact Hst]. by eapply load_bytes.
Qed.

Lemma decode_basic_safe dst d src s n sz :
  0 <= d -> 0 <= s -> 0 <= sz -> 0 <= n -> d + n * sz <= Z.of_nat (length dst) ->
  s + n * sz <= Z.of_nat (length src) -> n * sz < 2147483648 ->
  exists dst', qmi_decode_basic_elem dst d src s n sz = Ret (dst', n * sz) /\ length dst' = length dst
    /\ (Forall is_byte dst -> Forall is_byte src -> Forall is_byte dst').
Proof.
  intros. unfold qmi_decode_basic_elem.
  assert (Z.of_nat (Z.to_nat n) = n) as Hn by lia.
  destruct (copy_loop_safe (Z.to_nat n) dst d src s sz 0) as (dst' & Heq & Hl); rewrite ?Hn; try lia.
  rewrite Heq. exists dst'. cbn [mbind outcome_bind]. rewrite Hn, Z.add_0_l, s32_small by nia.
  split_and!; [done|done|]. intros Hbd Hbs. exact (copy_loop_bytes _ _ _ _ _ _ _ _ _ Hbd Hbs Heq).
Qed.

(** ** Elements *)

(** [decode] is safe on structures of [esz] bytes described by [a]. *)
Definition nested_safe (msg : list Z) (decode : list Z -> Z -> Z -> Z -> outcome dec_result)
    (esz : Z) (w : Z) : Prop :=
  forall c d s len, 0 <= d -> d + esz <= Z.of_nat (length c) -> 0 <= s ->
    s + w <= Z.of_nat (length msg) -> 0 <= len < 4294967296 ->
    exists c' rc, decode c d s len = Ret (c', rc) /\ length c' = length c /\ rc <= w.

Lemma decode_struct_loop_safe msg decode esz w n : forall c dst src tlv_len db i,
  nested_safe msg decode esz w -> 0 <= esz -> 0 <= w -> 0 <= dst -> 0 <= src -> 0 <= db ->
  dst + Z.of_nat n * esz <= Z.of_nat (length c) -> src + Z.of_nat n * w <= Z.of_nat (length msg) ->
  db + Z.of_nat n * w < 2147483648 -> 0 <= tlv_len < 4294967296 ->
  exists c' db' i', decode_struct_loop decode n c dst src esz tlv_len db i = Ret (c', db', i')
    /\ length c' = length c /\ db' <= db + Z.of_nat n * w.
Proof.
  induction n as [|n IH]; intros c dst src tlv_len db i Hsafe He Hw Hd Hs Hdb Hfit Hsrc Hmax Ht.
  { exists c, db, i. simpl. split_and!; [done|done|lia]. }
  cbn [decode_struct_loop]. rewrite (u32_small db) by nia.
  destruct (Z.ltb_spec db tlv_len) as [Hlt|]; [|exists c, db, i; split_and!; [done|done|nia]].
  rewrite u32_small by lia.
  destruct (Hsafe c dst src (tlv_len - db)) as (c1 & rc & -> & Hl & Hrc); try nia.
  cbn [mbind outcome_bind]. destruct (Z.ltb_spec rc 0).
  { exists c1, rc, i. split_and!; [done|lia|nia]. }
  destruct (IH c1 (dst + esz) (src + rc) tlv_len (db + rc) (i + 1)) as (c' & db' & i' & -> & Hl' & Hdb');
    try nia; try done.
  exists c', db', i'. split_and!; [done|lia|nia].
Qed.

Lemma decode_struct_safe msg decode esz w n c dst src tlv_len level :
  nested_safe msg decode esz w -> 0 <= esz -> 0 <= w -> 0 <= dst -> 0 <= src -> 0 <= n ->
  dst + n * esz <= Z.of_nat (length c) -> src + n * w <= Z.of_nat (length msg) ->
  n * w < 2147483648 -> 0 <= tlv_len < 4294967296 ->
  exists c' rc, qmi_decode_struct_elem decode c dst src esz n tlv_len level = Ret (c', rc)
    /\ length c' = length c /\ rc <= n * w.
Proof.
  intros. unfold qmi_decode_struct_elem.
  assert (Z.of_nat (Z.to_nat n) = n) as Hn by lia.
  destruct (decode_struct_loop_safe msg decode esz w (Z.to_nat n) c dst src tlv_len 0 0)
    as (c' & db & i & -> & Hl & Hdb); rewrite ?Hn; try done; try lia.
  cbn [mbind outcome_bind]. rewrite Hn in Hdb.
  destruct (db <? 0); [by exists c', db|].
  destruct (_ || _); [|by exists c', db]. exists c', (- EFAULT). split_and!; [done|done|].
  unfold EFAULT. nia.
Qed.

(** The local word a length is decoded into. *)
Lemma decode_word_safe old msg src sz :
  Forall is_byte msg -> 0 <= src -> 1 <= sz <= 2 -> src + sz <= Z.of_nat (length msg) ->
  exists word, qmi_decode_basic_elem (le_bytes 4 old) 0 msg src 1 sz = Ret (word, sz)
    /\ length word = 4%nat /\ 0 <= le_val word.
Proof.
  intros Hb Hs Hsz Hfit.
  destruct (decode_basic_safe (le_bytes 4 old) 0 msg src 1 sz) as (word & Heq & Hl & Hbs);
    rewrite ?length_le_bytes; try lia.
  exists word. rewrite Heq, Z.mul_1_l. split_and!; [done|by rewrite Hl, length_le_bytes|].
  apply le_val_range, Hbs; [apply le_bytes_byte|done].
Qed.

Lemma decode_string_safe e c dst msg src tlv_len level :
  elem_size e = 1 -> 0 <= elem_len e < 2147483646 -> 0 <= dst -> 0 <= src ->
  dst + elem_len e + 1 <= Z.of_nat (length c) ->
  src + 2 + elem_len e <= Z.of_nat (length msg) -> 0 <= tlv_len ->
  Forall is_byte msg ->
  exists c' rc, qmi_decode_string_elem e c dst msg src tlv_len level = Ret (c', rc)
    /\ length c' = length c /\ rc <= 2 + elem_len e.
Proof.
  intros Hsz Hlen Hd Hs Hfit Hsrc Ht Hb. unfold qmi_decode_string_elem.
  set (sz := if elem_len e <=? 256 then 1 else 2).
  assert (1 <= sz <= 2) as Hsz2 by (unfold sz; destruct (_ <=? _); lia).
  assert (exists slen db, (if level =? 1 then Ret (tlv_len, 0)
      else '(word, rc) ← qmi_decode_basic_elem (le_bytes 4 0) 0 msg src 1 sz; Ret (le_val word, rc))
      = Ret (slen, db) /\ 0 <= db <= 2 /\ 0 <= slen) as (slen & db & -> & Hdb & Hsl).
  { destruct (level =? 1); [exists tlv_len, 0; split_and!; try done; lia|].
    destruct (decode_word_safe 0 msg src sz) as (word & -> & _ & Hw); try done; [lia|].
    exists (le_val word), sz. split_and!; [done|lia|lia|done]. }
  cbn [mbind outcome_bind].
  destruct (Z.ltb_spec (elem_len e) slen); [exists c, (- EINVAL); unfold EINVAL; split_and!; [done..|lia]|].
  destruct (Z.ltb_spec tlv_len slen); [exists c, (- EFAULT); unfold EFAULT; split_and!; [done..|lia]|].
  rewrite Hsz. destruct (decode_basic_safe c dst msg (src + db) slen 1) as (c1 & -> & Hl1 & _); try lia.
  cbn [mbind outcome_bind]. rewrite store_ret by (simpl; lia). cbn [mbind outcome_bind].
  eexists _, _. split_and!; [reflexivity| |lia].
  rewrite !length_app, length_take, length_drop. simpl. lia.
Qed.

(** ** One turn of the decoder *)

Definition wires (l : list qmi_elem_info) : Z := Z.of_N (ei_wires l).

Lemma wires_cons e l : wires (e :: l) = Z.of_N (ei_wire e) + wires l.
Proof. unfold wires. simpl. lia. Qed.

Lemma wires_nonneg l : 0 <= wires l.
Proof. unfold wires. lia. Qed.

#[local] Hint Resolve wires_nonneg : core.

(** What is left of the descriptor after some of its elements. *)
Definition later (size : Z) (l l' : list qmi_elem_info) : Prop :=
  ei_list_ok size l' /\ wires l' <= wires l /\ (ei_sizes l' <= ei_sizes l)%nat.

Lemma dec_opt_flag_safe size l c out_c :
  ei_list_ok size l -> 0 <= out_c -> out_c + size <= Z.of_nat (length c) ->
  exists l' c', dec_opt_flag l c out_c = Ret (l', c') /\ length c' = length c /\ later size l l'.
Proof.
  intros Hl Ho Hfit. destruct (ei_list_ok_head size l Hl) as (e & l0 & -> & He).
  unfold dec_opt_flag. cbn [ei_head mbind outcome_bind]. case_decide as Hd.
  - pose proof (ei_ok_opt _ _ He Hd). destruct (ei_ok_nonneg _ _ He) as (? & _).
    rewrite store_ret by (simpl; lia). cbn [mbind outcome_bind]. rewrite skipn_cons, drop_0.
    eexists _, _. split_and!; [reflexivity| |].
    + rewrite !length_app, length_take, length_drop. simpl. lia.
    + split_and!; [eapply ei_list_ok_next; [done|congruence]|rewrite wires_cons; lia|simpl; lia].
  - eexists _, _. split_and!; [reflexivity|done|]. split_and!; [done|lia|lia].
Qed.

Lemma dec_array_len_safe size l c out_c msg v tlv_len :
  ei_list_ok size l -> 0 <= out_c -> out_c + size <= Z.of_nat (length c) ->
  Forall is_byte msg -> 0 <= d_src v -> d_src v + wires l <= Z.of_nat (length msg) ->
  0 <= d_bytes v -> d_bytes v + wires l < 2147483648 -> 0 <= tlv_len < 4294967296 ->
  0 <= d_data_len v ->
  exists l' c' v' t k, dec_array_len l c out_c msg v tlv_len = Ret (l', c', v', t)
    /\ length c' = length c /\ later size l l' /\ 0 <= t < 4294967296 /\ 0 <= d_data_len v'
    /\ 0 <= k /\ k + wires l' <= wires l /\ d_src v' = d_src v + k /\ d_bytes v' = d_bytes v + k.
Proof.
  intros Hl Ho Hfit Hb Hs Hsrc Hby Hmax Ht Hdl.
  destruct (ei_list_ok_head size l Hl) as (e & l0 & -> & He).
  unfold dec_array_len. cbn [ei_head mbind outcome_bind]. case_decide as Hd.
  - pose proof (ei_ok_data_len _ _ He Hd). destruct (ei_ok_nonneg _ _ He) as (? & _).
    set (sz := if elem_size e =? 1 then 1 else 2).
    assert (1 <= sz <= 2) as Hsz by (unfold sz; destruct (_ =? _); lia).
    assert (wires (e :: l0) = 2 + wires l0) as Hw.
    { rewrite wires_cons. destruct e; unfold ei_wire; simpl in *. by rewrite Hd. }
    rewrite Hw in *. pose proof (wires_nonneg l0).
    destruct (decode_word_safe (d_data_len v) msg (d_src v) sz) as (word & -> & Hlw & Hvw);
      try done; [lia|].
    cbn [mbind outcome_bind]. rewrite store_ret by lia. cbn [mbind outcome_bind]. rewrite skipn_cons, drop_0.
    eexists _, _, _, _, sz. split_and!; [reflexivity|..]; simpl; try lia.
    + rewrite !length_app, length_take, length_drop. lia.
    + split_and!; [eapply ei_list_ok_next; [done|congruence]|lia|simpl; lia].
    + apply u32_range.
    + apply u32_range.
    + apply u32_small. lia.
  - eexists _, _, _, _, 0. split_and!; [reflexivity|..]; try done; try lia.
Qed.

(** The count [dec_data_len] picks. *)
Lemma dec_data_len_range e cur n :
  0 <= elem_len e -> 0 <= cur -> dec_data_len e cur = Some n -> 0 <= n <= elem_count e.
Proof.
  unfold dec_data_len, elem_count. intros He Hc. destruct (array_type e).
  - intros [= <-]. lia.
  - intros [= <-]. lia.
  - destruct (Z.ltb_spec (elem_len e) cur); [done|]. intros [= <-]. lia.
Qed.

(** [decode] is safe on every nested descriptor smaller than [m]. *)
Definition decode_safe_below (m : nat) (msg : list Z)
    (decode : list qmi_elem_info -> list Z -> Z -> Z -> Z -> outcome dec_result) : Prop :=
  forall a esz, (ei_sizes a < m)%nat -> ei_list_ok esz a ->
    nested_safe msg (decode a) esz (wires a).

(** The variables of the next turn. *)
Definition advanced (size : Z) (l : list qmi_elem_info) (v v' : dec_vars) : Prop :=
  exists k, 0 <= k /\ d_src v' = d_src v + k /\ d_bytes v' = d_bytes v + k
    /\ k + wires (d_ei v') <= wires l /\ ei_list_ok size (d_ei v')
    /\ (ei_sizes (d_ei v') < ei_sizes l)%nat /\ 0 <= d_data_len v'.

(** An element's decoder is safe: it returns, keeps the size of the structure
    and consumes no more than the element may take. *)
Definition elem_safe (c : list Z) (e : qmi_elem_info) (o : outcome dec_result) : Prop :=
  exists c' rc, o = Ret (c', rc) /\ length c' = length c /\ rc <= Z.of_N (ei_wire e).

Lemma dec_basic_safe size e c out_c msg src n :
  ei_ok size e = true -> is_basic (data_type e) = true -> 0 <= n <= elem_count e ->
  0 <= out_c -> out_c + size <= Z.of_nat (length c) -> 0 <= src ->
  src + Z.of_N (ei_wire e) <= Z.of_nat (length msg) -> Z.of_N (ei_wire e) < 2147483648 ->
  elem_safe c e (qmi_decode_basic_elem c (out_c + offset e) msg src n (elem_size e))
  /\ forall c' rc, qmi_decode_basic_elem c (out_c + offset e) msg src n (elem_size e) = Ret (c', rc) ->
       0 <= rc.
Proof.
  intros He Hb Hn Ho Hfit Hs Hsrc Hmax. pose proof (ei_ok_basic _ _ He Hb).
  pose proof (ei_wire_basic _ Hb). destruct (ei_ok_nonneg _ _ He) as (? & ? & ?).
  assert (0 <= n * elem_size e <= Z.of_N (ei_wire e)) as Hnw by nia.
  destruct (decode_basic_safe c (out_c + offset e) msg src n (elem_size e))
    as (c' & -> & Hlc & _); try nia.
  split; [exists c', (n * elem_size e); split_and!; [done|done|lia]|].
  intros c'' rc [= _ <-]. lia.
Qed.

Lemma dec_struct_safe size decode e c out_c msg src n tlv_len level :
  decode_safe_below (ei_size e) msg decode ->
  ei_ok size e = true -> data_type e = QMI_STRUCT -> 0 <= n <= elem_count e ->
  0 <= out_c -> out_c + size <= Z.of_nat (length c) -> 0 <= src ->
  src + Z.of_N (ei_wire e) <= Z.of_nat (length msg) -> Z.of_N (ei_wire e) < 2147483648 ->
  0 <= tlv_len < 4294967296 ->
  elem_safe c e (qmi_decode_struct_elem
    (fun c d s len => match ei_array e with
                      | None => if 0 <? len then Fault else Ret (c, 0)
                      | Some a => decode a c d s len end)
    c (out_c + offset e) src (elem_size e) n tlv_len level).
Proof.
  intros Hdec He Hdt Hn Ho Hfit Hs Hsrc Hmax Ht.
  destruct (ei_ok_struct _ _ He Hdt) as (Hsz & a & Ha & Hla).
  destruct (ei_ok_nonneg _ _ He) as (? & ? & ?). pose proof (wires_nonneg a).
  assert (Z.of_N (ei_wire e) = elem_count e * wires a) as Hwe.
  { rewrite (ei_wire_struct _ _ Hdt Ha). unfold wires. rewrite N2Z.inj_mul, Z2N.id by lia. done. }
  rewrite Ha. pose proof (ei_size_struct _ _ Ha).
  destruct (decode_struct_safe msg (decode a) (elem_size e) (wires a) n c (out_c + offset e)
    src tlv_len level) as (c' & rc & Heq & Hlc & Hrc); try nia.
  { apply Hdec; [lia|done]. }
  exists c', rc. split_and!; [done|done|nia].
Qed.

Lemma dec_string_safe size e c out_c msg src tlv_len level :
  ei_ok size e = true -> data_type e = QMI_STRING -> Forall is_byte msg ->
  0 <= out_c -> out_c + size <= Z.of_nat (length c) -> 0 <= src ->
  src + Z.of_N (ei_wire e) <= Z.of_nat (length msg) -> Z.of_N (ei_wire e) < 2147483648 ->
  0 <= tlv_len ->
  elem_safe c e (qmi_decode_string_elem e c (out_c + offset e) msg src tlv_len level).
Proof.
  intros He Hdt Hb Ho Hfit Hs Hsrc Hmax Ht. destruct (ei_ok_string _ _ He Hdt) as (Hsz & Hfe).
  destruct (ei_ok_nonneg _ _ He) as (? & ? & ?).
  assert (ei_wire e = 2 + Z.to_N (elem_len e))%N as Hw
    by (destruct e; unfold ei_wire; simpl in *; by rewrite Hdt).
  destruct (decode_string_safe e c (out_c + offset e) msg src tlv_len level)
    as (c' & rc & Heq & Hlc & Hrc); try done; try lia.
  exists c', rc. split_and!; [done|done|lia].
Qed.

(** What [dec_element] may return. *)
Definition turn_safe (size : Z) (l : list qmi_elem_info) (c : list Z) (v : dec_vars)
    (o : outcome (list Z * (Z + dec_vars))) : Prop :=
  exists c' r, o = Ret (c', r) /\ length c' = length c
    /\ match r with inl err => err < 0 | inr v' => advanced size l v v' end.

Lemma turn_safe_err size l c c' v err :
  length c' = length c -> err < 0 -> turn_safe size l c v (Ret (c', inl err)).
Proof. intros. exists c', (inl err). done. Qed.

Lemma dec_element_safe size decode l c out_c msg tlv_len level v :
  decode_safe_below (ei_sizes l) msg decode ->
  ei_list_ok size l -> 0 <= out_c -> out_c + size <= Z.of_nat (length c) ->
  Forall is_byte msg -> 0 <= d_src v -> d_src v + wires l <= Z.of_nat (length msg) ->
  0 <= d_bytes v -> d_bytes v + wires l < 2147483648 -> 0 <= tlv_len < 4294967296 ->
  0 <= d_data_len v ->
  turn_safe size l c v (dec_element decode l c out_c msg tlv_len level v).
Proof.
  intros Hdec Hl Ho Hfit Hb Hs Hsrc Hby Hmax Ht Hdl. unfold dec_element.
  destruct (dec_opt_flag_safe size l c out_c) as (l1 & c1 & -> & Hlen1 & Hok1 & Hw1 & Hz1); try done.
  cbn [mbind outcome_bind].
  destruct (dec_array_len_safe size l1 c1 out_c msg v tlv_len)
    as (l2 & c2 & v2 & t & k & -> & Hlen2 & (Hok2 & Hw2 & Hz2) & Ht2 & Hdl2 & Hk & Hkw & Hsv & Hbv);
    try done; try lia.
  cbn [mbind outcome_bind].
  destruct (ei_list_ok_head size l2 Hok2) as (e & l3 & -> & He). cbn [ei_head mbind outcome_bind].
  destruct (ei_ok_nonneg _ _ He) as (Hoff & Hel & Hes).
  destruct (dec_data_len e (d_data_len v2)) as [n|] eqn:Hn; [|apply turn_safe_err; [lia|done]].
  pose proof (dec_data_len_range _ _ _ Hel Hdl2 Hn) as Hnr. rewrite wires_cons in *.
  pose proof (wires_nonneg l3). simpl in Hz2. pose proof (ei_size_pos e).
  assert (decode_safe_below (ei_size e) msg decode) as Hdec'
    by (intros a esz Ha Hla; apply Hdec; [lia|done]).
  assert (forall c' rc, data_type e <> QMI_EOTI -> length c' = length c2 ->
    rc <= Z.of_N (ei_wire e) -> 0 <= rc ->
    turn_safe size l c v (Ret (c', inr (MkDec (drop 1 (e :: l3)) n (d_src v2 + rc)
                                          (u32 (d_bytes v2 + rc)))))) as Hnext.
  { intros c' rc Hne Hlc Hrc Hrc0. eexists _, _. split_and!; [reflexivity|lia|].
    exists (k + rc). simpl. rewrite drop_0, u32_small by lia.
    split_and!; try lia. by apply (ei_list_ok_next _ e). }
  destruct (is_basic (data_type e)) eqn:Hbt.
  { destruct (dec_basic_safe size e c2 out_c msg (d_src v2) n) as [(c' & rc & Heq & Hlc & Hrc) Hp];
      try done; try lia.
    pose proof (Hp _ _ Heq). rewrite Heq. by destruct (data_type e); try done; apply Hnext. }
  destruct (data_type e) eqn:Hdt; try done; try (apply turn_safe_err; [lia|done]).
  - destruct (dec_struct_safe size decode e c2 out_c msg (d_src v2) n t (level + 1))
      as (c' & rc & -> & Hlc & Hrc); try done; try lia.
    cbn [mbind outcome_bind fst snd]. destruct (Z.ltb_spec rc 0); [apply turn_safe_err; lia|].
    by apply Hnext.
  - destruct (dec_string_safe size e c2 out_c msg (d_src v2) t level)
      as (c' & rc & -> & Hlc & Hrc); try done; try lia.
    cbn [mbind outcome_bind fst snd]. destruct (Z.ltb_spec rc 0); [apply turn_safe_err; lia|].
    by apply Hnext.
Qed.

(** ** The loop *)

Lemma nested_loop_safe msg fuel : forall ei size c out_c len level v,
  2 <= level -> Forall is_byte msg -> Z.of_nat (length msg) < 2147483648 ->
  ei_list_ok size (d_ei v) -> (ei_sizes (d_ei v) < fuel)%nat ->
  0 <= out_c -> out_c + size <= Z.of_nat (length c) -> 0 <= len < 4294967296 ->
  0 <= d_src v -> d_src v + wires (d_ei v) <= Z.of_nat (length msg) ->
  0 <= d_bytes v -> d_bytes v + wires (d_ei v) < 2147483648 -> 0 <= d_data_len v ->
  exists c' rc, qmi_decode_loop fuel ei c out_c msg len level v = Ret (c', rc)
    /\ length c' = length c /\ rc <= d_bytes v + wires (d_ei v).
Proof.
  induction fuel as [|fuel IH];
    intros ei size c out_c len level v Hlv Hb Hm Hl Hf Ho Hfit Hlen Hs Hsrc Hby Hmax Hdl; [lia|].
  cbn [qmi_decode_loop]. pose proof (wires_nonneg (d_ei v)).
  destruct (Z.leb_spec len (d_bytes v)).
  { exists c, (s32 (d_bytes v)). rewrite s32_small by lia. split_and!; [done|done|lia]. }
  rewrite (proj2 (Z.eqb_neq level 1)) by lia.
  destruct (ei_list_ok_head _ _ Hl) as (e & l0 & Hd & He).
  assert (ei_head (d_ei v) = Ret e) as -> by (by rewrite Hd). cbn [mbind outcome_bind].
  rewrite (proj2 (Z.leb_le 2 level)) by lia. cbn [andb].
  case_bool_decide as Heo.
  { exists c, (s32 (d_bytes v)). rewrite s32_small by lia. split_and!; [done|done|lia]. }
  destruct (dec_element_safe size
    (fun a c d s len => qmi_decode_loop fuel a c d msg len (level + 1) (MkDec a 0 s 0))
    (d_ei v) c out_c msg (u32 (len - d_bytes v)) level v) as (c1 & r & Heq & Hl1 & Hr);
    try done; try apply u32_range.
  { intros a esz Hsz Hla c0 d s len0 Hd0 Hfit0 Hs0 Hsrc0 Hlen0.
    apply (IH a esz); simpl; try done; lia. }
  rewrite Heq. cbn [mbind outcome_bind]. destruct r as [err|v'].
  { exists c1, err. split_and!; [done|done|lia]. }
  destruct Hr as (k & Hk & Hsv & Hbv & Hkw & Hok' & Hsz' & Hdl').
  destruct (IH ei size c1 out_c len level v') as (c' & rc & -> & Hl' & Hrc); try done; try lia.
  exists c', rc. split_and!; [done|lia|lia].
Qed.

Lemma find_ei_safe size t : forall l,
  ei_list_ok size l ->
  exists r, find_ei l t = Ret r
    /\ match r with Some l' => later size l l' | None => True end.
Proof.
  induction l as [|e l IH]; intros Hl; [by destruct Hl|]. cbn [find_ei]. case_decide as Hd.
  { by exists None. }
  destruct (tlv_type e =? u8 t).
  { exists (Some (e :: l)). split; [done|]. split_and!; [done|lia|lia]. }
  destruct (IH (ei_list_ok_next _ _ _ Hl Hd)) as (r & -> & Hr). exists r. split; [done|].
  destruct r as [l'|]; [|done]. destruct Hr as (? & ? & ?). unfold later. rewrite wires_cons. simpl.
  split_and!; [done|lia|lia].
Qed.

Lemma tlv_len_range lo hi : is_byte lo -> is_byte hi -> 0 <= Z.lor lo (Z.shiftl hi 8) < 65536.
Proof.
  intros Hlo Hhi. destruct (instance_word_fields lo hi) as [He _]; [done|unfold is_byte in *; lia|].
  unfold instance_word in He. rewrite Z.lor_comm, He. unfold is_byte in *. lia.
Qed.

Lemma dec_tlv_safe size ei msg v :
  Forall is_byte msg -> ei_list_ok size ei -> 0 <= d_src v ->
  d_src v + 3 <= Z.of_nat (length msg) -> 0 <= d_bytes v < 2147483648 ->
  exists r, dec_tlv ei msg v = Ret r
    /\ match r with
       | inl err => err < 0
       | inr (v', None) => exists k, 3 <= k < 65539 /\ d_bytes v' = d_bytes v + k /\ d_src v' = d_src v + k
           /\ d_data_len v' = d_data_len v
       | inr (v', Some (l, tlv_len)) => d_bytes v' = d_bytes v + 3 /\ d_src v' = d_src v + 3
           /\ d_data_len v' = d_data_len v /\ later size ei l /\ 0 <= tlv_len < 65536
       end.
Proof.
  intros Hb Hl Hs Hfit Hby. unfold dec_tlv, TLV_HDR. rewrite load_ret by lia.
  cbn [mbind outcome_bind].
  assert (length (take (Z.to_nat 3) (drop (Z.to_nat (d_src v)) msg)) = 3%nat) as Hlen
    by (rewrite length_take, length_drop; lia).
  assert (Forall is_byte (take (Z.to_nat 3) (drop (Z.to_nat (d_src v)) msg))) as Hbs
    by (by apply Forall_take, Forall_drop).
  destruct (take _ _) as [|t [|lo [|hi [|]]]]; try done.
  rewrite !list.Forall_cons in Hbs. destruct Hbs as (Ht & Hlo & Hhi & _). pose proof (tlv_len_range lo hi Hlo Hhi) as Hr.
  destruct (find_ei_safe size t ei Hl) as (r & -> & Hf). cbn [mbind outcome_bind].
  destruct r as [l|].
  - eexists. split; [reflexivity|]. simpl. rewrite u32_small by lia. done.
  - destruct (t <? _); [by exists (inl (- EINVAL))|]. eexists. split; [reflexivity|]. simpl.
    exists (3 + Z.lor lo (Z.shiftl hi 8)). rewrite !u32_small by (rewrite ?u32_small; lia).
    split_and!; try lia.
Qed.

Lemma level1_loop_safe msg base size ei len fuel : forall c out_c v,
  Forall is_byte msg -> Z.of_nat (length msg) < 2147483648 - 65536 -> ei_list_ok size ei ->
  (Z.to_nat (len - d_bytes v) + ei_sizes ei < fuel)%nat ->
  0 <= out_c -> out_c + size <= Z.of_nat (length c) ->
  0 <= base -> 0 <= len -> base + len + 3 + wires ei <= Z.of_nat (length msg) ->
  d_src v = base + d_bytes v -> 0 <= d_bytes v < 2147483648 -> 0 <= d_data_len v ->
  exists c' rc, qmi_decode_loop fuel ei c out_c msg len 1 v = Ret (c', rc) /\ length c' = length c.
Proof.
  induction fuel as [|fuel IH];
    intros c out_c v Hb Hm Hl Hf Ho Hfit Hbase Hlen Hmsg Hsrc Hby Hdl; [lia|].
  cbn [qmi_decode_loop]. pose proof (wires_nonneg ei).
  destruct (Z.leb_spec len (d_bytes v)).
  { by exists c, (s32 (d_bytes v)). }
  change (1 =? 1) with true. cbv iota.
  destruct (dec_tlv_safe size ei msg v) as (r & -> & Hr); try done; try lia.
  cbn [mbind outcome_bind]. destruct r as [err|[v1 [[l tlv_len]|]]].
  - by exists c, err.
  - destruct Hr as (Hb1 & Hs1 & Hd1 & (Hok & Hw & Hsz) & Ht).
    destruct (dec_element_safe size
      (fun a c d s len => qmi_decode_loop fuel a c d msg len (1 + 1) (MkDec a 0 s 0))
      l c out_c msg tlv_len 1 v1) as (c1 & r & Heq & Hl1 & Hr); try done; try lia.
    { intros a esz Hsza Hla c0 d s len0 Hd0 Hfit0 Hs0 Hsrc0 Hlen0.
      apply (nested_loop_safe msg fuel a esz); simpl; try done; lia. }
    rewrite Heq. cbn [mbind outcome_bind]. destruct r as [err|v'].
    { by exists c1, err. }
    destruct Hr as (k & Hk & Hsv & Hbv & Hkw & Hok' & Hsz' & Hdl'). pose proof (wires_nonneg (d_ei v')).
    destruct (IH c1 out_c v') as (c' & rc & -> & Hl'); try done; try lia.
    exists c', rc. split; [done|lia].
  - destruct Hr as (k & Hk & Hb1 & Hs1 & Hd1). apply IH; try done; try lia.
Qed.

(** ** Whole messages *)

Lemma decode_message_safe c buf data_len type id ei :
  ei_list_ok (Z.of_nat (length c)) ei -> Forall is_byte buf -> 7 <= data_len ->
  data_len + 3 + wires ei <= Z.of_nat (length buf) -> Z.of_nat (length buf) < 2147418112 ->
  exists rc c' txn, qmi_decode_message c buf data_len type id (Some ei) = Ret (rc, c', txn)
    /\ length c' = length c.
Proof.
  intros Hok Hb Hlen Hfit Hmax. unfold qmi_decode_message. pose proof (wires_nonneg ei).
  destruct (Z.eqb_spec data_len 0); [lia|]. unfold sizeof_qmi_header. rewrite load_ret by lia.
  cbn [mbind outcome_bind].
  destruct (negb _); [by eexists _, _, _|]. destruct (negb _); [by eexists _, _, _|].
  rewrite u32_small by lia. unfold qmi_decode.
  destruct (level1_loop_safe buf 7 (Z.of_nat (length c)) ei (data_len - 7)
    (qmi_fuel (Some ei) (data_len - 7)) c 0 (MkDec ei 0 7 0)) as (c' & rc & -> & Hl');
    unfold qmi_fuel; cbn [d_bytes d_src d_data_len]; try done; try lia.
  cbn [mbind outcome_bind]. by eexists _, _, _.
Qed.

(** ** Invariants of the structure

    A property [I] of the structure that a store of bytes at [lo] or behind it
    keeps is kept by decoding at [lo] or behind it. *)

Section invariant.
Context (I : list Z -> Prop) (lo : Z) (msg : list Z).
Context (I_store : forall c d bs c', I c -> lo <= d -> Forall is_byte bs -> store c d bs = Ret c' -> I c').
Context (Hmsg : Forall is_byte msg).

Lemma copy_loop_inv n : forall dst d s sz rc dst' rc',
  I dst -> lo <= d -> 0 <= sz -> copy_loop n dst d msg s sz rc = Ret (dst', rc') -> I dst'.
Proof.
  induction n as [|n IH]; intros dst d s sz rc dst' rc' Hd Hlo Hsz; cbn [copy_loop]; [by intros [= <- _]|].
  destruct (load msg s sz) as [bs| |] eqn:Hld; try done. cbn [mbind outcome_bind].
  destruct (store dst d bs) as [dst1| |] eqn:Hst; try done. cbn [mbind outcome_bind].
  apply IH; [|lia|done]. eapply I_store; [exact Hd|done|by eapply load_bytes|exact Hst].
Qed.

Lemma decode_basic_inv dst d s n sz dst' rc :
  I dst -> lo <= d -> 0 <= sz -> qmi_decode_basic_elem dst d msg s n sz = Ret (dst', rc) -> I dst'.
Proof.
  intros Hd Hlo Hsz. unfold qmi_decode_basic_elem.
  destruct (copy_loop _ _ _ _ _ _ _) as [[d1 r1]| |] eqn:E; try done. cbn [mbind outcome_bind].
  intros [= <- _]. by eapply copy_loop_inv in E.
Qed.

Definition keeps_inv (decode : list Z -> Z -> Z -> Z -> outcome dec_result) : Prop :=
  forall c d s len c' rc, I c -> lo <= d -> decode c d s len = Ret (c', rc) -> I c'.

Lemma decode_struct_inv decode c dst src esz n tlv_len level c' rc :
  keeps_inv decode -> I c -> lo <= dst -> 0 <= esz ->
  qmi_decode_struct_elem decode c dst src esz n tlv_len level = Ret (c', rc) -> I c'.
Proof.
  intros Hk. unfold qmi_decode_struct_elem. intros Hc Hlo Hesz.
  assert (forall k c dst src db i c' db' i', I c -> lo <= dst ->
    decode_struct_loop decode k c dst src esz tlv_len db i = Ret (c', db', i') -> I c') as Hloop.
  { induction k as [|k IH]; intros c1 d1 s1 db i c2 db' i' Hc1 Hd1; cbn [decode_struct_loop];
      [by intros [= <- _ _]|].
    destruct (u32 db <? tlv_len); [|by intros [= <- _ _]].
    destruct (decode c1 d1 s1 _) as [[c3 r3]| |] eqn:E; try done. cbn [mbind outcome_bind].
    pose proof (Hk _ _ _ _ _ _ Hc1 Hd1 E). destruct (r3 <? 0); [by intros [= <- _ _]|].
    apply IH; [done|lia]. }
  destruct (decode_struct_loop _ _ _ _ _ _ _ _ _) as [[[c1 db] i]| |] eqn:E; try done.
  cbn [mbind outcome_bind]. apply Hloop in E; [|done|done].
  destruct (db <? 0); [by intros [= <- _]|]. by destruct (_ || _); intros [= <- _].
Qed.

Lemma decode_word_bytes old s sz word rc :
  qmi_decode_basic_elem (le_bytes 4 old) 0 msg s 1 sz = Ret (word, rc) -> Forall is_byte word.
Proof.
  unfold qmi_decode_basic_elem. destruct (copy_loop _ _ _ _ _ _ _) as [[d1 r1]| |] eqn:E; try done.
  cbn [mbind outcome_bind]. intros [= <- _]. apply copy_loop_bytes in E; [done|apply le_bytes_byte|done].
Qed.

Lemma decode_string_inv size e c dst src tlv_len level c' rc :
  ei_ok size e = true -> I c -> lo <= dst -> 0 <= tlv_len ->
  qmi_decode_string_elem e c dst msg src tlv_len level = Ret (c', rc) -> I c'.
Proof.
  intros He Hc Hlo Ht. destruct (ei_ok_nonneg _ _ He) as (_ & _ & Hsz). unfold qmi_decode_string_elem.
  destruct (if level =? 1 then _ else _) as [[sl db]| |] eqn:Esl; try done.
  assert (0 <= sl) as Hsl.
  { destruct (level =? 1); [by injection Esl as <- _|].
    destruct (qmi_decode_basic_elem _ _ _ _ _ _) as [[w r1]| |] eqn:Ew; try done.
    injection Esl as <- _. apply decode_word_bytes in Ew. by apply le_val_range. }
  cbn [mbind outcome_bind]. clear Esl.
  destruct (elem_len e <? sl); [by intros [= <- _]|]. destruct (tlv_len <? sl); [by intros [= <- _]|].
  destruct (qmi_decode_basic_elem _ _ _ _ _ _) as [[c1 r1]| |] eqn:E; try done. cbn [mbind outcome_bind].
  destruct (store c1 (dst + sl) [0]) as [c2| |] eqn:Es; try done. cbn [mbind outcome_bind].
  assert (I c1) as Hc1 by (eapply decode_basic_inv; [exact Hc|exact Hlo|exact Hsz|exact E]).
  intros ?; simplify_eq. eapply I_store; [exact Hc1| | |exact Es]; [lia|].
  apply bytes_check. reflexivity.
Qed.

Lemma dec_element_inv size decode l c out_c tlv_len level v c' r :
  ei_list_ok size l -> (forall a sz, ei_list_ok sz a -> keeps_inv (decode a)) ->
  I c -> lo <= out_c -> 0 <= tlv_len ->
  dec_element decode l c out_c msg tlv_len level v = Ret (c', r) ->
  I c' /\ match r with inl _ => True | inr v' => ei_list_ok size (d_ei v') end.
Proof.
  intros Hl Hk Hc Hlo Ht. unfold dec_element, dec_opt_flag, dec_array_len.
  destruct (ei_list_ok_head _ _ Hl) as (e1 & k1 & -> & He1). cbn [ei_head mbind outcome_bind].
  destruct (ei_ok_nonneg _ _ He1) as (Ho1 & _ & _).
  destruct (if decide (data_type e1 = QMI_OPT_FLAG) then _ else _) as [[l1 c1]| |] eqn:E1; try done.
  assert (I c1 /\ ei_list_ok size l1) as [Hc1 Hl1].
  { destruct (decide _) as [Hd|]; [|by injection E1 as <- <-].
    destruct (store c _ [1]) as [c2| |] eqn:Es; try done. injection E1 as <- <-.
    split; [|apply (ei_list_ok_next _ _ _ Hl); by rewrite Hd].
    eapply I_store; [exact Hc| | |exact Es]; [lia|]. apply bytes_check. reflexivity. }
  cbn [mbind outcome_bind]. clear E1 Hl. destruct (ei_list_ok_head _ _ Hl1) as (e2 & k2 & -> & He2).
  cbn [ei_head mbind outcome_bind]. destruct (ei_ok_nonneg _ _ He2) as (Ho2 & _ & _).
  destruct (if decide (data_type e2 = QMI_DATA_LEN) then _ else _) as [[[[l2 c2] v2] t2]| |] eqn:E2; try done.
  assert (I c2 /\ ei_list_ok size l2 /\ 0 <= t2) as (Hc2 & Hl2 & Ht2).
  { destruct (decide _) as [Hd|]; [|by injection E2 as <- <- <- <-].
    destruct (qmi_decode_basic_elem _ _ _ _ _ _) as [[w r1]| |] eqn:Ew; try done. cbn [mbind outcome_bind] in E2.
    destruct (store c1 _ w) as [c3| |] eqn:Es; try done. injection E2 as <- <- <- <-.
    split_and!; [|apply (ei_list_ok_next _ _ _ Hl1); by rewrite Hd|apply u32_range].
    eapply I_store; [exact Hc1| | |exact Es]; [lia|exact (decode_word_bytes _ _ _ _ _ Ew)]. }
  cbn [mbind outcome_bind]. clear E2 Hl1. destruct (ei_list_ok_head _ _ Hl2) as (e & k & -> & He).
  cbn [ei_head mbind outcome_bind]. destruct (ei_ok_nonneg _ _ He) as (Ho & _ & Hsz).
  destruct (dec_data_len e (d_data_len v2)) as [n|]; [|by intros [= <- <-]].
  destruct (data_type e) eqn:Hdt; try (by intros [= <- <-]).
  all: match goal with
  | |- context [qmi_decode_struct_elem ?f] => idtac
  | |- context [qmi_decode_string_elem] => idtac
  | |- _ => destruct (qmi_decode_basic_elem _ _ _ _ _ _) as [[c3 r3]| |] eqn:E; try done;
      cbn [mbind outcome_bind fst snd]; intros ?; simplify_eq; split; [eapply decode_basic_inv in E; done || lia|apply (ei_list_ok_next _ _ _ Hl2); congruence]
  end.
  - destruct (qmi_decode_struct_elem _ _ _ _ _ _ _ _) as [[c3 r3]| |] eqn:E; try done.
    assert (I c3).
    { destruct (ei_ok_struct _ _ He Hdt) as (_ & a & Ha & Hoka).
      eapply decode_struct_inv; [|exact Hc2| |exact Hsz|exact E]; [|lia]. rewrite Ha. by eapply Hk. }
    cbn [mbind outcome_bind fst snd]. destruct (r3 <? 0); intros ?; simplify_eq; [done|].
    split; [done|]. apply (ei_list_ok_next _ _ _ Hl2); congruence.
  - destruct (qmi_decode_string_elem _ _ _ _ _ _ _) as [[c3 r3]| |] eqn:E; try done.
    eapply decode_string_inv in E; [|done|done|lia|done].
    cbn [mbind outcome_bind fst snd]. destruct (r3 <? 0); intros ?; simplify_eq; [done|].
    split; [done|]. apply (ei_list_ok_next _ _ _ Hl2); congruence.
Qed.


Lemma dec_tlv_inv size ei v r :
  ei_list_ok size ei -> dec_tlv ei msg v = Ret (inr r) ->
  d_ei (fst r) = d_ei v
  /\ match snd r with Some (l, tl) => ei_list_ok size l /\ 0 <= tl | None => True end.
Proof.
  intros Hei. unfold dec_tlv. destruct (load msg (d_src v) TLV_HDR) as [h| |] eqn:El; try done.
  cbn [mbind outcome_bind]. pose proof (load_bytes _ _ _ _ Hmsg El) as Hh.
  destruct h as [|t [|x [|y [|]]]]; try done. rewrite !list.Forall_cons in Hh. destruct Hh as (_ & Hx & Hy & _).
  destruct (find_ei_safe size t ei Hei) as (f & -> & Hf). cbn [mbind outcome_bind].
  destruct f as [l|]; [|by destruct (t <? _); intros [= <-]].
  intros [= <-]. split; [done|]. simpl. split; [apply Hf|by apply tlv_len_range].
Qed.

Lemma decode_loop_inv fuel : forall ei size c out_c len level v c' rc,
  ei_list_ok size ei -> ei_list_ok size (d_ei v) -> I c -> lo <= out_c ->
  qmi_decode_loop fuel ei c out_c msg len level v = Ret (c', rc) -> I c'.
Proof.
  induction fuel as [|fuel IH]; intros ei size c out_c len level v c' rc Hei Hv Hc Hlo; [done|].
  cbn [qmi_decode_loop]. destruct (len <=? d_bytes v); [by intros [= <- _]|].
  set (decode := fun a c d s len => qmi_decode_loop fuel a c d msg len (level + 1) (MkDec a 0 s 0)).
  assert (forall l tl v, ei_list_ok size l -> 0 <= tl ->
    (r ← dec_element decode l c out_c msg tl level v;
     match r with
     | (c, inl err) => Ret (c, err)
     | (c, inr v') => qmi_decode_loop fuel ei c out_c msg len level v'
     end) = Ret (c', rc) -> I c') as Helem.
  { intros l tl v1 Hl Htl. destruct (dec_element _ _ _ _ _ _ _ _) as [[c1 r1]| |] eqn:E; try done.
    eapply dec_element_inv in E as [Hc1 Hr1]; [|done| |done|done|done].
    - cbn [mbind outcome_bind]. destruct r1; [by intros [= <- _]|by eapply IH].
    - intros a sz Ha c2 d s k c3 r3 Hc2 Hd. by eapply IH. }
  destruct (level =? 1).
  - destruct (dec_tlv ei msg v) as [[err|[v1 [[l tl]|]]]| |] eqn:Et; try done; cbn [mbind outcome_bind].
    + by intros [= <- _].
    + destruct (dec_tlv_inv _ _ _ _ Hei Et) as [_ [? ?]]. by apply Helem.
    + destruct (dec_tlv_inv _ _ _ _ Hei Et) as [Hv1 _]. eapply IH; try done. simpl in Hv1. by rewrite Hv1.
  - destruct (ei_head (d_ei v)) as [e| |]; try done. cbn [mbind outcome_bind].
    destruct (_ && _); [by intros [= <- _]|]. apply Helem; [done|apply u32_range].
Qed.
End invariant.

Lemma decode_message_bytes size c buf data_len type id ei rc c' txn :
  ei_list_ok size ei -> Forall is_byte c -> Forall is_byte buf ->
  qmi_decode_message c buf data_len type id (Some ei) = Ret (rc, c', txn) -> Forall is_byte c'.
Proof.
  intros Hei Hc Hb. unfold qmi_decode_message.
  destruct (data_len =? 0); [by intros [= _ <- _]|].
  destruct (load buf 0 _) as [bs| |]; try done. cbn [mbind outcome_bind].
  destruct (negb _); [by intros [= _ <- _]|]. destruct (negb _); [by intros [= _ <- _]|].
  unfold qmi_decode. destruct (qmi_decode_loop _ _ _ _ _ _ _ _) as [[c1 r1]| |] eqn:E; try done.
  cbn [mbind outcome_bind]. intros [= _ <- _].
  eapply (decode_loop_inv (Forall is_byte) 0) in E; try done.
  intros c2 d bs2 c3 ? _ ? Hs. by eapply store_bytes in Hs.
Qed.
