(* ===== verification/QmiEncode.v ===== *)
(** * The QMI encoder against a reference

    [enc_ref] builds the bytes of a message as a list, without buffer, pointers
    or room checks.  [qmi_encode_refines] shows that [qmi_encode] writes exactly
    those bytes, and nothing else, whenever they fit the buffer. *)

From Stdlib Require Import ZArith Lia.
From stdpp Require Import base list numbers.
From S2P Require Import Prelude Packet QmiCodec QmiDecode.

(** ** The reference encoder *)

Definition tlv_bytes (t : Z) (value : list Z) : list Z :=
  u8 t :: le_bytes 2 (Z.of_nat (length value)) ++ value.

(** [n] structures in a row; [nested] encodes the one at an offset. *)
Fixpoint struct_ref (nested : Z -> outcome (option (list Z))) (n : nat) (src esz : Z)
    : outcome (option (list Z)) :=
  match n with
  | O => Ret (Some [])
  | S n' =>
      r ← nested src;
      match r with
      | None => Ret None
      | Some bs =>
          rest ← struct_ref nested n' (src + esz) esz;
          Ret (option_map (app bs) rest)
      end
  end.

(** A string: with its length in front inside a structure. *)
Definition string_ref (e : qmi_elem_info) (c : list Z) (src level : Z) : outcome (option (list Z)) :=
  len ← strlen c src;
  if elem_len e <? len then Ret None
  else if negb (elem_size e =? 1) then Fault
  else
    s ← load c src len;
    Ret (Some (if level =? 1 then s
               else take (if elem_len e <=? 256 then 1%nat else 2%nat) (le_bytes 4 len) ++ s)).

(** The bytes from the element [l] starts at; [pend] are the bytes of the TLV
    under way at level 1.  [None] is a structure that cannot be encoded. *)
Fixpoint enc_ref (fuel : nat) (l : list qmi_elem_info) (c : list Z) (in_c level n : Z) (pend : list Z)
    : outcome (option (list Z)) :=
  match fuel, l with
  | O, _ => OutOfFuel
  | S _, [] => Fault
  | S fuel', e :: l' =>
      if decide (data_type e = QMI_EOTI) then
        match pend with [] => Ret (Some []) | _ => Fault end
      else
        match enc_data_len e n with
        | None => Ret None
        | Some n =>
            let src := in_c + offset e in
            let emit bs l n :=
              rest ← enc_ref fuel' l c in_c level n [];
              Ret (option_map (app (if level =? 1 then tlv_bytes (tlv_type e) (pend ++ bs) else bs)) rest) in
            let emit_opt (o : outcome (option (list Z))) :=
              r ← o;
              match r with None => Ret None | Some bs => emit bs l' n end in
            match data_type e with
            | QMI_OPT_FLAG =>
                flag ← load c src 1;
                if decide (flag = [0])
                then l'' ← skip_to_next_elem l level; enc_ref fuel' l'' c in_c level n pend
                else enc_ref fuel' l' c in_c level n pend
            | QMI_DATA_LEN =>
                bs ← load c src (elem_size e);
                word ← store (le_bytes 4 n) 0 bs;
                let b := take (if elem_size e =? 1 then 1%nat else 2%nat) word in
                if le_val word =? 0
                then l'' ← skip_to_next_elem l' level; emit b l'' 0
                else if level =? 1 then enc_ref fuel' l' c in_c level (le_val word) (pend ++ b)
                else rest ← enc_ref fuel' l' c in_c level (le_val word) [];
                     Ret (option_map (app b) rest)
            | QMI_STRUCT =>
                emit_opt (struct_ref
                  (fun s => match ei_array e with
                            | None => Ret (Some [])
                            | Some a => enc_ref fuel' a c s (level + 1) 0 []
                            end) (Z.to_nat n) src (elem_size e))
            | QMI_STRING => emit_opt (string_ref e c src level)
            | _ =>
                if (n <? 0) || (elem_size e <? 0) then Fault
                else bs ← load c src (n * elem_size e); emit bs l' n
            end
        end
  end.

(** ** Writing into the buffer *)

(** [buf'] is [buf] with [bs] at [d]. *)
Definition written (buf : list Z) (d : Z) (bs buf' : list Z) : Prop :=
  length buf' = length buf
  /\ (forall k : nat, d <= Z.of_nat k < d + Z.of_nat (length bs) -> buf' !! k = bs !! (k - Z.to_nat d)%nat)
  /\ (forall k : nat, Z.of_nat k < d \/ d + Z.of_nat (length bs) <= Z.of_nat k -> buf' !! k = buf !! k).

Lemma written_nil buf d : written buf d [] buf.
Proof. split_and!; [done|simpl; lia|done]. Qed.

Lemma store_written buf d bs buf' : store buf d bs = Ret buf' -> written buf d bs buf'.
Proof.
  intros Hs. split_and!.
  - by apply (length_store _ _ _ _ Hs).
  - intros k Hk. by apply (store_lookup_in _ _ _ _ _ Hs).
  - intros k Hk. by apply (store_lookup_other _ _ _ _ _ Hs).
Qed.

Lemma written_app buf d bs1 bs2 buf1 buf2 :
  0 <= d -> written buf d bs1 buf1 -> written buf1 (d + Z.of_nat (length bs1)) bs2 buf2 ->
  written buf d (bs1 ++ bs2) buf2.
Proof.
  intros Hd (L1 & I1 & O1) (L2 & I2 & O2). unfold written. rewrite length_app. split_and!.
  - congruence.
  - intros k Hk. destruct (decide (Z.of_nat k < d + Z.of_nat (length bs1))).
    + rewrite O2 by lia. rewrite I1 by lia. rewrite lookup_app_l; [done|lia].
    + rewrite I2 by lia. rewrite lookup_app_r by lia. f_equal. lia.
  - intros k Hk. rewrite O2 by lia. apply O1. lia.
Qed.

Lemma written_load buf d bs buf' :
  0 <= d -> d + Z.of_nat (length bs) <= Z.of_nat (length buf) -> written buf d bs buf' ->
  load buf' d (Z.of_nat (length bs)) = Ret bs.
Proof.
  intros Hd Hfit (L & I & O). rewrite load_ret by lia. f_equal. apply list_eq. intros i.
  destruct (decide (i < length bs)%nat).
  - rewrite lookup_take_lt, lookup_drop by lia. rewrite I by lia. f_equal. lia.
  - rewrite !lookup_ge_None_2; [done|lia|rewrite length_take; lia].
Qed.

(** The copy loop writes what it reads. *)
Lemma copy_loop_written n : forall dst d src s sz rc bs,
  0 <= d -> 0 <= s -> 0 <= sz -> 0 <= rc ->
  load src s (Z.of_nat n * sz) = Ret bs -> d + Z.of_nat n * sz <= Z.of_nat (length dst) ->
  rc + Z.of_nat n * sz < 2147483648 ->
  exists dst', copy_loop n dst d src s sz rc = Ret (dst', rc + Z.of_nat n * sz)
    /\ written dst d bs dst'.
Proof.
  induction n as [|n IH]; intros dst d src s sz rc bs Hd Hs Hsz Hrc Hld Hfit Hmax; cbn [copy_loop].
  { exists dst. apply load_ret_inv in Hld as (_ & _ & _ & ->). simpl.
    split; [do 2 f_equal; lia|apply written_nil]. }
  apply load_ret_inv in Hld as (_ & _ & Hl & ->).
  rewrite load_ret by nia. cbn [mbind outcome_bind].
  set (b1 := take (Z.to_nat sz) (drop (Z.to_nat s) src)).
  assert (Z.of_nat (length b1) = sz) as Hb1 by (unfold b1; rewrite length_take, length_drop; nia).
  destruct (store dst d b1) as [dst1| |] eqn:Hst;
    [|rewrite store_ret in Hst by nia; done|rewrite store_ret in Hst by nia; done].
  cbn [mbind outcome_bind]. pose proof (store_written _ _ _ _ Hst) as Hw1.
  rewrite u32_small by nia.
  destruct (IH dst1 (d + sz) src (s + sz) sz (rc + sz)
    (take (Z.to_nat (Z.of_nat n * sz)) (drop (Z.to_nat (s + sz)) src))) as (dst' & Heq & Hw2); try nia.
  { rewrite load_ret by nia. done. }
  { rewrite (length_store _ _ _ _ Hst). nia. }
  exists dst'. rewrite Heq. split; [do 2 f_equal; lia|].
  replace (take (Z.to_nat (Z.of_nat (S n) * sz)) (drop (Z.to_nat s) src))
    with (b1 ++ take (Z.to_nat (Z.of_nat n * sz)) (drop (Z.to_nat (s + sz)) src)).
  - eapply written_app; [done|done|]. by rewrite Hb1.
  - unfold b1. replace (Z.to_nat (Z.of_nat (S n) * sz)) with (Z.to_nat sz + Z.to_nat (Z.of_nat n * sz))%nat by nia.
    rewrite <- take_take_drop, drop_drop. do 3 f_equal. lia.
Qed.

(** ** Payloads *)

Lemma encode_basic_written dst d src s n sz bs :
  0 <= n -> 0 <= sz -> 0 <= d -> load src s (n * sz) = Ret bs ->
  d + Z.of_nat (length bs) <= Z.of_nat (length dst) -> Z.of_nat (length bs) < 2147483648 ->
  exists dst', qmi_encode_basic_elem dst d src s n sz = Ret (dst', Z.of_nat (length bs))
    /\ written dst d bs dst'.
Proof.
  intros Hn Hsz Hd Hld Hfit Hmax. unfold qmi_encode_basic_elem.
  pose proof (length_load _ _ _ _ Hld) as Hl. pose proof Hld as (Hs & _)%load_ret_inv.
  assert (Z.of_nat (Z.to_nat n) = n) as Hzn by lia.
  destruct (copy_loop_written (Z.to_nat n) dst d src s sz 0 bs) as (dst' & -> & Hw);
    rewrite ?Hzn; try done; try lia.
  exists dst'. cbn [mbind outcome_bind]. rewrite Z.add_0_l, Hl, s32_small by lia. done.
Qed.

Lemma strlen_loop_range m : forall k n, strlen_loop m k = Ret n -> k <= n < k + Z.of_nat (length m).
Proof.
  induction m as [|b m IH]; intros k n; cbn [strlen_loop]; [done|].
  destruct (b =? 0); [intros [= <-]; simpl; lia|]. intros Hn%IH. simpl. lia.
Qed.

Lemma strlen_range c src n : strlen c src = Ret n -> 0 <= src /\ 0 <= n /\ src + n < Z.of_nat (length c).
Proof.
  unfold strlen. destruct (Z.leb_spec 0 src); [|done]. intros Hn%strlen_loop_range.
  rewrite length_drop in Hn. lia.
Qed.

Lemma encode_string_written e c src level room buf d bs :
  string_ref e c src level = Ret (Some bs) ->
  Z.of_nat (length bs) + 3 <= room < 2147483648 -> 0 <= d ->
  d + Z.of_nat (length bs) <= Z.of_nat (length buf) ->
  exists buf', qmi_encode_string_elem e buf d c src room level = Ret (buf', Z.of_nat (length bs))
    /\ written buf d bs buf'.
Proof.
  unfold string_ref, qmi_encode_string_elem. destruct (strlen c src) as [len| |] eqn:Hlen; try done.
  cbn [mbind outcome_bind]. destruct (strlen_range _ _ _ Hlen) as (Hs & Hl0 & Hl).
  destruct (elem_len e <? len) eqn:Hlong; [done|].
  destruct (Z.eqb_spec (elem_size e) 1) as [Hsz|]; [|done]. rewrite Hsz. cbn [negb].
  destruct (load c src len) as [s| |] eqn:Hld; try done. cbn [mbind outcome_bind].
  pose proof (length_load _ _ _ _ Hld) as Hls.
  assert (load c src (len * 1) = Ret s) as Hld' by (by rewrite Z.mul_1_r).
  unfold TLV_HDR. intros [= <-] Hroom Hd Hfit.
  destruct (level =? 1).
  - rewrite u32_small, Hlong by lia. destruct (Z.ltb_spec room (len + 3)); [lia|].
    by apply encode_basic_written; try lia.
  - set (sz := if elem_len e <=? 256 then 1 else 2).
    set (szn := if elem_len e <=? 256 then 1%nat else 2%nat) in *.
    assert (Z.of_nat szn = sz /\ 1 <= sz <= 2) as [Hszn Hszr]
      by (unfold sz, szn; destruct (_ <=? 256); lia).
    rewrite length_app, length_take, length_le_bytes in *.
    rewrite !u32_small by (rewrite ?u32_small; lia). rewrite Hlong.
    destruct (Z.ltb_spec room (len + sz)); [lia|].
    destruct (encode_basic_written buf d (le_bytes 4 len) 0 1 sz (take szn (le_bytes 4 len)))
      as (buf1 & -> & Hw1); try lia.
    { rewrite load_ret by (rewrite ?length_le_bytes; lia). rewrite drop_0. do 2 f_equal. lia. }
    { rewrite length_take, length_le_bytes. lia. }
    { rewrite length_take, length_le_bytes. lia. }
    cbn [mbind outcome_bind]. rewrite length_take, length_le_bytes.
    destruct (encode_basic_written buf1 (d + Z.of_nat (szn `min` 4)) c src len 1 s)
      as (buf2 & -> & Hw2); try done; try lia.
    { rewrite (proj1 Hw1). lia. }
    cbn [mbind outcome_bind]. exists buf2. split; [do 2 f_equal; lia|].
    eapply written_app; [done|done|]. by rewrite length_take, length_le_bytes.
Qed.

(** [encode] writes what [nested] says. *)
Definition nested_writes (encode : list Z -> Z -> Z -> Z -> outcome enc_result)
    (nested : Z -> outcome (option (list Z))) : Prop :=
  forall src bs buf d room, nested src = Ret (Some bs) ->
    Z.of_nat (length bs) + 3 <= room < 2147483648 -> 0 <= d ->
    d + Z.of_nat (length bs) <= Z.of_nat (length buf) ->
    exists buf', encode buf d src room = Ret (buf', Z.of_nat (length bs)) /\ written buf d bs buf'.

Lemma encode_struct_written encode nested n : forall src esz bs buf d room eb,
  nested_writes encode nested -> struct_ref nested n src esz = Ret (Some bs) ->
  0 <= eb -> eb + Z.of_nat (length bs) + 3 <= room < 2147483648 -> 0 <= d ->
  d + Z.of_nat (length bs) <= Z.of_nat (length buf) ->
  exists buf', encode_struct_loop encode n buf d src esz room eb
      = Ret (buf', eb + Z.of_nat (length bs)) /\ written buf d bs buf'.
Proof.
  induction n as [|n IH]; intros src esz bs buf d room eb Hn Href Heb Hroom Hd Hfit;
    cbn [struct_ref encode_struct_loop] in *.
  { injection Href as <-. exists buf. split; [do 2 f_equal; simpl; lia|apply written_nil]. }
  destruct (nested src) as [[b1|]| |] eqn:H1; try done. cbn [mbind outcome_bind] in Href.
  destruct (struct_ref nested n (src + esz) esz) as [[b2|]| |] eqn:H2; try done.
  cbn [mbind outcome_bind option_map] in Href. injection Href as <-. rewrite length_app in *.
  rewrite u32_small by lia.
  destruct (Hn src b1 buf d (room - eb) H1) as (buf1 & -> & Hw1); try lia.
  cbn [mbind outcome_bind]. destruct (Z.ltb_spec (Z.of_nat (length b1)) 0); [lia|].
  destruct (IH (src + esz) esz b2 buf1 (d + Z.of_nat (length b1)) room (eb + Z.of_nat (length b1)))
    as (buf2 & -> & Hw2); try done; try lia.
  { rewrite (proj1 Hw1). lia. }
  exists buf2. split; [do 2 f_equal; lia|]. by eapply written_app.
Qed.

(** The length in front of an array: the low bytes of the 32-bit word. *)
Lemma encode_word_written (small : bool) word buf d bs :
  length word = 4%nat -> bs = take (if small then 1%nat else 2%nat) word ->
  0 <= d -> d + Z.of_nat (length bs) <= Z.of_nat (length buf) ->
  exists buf', qmi_encode_basic_elem buf d word 0 1 (if small then 1 else 2)
      = Ret (buf', Z.of_nat (length bs)) /\ written buf d bs buf'.
Proof.
  intros Hw -> Hd Hfit. apply encode_basic_written; try done.
  - by destruct small.
  - rewrite load_ret by (destruct small; lia). rewrite drop_0. by destruct small.
  - rewrite length_take. destruct small; lia.
Qed.

Lemma option_map_ret_inv {A B} (f : A -> B) (o : outcome (option A)) b :
  (rest ← o; Ret (option_map f rest)) = Ret (Some b) ->
  exists r, o = Ret (Some r) /\ b = f r.
Proof. destruct o as [[r|]| |]; try done. cbn. intros [= <-]. eauto. Qed.

(** ** The loop

    [D] is where the bytes of the elements still to come start and [B] how many
    come before them.  At level 1 the payload [pend] of the TLV under way is
    already in the buffer, behind the place of its header. *)

Definition enc_hdr (level : Z) : Z := if level =? 1 then TLV_HDR else 0.

Record enc_inv (level D B : Z) (pend buf0 buf : list Z) (v : enc_vars) : Prop := MkEncInv
  { ei_level : 1 <= level;
    ei_pend : level <> 1 -> pend = [];
    ei_D : 0 <= D;
    ei_B : 0 <= B;
    ei_dst : e_dst v = D + enc_hdr level + Z.of_nat (length pend);
    ei_bytes : e_bytes v = B + Z.of_nat (length pend);
    ei_tlv : level = 1 -> e_tlv_pointer v = D /\ e_tlv_len v = Z.of_nat (length pend) /\ e_tlv v = false;
    ei_written : written buf0 (D + enc_hdr level) pend buf }.

(** What an element with payload [b] adds. *)
Definition emitted (level t : Z) (pend b : list Z) : list Z :=
  if level =? 1 then tlv_bytes t (pend ++ b) else b.

Lemma written_header buf0 d p buf1 hdr :
  0 <= d -> length hdr = 3%nat -> written buf0 (d + 3) p buf1 ->
  d + 3 + Z.of_nat (length p) <= Z.of_nat (length buf0) ->
  exists buf2, store buf1 d hdr = Ret buf2 /\ written buf0 d (hdr ++ p) buf2.
Proof.
  intros Hd Hh (L & I & O) Hfit. destruct (store buf1 d hdr) as [buf2| |] eqn:Hs;
    [|rewrite store_ret in Hs by lia; done|rewrite store_ret in Hs by lia; done].
  exists buf2. split; [done|]. apply store_written in Hs as (L2 & I2 & O2).
  unfold written. rewrite length_app. split_and!; [congruence| |].
  - intros k Hk. destruct (decide (Z.of_nat k < d + 3)).
    + rewrite I2 by lia. by rewrite lookup_app_l by lia.
    + rewrite O2 by lia. rewrite I by lia. rewrite lookup_app_r by lia. f_equal. lia.
  - intros k Hk. rewrite O2 by lia. apply O. lia.
Qed.

Lemma header_bytes t n :
  [u8 t; Z.land n 255; Z.land (Z.shiftr n 8) 255] = u8 t :: le_bytes 2 n.
Proof.
  cbn [le_bytes]. rewrite Z.shiftr_div_pow2 by lia. change 255 with (Z.ones 8).
  by rewrite !Z.land_ones by lia.
Qed.

(** The end of a turn that added the payload [b]. *)
Lemma enc_finish_emits level D B pend buf0 buf v b buf1 t n :
  enc_inv level D B pend buf0 buf v -> written buf (e_dst v) b buf1 ->
  D + Z.of_nat (length (emitted level t pend b)) <= Z.of_nat (length buf0) ->
  B + Z.of_nat (length (emitted level t pend b)) < 2147483648 ->
  exists buf2 v2, enc_finish_tlv t level buf1 (enc_update (enc_set_data_len v n) (Z.of_nat (length b)))
      = Ret (buf2, v2)
    /\ written buf0 D (emitted level t pend b) buf2 /\ e_data_len v2 = n
    /\ enc_inv level (D + Z.of_nat (length (emitted level t pend b)))
         (B + Z.of_nat (length (emitted level t pend b))) [] buf2 buf2 v2.
Proof.
  intros [Hlev Hp HD HB Hd Hb Ht Hw] Hw1. unfold enc_finish_tlv, enc_update, emitted, enc_hdr in *.
  cbn [e_tlv enc_set_data_len e_data_len e_dst e_tlv_pointer e_tlv_len e_bytes andb].
  assert (written buf0 (D + if level =? 1 then TLV_HDR else 0) (pend ++ b) buf1) as Hw2.
  { eapply written_app; [unfold TLV_HDR; destruct (_ =? _); lia|done|]. by rewrite <- Hd. }
  destruct (Z.eqb_spec level 1) as [Hl|Hl].
  - destruct (Ht Hl) as (-> & -> & _). unfold tlv_bytes, TLV_HDR in *.
    cbn [length]. rewrite length_app, length_le_bytes, length_app. intros Hfit Hmax.
    rewrite header_bytes, <- Nat2Z.inj_add, (u32_small (Z.of_nat (length pend + length b))) by lia.
    destruct (written_header buf0 D (pend ++ b) buf1
      (u8 t :: le_bytes 2 (Z.of_nat (length pend + length b)))) as (buf2 & Hs & Hw3);
      [done|by cbn [length]; rewrite length_le_bytes|done|rewrite length_app; lia|].
    rewrite Hs. cbn [mbind outcome_bind]. eexists _, _. split; [done|].
    split; [done|]. split; [done|].
    split; cbn [e_dst e_bytes e_tlv_pointer e_tlv_len e_tlv length]; try done; try lia.
    + unfold enc_hdr, TLV_HDR. rewrite Hl. simpl. lia.
    + rewrite !u32_small by (rewrite ?u32_small; lia). lia.
    + apply written_nil.
  - rewrite (Hp Hl) in *. simpl app in *. rewrite Z.add_0_r in *. simpl length in *. intros Hfit Hmax.
    eexists _, _. split; [done|]. split; [done|]. split; [done|].
    split; cbn [e_dst e_bytes e_tlv_pointer e_tlv_len e_tlv length]; try done; try lia.
    + unfold enc_hdr. destruct (Z.eqb_spec level 1); [done|]. lia.
    + rewrite u32_small by lia. lia.
    + apply written_nil.
Qed.

(** The payload under way ends up in the output, behind a header. *)
Lemma enc_ref_pending fuel : forall l c in_c n pend bs,
  enc_ref fuel l c in_c 1 n pend = Ret (Some bs) -> pend <> [] ->
  (length pend + 3 <= length bs)%nat.
Proof.
  induction fuel as [|fuel IH]; intros l c in_c n pend bs Href Hp; [done|].
  destruct l as [|e l']; [done|]. cbn [enc_ref] in Href.
  destruct (decide (data_type e = QMI_EOTI)); [by destruct pend|].
  destruct (enc_data_len e n) as [m|]; [|done]. cbv zeta in Href. change (1 =? 1) with true in Href.
  cbv iota in Href.
  assert (forall b o, (rest ← o; Ret (option_map (app (tlv_bytes (tlv_type e) (pend ++ b))) rest))
    = Ret (Some bs) -> (length pend + 3 <= length bs)%nat) as Hemit.
  { intros b o (r & _ & ->)%option_map_ret_inv. unfold tlv_bytes.
    cbn [length app]. rewrite !length_app, length_le_bytes. lia. }
  destruct (data_type e); try done.
  all: repeat match type of Href with
  | (if ?b then _ else _) = _ => destruct b; try done
  | (if ?b is left _ then _ else _) = _ => destruct b; try done
  | match ?o with None => _ | Some _ => _ end = _ => destruct o; try done
  | mbind _ (enc_ref _ _ _ _ _ _ _) = _ => by apply Hemit in Href
  | mbind _ ?o = _ => destruct o; try done; cbn [mbind outcome_bind] in Href
  | enc_ref _ _ _ _ _ _ ?p = _ =>
      apply IH in Href; [rewrite ?length_app in Href; lia|by destruct pend]
  end.
Qed.

Definition enc_slack (level : Z) : Z := TLV_HDR - enc_hdr level.

Lemma enc_slack_range level : 0 <= enc_slack level <= 3.
Proof. unfold enc_slack, enc_hdr, TLV_HDR. destruct (_ =? _); lia. Qed.

Lemma emitted_length level t pend b :
  1 <= level -> (level <> 1 -> pend = []) ->
  Z.of_nat (length (emitted level t pend b)) = enc_hdr level + Z.of_nat (length pend) + Z.of_nat (length b).
Proof.
  intros Hl Hp. unfold emitted, enc_hdr, TLV_HDR. destruct (Z.eqb_spec level 1) as [|Hne].
  - unfold tlv_bytes. cbn [length]. rewrite length_app, length_le_bytes, length_app. lia.
  - rewrite (Hp Hne). simpl. lia.
Qed.

(** The loop from a state with [pend] under way adds [bs], what [enc_ref] says. *)
Definition loop_writes (fuel : nat) : Prop :=
  forall l c in_c level D B pend buf0 buf v bs room,
  enc_ref fuel l c in_c level (e_data_len v) pend = Ret (Some bs) ->
  enc_inv level D B pend buf0 buf v ->
  B + Z.of_nat (length bs) + enc_slack level <= room < 2147483648 ->
  D + Z.of_nat (length bs) <= Z.of_nat (length buf0) ->
  exists buf', qmi_encode_loop fuel l c in_c room level buf v = Ret (buf', B + Z.of_nat (length bs))
    /\ written buf0 D bs buf'.

(** A turn that adds the payload [b] and goes on from [l2]. *)
Lemma turn_emits fuel l2 c in_c level D B pend buf0 buf v b buf1 t n r bs room :
  loop_writes fuel -> enc_inv level D B pend buf0 buf v -> written buf (e_dst v) b buf1 ->
  enc_ref fuel l2 c in_c level n [] = Ret (Some r) -> bs = emitted level t pend b ++ r ->
  B + Z.of_nat (length bs) + enc_slack level <= room < 2147483648 ->
  D + Z.of_nat (length bs) <= Z.of_nat (length buf0) ->
  exists buf', ('(buf, v) ← enc_finish_tlv t level buf1
                              (enc_update (enc_set_data_len v n) (Z.of_nat (length b)));
                qmi_encode_loop fuel l2 c in_c room level buf v)
      = Ret (buf', B + Z.of_nat (length bs)) /\ written buf0 D bs buf'.
Proof.
  intros IH Hinv Hw1 Hr -> Hroom Hfit. rewrite length_app in *.
  pose proof (enc_slack_range level).
  destruct (enc_finish_emits level D B pend buf0 buf v b buf1 t n) as (buf2 & v2 & -> & Hw2 & Hn & Hinv2);
    try done; try lia.
  cbn [mbind outcome_bind]. rewrite <- Hn in Hr.
  destruct (IH l2 c in_c level _ _ [] buf2 buf2 v2 r room Hr Hinv2) as (buf' & -> & Hw'); try lia.
  { rewrite (proj1 Hw2). lia. }
  exists buf'. split; [do 2 f_equal; lia|]. eapply written_app; [apply Hinv|done|done].
Qed.

(** A turn that leaves the TLV under way open. *)
Lemma finish_open t level buf v :
  (level = 1 -> e_tlv v = false) -> enc_finish_tlv t level buf v = Ret (buf, v).
Proof.
  intros H. unfold enc_finish_tlv. destruct (Z.eqb_spec level 1) as [E|]; [|by rewrite andb_false_r].
  by rewrite (H E).
Qed.

Lemma enc_inv_data_len level D B pend buf0 buf v n :
  enc_inv level D B pend buf0 buf v -> enc_inv level D B pend buf0 buf (enc_set_data_len v n).
Proof. intros []. by split. Qed.

(** The room an emitted payload needs. *)
Lemma emitted_room level D B pend buf0 buf v t b r bs room :
  enc_inv level D B pend buf0 buf v -> bs = emitted level t pend b ++ r ->
  B + Z.of_nat (length bs) + enc_slack level <= room < 2147483648 ->
  D + Z.of_nat (length bs) <= Z.of_nat (length buf0) ->
  0 <= e_dst v /\ 0 <= e_bytes v /\ e_dst v + Z.of_nat (length b) <= Z.of_nat (length buf)
  /\ e_bytes v + Z.of_nat (length b) + 3 <= room.
Proof.
  intros [Hlev Hp HD HB Hd Hb Ht Hw] -> Hroom Hfit. rewrite length_app in *.
  rewrite (proj1 Hw). pose proof (emitted_length level t pend b Hlev Hp) as Hl.
  unfold enc_slack, enc_hdr, TLV_HDR in *. destruct (level =? 1); lia.
Qed.

(** The length of an array that is not empty leaves the TLV open at level 1. *)
Lemma turn_opens fuel l2 c in_c level D B pend buf0 buf v b buf1 t n r bs room :
  loop_writes fuel -> enc_inv level D B pend buf0 buf v -> written buf (e_dst v) b buf1 ->
  enc_ref fuel l2 c in_c level n (if level =? 1 then pend ++ b else []) = Ret (Some r) ->
  bs = (if level =? 1 then r else b ++ r) ->
  B + Z.of_nat (length bs) + enc_slack level <= room < 2147483648 ->
  D + Z.of_nat (length bs) <= Z.of_nat (length buf0) ->
  e_bytes v + Z.of_nat (length b) < 2147483648 ->
  exists buf', ('(buf, v) ← enc_finish_tlv t level buf1
                  (enc_set_tlv (enc_update (enc_set_data_len v n) (Z.of_nat (length b))) false);
                qmi_encode_loop fuel l2 c in_c room level buf v)
      = Ret (buf', B + Z.of_nat (length bs)) /\ written buf0 D bs buf'.
Proof.
  intros IH [Hlev Hp HD HB Hd Hb Ht Hw] Hw1 Hr -> Hroom Hfit Hmax.
  rewrite finish_open by done. cbn [mbind outcome_bind].
  set (v2 := enc_set_tlv _ _). change n with (e_data_len v2) in Hr.
  assert (e_bytes v2 = e_bytes v + Z.of_nat (length b)) as Hb2.
  { unfold v2, enc_update, enc_set_tlv. cbn. rewrite u32_small by lia. done. }
  destruct (Z.eqb_spec level 1) as [->|Hne].
  - apply (IH _ _ _ _ D B (pend ++ b) buf0 buf1 v2 r room Hr); [|lia|lia].
    destruct (Ht eq_refl) as (Htp & Htl & _).
    split; try done; rewrite ?length_app, ?Hb2; cbn [e_dst v2 enc_set_tlv enc_update enc_set_data_len] in *; try lia.
    + intros _. unfold v2, enc_set_tlv, enc_update. cbn.
      split_and!; [done| |done]. rewrite u32_small by lia. lia.
    + eapply written_app; [unfold enc_hdr, TLV_HDR; simpl; lia|done|]. by rewrite <- Hd.
  - rewrite (Hp Hne) in *. assert (enc_hdr level = 0) as Hh by (unfold enc_hdr; by destruct (Z.eqb_spec level 1)).
    rewrite Hh in *. simpl length in *. rewrite length_app in *.
    assert (written buf0 D b buf1) as Hw2.
    { change b with ([] ++ b). eapply written_app; [done| |].
      - rewrite Z.add_0_r in Hw. exact Hw.
      - simpl. rewrite Z.add_0_r. by replace D with (e_dst v) by lia. }
    destruct (IH l2 c in_c level (D + Z.of_nat (length b)) (B + Z.of_nat (length b)) [] buf1 buf1 v2 r room Hr)
      as (buf' & -> & Hw'); try lia.
    + split; try done; try lia; rewrite ?Hh; simpl length;
        [unfold v2, enc_set_tlv, enc_update; cbn; lia|lia|apply written_nil].
    + rewrite (proj1 Hw2). lia.
    + exists buf'. split; [do 2 f_equal; lia|]. by eapply written_app.
Qed.

(** ** The turns *)

Section turn.
Context (fuel : nat) (IH : loop_writes fuel).
Context (e : qmi_elem_info) (l' : list qmi_elem_info) (c : list Z) (in_c level D B : Z).
Context (pend buf0 buf bs : list Z) (v : enc_vars) (room n : Z).
Context (Hinv : enc_inv level D B pend buf0 buf v).
Context (Hroom : B + Z.of_nat (length bs) + enc_slack level <= room < 2147483648).
Context (Hfit : D + Z.of_nat (length bs) <= Z.of_nat (length buf0)).
Context (Hne : data_type e <> QMI_EOTI) (Hn : enc_data_len e (e_data_len v) = Some n).
Context (Href : enc_ref (S fuel) (e :: l') c in_c level (e_data_len v) pend = Ret (Some bs)).

Definition turn_ok : Prop :=
  exists buf', qmi_encode_loop (S fuel) (e :: l') c in_c room level buf v
      = Ret (buf', B + Z.of_nat (length bs)) /\ written buf0 D bs buf'.

Ltac unfold_turn Ht :=
  unfold turn_ok; cbn [enc_ref qmi_encode_loop] in *;
  destruct (decide (data_type e = QMI_EOTI)) as [Heo|_] in Href |- *; [done|];
  rewrite Hn in Href |- *; rewrite Ht in Href |- *; cbv zeta in Href |- *.

Lemma turn_opt_flag : data_type e = QMI_OPT_FLAG -> turn_ok.
Proof.
  intros Ht. unfold_turn Ht. destruct (load c (in_c + offset e) 1) as [flag| |]; try done.
  cbn [mbind outcome_bind] in *.
  assert (forall l2, enc_ref fuel l2 c in_c level n pend = Ret (Some bs) ->
    exists buf', ('(buf, v) ← enc_finish_tlv (tlv_type e) level buf (enc_set_data_len v n);
                  qmi_encode_loop fuel l2 c in_c room level buf v)
      = Ret (buf', B + Z.of_nat (length bs)) /\ written buf0 D bs buf') as Hgo.
  { intros l2 H2. rewrite finish_open by (intros Hl; apply (ei_tlv _ _ _ _ _ _ _ Hinv Hl)).
    cbn [mbind outcome_bind].
    eapply IH; [exact H2|by apply enc_inv_data_len|done|done]. }
  destruct (decide (flag = [0])); [|by apply Hgo].
  destruct (skip_to_next_elem (e :: l') level) as [l2| |]; try done. cbn [mbind outcome_bind] in *.
  by apply Hgo.
Qed.

Lemma turn_basic : is_basic (data_type e) = true -> turn_ok.
Proof.
  intros Ht.
  assert (forall b r, load c (in_c + offset e) (n * elem_size e) = Ret b ->
    (n <? 0) || (elem_size e <? 0) = false ->
    enc_ref fuel l' c in_c level n [] = Ret (Some r) -> bs = emitted level (tlv_type e) pend b ++ r ->
    exists buf', (if room <? u32 (n * elem_size e + e_bytes (enc_set_data_len v n)) + TLV_HDR
                  then Ret (buf, - EINVAL)
                  else
                    '(buf', rc) ← qmi_encode_basic_elem buf (e_dst (enc_set_data_len v n)) c
                                    (in_c + offset e) n (elem_size e);
                    '(buf, v) ← enc_finish_tlv (tlv_type e) level buf'
                                  (enc_update (enc_set_data_len v n) rc);
                    qmi_encode_loop fuel l' c in_c room level buf v)
      = Ret (buf', B + Z.of_nat (length bs)) /\ written buf0 D bs buf') as Hgo.
  { intros b r Hld Hpos Hr Hbs. apply orb_false_iff in Hpos as [].
    destruct (emitted_room _ _ _ _ _ _ _ _ _ _ _ _ Hinv Hbs Hroom Hfit) as (? & ? & ? & ?).
    pose proof (length_load _ _ _ _ Hld) as Hl. cbn [e_bytes e_dst enc_set_data_len].
    rewrite u32_small by lia. destruct (Z.ltb_spec room (n * elem_size e + e_bytes v + TLV_HDR)) as [Hbad|_];
      [unfold TLV_HDR in Hbad; lia|].
    destruct (encode_basic_written buf (e_dst v) c (in_c + offset e) n (elem_size e) b)
      as (buf1 & -> & Hw1); try done; try lia.
    cbn [mbind outcome_bind]. by eapply turn_emits. }
  unfold turn_ok; cbn [enc_ref qmi_encode_loop] in *.
  destruct (decide (data_type e = QMI_EOTI)) as [Heo|_] in Href |- *; [done|].
  rewrite Hn in Href |- *. cbv zeta in Href |- *. destruct (data_type e); try done.
  all: destruct ((n <? 0) || (elem_size e <? 0)) eqn:Hpos in Href; try done.
  all: destruct (load c (in_c + offset e) (n * elem_size e)) as [b| |] eqn:Hld; try done.
  all: cbn [mbind outcome_bind] in Href.
  all: apply option_map_ret_inv in Href as (r & Hr & Hbs); by eapply Hgo.
Qed.

Lemma turn_data_len : data_type e = QMI_DATA_LEN -> turn_ok.
Proof.
  intros Ht. unfold_turn Ht.
  destruct (load c (in_c + offset e) (elem_size e)) as [w| |] eqn:Hld; try done.
  cbn [mbind outcome_bind] in *.
  destruct (store (le_bytes 4 n) 0 w) as [word| |] eqn:Hst; try done. cbn [mbind outcome_bind] in *.
  assert (length word = 4%nat) as Hword by (by rewrite (length_store _ _ _ _ Hst), length_le_bytes).
  set (small := elem_size e =? 1) in *. set (b := take (if small then 1%nat else 2%nat) word) in *.
  assert (Z.of_nat (length b) = if small then 1 else 2) as Hlb.
  { unfold b. rewrite length_take. destruct small; lia. }
  assert (0 <= e_dst v /\ 0 <= e_bytes v /\ e_dst v + Z.of_nat (length b) <= Z.of_nat (length buf)
    /\ e_bytes v + Z.of_nat (length b) + 3 <= room) as (? & ? & ? & ?).
  { destruct (le_val word =? 0) in Href.
    - destruct (skip_to_next_elem l' level) as [l2| |] in Href; try done.
      cbn [mbind outcome_bind] in Href. apply option_map_ret_inv in Href as (r & Hr & Hbs).
      exact (emitted_room _ _ _ _ _ _ _ (tlv_type e) b r bs room Hinv Hbs Hroom Hfit).
    - pose proof Hinv as [Hlev Hp HD HB Hd Hb Htlv Hw]. rewrite (proj1 Hw).
      unfold enc_slack, enc_hdr, TLV_HDR in *. destruct (Z.eqb_spec level 1) as [E|E].
      + rewrite E in Href. apply enc_ref_pending in Href;
          [rewrite length_app in Href; lia|]. intros [_ Hb0]%app_eq_nil. rewrite Hb0 in Hlb.
        destruct small; simpl in Hlb; lia.
      + apply option_map_ret_inv in Href as (r & _ & ->). rewrite (Hp E) in *. rewrite length_app in *.
        simpl length in *. lia. }
  cbn [e_bytes e_dst enc_set_data_len].
  rewrite u32_small by lia. rewrite <- Hlb.
  destruct (Z.ltb_spec room (Z.of_nat (length b) + e_bytes v + TLV_HDR)) as [Hbad|_];
    [unfold TLV_HDR in Hbad; lia|]. rewrite Hlb.
  destruct (encode_word_written small word buf (e_dst v) b) as (buf1 & -> & Hw1); try done; try lia.
  cbn [mbind outcome_bind].
  change (enc_set_data_len (enc_set_data_len v n) (le_val word)) with (enc_set_data_len v (le_val word)).
  destruct (Z.eqb_spec (le_val word) 0) as [Hz|Hz] in Href |- *.
  - destruct (skip_to_next_elem l' level) as [l2| |]; try done. cbn [mbind outcome_bind] in *.
    apply option_map_ret_inv in Href as (r & Hr & Hbs). rewrite Hz. by eapply turn_emits.
  - destruct (level =? 1) eqn:Hl1.
    + eapply turn_opens; try done; rewrite ?Hl1; [exact Href|done|lia].
    + apply option_map_ret_inv in Href as (r & Hr & Hbs).
      eapply turn_opens; try done; rewrite ?Hl1; [exact Hr|done|lia].
Qed.

Lemma turn_string : data_type e = QMI_STRING -> turn_ok.
Proof.
  intros Ht. unfold_turn Ht.
  destruct (string_ref e c (in_c + offset e) level) as [[b|]| |] eqn:Hs; try done.
  cbn [mbind outcome_bind] in Href. apply option_map_ret_inv in Href as (r & Hr & Hbs).
  destruct (emitted_room _ _ _ _ _ _ _ _ _ _ _ _ Hinv Hbs Hroom Hfit) as (? & ? & ? & ?).
  cbn [e_bytes e_dst enc_set_data_len]. rewrite u32_small by lia.
  destruct (encode_string_written e c (in_c + offset e) level (room - e_bytes v) buf (e_dst v) b)
    as (buf1 & -> & Hw1); try done; try lia.
  cbn [mbind outcome_bind]. destruct (Z.ltb_spec (Z.of_nat (length b)) 0); [lia|]. by eapply turn_emits.
Qed.

Lemma turn_struct : data_type e = QMI_STRUCT -> turn_ok.
Proof.
  intros Ht. unfold_turn Ht.
  match type of Href with mbind _ (struct_ref ?f ?k ?s ?z) = _ =>
    set (nested := f) in *; destruct (struct_ref nested k s z) as [[b|]| |] eqn:Hs; try done end.
  cbn [mbind outcome_bind] in Href. apply option_map_ret_inv in Href as (r & Hr & Hbs).
  destruct (emitted_room _ _ _ _ _ _ _ _ _ _ _ _ Hinv Hbs Hroom Hfit) as (? & ? & ? & ?).
  cbn [e_bytes e_dst enc_set_data_len]. rewrite u32_small by lia.
  match goal with |- context [encode_struct_loop ?f _ _ _ _ _ _ _] => set (encode := f) end.
  assert (nested_writes encode nested) as Hnest.
  { intros s nb nbuf d nroom Hnb Hnr Hnd Hnf. unfold nested, encode in *.
    destruct (ei_array e) as [a|].
    - destruct (IH a c s (level + 1) d 0 [] nbuf nbuf (MkEnc 0 d d 0 0 false) nb nroom)
        as (buf' & -> & Hw'); try done.
      + pose proof (ei_level _ _ _ _ _ _ _ Hinv). split; try done; try lia;
          [unfold enc_hdr; destruct (Z.eqb_spec (level + 1) 1); simpl; lia|apply written_nil].
      + pose proof (enc_slack_range (level + 1)). lia.
      + exists buf'. split; [do 2 f_equal; lia|done].
    - injection Hnb as <-. exists nbuf. split; [done|apply written_nil]. }
  destruct (encode_struct_written encode nested (Z.to_nat n) (in_c + offset e) (elem_size e) b buf
    (e_dst v) (room - e_bytes v) 0) as (buf1 & -> & Hw1); try done; try lia.
  cbn [mbind outcome_bind]. rewrite Z.add_0_l.
  destruct (Z.ltb_spec (Z.of_nat (length b)) 0); [lia|]. by eapply turn_emits.
Qed.
End turn.

Lemma loop_written fuel : loop_writes fuel.
Proof.
  induction fuel as [|fuel IH]; intros l c in_c level D B pend buf0 buf v bs room Href Hinv Hroom Hfit;
    [done|].
  destruct l as [|e l']; [done|].
  destruct (decide (data_type e = QMI_EOTI)) as [He|He].
  { cbn [enc_ref qmi_encode_loop] in *. destruct (decide _); [|done]. destruct pend; [|done].
    injection Href as <-. exists buf. destruct Hinv as [? ? ? ? ? Hb ? Hw].
    rewrite Hb. simpl length in *. rewrite s32_small
      by (unfold enc_slack, enc_hdr, TLV_HDR in *; destruct (level =? 1); lia).
    split; [do 2 f_equal; lia|]. destruct Hw as (? & _ & HO). split_and!; [done|simpl; lia|].
    intros k _. apply HO. simpl. lia. }
  destruct (enc_data_len e (e_data_len v)) as [n|] eqn:Hn;
    [|cbn [enc_ref] in Href; rewrite Hn in Href; by destruct (decide _)].
  destruct (is_basic (data_type e)) eqn:Hb; [by eapply turn_basic|].
  destruct (data_type e) eqn:Ht; try done;
    [eapply turn_opt_flag|eapply turn_data_len|eapply turn_struct|eapply turn_string]; eauto; congruence.
Qed.

(** ** Whole messages *)

Lemma encode_written fuel l c in_c room buf out bs :
  enc_ref fuel l c in_c 1 0 [] = Ret (Some bs) ->
  Z.of_nat (length bs) <= room < 2147483648 -> 0 <= out ->
  out + Z.of_nat (length bs) <= Z.of_nat (length buf) ->
  exists buf', qmi_encode fuel (Some l) buf out c in_c room 1 = Ret (buf', Z.of_nat (length bs))
    /\ written buf out bs buf'.
Proof.
  intros Href Hroom Hout Hfit. unfold qmi_encode. change (1 =? 1) with true. cbv iota.
  destruct (loop_written fuel l c in_c 1 out 0 [] buf buf (MkEnc 0 (out + TLV_HDR) out 0 0 false) bs room)
    as (buf' & -> & Hw); try done.
  - split; try done; [unfold enc_hdr; simpl; lia|apply written_nil].
  - unfold enc_slack, enc_hdr, TLV_HDR. simpl. lia.
  - exists buf'. split; [do 2 f_equal; lia|done].
Qed.

(** The message [qmi_encode_message] is to build, header first. *)
Definition message_bytes (type msg_id txn_id : Z) (bs : list Z) : list Z :=
  qmi_header_bytes (MkHdr (u8 type) (u16 txn_id) (u16 msg_id) (u16 (Z.of_nat (length bs)))) ++ bs.

Lemma length_qmi_header_bytes h : length (qmi_header_bytes h) = 7%nat.
Proof. unfold qmi_header_bytes. by rewrite !length_app, !length_le_bytes. Qed.

Lemma encode_message_written buf data_len type msg_id txn_id c l bs :
  enc_ref (qmi_fuel (Some l) data_len) l c 0 1 0 [] = Ret (Some bs) ->
  7 + Z.of_nat (length bs) <= data_len < 2147483648 -> data_len <= Z.of_nat (length buf) ->
  qmi_encode_message buf data_len type msg_id txn_id (Some c) (Some l)
  = Ret (7 + Z.of_nat (length bs),
         message_bytes type msg_id txn_id bs ++ drop (7 + length bs) buf).
Proof.
  intros Href Hlen Hfit. unfold qmi_encode_message, sizeof_qmi_header. cbn [mbind outcome_bind].
  change (negb (0 =? 0)) with false. cbv iota. destruct (Z.ltb_spec data_len 7); [lia|].
  rewrite u32_small by lia.
  destruct (encode_written (qmi_fuel (Some l) data_len) l c 0 (data_len - 7) buf 7 bs)
    as (buf' & -> & Hw); try done; try lia.
  cbn [mbind outcome_bind]. destruct (Z.ltb_spec (Z.of_nat (length bs)) 0); [lia|].
  set (hdr := qmi_header_bytes _). assert (length hdr = 7%nat) as Hh by apply length_qmi_header_bytes.
  rewrite store_ret by (rewrite ?Hh, ?(proj1 Hw); lia). cbn [mbind outcome_bind].
  unfold message_bytes. fold hdr. rewrite Hh, <- app_assoc. change (Z.to_nat 0) with 0%nat.
  rewrite take_0, (app_nil_l (hdr ++ _)). do 3 f_equal.
  apply list_eq. intros k. destruct Hw as (L & I & O). rewrite lookup_drop.
  destruct (decide (k < length bs)%nat).
  - rewrite lookup_app_l by done. rewrite I by lia. f_equal. lia.
  - rewrite lookup_app_r by lia. rewrite lookup_drop. rewrite O by lia. f_equal. lia.
Qed.

(** The header fields survive the way through the bytes. *)
Lemma qmi_header_of_bytes h :
  0 <= h_type h < 256 -> 0 <= h_txn_id h < 65536 -> 0 <= h_msg_id h < 65536 -> 0 <= h_msg_len h < 65536 ->
  qmi_header_of (qmi_header_bytes h) = h.
Proof.
  intros. destruct h as [t x m n]. cbn [h_type h_txn_id h_msg_id h_msg_len] in *.
  assert (forall k z, 0 <= z < 2 ^ (8 * Z.of_nat k) -> le_val (le_bytes k z) = z) as Hle
    by (intros; rewrite le_val_bytes; by apply Z.mod_small).
  unfold qmi_header_of. f_equal.
  - by rewrite <- (Hle 1%nat t) at 2.
  - by rewrite <- (Hle 2%nat x) at 2.
  - by rewrite <- (Hle 2%nat m) at 2.
  - by rewrite <- (Hle 2%nat n) at 2.
Qed.
