(* ===== verification/QmiTurns.v ===== *)
(** * The turns of the QMI decoder

    [qmi_decode] works through a message one type-length-value triple at a time.
    The rules here say what a turn does with a well-formed triple: a plain
    value, a string, and a counted array of structures.  They speak about the bytes of
    the message wherever it lies in its buffer, whatever comes behind it. *)

From Stdlib Require Import ZArith Lia.
From stdpp Require Import base list numbers.
From S2P Require Import Prelude Packet QmiCodec QmiDecode QmiEncode.

(** ** Bytes in a buffer *)

(** [bs] lies at [s] in [msg]. *)
Definition has (msg : list Z) (s : Z) (bs : list Z) : Prop := load msg s (Z.of_nat (length bs)) = Ret bs.

Lemma has_app msg s a b : has msg s (a ++ b) <-> has msg s a /\ has msg (s + Z.of_nat (length a)) b.
Proof.
  unfold has. rewrite length_app, Nat2Z.inj_add. split.
  - intros (a' & b' & Ha & Hb & Heq)%load_split; [|lia..]. pose proof (length_load _ _ _ _ Ha).
    apply app_inj_1 in Heq as [-> ->]; [done|lia].
  - intros [Ha Hb]. by apply load_join.
Qed.

Lemma has_mid h bs junk s : s = Z.of_nat (length h) -> has (h ++ bs ++ junk) s bs.
Proof. intros ->. by apply load_mid. Qed.

Lemma has_nonneg msg s bs : has msg s bs -> 0 <= s.
Proof. by intros (? & _)%load_ret_inv. Qed.

Lemma written_unique buf d bs b1 b2 : written buf d bs b1 -> written buf d bs b2 -> b1 = b2.
Proof.
  intros (_ & I1 & O1) (_ & I2 & O2). apply list_eq. intros k.
  destruct (decide (d <= Z.of_nat k < d + Z.of_nat (length bs))); [by rewrite I1, I2|by rewrite O1, O2 by lia].
Qed.

(** Copying [n] elements of [sz] bytes over the part [b] of an object. *)
Lemma decode_basic_has a b c msg s n sz bs d :
  has msg s bs -> n * sz = Z.of_nat (length bs) -> 0 <= n -> 0 <= sz -> length b = length bs ->
  Z.of_nat (length bs) < 2147483648 -> d = Z.of_nat (length a) ->
  qmi_decode_basic_elem (a ++ b ++ c) d msg s n sz = Ret (a ++ bs ++ c, Z.of_nat (length bs)).
Proof.
  intros Hld Hl Hn Hsz Hb Hmax ->. change qmi_decode_basic_elem with qmi_encode_basic_elem.
  destruct (encode_basic_written (a ++ b ++ c) (Z.of_nat (length a)) msg s n sz bs) as (dst' & -> & Hw);
    [done|done|lia|by rewrite Hl|rewrite !length_app; lia|done|].
  do 2 f_equal. by apply (written_unique _ _ _ _ _ Hw), store_written, store_mid.
Qed.

Lemma strlen_at a s c : Forall (fun b => b <> 0) s ->
  strlen (a ++ s ++ 0 :: c) (Z.of_nat (length a)) = Ret (Z.of_nat (length s)).
Proof.
  intros Hs. unfold strlen. destruct (Z.leb_spec 0 (Z.of_nat (length a))); [|lia].
  rewrite Nat2Z.id, drop_app_length. change (Z.of_nat (length s)) with (0 + Z.of_nat (length s)). generalize 0 at 2 3 as k.
  induction Hs as [|b s Hb _ IH]; intros k; cbn [app strlen_loop].
  - change (0 =? 0) with true. cbv iota. f_equal. simpl. lia.
  - destruct (Z.eqb_spec b 0); [done|]. rewrite IH. f_equal. simpl. lia.
Qed.

(** ** The header of a triple *)

Lemma tlv_len_value n : 0 <= n < 65536 -> le_bytes 2 n = [n mod 256; n / 256] /\ Z.lor (n mod 256) (Z.shiftl (n / 256) 8) = n.
Proof.
  intros Hn. split.
  - unfold le_bytes. do 2 f_equal. apply Z.mod_small. split; [apply Z.div_pos; lia|apply Z.div_lt_upper_bound; lia].
  - change 256 with (2 ^ 8). rewrite <- (Z.shiftr_div_pow2 n 8) by lia. apply Z.bits_inj_iff'. intros k Hk.
    rewrite Z.lor_spec. destruct (Z.ltb_spec k 8).
    + rewrite Z.mod_pow2_bits_low, Z.shiftl_spec_low by lia. apply orb_false_r.
    + rewrite Z.mod_pow2_bits_high, Z.shiftl_spec, Z.shiftr_spec by lia. cbn [orb]. f_equal. lia.
Qed.

Section turns.
Variables (ei : list qmi_elem_info) (msg : list Z) (len : Z).

Lemma dec_tlv_has t bs l l0 dl s k :
  has msg s (tlv_bytes t bs) -> 0 <= t < 256 -> Z.of_nat (length bs) < 65536 -> find_ei ei t = Ret (Some l) ->
  0 <= k < 2147483648 ->
  dec_tlv ei msg (MkDec l0 dl s k) = Ret (inr (MkDec l0 dl (s + 3) (k + 3), Some (l, Z.of_nat (length bs))))
  /\ has msg (s + 3) bs.
Proof.
  intros Hm Ht Hl Hf Hk. destruct (tlv_len_value (Z.of_nat (length bs))) as [Hb Hv]; [lia|].
  unfold tlv_bytes in Hm. rewrite Hb, u8_small in Hm by done. apply (has_app msg s [t; _; _] bs) in Hm as [Hm Hbs].
  split; [|exact Hbs]. unfold dec_tlv. cbn [d_src d_ei d_data_len d_bytes]. change TLV_HDR with 3.
  unfold has in Hm. cbn [length] in Hm. change (Z.of_nat 3) with 3 in Hm. rewrite Hm. cbn [mbind outcome_bind].
  rewrite Hf. cbn [mbind outcome_bind]. by rewrite Hv, u32_small by lia.
Qed.

(** A turn whose triple [t, bs] names the elements from [l] on, when [dec_element]
    takes all of [bs]. *)
Lemma tlv_turn fuel t bs l c c' l0 l1 dl dl' s k :
  has msg s (tlv_bytes t bs) -> 0 <= t < 256 -> Z.of_nat (length bs) < 65536 -> find_ei ei t = Ret (Some l) ->
  0 <= k < 2147483648 -> k < len ->
  (has msg (s + 3) bs ->
   dec_element (fun a c d s len => qmi_decode_loop fuel a c d msg len 2 (MkDec a 0 s 0)) l c 0 msg (Z.of_nat (length bs)) 1
     (MkDec l0 dl (s + 3) (k + 3))
   = Ret (c', inr (MkDec l1 dl' (s + 3 + Z.of_nat (length bs)) (k + 3 + Z.of_nat (length bs))))) ->
  qmi_decode_loop (S fuel) ei c 0 msg len 1 (MkDec l0 dl s k)
  = qmi_decode_loop fuel ei c' 0 msg len 1
      (MkDec l1 dl' (s + Z.of_nat (length (tlv_bytes t bs))) (k + Z.of_nat (length (tlv_bytes t bs)))).
Proof.
  intros Hm Ht Hl Hf Hk Hlen He. destruct (dec_tlv_has t bs l l0 dl s k Hm Ht Hl Hf Hk) as [Hd Hbs].
  cbn [qmi_decode_loop d_bytes]. destruct (Z.leb_spec len k); [lia|]. change (1 =? 1) with true. cbv iota.
  rewrite Hd. cbn [mbind outcome_bind]. change (1 + 1) with 2. rewrite (He Hbs). cbn [mbind outcome_bind].
  unfold tlv_bytes. cbn [length]. rewrite length_app, length_le_bytes. do 2 f_equal; lia.
Qed.

(** A plain value goes to its place in the structure. *)
Lemma tlv_turn_basic fuel t bs e rest a b c l0 dl s k :
  has msg s (tlv_bytes t bs) -> 0 <= t < 256 -> Z.of_nat (length bs) < 65536 -> find_ei ei t = Ret (Some (e :: rest)) ->
  0 <= k < 2147483648 -> k < len ->
  is_basic (data_type e) = true -> array_type e = NO_ARRAY -> elem_size e = Z.of_nat (length bs) ->
  offset e = Z.of_nat (length a) -> length b = length bs ->
  qmi_decode_loop (S fuel) ei (a ++ b ++ c) 0 msg len 1 (MkDec l0 dl s k)
  = qmi_decode_loop fuel ei (a ++ bs ++ c) 0 msg len 1
      (MkDec rest 1 (s + Z.of_nat (length (tlv_bytes t bs))) (k + Z.of_nat (length (tlv_bytes t bs)))).
Proof.
  intros Hm Ht Hl Hf Hk Hlen Hb Ha Hsz Ho Hlb. apply (tlv_turn fuel t bs (e :: rest)); try done. intros Hbs.
  unfold dec_element, dec_opt_flag, dec_array_len. cbn [ei_head mbind outcome_bind].
  rewrite !decide_False by (by intros E; rewrite E in Hb). cbn [mbind outcome_bind ei_head].
  rewrite decide_False by (by intros E; rewrite E in Hb). cbn [mbind outcome_bind ei_head].
  unfold dec_data_len. rewrite Ha. cbn [d_src d_bytes]. rewrite Hsz.
  assert (qmi_decode_basic_elem (a ++ b ++ c) (0 + offset e) msg (s + 3) 1 (Z.of_nat (length bs)) = Ret (a ++ bs ++ c, Z.of_nat (length bs))) as Hd
    by (apply decode_basic_has; try done; lia).
  destruct (data_type e); try discriminate Hb; rewrite Hd; cbn [mbind outcome_bind]; rewrite u32_small by lia; done.
Qed.

(** An optional value: its flag is set, the value goes to its place. *)
Lemma tlv_turn_opt fuel t bs e1 e2 rest a b c c0 l0 dl s k :
  has msg s (tlv_bytes t bs) -> 0 <= t < 256 -> Z.of_nat (length bs) < 65536 -> find_ei ei t = Ret (Some (e1 :: e2 :: rest)) ->
  0 <= k < 2147483648 -> k < len ->
  data_type e1 = QMI_OPT_FLAG -> store c0 (offset e1) [1] = Ret (a ++ b ++ c) ->
  is_basic (data_type e2) = true -> array_type e2 = NO_ARRAY -> elem_size e2 = Z.of_nat (length bs) ->
  offset e2 = Z.of_nat (length a) -> length b = length bs ->
  qmi_decode_loop (S fuel) ei c0 0 msg len 1 (MkDec l0 dl s k)
  = qmi_decode_loop fuel ei (a ++ bs ++ c) 0 msg len 1
      (MkDec rest 1 (s + Z.of_nat (length (tlv_bytes t bs))) (k + Z.of_nat (length (tlv_bytes t bs)))).
Proof.
  intros Hm Ht Hl Hf Hk Hlen He1 Hst Hb Ha Hsz Ho Hlb. apply (tlv_turn fuel t bs (e1 :: e2 :: rest)); try done. intros Hbs.
  unfold dec_element, dec_opt_flag, dec_array_len. cbn [ei_head mbind outcome_bind]. rewrite decide_True by done.
  rewrite Z.add_0_l, Hst. cbn [mbind outcome_bind drop ei_head].
  rewrite decide_False by (by intros E; rewrite E in Hb). cbn [mbind outcome_bind ei_head].
  unfold dec_data_len. rewrite Ha. cbn [d_src d_bytes]. rewrite Hsz.
  assert (qmi_decode_basic_elem (a ++ b ++ c) (0 + offset e2) msg (s + 3) 1 (Z.of_nat (length bs)) = Ret (a ++ bs ++ c, Z.of_nat (length bs))) as Hd
    by (apply decode_basic_has; try done; lia).
  destruct (data_type e2); try discriminate Hb; rewrite Hd; cbn [mbind outcome_bind]; rewrite u32_small by lia; done.
Qed.

(** A string goes to its place, with a NUL behind it. *)
Lemma tlv_turn_string fuel t bs e rest a b x c l0 dl s k :
  has msg s (tlv_bytes t bs) -> 0 <= t < 256 -> Z.of_nat (length bs) < 65536 -> find_ei ei t = Ret (Some (e :: rest)) ->
  0 <= k < 2147483648 -> k < len ->
  data_type e = QMI_STRING -> array_type e = VAR_LEN_ARRAY -> elem_size e = 1 -> Z.of_nat (length bs) <= elem_len e -> dl <= elem_len e ->
  offset e = Z.of_nat (length a) -> length b = length bs ->
  qmi_decode_loop (S fuel) ei (a ++ b ++ x :: c) 0 msg len 1 (MkDec l0 dl s k)
  = qmi_decode_loop fuel ei (a ++ bs ++ 0 :: c) 0 msg len 1
      (MkDec rest dl (s + Z.of_nat (length (tlv_bytes t bs))) (k + Z.of_nat (length (tlv_bytes t bs)))).
Proof.
  intros Hm Ht Hl Hf Hk Hlen Hb Ha Hsz He Hdl Ho Hlb. apply (tlv_turn fuel t bs (e :: rest)); try done. intros Hbs.
  unfold dec_element, dec_opt_flag, dec_array_len. cbn [ei_head mbind outcome_bind].
  rewrite !decide_False by (by rewrite Hb). cbn [mbind outcome_bind ei_head].
  rewrite decide_False by (by rewrite Hb). cbn [mbind outcome_bind ei_head].
  unfold dec_data_len. rewrite Ha. cbn [d_src d_bytes d_data_len]. destruct (Z.ltb_spec (elem_len e) dl); [lia|].
  rewrite Hb. unfold qmi_decode_string_elem. change (1 =? 1) with true. cbv iota. cbn [mbind outcome_bind].
  destruct (Z.ltb_spec (elem_len e) (Z.of_nat (length bs))); [lia|]. rewrite Z.ltb_irrefl, Z.add_0_r, Hsz.
  rewrite (decode_basic_has a b (x :: c) msg (s + 3) _ _ bs) by (done || lia). cbn [mbind outcome_bind].
  rewrite (app_assoc a bs), (store_mid (a ++ bs) [x] [0] c) by (rewrite ?length_app; done || lia).
  cbn [mbind outcome_bind fst snd]. destruct (Z.ltb_spec (0 + Z.of_nat (length bs)) 0); [lia|].
  rewrite <- app_assoc, Z.add_0_l, u32_small by lia. done.
Qed.

(** A counted array: the count goes to its word, the structures to the array.
    [decode_struct_loop] is left to the caller. *)
Lemma tlv_turn_array fuel t n bs e1 e2 rest w c c' l0 dl s k a l1 :
  has msg s (tlv_bytes t (n :: bs)) -> 0 <= t < 256 -> Z.of_nat (length bs) < 65535 -> find_ei ei t = Ret (Some (e1 :: e2 :: rest)) ->
  0 <= k < 2147483648 -> k < len -> 0 <= n < 256 -> 0 <= dl < 256 ->
  data_type e1 = QMI_DATA_LEN -> elem_size e1 = 1 -> store c (offset e1) (n :: replicate 3 0) = Ret w ->
  data_type e2 = QMI_STRUCT -> array_type e2 = VAR_LEN_ARRAY -> n <= elem_len e2 -> ei_array e2 = Some a -> l1 = rest ->
  decode_struct_loop (fun c d s len => qmi_decode_loop fuel a c d msg len 2 (MkDec a 0 s 0)) (Z.to_nat n) w (offset e2) (s + 4)
    (elem_size e2) (Z.of_nat (length bs)) 0 0 = Ret (c', Z.of_nat (length bs), n) ->
  qmi_decode_loop (S fuel) ei c 0 msg len 1 (MkDec l0 dl s k)
  = qmi_decode_loop fuel ei c' 0 msg len 1
      (MkDec l1 n (s + Z.of_nat (length (tlv_bytes t (n :: bs)))) (k + Z.of_nat (length (tlv_bytes t (n :: bs))))).
Proof.
  intros Hm Ht Hl Hf Hk Hlen Hn Hdl He1 Hs1 Hw He2 Ha2 Hl2 Hei -> Hloop.
  apply (tlv_turn fuel t (n :: bs) (e1 :: e2 :: rest)); try done; [cbn [length]; lia|]. intros [Hbn Hbs]%(has_app msg _ [n] bs).
  unfold dec_element, dec_opt_flag. cbn [ei_head mbind outcome_bind]. rewrite decide_False by (by rewrite He1). cbn [mbind outcome_bind].
  unfold dec_array_len. cbn [ei_head mbind outcome_bind]. rewrite decide_True, Hs1 by done. change (1 =? 1) with true. cbv iota.
  cbn [d_data_len d_src d_bytes].
  assert (le_bytes 4 dl = [] ++ [dl] ++ replicate 3 0) as ->.
  { unfold le_bytes, u8. rewrite (Z.mod_small dl 256), (Z.div_small dl 256) by lia. done. }
  rewrite (decode_basic_has [] [dl] (replicate 3 0) msg (s + 3) 1 1 [n]) by (done || lia). cbn [mbind outcome_bind].
  rewrite Z.add_0_l. change ([] ++ [n] ++ replicate 3 0) with (n :: replicate 3 0). rewrite Hw. cbn [mbind outcome_bind drop ei_head].
  cbn [length d_data_len d_src d_bytes d_ei]. change (Z.of_nat 1) with 1.
  assert (le_val (n :: replicate 3 0) = n) as -> by (change (replicate 3 0) with [0; 0; 0]; unfold le_val; lia).
  unfold dec_data_len. rewrite Ha2. destruct (Z.ltb_spec (elem_len e2) n); [lia|]. rewrite He2, Hei.
  replace (u32 (Z.of_nat (S (length bs)) - 1)) with (Z.of_nat (length bs)) by (rewrite u32_small; lia).
  unfold qmi_decode_struct_elem. change (1 + 1) with 2. replace (s + 3 + 1) with (s + 4) by lia. rewrite Z.add_0_l, Hloop. cbn [mbind outcome_bind].
  destruct (Z.ltb_spec (Z.of_nat (length bs)) 0); [lia|]. rewrite Z.eqb_refl. change (2 <=? 2) with true. change (2 <? 2) with false.
  cbn [andb negb orb mbind outcome_bind fst snd]. destruct (Z.ltb_spec (Z.of_nat (length bs)) 0); [lia|].
  rewrite (u32_small (k + 3 + 1)), u32_small, drop_0 by lia. do 4 f_equal; lia.
Qed.

(** The end of the message. *)
Lemma turns_end fuel c l0 dl s : 0 <= len < 2147483648 -> qmi_decode_loop (S fuel) ei c 0 msg len 1 (MkDec l0 dl s len) = Ret (c, len).
Proof. intros Hl. cbn [qmi_decode_loop d_bytes]. rewrite Z.leb_refl. by rewrite s32_small. Qed.

End turns.

(** ** Structures of plain values *)

(** One member of a nested structure. *)
Lemma member_turn fuel ei0 e rest a b c msg len s k bs dl out :
  has msg s bs -> is_basic (data_type e) = true -> array_type e = NO_ARRAY -> elem_size e = Z.of_nat (length bs) ->
  out + offset e = Z.of_nat (length a) -> length b = length bs -> 0 <= k < len -> k + Z.of_nat (length bs) < 2147483648 ->
  qmi_decode_loop (S fuel) ei0 (a ++ b ++ c) out msg len 2 (MkDec (e :: rest) dl s k)
  = qmi_decode_loop fuel ei0 (a ++ bs ++ c) out msg len 2 (MkDec rest 1 (s + Z.of_nat (length bs)) (k + Z.of_nat (length bs))).
Proof.
  intros Hbs Hb Ha Hsz Ho Hlb Hk Hmax. cbn [qmi_decode_loop d_bytes d_ei]. destruct (Z.leb_spec len k); [lia|].
  change (2 =? 1) with false. change (2 <=? 2) with true. cbv iota. cbn [ei_head mbind outcome_bind andb].
  rewrite bool_decide_false by (by intros E; rewrite E in Hb). unfold dec_element, dec_opt_flag, dec_array_len. cbn [ei_head mbind outcome_bind].
  rewrite !decide_False by (by intros E; rewrite E in Hb). cbn [mbind outcome_bind ei_head].
  rewrite decide_False by (by intros E; rewrite E in Hb). cbn [mbind outcome_bind ei_head].
  unfold dec_data_len. rewrite Ha. cbn [d_src d_bytes]. rewrite Hsz.
  assert (qmi_decode_basic_elem (a ++ b ++ c) (out + offset e) msg s 1 (Z.of_nat (length bs)) = Ret (a ++ bs ++ c, Z.of_nat (length bs))) as Hd
    by (apply decode_basic_has; try done; lia).
  destruct (data_type e); try discriminate Hb; rewrite Hd; cbn [mbind outcome_bind drop]; rewrite u32_small by lia; done.
Qed.

(** The end of a nested structure. *)
Lemma members_end fuel ei0 c out msg len dl s k : 0 <= k < 2147483648 ->
  qmi_decode_loop (S fuel) ei0 c out msg len 2 (MkDec [eoti] dl s k) = Ret (c, k).
Proof.
  intros Hk. cbn [qmi_decode_loop d_bytes d_ei]. rewrite s32_small by done. destruct (len <=? k); [done|].
  change (2 =? 1) with false. change (2 <=? 2) with true. cbv iota. cbn [ei_head mbind outcome_bind andb].
  by rewrite bool_decide_true by done.
Qed.

(** ** Whole messages *)

Lemma length_message type id txn body : length (message_bytes type id txn body) = (7 + length body)%nat.
Proof. unfold message_bytes. by rewrite length_app, length_qmi_header_bytes. Qed.

Section message.
Variables (type id txn : Z) (body junk : list Z).
Hypothesis (Htype : 0 <= type < 256) (Hid : 0 <= id < 65536) (Htxn : 0 <= txn < 65536) (Hlen : Z.of_nat (length body) < 65536).
Let buf : list Z := message_bytes type id txn body ++ junk.

Lemma message_header :
  exists bs, load buf 0 sizeof_qmi_header = Ret bs /\ qmi_header_of bs = MkHdr type txn id (Z.of_nat (length body)).
Proof.
  unfold buf, message_bytes. set (h := MkHdr _ _ _ _). exists (qmi_header_bytes h). split.
  - rewrite <- app_assoc. apply (load_mid [] (qmi_header_bytes h)); [done|]. by rewrite length_qmi_header_bytes.
  - unfold h. rewrite u8_small, !u16_small by lia. apply qmi_header_of_bytes; cbn; lia.
Qed.

Lemma message_body : has buf 7 body.
Proof. unfold buf, message_bytes. rewrite <- app_assoc. apply has_mid. by rewrite length_qmi_header_bytes. Qed.

Lemma message_decode_header : qmi_decode_header buf (7 + Z.of_nat (length body)) = Ret (0, Some id).
Proof.
  unfold qmi_decode_header. destruct message_header as (bs & -> & Hh). cbn [mbind outcome_bind]. rewrite Hh. cbn [h_msg_len h_msg_id].
  change sizeof_qmi_header with 7. rewrite u64_small by lia. replace (7 + Z.of_nat (length body) - 7) with (Z.of_nat (length body)) by lia.
  by rewrite Z.eqb_refl.
Qed.

(** Decoding is the loop over the body, with fuel to spare. *)
Lemma message_decodes c ei c' :
  (forall fuel, qmi_decode_loop (3 + length body + fuel) ei c 0 buf (Z.of_nat (length body)) 1 (MkDec ei 0 7 0) = Ret (c', Z.of_nat (length body))) ->
  ei <> [] -> qmi_decode_message c buf (7 + Z.of_nat (length body)) type id (Some ei) = Ret (Z.of_nat (length body), c', Some txn).
Proof.
  intros Hloop Hne. unfold qmi_decode_message. destruct (Z.eqb_spec (7 + Z.of_nat (length body)) 0); [lia|].
  destruct message_header as (bs & -> & Hh). cbn [mbind outcome_bind]. rewrite Hh. cbn [h_type h_msg_id h_txn_id]. rewrite !Z.eqb_refl. cbn [negb].
  change sizeof_qmi_header with 7. replace (u32 (7 + Z.of_nat (length body) - 7)) with (Z.of_nat (length body)) by (rewrite u32_small; lia).
  unfold qmi_decode, qmi_fuel. assert (exists f, (2 + Z.to_nat (Z.of_nat (length body)) + ei_sizes ei = 3 + length body + f)%nat) as (f & ->).
  { destruct ei as [|e ei]; [done|]. cbn [ei_sizes]. exists (ei_size e - 1 + ei_sizes ei)%nat. assert (1 <= ei_size e)%nat by (destruct e as [? ? ? ? ? ? [?|]]; cbn; lia). lia. }
  by rewrite Hloop.
Qed.

End message.

(** ** Requests that carry a name *)

(** A name that fits the field of 256 bytes with its NUL. *)
Definition name_ok (name : list Z) : Prop := Forall (fun b => b <> 0) name /\ (length name <= 255)%nat.

(** A structure of [size] zeroed bytes with the name at offset 4. *)
Definition name_struct (size : nat) (name : list Z) : list Z := replicate 4 0 ++ name ++ replicate (size - 4 - length name) 0.

Lemma length_name_struct size name : (4 + length name <= size)%nat -> length (name_struct size name) = size.
Proof. intros ?. unfold name_struct. rewrite !length_app, !length_replicate. lia. Qed.

Lemma name_struct_string size name :
  name_ok name -> (260 <= size)%nat ->
  strlen (name_struct size name) 4 = Ret (Z.of_nat (length name)) /\ load (name_struct size name) 4 (Z.of_nat (length name)) = Ret name.
Proof.
  intros [Hnz Hl] Hs. unfold name_struct. replace (size - 4 - length name)%nat with (S (size - 5 - length name)) by lia. split.
  - exact (strlen_at (replicate 4 0) name _ Hnz).
  - exact (load_mid (replicate 4 0) name _ 4 _ eq_refl eq_refl).
Qed.

(** A NUL behind the name changes nothing. *)
Lemma name_struct_nul size name off :
  4 + Z.of_nat (length name) <= off < Z.of_nat size -> store (name_struct size name) off [0] = Ret (name_struct size name).
Proof.
  intros Ho. set (c := name_struct size name). assert (length c = size) as Hc by (apply length_name_struct; lia).
  rewrite store_ret by (cbn [length]; lia). f_equal. rewrite <- (take_drop (Z.to_nat off) c) at 3. f_equal.
  assert (c !! Z.to_nat off = Some 0) as Hz.
  { unfold c, name_struct. rewrite app_assoc, lookup_app_r by (rewrite length_app, length_replicate; lia).
    apply lookup_replicate_2. rewrite length_app, length_replicate. lia. }
  rewrite (drop_S _ _ _ Hz). cbn [length app]. do 2 f_equal. lia.
Qed.

Lemma length_tlv_bytes t bs : length (tlv_bytes t bs) = (3 + length bs)%nat.
Proof. unfold tlv_bytes. cbn [length]. rewrite length_app, length_le_bytes. lia. Qed.

Lemma name_message_decodes type id txn name junk size rest :
  0 <= type < 256 -> 0 <= id < 65536 -> 0 <= txn < 65536 -> name_ok name -> (260 <= size)%nat ->
  qmi_decode_message (replicate size 0) (message_bytes type id txn (tlv_bytes 1 name) ++ junk) (7 + Z.of_nat (length (tlv_bytes 1 name))) type id
    (Some (MkEi QMI_STRING 256 1 VAR_LEN_ARRAY 1 4 None :: rest))
  = Ret (Z.of_nat (length (tlv_bytes 1 name)), name_struct size name, Some txn).
Proof.
  intros Ht Hi Hx [_ Hl] Hs. pose proof (length_tlv_bytes 1 name) as Hlt. apply message_decodes; [done|done|done|lia| |done].
  intros fuel. set (buf := _ ++ junk). set (n := Z.of_nat (length (tlv_bytes 1 name))).
  replace (replicate size 0) with (replicate 4 0 ++ replicate (length name) 0 ++ 0 :: replicate (size - 5 - length name) 0).
  2:{ change (0 :: replicate (size - 5 - length name) 0) with (replicate (S (size - 5 - length name)) 0). rewrite <- !replicate_add. f_equal. lia. }
  change (3 + length (tlv_bytes 1 name) + fuel)%nat with (S (S (S (length (tlv_bytes 1 name) + fuel)))).
  set (e := MkEi QMI_STRING 256 1 VAR_LEN_ARRAY 1 4 None). set (f := S (length (tlv_bytes 1 name) + fuel)).
  rewrite (tlv_turn_string (e :: rest) buf n (S f) 1 name e rest (replicate 4 0) (replicate (length name) 0) 0); try done; try (cbn; lia).
  - fold n. change (0 + n) with n. rewrite turns_end by (unfold n; lia). do 2 f_equal. unfold name_struct.
    by replace (size - 4 - length name)%nat with (S (size - 5 - length name)) by lia.
  - by apply message_body.
  - by rewrite length_replicate.
Qed.
