(* ===== verification/QmiClaims.v ===== *)
(** * What the QMI codec guarantees, and where it does not

    Memory safety and termination of the decoder on every message, the
    descriptors of the daemons checked against their structures, and the inputs
    on which the checks of the codec are not enough. *)

From Stdlib Require Import ZArith Lia.
From stdpp Require Import base list numbers.
From S2P Require Import Prelude Packet QmiCodec QmiMessages QmiDecode QmiEncode.

(** C6: Decoder safety.  For a descriptor that fits its structure, and whatever
    bytes the message holds, [qmi_decode_message] returns, and it touches
    nothing outside the structure and nothing further than [3 + wires ei] bytes
    behind the message, which the buffer is assumed to have; the structure still
    consists of bytes.  The descriptors of the daemons fit but for
    [rmtfs_open_req_ei] and [servreg_loc_pfr_req_ei] ([message_descriptors_fit]). *)
Theorem qmi_decode_message_safe c buf data_len type id ei :
  ei_list_ok (Z.of_nat (length c)) ei -> Forall is_byte buf -> 7 <= data_len ->
  data_len + 3 + wires ei <= Z.of_nat (length buf) -> Z.of_nat (length buf) < 2147418112 ->
  exists rc c' txn, qmi_decode_message c buf data_len type id (Some ei) = Ret (rc, c', txn)
    /\ length c' = length c /\ (Forall is_byte c -> Forall is_byte c').
Proof.
  intros Hok Hb Hlen Hfit Hmax.
  destruct (decode_message_safe c buf data_len type id ei Hok Hb Hlen Hfit Hmax) as (rc & c' & txn & Heq & Hl).
  exists rc, c', txn. split_and!; [done|done|]. intros Hc.
  exact (decode_message_bytes _ _ _ _ _ _ _ _ _ _ Hok Hc Hb Heq).
Qed.

Definition demo_alloc_req : list Z :=
  qmi_header_bytes (MkHdr 0 9 QMI_RMTFS_ALLOC_BUFF 14) ++ [1; 4; 0; 1; 0; 0; 0; 2; 4; 0; 0; 16; 0; 0].

Lemma demo_ei_ok : ei_list_ok 8 rmtfs_alloc_buf_req_ei.
Proof. by split. Qed.

Lemma qmi_decode_message_safe_witness : exists rc c' txn,
  qmi_decode_message (replicate 8 0) (demo_alloc_req ++ replicate 32 0) 21 0 4
    (Some rmtfs_alloc_buf_req_ei) = Ret (rc, c', txn) /\ length c' = 8%nat
  /\ (Forall is_byte (replicate 8 0) -> Forall is_byte c').
Proof.
  apply (qmi_decode_message_safe (replicate 8 0) (demo_alloc_req ++ replicate 32 0) 21 0 4).
  - exact demo_ei_ok.
  - apply bytes_check. reflexivity.
  - lia.
  - vm_compute. congruence.
  - vm_compute. congruence.
Defined.

(** Every message descriptor of rmtfs and pd-mapper fits its structure,
    except the two whose last member is a string: there the NUL the decoder
    writes behind a string of the maximal length needs exactly one byte more
    than the structure has. *)
Theorem message_descriptors_fit :
  Forall (fun m => ei_list_ok m.2 m.1 \/ m.1 = rmtfs_open_req_ei \/ m.1 = servreg_loc_pfr_req_ei)
    (rmtfs_messages ++ servreg_messages)
  /\ ~ ei_list_ok sizeof_rmtfs_open_req rmtfs_open_req_ei
  /\ ei_list_ok (sizeof_rmtfs_open_req + 1) rmtfs_open_req_ei
  /\ ~ ei_list_ok sizeof_servreg_loc_pfr_req servreg_loc_pfr_req_ei
  /\ ei_list_ok (sizeof_servreg_loc_pfr_req + 1) servreg_loc_pfr_req_ei.
Proof.
  split_and!; [|intros [_ Hbad]; vm_compute in Hbad; discriminate
    |split; vm_compute; reflexivity|intros [_ Hbad]; vm_compute in Hbad; discriminate
    |split; vm_compute; reflexivity].
  unfold rmtfs_messages, servreg_messages. cbn [app].
  repeat (apply Forall_cons_2; [first [left; split; vm_compute; reflexivity
    |right; left; reflexivity|right; right; reflexivity]|]). apply Forall_nil_2.
Qed.

(** An open request for [path]. *)
Definition open_req_msg (path : list Z) : list Z :=
  qmi_header_bytes (MkHdr 0 1 QMI_RMTFS_OPEN (3 + Z.of_nat (length path)))
  ++ 1 :: le_bytes 2 (Z.of_nat (length path)) ++ path.

(** An open request with a path of 256 characters passes every check of the
    decoder, and the terminating NUL is then written one byte behind
    [struct rmtfs_open_req]; with 255 characters all is well. *)
Theorem open_req_string_off_by_one :
  qmi_decode_message (replicate 260 0) (open_req_msg (replicate 256 97) ++ replicate 64 0) 266
    0 QMI_RMTFS_OPEN (Some rmtfs_open_req_ei) = Fault
  /\ qmi_decode_message (replicate 260 0) (open_req_msg (replicate 255 97) ++ replicate 64 0) 265
    0 QMI_RMTFS_OPEN (Some rmtfs_open_req_ei)
    = Ret (258, replicate 4 0 ++ replicate 255 97 ++ [0], Some 1).
Proof. split; vm_compute; reflexivity. Qed.

(** The decoder does not compare what it reads with the length of the
    message: a close request that ends after the header of its only TLV is
    accepted, and the caller id it yields is whatever the receive buffer held
    behind the message, for any such bytes. *)
Theorem truncated_request_reads_stale_bytes (b0 b1 b2 b3 : Z) :
  qmi_decode_message (replicate 4 0)
    (qmi_header_bytes (MkHdr 0 1 QMI_RMTFS_CLOSE 3) ++ [1; 4; 0] ++ [b0; b1; b2; b3]) 10
    0 QMI_RMTFS_CLOSE (Some rmtfs_close_req_ei)
  = Ret (7, [b0; b1; b2; b3], Some 1).
Proof. reflexivity. Qed.

(** A string declared [VAR_LEN_ARRAY] without a length element, as all the
    request strings of the daemons are, cannot be encoded: for every structure
    and every buffer that has room for a header, encoding an open request
    fails with [-EINVAL]. *)
Theorem var_len_string_never_encodes buf data_len type msg_id txn_id c :
  7 <= data_len ->
  qmi_encode_message buf data_len type msg_id txn_id (Some c) (Some rmtfs_open_req_ei)
  = Ret (- EINVAL, buf).
Proof.
  intros Hlen. unfold qmi_encode_message. cbn [mbind outcome_bind]. change (negb (0 =? 0)) with false.
  cbv iota. unfold sizeof_qmi_header. destruct (Z.ltb_spec data_len 7); [lia|]. reflexivity.
Qed.

Lemma var_len_string_never_encodes_witness :
  qmi_encode_message (replicate 300 0) 300 0 1 1 (Some (replicate 260 0)) (Some rmtfs_open_req_ei)
  = Ret (- EINVAL, replicate 300 0).
Proof. apply var_len_string_never_encodes. lia. Defined.

(** A domain list response with one entry of the name "abcde". *)
Definition demo_domain_resp : list Z :=
  replicate 12 0 ++ [1; 0; 0; 0] ++ [1; 0; 0; 0] ++ replicate 4 0 ++ [97; 98; 99; 100; 101]
  ++ replicate 263 0.

(** The check for a string inside a structure leaves out the three bytes of
    the TLV header in front of the structure: with a packet buffer of 22 bytes,
    which pass the check, the name of the response below is written over the
    end of the buffer; a buffer large enough encodes it. *)
Theorem nested_string_overruns_buffer :
  qmi_encode_message (replicate 22 0) 22 2 SERVREG_LOC_GET_DOMAIN_LIST 1 (Some demo_domain_resp)
    (Some servreg_loc_get_domain_list_resp_ei) = Fault
  /\ exists buf, qmi_encode_message (replicate 64 0) 64 2 SERVREG_LOC_GET_DOMAIN_LIST 1
    (Some demo_domain_resp) (Some servreg_loc_get_domain_list_resp_ei) = Ret (33, buf).
Proof. split; [vm_compute; reflexivity|]. eexists. vm_compute. reflexivity. Qed.

(** C7: The encoder against its reference.  Whenever the message that
    [enc_ref] describes fits the packet, [qmi_encode_message] returns its length
    and leaves in the buffer the header, exactly those bytes, and behind them
    what was there before; and [qmi_decode_header] accepts the result and finds
    the message id. *)
Theorem qmi_encode_message_refines buf data_len type msg_id txn_id c l bs :
  enc_ref (qmi_fuel (Some l) data_len) l c 0 1 0 [] = Ret (Some bs) ->
  7 + Z.of_nat (length bs) <= data_len < 2147483648 -> data_len <= Z.of_nat (length buf) ->
  let msg := message_bytes type msg_id txn_id bs in
  qmi_encode_message buf data_len type msg_id txn_id (Some c) (Some l)
    = Ret (Z.of_nat (length msg), msg ++ drop (length msg) buf)
  /\ (Z.of_nat (length bs) < 65536 ->
      qmi_decode_header (msg ++ drop (length msg) buf) (Z.of_nat (length msg))
      = Ret (0, Some (u16 msg_id))).
Proof.
  intros Href Hlen Hfit msg.
  assert (length msg = 7 + length bs)%nat as Hm
    by (unfold msg, message_bytes; by rewrite length_app, length_qmi_header_bytes).
  rewrite Hm. split.
  - rewrite (encode_message_written _ _ _ _ _ _ _ bs) by done. do 2 f_equal. lia.
  - intros Hs. unfold qmi_decode_header, sizeof_qmi_header.
    rewrite load_ret by (rewrite ?length_app; lia). cbn [mbind outcome_bind].
    change (Z.to_nat 0) with 0%nat. change (Z.to_nat 7) with 7%nat. rewrite drop_0.
    unfold msg, message_bytes. rewrite <- app_assoc.
    rewrite take_app_length' by (by rewrite length_qmi_header_bytes).
    rewrite qmi_header_of_bytes by (cbn; apply u16_range || apply u8_range).
    cbn [h_msg_len h_msg_id]. rewrite u16_small, u64_small by lia.
    destruct (Z.eqb_spec (Z.of_nat (length bs)) (Z.of_nat (7 + length bs) - 7)); [done|lia].
Qed.

Lemma qmi_encode_message_refines_witness :
  qmi_encode_message (replicate 256 9) 256 2 QMI_RMTFS_CLOSE 5 (Some [0; 0; 0; 0]) (Some rmtfs_close_resp_ei)
  = Ret (14, [2; 5; 0; 2; 0; 7; 0; 2; 4; 0; 0; 0; 0; 0] ++ replicate 242 9).
Proof.
  apply (fun H1 H2 H3 => proj1 (qmi_encode_message_refines (replicate 256 9) 256 2 QMI_RMTFS_CLOSE 5
    [0; 0; 0; 0] rmtfs_close_resp_ei [2; 4; 0; 0; 0; 0; 0] H1 H2 H3)).
  - vm_compute. reflexivity.
  - simpl. lia.
  - simpl. lia.
Defined.
