(* ===== verification/Storage.v ===== *)
(** * Partition storage of rmtfs (src/qcom/rmtfs/storage.c)

    Ten handles, each open on one of four partitions for one node.  In the
    normal mode a handle is a file descriptor; in read-only mode it is a shadow
    copy of the partition in memory, which takes the writes.

    The files are outside the repository: the class [Files] has the calls
    storage.c makes, on a world of any type. *)

From Stdlib Require Import ZArith Lia.
From stdpp Require Import base list numbers strings.
From S2P Require Import Prelude.

Definition MAX_CALLERS : nat := 10.
Definition STORAGE_MAX_SIZE : Z := 16777216.

(** ** The outside *)

(** What [storage_populate_shadow_buf] learns of a file: the answers of [open],
    [lseek], [calloc] and [read], and the bytes read. *)
Record slurp : Type := MkSlurp
  { sl_open : Z; sl_len : Z; sl_calloc : bool; sl_read : Z; sl_bytes : list Z }.

Class Files (W : Type) : Type := MkFiles
  { f_open : W -> list Z -> Z * W;
    f_slurp : W -> list Z -> slurp;
    f_pread : W -> Z -> Z -> Z -> Z * list Z;
    f_pwrite : W -> Z -> list Z -> Z -> Z * W;
    f_close : W -> Z -> W;
    (** whether [realloc] to that size succeeds, and the bytes it adds *)
    f_realloc : W -> Z -> option (list Z) }.

(** ** Data *)

Record partition : Type := MkPart { pt_path : list Z; pt_actual : list Z; pt_partlabel : list Z }.

Definition partition_table : list partition :=
  [ MkPart (bytes_of_string "/boot/modem_fs1") (bytes_of_string "modem_fs1") (bytes_of_string "modemst1");
    MkPart (bytes_of_string "/boot/modem_fs2") (bytes_of_string "modem_fs2") (bytes_of_string "modemst2");
    MkPart (bytes_of_string "/boot/modem_fsc") (bytes_of_string "modem_fsc") (bytes_of_string "fsc");
    MkPart (bytes_of_string "/boot/modem_fsg") (bytes_of_string "modem_fsg") (bytes_of_string "fsg") ].

(** [struct rmtfd]; the partition is an index into the table, [None] is NULL;
    the shadow buffer is the object it points to. *)
Record rmtfd : Type := MkRmtfd
  { rf_id : Z; rf_node : Z; rf_fd : Z; rf_dev_error : Z; rf_partition : option nat;
    rf_shadow_buf : option (list Z); rf_shadow_len : Z }.

Record storage (W : Type) : Type := MkStorage
  { storage_dir : list Z; storage_read_only : bool; storage_use_partitions : bool;
    rmtfds : list rmtfd; world : W }.
Arguments MkStorage {W}.
Arguments storage_dir {W}.
Arguments storage_read_only {W}.
Arguments storage_use_partitions {W}.
Arguments rmtfds {W}.
Arguments world {W}.

(** The zeroed static data. *)
Definition rmtfd_zero : rmtfd := MkRmtfd 0 0 0 0 None None 0.

Definition storage_static {W} (w : W) : storage W :=
  MkStorage (bytes_of_string "/boot") false false (replicate MAX_CALLERS rmtfd_zero) w.

Definition rmtfd_live (r : rmtfd) : bool :=
  negb (rf_fd r =? -1) || match rf_shadow_buf r with Some _ => true | None => false end.

Section ops.
Context {W : Type} `{Files W}.
Implicit Type st : storage W.

Definition set_rmtfds st (l : list rmtfd) (w : W) : storage W :=
  MkStorage (storage_dir st) (storage_read_only st) (storage_use_partitions st) l w.

Definition storage_init st (storage_root : option (list Z)) (read_only use_partitions : bool)
    : storage W :=
  let dir := match storage_root with Some r => r | None => storage_dir st end in
  let dir := if use_partitions
             then match storage_root with
                  | None => bytes_of_string "/dev/disk/by-partlabel"
                  | Some _ => dir
                  end
             else dir in
  MkStorage dir read_only (use_partitions || storage_use_partitions st)
    (imap (fun i r => MkRmtfd (Z.of_nat i) (rf_node r) (-1) (rf_dev_error r) (rf_partition r) None
                        (rf_shadow_len r)) (rmtfds st))
    (world st).

(** The loop over [partition_table]. *)
Definition find_partition (path : list Z) : option nat :=
  fst <$> list_find (fun p => pt_path p = path) partition_table.

(** The two loops over [rmtfds]. *)
Definition find_open st (node : Z) (part : nat) : option nat :=
  fst <$> list_find (fun r => rmtfd_live r = true /\ rf_node r = node /\ rf_partition r = Some part)
            (rmtfds st).

Definition find_free st : option nat :=
  fst <$> list_find (fun r => rf_fd r = -1 /\ rf_shadow_buf r = None) (rmtfds st).

(** [storage_populate_shadow_buf(rmtfd, file)]: the return code and the
    handle. *)
Definition storage_populate_shadow_buf (w : W) (r : rmtfd) (file : list Z) : Z * rmtfd :=
  let s := f_slurp w file in
  if sl_open s <? 0 then (-1, r)
  else if sl_len s <? 0 then (-1, r)
  else if negb (sl_calloc s) then (-1, r)
  else if sl_read s <? 0 then (-1, r)
  else
    let n := Z.to_nat (sl_read s) in
    (0, MkRmtfd (rf_id r) (rf_node r) (rf_fd r) (rf_dev_error r) (rf_partition r)
          (Some (take n (sl_bytes s) ++ replicate (Z.to_nat (sl_len s) - n) 0)) (sl_read s)).

(** [storage_open(node, path)]: the index of the handle, [None] for NULL. *)
Definition storage_open st (node : Z) (path : list Z) : option nat * storage W :=
  match find_partition path with
  | None => (None, st)
  | Some part =>
      match find_open st node part with
      | Some i => (Some i, st)
      | None =>
          match find_free st ≫= (fun i => (fun r => (i, r)) <$> rmtfds st !! i),
                partition_table !! part with
          | Some (i, r), Some p =>
              let file := if storage_use_partitions st then pt_partlabel p else pt_actual p in
              let fspath := storage_dir st ++ [47] ++ file in
              let opened r w :=
                (Some i, set_rmtfds st (<[i := MkRmtfd (rf_id r) node (rf_fd r) (rf_dev_error r)
                                                (Some part) (rf_shadow_buf r) (rf_shadow_len r)]>
                                         (rmtfds st)) w) in
              if negb (storage_read_only st) then
                let '(fd, w) := f_open (world st) fspath in
                if fd <? 0 then (None, set_rmtfds st (rmtfds st) w)
                else opened (MkRmtfd (rf_id r) (rf_node r) fd (rf_dev_error r) (rf_partition r)
                               (rf_shadow_buf r) 0) w
              else
                let '(ret, r') := storage_populate_shadow_buf (world st) r fspath in
                if ret <? 0 then (None, st) else opened r' (world st)
          | _, _ => (None, st)
          end
      end
  end.

(** [storage_close(rmtfd)] on handle [i]. *)
Definition storage_close st (i : nat) : outcome (storage W) :=
  match rmtfds st !! i with
  | None => Fault
  | Some r =>
      Ret (set_rmtfds st (<[i := MkRmtfd (rf_id r) (rf_node r) (-1) (rf_dev_error r) None None 0]>
                            (rmtfds st))
             (f_close (world st) (rf_fd r)))
  end.

(** [storage_get(node, caller_id)]: a negative [caller_id] indexes in front of
    the array. *)
Definition storage_get st (node caller_id : Z) : outcome (option nat) :=
  if Z.of_nat MAX_CALLERS <=? caller_id then Ret None
  else if caller_id <? 0 then Fault
  else
    match rmtfds st !! Z.to_nat caller_id with
    | None => Fault
    | Some r => if negb (rf_node r =? node) then Ret None else Ret (Some (Z.to_nat caller_id))
    end.

Definition storage_get_caller_id st (i : nat) : outcome Z :=
  match rmtfds st !! i with None => Fault | Some r => Ret (rf_id r) end.

(** [storage_get_error(rmtfd)]; [None] is a NULL pointer. *)
Definition storage_get_error st (i : option nat) : outcome Z :=
  match i ≫= (rmtfds st !!.) with None => Fault | Some r => Ret (rf_dev_error r) end.

Definition storage_exit st : W :=
  fold_left (fun w r => if 0 <=? rf_fd r then f_close w (rf_fd r) else w) (rmtfds st) (world st).

(** [memset(buf + n, 0, nbyte - n)] and the returned [nbyte] close
    [storage_pread]; [n < nbyte] compares as unsigned. *)
Definition pread_finish (buf : list Z) (n nbyte : Z) : outcome (list Z * Z) :=
  if u64 n <? nbyte then
    buf' ← store buf n (replicate (Z.to_nat (nbyte - n)) 0); Ret (buf', nbyte)
  else Ret (buf, nbyte).

(** [storage_pread(rmtfd, buf, nbyte, offset)]: the buffer and the result. *)
Definition storage_pread st (i : nat) (buf : list Z) (nbyte off : Z) : outcome (list Z * Z) :=
  match rmtfds st !! i with
  | None => Fault
  | Some r =>
      if negb (storage_read_only st) then
        let '(n, bs) := f_pread (world st) (rf_fd r) nbyte off in
        buf' ← store buf 0 (take (Z.to_nat n) bs);
        pread_finish buf' n nbyte
      else
        let n := s64 (Z.min nbyte (u64 (rf_shadow_len r - off))) in
        if 0 <? n then
          bs ← match rf_shadow_buf r with Some m => load m off n | None => Fault end;
          buf' ← store buf 0 bs;
          pread_finish buf' n nbyte
        else pread_finish buf 0 nbyte
  end.

(** [storage_pwrite(rmtfd, buf, nbyte, offset)] with [bs] the [nbyte] bytes. *)
Definition storage_pwrite st (i : nat) (bs : list Z) (off : Z) : outcome (storage W * Z) :=
  let nbyte := Z.of_nat (length bs) in
  match rmtfds st !! i with
  | None => Fault
  | Some r =>
      let new_len := u64 (off + nbyte) in
      if negb (storage_read_only st) then
        let '(n, w) := f_pwrite (world st) (rf_fd r) bs off in Ret (set_rmtfds st (rmtfds st) w, n)
      else if STORAGE_MAX_SIZE <=? new_len then Ret (st, -1)
      else
        let grown :=
          if rf_shadow_len r <? new_len then
            match f_realloc (world st) new_len with
            | None => None
            | Some fill =>
                let old := match rf_shadow_buf r with Some m => m | None => [] end in
                Some (Some (take (Z.to_nat new_len) (old ++ fill)), new_len)
            end
          else Some (rf_shadow_buf r, rf_shadow_len r) in
        match grown with
        | None => Ret (st, -1)
        | Some (None, _) => Fault
        | Some (Some m, len) =>
            m' ← store m off bs;
            Ret (set_rmtfds st (<[i := MkRmtfd (rf_id r) (rf_node r) (rf_fd r) (rf_dev_error r)
                                         (rf_partition r) (Some m') len]> (rmtfds st)) (world st),
                 nbyte)
        end
  end.

End ops.
