(* ===== verification/StorageProofs.v ===== *)
(** * Correctness of the partition storage

    The invariant of the handle table and its preservation, opening as a partial
    function of (node, partition), and the shadow copies as byte stores. *)

From Stdlib Require Import ZArith Lia.
From stdpp Require Import base list numbers strings relations.
From S2P Require Import Prelude Storage.

(** What the files' calls promise: [read], [pread] and [pwrite] transfer no more
    than they were asked to or answer [-1], [open] answers [-1] or a descriptor, [close] of [-1]
    does nothing, [realloc] returns an object of the size asked for.  A
    partition image is smaller than the limit on shadow copies. *)
Class FilesOk (W : Type) `{Files W} : Prop := MkFilesOk
  { ok_open : forall w p, -1 <= fst (f_open w p);
    ok_slurp : forall w p, 0 <= sl_len (f_slurp w p) -> 0 <= sl_read (f_slurp w p) ->
      sl_read (f_slurp w p) <= sl_len (f_slurp w p) < STORAGE_MAX_SIZE
      /\ Z.of_nat (length (sl_bytes (f_slurp w p))) = sl_read (f_slurp w p);
    ok_pread : forall w fd n off, 0 <= n -> -1 <= fst (f_pread w fd n off) <= n
      /\ (0 <= fst (f_pread w fd n off) ->
          Z.of_nat (length (snd (f_pread w fd n off))) = fst (f_pread w fd n off));
    ok_close : forall w, f_close w (-1) = w;
    ok_realloc : forall w n fill, 0 <= n -> f_realloc w n = Some fill -> Z.of_nat (length fill) = n }.

(** ** The invariant *)

Definition shadow_ok (r : rmtfd) : Prop :=
  match rf_shadow_buf r with
  | None => rf_shadow_len r = 0
  | Some m => 0 <= rf_shadow_len r <= Z.of_nat (length m) /\ rf_shadow_len r < STORAGE_MAX_SIZE
  end.

Record rmtfd_ok (ro : bool) (r : rmtfd) : Prop := MkRmtfdOk
  { ro_fd : ro = true -> rf_fd r = -1;
    rw_shadow : ro = false -> rf_shadow_buf r = None;
    ok_shadow : shadow_ok r;
    ok_fd : -1 <= rf_fd r;
    ok_part : rmtfd_live r = true -> exists p, rf_partition r = Some p /\ (p < length partition_table)%nat }.

Record storage_ok {W} (st : storage W) : Prop := MkStorageOk
  { so_length : length (rmtfds st) = MAX_CALLERS;
    so_ids : forall i r, rmtfds st !! i = Some r -> rf_id r = Z.of_nat i;
    so_handles : forall i r, rmtfds st !! i = Some r -> rmtfd_ok (storage_read_only st) r;
    so_uniq : forall i j r r', rmtfds st !! i = Some r -> rmtfds st !! j = Some r' ->
      rmtfd_live r = true -> rmtfd_live r' = true -> rf_node r = rf_node r' ->
      rf_partition r = rf_partition r' -> i = j }.

Lemma live_cases r :
  rmtfd_live r = false <-> rf_fd r = -1 /\ rf_shadow_buf r = None.
Proof.
  unfold rmtfd_live. destruct (Z.eqb_spec (rf_fd r) (-1)), (rf_shadow_buf r); simpl; naive_solver.
Qed.

(** Replacing one handle. *)
Lemma storage_ok_insert {W} (st : storage W) i r w :
  storage_ok st -> (i < MAX_CALLERS)%nat -> rf_id r = Z.of_nat i ->
  rmtfd_ok (storage_read_only st) r ->
  (rmtfd_live r = true -> forall j r', rmtfds st !! j = Some r' -> rmtfd_live r' = true ->
     rf_node r' = rf_node r -> rf_partition r' = rf_partition r -> j = i) ->
  storage_ok (set_rmtfds st (<[i := r]> (rmtfds st)) w).
Proof.
  intros [Hlen Hids Hh Hu] Hi Hid Hr Hnew. constructor; simpl.
  - by rewrite length_insert.
  - intros j r'. rewrite list_lookup_insert. case_decide as Hd; [|apply Hids].
    destruct Hd as [-> _]. by intros [= <-].
  - intros j r'. rewrite list_lookup_insert. case_decide; [by intros [= <-]|apply Hh].
  - intros j k r1 r2. rewrite !list_lookup_insert.
    case_decide as Hj; case_decide as Hk; destruct_and?; subst; try done.
    + intros [= <-] H2 L1 L2 Hn Hp. symmetry. by apply (Hnew L1 k r2).
    + intros H1 [= <-] L1 L2 Hn Hp. by apply (Hnew L2 j r1).
    + apply Hu.
Qed.

(** ** Opening *)

Section facts.
Context {W : Type} `{FilesOk W}.
Implicit Type st : storage W.

Lemma find_open_Some st node part i :
  find_open st node part = Some i -> exists r, rmtfds st !! i = Some r
    /\ rmtfd_live r = true /\ rf_node r = node /\ rf_partition r = Some part.
Proof.
  unfold find_open. intros ([i' r] & Hf & ->)%fmap_Some. apply list_find_Some in Hf. naive_solver.
Qed.

Lemma find_open_None st node part :
  find_open st node part = None -> forall i r, rmtfds st !! i = Some r -> rmtfd_live r = true ->
    rf_node r = node -> rf_partition r <> Some part.
Proof.
  unfold find_open. intros Hf%fmap_None i r Hi Hl Hn Hp. rewrite list_find_None in Hf.
  rewrite Forall_lookup in Hf. by apply (Hf i r Hi).
Qed.

Lemma find_free_Some st i :
  find_free st = Some i -> exists r, rmtfds st !! i = Some r /\ rmtfd_live r = false.
Proof.
  unfold find_free. intros ([i' r] & Hf & ->)%fmap_Some. apply list_find_Some in Hf as (Hi & Hr & _).
  exists r. split; [done|]. by apply live_cases.
Qed.

Lemma find_partition_lt path part :
  find_partition path = Some part -> exists p, partition_table !! part = Some p /\ pt_path p = path.
Proof.
  unfold find_partition. intros ([i p] & Hf & ->)%fmap_Some. apply list_find_Some in Hf. naive_solver.
Qed.

Lemma populate_ok st r file r' :
  rmtfd_ok true r -> storage_populate_shadow_buf (world st) r file = (0, r') ->
  exists m, rf_shadow_buf r' = Some m /\ rf_fd r' = rf_fd r /\ rf_id r' = rf_id r
    /\ rf_node r' = rf_node r /\ rf_partition r' = rf_partition r /\ shadow_ok r'.
Proof.
  intros Hr. unfold storage_populate_shadow_buf.
  destruct (Z.ltb_spec (sl_open (f_slurp (world st) file)) 0); [done|].
  destruct (Z.ltb_spec (sl_len (f_slurp (world st) file)) 0); [done|].
  destruct (negb _); [done|].
  destruct (Z.ltb_spec (sl_read (f_slurp (world st) file)) 0); [done|].
  intros [= <-]. destruct (ok_slurp (world st) file) as [? Hl]; [done..|].
  eexists. split_and!; [reflexivity|done..|]. unfold shadow_ok. simpl.
  rewrite length_app, length_take, length_replicate. lia.
Qed.
(** What a successful open returns: a live handle for that node and path; the
    other handles are as before, and the handle itself was either live already
    or free. *)
Definition opened st st' (node : Z) (path : list Z) (i : nat) : Prop :=
  exists part r, find_partition path = Some part /\ rmtfds st' !! i = Some r
    /\ rmtfd_live r = true /\ rf_node r = node /\ rf_partition r = Some part
    /\ (forall j, j <> i -> rmtfds st' !! j = rmtfds st !! j)
    /\ (st' = st \/ exists r0, rmtfds st !! i = Some r0 /\ rmtfd_live r0 = false).

(** Taking a free handle. *)
Lemma open_free st node path part i r r' w :
  storage_ok st -> find_partition path = Some part -> find_open st node part = None ->
  rmtfds st !! i = Some r -> rmtfd_live r = false ->
  rf_id r' = rf_id r -> rf_node r' = node -> rf_partition r' = Some part -> rmtfd_live r' = true ->
  (storage_read_only st = true -> rf_fd r' = -1) ->
  (storage_read_only st = false -> rf_shadow_buf r' = None) -> shadow_ok r' -> -1 <= rf_fd r' ->
  let st' := set_rmtfds st (<[i := r']> (rmtfds st)) w in
  storage_ok st' /\ opened st st' node path i.
Proof.
  intros Hok Hpart Hnone Hi Hfree Hid Hn Hp Hlive Hro Hrw Hsh Hfd st'.
  assert (i < MAX_CALLERS)%nat as Hlt
    by (rewrite <- (so_length _ Hok); by eapply lookup_lt_Some).
  destruct (find_partition_lt path part Hpart) as (p & Hlook & _).
  split.
  - apply storage_ok_insert; try done.
    + rewrite Hid. by apply (so_ids _ Hok).
    + constructor; try done. intros _. exists part. split; [done|]. by eapply lookup_lt_Some.
    + intros _ j r0 Hj Hl0 Hn0 Hp0. exfalso.
      apply (find_open_None st node part Hnone j r0 Hj Hl0); congruence.
  - exists part, r'. split_and!; try done.
    + simpl. rewrite list_lookup_insert_eq; [done|]. by eapply lookup_lt_Some.
    + intros j Hj. simpl. by rewrite list_lookup_insert_ne.
    + right. eauto.
Qed.

Lemma storage_open_spec st node path :
  storage_ok st ->
  let h := fst (storage_open st node path) in
  let st' := snd (storage_open st node path) in
  storage_ok st' /\ storage_read_only st' = storage_read_only st
  /\ (storage_read_only st = true -> world st' = world st)
  /\ match h with
     | None => rmtfds st' = rmtfds st
     | Some i => opened st st' node path i
     end.
Proof.
  intros Hok. unfold storage_open.
  destruct (find_partition path) as [part|] eqn:Hpart; [|done].
  destruct (find_open st node part) as [i|] eqn:Hopen; simpl.
  { destruct (find_open_Some _ _ _ _ Hopen) as (r & Hr & Hl & Hn & Hp).
    split_and!; try done. exists part, r. split_and!; try done. by left. }
  destruct (find_free st) as [i|] eqn:Hfree; simpl; [|done].
  destruct (find_free_Some _ _ Hfree) as (r & Hr & Hdead). rewrite Hr. simpl.
  destruct (find_partition_lt _ _ Hpart) as (p & Hlook & _). rewrite Hlook.
  pose proof (so_handles _ Hok i r Hr) as [Hro Hrw Hsh Hfd _].
  apply live_cases in Hdead as Hd. destruct Hd as [Hfd1 Hsb].
  destruct (storage_read_only st) eqn:Hmode; simpl.
  - destruct (storage_populate_shadow_buf (world st) r _) as [ret r'] eqn:Hpop.
    destruct (Z.ltb_spec ret 0); simpl; [done|].
    assert (ret = 0) as -> by (revert Hpop; unfold storage_populate_shadow_buf; repeat case_match;
      intros [= <- <-]; lia).
    destruct (populate_ok st r _ r' ltac:(constructor; [done..|congruence]) Hpop)
      as (m & Hm & Hfd' & Hid' & Hn' & Hp' & Hsh').
    match goal with |- context [set_rmtfds st (<[i := ?x]> _) ?w] =>
      destruct (open_free st node path part i r x w) as [Ha Hb]; simpl; try done end.
    + unfold rmtfd_live. simpl. rewrite Hm. by rewrite orb_true_r.
    + intros _. by rewrite Hfd'.
    + by rewrite Hmode.
    + rewrite Hfd'. lia.
  - destruct (f_open (world st) _) as [fd w] eqn:Ho.
    match type of Ho with f_open _ ?f = _ => pose proof (ok_open (world st) f) as Hge end.
    rewrite Ho in Hge. simpl in Hge.
    destruct (Z.ltb_spec fd 0); simpl.
    { split_and!; try done. destruct Hok; by constructor. }
    match goal with |- context [set_rmtfds st (<[i := ?x]> _) ?w] =>
      destruct (open_free st node path part i r x w) as [Ha Hb]; simpl; try done end.
    + unfold rmtfd_live. simpl. destruct (Z.eqb_spec fd (-1)); [lia|done].
    + by rewrite Hmode.
    + unfold shadow_ok. simpl. by rewrite Hsb.
Qed.
(** ** Closing and looking up *)

Lemma storage_close_spec st i :
  storage_ok st -> (i < MAX_CALLERS)%nat ->
  exists st' r, storage_close st i = Ret st' /\ storage_ok st'
    /\ storage_read_only st' = storage_read_only st
    /\ rmtfds st' !! i = Some r /\ rmtfd_live r = false
    /\ (forall j, j <> i -> rmtfds st' !! j = rmtfds st !! j).
Proof.
  intros Hok Hi. unfold storage_close.
  destruct (lookup_lt_is_Some_2 (rmtfds st) i) as [r Hr]; [by rewrite (so_length _ Hok)|]. rewrite Hr.
  eexists _, _. split; [reflexivity|]. split_and!; try done.
  - apply storage_ok_insert; simpl; try done; first [by apply (so_ids _ Hok)|by constructor].
  - simpl. rewrite list_lookup_insert_eq; [done|]. by eapply lookup_lt_Some.
  - done.
  - intros j Hj. simpl. by rewrite list_lookup_insert_ne.
Qed.

Lemma storage_get_spec st node caller_id :
  storage_ok st -> 0 <= caller_id ->
  exists h, storage_get st node caller_id = Ret h
    /\ match h with
       | Some i => Z.of_nat i = caller_id /\ (i < MAX_CALLERS)%nat
           /\ exists r, rmtfds st !! i = Some r /\ rf_node r = node
       | None => True
       end.
Proof.
  intros Hok Hc. unfold storage_get. destruct (Z.leb_spec (Z.of_nat MAX_CALLERS) caller_id).
  { by exists None. }
  destruct (Z.ltb_spec caller_id 0); [lia|].
  destruct (lookup_lt_is_Some_2 (rmtfds st) (Z.to_nat caller_id)) as [r Hr];
    [rewrite (so_length _ Hok); lia|].
  rewrite Hr. destruct (Z.eqb_spec (rf_node r) node); simpl.
  - exists (Some (Z.to_nat caller_id)). split_and!; [done|lia|lia|eauto].
  - by exists None.
Qed.

(** ** The shadow copies *)

(** What a read of [n] bytes at [off] sees: the shadow up to its length, then
    zeros. *)
Definition shadow_view (m : list Z) (len off n : Z) : list Z :=
  let bs := take (Z.to_nat n) (drop (Z.to_nat off) (take (Z.to_nat len) m)) in
  bs ++ replicate (Z.to_nat n - length bs) 0.

Lemma pread_finish_pad buf bs n nbyte :
  Z.of_nat (length buf) = nbyte -> Z.of_nat (length bs) = n -> take (length bs) buf = bs ->
  n <= nbyte < 9223372036854775808 ->
  pread_finish buf n nbyte = Ret (bs ++ replicate (Z.to_nat nbyte - length bs) 0, nbyte).
Proof.
  intros Hb Hn Ht Hle. unfold pread_finish. rewrite u64_small by lia.
  destruct (Z.ltb_spec n nbyte).
  - rewrite store_ret by (rewrite ?length_replicate; lia). cbn [mbind outcome_bind].
    rewrite drop_ge by (rewrite length_replicate; lia). rewrite app_nil_r.
    replace (Z.to_nat n) with (length bs) by lia. rewrite Ht.
    by replace (Z.to_nat (nbyte - n)) with (Z.to_nat nbyte - length bs)%nat by lia.
  - replace (Z.to_nat nbyte - length bs)%nat with 0%nat by lia. simpl. rewrite app_nil_r.
    rewrite <- Ht. by rewrite take_ge by lia.
Qed.

Lemma storage_pread_shadow st i r m buf nbyte off :
  storage_ok st -> storage_read_only st = true -> rmtfds st !! i = Some r ->
  rf_shadow_buf r = Some m -> Z.of_nat (length buf) = nbyte -> nbyte < 2147483648 ->
  0 <= off <= rf_shadow_len r ->
  storage_pread st i buf nbyte off = Ret (shadow_view m (rf_shadow_len r) off nbyte, nbyte).
Proof.
  intros Hok Hro Hr Hm Hb Hmax Hoff. unfold storage_pread. rewrite Hr, Hro. simpl.
  pose proof (ok_shadow _ _ (so_handles _ Hok i r Hr)) as Hsh. unfold shadow_ok in Hsh.
  rewrite Hm in Hsh. unfold STORAGE_MAX_SIZE in Hsh. set (len := rf_shadow_len r) in *.
  rewrite (u64_small (len - off)) by lia. rewrite s64_small by lia. unfold shadow_view. cbv zeta.
  set (n := Z.min nbyte (len - off)).
  assert (take (Z.to_nat nbyte) (drop (Z.to_nat off) (take (Z.to_nat len) m))
          = take (Z.to_nat n) (drop (Z.to_nat off) m)) as ->.
  { rewrite skipn_firstn_comm, take_take. f_equal. lia. }
  destruct (Z.ltb_spec 0 n).
  - rewrite Hm, load_ret by lia. cbn [mbind outcome_bind].
    assert (Z.of_nat (length (take (Z.to_nat n) (drop (Z.to_nat off) m))) = n) as Hn
      by (rewrite length_take, length_drop; lia).
    rewrite store_ret by (rewrite ?Hn; lia). cbn [mbind outcome_bind]. simpl take at 1. simpl app.
    apply pread_finish_pad; [|done| |lia].
    + rewrite length_app, length_drop. lia.
    + by rewrite take_app_length.
  - replace (Z.to_nat n) with 0%nat by lia. rewrite take_0.
    rewrite (pread_finish_pad buf []); simpl; try done. lia.
Qed.
(** What a successful shadow write leaves. *)
Record shadow_written st st' (i : nat) (bs : list Z) (off : Z) : Prop := MkWritten
  { sw_ok : storage_ok st';
    sw_mode : storage_read_only st' = storage_read_only st;
    sw_world : world st' = world st;
    sw_others : forall j, j <> i -> rmtfds st' !! j = rmtfds st !! j;
    sw_handle : exists r m r' m', rmtfds st !! i = Some r /\ rmtfds st' !! i = Some r'
      /\ rf_shadow_buf r = Some m /\ rf_shadow_buf r' = Some m'
      /\ rf_shadow_len r' = Z.max (rf_shadow_len r) (off + Z.of_nat (length bs))
      /\ load m' off (Z.of_nat (length bs)) = Ret bs
      /\ (forall k : nat, Z.of_nat k < rf_shadow_len r ->
            Z.of_nat k < off \/ off + Z.of_nat (length bs) <= Z.of_nat k -> m' !! k = m !! k)
      /\ rf_node r' = rf_node r /\ rf_partition r' = rf_partition r }.

(** The write proper, into a buffer [m1] that is large enough. *)
Lemma shadow_store st i r m m1 bs off :
  storage_ok st -> storage_read_only st = true -> rmtfds st !! i = Some r ->
  rf_shadow_buf r = Some m -> 0 <= off ->
  let len := Z.max (rf_shadow_len r) (off + Z.of_nat (length bs)) in
  len < STORAGE_MAX_SIZE -> len <= Z.of_nat (length m1) ->
  (forall k : nat, Z.of_nat k < rf_shadow_len r -> m1 !! k = m !! k) ->
  exists m' st', store m1 off bs = Ret m'
    /\ st' = set_rmtfds st (<[i := MkRmtfd (rf_id r) (rf_node r) (rf_fd r) (rf_dev_error r)
                                     (rf_partition r) (Some m') len]> (rmtfds st)) (world st)
    /\ shadow_written st st' i bs off.
Proof.
  intros Hok Hro Hr Hm Hoff len Hmax Hfit Hsame.
  pose proof (so_handles _ Hok i r Hr) as [Hfd1 Hrw Hsh Hfd Hpart].
  unfold shadow_ok in Hsh. rewrite Hm in Hsh.
  destruct (store m1 off bs) as [m'| |] eqn:Hst;
    [|rewrite store_ret in Hst by lia; done|rewrite store_ret in Hst by lia; done].
  eexists m', _. split; [done|]. split; [reflexivity|].
  pose proof (length_store _ _ _ _ Hst) as Hlen.
  assert (rmtfd_live r = true) as Hlive by (unfold rmtfd_live; rewrite Hm; by rewrite orb_true_r).
  constructor; simpl; try done.
  - apply storage_ok_insert; simpl.
    + done.
    + rewrite <- (so_length _ Hok). by eapply lookup_lt_Some.
    + by apply (so_ids _ Hok).
    + constructor; simpl; try done; [by rewrite Hro| |by intros _; apply Hpart].
      unfold shadow_ok. simpl. rewrite Hlen. lia.
    + intros _ j r0 Hj Hl0 Hn Hp. by apply (so_uniq _ Hok j i r0 r).
  - intros j Hj. by rewrite list_lookup_insert_ne.
  - exists r, m. eexists _, m'. rewrite list_lookup_insert_eq by (by eapply lookup_lt_Some).
    split_and!; try done; [by eapply load_store_same|].
    intros k Hk Hout. rewrite (store_lookup_other _ _ _ _ _ Hst Hout). by apply Hsame.
Qed.

Lemma storage_pwrite_shadow st i r m bs off :
  storage_ok st -> storage_read_only st = true -> rmtfds st !! i = Some r ->
  rf_shadow_buf r = Some m -> 0 <= off -> off + Z.of_nat (length bs) < STORAGE_MAX_SIZE ->
  (storage_pwrite st i bs off = Ret (st, -1) /\ exists n, f_realloc (world st) n = None)
  \/ exists st', storage_pwrite st i bs off = Ret (st', Z.of_nat (length bs))
       /\ shadow_written st st' i bs off.
Proof.
  intros Hok Hro Hr Hm Hoff Hmax. unfold storage_pwrite. rewrite Hr, Hro. simpl.
  pose proof (ok_shadow _ _ (so_handles _ Hok i r Hr)) as Hsh. unfold shadow_ok in Hsh.
  rewrite Hm in Hsh. unfold STORAGE_MAX_SIZE in *. rewrite u64_small by lia.
  destruct (Z.leb_spec 16777216 (off + Z.of_nat (length bs))); [lia|].
  destruct (Z.ltb_spec (rf_shadow_len r) (off + Z.of_nat (length bs))).
  - destruct (f_realloc (world st) (off + Z.of_nat (length bs))) as [fill|] eqn:Hre; [|by left; eauto].
    right. rewrite Hm. assert (Z.of_nat (length fill) = off + Z.of_nat (length bs)) as Hfill
      by (by apply (ok_realloc (world st)); [lia|]).
    destruct (shadow_store st i r m (take (Z.to_nat (off + Z.of_nat (length bs))) (m ++ fill)) bs off)
      as (m' & st' & Hst & -> & Hw); try done; unfold STORAGE_MAX_SIZE; try lia.
    + rewrite length_take, length_app. lia.
    + intros k Hk. rewrite lookup_take_lt by lia. rewrite lookup_app_l by lia. done.
    + eexists. split; [|exact Hw]. rewrite Hst. cbn [mbind outcome_bind].
      by rewrite Z.max_r by lia.
  - right. rewrite Hm.
    destruct (shadow_store st i r m m bs off) as (m' & st' & Hst & -> & Hw);
      try done; unfold STORAGE_MAX_SIZE; try lia.
    eexists. split; [|exact Hw]. rewrite Hst. cbn [mbind outcome_bind]. by rewrite Z.max_l by lia.
Qed.

(** Reading back what was written. *)
Lemma shadow_read_back st st' i bs off buf :
  shadow_written st st' i bs off -> storage_read_only st = true -> 0 <= off ->
  length buf = length bs -> Z.of_nat (length bs) < 2147483648 ->
  storage_pread st' i buf (Z.of_nat (length bs)) off = Ret (bs, Z.of_nat (length bs)).
Proof.
  intros [Hok Hmode _ _ (r & m & r' & m' & _ & Hr' & _ & Hm' & Hlen & Hld & _)] Hro Hoff Hl Hmax.
  rewrite (storage_pread_shadow st' i r' m'); try done; try lia; [|congruence].
  pose proof (ok_shadow _ _ (so_handles _ Hok i r' Hr')) as Hsh. unfold shadow_ok in Hsh.
  rewrite Hm' in Hsh. apply load_ret_inv in Hld as (_ & _ & Hfit & Hbs).
  unfold shadow_view. rewrite skipn_firstn_comm, take_take.
  replace (Nat.min _ _) with (Z.to_nat (Z.of_nat (length bs))) by lia. rewrite <- Hbs.
  replace (Z.to_nat _ - length bs)%nat with 0%nat by lia. simpl. by rewrite app_nil_r.
Qed.
End facts.

(** The state after initialisation. *)
Lemma storage_ok_init {W} (w : W) root ro parts : storage_ok (storage_init (storage_static w) root ro parts).
Proof.
  unfold storage_init, storage_static. simpl.
  assert (forall i r, imap (fun i r => MkRmtfd (Z.of_nat i) (rf_node r) (-1) (rf_dev_error r)
    (rf_partition r) None (rf_shadow_len r)) (replicate MAX_CALLERS rmtfd_zero) !! i = Some r ->
    r = MkRmtfd (Z.of_nat i) 0 (-1) 0 None None 0) as Hall.
  { intros i r Hi. rewrite list_lookup_imap in Hi. apply fmap_Some in Hi as (r0 & Hr0 & ->).
    apply lookup_replicate in Hr0 as [-> _]. done. }
  constructor; simpl; [done|..].
  - intros i r Hi. by rewrite (Hall i r Hi).
  - intros i r Hi. rewrite (Hall i r Hi). by constructor.
  - intros i j r r' Hi Hj Hl. rewrite (Hall i r Hi) in Hl. done.
Qed.
