(* ===== verification/StorageClaims.v ===== *)
(** * What the partition storage guarantees *)

From Stdlib Require Import ZArith Lia.
From stdpp Require Import base list numbers strings relations.
From S2P Require Import Prelude Storage StorageProofs.

Section claims.
Context {W : Type} `{FilesOk W}.
Implicit Type st : storage W.

(** The calls that change the state, on handles that are open. *)
Inductive storage_step : storage W -> storage W -> Prop :=
| step_open st node path : storage_step st (snd (storage_open st node path))
| step_close st i st' : (i < MAX_CALLERS)%nat -> storage_close st i = Ret st' -> storage_step st st'
| step_pwrite st i r bs off st' n :
    rmtfds st !! i = Some r -> rmtfd_live r = true -> 0 <= off ->
    off + Z.of_nat (length bs) < STORAGE_MAX_SIZE ->
    storage_pwrite st i bs off = Ret (st', n) -> storage_step st st'.

Lemma live_shadow st i r :
  storage_ok st -> storage_read_only st = true -> rmtfds st !! i = Some r -> rmtfd_live r = true ->
  exists m, rf_shadow_buf r = Some m.
Proof.
  intros Hok Hro Hr Hl. pose proof (ro_fd _ _ (so_handles _ Hok i r Hr) Hro) as Hfd.
  unfold rmtfd_live in Hl. rewrite Hfd in Hl. destruct (rf_shadow_buf r); [eauto|done].
Qed.

Lemma storage_step_ok st st' :
  storage_step st st' -> storage_ok st ->
  storage_ok st' /\ storage_read_only st' = storage_read_only st
  /\ (storage_read_only st = true -> world st' = world st).
Proof.
  intros Hs Hok. destruct Hs as [st node path|st i st' Hi Hc|st i r bs off st' n Hr Hl Hoff Hmax Hw].
  - destruct (storage_open_spec st node path Hok) as (? & ? & ? & _). done.
  - destruct (storage_close_spec st i Hok Hi) as (st1 & r & Hc' & Hok' & Hro & _).
    assert (st' = st1) as -> by congruence. split_and!; [done|done|]. intros Hm.
    revert Hc. unfold storage_close. destruct (rmtfds st !! i) as [r0|] eqn:Hr0; [|done].
    intros [= <-]. simpl. rewrite (ro_fd _ _ (so_handles _ Hok i r0 Hr0) Hm). apply ok_close.
  - destruct (storage_read_only st) eqn:Hm.
    + destruct (live_shadow st i r Hok Hm Hr Hl) as [m Hsb].
      destruct (storage_pwrite_shadow st i r m bs off Hok Hm Hr Hsb Hoff Hmax) as
        [[Heq _]|(st1 & Heq & Hsw)]; rewrite Heq in Hw; injection Hw as <- _.
      * by rewrite Hm.
      * destruct Hsw. by rewrite sw_mode, Hm.
    + revert Hw. unfold storage_pwrite. rewrite Hr, Hm. simpl.
      destruct (f_pwrite _ _ _ _) as [k w]. intros [= <- _]. simpl. split_and!; try done.
      destruct Hok; by constructor.
Qed.

Lemma storage_steps_ok st st' :
  rtc storage_step st st' -> storage_ok st ->
  storage_ok st' /\ (storage_read_only st = true -> world st' = world st).
Proof.
  induction 1 as [st|st1 st2 st3 Hs _ IH]; intros Hok; [done|].
  destruct (storage_step_ok st1 st2 Hs Hok) as (Hok2 & Hro2 & Hw).
  destruct (IH Hok2) as [? Hw3]. split; [done|]. intros Hr. rewrite Hw3 by congruence. by apply Hw.
Qed.

(** C18: The handle table stays consistent under opening, closing and writing,
    where writes go through handles that are open and end below
    [STORAGE_MAX_SIZE] ([step_pwrite]; writes to closed handles are considered below):
    ten handles that know their number, at most one open handle per node and
    partition, shadow copies no shorter than their length says; and in
    read-only mode nothing that is done to the handles reaches the files. *)
Theorem storage_invariant (w : W) root ro parts st :
  rtc storage_step (storage_init (storage_static w) root ro parts) st ->
  storage_ok st /\ (ro = true -> world st = w).
Proof.
  intros Hst. destruct (storage_steps_ok _ _ Hst) as [Hok Hw]; [apply storage_ok_init|].
  split; [done|]. intros ->. by apply Hw.
Qed.

(** Opening is a partial function of node and path: a path that is not in
    the partition table is refused and changes nothing; a handle that is
    returned belongs to that node and partition; opening the same path again
    returns the same handle and changes nothing; and no open handle of another
    node or partition is handed out. *)
Theorem storage_open_stable st node path :
  storage_ok st ->
  (find_partition path = None -> storage_open st node path = (None, st))
  /\ (forall i st', storage_open st node path = (Some i, st') ->
       opened st st' node path i
       /\ storage_open st' node path = (Some i, st')
       /\ (forall r, rmtfds st !! i = Some r -> rmtfd_live r = true ->
             rf_node r = node /\ rf_partition r = find_partition path)).
Proof.
  intros Hok. split; [intros Hp; unfold storage_open; by rewrite Hp|].
  intros i st' Heq. destruct (storage_open_spec st node path Hok) as (Hok' & _ & _ & Ho).
  rewrite Heq in Ho, Hok'. simpl in Ho, Hok'. split; [done|].
  destruct Ho as (part & r & Hpart & Hr & Hl & Hn & Hp & Hoth & Hwas). split.
  - unfold storage_open. rewrite Hpart. destruct (find_open st' node part) as [j|] eqn:Hf.
    + destruct (find_open_Some _ _ _ _ Hf) as (r' & Hr' & Hl' & Hn' & Hp').
      by rewrite (so_uniq _ Hok' i j r r') by congruence.
    + exfalso. by apply (find_open_None _ _ _ Hf i r).
  - intros r0 Hr0 Hl0. destruct Hwas as [-> |(r1 & Hr1 & Hd1)]; [|congruence].
    assert (r0 = r) as -> by congruence. by rewrite Hp, Hpart.
Qed.

(** In read-only mode a write within the size limit to an open handle either
    fails because memory could not be had, changing nothing, or is read back
    exactly, leaves every other byte of the copy and every other handle as it
    was, and does not touch the files. *)
Theorem shadow_write_read st i r bs off buf :
  storage_ok st -> storage_read_only st = true -> rmtfds st !! i = Some r -> rmtfd_live r = true ->
  0 <= off -> off + Z.of_nat (length bs) < STORAGE_MAX_SIZE -> length buf = length bs ->
  storage_pwrite st i bs off = Ret (st, -1)
  \/ exists st', storage_pwrite st i bs off = Ret (st', Z.of_nat (length bs))
       /\ storage_pread st' i buf (Z.of_nat (length bs)) off = Ret (bs, Z.of_nat (length bs))
       /\ shadow_written st st' i bs off.
Proof.
  intros Hok Hro Hr Hl Hoff Hmax Hb. destruct (live_shadow st i r Hok Hro Hr Hl) as [m Hm].
  destruct (storage_pwrite_shadow st i r m bs off Hok Hro Hr Hm Hoff Hmax) as
    [[Heq _]|(st' & Heq & Hsw)]; [by left|right].
  exists st'. split_and!; [done| |done]. unfold STORAGE_MAX_SIZE in Hmax.
  apply (shadow_read_back st); [done..|lia].
Qed.

(** When [pread] fails, [storage_pread] compares its [-1] as an unsigned
    number and reports a full read: the buffer keeps whatever it held. *)
Theorem failed_pread_reads_stale_buffer st i r buf nbyte off bs :
  storage_read_only st = false -> rmtfds st !! i = Some r ->
  f_pread (world st) (rf_fd r) nbyte off = (-1, bs) -> 0 <= nbyte < 18446744073709551615 ->
  storage_pread st i buf nbyte off = Ret (buf, nbyte).
Proof.
  intros Hro Hr Hp Hn. unfold storage_pread. rewrite Hr, Hro. simpl. rewrite Hp.
  change (Z.to_nat (-1)) with 0%nat. rewrite take_0. rewrite store_ret by (simpl; lia).
  cbn [mbind outcome_bind]. simpl. unfold pread_finish.
  change (u64 (-1)) with 18446744073709551615. destruct (Z.ltb_spec 18446744073709551615 nbyte); [lia|done].
Qed.

(** A read behind the end of a shadow copy: [shadow_len - offset] wraps, the
    clamp is lost and the copy runs outside the buffer. *)
Theorem shadow_read_past_end_faults st i r m buf nbyte off :
  storage_read_only st = true -> rmtfds st !! i = Some r -> rf_shadow_buf r = Some m ->
  0 <= rf_shadow_len r -> Z.of_nat (length m) < off < 4294967296 -> rf_shadow_len r < off ->
  0 < nbyte < 4294967296 ->
  storage_pread st i buf nbyte off = Fault.
Proof.
  intros Hro Hr Hm Hl Hoff Hlt Hn. unfold storage_pread. rewrite Hr, Hro. simpl.
  assert (u64 (rf_shadow_len r - off) = rf_shadow_len r - off + 18446744073709551616) as ->
    by (unfold u64; rewrite <- (Z_mod_plus_full _ 1); apply Z.mod_small; lia).
  rewrite Z.min_l, s64_small by lia. destruct (Z.ltb_spec 0 nbyte); [|lia]. rewrite Hm.
  unfold load. destruct (Z.leb_spec (off + nbyte) (Z.of_nat (length m))); [lia|].
  by rewrite andb_false_r.
Qed.

End claims.

(** ** A concrete set of files *)

(** Every file opens, holds 1024 bytes of ones, and fails to [pread]. *)
#[global] Instance demo_files : Files unit :=
  MkFiles unit (fun w _ => (3, w)) (fun _ _ => MkSlurp 3 1024 true 1024 (replicate 1024 1))
    (fun _ _ _ _ => (-1, [])) (fun w _ bs _ => (Z.of_nat (length bs), w)) (fun w _ => w)
    (fun _ n => Some (replicate (Z.to_nat n) 0)).

#[global] Instance demo_files_ok : FilesOk unit.
Proof.
  constructor; cbn [f_open f_slurp f_pread f_close f_realloc demo_files]; simpl fst; simpl snd;
    intros; try done; try lia.
  simplify_eq. rewrite length_replicate. lia.
Qed.

Definition demo_path : list Z := bytes_of_string "/boot/modem_fs2".

Definition demo_ro : storage unit := storage_init (storage_static tt) None true false.
Definition demo_ro_open : storage unit := snd (storage_open demo_ro 0 demo_path).

Lemma demo_ro_ok : storage_ok demo_ro_open.
Proof. apply storage_open_spec, storage_ok_init. Qed.

Lemma storage_invariant_witness : storage_ok demo_ro_open /\ (true = true -> world demo_ro_open = tt).
Proof.
  apply (storage_invariant tt None true false). eapply rtc_l; [|apply rtc_refl].
  apply (step_open demo_ro 0 demo_path).
Defined.

Lemma storage_open_stable_witness : storage_open demo_ro_open 0 demo_path = (Some 0%nat, demo_ro_open).
Proof.
  apply (proj2 (storage_open_stable demo_ro 0 demo_path (storage_ok_init tt None true false)) 0%nat demo_ro_open).
  vm_compute. reflexivity.
Defined.

Lemma shadow_write_read_witness :
  storage_pwrite demo_ro_open 0 [5; 6; 7] 100 = Ret (demo_ro_open, -1)
  \/ exists st', storage_pwrite demo_ro_open 0 [5; 6; 7] 100 = Ret (st', 3)
       /\ storage_pread st' 0 [0; 0; 0] 3 100 = Ret ([5; 6; 7], 3)
       /\ shadow_written demo_ro_open st' 0 [5; 6; 7] 100.
Proof.
  eapply (shadow_write_read demo_ro_open 0 _ [5; 6; 7] 100 [0; 0; 0]);
    [exact demo_ro_ok|reflexivity|reflexivity|reflexivity|lia|reflexivity|reflexivity].
Defined.

Lemma failed_pread_reads_stale_buffer_witness :
  storage_pread (storage_init (storage_static tt) None false false) 0 [9; 9; 9] 3 0 = Ret ([9; 9; 9], 3).
Proof.
  eapply (failed_pread_reads_stale_buffer (storage_init (storage_static tt) None false false) 0);
    [reflexivity|reflexivity|reflexivity|lia].
Defined.

Lemma shadow_read_past_end_faults_witness : storage_pread demo_ro_open 0 (replicate 512 0) 512 2048 = Fault.
Proof.
  eapply (shadow_read_past_end_faults demo_ro_open 0);
    [reflexivity|reflexivity|reflexivity|vm_compute; congruence|vm_compute; split; reflexivity
    |vm_compute; reflexivity|lia].
Defined.

(** A write of one byte to each of the ten handles. *)
Definition write_all (st : storage unit) : outcome (storage unit) :=
  fold_left (fun o i => st ← o; r ← storage_pwrite st i [1] 0; Ret (fst r)) (seq 0 MAX_CALLERS) (Ret st).

(** [storage_get] hands out handles that were never opened or are closed.
    In read-only mode a write to such a handle allocates a shadow copy for it:
    the handle then counts as in use but belongs to no partition, so it is
    neither found nor freed again, and after ten such writes no partition can
    be opened any more. *)
Theorem write_to_closed_handles_exhausts_table :
  storage_get demo_ro 0 4 = Ret (Some 4%nat)
  /\ exists st, write_all demo_ro = Ret st
     /\ (forall path, fst (storage_open st 0 path) = None)
     /\ Forall (fun r => rmtfd_live r = true /\ rf_partition r = None) (rmtfds st).
Proof.
  split; [reflexivity|]. eexists. split; [vm_compute; reflexivity|]. split.
  - intros path. unfold storage_open. destruct (find_partition path) as [part|]; [|done].
    reflexivity.
  - repeat (apply Forall_cons_2; [by split|]). apply Forall_nil_2.
Qed.

(** A caller id of 2^31 or more reaches [storage_get] as a negative [int],
    passes its only check and indexes in front of the handle table, in every
    state. *)
Theorem negative_caller_id_faults {W} (st : storage W) node caller_id :
  2147483648 <= caller_id < 4294967296 -> storage_get st node (s32 caller_id) = Fault.
Proof.
  intros Hc. unfold storage_get. assert (s32 caller_id < 0) as Hneg.
  { unfold s32. rewrite u32_small by lia. zcases; lia. }
  destruct (Z.leb_spec (Z.of_nat MAX_CALLERS) (s32 caller_id)); [lia|].
  by destruct (Z.ltb_spec (s32 caller_id) 0); [|lia].
Qed.

Lemma negative_caller_id_faults_witness : storage_get demo_ro 0 (s32 4294967295) = Fault.
Proof. apply negative_caller_id_faults. lia. Defined.
