(* ===== verification/SharedMem.v ===== *)
(** * Shared memory of rmtfs (src/qcom/rmtfs/sharedmem.c)

    The region the modem and the daemon exchange sectors through: either mapped
    ([base] is not NULL) or read and written through a character device.  The
    device is outside the repository: the class [MemDev]. *)

From Stdlib Require Import ZArith Lia.
From stdpp Require Import base list numbers.
From S2P Require Import Prelude.

(** [pread] and [pwrite] on the device: length or bytes, and offset. *)
Class MemDev (D : Type) : Type := MkMemDev
  { md_pread : D -> Z -> Z -> Z * list Z;
    md_pwrite : D -> list Z -> Z -> Z * D }.

(** [struct rmtfs_mem]; the mapped object is the list of its bytes. *)
Record rmtfs_mem (D : Type) : Type := MkMem
  { rm_address : Z; rm_size : Z; rm_base : option (list Z); rm_dev : D }.
Arguments MkMem {D}.
Arguments rm_address {D}.
Arguments rm_size {D}.
Arguments rm_base {D}.
Arguments rm_dev {D}.

Section ops.
Context {D : Type} `{MemDev D}.
Implicit Type rmem : rmtfs_mem D.

(** ** Using it *)

Definition rmtfs_mem_alloc rmem (alloc_size : Z) : Z :=
  if rm_size rmem <? alloc_size then - EINVAL else s64 (rm_address rmem).

Definition rmtfs_mem_free rmem : rmtfs_mem D := rmem.

(** [rmtfs_mem_ptr]: the offset in the mapped object, [None] for NULL. *)
Definition rmtfs_mem_ptr rmem (phys_address len : Z) : option Z :=
  if len <? 0 then None
  else
    let start := phys_address in
    let end_ := u64 (start + len) in
    if (start <? rm_address rmem) || (u64 (rm_address rmem + rm_size rmem) <? end_) then None
    else Some (phys_address - rm_address rmem).

(** [rmtfs_mem_read]: the buffer and the result. *)
Definition rmtfs_mem_read rmem (phys_address : Z) (buf : list Z) (len : Z) : outcome (list Z * Z) :=
  match rm_base rmem with
  | Some base =>
      match rmtfs_mem_ptr rmem phys_address len with
      | None => Ret (buf, - EINVAL)
      | Some p => bs ← load base p len; buf' ← store buf 0 bs; Ret (buf', len)
      end
  | None =>
      let '(n, bs) := md_pread (rm_dev rmem) len (s64 (phys_address - rm_address rmem)) in
      buf' ← store buf 0 (take (Z.to_nat n) bs); Ret (buf', n)
  end.

(** [rmtfs_mem_write]: the memory and the result. *)
Definition rmtfs_mem_write rmem (phys_address : Z) (buf : list Z) (len : Z)
    : outcome (rmtfs_mem D * Z) :=
  match rm_base rmem with
  | Some base =>
      match rmtfs_mem_ptr rmem phys_address len with
      | None => Ret (rmem, - EINVAL)
      | Some p =>
          bs ← load buf 0 len;
          base' ← store base p bs;
          Ret (MkMem (rm_address rmem) (rm_size rmem) (Some base') (rm_dev rmem), len)
      end
  | None =>
      bs ← load buf 0 len;
      let '(n, d) := md_pwrite (rm_dev rmem) bs (s64 (phys_address - rm_address rmem)) in
      Ret (MkMem (rm_address rmem) (rm_size rmem) None d, n)
  end.

End ops.

(** ** What the memory holds *)

(** A device promises to be an array of bytes: accesses inside it are carried
    out in full; others come back short or fail, and change no more than its
    bytes. *)
Class MemDevOk (D : Type) `{MemDev D} : Type := MkMemDevOk
  { dev_bytes : D -> option (list Z);
    dev_pread_in : forall d m n off bs, dev_bytes d = Some m -> load m off n = Ret bs -> md_pread d n off = (n, bs);
    dev_pwrite_in : forall d m bs off m', dev_bytes d = Some m -> store m off bs = Ret m' ->
      exists d', md_pwrite d bs off = (Z.of_nat (length bs), d') /\ dev_bytes d' = Some m';
    dev_pread_short : forall d m n off, dev_bytes d = Some m -> 0 <= n -> fst (md_pread d n off) <= n;
    dev_pwrite_keeps : forall d m bs off, dev_bytes d = Some m ->
      exists m', dev_bytes (snd (md_pwrite d bs off)) = Some m' /\ length m' = length m }.

(** The region holds [base], mapped or in the device, and does not wrap. *)
Record mem_ok {D} `{MemDevOk D} (rmem : rmtfs_mem D) (base : list Z) : Prop := MkMemOk
  { mo_bytes : match rm_base rmem with Some b => b = base | None => dev_bytes (rm_dev rmem) = Some base end;
    mo_size : Z.of_nat (length base) = rm_size rmem;
    mo_address : 0 <= rm_address rmem;
    mo_end : rm_address rmem + rm_size rmem < 18446744073709551616;
    mo_half : rm_size rmem < 9223372036854775808 }.

(** The bytes [phys .. phys + len) lie in the region. *)
Definition in_region {D} (rmem : rmtfs_mem D) (phys len : Z) : Prop :=
  rm_address rmem <= phys /\ phys + len <= rm_address rmem + rm_size rmem.

#[global] Instance in_region_dec {D} (rmem : rmtfs_mem D) phys len : Decision (in_region rmem phys len).
Proof. unfold in_region. apply _. Defined.

Section facts.
Context {D : Type} `{MemDevOk D}.
Implicit Type rmem : rmtfs_mem D.

Lemma rmtfs_mem_ptr_spec rmem base phys len :
  mem_ok rmem base -> 0 <= len -> 0 <= phys -> phys + len < 18446744073709551616 ->
  rmtfs_mem_ptr rmem phys len
  = if decide (in_region rmem phys len) then Some (phys - rm_address rmem) else None.
Proof.
  intros [_ Hs Ha Hmax _] Hl Hp Hw. unfold rmtfs_mem_ptr.
  destruct (Z.ltb_spec len 0); [lia|]. rewrite !u64_small by lia.
  case_decide as Hr; unfold in_region in Hr; zcases; simpl; try done; lia.
Qed.

(** The region after its bytes have changed. *)
Definition same_region rmem rmem' : Prop :=
  rm_address rmem' = rm_address rmem /\ rm_size rmem' = rm_size rmem
  /\ (is_Some (rm_base rmem') <-> is_Some (rm_base rmem)).

Lemma mem_ok_changed rmem rmem' base base' :
  mem_ok rmem base -> same_region rmem rmem' -> length base' = length base ->
  match rm_base rmem' with Some b => b = base' | None => dev_bytes (rm_dev rmem') = Some base' end -> mem_ok rmem' base'.
Proof. intros [_ Hs Ha Hmax Hh] (Ea & Es & _) Hl Hb. split; [done|..]; rewrite ?Ea, ?Es, ?Hl; done. Qed.

(** A write inside the region is carried out, and the rest stays. *)
Lemma rmtfs_mem_write_spec rmem base phys buf :
  mem_ok rmem base -> in_region rmem phys (Z.of_nat (length buf)) -> 0 <= phys ->
  exists rmem' base', store base (phys - rm_address rmem) buf = Ret base'
    /\ rmtfs_mem_write rmem phys buf (Z.of_nat (length buf)) = Ret (rmem', Z.of_nat (length buf))
    /\ same_region rmem rmem' /\ mem_ok rmem' base'.
Proof.
  intros Hok Hin Hp. pose proof Hok as [Hb Hs Ha Hmax Hh]. unfold in_region in Hin.
  destruct (store base (phys - rm_address rmem) buf) as [base'| |] eqn:Hst;
    [|rewrite store_ret in Hst by lia; done|rewrite store_ret in Hst by lia; done].
  pose proof (length_store _ _ _ _ Hst) as Hl.
  assert (load buf 0 (Z.of_nat (length buf)) = Ret buf) as Hld by (rewrite load_ret, drop_0, Nat2Z.id, take_ge by lia; done).
  unfold rmtfs_mem_write. destruct (rm_base rmem) as [b|] eqn:Eb.
  - subst b. rewrite (rmtfs_mem_ptr_spec rmem base), decide_True by (done || lia).
    rewrite Hld. cbn [mbind outcome_bind]. rewrite Hst. cbn [mbind outcome_bind].
    eexists _, base'. split; [done|]. split; [done|]. assert (same_region rmem (MkMem (rm_address rmem) (rm_size rmem) (Some base') (rm_dev rmem)))
      as Hsame by (split_and!; [done|done|by rewrite Eb]). split; [done|]. by eapply mem_ok_changed.
  - rewrite Hld. cbn [mbind outcome_bind]. rewrite s64_small by lia.
    destruct (dev_pwrite_in _ _ _ _ _ Hb Hst) as (d' & -> & Hd').
    eexists _, base'. split; [done|]. split; [done|].
    assert (same_region rmem (MkMem (rm_address rmem) (rm_size rmem) None d')) as Hsame by (split_and!; [done|done|by rewrite Eb]).
    split; [done|]. by eapply mem_ok_changed.
Qed.

Lemma rmtfs_mem_read_spec rmem base phys buf :
  mem_ok rmem base -> in_region rmem phys (Z.of_nat (length buf)) -> 0 <= phys ->
  exists bs, load base (phys - rm_address rmem) (Z.of_nat (length buf)) = Ret bs
    /\ rmtfs_mem_read rmem phys buf (Z.of_nat (length buf)) = Ret (bs, Z.of_nat (length buf)).
Proof.
  intros Hok Hin Hp. pose proof Hok as [Hb Hs Ha Hmax Hh]. unfold in_region in Hin.
  destruct (load base (phys - rm_address rmem) (Z.of_nat (length buf))) as [bs| |] eqn:Hld;
    [|rewrite load_ret in Hld by lia; done|rewrite load_ret in Hld by lia; done].
  pose proof (length_load _ _ _ _ Hld) as Hl. exists bs. split; [done|].
  assert (store buf 0 bs = Ret bs) as Hst by (rewrite store_ret, drop_ge by lia; simpl; by rewrite app_nil_r).
  unfold rmtfs_mem_read. destruct (rm_base rmem) as [b|].
  - subst b. rewrite (rmtfs_mem_ptr_spec rmem base), decide_True by (done || lia).
    rewrite Hld. cbn [mbind outcome_bind]. by rewrite Hst.
  - rewrite s64_small by lia. rewrite (dev_pread_in _ _ _ _ _ Hb Hld). by rewrite take_ge, Hst by lia.
Qed.

(** A mapped region refuses what is outside. *)
Lemma rmtfs_mem_outside rmem base phys buf len :
  mem_ok rmem base -> is_Some (rm_base rmem) -> ~ in_region rmem phys len -> 0 <= phys -> 0 <= len ->
  phys + len < 18446744073709551616 ->
  rmtfs_mem_read rmem phys buf len = Ret (buf, - EINVAL)
  /\ rmtfs_mem_write rmem phys buf len = Ret (rmem, - EINVAL).
Proof.
  intros Hok [b Hb] Hout Hp Hl Hw. unfold rmtfs_mem_read, rmtfs_mem_write.
  by rewrite Hb, (rmtfs_mem_ptr_spec rmem base), decide_False.
Qed.

(** Anywhere at all an access returns and leaves the memory in order. *)
Lemma mem_read_total rmem base phys buf :
  mem_ok rmem base -> 0 <= phys -> phys + Z.of_nat (length buf) < 18446744073709551616 ->
  exists buf' n, rmtfs_mem_read rmem phys buf (Z.of_nat (length buf)) = Ret (buf', n)
    /\ length buf' = length buf.
Proof.
  intros Hok Hp Hw. destruct (decide (is_Some (rm_base rmem))) as [Hm|Hdev].
  - destruct (decide (in_region rmem phys (Z.of_nat (length buf)))) as [Hin|Hout].
    + destruct (rmtfs_mem_read_spec rmem base phys buf Hok Hin Hp) as (bs & Hld & ->).
      apply length_load in Hld. eexists _, _. split; [done|lia].
    + destruct (rmtfs_mem_outside rmem base phys buf (Z.of_nat (length buf)) Hok Hm Hout) as [-> _]; try lia. by eexists _, _.
  - apply eq_None_not_Some in Hdev. destruct Hok as [Hb _ _ _ _]. unfold rmtfs_mem_read. rewrite Hdev in *.
    pose proof (dev_pread_short _ _ (Z.of_nat (length buf)) (s64 (phys - rm_address rmem)) Hb ltac:(lia)) as Hn.
    destruct (md_pread _ _ _) as [n bs]. cbn [fst] in Hn.
    rewrite store_ret by (rewrite ?length_take; lia). cbn [mbind outcome_bind]. eexists _, _. split; [done|].
    rewrite !length_app, length_drop, !length_take. change (Z.to_nat 0) with 0%nat. lia.
Qed.

Lemma mem_write_total rmem base phys buf :
  mem_ok rmem base -> 0 <= phys -> phys + Z.of_nat (length buf) < 18446744073709551616 ->
  exists rmem' n, rmtfs_mem_write rmem phys buf (Z.of_nat (length buf)) = Ret (rmem', n)
    /\ exists base', mem_ok rmem' base'.
Proof.
  intros Hok Hp Hw. destruct (decide (is_Some (rm_base rmem))) as [Hm|Hdev].
  - destruct (decide (in_region rmem phys (Z.of_nat (length buf)))) as [Hin|Hout].
    + destruct (rmtfs_mem_write_spec rmem base phys buf Hok Hin Hp) as (rmem' & base' & _ & -> & _ & Hok'). eexists _, _. eauto.
    + destruct (rmtfs_mem_outside rmem base phys buf (Z.of_nat (length buf)) Hok Hm Hout) as [_ ->]; try lia. eexists _, _. eauto.
  - apply eq_None_not_Some in Hdev. pose proof Hok as [Hb _ _ _ _]. unfold rmtfs_mem_write. rewrite Hdev in *.
    rewrite load_ret, drop_0, Nat2Z.id, take_ge by lia. cbn [mbind outcome_bind].
    destruct (dev_pwrite_keeps _ _ buf (s64 (phys - rm_address rmem)) Hb) as (m' & Hm' & Hl).
    destruct (md_pwrite _ _ _) as [n d']. cbn [snd] in Hm'. eexists _, _. split; [done|]. exists m'.
    eapply mem_ok_changed; [exact Hok| |done|done]. split_and!; [done|done|by rewrite Hdev].
Qed.

End facts.
