(* ===== verification/Rmtfs.v ===== *)
(** * The remote filesystem service (src/qcom/rmtfs/rmtfs.c)

    Requests of the modem arrive as QMI messages; each handler decodes the
    request into its structure, works on the storage and the shared memory, and
    encodes a response.  The state is the storage and the memory; a handler
    returns the new state and the response packet it sent, if any. *)

From Stdlib Require Import ZArith Lia.
From stdpp Require Import base list numbers strings.
From S2P Require Import Prelude Packet QmiCodec QmiMessages Storage SharedMem.

Definition QMI_REQUEST : Z := 0.
Definition QMI_RESPONSE : Z := 2.
Definition SECTOR_SIZE : Z := 512.
Definition RMTFS_QMI_SERVICE : Z := 14.
Definition RMTFS_QMI_VERSION : Z := 1.
Definition RMTFS_QMI_INSTANCE : Z := 0.

(** ** Responses *)

(** [struct rmtfs_qmi_result] *)
Record qmi_result : Type := MkResult { r_result : Z; r_error : Z }.

Definition result_ok : qmi_result := MkResult 0 0.

(** Only the first error is kept. *)
Definition qmi_result_error (r : qmi_result) (error : Z) : qmi_result :=
  if r_result r =? QMI_RMTFS_RESULT_FAILURE then r
  else MkResult QMI_RMTFS_RESULT_FAILURE (u16 error).

Definition result_bytes (r : qmi_result) : list Z := le_bytes 2 (r_result r) ++ le_bytes 2 (r_error r).

Definition bool_byte (b : bool) : Z := if b then 1 else 0.

(** The response structures in memory, padding zeroed by [= {}]. *)
Definition open_resp_bytes (r : qmi_result) (valid : bool) (caller_id : Z) : list Z :=
  result_bytes r ++ [bool_byte valid; 0; 0; 0] ++ le_bytes 4 caller_id.

Definition alloc_buf_resp_bytes (r : qmi_result) (valid : bool) (address : Z) : list Z :=
  result_bytes r ++ [bool_byte valid; 0; 0; 0] ++ le_bytes 8 address.

Definition dev_error_resp_bytes (r : qmi_result) (valid : bool) (status : Z) : list Z :=
  result_bytes r ++ [bool_byte valid; u8 status].

(** A packet as the handlers see it: sender, the receive buffer, its fill. *)
Record packet : Type := MkPacket { pk_from : Z; pk_fport : Z; pk_data : list Z; pk_len : Z }.

(** The message sent to the sender, [None] when encoding failed. *)
Definition reply : Type := option (list Z).

(** The end of every handler: encode into a 256 byte buffer and send.  [junk] is
    the uninitialised stack the buffer lies in. *)
Definition respond (junk : list Z) (msg_id txn : Z) (c_struct : list Z) (ei : list qmi_elem_info)
    : outcome reply :=
  '(len, buf) ← qmi_encode_message (take 256 junk) 256 QMI_RESPONSE msg_id txn (Some c_struct) (Some ei);
  if len <? 0 then Ret None else Ret (Some (take (Z.to_nat len) buf)).

(** [txn] keeps its uninitialised value when the decoder did not assign it. *)
Definition txn_or (junk_txn : Z) (txn : option Z) : Z :=
  match txn with Some t => t | None => junk_txn end.

(** A little-endian field of a structure. *)
Definition field (c : list Z) (off n : Z) : outcome Z := bs ← load c off n; Ret (le_val bs).

(** The C string at [off]. *)
Definition cstr (c : list Z) (off : Z) : outcome (list Z) := n ← strlen c off; load c off n.

(** ** State *)

(** The storage, the memory and [dbgprintf_enabled], which -v sets. *)
Record rmtfs_state (W D : Type) : Type := MkRs { rs_storage : storage W; rs_mem : rmtfs_mem D; rs_dbg : bool }.
Arguments MkRs {W D}.
Arguments rs_storage {W D}.
Arguments rs_mem {W D}.
Arguments rs_dbg {W D}.

(** The uninitialised locals of a handler. *)
Record stack : Type := MkStack { stk_txn : Z; stk_resp : list Z; stk_sector : list Z }.

Section handlers.
Context {W D : Type} `{Files W} `{MemDev D}.
Implicit Type st : rmtfs_state W D.

Definition result_t : Type := outcome (rmtfs_state W D * reply).

(** With -v the path is printed, also when decoding failed. *)
Definition rmtfs_open st (stk : stack) (pkt : packet) : result_t :=
  '(ret, req, txn) ← qmi_decode_message (replicate 260 0) (pk_data pkt) (pk_len pkt) QMI_REQUEST
                       QMI_RMTFS_OPEN (Some rmtfs_open_req_ei);
  let txn := txn_or (stk_txn stk) txn in
  let answer st r valid id :=
    rep ← respond (stk_resp stk) QMI_RMTFS_OPEN txn (open_resp_bytes r valid id) rmtfs_open_resp_ei;
    Ret (st, rep) in
  if ret <? 0 then
    _ ← (if rs_dbg st then cstr req 4 else Ret []);
    answer st (qmi_result_error result_ok QMI_RMTFS_ERR_MALFORMED_MSG) false 0
  else
    path ← cstr req 4;
    let '(h, s') := storage_open (rs_storage st) (pk_from pkt) path in
    let st' := MkRs s' (rs_mem st) (rs_dbg st) in
    match h with
    | None => answer st' (qmi_result_error result_ok QMI_RMTFS_ERR_INTERNAL) false 0
    | Some i =>
        caller_id ← storage_get_caller_id s' i;
        answer st' result_ok true caller_id
    end.

(** The message printed before the response has one conversion more than
    arguments, and a %s for the [uint32_t] caller id: with -v it dereferences a
    number the client chose. *)
Definition close_dbgprintf st : outcome unit := if rs_dbg st then Fault else Ret tt.

Definition rmtfs_close st (stk : stack) (pkt : packet) : result_t :=
  '(ret, req, txn) ← qmi_decode_message (replicate 4 0) (pk_data pkt) (pk_len pkt) QMI_REQUEST
                       QMI_RMTFS_CLOSE (Some rmtfs_close_req_ei);
  let txn := txn_or (stk_txn stk) txn in
  let answer st r :=
    _ ← close_dbgprintf st;
    rep ← respond (stk_resp stk) QMI_RMTFS_CLOSE txn (result_bytes r) rmtfs_close_resp_ei;
    Ret (st, rep) in
  if ret <? 0 then answer st (qmi_result_error result_ok QMI_RMTFS_ERR_MALFORMED_MSG)
  else
    caller_id ← field req 0 4;
    h ← storage_get (rs_storage st) (pk_from pkt) (s32 caller_id);
    match h with
    | None => answer st (qmi_result_error result_ok QMI_RMTFS_ERR_INTERNAL)
    | Some i =>
        s' ← storage_close (rs_storage st) i;
        answer (MkRs s' (rmtfs_mem_free (rs_mem st)) (rs_dbg st)) result_ok
    end.

(** The body of the sector loop: one sector between memory and storage; the
    buffer [buf] and [n]. *)
Definition iovec_sector st (is_write : bool) (i : nat) (buf : list Z) (phys sect : Z)
    : outcome (rmtfs_state W D * list Z * Z) :=
  if is_write then
    '(buf, n) ← rmtfs_mem_read (rs_mem st) phys buf SECTOR_SIZE;
    if n =? SECTOR_SIZE then
      '(s', n) ← storage_pwrite (rs_storage st) i buf sect; Ret (MkRs s' (rs_mem st) (rs_dbg st), buf, n)
    else Ret (st, buf, n)
  else
    '(buf, n) ← storage_pread (rs_storage st) i buf SECTOR_SIZE sect;
    if 0 <=? n then
      buf ← (if n <? SECTOR_SIZE then store buf n (replicate (Z.to_nat (SECTOR_SIZE - n)) 0)
             else Ret buf);
      '(m', n) ← rmtfs_mem_write (rs_mem st) phys buf SECTOR_SIZE;
      Ret (MkRs (rs_storage st) m' (rs_dbg st), buf, n)
    else Ret (st, buf, n).

(** The inner loop: [true] when all [n] sectors went through. *)
Fixpoint iovec_sectors st (is_write : bool) (i : nat) (buf : list Z) (phys_base sector_base offset : Z)
    (n : nat) : outcome (rmtfs_state W D * list Z * bool) :=
  match n with
  | O => Ret (st, buf, true)
  | S n' =>
      '(st', buf', k) ← iovec_sector st is_write i buf (phys_base + offset) (sector_base + offset);
      if negb (k =? SECTOR_SIZE) then Ret (st', buf', false)
      else iovec_sectors st' is_write i buf' phys_base sector_base (offset + SECTOR_SIZE) n'
  end.

(** The outer loop over the entries, read from the request structure. *)
Fixpoint iovec_entries st (is_write : bool) (i : nat) (buf req : list Z) (k : Z) (n : nat)
    : outcome (rmtfs_state W D * bool) :=
  match n with
  | O => Ret (st, true)
  | S n' =>
      sector_addr ← field req (16 + 12 * k) 4;
      phys_offset ← field req (16 + 12 * k + 4) 4;
      num_sector ← field req (16 + 12 * k + 8) 4;
      '(st', buf', ok) ← iovec_sectors st is_write i buf phys_offset (u32 (sector_addr * SECTOR_SIZE)) 0
                             (Z.to_nat num_sector);
      match ok with
      | true => iovec_entries st' is_write i buf' req (k + 1) n'
      | false => Ret (st', false)
      end
  end.

Definition rmtfs_iovec st (stk : stack) (pkt : packet) : result_t :=
  '(ret, req, txn) ← qmi_decode_message (replicate 3080 0) (pk_data pkt) (pk_len pkt) QMI_REQUEST
                       QMI_RMTFS_RW_IOVEC (Some rmtfs_iovec_req_ei);
  let txn := txn_or (stk_txn stk) txn in
  let answer st r :=
    rep ← respond (stk_resp stk) QMI_RMTFS_RW_IOVEC txn (result_bytes r) rmtfs_iovec_resp_ei;
    Ret (st, rep) in
  if ret <? 0 then answer st (qmi_result_error result_ok QMI_RMTFS_ERR_MALFORMED_MSG)
  else
    caller_id ← field req 0 4;
    direction ← field req 4 1;
    num_entries ← field req 8 8;
    h ← storage_get (rs_storage st) (pk_from pkt) (s32 caller_id);
    match h with
    | None => answer st (qmi_result_error result_ok QMI_RMTFS_ERR_INTERNAL)
    | Some i =>
        '(st', ok) ← iovec_entries st (negb (direction =? 0)) i (take 512 (stk_sector stk)) req 0
                         (Z.to_nat num_entries);
        answer st' (match ok with
                    | true => result_ok
                    | false => qmi_result_error result_ok QMI_RMTFS_ERR_INTERNAL
                    end)
    end.

Definition rmtfs_alloc_buf st (stk : stack) (pkt : packet) : result_t :=
  '(ret, req, txn) ← qmi_decode_message (replicate 8 0) (pk_data pkt) (pk_len pkt) QMI_REQUEST
                       QMI_RMTFS_ALLOC_BUFF (Some rmtfs_alloc_buf_req_ei);
  let txn := txn_or (stk_txn stk) txn in
  let answer r valid address :=
    rep ← respond (stk_resp stk) QMI_RMTFS_ALLOC_BUFF txn (alloc_buf_resp_bytes r valid address)
            rmtfs_alloc_buf_resp_ei;
    Ret (st, rep) in
  if ret <? 0 then answer (qmi_result_error result_ok QMI_RMTFS_ERR_MALFORMED_MSG) false 0
  else
    alloc_size ← field req 4 4;
    let address := rmtfs_mem_alloc (rs_mem st) alloc_size in
    if address <? 0 then answer (qmi_result_error result_ok QMI_RMTFS_ERR_INTERNAL) false 0
    else answer result_ok true address.

(** The test of the handle is the wrong way round in the source: a handle that
    exists is an error, and [storage_get_error] is called on NULL. *)
Definition rmtfs_get_dev_error st (stk : stack) (pkt : packet) : result_t :=
  '(ret, req, txn) ← qmi_decode_message (replicate 4 0) (pk_data pkt) (pk_len pkt) QMI_REQUEST
                       QMI_RMTFS_GET_DEV_ERROR (Some rmtfs_dev_error_req_ei);
  let txn := txn_or (stk_txn stk) txn in
  let answer r valid status :=
    rep ← respond (stk_resp stk) QMI_RMTFS_GET_DEV_ERROR txn (dev_error_resp_bytes r valid status)
            rmtfs_dev_error_resp_ei;
    Ret (st, rep) in
  if ret <? 0 then answer (qmi_result_error result_ok QMI_RMTFS_ERR_MALFORMED_MSG) false 0
  else
    caller_id ← field req 0 4;
    h ← storage_get (rs_storage st) (pk_from pkt) (s32 caller_id);
    match h with
    | Some _ => answer (qmi_result_error result_ok QMI_RMTFS_ERR_INTERNAL) false 0
    | None =>
        status ← storage_get_error (rs_storage st) None;
        answer result_ok true status
    end.

Definition rmtfs_bye (node : Z) : Z := 0.
Definition rmtfs_del_client (node port : Z) : Z := 0.

(** [handle_rmtfs]: [ret] is what [recvfrom] returned ([errno] on failure),
    [buf] the receive buffer. The result is the state, the reply and the return
    code. *)
Definition handle_rmtfs st (stk : stack) (ret errno : Z) (buf : list Z) (sq : sockaddr_qrtr)
    : outcome (rmtfs_state W D * reply * Z) :=
  if ret <? 0 then Ret (st, None, - errno)
  else
    let '(rc, q) := qrtr_decode (MkQpkt 0 0 0 0 0 0 [] 0) buf ret sq in
    if rc <? 0 then Ret (st, None, rc)
    else if p_type q =? QRTR_TYPE_BYE then Ret (st, None, rmtfs_bye (p_node q))
    else if p_type q =? QRTR_TYPE_DEL_CLIENT then Ret (st, None, rmtfs_del_client (p_node q) (p_port q))
    else if p_type q =? QRTR_TYPE_DATA then
      '(rc, msg_id) ← qmi_decode_header buf ret;
      if rc <? 0 then Ret (st, None, rc)
      else
        let pkt := MkPacket (p_node q) (p_port q) buf ret in
        let run (o : result_t) := '(st', rep) ← o; Ret (st', rep, 0) in
        match msg_id with
        | None => Ret (st, None, 0)
        | Some id =>
            if id =? QMI_RMTFS_OPEN then run (rmtfs_open st stk pkt)
            else if id =? QMI_RMTFS_CLOSE then run (rmtfs_close st stk pkt)
            else if id =? QMI_RMTFS_RW_IOVEC then run (rmtfs_iovec st stk pkt)
            else if id =? QMI_RMTFS_ALLOC_BUFF then run (rmtfs_alloc_buf st stk pkt)
            else if id =? QMI_RMTFS_GET_DEV_ERROR then run (rmtfs_get_dev_error st stk pkt)
            else Ret (st, None, 0)
        end
    else Ret (st, None, rc).

End handlers.
