(* ===== verification/RmtfsProofs.v ===== *)
(** * Sector transfers and responses of rmtfs

    The loops of [rmtfs_iovec] move sectors between the shared memory and an
    open handle.  They are proved against an interface, [SectorStore]: what a
    handle of the storage promises to whoever reads and writes it.  The two
    modes of the storage, shadow copies and files, both implement it. *)

From Stdlib Require Import ZArith Lia.
From stdpp Require Import base list numbers strings.
From S2P Require Import Prelude Packet QmiCodec QmiMessages QmiDecode QmiEncode.
From S2P Require Import Storage StorageProofs SharedMem Rmtfs.

(** ** Loads and stores of consecutive blocks *)

Lemma store_join m d bs1 bs2 m1 m2 :
  store m d bs1 = Ret m1 -> store m1 (d + Z.of_nat (length bs1)) bs2 = Ret m2 ->
  store m d (bs1 ++ bs2) = Ret m2.
Proof.
  intros H1 H2. pose proof (length_store _ _ _ _ H1) as L1.
  pose proof H1 as (? & ? & E1)%store_ret_inv. pose proof H2 as (? & ? & E2)%store_ret_inv.
  rewrite store_ret by (rewrite ?length_app; lia). f_equal. rewrite E2, E1. clear H1 H2 E1 E2.
  rewrite !Z2Nat.inj_add, Nat2Z.id by lia.
  assert (length (take (Z.to_nat d) m) = Z.to_nat d) as Ht by (rewrite length_take; lia).
  rewrite take_app_ge by lia. rewrite Ht.
  replace (Z.to_nat d + length bs1 - Z.to_nat d)%nat with (length bs1) by lia.
  rewrite take_app_length. rewrite drop_app_ge by lia. rewrite Ht.
  replace (Z.to_nat d + length bs1 + length bs2 - Z.to_nat d)%nat with (length bs1 + length bs2)%nat by lia.
  rewrite drop_app_ge by lia. rewrite drop_drop, length_app, <- !app_assoc. do 4 f_equal. lia.
Qed.

(** ** The interface *)

(** [view st i m]: handle [i] of [st] is open on the contents [m].  Reads and
    writes of a sector inside the contents succeed, and act on them alone. *)
Class SectorStore {W} `{Files W} (view : storage W -> nat -> list Z -> Prop) : Prop := MkSectorStore
  { ss_pread : forall st i m buf off,
      view st i m -> 0 <= off -> off + SECTOR_SIZE <= Z.of_nat (length m) ->
      Z.of_nat (length buf) = SECTOR_SIZE ->
      exists bs, load m off SECTOR_SIZE = Ret bs
        /\ storage_pread st i buf SECTOR_SIZE off = Ret (bs, SECTOR_SIZE);
    ss_pwrite : forall st i m bs off,
      view st i m -> 0 <= off -> off + SECTOR_SIZE <= Z.of_nat (length m) ->
      Z.of_nat (length bs) = SECTOR_SIZE ->
      exists st' m', store m off bs = Ret m'
        /\ storage_pwrite st i bs off = Ret (st', SECTOR_SIZE) /\ view st' i m' }.

(** ** The loops against the interface *)

(** One transfer of [bytes] bytes between the contents of a handle and the
    memory, as a function on the two byte arrays. *)
Definition transfer (is_write : bool) (m mem : list Z) (sect phys bytes : Z) : outcome (list Z * list Z) :=
  if is_write
  then bs ← load mem phys bytes; m' ← store m sect bs; Ret (m', mem)
  else bs ← load m sect bytes; mem' ← store mem phys bs; Ret (m, mem').

Section transfers.
Context {W D : Type} `{SectorStore W view} `{MemDevOk D}.
Implicit Type st : rmtfs_state W D.

(** The handle shows [m], the memory [mem], which lies at [addr]. *)
Record xfer_state st (i : nat) (addr : Z) (m mem : list Z) : Prop := MkXfer
  { xs_view : view (rs_storage st) i m;
    xs_mem : mem_ok (rs_mem st) mem;
    xs_addr : rm_address (rs_mem st) = addr }.

Lemma sector_transfer st is_write i addr m mem buf phys sect :
  xfer_state st i addr m mem -> Z.of_nat (length buf) = SECTOR_SIZE ->
  0 <= sect -> sect + SECTOR_SIZE <= Z.of_nat (length m) ->
  0 <= phys - addr -> phys - addr + SECTOR_SIZE <= Z.of_nat (length mem) ->
  exists st' buf' m' mem', iovec_sector st is_write i buf phys sect = Ret (st', buf', SECTOR_SIZE)
    /\ transfer is_write m mem sect (phys - addr) SECTOR_SIZE = Ret (m', mem')
    /\ xfer_state st' i addr m' mem' /\ Z.of_nat (length buf') = SECTOR_SIZE
    /\ length m' = length m /\ length mem' = length mem.
Proof.
  intros [Hv Hm Ha] Hb Hs0 Hs Hp0 Hp. pose proof Hm as [_ Hsz Ha0 _ _].
  assert (in_region (rs_mem st) phys (Z.of_nat (length buf))) as Hin by (unfold in_region; lia).
  unfold iovec_sector, transfer. destruct is_write.
  - destruct (rmtfs_mem_read_spec (rs_mem st) mem phys buf Hm Hin) as (bs & Hld & Hrd); [lia|].
    rewrite Ha, Hb in Hld. rewrite Hb in Hrd. rewrite Hrd, Hld. cbn [mbind outcome_bind].
    pose proof (length_load _ _ _ _ Hld) as Hbs.
    destruct (ss_pwrite _ _ _ bs sect Hv Hs0 Hs Hbs) as (st' & m' & Hst & Hpw & Hv').
    change (SECTOR_SIZE =? SECTOR_SIZE) with true. cbv iota. rewrite Hpw, Hst.
    cbn [mbind outcome_bind]. eexists _, _, _, _. split; [done|]. split; [done|].
    split_and!; [by split|done|by eapply length_store|done].
  - destruct (ss_pread _ _ _ buf sect Hv Hs0 Hs Hb) as (bs & Hld & Hrd).
    rewrite Hrd, Hld. cbn [mbind outcome_bind]. pose proof (length_load _ _ _ _ Hld) as Hbs.
    change (0 <=? SECTOR_SIZE) with true. change (SECTOR_SIZE <? SECTOR_SIZE) with false. cbv iota.
    cbn [mbind outcome_bind].
    destruct (rmtfs_mem_write_spec (rs_mem st) mem phys bs Hm) as (rmem' & mem' & Hst & Hwr & (Ha' & _) & Hok);
      [by rewrite Hbs, <- Hb|lia|].
    rewrite Ha in Hst. rewrite Hbs in Hwr. rewrite Hwr, Hst. cbn [mbind outcome_bind].
    eexists _, _, _, _. split; [done|]. split; [done|].
    split_and!; [split; [done|done|cbn; by rewrite Ha']|done|done|by eapply length_store].
Qed.

Lemma transfer_join is_write m mem sect phys a b m1 mem1 m2 mem2 :
  0 <= a -> 0 <= b -> length m1 = length m -> length mem1 = length mem ->
  transfer is_write m mem sect phys a = Ret (m1, mem1) ->
  transfer is_write m1 mem1 (sect + a) (phys + a) b = Ret (m2, mem2) ->
  transfer is_write m mem sect phys (a + b) = Ret (m2, mem2).
Proof.
  intros Ha Hb L1 L2. unfold transfer. destruct is_write.
  - destruct (load mem phys a) as [b1| |] eqn:E1; try done. cbn [mbind outcome_bind].
    destruct (store m sect b1) as [m1'| |] eqn:E2; try done. cbn [mbind outcome_bind]. intros [= <- <-].
    destruct (load mem (phys + a) b) as [b2| |] eqn:E3; try done. cbn [mbind outcome_bind].
    destruct (store m1' (sect + a) b2) as [m2'| |] eqn:E4; try done. cbn [mbind outcome_bind].
    intros [= <- <-]. rewrite (load_join _ _ _ _ _ _ E1 E3). cbn [mbind outcome_bind].
    rewrite <- (length_load _ _ _ _ E1) in E4. by rewrite (store_join _ _ _ _ _ _ E2 E4).
  - destruct (load m sect a) as [b1| |] eqn:E1; try done. cbn [mbind outcome_bind].
    destruct (store mem phys b1) as [m1'| |] eqn:E2; try done. cbn [mbind outcome_bind]. intros [= <- <-].
    destruct (load m (sect + a) b) as [b2| |] eqn:E3; try done. cbn [mbind outcome_bind].
    destruct (store m1' (phys + a) b2) as [m2'| |] eqn:E4; try done. cbn [mbind outcome_bind].
    intros [= <- <-]. rewrite (load_join _ _ _ _ _ _ E1 E3). cbn [mbind outcome_bind].
    rewrite <- (length_load _ _ _ _ E1) in E4. by rewrite (store_join _ _ _ _ _ _ E2 E4).
Qed.

Lemma transfer_nil is_write m mem sect phys :
  0 <= sect <= Z.of_nat (length m) -> 0 <= phys <= Z.of_nat (length mem) ->
  transfer is_write m mem sect phys 0 = Ret (m, mem).
Proof.
  intros. unfold transfer. destruct is_write; rewrite load_ret by lia; cbn [mbind outcome_bind];
    change (Z.to_nat 0) with 0%nat; rewrite take_0, store_ret by (simpl; lia); cbn [mbind outcome_bind length];
    by rewrite Nat.add_0_r, (app_nil_l (drop _ _)), take_drop.
Qed.

(** All sectors of an entry. *)
Lemma sectors_transfer n : forall st is_write i addr m mem buf phys sect off,
  xfer_state st i addr m mem -> Z.of_nat (length buf) = SECTOR_SIZE ->
  0 <= sect + off -> sect + off + SECTOR_SIZE * Z.of_nat n <= Z.of_nat (length m) ->
  0 <= phys + off - addr -> phys + off - addr + SECTOR_SIZE * Z.of_nat n <= Z.of_nat (length mem) ->
  exists st' buf' m' mem', iovec_sectors st is_write i buf phys sect off n = Ret (st', buf', true)
    /\ transfer is_write m mem (sect + off) (phys + off - addr) (SECTOR_SIZE * Z.of_nat n) = Ret (m', mem')
    /\ xfer_state st' i addr m' mem' /\ Z.of_nat (length buf') = SECTOR_SIZE
    /\ length m' = length m /\ length mem' = length mem.
Proof.
  induction n as [|n IH]; intros st is_write i addr m mem buf phys sect off Hx Hb Hs0 Hs Hp0 Hp;
    cbn [iovec_sectors].
  { exists st, buf, m, mem. change (SECTOR_SIZE * Z.of_nat 0) with 0 in *.
    rewrite transfer_nil by lia. done. }
  assert (SECTOR_SIZE = 512) as H512 by done.
  destruct (sector_transfer st is_write i addr m mem buf (phys + off) (sect + off))
    as (st1 & buf1 & m1 & mem1 & -> & Ht1 & Hx1 & Hb1 & L1 & L1'); try done; try lia.
  cbn [mbind outcome_bind]. change (negb (SECTOR_SIZE =? SECTOR_SIZE)) with false. cbv iota.
  destruct (IH st1 is_write i addr m1 mem1 buf1 phys sect (off + SECTOR_SIZE))
    as (st2 & buf2 & m2 & mem2 & -> & Ht2 & Hx2 & Hb2 & L2 & L2'); try done; try lia.
  exists st2, buf2, m2, mem2. split; [done|]. split_and!; try done; try congruence.
  replace (SECTOR_SIZE * Z.of_nat (S n)) with (SECTOR_SIZE + SECTOR_SIZE * Z.of_nat n) by lia.
  eapply transfer_join; try done; try lia.
  by replace (sect + off + SECTOR_SIZE) with (sect + (off + SECTOR_SIZE)) by lia;
    replace (phys + off - addr + SECTOR_SIZE) with (phys + (off + SECTOR_SIZE) - addr) by lia.
Qed.

End transfers.

(** ** The entries of a request *)

(** The transfers a request asks for, one entry after the other. *)
Fixpoint transfers (is_write : bool) (addr : Z) (req : list Z) (k : Z) (n : nat) (m mem : list Z)
    : outcome (list Z * list Z) :=
  match n with
  | O => Ret (m, mem)
  | S n' =>
      sector_addr ← field req (16 + 12 * k) 4;
      phys_offset ← field req (16 + 12 * k + 4) 4;
      num_sector ← field req (16 + 12 * k + 8) 4;
      '(m, mem) ← transfer is_write m mem (u32 (sector_addr * SECTOR_SIZE)) (phys_offset - addr)
                    (SECTOR_SIZE * num_sector);
      transfers is_write addr req (k + 1) n' m mem
  end.

Lemma transfer_range is_write m mem sect phys bytes m' mem' :
  transfer is_write m mem sect phys bytes = Ret (m', mem') ->
  0 <= bytes /\ 0 <= sect /\ sect + bytes <= Z.of_nat (length m)
  /\ 0 <= phys /\ phys + bytes <= Z.of_nat (length mem).
Proof.
  unfold transfer. destruct is_write.
  - destruct (load mem phys bytes) as [bs| |] eqn:E1; try done. cbn [mbind outcome_bind].
    destruct (store m sect bs) as [m1| |] eqn:E2; try done.
    pose proof (length_load _ _ _ _ E1). apply load_ret_inv in E1. apply store_ret_inv in E2. lia.
  - destruct (load m sect bytes) as [bs| |] eqn:E1; try done. cbn [mbind outcome_bind].
    destruct (store mem phys bs) as [m1| |] eqn:E2; try done.
    pose proof (length_load _ _ _ _ E1). apply load_ret_inv in E1. apply store_ret_inv in E2. lia.
Qed.

Section entries.
Context {W D : Type} `{SectorStore W view} `{MemDevOk D}.
Implicit Type st : rmtfs_state W D.

(** Every transfer inside the contents and the region: the loop does it. *)
Lemma entries_transfer n : forall st is_write i addr m mem buf req k m' mem',
  xfer_state (view := view) st i addr m mem -> Z.of_nat (length buf) = SECTOR_SIZE ->
  transfers is_write addr req k n m mem = Ret (m', mem') ->
  exists st', iovec_entries st is_write i buf req k n = Ret (st', true)
    /\ xfer_state (view := view) st' i addr m' mem'.
Proof.
  induction n as [|n IH]; intros st is_write i addr m mem buf req k m' mem' Hx Hb Ht;
    cbn [iovec_entries transfers] in *.
  { injection Ht as <- <-. eauto. }
  destruct (field req (16 + 12 * k) 4) as [sa| |]; try done. cbn [mbind outcome_bind] in *.
  destruct (field req (16 + 12 * k + 4) 4) as [po| |]; try done. cbn [mbind outcome_bind] in *.
  destruct (field req (16 + 12 * k + 8) 4) as [num| |]; try done. cbn [mbind outcome_bind] in *.
  destruct (transfer is_write m mem (u32 (sa * SECTOR_SIZE)) (po - addr) (SECTOR_SIZE * num))
    as [[m1 mem1]| |] eqn:Ht1; try done. cbn [mbind outcome_bind] in Ht.
  pose proof (transfer_range _ _ _ _ _ _ _ _ Ht1) as (Hb0 & Hs0 & Hs & Hp0 & Hp).
  assert (SECTOR_SIZE = 512) as H512 by done.
  destruct (sectors_transfer (view := view) (Z.to_nat num) st is_write i addr m mem buf po
    (u32 (sa * SECTOR_SIZE)) 0) as (st1 & buf1 & m2 & mem2 & -> & Ht2 & Hx1 & Hb1 & _ & _); try done; try lia.
  cbn [mbind outcome_bind]. rewrite !Z.add_0_r, Z2Nat.id in Ht2 by lia.
  rewrite Ht1 in Ht2. injection Ht2 as <- <-. eapply IH; [done|done|exact Ht].
Qed.

End entries.

(** ** The two implementations of the interface *)

(** Shadow copies, of which the first [shadow_len] bytes count. *)
Definition shadow_contents {W} (st : storage W) (i : nat) (m : list Z) : Prop :=
  storage_ok st /\ storage_read_only st = true
  /\ exists r b, rmtfds st !! i = Some r /\ rf_shadow_buf r = Some b
       /\ m = take (Z.to_nat (rf_shadow_len r)) b.

(** What a file descriptor promises: reads and writes inside the file. *)
Class FileContents (W : Type) `{Files W} : Type := MkFileContents
  { fd_contents : W -> Z -> option (list Z);
    fc_pread : forall w fd m n off bs, fd_contents w fd = Some m -> load m off n = Ret bs ->
      f_pread w fd n off = (n, bs);
    fc_pwrite : forall w fd m bs off m', fd_contents w fd = Some m -> store m off bs = Ret m' ->
      fst (f_pwrite w fd bs off) = Z.of_nat (length bs)
      /\ fd_contents (snd (f_pwrite w fd bs off)) fd = Some m' }.

Definition file_contents {W} `{FileContents W} (st : storage W) (i : nat) (m : list Z) : Prop :=
  storage_read_only st = false
  /\ exists r, rmtfds st !! i = Some r /\ fd_contents (world st) (rf_fd r) = Some m.

#[global] Instance file_sector_store {W} `{FileContents W} : SectorStore (W := W) file_contents.
Proof.
  constructor.
  - intros st i m buf off (Hro & r & Hr & Hc) Hoff Hle Hb. unfold SECTOR_SIZE in *.
    destruct (load_in m off 512) as (bs & Hld & Hl); [lia..|]. exists bs. split; [done|].
    unfold storage_pread. rewrite Hr, Hro. cbn [negb]. rewrite (fc_pread _ _ _ _ _ _ Hc Hld).
    rewrite take_ge by lia. rewrite store_ret by lia. cbn [mbind outcome_bind].
    change (Z.to_nat 0) with 0%nat. rewrite take_0, drop_ge, app_nil_r by lia. simpl ([] ++ _).
    unfold pread_finish. by change (u64 512 <? 512) with false.
  - intros st i m bs off (Hro & r & Hr & Hc) Hoff Hle Hb.
    destruct (store_in m off bs) as (m' & Hst & _); [lia..|].
    destruct (fc_pwrite _ _ _ _ _ _ Hc Hst) as [Hn Hc'].
    exists (set_rmtfds st (rmtfds st) (snd (f_pwrite (world st) (rf_fd r) bs off))), m'. split; [done|].
    unfold storage_pwrite. rewrite Hr, Hro. cbn [negb].
    destruct (f_pwrite (world st) (rf_fd r) bs off) as [k w]. simpl in *. split; [by rewrite Hn, Hb|].
    split; [done|]. by exists r.
Qed.

#[global] Instance shadow_sector_store {W} `{FilesOk W} : SectorStore (W := W) shadow_contents.
Proof.
  constructor.
  - intros st i m buf off (Hok & Hro & r & b & Hr & Hsb & ->) Hoff Hle Hb.
    pose proof (ok_shadow _ _ (so_handles _ Hok i r Hr)) as Hsh. unfold shadow_ok in Hsh. rewrite Hsb in Hsh.
    rewrite length_take in Hle. unfold SECTOR_SIZE in *.
    rewrite (storage_pread_shadow st i r b) by (done || lia).
    eexists. split; [rewrite load_ret by (rewrite ?length_take; lia); reflexivity|].
    unfold shadow_view. cbv zeta. do 2 f_equal.
    rewrite length_take, length_drop, length_take.
    replace (Z.to_nat 512 - _)%nat with 0%nat by lia. simpl (replicate 0 _). by rewrite app_nil_r.
  - intros st i m bs off (Hok & Hro & r & b & Hr & Hsb & ->) Hoff Hle Hb.
    pose proof (ok_shadow _ _ (so_handles _ Hok i r Hr)) as Hsh. unfold shadow_ok in Hsh. rewrite Hsb in Hsh.
    rewrite length_take in Hle. unfold SECTOR_SIZE, STORAGE_MAX_SIZE in *.
    destruct (shadow_store st i r b b bs off) as (b' & st' & Hst & -> & Hsw); try done;
      [unfold STORAGE_MAX_SIZE; lia|lia|].
    destruct (store_in (take (Z.to_nat (rf_shadow_len r)) b) off bs) as (m' & Hst' & _);
      [lia|rewrite length_take; lia|].
    eexists _, m'. split; [done|]. unfold storage_pwrite. rewrite Hr, Hro. cbn [negb]. cbv zeta.
    rewrite u64_small by lia. unfold STORAGE_MAX_SIZE.
    destruct (Z.leb_spec 16777216 (off + Z.of_nat (length bs))); [lia|].
    destruct (Z.ltb_spec (rf_shadow_len r) (off + Z.of_nat (length bs))); [lia|].
    rewrite Hsb, Hst. cbn [mbind outcome_bind]. rewrite Z.max_l in Hsw by lia.
    split; [by rewrite Hb|]. split; [apply Hsw|]. split; [apply Hro|].
    eexists _, b'. cbn [rmtfds set_rmtfds]. rewrite list_lookup_insert_eq by (by eapply lookup_lt_Some).
    split_and!; [done|done|]. simpl.
    apply store_ret_inv in Hst as (_ & _ & ->). apply store_ret_inv in Hst' as (_ & _ & ->).
    set (n := Z.to_nat (rf_shadow_len r)).
    rewrite take_take, Nat.min_l by (unfold n; lia).
    rewrite take_app_ge by (rewrite length_take; unfold n; lia). f_equal.
    rewrite length_take, Nat.min_l by lia.
    rewrite take_app_ge by (unfold n; lia). f_equal. rewrite skipn_firstn_comm. f_equal. lia.
Qed.

(** ** Responses *)

Definition result_tlv (r : qmi_result) : list Z := [2; 4; 0] ++ result_bytes r.

(** An optional value behind the result. *)
Definition value_tlv (valid : bool) (bs : list Z) : list Z :=
  if valid then 16 :: le_bytes 2 (Z.of_nat (length bs)) ++ bs else [].

Lemma respond_written junk msg_id txn c ei bs :
  (256 <= length junk)%nat -> enc_ref (qmi_fuel (Some ei) 256) ei c 0 1 0 [] = Ret (Some bs) ->
  Z.of_nat (length bs) <= 249 ->
  respond junk msg_id txn c ei = Ret (Some (message_bytes QMI_RESPONSE msg_id txn bs)).
Proof.
  intros Hj Href Hl. unfold respond.
  rewrite (encode_message_written _ _ _ _ _ _ _ bs) by (done || rewrite ?length_take; lia).
  cbn [mbind outcome_bind]. destruct (Z.ltb_spec (7 + Z.of_nat (length bs)) 0); [lia|].
  do 2 f_equal. apply take_app_length'. unfold message_bytes.
  rewrite length_app, length_qmi_header_bytes. lia.
Qed.

Lemma respond_result junk msg_id txn r :
  (256 <= length junk)%nat ->
  respond junk msg_id txn (result_bytes r) rmtfs_close_resp_ei
  = Ret (Some (message_bytes QMI_RESPONSE msg_id txn (result_tlv r))).
Proof. intros Hj. apply respond_written; [done|reflexivity|vm_compute; congruence]. Qed.

Lemma respond_open junk msg_id txn r valid id :
  (256 <= length junk)%nat ->
  respond junk msg_id txn (open_resp_bytes r valid id) rmtfs_open_resp_ei
  = Ret (Some (message_bytes QMI_RESPONSE msg_id txn (result_tlv r ++ value_tlv valid (le_bytes 4 id)))).
Proof. intros Hj. apply respond_written; [done|by destruct valid|by destruct valid; vm_compute]. Qed.

Lemma respond_alloc_buf junk msg_id txn r valid address :
  (256 <= length junk)%nat ->
  respond junk msg_id txn (alloc_buf_resp_bytes r valid address) rmtfs_alloc_buf_resp_ei
  = Ret (Some (message_bytes QMI_RESPONSE msg_id txn (result_tlv r ++ value_tlv valid (le_bytes 8 address)))).
Proof. intros Hj. apply respond_written; [done|by destruct valid|by destruct valid; vm_compute]. Qed.

Lemma respond_dev_error junk msg_id txn r valid status :
  (256 <= length junk)%nat ->
  respond junk msg_id txn (dev_error_resp_bytes r valid status) rmtfs_dev_error_resp_ei
  = Ret (Some (message_bytes QMI_RESPONSE msg_id txn (result_tlv r ++ value_tlv valid [u8 status]))).
Proof. intros Hj. apply respond_written; [done|by destruct valid|by destruct valid; vm_compute]. Qed.
