(* ===== verification/RmtfsWire.v ===== *)
(** * The requests of the modem as bytes

    What a client of rmtfs sends, and what [qmi_decode_message] makes of it with
    the descriptors of qmi_rmtfs.c: the structures the handlers work on. *)

From Stdlib Require Import ZArith Lia.
From stdpp Require Import base list numbers.
From S2P Require Import Prelude Packet QmiCodec QmiMessages QmiDecode QmiEncode QmiTurns Rmtfs.

(** ** Requests *)

(** One entry of a transfer: first sector, physical address, number of sectors. *)
Record iovec : Type := MkIovec { io_sector : Z; io_phys : Z; io_num : Z }.

Inductive modem_req : Type :=
| ROpen (path : list Z)
| RClose (caller : Z)
| RRw (caller : Z) (is_write : bool) (es : list iovec) (force : Z)
| RAlloc (caller size : Z).

(** Values as wide as their fields.  Callers are handles, which are not negative. *)
Definition iovec_ok (e : iovec) : Prop :=
  0 <= io_sector e < 4294967296 /\ 0 <= io_phys e < 4294967296 /\ 0 <= io_num e < 4294967296.

Definition req_fits (r : modem_req) : Prop :=
  match r with
  | ROpen path => name_ok path
  | RClose caller => 0 <= caller < 2147483648
  | RRw caller _ es force => 0 <= caller < 2147483648 /\ Forall iovec_ok es /\ (length es <= 255)%nat
  | RAlloc caller size => 0 <= size < 4294967296
  end.

Definition iovec_bytes (e : iovec) : list Z := le_bytes 4 (io_sector e) ++ le_bytes 4 (io_phys e) ++ le_bytes 4 (io_num e).

Definition iovecs_bytes (es : list iovec) : list Z := concat (iovec_bytes <$> es).

Definition req_id (r : modem_req) : Z :=
  match r with ROpen _ => QMI_RMTFS_OPEN | RClose _ => QMI_RMTFS_CLOSE | RRw _ _ _ _ => QMI_RMTFS_RW_IOVEC | RAlloc _ _ => QMI_RMTFS_ALLOC_BUFF end.

Definition req_body (r : modem_req) : list Z :=
  match r with
  | ROpen path => tlv_bytes 1 path
  | RClose caller => tlv_bytes 1 (le_bytes 4 caller)
  | RRw caller is_write es force =>
      tlv_bytes 1 (le_bytes 4 caller) ++ tlv_bytes 2 [bool_byte is_write]
      ++ tlv_bytes 3 (Z.of_nat (length es) :: iovecs_bytes es) ++ tlv_bytes 4 [force]
  | RAlloc caller size => tlv_bytes 1 (le_bytes 4 caller) ++ tlv_bytes 2 (le_bytes 4 size)
  end.

Definition req_message (txn : Z) (r : modem_req) : list Z := message_bytes QMI_REQUEST (req_id r) txn (req_body r).

(** The structure the handler finds. *)
Definition req_struct (r : modem_req) : list Z :=
  match r with
  | ROpen path => name_struct 260 path
  | RClose caller => le_bytes 4 caller
  | RRw caller is_write es force =>
      le_bytes 4 caller ++ [bool_byte is_write; 0; 0; 0] ++ [Z.of_nat (length es); 0; 0; 0; 0; 0; 0; 0]
      ++ iovecs_bytes es ++ replicate (12 * (255 - length es)) 0 ++ [force; 0; 0; 0]
  | RAlloc caller size => le_bytes 4 caller ++ le_bytes 4 size
  end.

Definition req_ei (r : modem_req) : list qmi_elem_info :=
  match r with
  | ROpen _ => rmtfs_open_req_ei | RClose _ => rmtfs_close_req_ei
  | RRw _ _ _ _ => rmtfs_iovec_req_ei | RAlloc _ _ => rmtfs_alloc_buf_req_ei
  end.

Definition req_size (r : modem_req) : nat :=
  match r with ROpen _ => 260 | RClose _ => 4 | RRw _ _ _ _ => Z.to_nat 3080 | RAlloc _ _ => 8 end%nat.

(** ** Sizes *)

Lemma length_iovec_bytes e : length (iovec_bytes e) = 12%nat.
Proof. unfold iovec_bytes. by rewrite !length_app, !length_le_bytes. Qed.

Lemma length_iovecs_bytes es : length (iovecs_bytes es) = (12 * length es)%nat.
Proof.
  unfold iovecs_bytes. induction es as [|e es IH]; [done|]. cbn [fmap list_fmap concat length]. rewrite length_app, length_iovec_bytes, IH. lia.
Qed.

Lemma length_req_body r : req_fits r -> 7 <= Z.of_nat (length (req_body r)) + 4 <= 3090.
Proof.
  destruct r as [path|caller|caller w es force|caller size]; cbn [req_fits req_body]; intros Hf;
    rewrite ?length_app, ?length_tlv_bytes; cbn [length]; rewrite ?length_le_bytes, ?length_iovecs_bytes.
  - destruct Hf. lia.
  - lia.
  - destruct Hf as (_ & _ & ?). lia.
  - lia.
Qed.

(** ** Entries *)

Lemma entry_decodes fuel a b c msg len s e out :
  has msg s (iovec_bytes e) -> length b = 12%nat -> out = Z.of_nat (length a) -> 12 <= len ->
  qmi_decode_loop (4 + fuel) rmtfs_iovec_entry_ei (a ++ b ++ c) out msg len 2 (MkDec rmtfs_iovec_entry_ei 0 s 0) = Ret (a ++ iovec_bytes e ++ c, 12).
Proof.
  intros Hm Hb -> Hlen. unfold iovec_bytes in *. apply has_app in Hm as [H1 [H2 H3]%has_app].
  rewrite !length_le_bytes in *. change (Z.of_nat 4) with 4 in *.
  rewrite <- (take_drop 4 b), <- (take_drop 4 (drop 4 b)), drop_drop, <- !app_assoc. change (4 + fuel)%nat with (S (S (S (S fuel)))).
  assert (length (take 4 b) = 4 /\ length (take 4 (drop 4 b)) = 4 /\ length (drop (4 + 4) b) = 4)%nat as (L1 & L2 & L3)
    by (rewrite !length_take, !length_drop; lia).
  unfold rmtfs_iovec_entry_ei at 2.
  rewrite (member_turn _ _ _ _ a (take 4 b) _ _ _ _ _ (le_bytes 4 (io_sector e))) by (rewrite ?length_le_bytes; done || (cbn; lia)).
  rewrite (app_assoc a).
  rewrite (member_turn _ _ _ _ (a ++ le_bytes 4 (io_sector e)) (take 4 (drop 4 b)) _ _ _ _ _ (le_bytes 4 (io_phys e)))
    by (rewrite ?length_app, ?length_le_bytes; done || (cbn; lia)).
  rewrite (app_assoc (a ++ _)).
  rewrite (member_turn _ _ _ _ ((a ++ le_bytes 4 (io_sector e)) ++ le_bytes 4 (io_phys e)) (drop (4 + 4) b) _ _ _ _ _ (le_bytes 4 (io_num e)))
    by (rewrite ?length_app, ?length_le_bytes; done || (cbn; lia) || (replace (s + 4 + 4) with (s + 4 + 4) by lia; done)).
  rewrite members_end by (rewrite ?length_le_bytes; lia). rewrite !length_le_bytes, <- !app_assoc. done.
Qed.

Lemma entries_decode fuel msg tlv es : forall a c s d i,
  has msg s (iovecs_bytes es) -> 0 <= d -> d + 12 * Z.of_nat (length es) = tlv -> tlv < 65536 ->
  decode_struct_loop (fun c d s len => qmi_decode_loop (4 + fuel) rmtfs_iovec_entry_ei c d msg len 2 (MkDec rmtfs_iovec_entry_ei 0 s 0))
    (length es) (a ++ replicate (12 * length es) 0 ++ c) (Z.of_nat (length a)) s 12 tlv d i
  = Ret (a ++ iovecs_bytes es ++ c, tlv, i + Z.of_nat (length es)).
Proof.
  induction es as [|e es IH]; intros a c s d i Hm Hd Hsum Hmax.
  { cbn [length decode_struct_loop]. change (12 * 0)%nat with 0%nat. cbn [length] in Hsum. do 2 f_equal; [f_equal; lia|lia]. }
  change (iovecs_bytes (e :: es)) with (iovec_bytes e ++ iovecs_bytes es) in *. apply has_app in Hm as [Hm1 Hm2].
  rewrite length_iovec_bytes in Hm2. cbn [length] in *. cbn [decode_struct_loop]. rewrite (u32_small d) by lia. destruct (Z.ltb_spec d tlv); [|lia].
  replace (12 * S (length es))%nat with (12 + 12 * length es)%nat by lia. rewrite replicate_add, <- app_assoc.
  rewrite (entry_decodes fuel a (replicate 12 0) _ msg _ s e) by (done || rewrite ?u32_small by lia; done || lia). cbn [mbind outcome_bind].
  change (12 <? 0) with false. cbv iota. rewrite (app_assoc a).
  replace (Z.of_nat (length a) + 12) with (Z.of_nat (length (a ++ iovec_bytes e))) by (rewrite length_app, length_iovec_bytes; lia).
  rewrite (IH (a ++ iovec_bytes e) c (s + 12) (d + 12) (i + 1)) by (done || lia). rewrite <- !app_assoc. do 2 f_equal. lia.
Qed.

(** ** Messages *)

Section decoding.
Variables (txn : Z) (junk : list Z).
Hypothesis (Htxn : 0 <= txn < 65536).

(** What the handler's call of [qmi_decode_message] gives for a request. *)
Definition decodes (r : modem_req) : Prop :=
  qmi_decode_message (replicate (req_size r) 0) (req_message txn r ++ junk) (7 + Z.of_nat (length (req_body r))) QMI_REQUEST (req_id r) (Some (req_ei r))
  = Ret (Z.of_nat (length (req_body r)), req_struct r, Some txn).

Lemma open_req_decodes path : name_ok path -> decodes (ROpen path).
Proof. intros Hp. by apply name_message_decodes. Qed.

(** The rule for a message: the loop over its body. *)
Lemma body_decodes r :
  req_fits r ->
  (forall fuel, has (req_message txn r ++ junk) 7 (req_body r) ->
     qmi_decode_loop (10 + fuel) (req_ei r) (replicate (req_size r) 0) 0 (req_message txn r ++ junk) (Z.of_nat (length (req_body r))) 1 (MkDec (req_ei r) 0 7 0)
     = Ret (req_struct r, Z.of_nat (length (req_body r)))) ->
  (7 <= length (req_body r))%nat -> decodes r.
Proof.
  intros Hf Hloop Hl. pose proof (length_req_body r Hf). apply message_decodes; [done|by destruct r|done|lia| |by destruct r].
  intros fuel. replace (3 + length (req_body r) + fuel)%nat with (10 + (length (req_body r) - 7 + fuel))%nat by lia.
  apply Hloop. apply message_body.
Qed.

Lemma close_req_decodes caller : req_fits (RClose caller) -> decodes (RClose caller).
Proof.
  intros Hf. apply body_decodes; [done| |cbn [req_body]; rewrite length_tlv_bytes, length_le_bytes; lia]. intros fuel Hm. cbn [req_body req_ei req_size req_struct] in *.
  set (msg := _ ++ junk) in *. change (10 + fuel)%nat with (S (S (8 + fuel))).
  rewrite (tlv_turn_basic _ msg _ _ 1 (le_bytes 4 caller) (ei_plain QMI_UNSIGNED_4_BYTE 4 1 0) [eoti] [] (replicate 4 0) []) by done.
  rewrite turns_end by done. by rewrite app_nil_r.
Qed.

Lemma alloc_req_decodes caller size : req_fits (RAlloc caller size) -> decodes (RAlloc caller size).
Proof.
  intros Hf. apply body_decodes; [done| |cbn [req_body]; rewrite length_app, !length_tlv_bytes, !length_le_bytes; lia]. intros fuel Hm. cbn [req_body req_ei req_size req_struct] in *.
  set (msg := _ ++ junk) in *. apply has_app in Hm as [H1 H2]. rewrite length_tlv_bytes, length_le_bytes in H2. change (10 + fuel)%nat with (S (S (S (7 + fuel)))).
  change (replicate 8 0) with ([] ++ replicate 4 0 ++ replicate 4 0).
  rewrite (tlv_turn_basic _ msg _ _ 1 (le_bytes 4 caller) (ei_plain QMI_UNSIGNED_4_BYTE 4 1 0) (drop 1 rmtfs_alloc_buf_req_ei)) by done.
  rewrite app_nil_l, <- (app_nil_r (le_bytes 4 caller ++ _)), <- app_assoc.
  rewrite (tlv_turn_basic _ msg _ _ 2 (le_bytes 4 size) (ei_plain QMI_UNSIGNED_4_BYTE 4 2 4) [eoti]) by done.
  rewrite turns_end by done. by rewrite app_nil_r.
Qed.

Lemma rw_req_decodes caller w es force : req_fits (RRw caller w es force) -> decodes (RRw caller w es force).
Proof.
  intros Hf. pose proof Hf as (_ & _ & Hn). pose proof (length_iovecs_bytes es) as Hlen. apply body_decodes; [done| |cbn [req_body]; rewrite !length_app, !length_tlv_bytes; cbn [length]; rewrite length_le_bytes; lia].
  intros fuel Hm. set (total := Z.of_nat (length (req_body _))). cbn [req_body req_ei req_size req_struct] in *. set (msg := _ ++ junk) in *. set (n := length es) in *.
  apply has_app in Hm as [H1 [H2 [H3 H4]%has_app]%has_app].
  assert (total = 19 + 12 * Z.of_nat n) as Ht by (unfold total; cbn [req_body]; rewrite !length_app, !length_tlv_bytes; cbn [length]; rewrite length_le_bytes, Hlen; lia).
  rewrite !length_tlv_bytes, ?length_le_bytes in *. cbn [length] in *. rewrite Hlen in *. change (10 + fuel)%nat with (S (S (S (S (S (5 + fuel)))))).
  assert (replicate (Z.to_nat 3080) 0 = [] ++ replicate 4 0 ++ [0] ++ replicate 3 0 ++ replicate 8 0 ++ replicate (12 * n) 0 ++ replicate (12 * (255 - n)) 0 ++ [0] ++ replicate 3 0) as ->.
  { change [0] with (replicate 1 0). rewrite app_nil_l, <- !replicate_add. f_equal. lia. }
  rewrite (tlv_turn_basic _ msg _ _ 1 (le_bytes 4 caller) (ei_plain QMI_UNSIGNED_4_BYTE 4 1 0) (drop 1 rmtfs_iovec_req_ei)) by (done || lia).
  rewrite app_nil_l, length_tlv_bytes, length_le_bytes.
  rewrite (tlv_turn_basic _ msg _ _ 2 [bool_byte w] (ei_plain QMI_UNSIGNED_1_BYTE 1 2 4) (drop 2 rmtfs_iovec_req_ei)) by (done || lia).
  rewrite !length_tlv_bytes. cbn [length].
  set (a := le_bytes 4 caller ++ [bool_byte w] ++ replicate 3 0). set (rest := replicate (12 * (255 - n)) 0 ++ [0] ++ replicate 3 0).
  assert (length a = 8%nat) as Ha by done. set (a2 := (a ++ Z.of_nat n :: replicate 3 0) ++ replicate 4 0).
  assert (length a2 = 16%nat) as Ha2 by done.
  rewrite (tlv_turn_array _ msg _ _ 3 (Z.of_nat n) (iovecs_bytes es) (ei_plain QMI_DATA_LEN 1 3 8)
    (MkEi QMI_STRUCT 255 12 VAR_LEN_ARRAY 3 16 (Some rmtfs_iovec_entry_ei)) (drop 4 rmtfs_iovec_req_ei)
    (a2 ++ replicate (12 * n) 0 ++ rest) _ (a2 ++ iovecs_bytes es ++ rest) _ _ _ _ rmtfs_iovec_entry_ei (drop 4 rmtfs_iovec_req_ei)); try done; try lia.
  - rewrite length_tlv_bytes. cbn [length]. rewrite Hlen. unfold rest. rewrite (app_assoc (iovecs_bytes es)), (app_assoc a2).
    set (a3 := a2 ++ iovecs_bytes es ++ replicate (12 * (255 - n)) 0).
    assert (Z.of_nat (length a3) = 3076) as Ha3 by (unfold a3; rewrite !length_app, Hlen, length_replicate, Ha2; lia).
    rewrite (tlv_turn_basic _ msg _ _ 4 [force] (ei_plain QMI_UNSIGNED_1_BYTE 1 4 3076) [eoti]) by (done || lia || (by rewrite Ha3) || (eapply eq_ind; [exact H4|f_equal; lia])).
    rewrite length_tlv_bytes. cbn [length]. match goal with |- context [MkDec _ _ _ ?k] => replace k with total by lia end.
    rewrite turns_end by lia. do 2 f_equal. unfold a3, a2, a. rewrite <- !app_assoc. done.
  - cbn [offset ei_plain]. rewrite (app_assoc (le_bytes 4 caller)).
    change ((le_bytes 4 caller ++ [bool_byte w]) ++ replicate 3 0 ++ replicate 8 0 ++ replicate (12 * n) 0 ++ rest)
      with (a ++ replicate 4 0 ++ replicate 4 0 ++ replicate (12 * n) 0 ++ rest).
    rewrite (store_mid a (replicate 4 0) (Z.of_nat n :: replicate 3 0)) by done. unfold a2. by rewrite <- !app_assoc.
  - cbn [elem_len]. lia.
  - cbn [offset elem_size]. rewrite Nat2Z.id, Hlen. change 16 with (Z.of_nat 16). rewrite <- Ha2.
    pose proof (entries_decode (3 + fuel) msg (Z.of_nat (12 * n)) es a2 rest (7 + Z.of_nat 7 + Z.of_nat 4 + 4) 0 0) as He.
    change (4 + (3 + fuel))%nat with (S (S (5 + fuel))) in He. fold n in He. rewrite Z.add_0_l in He. apply He; [|lia..].
    change (tlv_bytes 3 (Z.of_nat n :: iovecs_bytes es)) with ([3] ++ le_bytes 2 (Z.of_nat (length (Z.of_nat n :: iovecs_bytes es))) ++ [Z.of_nat n] ++ iovecs_bytes es) in H3.
    apply has_app in H3 as [_ [_ [_ H3]%has_app]%has_app]. rewrite length_le_bytes in H3. eapply eq_ind; [exact H3|f_equal; cbn [length]; lia].
Qed.

Lemma req_decodes r : req_fits r -> decodes r.
Proof.
  destruct r as [path|caller|caller w es force|caller size]; intros Hf;
    [by apply open_req_decodes|by apply close_req_decodes|by apply rw_req_decodes|by apply alloc_req_decodes].
Qed.

End decoding.

(** ** The members of the structures *)

Lemma field_mid a b c off n : off = Z.of_nat (length a) -> n = Z.of_nat (length b) -> field (a ++ b ++ c) off n = Ret (le_val b).
Proof. intros -> ->. unfold field. by rewrite (load_mid a b c). Qed.

Lemma field_le a k z c off n :
  off = Z.of_nat (length a) -> n = Z.of_nat k -> 0 <= z < 2 ^ (8 * Z.of_nat k) -> field (a ++ le_bytes k z ++ c) off n = Ret z.
Proof. intros -> -> Hz. rewrite field_mid by (rewrite ?length_le_bytes; done). by rewrite le_val_bytes_small. Qed.

Lemma close_members caller : req_fits (RClose caller) -> field (req_struct (RClose caller)) 0 4 = Ret caller.
Proof.
  cbn [req_struct req_fits]. intros Hf. rewrite <- (app_nil_r (le_bytes 4 caller)). apply (field_le [] 4); [done|done|].
  change (2 ^ (8 * Z.of_nat 4)) with 4294967296. lia.
Qed.

Lemma rw_members caller w es force :
  req_fits (RRw caller w es force) ->
  let c := req_struct (RRw caller w es force) in
  field c 0 4 = Ret caller /\ field c 4 1 = Ret (bool_byte w) /\ field c 8 8 = Ret (Z.of_nat (length es)).
Proof.
  intros (Hc & _ & Hn). cbn [req_struct]. split_and!.
  - apply (field_le [] 4); [done|done|]. change (2 ^ (8 * Z.of_nat 4)) with 4294967296. lia.
  - change [bool_byte w; 0; 0; 0] with ([bool_byte w] ++ [0; 0; 0]). rewrite <- app_assoc, field_mid by done.
    f_equal. unfold le_val. lia.
  - rewrite app_assoc, field_mid by done. f_equal. unfold le_val. lia.
Qed.

Lemma entry_members a e c off :
  iovec_ok e -> off = Z.of_nat (length a) ->
  field (a ++ iovec_bytes e ++ c) off 4 = Ret (io_sector e)
  /\ field (a ++ iovec_bytes e ++ c) (off + 4) 4 = Ret (io_phys e)
  /\ field (a ++ iovec_bytes e ++ c) (off + 8) 4 = Ret (io_num e).
Proof.
  intros (Hs & Hp & Hn) ->. unfold iovec_bytes. rewrite <- !app_assoc.
  split_and!; [|rewrite (app_assoc a)|rewrite (app_assoc a), (app_assoc (a ++ _))]; apply field_le; try done;
    rewrite ?length_app, ?length_le_bytes; change (2 ^ (8 * Z.of_nat 4)) with 4294967296; lia.
Qed.

(** The entries of a request structure, one by one. *)
Lemma rw_entry caller w es force k e :
  req_fits (RRw caller w es force) -> es !! k = Some e ->
  let c := req_struct (RRw caller w es force) in
  let off := 16 + 12 * Z.of_nat k in
  field c off 4 = Ret (io_sector e) /\ field c (off + 4) 4 = Ret (io_phys e) /\ field c (off + 8) 4 = Ret (io_num e).
Proof.
  intros (_ & Hes & _) Hk c off. pose proof (Forall_lookup_1 _ _ _ _ Hes Hk) as He. unfold c. cbn [req_struct].
  set (n := Z.of_nat (length es)). set (rest := replicate _ 0 ++ [force; 0; 0; 0]).
  assert (iovecs_bytes es = iovecs_bytes (take k es) ++ iovec_bytes e ++ iovecs_bytes (drop (S k) es)) as ->.
  { rewrite <- (take_drop_middle _ _ _ Hk) at 1. unfold iovecs_bytes. rewrite fmap_app, fmap_cons, concat_app. done. }
  set (a := le_bytes 4 caller ++ [bool_byte w; 0; 0; 0] ++ [n; 0; 0; 0; 0; 0; 0; 0] ++ iovecs_bytes (take k es)).
  assert (le_bytes 4 caller ++ [bool_byte w; 0; 0; 0] ++ [n; 0; 0; 0; 0; 0; 0; 0] ++ (iovecs_bytes (take k es) ++ iovec_bytes e ++ iovecs_bytes (drop (S k) es)) ++ rest
          = a ++ iovec_bytes e ++ iovecs_bytes (drop (S k) es) ++ rest) as -> by (unfold a; by rewrite <- !app_assoc).
  apply entry_members; [done|]. unfold off, a. rewrite !length_app, length_le_bytes, length_iovecs_bytes, length_take.
  apply lookup_lt_Some in Hk. cbn [length]. lia.
Qed.
