(* ===== verification/RmtfsSafety.v ===== *)
(** * Safety of the request handlers of rmtfs

    With the storage in its normal mode (no shadow copies), the memory mapped or
    behind its device and -v not given, each handler returns and keeps the state
    consistent, whatever the message holds, on requests that do not run into the
    defects of the source: names of exactly 256 bytes, caller ids of 2^31 and
    more, device-error requests, and messages so long that the decoder, which does
    not compare the size of an element with what is left of the message, reads
    behind the receive buffer. *)

From Stdlib Require Import ZArith Lia.
From stdpp Require Import base list numbers strings.
From S2P Require Import Prelude Packet QmiCodec QmiMessages QmiDecode QmiEncode QmiTurns.
From S2P Require Import Storage StorageProofs SharedMem Rmtfs RmtfsProofs RmtfsWire.

Lemma field_range c off n x :
  Forall is_byte c -> field c off n = Ret x -> 0 <= x < 2 ^ (8 * n).
Proof.
  intros Hc. unfold field. destruct (load c off n) as [bs| |] eqn:E; try done. cbn [mbind outcome_bind].
  intros [= <-]. rewrite <- (length_load _ _ _ _ E). apply le_val_range. by eapply load_bytes.
Qed.

Lemma field_in c off n : 0 <= off -> 0 <= n -> off + n <= Z.of_nat (length c) ->
  exists x, field c off n = Ret x.
Proof. intros. unfold field. rewrite load_ret by lia. eexists. reflexivity. Qed.

(** ** The number of entries of a request

    [iovec_len] is a [size_t] of which the decoder writes four bytes, from one
    byte of the message: it stays below 256 because the structure is zeroed. *)

Definition count_ok (c : list Z) : Prop :=
  Forall is_byte c /\ exists n, field c 8 8 = Ret n /\ n < 256.

Lemma count_ok_store c d bs c' :
  count_ok c -> Forall is_byte bs -> d + Z.of_nat (length bs) <= 8 \/ 16 <= d ->
  store c d bs = Ret c' -> count_ok c'.
Proof.
  intros (Hc & n & Hf & Hn) Hb Hd Hs. split; [exact (store_bytes _ _ _ _ Hc Hb Hs)|]. exists n. split; [|done].
  rewrite <- Hf. unfold field. destruct (load c 8 8) as [w| |] eqn:E; try (unfold field in Hf; by rewrite E in Hf).
  apply load_ret_inv in E as (? & ? & Hl & ->). pose proof (length_store _ _ _ _ Hs) as L.
  rewrite load_ret by lia. cbn [mbind outcome_bind]. do 2 f_equal. apply list_eq. intros k.
  change (Z.to_nat 8) with 8%nat. destruct (decide (k < 8)%nat).
  - rewrite !lookup_take_lt, !lookup_drop by lia. apply (store_lookup_other _ _ _ _ _ Hs). lia.
  - by rewrite !lookup_ge_None_2 by (rewrite length_take; lia).
Qed.

Lemma le_val_app a b : le_val (a ++ b) = le_val a + 2 ^ (8 * Z.of_nat (length a)) * le_val b.
Proof.
  induction a as [|x a IH].
  { change (le_val b = 0 + 1 * le_val b). lia. }
  rewrite <- app_comm_cons. unfold le_val; fold le_val. rewrite IH. cbn [length].
  replace (8 * Z.of_nat (S (length a))) with (8 + 8 * Z.of_nat (length a)) by lia.
  rewrite Z.pow_add_r by lia. change (2 ^ 8) with 256. ring.
Qed.

(** Writing the count. *)
Lemma count_ok_word c w c' :
  count_ok c -> Forall is_byte w -> length w = 4%nat -> le_val w < 256 -> store c 8 w = Ret c' -> count_ok c'.
Proof.
  intros (Hc & n & Hf & Hn) Hw Hl Hv Hs. split; [exact (store_bytes _ _ _ _ Hc Hw Hs)|].
  unfold field in Hf. destruct (load c 8 8) as [b| |] eqn:E; try done. cbn [mbind outcome_bind] in Hf.
  injection Hf as Hf. change 8 with (4 + 4) in E at 2. apply load_split in E as (b1 & b2 & E1 & E2 & ->); [|lia..].
  pose proof (length_load _ _ _ _ E1) as L1. pose proof (load_bytes _ _ _ _ Hc E1) as B1.
  pose proof (load_bytes _ _ _ _ Hc E2) as B2.
  apply le_val_range in B1. pose proof (le_val_range _ B2) as R2. rewrite le_val_app in Hf.
  replace (length b1) with 4%nat in * by lia. change (2 ^ (8 * Z.of_nat 4)) with 4294967296 in *.
  assert (load c' 8 8 = Ret (w ++ b2)) as E'.
  { change 8 with (4 + 4) at 2. apply load_join.
    - replace 4 with (Z.of_nat (length w)) by lia. by eapply load_store_same.
    - rewrite <- E2. apply load_ret_inv in E2 as (? & ? & Hle & _).
      pose proof (length_store _ _ _ _ Hs) as L. rewrite !load_ret by lia. f_equal. apply list_eq. intros k.
      destruct (decide (k < Z.to_nat 4)%nat).
      + rewrite !lookup_take_lt, !lookup_drop by lia. apply (store_lookup_other _ _ _ _ _ Hs). lia.
      + by rewrite !lookup_ge_None_2 by (rewrite length_take; lia). }
  exists (le_val (w ++ b2)). unfold field. rewrite E'. split; [done|].
  rewrite le_val_app, Hl. change (2 ^ (8 * Z.of_nat 4)) with 4294967296. lia.
Qed.

Lemma count_ok_behind c d bs c' :
  count_ok c -> 16 <= d -> Forall is_byte bs -> store c d bs = Ret c' -> count_ok c'.
Proof. intros Hc Hd Hb Hs. eapply count_ok_store; [exact Hc|exact Hb|by right|exact Hs]. Qed.

(** A turn that decodes one plain element. *)
Lemma count_plain decode t size tlv off l c msg tl level v c' r :
  is_basic t = true -> off + size <= 8 \/ 16 <= off -> Forall is_byte msg -> count_ok c ->
  dec_element decode (ei_plain t size tlv off :: l) c 0 msg tl level v = Ret (c', r) ->
  count_ok c' /\ match r with inl _ => True | inr v' => d_data_len v' = 1 end.
Proof.
  intros Ht Hoff Hm Hc. unfold dec_element, dec_opt_flag, dec_array_len, ei_plain.
  cbn [ei_head mbind outcome_bind data_type].
  destruct (decide (t = QMI_OPT_FLAG)); [by subst|]. cbn [mbind outcome_bind ei_head data_type].
  destruct (decide (t = QMI_DATA_LEN)); [by subst|]. cbn [mbind outcome_bind ei_head data_type].
  cbn [dec_data_len array_type elem_len elem_size offset].
  assert (forall o, (r0 ← qmi_decode_basic_elem c (0 + off) msg (d_src v) 1 size;
      (let '(c, rc) := r0 in Ret (c, inr (MkDec (drop 1 o) 1 (d_src v + rc) (u32 (d_bytes v + rc))))))
     = Ret (c', r) -> count_ok c' /\ match r with inl _ => True | inr v' => d_data_len v' = 1 end) as Hgo.
  { intros o. unfold qmi_decode_basic_elem. change (Z.to_nat 1) with 1%nat. cbn [copy_loop].
    destruct (load msg (d_src v) size) as [bs| |] eqn:El; try done. cbn [mbind outcome_bind].
    destruct (store c (0 + off) bs) as [c1| |] eqn:Es; try done. cbn [mbind outcome_bind].
    intros ?; simplify_eq. split; [|done]. pose proof (length_load _ _ _ _ El).
    eapply count_ok_store; [exact Hc|by eapply load_bytes in El| |exact Es]. lia. }
  destruct t; try done; apply Hgo.
Qed.

(** The turn that decodes the entries. *)
Lemma count_entries decode c msg tl v c' r :
  (forall a sz, ei_list_ok sz a -> keeps_inv count_ok 16 (decode a)) ->
  Forall is_byte msg -> count_ok c -> 0 <= d_data_len v < 256 ->
  dec_element decode (drop 2 rmtfs_iovec_req_ei) c 0 msg tl 1 v = Ret (c', r) ->
  count_ok c' /\ match r with inl _ => True | inr v' => 0 <= d_data_len v' < 256 end.
Proof.
  intros Hk Hm Hc Hv. unfold rmtfs_iovec_req_ei, dec_element, dec_opt_flag, dec_array_len.
  cbn [drop ei_head mbind outcome_bind data_type ei_plain].
  rewrite decide_False by done. cbn [mbind outcome_bind ei_head data_type ei_plain].
  rewrite decide_True by done. cbn [elem_size ei_plain offset]. change (1 =? 1) with true. cbv iota.
  destruct (qmi_decode_basic_elem _ _ _ _ _ _) as [[w r1]| |] eqn:Ew; try done. cbn [mbind outcome_bind].
  assert (length w = 4%nat /\ Forall is_byte w /\ 0 <= le_val w < 256) as (Lw & Bw & Vw).
  { pose proof (decode_word_bytes _ Hm _ _ _ _ _ Ew) as Bw. revert Ew. unfold qmi_decode_basic_elem.
    change (Z.to_nat 1) with 1%nat. cbn [copy_loop].
    destruct (load msg (d_src v) 1) as [bs| |] eqn:El; try done. cbn [mbind outcome_bind].
    pose proof (length_load _ _ _ _ El) as L1. destruct bs as [|b [|]]; simpl in L1; try lia.
    destruct (store _ 0 [b]) as [w1| |] eqn:Es; try done. cbn [mbind outcome_bind]. intros ?; simplify_eq.
    pose proof (length_store _ _ _ _ Es) as L. rewrite length_le_bytes in L.
    split; [done|]. split; [done|]. apply store_ret_inv in Es as (_ & _ & ->).
    pose proof (load_bytes _ _ _ _ Hm El) as Bb. apply list.Forall_cons in Bb as [Hb _]. unfold is_byte in Hb.
    assert (d_data_len v / 256 = 0) as Hz by (apply Z.div_small; lia).
    change (0 <= le_val (b :: drop 1 (le_bytes 4 (d_data_len v))) < 256).
    change (drop 1 (le_bytes 4 (d_data_len v))) with (le_bytes 3 (d_data_len v / 256)). rewrite Hz.
    change (0 <= b + 256 * 0 < 256). lia. }
  destruct (store c (0 + 8) w) as [c1| |] eqn:Es; try done. cbn [mbind outcome_bind].
  cbn [drop ei_head mbind outcome_bind].
  assert (count_ok c1) as Hc1 by (apply (count_ok_word c w); [done..|lia|done]).
  cbn [dec_data_len array_type elem_len d_data_len data_type elem_size offset ei_array].
  destruct (Z.ltb_spec 255 (le_val w)); [lia|]. cbv beta iota zeta. cbn [d_src data_type elem_size offset ei_array].
  destruct (qmi_decode_struct_elem _ _ _ _ _ _ _ _) as [[c2 r2]| |] eqn:E; try done. cbn [mbind outcome_bind fst snd].
  assert (count_ok c2).
  { eapply (decode_struct_inv count_ok 16); [|exact Hc1| | |exact E]; [|lia|lia].
    eapply (Hk rmtfs_iovec_entry_ei 12). by split. }
  destruct (r2 <? 0); intros ?; simplify_eq; done.
Qed.

Lemma find_iovec t :
  find_ei rmtfs_iovec_req_ei t = Ret None
  \/ exists l, find_ei rmtfs_iovec_req_ei t = Ret (Some l)
     /\ (l = rmtfs_iovec_req_ei \/ l = drop 1 rmtfs_iovec_req_ei \/ l = drop 2 rmtfs_iovec_req_ei
         \/ l = drop 4 rmtfs_iovec_req_ei).
Proof.
  unfold rmtfs_iovec_req_ei. cbn [find_ei data_type ei_plain tlv_type].
  rewrite !decide_False by done. destruct (1 =? u8 t); [by eauto 7|].
  destruct (2 =? u8 t); [by eauto 7|]. destruct (3 =? u8 t); [by eauto 7|].
  destruct (4 =? u8 t); [by eauto 8|]. by left.
Qed.

Lemma iovec_count msg fuel : forall c len v c' rc,
  Forall is_byte msg -> count_ok c -> 0 <= d_data_len v < 256 ->
  qmi_decode_loop fuel rmtfs_iovec_req_ei c 0 msg len 1 v = Ret (c', rc) -> count_ok c'.
Proof.
  induction fuel as [|fuel IH]; intros c len v c' rc Hm Hc Hv; [done|].
  cbn [qmi_decode_loop]. destruct (len <=? d_bytes v); [by intros [= <- _]|].
  change (1 =? 1) with true. cbv iota. unfold dec_tlv.
  destruct (load msg (d_src v) TLV_HDR) as [h| |]; try done. cbn [mbind outcome_bind].
  destruct h as [|t [|x [|y [|]]]]; try done.
  set (decode := fun a c d s len => qmi_decode_loop fuel a c d msg len (1 + 1) (MkDec a 0 s 0)).
  assert (forall l tl v1, d_data_len v1 = d_data_len v ->
    l = rmtfs_iovec_req_ei \/ l = drop 1 rmtfs_iovec_req_ei \/ l = drop 2 rmtfs_iovec_req_ei
      \/ l = drop 4 rmtfs_iovec_req_ei ->
    (r ← dec_element decode l c 0 msg tl 1 v1;
     match r with
     | (c, inl err) => Ret (c, err)
     | (c, inr v') => qmi_decode_loop fuel rmtfs_iovec_req_ei c 0 msg len 1 v'
     end) = Ret (c', rc) -> count_ok c') as Helem.
  { intros l tl v1 Hv1 Hl. destruct (dec_element _ _ _ _ _ _ _ _) as [[c1 r1]| |] eqn:E; try done.
    assert (count_ok c1 /\ match r1 with inl _ => True | inr v' => 0 <= d_data_len v' < 256 end) as [Hc1 Hr1].
    { destruct Hl as [-> |[-> |[-> | ->]]].
      - apply count_plain in E as [? Hr]; try done; [|left; lia]. split; [done|]. destruct r1; [done|lia].
      - apply count_plain in E as [? Hr]; try done; [|left; lia]. split; [done|]. destruct r1; [done|lia].
      - apply count_entries in E; try done; [|lia]. intros a sz Ha c2 d s k c3 r3 Hc2 Hd.
        eapply (decode_loop_inv count_ok 16); try done. intros c4 d4 bs c5. apply count_ok_behind.
      - apply count_plain in E as [? Hr]; try done; [|right; lia]. split; [done|]. destruct r1; [done|lia]. }
    cbn [mbind outcome_bind]. destruct r1; [by intros [= <- _]|by apply IH]. }
  destruct (find_iovec t) as [-> |(l & -> & Hl)]; cbn [mbind outcome_bind]; [|by apply Helem].
  destruct (t <? _); [by intros [= <- _]|]. by apply IH.
Qed.

Lemma decode_message_keeps c buf data_len type id rc c' txn :
  Forall is_byte buf -> count_ok c ->
  qmi_decode_message c buf data_len type id (Some rmtfs_iovec_req_ei) = Ret (rc, c', txn) -> count_ok c'.
Proof.
  intros Hb Hc. unfold qmi_decode_message. destruct (data_len =? 0); [by intros [= _ <- _]|].
  destruct (load buf 0 _) as [bs| |]; try done. cbn [mbind outcome_bind].
  destruct (negb _); [by intros [= _ <- _]|]. destruct (negb _); [by intros [= _ <- _]|].
  unfold qmi_decode. destruct (qmi_decode_loop _ _ _ _ _ _ _ _) as [[c1 r1]| |] eqn:E; try done.
  cbn [mbind outcome_bind]. intros [= _ <- _]. eapply iovec_count in E; try done.
Qed.

(** ** The path of an open request

    The path has 256 bytes and the decoder takes names of up to 256 bytes, so
    that the NUL behind one of exactly 256 lies outside the structure; all others
    leave the last byte of the path zero. *)

(** No name of a message has exactly 256 bytes: its TLVs, [len] bytes from [src]. *)
Fixpoint names_fit (fuel : nat) (msg : list Z) (src len : Z) : bool :=
  match fuel with
  | O => true
  | S fuel' =>
      if len <=? 0 then true
      else match load msg src TLV_HDR with
           | Ret [t; lo; hi] =>
               let n := Z.lor lo (Z.shiftl hi 8) in
               negb ((t =? 1) && (n =? 256)) && names_fit fuel' msg (src + TLV_HDR + n) (len - TLV_HDR - n)
           | _ => true
           end
  end.

(** The structure as long as the path is terminated. *)
Definition path_struct (c : list Z) : Prop := length c = 260%nat /\ c !! 259%nat = Some 0.

Lemma path_struct_store c d bs c' :
  path_struct c -> d + Z.of_nat (length bs) <= 259 -> store c d bs = Ret c' -> path_struct c'.
Proof.
  intros [Hl H0] Hd Hs. split; [by rewrite (length_store _ _ _ _ Hs)|]. rewrite <- H0. apply (store_lookup_other _ _ _ _ _ Hs). lia.
Qed.

Lemma strlen_loop_ends m : forall k i, m !! i = Some 0 -> exists n, strlen_loop m k = Ret n.
Proof.
  induction m as [|b m IH]; intros k i Hi; [done|]. cbn [strlen_loop]. destruct (Z.eqb_spec b 0); [by eexists|].
  destruct i as [|i]; [simplify_eq/=|]. by apply (IH _ i).
Qed.

Lemma path_struct_cstr c : path_struct c -> exists path, cstr c 4 = Ret path.
Proof.
  intros [Hl H0]. unfold cstr. destruct (strlen_loop_ends (drop 4 c) 0 255) as [n Hn]; [by rewrite lookup_drop|].
  assert (strlen c 4 = Ret n) as Hs by exact Hn. rewrite Hs. cbn [mbind outcome_bind]. apply strlen_range in Hs as (_ & ? & ?).
  rewrite load_ret by lia. by eexists.
Qed.

Lemma copy_path n : forall c d msg s rc c' rc',
  path_struct c -> d + Z.of_nat n <= 259 -> copy_loop n c d msg s 1 rc = Ret (c', rc') -> path_struct c'.
Proof.
  induction n as [|n IH]; intros c d msg s rc c' rc' Hc Hd; cbn [copy_loop]; [by intros [= <- _]|].
  destruct (load msg s 1) as [bs| |] eqn:El; try done. cbn [mbind outcome_bind].
  destruct (store c d bs) as [c1| |] eqn:Es; try done. cbn [mbind outcome_bind]. apply IH; [|lia].
  pose proof (length_load _ _ _ _ El). eapply path_struct_store; [exact Hc| |exact Es]. lia.
Qed.

(** The name copied, and the NUL. *)
Lemma decode_path c msg src n :
  path_struct c -> 0 <= src -> 0 <= n -> n <> 256 -> src + 256 <= Z.of_nat (length msg) ->
  exists c' rc, qmi_decode_string_elem (MkEi QMI_STRING 256 1 VAR_LEN_ARRAY 1 4 None) c 4 msg src n 1 = Ret (c', rc)
    /\ path_struct c' /\ (rc < 0 \/ rc = n).
Proof.
  intros Hc Hs Hn Hne Hm. pose proof Hc as [Hl _]. unfold qmi_decode_string_elem. change (1 =? 1) with true. cbv iota. cbn [mbind outcome_bind elem_len elem_size].
  destruct (Z.ltb_spec 256 n). { eexists _, _. split; [reflexivity|]. split; [done|]. left. done. }
  rewrite Z.ltb_irrefl, Z.add_0_r.
  destruct (decode_basic_safe c 4 msg src n 1) as (c1 & Heq & L1 & _); [lia..|]. rewrite Heq. cbn [mbind outcome_bind].
  assert (path_struct c1) as Hc1.
  { revert Heq. unfold qmi_decode_basic_elem. destruct (copy_loop _ _ _ _ _ _ _) as [[c2 r2]| |] eqn:E; try done. cbn [mbind outcome_bind].
    intros [= <- _]. eapply copy_path; [exact Hc| |exact E]. lia. }
  destruct (store_in c1 (4 + n) [0]) as (c2 & Hst & L2); [lia|cbn [length]; lia|]. rewrite Hst. cbn [mbind outcome_bind].
  eexists _, _. split; [reflexivity|]. split; [|right; lia]. split; [congruence|].
  destruct (decide (n = 255)) as [->|].
  - apply store_ret_inv in Hst as (_ & _ & ->). rewrite lookup_app_r by (rewrite length_take; lia).
    rewrite length_take, Nat.min_l by lia. change (Z.to_nat (4 + 255)) with 259%nat. by rewrite Nat.sub_diag.
  - rewrite (store_lookup_other _ _ _ _ _ Hst); [apply Hc1|cbn [length]; lia].
Qed.

Lemma find_open_ei t :
  find_ei rmtfs_open_req_ei t = Ret (if 1 =? u8 t then Some rmtfs_open_req_ei else None).
Proof. unfold rmtfs_open_req_ei. cbn [find_ei data_type tlv_type eoti]. rewrite decide_False by done. by destruct (1 =? u8 t). Qed.

Lemma open_loop msg len fuel : forall g c v,
  Forall is_byte msg -> 7 + len + 3 + wires rmtfs_open_req_ei <= Z.of_nat (length msg) -> Z.of_nat (length msg) < 2147418112 ->
  0 <= len -> d_src v = 7 + d_bytes v -> 0 <= d_bytes v < 2147483648 -> d_data_len v = 0 -> path_struct c ->
  (Z.to_nat (len - d_bytes v) < fuel)%nat -> (Z.to_nat (len - d_bytes v) <= g)%nat ->
  names_fit g msg (d_src v) (len - d_bytes v) = true ->
  exists c' rc, qmi_decode_loop fuel rmtfs_open_req_ei c 0 msg len 1 v = Ret (c', rc) /\ path_struct c'.
Proof.
  change (wires rmtfs_open_req_ei) with 258.
  induction fuel as [|fuel IH]; intros g c v Hb Hm Hmax Hlen Hsrc Hby Hdl Hc Hf Hg Hn; [lia|].
  cbn [qmi_decode_loop]. destruct (Z.leb_spec len (d_bytes v)); [by eexists _, _|].
  destruct g as [|g]; [lia|]. change (1 =? 1) with true. cbv iota. unfold dec_tlv. cbn [names_fit] in Hn.
  destruct (Z.leb_spec (len - d_bytes v) 0); [lia|]. unfold TLV_HDR in *.
  destruct (load msg (d_src v) 3) as [h| |] eqn:El; [|by rewrite load_ret in El by lia..]. cbn [mbind outcome_bind].
  pose proof (length_load _ _ _ _ El) as L3. pose proof (load_bytes _ _ _ _ Hb El) as Bh.
  destruct h as [|t [|lo [|hi [|]]]]; cbn [length] in L3; try lia.
  rewrite !list.Forall_cons in Bh. destruct Bh as (Ht & Hlo & Hhi & _). pose proof (tlv_len_range lo hi Hlo Hhi) as Hr.
  set (n := Z.lor lo (Z.shiftl hi 8)) in *. apply andb_true_iff in Hn as [Hn1 Hn]. rewrite find_open_ei, u8_small by done. cbn [mbind outcome_bind].
  destruct (Z.eqb_spec 1 t) as [<-|].
  - assert (n <> 256) as Hne by (intros ->; done).
    destruct (decode_path c msg (d_src v + 3) n) as (c1 & rc & Hd & Hc1 & Hrc); [done|lia|lia|done|lia|].
    unfold dec_element, dec_opt_flag, dec_array_len, rmtfs_open_req_ei. cbn [ei_head mbind outcome_bind data_type]. rewrite decide_False by done.
    cbn [ei_head mbind outcome_bind data_type]. rewrite decide_False by done.
    cbn [ei_head mbind outcome_bind data_type dec_data_len array_type elem_len d_data_len d_src offset]. rewrite Hdl. change (256 <? 0) with false. cbv iota.
    change (0 + 4) with 4. rewrite Hd. cbn [mbind outcome_bind fst snd]. destruct (Z.ltb_spec rc 0) as [|Hge]; [by eexists _, _|].
    destruct Hrc as [?| ->]; [lia|]. cbn [mbind outcome_bind d_bytes].
    apply (IH g); cbn [d_bytes d_src d_data_len]; rewrite ?u32_small by (rewrite ?u32_small; lia); try done; try lia.
    rewrite <- Hn. f_equal; lia.
  - destruct (t <? _); [by eexists _, _|].
    apply (IH g); cbn [d_bytes d_src d_data_len]; rewrite ?u32_small by (rewrite ?u32_small; lia); try done; try lia.
    rewrite <- Hn. f_equal; lia.
Qed.

Section safety.
Context {W D : Type} `{FilesOk W} `{MemDevOk D}.
Implicit Type st : rmtfs_state W D.

Record rs_ok st : Prop := MkRsOk
  { rk_storage : storage_ok (rs_storage st);
    rk_mode : storage_read_only (rs_storage st) = false;
    rk_mem : exists base, mem_ok (rs_mem st) base;
    rk_dbg : rs_dbg st = false }.

(** The locals are large enough to be used, whatever they hold. *)
Definition stack_ok (stk : stack) : Prop :=
  (256 <= length (stk_resp stk))%nat /\ (512 <= length (stk_sector stk))%nat.

Lemma pread_normal (s : storage W) i r buf off :
  rmtfds s !! i = Some r -> storage_read_only s = false -> Z.of_nat (length buf) = SECTOR_SIZE ->
  exists buf', storage_pread s i buf SECTOR_SIZE off = Ret (buf', SECTOR_SIZE)
    /\ Z.of_nat (length buf') = SECTOR_SIZE.
Proof.
  intros Hr Hro Hb. unfold storage_pread. rewrite Hr, Hro. cbn [negb]. unfold SECTOR_SIZE in *.
  destruct (ok_pread (world s) (rf_fd r) 512 off) as [Hle Hl]; [lia|].
  destruct (f_pread (world s) (rf_fd r) 512 off) as [n bs]. cbn [fst snd] in *.
  destruct (store_in buf 0 (take (Z.to_nat n) bs)) as (b1 & -> & L1); [lia|rewrite length_take; lia|].
  cbn [mbind outcome_bind]. unfold pread_finish. destruct (Z.ltb_spec (u64 n) 512) as [Hlt|]; [|exists b1; by rewrite L1].
  assert (0 <= n) as Hn.
  { destruct (decide (n = -1)) as [->|]; [|lia]. by change (u64 (-1)) with 18446744073709551615 in Hlt. }
  destruct (store_in b1 n (replicate (Z.to_nat (512 - n)) 0)) as (b2 & -> & L2);
    [lia|rewrite length_replicate; lia|].
  cbn [mbind outcome_bind]. exists b2. split; [done|]. by rewrite L2, L1.
Qed.

(** ** One sector, all sectors, all entries *)

Lemma rs_ok_world st w : rs_ok st ->
  rs_ok (MkRs (set_rmtfds (rs_storage st) (rmtfds (rs_storage st)) w) (rs_mem st) (rs_dbg st)).
Proof. intros [[] ? ? ?]. by split. Qed.

Lemma sector_safe st is_write i buf phys sect :
  rs_ok st -> (i < MAX_CALLERS)%nat -> Z.of_nat (length buf) = SECTOR_SIZE ->
  0 <= phys -> phys + SECTOR_SIZE < 18446744073709551616 ->
  exists st' buf' n, iovec_sector st is_write i buf phys sect = Ret (st', buf', n)
    /\ rs_ok st' /\ Z.of_nat (length buf') = SECTOR_SIZE.
Proof.
  intros Hok Hi Hb Hp Hw. pose proof Hok as [Hs Hro [base Hm] Hdbg]. unfold iovec_sector.
  destruct (lookup_lt_is_Some_2 (rmtfds (rs_storage st)) i) as [r Hr]; [by rewrite (so_length _ Hs)|].
  destruct is_write.
  - destruct (mem_read_total (rs_mem st) base phys buf) as (b1 & n & Hrd & L1); try done; try lia.
    rewrite Hb in Hrd. rewrite Hrd. cbn [mbind outcome_bind].
    destruct (n =? SECTOR_SIZE); [|eexists _, _, _; split_and!; [done|done|lia]].
    unfold storage_pwrite. rewrite Hr, Hro. cbn [negb].
    destruct (f_pwrite (world (rs_storage st)) (rf_fd r) b1 sect) as [k w]. cbn [mbind outcome_bind].
    eexists _, _, _. split_and!; [done|by apply rs_ok_world|lia].
  - destruct (pread_normal (rs_storage st) i r buf sect Hr Hro Hb) as (b1 & -> & L1).
    cbn [mbind outcome_bind]. change (0 <=? SECTOR_SIZE) with true.
    change (SECTOR_SIZE <? SECTOR_SIZE) with false. cbv iota. cbn [mbind outcome_bind].
    destruct (mem_write_total (rs_mem st) base phys b1) as (m' & n & Hwr & base' & Hm'); try done; try lia.
    rewrite L1 in Hwr. rewrite Hwr. cbn [mbind outcome_bind].
    eexists _, _, _. split_and!; [done|by split; [..|exists base'|]|done].
Qed.

Lemma sectors_safe n : forall st is_write i buf phys sect off,
  rs_ok st -> (i < MAX_CALLERS)%nat -> Z.of_nat (length buf) = SECTOR_SIZE ->
  0 <= phys + off -> phys + off + SECTOR_SIZE * Z.of_nat n < 18446744073709551616 ->
  exists st' buf' b, iovec_sectors st is_write i buf phys sect off n = Ret (st', buf', b)
    /\ rs_ok st' /\ Z.of_nat (length buf') = SECTOR_SIZE.
Proof.
  induction n as [|n IH]; intros st is_write i buf phys sect off Hok Hi Hb Hp Hw; cbn [iovec_sectors].
  { by eexists _, _, _. }
  assert (SECTOR_SIZE = 512) as H512 by done.
  destruct (sector_safe st is_write i buf (phys + off) (sect + off)) as (st1 & b1 & k & -> & Hok1 & L1);
    try done; try lia.
  cbn [mbind outcome_bind]. destruct (negb _); [by eexists _, _, _|]. apply IH; try done; lia.
Qed.

Lemma entries_safe n : forall st is_write i buf req k,
  rs_ok st -> (i < MAX_CALLERS)%nat -> Z.of_nat (length buf) = SECTOR_SIZE -> Forall is_byte req ->
  0 <= k -> 16 + 12 * (k + Z.of_nat n) <= Z.of_nat (length req) ->
  exists st' b, iovec_entries st is_write i buf req k n = Ret (st', b) /\ rs_ok st'.
Proof.
  induction n as [|n IH]; intros st is_write i buf req k Hok Hi Hb Hreq Hk Hfit; cbn [iovec_entries].
  { by eexists _, _. }
  destruct (field_in req (16 + 12 * k) 4) as [sa ->]; [lia..|]. cbn [mbind outcome_bind].
  destruct (field_in req (16 + 12 * k + 4) 4) as [po Hpo]; [lia..|]. rewrite Hpo. cbn [mbind outcome_bind].
  destruct (field_in req (16 + 12 * k + 8) 4) as [num Hnum]; [lia..|]. rewrite Hnum. cbn [mbind outcome_bind].
  apply field_range in Hpo, Hnum; [|done..]. change (2 ^ (8 * 4)) with 4294967296 in *.
  destruct (sectors_safe (Z.to_nat num) st is_write i buf po (u32 (sa * SECTOR_SIZE)) 0)
    as (st1 & b1 & ok & -> & Hok1 & L1); try done; [lia|unfold SECTOR_SIZE; lia|].
  cbn [mbind outcome_bind]. destruct ok; [|by eexists _, _]. apply IH; try done; lia.
Qed.

(** ** The handlers *)

(** A request decodes into a structure of [size] bytes. *)
Definition decodes_into (size id : Z) (ei : list qmi_elem_info) (pkt : packet) : Prop :=
  exists rc req txn,
    qmi_decode_message (replicate (Z.to_nat size) 0) (pk_data pkt) (pk_len pkt) QMI_REQUEST id (Some ei) = Ret (rc, req, txn)
    /\ Z.of_nat (length req) = size /\ Forall is_byte req.

(** The receive buffer. *)
Record pkt_ok (pkt : packet) : Prop := MkPktOk
  { po_bytes : Forall is_byte (pk_data pkt);
    po_header : 7 <= pk_len pkt;
    po_max : Z.of_nat (length (pk_data pkt)) < 2147418112 }.

(** There is room behind the message for what the decoder may read there. *)
Definition room (ei : list qmi_elem_info) (pkt : packet) : Prop := pk_len pkt + 3 + wires ei <= Z.of_nat (length (pk_data pkt)).

(** The packet holds a request of the shape the modem sends. *)
Definition well_formed (id : Z) (pkt : packet) : Prop :=
  exists txn r junk, 0 <= txn < 65536 /\ req_fits r /\ req_id r = id
    /\ pk_data pkt = req_message txn r ++ junk /\ pk_len pkt = 7 + Z.of_nat (length (req_body r)).

(** The caller id of the request decodes to a non-negative [int]. *)
Definition caller_ok (size id : Z) (ei : list qmi_elem_info) (pkt : packet) : Prop :=
  forall rc req txn caller,
    qmi_decode_message (replicate (Z.to_nat size) 0) (pk_data pkt) (pk_len pkt) QMI_REQUEST id (Some ei)
      = Ret (rc, req, txn) ->
    field req 0 4 = Ret caller -> caller < 2147483648.

Lemma zeros_bytes n : Forall is_byte (replicate n 0).
Proof. apply Forall_replicate. unfold is_byte. lia. Qed.

(** Decoding a request into its zeroed structure. *)
Lemma request_decodes size id ei pkt :
  pkt_ok pkt -> room ei pkt -> 0 <= size -> ei_list_ok size ei -> decodes_into size id ei pkt.
Proof.
  intros [Hb H7 Hmax] Hroom Hs Hei.
  assert (Z.of_nat (length (replicate (Z.to_nat size) 0)) = size) as Hl by (rewrite length_replicate; lia).
  destruct (decode_message_safe (replicate (Z.to_nat size) 0) (pk_data pkt) (pk_len pkt) QMI_REQUEST id ei)
    as (rc & req & txn & Heq & Lr); try done; [by rewrite Hl|].
  exists rc, req, txn. split_and!; [done|congruence|].
  exact (decode_message_bytes _ _ _ _ _ _ _ _ _ _ Hei (zeros_bytes _) Hb Heq).
Qed.

(** Requests of the modem decode, whatever the number of their entries, and
    name a caller below 2^31. *)
Lemma well_formed_decodes txn r junk pkt :
  0 <= txn < 65536 -> req_fits r -> pkt_ok pkt -> pk_data pkt = req_message txn r ++ junk -> pk_len pkt = 7 + Z.of_nat (length (req_body r)) ->
  qmi_decode_message (replicate (req_size r) 0) (pk_data pkt) (pk_len pkt) QMI_REQUEST (req_id r) (Some (req_ei r))
    = Ret (Z.of_nat (length (req_body r)), req_struct r, Some txn).
Proof. intros Ht Hf _ -> ->. by apply req_decodes. Qed.

Definition request_arrives (size id : Z) (ei : list qmi_elem_info) (pkt : packet) : Prop :=
  decodes_into size id ei pkt /\ caller_ok size id ei pkt.

Lemma close_arrives pkt : pkt_ok pkt -> well_formed QMI_RMTFS_CLOSE pkt -> request_arrives 4 QMI_RMTFS_CLOSE rmtfs_close_req_ei pkt.
Proof.
  intros Hp (txn & r & junk & Ht & Hf & Hid & Hdata & Hlen). pose proof (well_formed_decodes _ _ _ _ Ht Hf Hp Hdata Hlen) as Hd.
  destruct r as [path|caller|caller w es force|caller size]; try done. pose proof Hf as Hc. cbn [req_fits] in Hc. split.
  - eexists _, _, _. split; [exact Hd|]. split; [done|]. apply (decode_message_bytes 4 _ _ _ _ _ _ _ _ _) in Hd; [done|by split|apply zeros_bytes|apply Hp].
  - intros rc req txn' caller'. intros Hd'. pose proof (eq_trans (eq_sym Hd) Hd') as He. assert (req = req_struct (RClose caller)) as -> by congruence.
    rewrite (close_members caller Hf). intros [= <-]. lia.
Qed.

Lemma transfer_arrives pkt : pkt_ok pkt -> well_formed QMI_RMTFS_RW_IOVEC pkt -> request_arrives 3080 QMI_RMTFS_RW_IOVEC rmtfs_iovec_req_ei pkt.
Proof.
  intros Hp (txn & r & junk & Ht & Hf & Hid & Hdata & Hlen). pose proof (well_formed_decodes _ _ _ _ Ht Hf Hp Hdata Hlen) as Hd.
  destruct r as [path|caller|caller w es force|caller size]; try done. split.
  - eexists _, _, _. split; [exact Hd|]. split.
    + cbn [req_struct]. rewrite !length_app, length_le_bytes, length_iovecs_bytes, length_replicate. cbn [length]. destruct Hf as (_ & _ & Hn). lia.
    + apply (decode_message_bytes 3080 _ _ _ _ _ _ _ _ _) in Hd; [done|by split|apply zeros_bytes|apply Hp].
  - intros rc req txn' caller'. intros Hd'. pose proof (eq_trans (eq_sym Hd) Hd') as He. assert (req = req_struct (RRw caller w es force)) as -> by congruence.
    destruct (rw_members caller w es force Hf) as (-> & _). intros [= <-]. apply Hf.
Qed.

Lemma alloc_arrives pkt : pkt_ok pkt -> well_formed QMI_RMTFS_ALLOC_BUFF pkt -> decodes_into 8 QMI_RMTFS_ALLOC_BUFF rmtfs_alloc_buf_req_ei pkt.
Proof.
  intros Hp (txn & r & junk & Ht & Hf & Hid & Hdata & Hlen). pose proof (well_formed_decodes _ _ _ _ Ht Hf Hp Hdata Hlen) as Hd.
  destruct r as [path|caller|caller w es force|caller size]; try done. eexists _, _, _. split; [exact Hd|]. split; [done|].
  apply (decode_message_bytes 8 _ _ _ _ _ _ _ _ _) in Hd; [done|by split|apply zeros_bytes|apply Hp].
Qed.

Definition handler_safe (o : result_t (W := W) (D := D)) : Prop :=
  exists st' rep, o = Ret (st', Some rep) /\ rs_ok st'.

Lemma close_safe st stk pkt :
  rs_ok st -> stack_ok stk -> request_arrives 4 QMI_RMTFS_CLOSE rmtfs_close_req_ei pkt -> handler_safe (rmtfs_close st stk pkt).
Proof.
  intros Hok [Hj _] [(rc & req & txn & Hd & Lr & Br) Hc]. unfold rmtfs_close, close_dbgprintf.
  change (Z.to_nat 4) with 4%nat in Hd. rewrite Hd. cbn [mbind outcome_bind].
  rewrite (rk_dbg _ Hok). cbn [mbind outcome_bind rs_dbg].
  destruct (rc <? 0); [rewrite respond_result by done; by eexists _, _|].
  destruct (field_in req 0 4) as [caller Hf]; [lia..|]. rewrite Hf. cbn [mbind outcome_bind].
  pose proof (Hc _ _ _ _ Hd Hf). pose proof (field_range _ _ _ _ Br Hf). rewrite s32_small by lia.
  pose proof Hok as [Hs Hro Hm Hdbg].
  destruct (storage_get_spec (rs_storage st) (pk_from pkt) caller Hs) as (h & -> & Hh); [lia|].
  cbn [mbind outcome_bind]. destruct h as [i|]; [|rewrite respond_result by done; by eexists _, _].
  destruct Hh as (_ & Hi & _).
  destruct (storage_close_spec (rs_storage st) i Hs Hi) as (s' & r & -> & Hs' & Hro' & _).
  cbn [mbind outcome_bind]. rewrite respond_result by done. eexists _, _. split; [done|].
  split; [done|by rewrite <- Hro|done|done].
Qed.

Lemma alloc_buf_safe st stk pkt :
  rs_ok st -> stack_ok stk -> decodes_into 8 QMI_RMTFS_ALLOC_BUFF rmtfs_alloc_buf_req_ei pkt -> handler_safe (rmtfs_alloc_buf st stk pkt).
Proof.
  intros Hok [Hj _] (rc & req & txn & Hd & Lr & Br). unfold rmtfs_alloc_buf.
  change (Z.to_nat 8) with 8%nat in Hd. rewrite Hd. cbn [mbind outcome_bind].
  destruct (rc <? 0); [rewrite respond_alloc_buf by done; by eexists _, _|].
  destruct (field_in req 4 4) as [size Hf]; [lia..|]. rewrite Hf. cbn [mbind outcome_bind].
  destruct (_ <? 0); rewrite respond_alloc_buf by done; by eexists _, _.
Qed.

Lemma iovec_safe st stk pkt :
  rs_ok st -> stack_ok stk -> pkt_ok pkt -> request_arrives 3080 QMI_RMTFS_RW_IOVEC rmtfs_iovec_req_ei pkt -> handler_safe (rmtfs_iovec st stk pkt).
Proof.
  intros Hok [Hj Hsec] Hp [(rc & req & txn & Hd & Lr & Br) Hc]. unfold rmtfs_iovec.
  change (Z.to_nat 3080) with 3080%nat in Hd. rewrite Hd. cbn [mbind outcome_bind].
  destruct (rc <? 0); [rewrite respond_result by done; by eexists _, _|].
  destruct (field_in req 0 4) as [caller Hf]; [lia..|]. rewrite Hf. cbn [mbind outcome_bind].
  destruct (field_in req 4 1) as [dir ->]; [lia..|]. cbn [mbind outcome_bind].
  assert (count_ok req) as (_ & n & Hn & Hn256).
  { revert Hd. apply decode_message_keeps; [apply po_bytes, Hp|].
    split; [apply zeros_bytes|]. by exists 0. }
  rewrite Hn. cbn [mbind outcome_bind].
  pose proof (Hc _ _ _ _ Hd Hf). pose proof (field_range _ _ _ _ Br Hf). rewrite s32_small by lia.
  pose proof Hok as [Hs Hro Hm Hdbg].
  destruct (storage_get_spec (rs_storage st) (pk_from pkt) caller Hs) as (h & -> & Hh); [lia|].
  cbn [mbind outcome_bind]. destruct h as [i|]; [|rewrite respond_result by done; by eexists _, _].
  destruct Hh as (_ & Hi & _).
  destruct (entries_safe (Z.to_nat n) st (negb (dir =? 0)) i (take 512 (stk_sector stk)) req 0)
    as (st' & b & -> & Hok'); try done; [rewrite length_take; unfold SECTOR_SIZE; lia|lia|].
  cbn [mbind outcome_bind]. rewrite respond_result by done. by eexists _, _.
Qed.

(** The path of an open request is none of exactly 256 bytes. *)
Definition path_ok (pkt : packet) : Prop := names_fit (Z.to_nat (pk_len pkt - 7)) (pk_data pkt) 7 (pk_len pkt - 7) = true.

(** The path arrives as a string. *)
Definition path_arrives (pkt : packet) : Prop :=
  exists rc req txn path,
    qmi_decode_message (replicate 260 0) (pk_data pkt) (pk_len pkt) QMI_REQUEST QMI_RMTFS_OPEN (Some rmtfs_open_req_ei) = Ret (rc, req, txn)
    /\ cstr req 4 = Ret path.

Lemma open_arrives pkt : pkt_ok pkt -> well_formed QMI_RMTFS_OPEN pkt -> path_arrives pkt.
Proof.
  intros Hp (txn & r & junk & Ht & Hf & Hid & Hdata & Hlen). pose proof (well_formed_decodes _ _ _ _ Ht Hf Hp Hdata Hlen) as Hd.
  destruct r as [path|caller|caller w es force|caller size]; try done. destruct (name_struct_string 260 path Hf) as [Hl Hld]; [done|].
  eexists _, _, _, path. split; [exact Hd|]. unfold cstr. cbn [req_struct]. rewrite Hl. exact Hld.
Qed.

Lemma open_decodes_path pkt :
  pkt_ok pkt -> room rmtfs_open_req_ei pkt -> path_ok pkt ->
  path_arrives pkt.
Proof.
  intros [Hb H7 Hmax] Hroom Hp. unfold room in Hroom. unfold path_arrives. change (wires rmtfs_open_req_ei) with 258 in Hroom. unfold qmi_decode_message.
  
  assert (path_struct (replicate 260 0)) as Hz by (by split). destruct (path_struct_cstr _ Hz) as [p0 Hp0]. destruct (Z.eqb_spec (pk_len pkt) 0); [lia|].
  unfold sizeof_qmi_header. rewrite load_ret by lia. cbn [mbind outcome_bind].
  destruct (negb _); [by eexists _, _, _, p0|]. destruct (negb _); [by eexists _, _, _, p0|]. rewrite u32_small by lia. unfold qmi_decode.
  destruct (open_loop (pk_data pkt) (pk_len pkt - 7) (qmi_fuel (Some rmtfs_open_req_ei) (pk_len pkt - 7)) (Z.to_nat (pk_len pkt - 7))
    (replicate 260 0) (MkDec rmtfs_open_req_ei 0 7 0)) as (c' & rc & -> & Hc'); cbn [d_src d_bytes d_data_len]; rewrite ?Z.sub_0_r; try done; try lia.
  - change (wires rmtfs_open_req_ei) with 258. lia.
  - unfold qmi_fuel. lia.
  - cbn [mbind outcome_bind]. destruct (path_struct_cstr _ Hc') as [p1 Hp1]. by eexists _, _, _, p1.
Qed.

Lemma open_safe st stk pkt :
  rs_ok st -> stack_ok stk -> path_arrives pkt -> handler_safe (rmtfs_open st stk pkt).
Proof.
  intros Hok [Hj _] (rc & req & txn & path & Hd & Hpath).
  unfold rmtfs_open. rewrite Hd, (rk_dbg _ Hok). cbn [mbind outcome_bind]. destruct (rc <? 0); [rewrite respond_open by done; by eexists _, _|].
  rewrite Hpath. cbn [mbind outcome_bind]. destruct Hok as [Hs Hro Hm Hdbg].
  destruct (storage_open_spec (rs_storage st) (pk_from pkt) path Hs) as (Hs' & Hro' & _ & Ho).
  destruct (storage_open (rs_storage st) (pk_from pkt) path) as [h s']. cbn [fst snd] in *.
  destruct h as [i|]; [|rewrite respond_open by done; eexists _, _; split; [reflexivity|split; [done|simpl; congruence|done|done]]].
  destruct Ho as (part & r & _ & Hr & _). unfold storage_get_caller_id. rewrite Hr. cbn [mbind outcome_bind].
  rewrite respond_open by done. eexists _, _; split; [reflexivity|split; [done|simpl; congruence|done|done]].
Qed.

End safety.
