(* ===== verification/RmtfsClaims.v ===== *)
(** * What the remote filesystem service guarantees, and where it does not *)

From Stdlib Require Import ZArith Lia.
From stdpp Require Import base list numbers strings.
From S2P Require Import Prelude Packet QmiCodec QmiMessages QmiDecode QmiEncode QmiTurns.
From S2P Require Import Storage StorageProofs SharedMem Rmtfs RmtfsProofs RmtfsWire RmtfsSafety.

(** ** Safety *)

(** What a request that is not of the shape the modem sends must not do: name a
    path or a caller that the checks of the source let through by mistake, ask for a
    device error, or leave less room in the receive buffer than the decoder may
    read behind the message. *)
Definition avoids_defects (pkt : packet) (id : Z) : Prop :=
  (id = QMI_RMTFS_OPEN -> room rmtfs_open_req_ei pkt /\ path_ok pkt)
  /\ (id = QMI_RMTFS_CLOSE -> room rmtfs_close_req_ei pkt /\ caller_ok 4 QMI_RMTFS_CLOSE rmtfs_close_req_ei pkt)
  /\ (id = QMI_RMTFS_RW_IOVEC -> room rmtfs_iovec_req_ei pkt /\ caller_ok 3080 QMI_RMTFS_RW_IOVEC rmtfs_iovec_req_ei pkt)
  /\ (id = QMI_RMTFS_ALLOC_BUFF -> room rmtfs_alloc_buf_req_ei pkt)
  /\ id <> QMI_RMTFS_GET_DEV_ERROR.

Definition request_ok (pkt : packet) (id : Z) : Prop := well_formed id pkt \/ avoids_defects pkt id.

(** What the handlers need. *)
Lemma request_ok_arrives pkt id :
  pkt_ok pkt -> request_ok pkt id ->
  (id = QMI_RMTFS_OPEN -> path_arrives pkt)
  /\ (id = QMI_RMTFS_CLOSE -> request_arrives 4 QMI_RMTFS_CLOSE rmtfs_close_req_ei pkt)
  /\ (id = QMI_RMTFS_RW_IOVEC -> request_arrives 3080 QMI_RMTFS_RW_IOVEC rmtfs_iovec_req_ei pkt)
  /\ (id = QMI_RMTFS_ALLOC_BUFF -> decodes_into 8 QMI_RMTFS_ALLOC_BUFF rmtfs_alloc_buf_req_ei pkt)
  /\ id <> QMI_RMTFS_GET_DEV_ERROR.
Proof.
  intros Hp [Hw|(Ho & Hc & Hi & Ha & Hd)].
  - split_and!; [intros ->; by apply open_arrives|intros ->; by apply close_arrives|intros ->; by apply transfer_arrives|intros ->; by apply alloc_arrives|].
    destruct Hw as (txn & r & junk & _ & _ & <- & _). by destruct r.
  - split_and!; [| | | |done].
    + intros E. destruct (Ho E). by apply open_decodes_path.
    + intros E. destruct (Hc E). split; [by apply request_decodes; try by split|done].
    + intros E. destruct (Hi E). split; [by apply request_decodes; try by split|done].
    + intros E. apply request_decodes; [done|by apply Ha|done|by split].
Qed.

Lemma header_long buf ret id :
  Forall is_byte buf -> 7 <= Z.of_nat (length buf) -> 0 <= ret < 2147483648 ->
  qmi_decode_header buf ret = Ret (0, Some id) -> 7 <= ret.
Proof.
  intros Hb Hl Hr. unfold qmi_decode_header, sizeof_qmi_header. rewrite load_ret by lia.
  cbn [mbind outcome_bind]. destruct (Z.leb_spec 7 ret); [done|].
  set (bs := take (Z.to_nat 7) _).
  assert (Forall is_byte bs) as Hbs by (by apply Forall_take, Forall_drop).
  assert (h_msg_len (qmi_header_of bs) < 65536) as Hlt.
  { unfold qmi_header_of. cbn [h_msg_len].
    assert (Forall is_byte (take 2 (drop 5 bs))) as Hw by (by apply Forall_take, Forall_drop).
    apply le_val_range in Hw. rewrite length_take in Hw. destruct Hw as [_ Hw]. eapply Z.lt_le_trans; [exact Hw|].
    change 65536 with (2 ^ 16). apply Z.pow_le_mono_r; lia. }
  assert (u64 (ret - 7) = ret - 7 + 18446744073709551616) as ->
    by (unfold u64; rewrite <- (Z_mod_plus_full _ 1); apply Z.mod_small; lia).
  destruct (Z.eqb_spec (h_msg_len (qmi_header_of bs)) (ret - 7 + 18446744073709551616)); [lia|done].
Qed.

Section safe.
Context {W D : Type} `{FilesOk W} `{MemDevOk D}.

Lemma header_returns buf ret :
  7 <= Z.of_nat (length buf) ->
  exists rc mid, qmi_decode_header buf ret = Ret (rc, mid)
    /\ match mid with Some _ => rc = 0 | None => rc = - EINVAL end.
Proof.
  intros Hl. unfold qmi_decode_header, sizeof_qmi_header. rewrite load_ret by lia.
  cbn [mbind outcome_bind]. destruct (negb _); by eexists _, _.
Qed.

Lemma run_safe (o : result_t (W := W) (D := D)) :
  handler_safe o ->
  exists st' rep rc, ('(st', rep) ← o; Ret (st', rep, 0)) = Ret (st', rep, rc) /\ rs_ok st' /\ rep <> None.
Proof. intros (st' & rep & -> & Hok'). by eexists _, _, _. Qed.

(** [handle_rmtfs] on a request that avoids the defects. *)
Lemma handle_rmtfs_returns (st : rmtfs_state W D) stk ret errno buf sq :
  rs_ok st -> stack_ok stk -> Forall is_byte buf -> length buf = 4096%nat -> ret <= 4096 ->
  (forall node port id, qmi_decode_header buf ret = Ret (0, Some id) ->
     request_ok (MkPacket node port buf ret) id) ->
  exists st' rep rc, handle_rmtfs st stk ret errno buf sq = Ret (st', rep, rc) /\ rs_ok st'
    /\ (forall id, 0 <= ret -> sq_port sq <> QRTR_PORT_CTRL ->
          qmi_decode_header buf ret = Ret (0, Some id) -> 1 <= id <= 4 -> rep <> None).
Proof.
  intros Hok Hstk Hb Hl Hmax Hreq. unfold handle_rmtfs.
  destruct (Z.ltb_spec ret 0); [by eexists _, _, _; split_and!; [done|done|lia]|].
  destruct (qrtr_decode _ buf ret sq) as [rc q] eqn:Eq.
  assert (sq_port sq <> QRTR_PORT_CTRL -> rc = 0 /\ p_type q = QRTR_TYPE_DATA) as Hdata.
  { intros Hp. unfold qrtr_decode in Eq. destruct (Z.eqb_spec (sq_port sq) QRTR_PORT_CTRL); [done|].
    by injection Eq as <- <-. }
  destruct (Z.ltb_spec rc 0); [eexists _, _, _; split_and!; [done|done|intros id _ Hp; destruct (Hdata Hp); lia]|].
  destruct (Z.eqb_spec (p_type q) QRTR_TYPE_BYE) as [E|_];
    [eexists _, _, _; split_and!; [done|done|intros id _ Hp; destruct (Hdata Hp) as [_ E']; by rewrite E in E']|].
  destruct (Z.eqb_spec (p_type q) QRTR_TYPE_DEL_CLIENT) as [E|_];
    [eexists _, _, _; split_and!; [done|done|intros id _ Hp; destruct (Hdata Hp) as [_ E']; by rewrite E in E']|].
  destruct (Z.eqb_spec (p_type q) QRTR_TYPE_DATA) as [E|E];
    [|eexists _, _, _; split_and!; [done|done|intros id _ Hp; by destruct (Hdata Hp)]].
  destruct (header_returns buf ret) as (rc1 & mid & Eh & Hrc); [lia|]. rewrite Eh in *. cbn [mbind outcome_bind].
  destruct mid as [id|]; [subst rc1|subst rc1; by eexists _, _, _].
  change (0 <? 0) with false. cbv iota.
  assert (pkt_ok (MkPacket (p_node q) (p_port q) buf ret)) as Hpkt.
  { apply header_long in Eh; [|done|lia|lia]. split; simpl; [done|lia|lia]. }
  destruct (request_ok_arrives _ _ Hpkt (Hreq (p_node q) (p_port q) id eq_refl)) as (Ho & Hc & Hi & Ha & Hd).
  assert (forall o : result_t (W := W) (D := D), handler_safe o -> exists st' rep rc, ('(st', rep) ← o; Ret (st', rep, 0)) = Ret (st', rep, rc)
    /\ rs_ok st' /\ (forall id0, 0 <= ret -> sq_port sq <> QRTR_PORT_CTRL ->
          @Ret (Z * option Z) (0, Some id) = Ret (0, Some id0) -> 1 <= id0 <= 4 -> rep <> None)) as Hrun.
  { intros o Hs. destruct (run_safe o Hs) as (st' & rep & rc' & Heq & Hok' & Hrep).
    exists st', rep, rc'. split_and!; [exact Heq|done|done]. }
  destruct (Z.eqb_spec id QMI_RMTFS_OPEN); [by apply Hrun, open_safe; auto|].
  destruct (Z.eqb_spec id QMI_RMTFS_CLOSE); [by apply Hrun, close_safe; auto|].
  destruct (Z.eqb_spec id QMI_RMTFS_RW_IOVEC); [by apply Hrun, iovec_safe; auto|].
  destruct (Z.eqb_spec id QMI_RMTFS_ALLOC_BUFF); [by apply Hrun, alloc_buf_safe; auto|].
  destruct (Z.eqb_spec id QMI_RMTFS_GET_DEV_ERROR); [done|].
  eexists _, _, _. split_and!; [done|done|]. intros id0 _ _ [= <-] Hid.
  unfold QMI_RMTFS_OPEN, QMI_RMTFS_CLOSE, QMI_RMTFS_RW_IOVEC, QMI_RMTFS_ALLOC_BUFF in *. lia.
Qed.

(** C4: Safety of the service.  With the storage in its normal mode, the memory
    mapped or reached through its device, and without -v, [handle_rmtfs] returns and keeps
    the handle table and the memory consistent, for packets of any sender: for every
    open, close, transfer and allocation request of the shape the modem sends (names of up to 255 bytes,
    callers below 2^31, up to 255 entries of any sectors and addresses), and for every packet of any other contents
    but the listed defects: a name of exactly 256 bytes, a caller id of 2^31 or more, a
    device-error request, or so long a message that the decoder may read behind the
    receive buffer.  Every open, close, transfer and allocation request among them that
    does not come from the control port is answered. *)
Theorem handle_rmtfs_safe (st : rmtfs_state W D) stk ret errno buf sq :
  rs_ok st -> stack_ok stk -> Forall is_byte buf -> length buf = 4096%nat -> ret <= 4096 ->
  (forall node port id, qmi_decode_header buf ret = Ret (0, Some id) ->
     request_ok (MkPacket node port buf ret) id) ->
  exists st' rep rc, handle_rmtfs st stk ret errno buf sq = Ret (st', rep, rc) /\ rs_ok st'
    /\ (forall id, 0 <= ret -> sq_port sq <> QRTR_PORT_CTRL ->
          qmi_decode_header buf ret = Ret (0, Some id) -> 1 <= id <= 4 -> rep <> None).
Proof. apply handle_rmtfs_returns. Qed.

End safe.

(** ** Sector transfers *)

Section transfer_claims.
Context {W D : Type} `{SectorStore W view} `{MemDevOk D}.
Implicit Type st : rmtfs_state W D.

(** A transfer request as its handler sees it: how it decodes, and the handle it
    names. *)
Definition iovec_request st (pkt : packet) (req : list Z) (txn dir n : Z) (i : nat) : Prop :=
  exists rc caller,
    qmi_decode_message (replicate 3080 0) (pk_data pkt) (pk_len pkt) QMI_REQUEST QMI_RMTFS_RW_IOVEC
      (Some rmtfs_iovec_req_ei) = Ret (rc, req, Some txn)
    /\ 0 <= rc /\ field req 0 4 = Ret caller /\ field req 4 1 = Ret dir /\ field req 8 8 = Ret n
    /\ storage_get (rs_storage st) (pk_from pkt) (s32 caller) = Ret (Some i).

(** C5: Sector transfers.  For any implementation of the interface a storage
    handle promises, with the memory mapped or behind its device, a transfer request whose entries all lie inside the
    partition and the shared memory is answered with success, and the contents
    of the partition and the memory afterwards are exactly those of the
    reference [transfers]: entry by entry, whole blocks copied in the direction
    of the request and nothing else changed. *)
Theorem rmtfs_iovec_transfers st stk pkt req txn dir n i addr m mem m' mem' :
  iovec_request st pkt req txn dir n i -> stack_ok stk ->
  xfer_state (view := view) st i addr m mem ->
  transfers (negb (dir =? 0)) addr req 0 (Z.to_nat n) m mem = Ret (m', mem') ->
  exists st', rmtfs_iovec st stk pkt
      = Ret (st', Some (message_bytes QMI_RESPONSE QMI_RMTFS_RW_IOVEC txn (result_tlv result_ok)))
    /\ xfer_state (view := view) st' i addr m' mem'.
Proof.
  intros (rc & caller & Hd & Hrc & Hcal & Hdir & Hn & Hget) [Hj Hsec] Hx Ht. unfold rmtfs_iovec.
  rewrite Hd. cbn [mbind outcome_bind]. destruct (Z.ltb_spec rc 0); [lia|].
  rewrite Hcal, Hdir, Hn. cbn [mbind outcome_bind]. rewrite Hget. cbn [mbind outcome_bind].
  destruct (entries_transfer (view := view) (Z.to_nat n) st (negb (dir =? 0)) i addr m mem
    (take 512 (stk_sector stk)) req 0 m' mem') as (st' & -> & Hx'); try done.
  { rewrite length_take. unfold SECTOR_SIZE. lia. }
  cbn [mbind outcome_bind txn_or]. rewrite respond_result by done. by exists st'.
Qed.

(** C24: What the modem writes it reads back.  Sectors inside the partition, written from
    the memory at [phys] through an open handle and read through it to [phys2] with
    anything done to the memory but nothing to the storage in between, arrive as they
    were, where both places are inside the region. *)
Theorem iovec_write_read_back st i addr m mem buf phys sect n :
  xfer_state (view := view) st i addr m mem -> Z.of_nat (length buf) = SECTOR_SIZE ->
  0 <= sect -> sect + SECTOR_SIZE * Z.of_nat n <= Z.of_nat (length m) ->
  addr <= phys -> phys - addr + SECTOR_SIZE * Z.of_nat n <= Z.of_nat (length mem) ->
  exists st1 buf1, iovec_sectors st true i buf phys sect 0 n = Ret (st1, buf1, true)
    /\ (forall rmem mem2 phys2, mem_ok rmem mem2 -> rm_address rmem = addr -> addr <= phys2 ->
          phys2 - addr + SECTOR_SIZE * Z.of_nat n <= Z.of_nat (length mem2) ->
          exists st2 buf2 mem3,
            iovec_sectors (MkRs (rs_storage st1) rmem (rs_dbg st1)) false i buf1 phys2 sect 0 n = Ret (st2, buf2, true)
            /\ mem_ok (rs_mem st2) mem3
            /\ load mem3 (phys2 - addr) (SECTOR_SIZE * Z.of_nat n)
               = load mem (phys - addr) (SECTOR_SIZE * Z.of_nat n)).
Proof.
  intros Hx Hb Hs0 Hs Hp0 Hp. assert (SECTOR_SIZE = 512) as H512 by done.
  destruct (sectors_transfer (view := view) n st true i addr m mem buf phys sect 0)
    as (st1 & buf1 & m1 & mem1 & Heq & Ht & Hx1 & Hb1 & L1 & _); try done; try lia.
  exists st1, buf1. split; [done|]. intros rmem mem2 phys2 Hm2 Ha2 Hp2 Hf2.
  destruct (sectors_transfer (view := view) n (MkRs (rs_storage st1) rmem (rs_dbg st1)) false i addr m1 mem2 buf1 phys2 sect 0)
    as (st2 & buf2 & m2 & mem3 & Heq2 & Ht2 & Hx2 & _ & _ & _); try done; try lia.
  { split; [apply Hx1|done|done]. }
  exists st2, buf2, mem3. split; [done|]. split; [apply Hx2|].
  rewrite !Z.add_0_r in *. unfold transfer in Ht, Ht2.
  destruct (load mem (phys - addr) (SECTOR_SIZE * Z.of_nat n)) as [bs| |] eqn:El; try done.
  cbn [mbind outcome_bind] in Ht. destruct (store m sect bs) as [m1'| |] eqn:Es; try done.
  injection Ht as <- <-. pose proof (length_load _ _ _ _ El) as Lb.
  pose proof (load_store_same _ _ _ _ Es) as Hld. rewrite Lb in Hld. rewrite Hld in Ht2.
  cbn [mbind outcome_bind] in Ht2. destruct (store mem2 (phys2 - addr) bs) as [mem3'| |] eqn:Es2; try done.
  injection Ht2 as <- <-. rewrite <- Lb. by eapply load_store_same.
Qed.

End transfer_claims.

(** ** The shared memory *)

(** C26: The shared memory is a bounded window.  Where it is mapped, an access
    that is not wholly inside the region is refused and changes nothing (through the
    device nothing is checked); one that is
    inside succeeds, mapped or through the device, a write is read back exactly,
    and no byte of the region outside it changes. *)
Theorem shared_memory_window {D} `{MemDevOk D} (rmem : rmtfs_mem D) base phys bs buf :
  mem_ok rmem base -> 0 <= phys -> length buf = length bs ->
  phys + Z.of_nat (length bs) < 18446744073709551616 ->
  (is_Some (rm_base rmem) -> ~ in_region rmem phys (Z.of_nat (length bs)) ->
     rmtfs_mem_write rmem phys bs (Z.of_nat (length bs)) = Ret (rmem, - EINVAL)
     /\ rmtfs_mem_read rmem phys buf (Z.of_nat (length bs)) = Ret (buf, - EINVAL))
  /\ (in_region rmem phys (Z.of_nat (length bs)) ->
      exists rmem' base', rmtfs_mem_write rmem phys bs (Z.of_nat (length bs))
          = Ret (rmem', Z.of_nat (length bs))
        /\ mem_ok rmem' base' /\ rm_address rmem' = rm_address rmem
        /\ rmtfs_mem_read rmem' phys buf (Z.of_nat (length bs)) = Ret (bs, Z.of_nat (length bs))
        /\ (forall k : nat, ~ (phys <= rm_address rmem + Z.of_nat k < phys + Z.of_nat (length bs)) ->
              base' !! k = base !! k)).
Proof.
  intros Hok Hp Hl Hw. split.
  - intros Hm Hout. destruct (rmtfs_mem_outside rmem base phys bs (Z.of_nat (length bs)) Hok Hm Hout) as [_ ?]; try lia.
    by destruct (rmtfs_mem_outside rmem base phys buf (Z.of_nat (length bs)) Hok Hm Hout) as [? _]; try lia.
  - intros Hin. destruct (rmtfs_mem_write_spec rmem base phys bs Hok Hin Hp) as (rmem' & base' & Hst & Hwr & (Ha & Hsz & _) & Hok').
    exists rmem', base'. split; [done|]. split; [done|]. split; [done|]. split.
    + destruct (rmtfs_mem_read_spec rmem' base' phys buf Hok') as (b & Hld & Hrd); [|done|].
      { unfold in_region. by rewrite Ha, Hsz, Hl. }
      rewrite Hl, Ha in Hld. rewrite (load_store_same _ _ _ _ Hst) in Hld. injection Hld as <-. by rewrite <- Hl.
    + intros k Hk. eapply store_lookup_other; [exact Hst|]. lia.
Qed.

(** ** Responses *)

(** How the responses decode, byte by byte. *)
Lemma result_decodes x y id r0 r1 e0 e1 :
  id = QMI_RMTFS_CLOSE \/ id = QMI_RMTFS_RW_IOVEC ->
  qmi_decode_message (replicate 4 0) [2; x; y; id; 0; 7; 0; 2; 4; 0; r0; r1; e0; e1] 14 QMI_RESPONSE
    id (Some rmtfs_close_resp_ei)
  = Ret (7, [r0; r1; e0; e1], Some (le_val [x; y])).
Proof. by intros [-> | ->]. Qed.

Lemma open_decodes x y r0 r1 e0 e1 i0 i1 i2 i3 :
  qmi_decode_message (replicate 12 0)
    [2; x; y; 1; 0; 14; 0; 2; 4; 0; r0; r1; e0; e1; 16; 4; 0; i0; i1; i2; i3] 21 QMI_RESPONSE
    QMI_RMTFS_OPEN (Some rmtfs_open_resp_ei)
  = Ret (14, [r0; r1; e0; e1; 1; 0; 0; 0; i0; i1; i2; i3], Some (le_val [x; y]))
  /\ qmi_decode_message (replicate 12 0) [2; x; y; 1; 0; 7; 0; 2; 4; 0; r0; r1; e0; e1] 14 QMI_RESPONSE
    QMI_RMTFS_OPEN (Some rmtfs_open_resp_ei)
  = Ret (7, [r0; r1; e0; e1; 0; 0; 0; 0; 0; 0; 0; 0], Some (le_val [x; y])).
Proof. split; reflexivity. Qed.

Lemma alloc_decodes x y r0 r1 e0 e1 a0 a1 a2 a3 a4 a5 a6 a7 :
  qmi_decode_message (replicate 16 0)
    [2; x; y; 4; 0; 18; 0; 2; 4; 0; r0; r1; e0; e1; 16; 8; 0; a0; a1; a2; a3; a4; a5; a6; a7] 25
    QMI_RESPONSE QMI_RMTFS_ALLOC_BUFF (Some rmtfs_alloc_buf_resp_ei)
  = Ret (18, [r0; r1; e0; e1; 1; 0; 0; 0; a0; a1; a2; a3; a4; a5; a6; a7], Some (le_val [x; y]))
  /\ qmi_decode_message (replicate 16 0) [2; x; y; 4; 0; 7; 0; 2; 4; 0; r0; r1; e0; e1] 14 QMI_RESPONSE
    QMI_RMTFS_ALLOC_BUFF (Some rmtfs_alloc_buf_resp_ei)
  = Ret (7, [r0; r1; e0; e1; 0; 0; 0; 0; 0; 0; 0; 0; 0; 0; 0; 0], Some (le_val [x; y])).
Proof. split; reflexivity. Qed.

(** What a client that receives [rep] reads from it. *)
Definition client_decode (rep : reply) (size id : Z) (ei : list qmi_elem_info)
    : outcome (Z * list Z * option Z) :=
  match rep with
  | None => Fault
  | Some msg => qmi_decode_message (replicate (Z.to_nat size) 0) msg (Z.of_nat (length msg)) QMI_RESPONSE id (Some ei)
  end.

(** C25: Responses arrive as they were meant.  Whatever the result, handle or
    address, and whatever the stack held before, what the service sends decodes
    at the other end, with the same descriptor, to the structure it was encoded
    from and the transaction of the request. *)
Theorem responses_roundtrip junk txn r valid value :
  (256 <= length junk)%nat -> 0 <= txn < 65536 -> (valid = false -> value = 0) ->
  (exists rep, respond junk QMI_RMTFS_CLOSE txn (result_bytes r) rmtfs_close_resp_ei = Ret rep
     /\ client_decode rep 4 QMI_RMTFS_CLOSE rmtfs_close_resp_ei = Ret (7, result_bytes r, Some txn))
  /\ (exists rep, respond junk QMI_RMTFS_RW_IOVEC txn (result_bytes r) rmtfs_iovec_resp_ei = Ret rep
     /\ client_decode rep 4 QMI_RMTFS_RW_IOVEC rmtfs_iovec_resp_ei = Ret (7, result_bytes r, Some txn))
  /\ (exists rep, respond junk QMI_RMTFS_OPEN txn (open_resp_bytes r valid value) rmtfs_open_resp_ei = Ret rep
     /\ client_decode rep 12 QMI_RMTFS_OPEN rmtfs_open_resp_ei
        = Ret (if valid then 14 else 7, open_resp_bytes r valid value, Some txn))
  /\ (exists rep, respond junk QMI_RMTFS_ALLOC_BUFF txn (alloc_buf_resp_bytes r valid value) rmtfs_alloc_buf_resp_ei = Ret rep
     /\ client_decode rep 16 QMI_RMTFS_ALLOC_BUFF rmtfs_alloc_buf_resp_ei
        = Ret (if valid then 18 else 7, alloc_buf_resp_bytes r valid value, Some txn)).
Proof.
  intros Hj Ht Hv.
  assert (Some txn = Some (le_val (le_bytes 2 (u16 txn)))) as ->
    by (rewrite u16_small, le_val_bytes_small by (change (2 ^ (8 * Z.of_nat 2)) with 65536; lia); done).
  split_and!.
  - rewrite respond_result by done. eexists. split; [reflexivity|]. apply result_decodes. by left.
  - rewrite respond_result by done. eexists. split; [reflexivity|]. apply result_decodes. by right.
  - rewrite respond_open by done. eexists. split; [reflexivity|].
    pose proof (open_decodes (u16 txn mod 256) (u16 txn / 256 mod 256) (r_result r mod 256)
      (r_result r / 256 mod 256) (r_error r mod 256) (r_error r / 256 mod 256) (value mod 256)
      (value / 256 mod 256) (value / 256 / 256 mod 256) (value / 256 / 256 / 256 mod 256)) as [H1 H2].
    destruct valid; [exact H1|rewrite Hv by done; exact H2].
  - rewrite respond_alloc_buf by done. eexists. split; [reflexivity|].
    pose proof (alloc_decodes (u16 txn mod 256) (u16 txn / 256 mod 256) (r_result r mod 256)
      (r_result r / 256 mod 256) (r_error r mod 256) (r_error r / 256 mod 256) (value mod 256)
      (value / 256 mod 256) (value / 256 / 256 mod 256) (value / 256 / 256 / 256 mod 256)
      (value / 256 / 256 / 256 / 256 mod 256) (value / 256 / 256 / 256 / 256 / 256 mod 256)
      (value / 256 / 256 / 256 / 256 / 256 / 256 mod 256)
      (value / 256 / 256 / 256 / 256 / 256 / 256 / 256 mod 256)) as [H1 H2].
    destruct valid; [exact H1|rewrite Hv by done; exact H2].
Qed.

Lemma responses_roundtrip_witness :
  exists rep, respond (replicate 256 170) QMI_RMTFS_OPEN 7 (open_resp_bytes result_ok true 3) rmtfs_open_resp_ei = Ret rep
    /\ client_decode rep 12 QMI_RMTFS_OPEN rmtfs_open_resp_ei = Ret (14, open_resp_bytes result_ok true 3, Some 7).
Proof.
  refine (proj1 (proj2 (proj2 (responses_roundtrip (replicate 256 170) 7 result_ok true 3 _ _ _)))).
  - simpl. lia.
  - lia.
  - discriminate.
Defined.

(** ** Where the source is wrong *)

Section defects.
Context {W D : Type} `{FilesOk W} `{MemDevOk D}.
Implicit Type st : rmtfs_state W D.

(** [rmtfs_get_dev_error] has its test the wrong way round: a caller that
    has a handle is answered with an error, and for one that has none the
    service dereferences NULL. *)
Theorem get_dev_error_inverted st stk pkt rc req txn caller :
  qmi_decode_message (replicate 4 0) (pk_data pkt) (pk_len pkt) QMI_REQUEST QMI_RMTFS_GET_DEV_ERROR
    (Some rmtfs_dev_error_req_ei) = Ret (rc, req, Some txn) ->
  0 <= rc -> field req 0 4 = Ret caller -> (256 <= length (stk_resp stk))%nat ->
  (forall i, storage_get (rs_storage st) (pk_from pkt) (s32 caller) = Ret (Some i) ->
     rmtfs_get_dev_error st stk pkt
     = Ret (st, Some (message_bytes QMI_RESPONSE QMI_RMTFS_GET_DEV_ERROR txn
              (result_tlv (MkResult QMI_RMTFS_RESULT_FAILURE QMI_RMTFS_ERR_INTERNAL)))))
  /\ (storage_get (rs_storage st) (pk_from pkt) (s32 caller) = Ret None ->
      rmtfs_get_dev_error st stk pkt = Fault).
Proof.
  intros Hd Hrc Hf Hj. unfold rmtfs_get_dev_error. rewrite Hd. cbn [mbind outcome_bind].
  destruct (Z.ltb_spec rc 0); [lia|]. rewrite Hf. cbn [mbind outcome_bind]. split.
  - intros i Hi. rewrite Hi. cbn [mbind outcome_bind txn_or]. rewrite respond_dev_error by done. done.
  - intros Hi. rewrite Hi. done.
Qed.

(** With -v every close request, also one that does not decode, reaches the
    message with the wrong conversions. *)
Theorem close_crashes_when_verbose st stk pkt :
  rs_dbg st = true -> rs_ok (MkRs (rs_storage st) (rs_mem st) false) -> pkt_ok pkt -> request_ok pkt QMI_RMTFS_CLOSE -> rmtfs_close st stk pkt = Fault.
Proof.
  intros Hv [Hs _ _ _] Hp Hr. destruct (request_ok_arrives _ _ Hp Hr) as (_ & Hc & _). destruct (Hc eq_refl) as [(rc & req & txn & Hd & Lr & Br) Hcal].
  unfold rmtfs_close, close_dbgprintf. change (Z.to_nat 4) with 4%nat in Hd. rewrite Hd, Hv. cbn [mbind outcome_bind rs_dbg]. destruct (rc <? 0); [done|].
  destruct (field_in req 0 4) as [caller Hf]; [lia..|]. rewrite Hf. cbn [mbind outcome_bind].
  pose proof (Hcal _ _ _ _ Hd Hf). pose proof (field_range _ _ _ _ Br Hf). rewrite s32_small by lia.
  destruct (storage_get_spec (rs_storage st) (pk_from pkt) caller Hs) as (h & -> & Hh); [lia|]. cbn [mbind outcome_bind]. destruct h as [i|]; [|done].
  destruct Hh as (_ & Hi & _). by destruct (storage_close_spec (rs_storage st) i Hs Hi) as (s' & r & -> & _).
Qed.

End defects.

(** ** A concrete device *)

(** One file, read and written whole; descriptor 3. *)
#[global] Instance disk_files : Files (list Z) :=
  MkFiles (list Z) (fun w _ => (3, w)) (fun w _ => MkSlurp (-1) 0 false 0 [])
    (fun w _ n off => match load w off n with Ret bs => (n, bs) | _ => (-1, []) end)
    (fun w _ bs off => match store w off bs with Ret w' => (Z.of_nat (length bs), w') | _ => (-1, w) end)
    (fun w _ => w) (fun _ _ => None).

#[global] Instance disk_files_ok : FilesOk (list Z).
Proof.
  constructor; cbn [f_open f_slurp f_pread f_close f_realloc disk_files]; simpl fst; simpl snd;
    intros; try done; try (simpl in *; lia).
  destruct (load w off n) as [bs| |] eqn:E; simpl; [|lia..]. apply length_load in E. lia.
Qed.

#[global] Instance disk_contents : FileContents (list Z).
Proof.
  refine (MkFileContents (list Z) _ (fun w fd => if fd =? 3 then Some w else None) _ _).
  - intros w fd m n off bs Hc Hl. cbn. destruct (fd =? 3); [|done]. injection Hc as ->. by rewrite Hl.
  - intros w fd m bs off m' Hc Hs. cbn. destruct (fd =? 3); [|done]. injection Hc as ->. by rewrite Hs.
Defined.

(** A device that is an array of bytes. *)
#[global] Instance ram_dev : MemDev (list Z) :=
  MkMemDev (list Z) (fun d n off => match load d off n with Ret bs => (n, bs) | _ => (-1, []) end)
    (fun d bs off => match store d off bs with Ret d' => (Z.of_nat (length bs), d') | _ => (-1, d) end).

#[global] Instance ram_dev_ok : MemDevOk (list Z).
Proof.
  refine (MkMemDevOk (list Z) _ Some _ _ _ _); cbn [md_pread md_pwrite ram_dev].
  - intros d m n off bs [= ->] Hl. by rewrite Hl.
  - intros d m bs off m' [= ->] Hs. exists m'. by rewrite Hs.
  - intros d m n off _ Hn. destruct (load d off n); cbn; lia.
  - intros d m bs off [= ->]. destruct (store m off bs) as [d'| |] eqn:Hs; cbn; [|by exists m..].
    exists d'. split; [done|]. by eapply length_store.
Defined.

(** A partition of four sectors, sector k full of k + 1, and 1024 bytes of
    memory at 4096. *)
Definition demo_disk : list Z := replicate 512 1 ++ replicate 512 2 ++ replicate 512 3 ++ replicate 512 4.
Definition demo_mem : list Z := replicate 512 9 ++ replicate 512 8.
Definition demo_mapped : rmtfs_mem (list Z) := MkMem 4096 1024 (Some demo_mem) [].
Definition demo_rmem : rmtfs_mem (list Z) := MkMem 4096 1024 None demo_mem.

Definition demo_init : storage (list Z) := storage_init (storage_static demo_disk) None false false.
Definition demo_open : storage (list Z) := snd (storage_open demo_init 0 (bytes_of_string "/boot/modem_fs1")).
Definition demo_st : rmtfs_state (list Z) (list Z) := MkRs demo_open demo_rmem false.

Definition demo_stack : stack := MkStack 0 (replicate 256 170) (replicate 512 170).

(** A request to move [num] sectors between sector [sector] and [phys]. *)
Definition iovec_req_msg (dir sector phys num : Z) : list Z :=
  qmi_header_bytes (MkHdr 0 5 QMI_RMTFS_RW_IOVEC 31)
  ++ [1; 4; 0; 0; 0; 0; 0; 2; 1; 0; dir; 3; 13; 0; 1]
  ++ le_bytes 4 sector ++ le_bytes 4 phys ++ le_bytes 4 num ++ [4; 1; 0; 0].

Definition recv_buf (msg : list Z) : list Z := msg ++ replicate (4096 - length msg) 0.

Definition demo_pkt (dir sector phys num : Z) : packet :=
  MkPacket 0 20 (recv_buf (iovec_req_msg dir sector phys num)) 38.

Lemma demo_rs_ok : rs_ok demo_st.
Proof.
  split; [|reflexivity|exists demo_mem; by split|reflexivity].
  apply storage_open_spec. apply storage_ok_init.
Qed.

(** The sector number of a transfer is multiplied by 512 in 32 bits: a write
    to sector 8388608, far behind the end of the four sectors of the partition,
    overwrites sector 0 and is answered with success. *)
Theorem high_sector_overwrites_sector_0 :
  let disk' := replicate 512 9 ++ drop 512 demo_disk in
  exists st', rmtfs_iovec demo_st demo_stack (demo_pkt 1 8388608 4096 1)
      = Ret (st', Some (message_bytes QMI_RESPONSE QMI_RMTFS_RW_IOVEC 5 (result_tlv result_ok)))
    /\ world (rs_storage st') = disk'.
Proof. eexists. vm_compute. done. Qed.

(** It is of the shape the modem sends. *)
Lemma demo_request_ok node port id :
  qmi_decode_header (recv_buf (iovec_req_msg 1 1 4096 2)) 38 = Ret (0, Some id) ->
  request_ok (MkPacket node port (recv_buf (iovec_req_msg 1 1 4096 2)) 38) id.
Proof.
  intros Hid. assert (id = 3) as -> by (vm_compute in Hid; congruence). left.
  exists 5, (RRw 0 true [MkIovec 1 4096 2] 0), (replicate 4058 0). split; [lia|]. split; [|vm_compute; done].
  split; [lia|]. split; [|cbn; lia]. repeat constructor; cbn; lia.
Qed.

Lemma handle_rmtfs_safe_witness :
  exists st' rep rc, handle_rmtfs demo_st demo_stack 38 0 (recv_buf (iovec_req_msg 1 1 4096 2)) (MkSq 42 0 20)
      = Ret (st', rep, rc) /\ rs_ok st'
    /\ (forall id, 0 <= 38 -> 20 <> QRTR_PORT_CTRL ->
          qmi_decode_header (recv_buf (iovec_req_msg 1 1 4096 2)) 38 = Ret (0, Some id) -> 1 <= id <= 4 -> rep <> None).
Proof.
  apply (handle_rmtfs_safe demo_st demo_stack 38 0 (recv_buf (iovec_req_msg 1 1 4096 2)) (MkSq 42 0 20)).
  - exact demo_rs_ok.
  - split; vm_compute; lia.
  - apply bytes_check. reflexivity.
  - reflexivity.
  - lia.
  - intros node port id. apply demo_request_ok.
Defined.

(** A transfer request that fills the buffer and ends in a list of entries
    announced but not there: the decoder reads them from behind the buffer. *)
Definition long_request : list Z :=
  qmi_header_bytes (MkHdr 0 5 QMI_RMTFS_RW_IOVEC 4089) ++ [16] ++ le_bytes 2 4082 ++ replicate 4082 0 ++ [3; 13; 0; 255].

Example long_request_overreads :
  length long_request = 4096%nat /\ handle_rmtfs demo_st demo_stack 4096 0 long_request (MkSq 42 0 20) = Fault.
Proof. vm_compute. done. Qed.

(** A name of exactly 256 bytes is not let through by [path_ok]; one of 255 is. *)
Example path_of_256_bytes :
  let pkt n := MkPacket 0 20 (recv_buf (qmi_header_bytes (MkHdr 0 5 QMI_RMTFS_OPEN (3 + n)) ++ [1] ++ le_bytes 2 n ++ replicate (Z.to_nat n) 65)) (10 + n) in
  path_ok (pkt 255) /\ ~ path_ok (pkt 256) /\ rmtfs_open demo_st demo_stack (pkt 256) = Fault.
Proof. unfold path_ok. vm_compute. done. Qed.

Lemma demo_xfer : xfer_state (view := file_contents) demo_st 0 4096 demo_disk demo_mem.
Proof.
  split; [|by split|reflexivity]. split; [reflexivity|]. eexists. split; reflexivity.
Qed.

(** The structure the request decodes to. *)
Definition demo_req : list Z :=
  le_bytes 4 0 ++ [1; 0; 0; 0] ++ le_bytes 8 1 ++ le_bytes 4 1 ++ le_bytes 4 4096 ++ le_bytes 4 2
  ++ replicate 3052 0.

(** Two sectors, from the memory to sectors 1 and 2. *)
Definition demo_disk' : list Z :=
  replicate 512 1 ++ demo_mem ++ replicate 512 4.

Lemma rmtfs_iovec_transfers_witness :
  exists st', rmtfs_iovec demo_st demo_stack (demo_pkt 1 1 4096 2)
      = Ret (st', Some (message_bytes QMI_RESPONSE QMI_RMTFS_RW_IOVEC 5 (result_tlv result_ok)))
    /\ xfer_state (view := file_contents) st' 0 4096 demo_disk' demo_mem.
Proof.
  apply (rmtfs_iovec_transfers (view := file_contents) demo_st demo_stack (demo_pkt 1 1 4096 2) demo_req
    5 1 1 0 4096 demo_disk demo_mem demo_disk' demo_mem).
  - exists 31, 0. split_and!; [vm_compute; reflexivity|lia|vm_compute; reflexivity..].
  - split; vm_compute; lia.
  - exact demo_xfer.
  - vm_compute. reflexivity.
Defined.

Lemma iovec_write_read_back_witness :
  exists st1 buf1, iovec_sectors demo_st true 0 (replicate 512 0) 4096 512 0 2 = Ret (st1, buf1, true)
    /\ (forall rmem mem2 phys2, mem_ok rmem mem2 -> rm_address rmem = 4096 -> 4096 <= phys2 ->
          phys2 - 4096 + SECTOR_SIZE * Z.of_nat 2 <= Z.of_nat (length mem2) ->
          exists st2 buf2 mem3,
            iovec_sectors (MkRs (rs_storage st1) rmem (rs_dbg st1)) false 0 buf1 phys2 512 0 2 = Ret (st2, buf2, true)
            /\ mem_ok (rs_mem st2) mem3
            /\ load mem3 (phys2 - 4096) (SECTOR_SIZE * Z.of_nat 2)
               = load demo_mem (4096 - 4096) (SECTOR_SIZE * Z.of_nat 2)).
Proof.
  apply (iovec_write_read_back (view := file_contents) demo_st 0 4096 demo_disk demo_mem
    (replicate 512 0) 4096 512 2 demo_xfer); vm_compute; congruence.
Defined.

Lemma shared_memory_window_witness :
  (is_Some (rm_base demo_mapped) -> ~ in_region demo_mapped 5118 2 ->
     rmtfs_mem_write demo_mapped 5118 [1; 2] 2 = Ret (demo_mapped, - EINVAL)
     /\ rmtfs_mem_read demo_mapped 5118 [0; 0] 2 = Ret ([0; 0], - EINVAL))
  /\ (in_region demo_mapped 5118 2 ->
      exists rmem' base', rmtfs_mem_write demo_mapped 5118 [1; 2] 2 = Ret (rmem', 2)
        /\ mem_ok rmem' base' /\ rm_address rmem' = 4096 /\ rmtfs_mem_read rmem' 5118 [0; 0] 2 = Ret ([1; 2], 2)
        /\ (forall k : nat, ~ (5118 <= 4096 + Z.of_nat k < 5118 + 2) -> base' !! k = demo_mem !! k)).
Proof.
  apply (shared_memory_window demo_mapped demo_mem 5118 [1; 2] [0; 0]).
  - by split.
  - lia.
  - reflexivity.
  - simpl. lia.
Defined.

(** A device-error request of caller 0, who has the partition open. *)
Definition dev_error_pkt : packet :=
  MkPacket 0 20 (recv_buf (qmi_header_bytes (MkHdr 0 6 QMI_RMTFS_GET_DEV_ERROR 7) ++ [1; 4; 0; 0; 0; 0; 0])) 14.

Lemma get_dev_error_inverted_witness :
  rmtfs_get_dev_error demo_st demo_stack dev_error_pkt
  = Ret (demo_st, Some (message_bytes QMI_RESPONSE QMI_RMTFS_GET_DEV_ERROR 6
           (result_tlv (MkResult QMI_RMTFS_RESULT_FAILURE QMI_RMTFS_ERR_INTERNAL)))).
Proof.
  eapply (fun H1 H2 H3 H4 => proj1 (get_dev_error_inverted demo_st demo_stack dev_error_pkt 7 [0; 0; 0; 0] 6 0
    H1 H2 H3 H4) 0%nat).
  - vm_compute. reflexivity.
  - lia.
  - reflexivity.
  - simpl. lia.
  - vm_compute. reflexivity.
Defined.
