(* ===== verification/Assoc.v ===== *)
(** * The associative array of pd-mapper (src/qcom/pd-mapper/assoc.c)

    Open addressing with linear probing, string keys, no deletion; the arrays
    grow by a quarter when they are more than four fifths full.  pd-mapper keeps
    the names of the map files it found in one.  The probe sequences are those
    of HashMap. *)

From Stdlib Require Import ZArith Lia.
From stdpp Require Import base gmap list numbers strings.
From S2P Require Import Prelude HashMap.

(** ** Data

    [keys] and [values] of [struct assoc], both with [size] slots; [None] is
    the NULL of an unused key and, among the values, a word [malloc] left
    uninitialised, which no defined run reads.  A value is a pointer, 0 is
    NULL. *)
Record assoc : Type := MkAssoc
  { as_size : nat; as_fill : nat; as_keys : list (option (list Z)); as_values : list (option Z) }.

(** One turn of the loop of [assoc_hash]; [unsigned long] has 64 bits. *)
Definition assoc_hash_step (hash ch : Z) : Z :=
  let hash := u64 (u64 (Z.shiftl hash 4) + ch) in
  let g := Z.land hash 4026531840 in
  let hash := if g =? 0 then hash else Z.lxor hash (Z.shiftr g 24) in
  Z.land hash (18446744073709551615 - g).

Definition assoc_hash (value : list Z) : Z := foldl assoc_hash_step 0 value.

(** The allocations are taken to succeed; [assert] is a [Fault]. *)
Definition assoc_init (size : nat) : outcome assoc :=
  if (size =? 0)%nat then Fault
  else Ret (MkAssoc size 0 (replicate size None) (replicate size None)).

(** The probing loop of [assoc_get] and [_assoc_set]: the slot where it stops
    and whether the key is in it.  A loop of more than [size] turns never
    ends. *)
Fixpoint assoc_probe (n : nat) (keys : list (option (list Z))) (key : list Z) (hash fuel : nat)
    : outcome (nat * bool) :=
  match fuel with
  | O => OutOfFuel
  | S fuel' =>
      match keys !! hash with
      | None => Fault
      | Some None => Ret (hash, false)
      | Some (Some k) =>
          if decide (k = key) then Ret (hash, true)
          else assoc_probe n keys key (next_idx n hash) fuel'
      end
  end.

Definition assoc_slot (a : assoc) (key : list Z) : outcome (nat * bool) :=
  if (as_size a =? 0)%nat then Fault
  else assoc_probe (as_size a) (as_keys a) key (home (as_size a) (assoc_hash key)) (as_size a).

(** [assoc->values[hash]] *)
Definition assoc_value (a : assoc) (hash : nat) : outcome Z :=
  match as_values a !! hash with Some (Some v) => Ret v | _ => Fault end.

Definition assoc_get (a : assoc) (key : list Z) : outcome Z :=
  '(hash, found) ← assoc_slot a key;
  if found : bool then assoc_value a hash else Ret 0.

(** The loop that moves the entries; [set] is [assoc_set]. *)
Fixpoint grow_loop (set : assoc -> list Z -> Z -> outcome assoc) (slots : list (option (list Z) * option Z))
    (new_set : assoc) : outcome assoc :=
  match slots with
  | [] => Ret new_set
  | (None, _) :: slots' => grow_loop set slots' new_set
  | (Some k, Some v) :: slots' => new_set ← set new_set k v; grow_loop set slots' new_set
  | (Some _, None) :: _ => Fault
  end.

(** [_assoc_set], which is [assoc_set] but for the [strdup]; [fuel] bounds the
    nesting of [assoc_set] in the growth of an array. *)
Fixpoint assoc_set_fuel (fuel : nat) (a : assoc) (key : list Z) (value : Z) : outcome assoc :=
  match fuel with
  | O => OutOfFuel
  | S fuel' =>
      if negb (as_fill a <? as_size a)%nat then Fault
      else
        a ← (if u64 (4 * Z.of_nat (as_size a)) <? u64 (5 * Z.of_nat (as_fill a)) then
               new_set ← assoc_init (Z.to_nat (u64 (Z.of_nat (as_size a) * 5) / 4));
               grow_loop (assoc_set_fuel fuel') (zip (as_keys a) (as_values a)) new_set
             else Ret a);
        '(hash, found) ← assoc_slot a key;
        if found : bool then Ret (MkAssoc (as_size a) (as_fill a) (as_keys a) (<[hash := Some value]> (as_values a)))
        else Ret (MkAssoc (as_size a) (as_fill a + 1) (<[hash := Some key]> (as_keys a))
                    (<[hash := Some value]> (as_values a)))
  end.

Definition assoc_set (a : assoc) (key : list Z) (value : Z) : outcome assoc := assoc_set_fuel 2 a key value.

(** [while (it < size && !keys[it]) it++] over the slots from [it] on. *)
Fixpoint next_loop (slots : list (option (list Z))) (it : nat) : option (list Z * nat) :=
  match slots with
  | [] => None
  | None :: slots' => next_loop slots' (S it)
  | Some k :: _ => Some (k, it)
  end.

(** The key, the value and the new [*iter]; [None] is the NULL at the end. *)
Definition assoc_next (a : assoc) (iter : nat) : option (list Z * option Z * nat) :=
  match next_loop (drop iter (take (as_size a) (as_keys a))) iter with
  | Some (k, it) => Some (k, default None (as_values a !! it), S it)
  | None => None
  end.

(** [assoc_foreach]: the keys in the order of the loop. *)
Fixpoint assoc_foreach_loop (fuel : nat) (a : assoc) (iter : nat) : outcome (list (list Z)) :=
  match fuel with
  | O => OutOfFuel
  | S fuel' =>
      match assoc_next a iter with
      | None => Ret []
      | Some (k, _, iter') => ks ← assoc_foreach_loop fuel' a iter'; Ret (k :: ks)
      end
  end.

Definition assoc_foreach (a : assoc) : outcome (list (list Z)) := assoc_foreach_loop (S (as_size a)) a 0.

(** The keys that are freed, and the array left. *)
Definition assoc_destroy (a : assoc) : list (list Z) * assoc :=
  (omap id (take (as_size a) (as_keys a)), MkAssoc 0 (as_fill a) [] []).

(** ** Well-formed arrays *)

Implicit Types (a : assoc) (k : list Z) (ks : list (option (list Z))).

(** No unused slot lies between the first slot probed for a key and the key. *)
Definition keys_reachable ks : Prop :=
  forall i k, ks !! i = Some (Some k) ->
    exists j, (j < length ks)%nat /\ i = probe (length ks) (assoc_hash k) j
      /\ forall j', (j' < j)%nat -> ks !! probe (length ks) (assoc_hash k) j' <> Some None.

Record assoc_wf a : Prop := MkAssocWf
  { wf_keys : length (as_keys a) = as_size a;
    wf_values : length (as_values a) = as_size a;
    wf_fill : as_fill a = length (omap id (as_keys a));
    wf_reachable : keys_reachable (as_keys a);
    wf_unique : forall i j k, as_keys a !! i = Some (Some k) -> as_keys a !! j = Some (Some k) -> i = j }.

(** The array holds the finite map [M]. *)
Definition assoc_repr a (M : gmap (list Z) Z) : Prop :=
  assoc_wf a
  /\ (forall i k, as_keys a !! i = Some (Some k) -> exists v, as_values a !! i = Some (Some v))
  /\ (forall k v, M !! k = Some v <-> exists i, as_keys a !! i = Some (Some k) /\ as_values a !! i = Some (Some v)).

(** *** Probing *)

(** The slots probed before the [j]-th hold other keys. *)
Definition others_before ks k (j : nat) : Prop :=
  forall j', (j' < j)%nat -> exists k', ks !! probe (length ks) (assoc_hash k) j' = Some (Some k') /\ k' <> k.

Lemma assoc_probe_spec ks k : forall fuel j,
  (0 < length ks)%nat -> (j + fuel = length ks)%nat -> others_before ks k j ->
  match assoc_probe (length ks) ks k (probe (length ks) (assoc_hash k) j) fuel with
  | Ret (i, found) =>
      exists j1, (j1 < length ks)%nat /\ i = probe (length ks) (assoc_hash k) j1 /\ others_before ks k j1
        /\ ks !! i = Some (if found : bool then Some k else None)
  | OutOfFuel => others_before ks k (length ks)
  | Fault => False
  end.
Proof.
  induction fuel as [|fuel IH]; intros j Hn Hj Hb; cbn [assoc_probe].
  { by replace (length ks) with j by lia. }
  destruct (lookup_lt_is_Some_2 ks _ (probe_lt (length ks) (assoc_hash k) j Hn)) as [e He]. rewrite He.
  destruct e as [k'|]; [|exists j; split_and!; auto; lia]. destruct (decide (k' = k)) as [->|Hk].
  { exists j. split_and!; auto; lia. }
  rewrite next_idx_probe by done. apply IH; [done|lia|].
  intros j' Hj'. destruct (decide (j' = j)) as [->|]; [by eauto|]. apply Hb. lia.
Qed.

(** When all slots are probed they are all in use. *)
Lemma probed_all ks k :
  (0 < length ks)%nat -> others_before ks k (length ks) -> length (omap id ks) = length ks.
Proof.
  intros Hn Hb.
  assert (Forall (fun e => exists k', e = Some k') ks) as Hall.
  { apply Forall_lookup. intros i e He. pose proof (lookup_lt_Some _ _ _ He) as Hi.
    destruct (probe_surj (length ks) (assoc_hash k) i Hi) as (j & Hj & <-).
    destruct (Hb j Hj) as (k' & Hk' & _). exists k'. congruence. }
  clear Hb Hn. induction Hall as [|e ks [k' ->] _ IH]; [done|]. cbn [omap list_omap id length]. simpl. by f_equal.
Qed.

Lemma length_omap_le ks : (length (omap id ks) <= length ks)%nat.
Proof. induction ks as [|[k|] ks IH]; [done|apply (le_n_S _ _ IH)|apply (le_S _ _ IH)]. Qed.

(** The slot of a key, in an array with an unused slot. *)
Lemma assoc_slot_spec a k :
  assoc_wf a -> (as_fill a < as_size a)%nat ->
  exists j i found, assoc_slot a k = Ret (i, found) /\ (j < as_size a)%nat
    /\ i = probe (as_size a) (assoc_hash k) j /\ others_before (as_keys a) k j
    /\ as_keys a !! i = Some (if found : bool then Some k else None).
Proof.
  intros [Hk Hv Hf _ _] Hlt. unfold assoc_slot. destruct (Nat.eqb_spec (as_size a) 0); [lia|].
  pose proof (assoc_probe_spec (as_keys a) k (as_size a) 0 ltac:(lia) ltac:(lia) ltac:(by intros ? ?; lia)) as H.
  rewrite Hk, probe_0 in H by lia.
  destruct (assoc_probe _ _ _ _ _) as [[i found]| |]; [|done|].
  - destruct H as (j & ?). exists j, i, found. split; [done|]. exact H.
  - rewrite <- Hk in H. apply probed_all in H; lia.
Qed.

(** A key that is in the array is found. *)
Lemma assoc_slot_here a k i j :
  assoc_wf a -> (j < as_size a)%nat -> i = probe (as_size a) (assoc_hash k) j -> others_before (as_keys a) k j ->
  as_keys a !! i = Some None -> forall i', as_keys a !! i' <> Some (Some k).
Proof.
  intros [Hk _ _ Hr _] Hj -> Hb Hn i' Hi'. destruct (Hr _ _ Hi') as (j' & Hj' & -> & Hnn). rewrite Hk in *.
  destruct (Nat.lt_trichotomy j j') as [Hl|[->|Hl]].
  - by apply (Hnn j Hl).
  - congruence.
  - destruct (Hb j' Hl) as (k' & Hk' & Hne). rewrite Hk in Hk'. congruence.
Qed.

Lemma assoc_get_repr a M k :
  assoc_repr a M -> (as_fill a < as_size a)%nat -> assoc_get a k = Ret (default 0 (M !! k)).
Proof.
  intros (Hwf & Hval & HM) Hlt. destruct (assoc_slot_spec a k Hwf Hlt) as (j & i & found & Hs & Hj & Hi & Hb & Hk).
  unfold assoc_get. rewrite Hs. cbn [mbind outcome_bind]. destruct found.
  - destruct (Hval i k Hk) as [v Hv]. unfold assoc_value. rewrite Hv.
    assert (M !! k = Some v) as -> by (apply HM; eauto). done.
  - destruct (M !! k) as [v|] eqn:E; [|done]. apply HM in E as (i' & Hi' & _).
    by destruct (assoc_slot_here a k i j Hwf Hj Hi Hb Hk i').
Qed.

(** *** Writing a slot *)

Lemma omap_insert_new ks i k :
  ks !! i = Some None -> length (omap id (<[i := Some k]> ks)) = S (length (omap id ks)).
Proof.
  revert i. induction ks as [|e ks IH]; intros [|i] H; simplify_eq/=; [done|].
  destruct e; cbn [omap list_omap id length]; simpl; by rewrite (IH i H).
Qed.

Lemma reachable_insert_key ks k j :
  keys_reachable ks -> (j < length ks)%nat -> others_before ks k j ->
  keys_reachable (<[probe (length ks) (assoc_hash k) j := Some k]> ks).
Proof.
  intros Hr Hj Hb i k' Hi'. rewrite length_insert in *.
  assert (forall x, ks !! x <> Some None -> <[probe (length ks) (assoc_hash k) j := Some k]> ks !! x <> Some None) as Hkeep.
  { intros x Hx Hx'. apply list_lookup_insert_Some in Hx' as [(_ & ? & _)|(_ & ?)]; congruence. }
  apply list_lookup_insert_Some in Hi' as [(<- & [= <-] & _)|(_ & Hi')].
  - exists j. split_and!; [done|done|]. intros j' Hj'. apply Hkeep. destruct (Hb j' Hj') as (k'' & -> & _). done.
  - destruct (Hr _ _ Hi') as (j0 & Hj0 & -> & Hn). exists j0. split_and!; [done|done|]. auto.
Qed.

Definition write_slot a k (v : Z) (i : nat) (found : bool) : assoc :=
  if found then MkAssoc (as_size a) (as_fill a) (as_keys a) (<[i := Some v]> (as_values a))
  else MkAssoc (as_size a) (as_fill a + 1) (<[i := Some k]> (as_keys a)) (<[i := Some v]> (as_values a)).

(** Both cases write the key and the value. *)
Lemma write_slot_keys a k v i found :
  as_keys a !! i = Some (if found : bool then Some k else None) ->
  as_keys (write_slot a k v i found) = <[i := Some k]> (as_keys a)
  /\ as_values (write_slot a k v i found) = <[i := Some v]> (as_values a).
Proof. intros H. destruct found; [|done]. split; [|done]. symmetry. by apply list_insert_id. Qed.

Lemma write_slot_wf a k v i j found :
  assoc_wf a -> (j < as_size a)%nat -> i = probe (as_size a) (assoc_hash k) j -> others_before (as_keys a) k j ->
  as_keys a !! i = Some (if found : bool then Some k else None) ->
  assoc_wf (write_slot a k v i found).
Proof.
  intros Hwf Hj Hi Hb He. destruct (write_slot_keys a k v i found He) as [Hks Hvs].
  assert (forall i', as_keys a !! i' = Some (Some k) -> i' = i) as Hu.
  { intros i' Hi'. destruct found; [by apply (wf_unique _ Hwf i' i k)|].
    by destruct (assoc_slot_here a k i j Hwf Hj Hi Hb He i'). }
  destruct Hwf as [Hk Hv Hf Hr Hun]. split.
  - rewrite Hks, length_insert, Hk. by destruct found.
  - rewrite Hvs, length_insert, Hv. by destruct found.
  - destruct found; [done|]. cbn [write_slot as_fill as_keys]. rewrite (omap_insert_new _ _ _ He). lia.
  - rewrite Hks, Hi, <- Hk. apply reachable_insert_key; [done|lia|done].
  - intros x y k' Hx Hy. rewrite Hks in Hx, Hy.
    apply list_lookup_insert_Some in Hx as [(? & ? & _)|(Hxi & Hx)];
      apply list_lookup_insert_Some in Hy as [(? & ? & _)|(Hyi & Hy)]; simplify_eq; eauto using eq_sym.
Qed.

Lemma write_slot_repr a M k v i j found :
  assoc_repr a M -> (j < as_size a)%nat -> i = probe (as_size a) (assoc_hash k) j -> others_before (as_keys a) k j ->
  as_keys a !! i = Some (if found : bool then Some k else None) ->
  assoc_repr (write_slot a k v i found) (<[k := v]> M).
Proof.
  intros (Hwf & Hval & HM) Hj Hi Hb He.
  pose proof (write_slot_wf a k v i j found Hwf Hj Hi Hb He) as Hwf'.
  destruct (write_slot_keys a k v i found He) as [Hks Hvs].
  pose proof (lookup_lt_Some _ _ _ He) as Hil. rewrite (wf_keys _ Hwf), <- (wf_values _ Hwf) in Hil.
  split_and!; [done| |].
  - intros x k' Hx. rewrite Hks in Hx. rewrite Hvs. destruct (decide (x = i)) as [->|Hxi].
    + rewrite list_lookup_insert_eq by done. by eauto.
    + rewrite list_lookup_insert_ne in Hx by done. rewrite list_lookup_insert_ne by done. eauto.
  - intros k' v'. rewrite Hks, Hvs. destruct (decide (k' = k)) as [->|Hne].
    + rewrite lookup_insert_eq. split.
      * intros [= <-]. exists i. rewrite !list_lookup_insert_eq; [done|done|]. by rewrite (wf_keys _ Hwf), <- (wf_values _ Hwf).
      * intros (x & Hx & Hv). assert (x = i) as ->.
        { apply (wf_unique _ Hwf' x i k); rewrite Hks; [done|].
          apply list_lookup_insert_eq. by rewrite (wf_keys _ Hwf), <- (wf_values _ Hwf). }
        rewrite list_lookup_insert_eq in Hv by done. congruence.
    + rewrite lookup_insert_ne by done. rewrite HM. split.
      * intros (x & Hx & Hv). exists x. assert (x <> i) by (intros ->; rewrite He in Hx; destruct found; congruence).
        by rewrite !list_lookup_insert_ne.
      * intros (x & Hx & Hv). exists x. apply list_lookup_insert_Some in Hx as [(_ & ? & _)|(Hxi & Hx)]; [congruence|].
        rewrite list_lookup_insert_ne in Hv by done. done.
Qed.

(** A set in an array that is not over its limit. *)
Lemma assoc_set_plain fuel a M k v :
  assoc_repr a M -> (as_fill a < as_size a)%nat -> (5 * as_fill a <= 4 * as_size a)%nat ->
  5 * Z.of_nat (as_size a) < 18446744073709551616 ->
  exists a', assoc_set_fuel (S fuel) a k v = Ret a' /\ assoc_repr a' (<[k := v]> M)
    /\ as_size a' = as_size a /\ (as_fill a <= as_fill a' <= S (as_fill a))%nat.
Proof.
  intros HM Hlt Hload Hb. destruct (assoc_slot_spec a k (proj1 HM) Hlt) as (j & i & found & Hs & Hj & Hi & Ho & Hk).
  exists (write_slot a k v i found). cbn [assoc_set_fuel].
  destruct (Nat.ltb_spec (as_fill a) (as_size a)); [|lia]. cbn [negb].
  rewrite !u64_small by lia. destruct (Z.ltb_spec (4 * Z.of_nat (as_size a)) (5 * Z.of_nat (as_fill a))); [lia|].
  cbn [mbind outcome_bind]. rewrite Hs. cbn [mbind outcome_bind]. split_and!.
  - by destruct found.
  - by apply (write_slot_repr a M k v i j).
  - by destruct found.
  - destruct found; cbn; lia.
  - destruct found; cbn; lia.
Qed.

(** *** Growing *)

(** The entries in array order. *)
Definition slot_entry (s : option (list Z) * option Z) : option (list Z * Z) :=
  match s with (Some k, Some v) => Some (k, v) | _ => None end.

Definition occupied (slots : list (option (list Z) * option Z)) : list (list Z * Z) := omap slot_entry slots.

(** The map after a sequence of insertions. *)
Definition inserts (M : gmap (list Z) Z) (kvs : list (list Z * Z)) : gmap (list Z) Z :=
  foldl (fun M kv => <[kv.1 := kv.2]> M) M kvs.

Lemma inserts_lookup kvs : forall M k v,
  NoDup kvs.*1 -> (inserts M kvs !! k = Some v <-> (k, v) ∈ kvs \/ (k ∉ kvs.*1 /\ M !! k = Some v)).
Proof.
  induction kvs as [|[k0 v0] kvs IH]; intros M k v Hnd; cbn [inserts foldl fst snd].
  { split; [intros; right; split; [set_solver|done]|intros [?|[_ ?]]; [set_solver|done]]. }
  cbn [fmap list_fmap fst] in Hnd. apply NoDup_cons in Hnd as [Hn0 Hnd]. fold (inserts (<[k0:=v0]> M) kvs).
  rewrite IH by done. cbn [fmap list_fmap fst]. rewrite not_elem_of_cons, elem_of_cons.
  destruct (decide (k = k0)) as [->|Hne].
  - rewrite lookup_insert_eq. split.
    + intros [H|[_ [= ->]]]; [|by left; left]. contradict Hn0. apply (list_elem_of_fmap_2 fst) in H. done.
    + intros [[[= ->]|H]|[[? _] _]]; [by right|by left|done].
  - rewrite lookup_insert_ne by done. split.
    + intros [H|[? ?]]; [by left; right|by right].
    + intros [[[= ? ?]|H]|[[_ ?] ?]]; [done|by left|by right].
Qed.

Lemma nodup_keys ks :
  (forall i j k, ks !! i = Some (Some k) -> ks !! j = Some (Some k) -> i = j) -> NoDup (omap id ks).
Proof.
  induction ks as [|e ks IH]; intros Hu; [constructor|].
  assert (NoDup (omap id ks)) as Hnd.
  { apply IH. intros i j k Hi Hj. specialize (Hu (S i) (S j) k Hi Hj). by injection Hu. }
  destruct e as [k|]; [|done]. cbn. constructor; [|done]. intros Hk.
  apply list_elem_of_omap in Hk as (e & He & Hid). cbn in Hid. subst e.
  apply list_elem_of_lookup_1 in He as [j Hj]. by specialize (Hu 0%nat (S j) k eq_refl Hj).
Qed.

Lemma occupied_keys ks vs :
  length ks = length vs -> (forall i k, ks !! i = Some (Some k) -> exists v, vs !! i = Some (Some v)) ->
  (occupied (zip ks vs)).*1 = omap id ks.
Proof.
  revert vs. induction ks as [|e ks IH]; intros [|w vs] Hl Hv; try done.
  assert ((occupied (zip ks vs)).*1 = omap id ks) as IH'.
  { apply IH; [by injection Hl|]. intros i k Hi. exact (Hv (S i) k Hi). }
  destruct e as [k|]; cbn; [|done]. destruct (Hv 0%nat k eq_refl) as [v [= ->]]. cbn. by f_equal.
Qed.

Lemma elem_of_occupied ks vs k v :
  (k, v) ∈ occupied (zip ks vs) <-> exists i, ks !! i = Some (Some k) /\ vs !! i = Some (Some v).
Proof.
  unfold occupied. rewrite list_elem_of_omap. split.
  - intros ([e w] & He & Hs). apply list_elem_of_lookup_1 in He as [i Hi]. exists i.
    apply lookup_zip_Some in Hi as [H1 H2]. destruct e, w; simplify_eq/=. done.
  - intros (i & H1 & H2). exists (Some k, Some v). split; [|done].
    apply (list_elem_of_lookup_2 _ i). by apply lookup_zip_Some.
Qed.

Lemma inserts_occupied a M :
  assoc_repr a M -> inserts ∅ (occupied (zip (as_keys a) (as_values a))) = M
    /\ length (occupied (zip (as_keys a) (as_values a))) = as_fill a.
Proof.
  intros (Hwf & Hval & HM).
  pose proof (occupied_keys (as_keys a) (as_values a) ltac:(by rewrite (wf_keys _ Hwf), (wf_values _ Hwf)) Hval) as Hk.
  split.
  - apply map_eq. intros k. apply option_eq. intros v. rewrite inserts_lookup.
    + rewrite elem_of_occupied, <- HM. split; [intros [?|[_ ?]]; [done|set_solver]|by left].
    + rewrite Hk. apply nodup_keys, (wf_unique _ Hwf).
  - by rewrite (wf_fill _ Hwf), <- Hk, length_fmap.
Qed.

Lemma assoc_repr_fresh n : assoc_repr (MkAssoc n 0 (replicate n None) (replicate n None)) ∅.
Proof.
  assert (forall i k, replicate n (@None (list Z)) !! i <> Some (Some k)) as Hno.
  { intros i k H. apply lookup_replicate_1 in H as [? _]. done. }
  split_and!; cbn.
  - split; cbn; [by rewrite length_replicate|by rewrite length_replicate| |..].
    + induction n; [done|]. cbn. by apply IHn; intros i k H; apply lookup_replicate_1 in H as [? _].
    + intros i k H. by destruct (Hno i k).
    + intros i j k H. by destruct (Hno i k).
  - intros i k H. by destruct (Hno i k).
  - intros k v. rewrite lookup_empty. split; [done|]. intros (i & H & _). by destruct (Hno i k).
Qed.

Lemma grow_loop_spec fuel slots : forall b M,
  assoc_repr b M -> (forall k, (Some k, None) ∉ slots) ->
  (5 * (as_fill b + length (occupied slots)) <= 4 * as_size b + 5)%nat ->
  (as_fill b + length (occupied slots) <= as_size b)%nat -> 5 * Z.of_nat (as_size b) < 18446744073709551616 ->
  exists b', grow_loop (assoc_set_fuel (S fuel)) slots b = Ret b' /\ assoc_repr b' (inserts M (occupied slots))
    /\ as_size b' = as_size b /\ (as_fill b' <= as_fill b + length (occupied slots))%nat.
Proof.
  induction slots as [|[[k|] w] slots IH]; intros b M HM Hval H5 Hle Hb.
  { exists b. split_and!; auto; cbn; lia. }
  2:{ apply (IH b M HM); [|done..]. intros k Hk. apply (Hval k). by right. }
  destruct w as [v|]; [|destruct (Hval k); by left].
  change (occupied ((Some k, Some v) :: slots)) with ((k, v) :: occupied slots) in *. cbn [length] in H5, Hle.
  destruct (assoc_set_plain fuel b M k v HM) as (b1 & Hset & HM1 & Hs1 & Hf1); [lia..|].
  destruct (IH b1 _ HM1) as (b2 & Hg & HM2 & Hs2 & Hf2); [|lia..|].
  { intros k' Hk'. apply (Hval k'). by right. }
  exists b2. cbn [grow_loop]. rewrite Hset. cbn [mbind outcome_bind length]. split_and!; [done|done|congruence|lia].
Qed.

(** The keys, each once. *)
Lemma assoc_keys_repr a M :
  assoc_repr a M -> NoDup (omap id (as_keys a)) /\ forall k, k ∈ omap id (as_keys a) <-> is_Some (M !! k).
Proof.
  intros (Hwf & Hval & HM). split; [apply nodup_keys, (wf_unique _ Hwf)|]. intros k. rewrite list_elem_of_omap. split.
  - intros (e & He & Hid). cbn in Hid. subst e. apply list_elem_of_lookup_1 in He as [i Hi].
    destruct (Hval i k Hi) as [v Hv]. exists v. apply HM. eauto.
  - intros [v Hv]. apply HM in Hv as (i & Hi & _). exists (Some k). split; [|done]. by apply list_elem_of_lookup_2 in Hi.
Qed.

Lemma assoc_fill_repr a b M : assoc_repr a M -> assoc_repr b M -> as_fill a = as_fill b.
Proof.
  intros Ha Hb. destruct (assoc_keys_repr a M Ha) as [Hna Hka]. destruct (assoc_keys_repr b M Hb) as [Hnb Hkb].
  rewrite (wf_fill _ (proj1 Ha)), (wf_fill _ (proj1 Hb)). apply Permutation_length, NoDup_Permutation; [done|done|].
  intros k. by rewrite Hka, Hkb.
Qed.

(** Growing, then writing. *)
Definition assoc_grown (fuel : nat) a : outcome assoc :=
  if u64 (4 * Z.of_nat (as_size a)) <? u64 (5 * Z.of_nat (as_fill a)) then
    new_set ← assoc_init (Z.to_nat (u64 (Z.of_nat (as_size a) * 5) / 4));
    grow_loop (assoc_set_fuel fuel) (zip (as_keys a) (as_values a)) new_set
  else Ret a.

Lemma assoc_set_eq fuel a k v :
  assoc_set_fuel (S fuel) a k v
  = if negb (as_fill a <? as_size a)%nat then Fault
    else a ← assoc_grown fuel a; '(i, found) ← assoc_slot a k; Ret (write_slot a k v i found).
Proof.
  cbn [assoc_set_fuel]. fold (assoc_grown fuel a). destruct (negb _); [done|].
  destruct (assoc_grown fuel a) as [b| |]; [|done|done]. cbn [mbind outcome_bind].
  destruct (assoc_slot b k) as [[i []]| |]; done.
Qed.

Definition assoc_inv (n : nat) a : Prop :=
  (6 <= as_size a)%nat /\ (as_fill a < as_size a)%nat /\ (as_size a <= n + 2 * as_fill a)%nat.

Lemma assoc_set_repr n a M k v :
  assoc_repr a M -> assoc_inv n a -> 10 * Z.of_nat (as_size a) < 18446744073709551616 ->
  exists a', assoc_set a k v = Ret a' /\ assoc_repr a' (<[k := v]> M) /\ assoc_inv n a'
    /\ (as_fill a' <= S (as_fill a))%nat.
Proof.
  intros HM (H6 & Hlt & Hn) Hb. unfold assoc_set.
  destruct (decide (5 * as_fill a <= 4 * as_size a)%nat) as [Hload|Hload].
  { destruct (assoc_set_plain 1 a M k v HM Hlt Hload) as (a' & Hs & HM' & Hs' & Hf); [lia|].
    exists a'. split_and!; try done; unfold assoc_inv; lia. }
  destruct (inserts_occupied a M HM) as [Hins Hocc].
  pose proof (Z.div_mod (Z.of_nat (as_size a) * 5) 4 ltac:(lia)) as Hdiv.
  pose proof (Z.mod_pos_bound (Z.of_nat (as_size a) * 5) 4 ltac:(lia)) as Hmod.
  set (s := Z.to_nat (Z.of_nat (as_size a) * 5 / 4)) in *.
  destruct (grow_loop_spec 0 (zip (as_keys a) (as_values a)) _ _ (assoc_repr_fresh s)) as (b & Hg & HMb & Hsb & Hfb);
    cbn [as_fill as_size] in *; [|lia..|].
  { destruct HM as (_ & Hval & _). intros k' Hk'. apply list_elem_of_lookup_1 in Hk' as [i Hi].
    apply lookup_zip_Some in Hi as [Hi Hv]. destruct (Hval i k' Hi). congruence. }
  rewrite Hins in HMb. pose proof (assoc_fill_repr _ _ _ HM HMb) as Hfill.
  destruct (assoc_set_plain 0 b M k v HMb) as (a' & Hs & HM' & Hs' & Hf); [lia..|].
  exists a'. split_and!; [|done|unfold assoc_inv; lia|lia]. clear HM HMb HM'.
  rewrite <- Hs, (assoc_set_eq 1), (assoc_set_eq 0).
  destruct (Nat.ltb_spec (as_fill a) (as_size a)); [|lia]. destruct (Nat.ltb_spec (as_fill b) (as_size b)); [|lia].
  cbn [negb]. unfold assoc_grown. rewrite !u64_small by lia.
  destruct (Z.ltb_spec (4 * Z.of_nat (as_size a)) (5 * Z.of_nat (as_fill a))); [|lia].
  destruct (Z.ltb_spec (4 * Z.of_nat (as_size b)) (5 * Z.of_nat (as_fill b))); [lia|].
  fold s. unfold assoc_init. destruct (Nat.eqb_spec s 0); [lia|]. cbn [mbind outcome_bind].
  rewrite Hg. done.
Qed.

(** *** Iterating *)

Lemma next_loop_spec ks : forall it,
  match next_loop ks it with
  | None => omap id ks = []
  | Some (k, i) => (it <= i < it + length ks)%nat /\ omap id ks = k :: omap id (drop (S i - it) ks)
  end.
Proof.
  induction ks as [|[k|] ks IH]; intros it; cbn [next_loop]; [done| |].
  - split; [cbn; lia|]. replace (S it - it)%nat with 1%nat by lia. cbn. by rewrite drop_0.
  - specialize (IH (S it)). destruct (next_loop ks (S it)) as [[k i]|]; [|done].
    destruct IH as [Hi Ho]. split; [cbn; lia|]. replace (S i - it)%nat with (S (S i - S it)) by lia. done.
Qed.

Lemma assoc_foreach_loop_spec a fuel : forall iter,
  length (as_keys a) = as_size a -> (iter <= as_size a < iter + fuel)%nat ->
  assoc_foreach_loop fuel a iter = Ret (omap id (drop iter (as_keys a))).
Proof.
  induction fuel as [|fuel IH]; intros iter Hk Hf; cbn [assoc_foreach_loop].
  { lia. }
  unfold assoc_next. rewrite take_ge by lia.
  pose proof (next_loop_spec (drop iter (as_keys a)) iter) as H.
  destruct (next_loop _ iter) as [[k i]|]; [|by rewrite H].
  destruct H as [Hi ->]. rewrite length_drop in Hi. rewrite IH by lia. cbn [mbind outcome_bind].
  rewrite drop_drop. replace (iter + (S i - iter))%nat with (S i) by lia. done.
Qed.

Lemma assoc_foreach_repr a M :
  assoc_repr a M -> exists fs : list (list Z), assoc_foreach a = Ret fs /\ NoDup fs /\ forall k, k ∈ fs <-> is_Some (M !! k).
Proof.
  intros HM. exists (omap id (as_keys a)). split; [|by apply assoc_keys_repr].
  unfold assoc_foreach. rewrite assoc_foreach_loop_spec; [|apply (wf_keys _ (proj1 HM))|lia]. by rewrite drop_0.
Qed.

(** ** The contract *)

(** A sequence of calls of [assoc_set]. *)
Fixpoint assoc_sets a (kvs : list (list Z * Z)) : outcome assoc :=
  match kvs with [] => Ret a | (k, v) :: kvs' => a ← assoc_set a k v; assoc_sets a kvs' end.

Lemma assoc_sets_repr n kvs : forall a M,
  assoc_repr a M -> assoc_inv n a ->
  10 * (Z.of_nat n + 2 * Z.of_nat (as_fill a) + 2 * Z.of_nat (length kvs)) < 18446744073709551616 ->
  exists a', assoc_sets a kvs = Ret a' /\ assoc_repr a' (inserts M kvs) /\ assoc_inv n a'.
Proof.
  induction kvs as [|[k v] kvs IH]; intros a M HM Hinv Hb; cbn [assoc_sets]; [by exists a|].
  cbn [length] in Hb. pose proof Hinv as (_ & _ & Hn).
  destruct (assoc_set_repr n a M k v HM Hinv) as (a1 & -> & HM1 & Hinv1 & Hf1); [lia|].
  cbn [mbind outcome_bind]. apply IH; [done|done|lia].
Qed.

(** C27: The associative array refines a finite map.  Starting from an array of
    six or more slots, every sequence of [assoc_set] runs to its end: no
    assertion fails, no probe loops for ever and no uninitialised word is read,
    however often the array has grown.  Afterwards [assoc_get] gives the last
    value set for each key and NULL for the others, and [assoc_foreach] visits
    each key once. *)
Theorem assoc_refines n kvs :
  (6 <= n)%nat -> 10 * (Z.of_nat n + 2 * Z.of_nat (length kvs)) < 18446744073709551616 ->
  exists a (ks : list (list Z)), (a0 ← assoc_init n; assoc_sets a0 kvs) = Ret a
    /\ (forall k, assoc_get a k = Ret (default 0 (inserts ∅ kvs !! k)))
    /\ assoc_foreach a = Ret ks /\ NoDup ks /\ (forall k, k ∈ ks <-> is_Some (inserts ∅ kvs !! k)).
Proof.
  intros H6 Hb. unfold assoc_init. destruct (Nat.eqb_spec n 0); [lia|]. cbn [mbind outcome_bind].
  destruct (assoc_sets_repr n kvs _ _ (assoc_repr_fresh n)) as (a & Hs & HM & Hinv); [unfold assoc_inv; cbn; lia|cbn; lia|].
  destruct (assoc_foreach_repr a _ HM) as (ks & Hf & Hnd & Hin). exists a, ks. split_and!; try done.
  intros k. apply assoc_get_repr; [done|apply Hinv].
Qed.

(** Seven keys in an array of six slots, which grows twice. *)
Definition demo_kvs : list (list Z * Z) :=
  [([97], 1); ([98], 2); ([99], 3); ([100], 4); ([101], 5); ([97; 97], 6); ([98], 20); ([98; 97], 7)].

Lemma assoc_refines_witness :
  exists a, (a0 ← assoc_init 6; assoc_sets a0 demo_kvs) = Ret a
    /\ assoc_get a [98] = Ret 20 /\ assoc_get a [98; 97] = Ret 7 /\ assoc_get a [102] = Ret 0 /\ as_size a = 8%nat.
Proof.
  destruct (assoc_refines 6 demo_kvs) as (a & ks & Ha & Hg & _).
  - lia.
  - vm_compute. reflexivity.
  - exists a. rewrite !Hg. split_and!; [exact Ha|vm_compute; reflexivity..|].
    vm_compute in Ha. injection Ha as <-. reflexivity.
Defined.
