(* ===== verification/Json.v ===== *)
(** * The JSON reader of pd-mapper (src/qcom/pd-mapper/json.c)

    A recursive-descent parser over a buffer with one position that is moved
    back with [unput].  The position is explicit; reading in front of the
    buffer is a [Fault].  The mutually recursive functions share one fuel
    argument.  [char] is unsigned, as on the target. *)

From Stdlib Require Import ZArith Lia.
From stdpp Require Import base list numbers strings.
From S2P Require Import Prelude CLib.

(** ** Data

    The node of the C structure with its [type]; the children of arrays and
    objects, a linked list in C, are lists.  A number is kept as the digits
    [strtod] is given. *)

Unset Elimination Schemes.
Inductive json_value : Type :=
| JSON_TRUE
| JSON_FALSE
| JSON_NULL
| JSON_NUMBER (digits : list Z)
| JSON_STRING (s : list Z)
| JSON_ARRAY (values : list json_value)
| JSON_OBJECT (members : list (list Z * json_value)).
Set Elimination Schemes.

Definition c_quote : Z := 34.
Definition c_comma : Z := 44.
Definition c_colon : Z := 58.
Definition c_lbracket : Z := 91.
Definition c_rbracket : Z := 93.
Definition c_lbrace : Z := 123.
Definition c_rbrace : Z := 125.

Section parser.
Context (input_buf : list Z).
Notation input_len := (Z.of_nat (length input_buf)).

(** [input()]: the character, 0 at the end, and the new [input_pos]. *)
Definition input (pos : Z) : outcome (Z * Z) :=
  if input_len <=? pos then Ret (0, pos)
  else if pos <? 0 then Fault
  else match input_buf !! Z.to_nat pos with
       | Some ch => Ret (ch, pos + 1)
       | None => Fault
       end.

Definition unput (pos : Z) : Z := pos - 1.

(** Every loop below reads a character per turn, and stops at the end. *)
Definition loop_fuel : nat := S (length input_buf).

Fixpoint skip_loop (n : nat) (pos : Z) : outcome Z :=
  match n with
  | O => OutOfFuel
  | S n' =>
      '(ch, pos) ← input pos;
      if negb (ch =? 0) && isspace ch then skip_loop n' pos else Ret pos
  end.

Definition json_skip_whitespace (pos : Z) : outcome Z :=
  pos ← skip_loop loop_fuel pos; Ret (unput pos).

(** The loops that fill [buf]: [more ch] is the middle condition, [room] the
    characters that still fit. The result is the characters, the one that ended
    the loop and the position. *)
Fixpoint fill_loop (more : Z -> bool) (room n : nat) (pos : Z) {struct n} : outcome (list Z * Z * Z) :=
  match n with
  | O => OutOfFuel
  | S n' =>
      '(ch, pos) ← input pos;
      match room with
      | S room' =>
          if negb (ch =? 0) && more ch
          then '(bs, last, pos) ← fill_loop more room' n' pos; Ret (ch :: bs, last, pos)
          else Ret ([], ch, pos)
      | O => Ret ([], ch, pos)
      end
  end.

(** Results: the return code, the value when it is 1, and the position. *)
Definition parsed : Type := outcome (Z * option json_value * Z).

Definition json_parse_string (pos : Z) : outcome (Z * option (list Z) * Z) :=
  '(ch, pos) ← input pos;
  if negb (ch =? c_quote) then Ret (0, None, unput pos)
  else
    '(bs, ch, pos) ← fill_loop (fun ch => negb (ch =? c_quote)) 127 loop_fuel pos;
    if ch =? 0 then Ret (-1, None, pos) else Ret (1, Some bs, pos).

Definition json_parse_number (pos : Z) : parsed :=
  '(bs, _, pos) ← fill_loop isdigit 19 loop_fuel pos;
  let pos := unput pos in
  match bs with
  | [] => Ret (0, None, pos)
  | _ => Ret (1, Some (JSON_NUMBER bs), pos)
  end.

(** [while ( *m && *m++ == ch) ch = input();] *)
Fixpoint keyword_loop (m : list Z) (ch pos : Z) : outcome (list Z * Z) :=
  match m with
  | [] => Ret ([], pos)
  | c :: m' => if c =? ch then '(ch, pos) ← input pos; keyword_loop m' ch pos else Ret (m', pos)
  end.

Definition json_parse_keyword (pos : Z) : parsed :=
  '(ch, pos) ← input pos;
  let keyword word v :=
    '(m, pos) ← keyword_loop (bytes_of_string word) ch pos;
    let pos := unput pos in
    match m with [] => Ret (1, Some v, pos) | _ => Ret (-1, None, pos) end in
  if ch =? 116 then keyword "true" JSON_TRUE
  else if ch =? 102 then keyword "false" JSON_FALSE
  else if ch =? 110 then keyword "null" JSON_NULL
  else Ret (0, None, unput pos).

Definition json_string_value (r : Z * option (list Z) * Z) : Z * option json_value * Z :=
  let '(ret, s, pos) := r in (ret, JSON_STRING <$> s, pos).

(** [json_parse_value] and the functions it calls that call it back. [array_loop]
    and [object_loop] are the [do] loops; [acc] holds the children so far, last
    first. Every [calloc] is taken to succeed. *)
Fixpoint json_parse_value (fuel : nat) (pos : Z) : parsed :=
  match fuel with
  | O => OutOfFuel
  | S fuel' =>
      pos ← json_skip_whitespace pos;
      let out (r : Z * option json_value * Z) :=
        let '(ret, v, pos) := r in pos ← json_skip_whitespace pos; Ret (ret, v, pos) in
      (* a result that is not 0 goes to [out], otherwise the next attempt *)
      let orelse (p : parsed) (k : Z -> parsed) :=
        r ← p; if r.1.1 =? 0 then k r.2 else out r in
      orelse (json_parse_object fuel' pos) (fun pos =>
      orelse (json_parse_array fuel' pos) (fun pos =>
      orelse (r ← json_parse_string pos; Ret (json_string_value r)) (fun pos =>
      orelse (json_parse_number pos) (fun pos =>
      orelse (json_parse_keyword pos) (fun pos =>
      Ret (-1, None, pos))))))
  end
with json_parse_array (fuel : nat) (pos : Z) : parsed :=
  match fuel with
  | O => OutOfFuel
  | S fuel' =>
      '(ch, pos) ← input pos;
      if negb (ch =? c_lbracket) then Ret (0, None, unput pos) else array_loop fuel' [] pos
  end
with array_loop (fuel : nat) (acc : list json_value) (pos : Z) : parsed :=
  match fuel with
  | O => OutOfFuel
  | S fuel' =>
      '(ret, v, pos) ← json_parse_value fuel' pos;
      match v with
      | Some v =>
          '(ch, pos) ← input pos;
          if ch =? c_rbracket then Ret (1, Some (JSON_ARRAY (reverse (v :: acc))), pos)
          else if ch =? c_comma then array_loop fuel' (v :: acc) pos
          else Ret (-1, None, pos)
      | None => Ret (-1, None, pos)
      end
  end
with json_parse_object (fuel : nat) (pos : Z) : parsed :=
  match fuel with
  | O => OutOfFuel
  | S fuel' =>
      '(ch, pos) ← input pos;
      if negb (ch =? c_lbrace) then Ret (0, None, unput pos) else object_loop fuel' [] pos
  end
with object_loop (fuel : nat) (acc : list (list Z * json_value)) (pos : Z) : parsed :=
  match fuel with
  | O => OutOfFuel
  | S fuel' =>
      '(ret, p, pos) ← json_parse_property fuel' pos;
      match p with
      | Some p =>
          '(ch, pos) ← input pos;
          if ch =? c_rbrace then Ret (1, Some (JSON_OBJECT (reverse (p :: acc))), pos)
          else if ch =? c_comma then object_loop fuel' (p :: acc) pos
          else Ret (-1, None, pos)
      | None => Ret (-1, None, pos)
      end
  end
with json_parse_property (fuel : nat) (pos : Z) : outcome (Z * option (list Z * json_value) * Z) :=
  match fuel with
  | O => OutOfFuel
  | S fuel' =>
      pos ← json_skip_whitespace pos;
      '(ret, key, pos) ← json_parse_string pos;
      match key with
      | None => Ret (-1, None, pos)
      | Some key =>
          pos ← json_skip_whitespace pos;
          '(ch, pos) ← input pos;
          if negb (ch =? c_colon) then Ret (-1, None, pos)
          else
            '(ret, v, pos) ← json_parse_value fuel' pos;
            match v with
            | Some v => Ret (1, Some (key, v), pos)
            | None => Ret (-1, None, pos)
            end
      end
  end.

End parser.

(** [json_parse(json)] on the bytes in front of the NUL, and the part of
    [json_parse_file] behind the read. *)
Definition json_parse (fuel : nat) (buf : list Z) : outcome (option json_value) :=
  '(ret, v, _) ← json_parse_value buf fuel 0;
  Ret (if ret =? 1 then v else None).

(** [json_parse_file]: [file] is [None] when it cannot be opened or read. *)
Definition json_parse_file (fuel : nat) (file : option (list Z)) : outcome (option json_value) :=
  match file with None => Ret None | Some buf => json_parse fuel buf end.

(** ** Access *)

(** The member loops, with [strcmp] on the key. *)
Fixpoint find_member (key : list Z) (ms : list (list Z * json_value)) : option json_value :=
  match ms with
  | [] => None
  | (k, v) :: ms' => if decide (k = key) then Some v else find_member key ms'
  end.

Definition json_get_child (object : json_value) (key : list Z) : option json_value :=
  match object with JSON_OBJECT ms => find_member key ms | _ => None end.

Definition json_count_children (array : option json_value) : Z :=
  match array with Some (JSON_ARRAY vs) => Z.of_nat (length vs) | _ => -1 end.

(** The return code and [*number] when it is assigned. *)
Definition json_get_number (object : option json_value) (key : list Z) : Z * option (list Z) :=
  match object with
  | Some (JSON_OBJECT ms) =>
      match find_member key ms with
      | Some (JSON_NUMBER ds) => (0, Some ds)
      | _ => (-1, None)
      end
  | _ => (-1, None)
  end.

Definition json_get_string (object : option json_value) (key : list Z) : option (list Z) :=
  match object with
  | Some (JSON_OBJECT ms) =>
      match find_member key ms with Some (JSON_STRING s) => Some s | _ => None end
  | _ => None
  end.
