(* ===== verification/JsonProofs.v ===== *)
(** * The JSON reader against a grammar

    A [jtree] is a JSON text with its white space; [ttext] prints it and
    [terase] forgets the white space.  Texts in the fragment the reader supports
    ([tok]: no escapes, short strings and numbers, no empty arrays or objects)
    are read back as the value they stand for. *)

From Stdlib Require Import ZArith Lia.
From stdpp Require Import base list numbers strings.
From S2P Require Import Prelude CLib Json.

Notation at_ l := (Z.of_nat (length l)).

(** ** Texts *)

Unset Elimination Schemes.
Inductive jtree : Type :=
| TTrue | TFalse | TNull
| TNumber (digits : list Z)
| TString (s : list Z)
| TArray (elems : list (list Z * jtree * list Z))
| TObject (members : list (list Z * list Z * list Z * (list Z * jtree * list Z))).
Set Elimination Schemes.

(** A value between white space. *)
Definition padded (text : jtree -> list Z) (x : list Z * jtree * list Z) : list Z :=
  let '(w1, t, w2) := x in w1 ++ text t ++ w2.

Definition quoted (s : list Z) : list Z := c_quote :: s ++ [c_quote].

(** Items separated by commas and closed by [close]. *)
Fixpoint items {A} (text : A -> list Z) (close : Z) (l : list A) : list Z :=
  match l with
  | [] => [close]
  | x :: l' => text x ++ match l' with [] => [close] | _ => c_comma :: items text close l' end
  end.

Fixpoint ttext (t : jtree) : list Z :=
  match t with
  | TTrue => bytes_of_string "true"
  | TFalse => bytes_of_string "false"
  | TNull => bytes_of_string "null"
  | TNumber ds => ds
  | TString s => quoted s
  | TArray l => c_lbracket :: items (padded ttext) c_rbracket l
  | TObject l =>
      c_lbrace :: items (fun m => let '(w0, k, w1, x) := m in
                                  w0 ++ quoted k ++ w1 ++ c_colon :: padded ttext x) c_rbrace l
  end.

Fixpoint terase (t : jtree) : json_value :=
  match t with
  | TTrue => JSON_TRUE
  | TFalse => JSON_FALSE
  | TNull => JSON_NULL
  | TNumber ds => JSON_NUMBER ds
  | TString s => JSON_STRING s
  | TArray l => JSON_ARRAY (map (fun x => terase x.1.2) l)
  | TObject l => JSON_OBJECT (map (fun m => (m.1.1.2, terase m.2.1.2)) l)
  end.

(** ** The supported fragment *)

Definition spaces (w : list Z) : bool := forallb isspace w.
Definition plain (s : list Z) : bool :=
  forallb (fun ch => negb (ch =? 0) && negb (ch =? c_quote)) s && (length s <=? 127)%nat.
Definition number (ds : list Z) : bool :=
  forallb isdigit ds && (0 <? length ds)%nat && (length ds <=? 19)%nat.
Definition padded_ok (ok : jtree -> bool) (x : list Z * jtree * list Z) : bool :=
  let '(w1, t, w2) := x in spaces w1 && ok t && spaces w2.

Fixpoint tok (t : jtree) : bool :=
  match t with
  | TTrue | TFalse | TNull => true
  | TNumber ds => number ds
  | TString s => plain s
  | TArray l => (0 <? length l)%nat && forallb (padded_ok tok) l
  | TObject l =>
      (0 <? length l)%nat
      && forallb (fun m => let '(w0, k, w1, x) := m in
                           spaces w0 && plain k && spaces w1 && padded_ok tok x) l
  end.

(** ** Reading *)

Section reading.
Context (buf : list Z).

(** What [unput] leaves of a read at [rest]: one step back at the end. *)
Definition fin (rest : list Z) : Z := match rest with [] => -1 | _ => 0 end.

Lemma input_at pre rest :
  buf = pre ++ rest -> input buf (at_ pre) = Ret (default 0 (head rest), at_ pre + 1 + fin rest).
Proof.
  intros ->. unfold input. rewrite length_app. destruct rest as [|c rest]; simpl.
  - destruct (Z.leb_spec (Z.of_nat (length pre + 0)) (at_ pre)); [|lia]. f_equal. f_equal. lia.
  - destruct (Z.leb_spec (Z.of_nat (length pre + S (length rest))) (at_ pre)); [lia|].
    destruct (Z.ltb_spec (at_ pre) 0); [lia|]. rewrite Nat2Z.id, list_lookup_middle by done.
    f_equal. f_equal. lia.
Qed.

Definition no_space (rest : list Z) : Prop := isspace (default 0 (head rest)) = false.

Lemma skip_at w : forall pre rest n,
  buf = pre ++ w ++ rest -> spaces w = true -> no_space rest -> (length w < n)%nat ->
  skip_loop buf n (at_ pre) = Ret (at_ pre + at_ w + 1 + fin rest).
Proof.
  induction w as [|c w IH]; intros pre rest n Hb Hw Hr Hn; (destruct n as [|n]; [lia|]); cbn [skip_loop].
  - rewrite (input_at pre rest Hb). cbn [mbind outcome_bind]. rewrite Hr, andb_false_r. simpl. f_equal. lia.
  - rewrite (input_at pre ((c :: w) ++ rest) Hb). cbn [mbind outcome_bind].
    change (default 0 (head ((c :: w) ++ rest))) with c. change (fin ((c :: w) ++ rest)) with 0.
    simpl in Hw. apply andb_true_iff in Hw as [Hc Hw]. rewrite Hc.
    destruct (Z.eqb_spec c 0); [by subst|]. cbn [negb andb].
    replace (at_ pre + 1 + 0) with (at_ (pre ++ [c])) by (rewrite length_app; simpl; lia).
    rewrite (IH (pre ++ [c]) rest n); try done; [|by rewrite Hb, <- app_assoc|simpl in Hn; lia].
    f_equal. rewrite length_app. simpl. lia.
Qed.

Lemma json_skip_at pre w rest :
  buf = pre ++ w ++ rest -> spaces w = true -> no_space rest ->
  json_skip_whitespace buf (at_ pre) = Ret (at_ (pre ++ w) + fin rest).
Proof.
  intros Hb Hw Hr. unfold json_skip_whitespace, loop_fuel.
  rewrite (skip_at w pre rest); try done; [|rewrite Hb, !length_app; lia].
  cbn [mbind outcome_bind]. unfold unput. rewrite length_app. f_equal. lia.
Qed.

Lemma fill_at more bs : forall room pre rest n,
  buf = pre ++ bs ++ rest -> forallb (fun c => negb (c =? 0) && more c) bs = true ->
  (length bs <= room)%nat ->
  negb (default 0 (head rest) =? 0) && more (default 0 (head rest)) = false -> (length bs < n)%nat ->
  fill_loop buf more room n (at_ pre) = Ret (bs, default 0 (head rest), at_ pre + at_ bs + 1 + fin rest).
Proof.
  induction bs as [|b bs IH]; intros room pre rest n Hb Hbs Hroom Hend Hn;
    (destruct n as [|n]; [lia|]); cbn [fill_loop].
  - rewrite (input_at pre rest Hb). cbn [mbind outcome_bind]. rewrite Hend.
    replace (at_ pre + at_ [] + 1 + fin rest) with (at_ pre + 1 + fin rest) by (simpl; lia).
    by destruct room.
  - rewrite (input_at pre ((b :: bs) ++ rest) Hb). cbn [mbind outcome_bind].
    change (default 0 (head ((b :: bs) ++ rest))) with b. change (fin ((b :: bs) ++ rest)) with 0.
    simpl in Hbs. apply andb_true_iff in Hbs as [Hc Hbs]. rewrite Hc.
    simpl in Hroom. destruct room as [|room]; [lia|].
    replace (at_ pre + 1 + 0) with (at_ (pre ++ [b])) by (rewrite length_app; simpl; lia).
    rewrite (IH room (pre ++ [b]) rest n); try done; [|by rewrite Hb, <- app_assoc|lia|simpl in Hn; lia].
    cbn [mbind outcome_bind]. f_equal. f_equal. rewrite length_app. simpl. lia.
Qed.

(** ** Tokens *)

Lemma input_cons pre c rest : buf = pre ++ c :: rest -> input buf (at_ pre) = Ret (c, at_ (pre ++ [c])).
Proof. intros Hb. rewrite (input_at pre (c :: rest) Hb). simpl. rewrite length_app. simpl. do 2 f_equal. lia. Qed.

Lemma unput_snoc (pre : list Z) (c : Z) : unput (at_ (pre ++ [c])) = at_ pre.
Proof. unfold unput. rewrite length_app. simpl. lia. Qed.

Lemma fin_cons c rest : fin (c :: rest) = 0.
Proof. done. Qed.

Lemma string_at pre s rest :
  buf = pre ++ quoted s ++ rest -> plain s = true ->
  json_parse_string buf (at_ pre) = Ret (1, Some s, at_ (pre ++ quoted s)).
Proof.
  intros Hb Hs. apply andb_true_iff in Hs as [Hs Hl]. apply Nat.leb_le in Hl.
  unfold quoted in *. unfold json_parse_string.
  rewrite (input_cons pre c_quote ((s ++ [c_quote]) ++ rest)) by done. cbn [mbind outcome_bind].
  change (negb (c_quote =? c_quote)) with false. cbv iota.
  rewrite (fill_at _ s 127 (pre ++ [c_quote]) (c_quote :: rest)); try done.
  - cbn [mbind outcome_bind]. change (default 0 (head (c_quote :: rest))) with c_quote.
    change (c_quote =? 0) with false. cbv iota. do 2 f_equal. rewrite !length_app. simpl.
    rewrite length_app. simpl. lia.
  - rewrite Hb. simpl. by rewrite <- !app_assoc.
  - unfold loop_fuel. rewrite Hb. rewrite !length_app. simpl. rewrite !length_app. lia.
Qed.

Lemma not_string_at pre c rest :
  buf = pre ++ c :: rest -> c <> c_quote -> json_parse_string buf (at_ pre) = Ret (0, None, at_ pre).
Proof.
  intros Hb Hc. unfold json_parse_string. rewrite (input_cons pre c rest Hb). cbn [mbind outcome_bind].
  destruct (Z.eqb_spec c c_quote); [done|]. cbn [negb]. by rewrite unput_snoc.
Qed.

Lemma number_at pre ds rest :
  buf = pre ++ ds ++ rest -> number ds = true -> isdigit (default 0 (head rest)) = false ->
  json_parse_number buf (at_ pre) = Ret (1, Some (JSON_NUMBER ds), at_ (pre ++ ds) + fin rest).
Proof.
  intros Hb Hd Hr. unfold number in Hd. apply andb_true_iff in Hd as [Hd Hl2].
  apply andb_true_iff in Hd as [Hd Hl1]. apply Nat.ltb_lt in Hl1. apply Nat.leb_le in Hl2.
  unfold json_parse_number. rewrite (fill_at isdigit ds 19 pre rest); try done.
  - cbn [mbind outcome_bind]. unfold unput. rewrite length_app. destruct ds; [simpl in Hl1; lia|].
    do 2 f_equal. lia.
  - rewrite forallb_forall in Hd |- *. intros x Hx. rewrite (Hd x Hx), andb_true_r.
    specialize (Hd x Hx). destruct (Z.eqb_spec x 0); [by subst|done].
  - by rewrite Hr, andb_false_r.
  - unfold loop_fuel. rewrite Hb, !length_app. lia.
Qed.

Lemma not_number_at pre c rest :
  buf = pre ++ c :: rest -> isdigit c = false -> json_parse_number buf (at_ pre) = Ret (0, None, at_ pre).
Proof.
  intros Hb Hc. unfold json_parse_number. rewrite (fill_at isdigit [] 19 pre (c :: rest)).
  - cbn [mbind outcome_bind]. unfold unput. simpl. do 2 f_equal. lia.
  - done.
  - done.
  - simpl. lia.
  - simpl. by rewrite Hc, andb_false_r.
  - unfold loop_fuel. simpl. lia.
Qed.

Lemma keyword_loop_same c m pos :
  keyword_loop buf (c :: m) c pos = ('(ch, pos) ← input buf pos; keyword_loop buf m ch pos).
Proof. cbn [keyword_loop]. by rewrite Z.eqb_refl. Qed.

Lemma keyword_loop_at m : forall pre c rest,
  buf = pre ++ (c :: m) ++ rest ->
  keyword_loop buf (c :: m) c (at_ (pre ++ [c])) = Ret ([], at_ (pre ++ c :: m) + 1 + fin rest).
Proof.
  induction m as [|c' m IH]; intros pre c rest Hb; rewrite keyword_loop_same.
  - rewrite (input_at (pre ++ [c]) rest) by (by rewrite Hb, <- app_assoc). done.
  - assert (buf = (pre ++ [c]) ++ (c' :: m) ++ rest) as Hb' by (by rewrite Hb, <- app_assoc).
    rewrite (input_cons (pre ++ [c]) c' (m ++ rest)) by done. cbn [mbind outcome_bind].
    rewrite (IH (pre ++ [c]) c' rest Hb'). rewrite <- app_assoc. done.
Qed.

Definition is_keyword (t : jtree) : bool := match t with TTrue | TFalse | TNull => true | _ => false end.

Lemma keyword_at pre t rest :
  is_keyword t = true -> buf = pre ++ ttext t ++ rest ->
  json_parse_keyword buf (at_ pre) = Ret (1, Some (terase t), at_ (pre ++ ttext t) + fin rest).
Proof.
  intros Ht Hb. unfold json_parse_keyword.
  assert (forall c m w, ttext t = c :: m -> w = c :: m ->
    ('(m', pos) ← keyword_loop buf w c (at_ (pre ++ [c]));
     let pos := unput pos in
     match m' with [] => Ret (1, Some (terase t), pos) | _ => Ret (-1, None, pos) end)
    = Ret (1, Some (terase t), at_ (pre ++ ttext t) + fin rest)) as Hword.
  { intros c m w Hw ->. rewrite Hw in *. rewrite (keyword_loop_at m pre c rest Hb). cbn [mbind outcome_bind].
    unfold unput. do 2 f_equal. lia. }
  destruct t; try done.
  - rewrite (input_cons pre 116 ([114; 117; 101] ++ rest) Hb). by apply (Hword 116 [114; 117; 101]).
  - rewrite (input_cons pre 102 ([97; 108; 115; 101] ++ rest) Hb). by apply (Hword 102 [97; 108; 115; 101]).
  - rewrite (input_cons pre 110 ([117; 108; 108] ++ rest) Hb). by apply (Hword 110 [117; 108; 108]).
Qed.

(** ** Values *)

(** A value between white space in front of [rest]; [fuel] units are enough. *)
Definition reads (fuel : nat) (x : list Z * jtree * list Z) : Prop :=
  forall pre rest, buf = pre ++ padded ttext x ++ rest -> no_space rest ->
    isdigit (default 0 (head rest)) = false ->
    json_parse_value buf fuel (at_ pre) = Ret (1, Some (terase x.1.2), at_ (pre ++ padded ttext x) + fin rest).

(** Skipping white space behind a token that ended at the character in front of
    it, and behind one that gave a character back. *)
Lemma skip_behind pre w rest :
  buf = pre ++ w ++ rest -> spaces w = true -> no_space rest -> no_space [default 0 (last pre)] -> pre <> [] ->
  json_skip_whitespace buf (at_ pre + fin (w ++ rest)) = Ret (at_ (pre ++ w) + fin rest).
Proof.
  intros Hb Hw Hr Hl Hp. destruct (w ++ rest) as [|c r] eqn:E.
  - apply app_eq_nil in E as [-> ->]. destruct pre as [|c pre _] using rev_ind; [done|].
    rewrite last_snoc in Hl. cbn [fin]. replace (at_ (pre ++ [c]) + -1) with (at_ pre) by (rewrite length_app; simpl; lia).
    rewrite (json_skip_at pre [] [c]); try done; [|by rewrite Hb, app_nil_r].
    f_equal. rewrite !app_nil_r, length_app. simpl. lia.
  - rewrite fin_cons, Z.add_0_r. rewrite (json_skip_at pre w rest) by (done || by rewrite Hb, E). done.
Qed.

Lemma not_object_at fuel pre c rest :
  buf = pre ++ c :: rest -> c <> c_lbrace -> (0 < fuel)%nat ->
  json_parse_object buf fuel (at_ pre) = Ret (0, None, at_ pre).
Proof.
  intros Hb Hc Hf. destruct fuel as [|fuel]; [lia|]. cbn [json_parse_object].
  rewrite (input_cons pre c rest Hb). cbn [mbind outcome_bind].
  destruct (Z.eqb_spec c c_lbrace); [done|]. cbn [negb]. by rewrite unput_snoc.
Qed.

Lemma not_array_at fuel pre c rest :
  buf = pre ++ c :: rest -> c <> c_lbracket -> (0 < fuel)%nat ->
  json_parse_array buf fuel (at_ pre) = Ret (0, None, at_ pre).
Proof.
  intros Hb Hc Hf. destruct fuel as [|fuel]; [lia|]. cbn [json_parse_array].
  rewrite (input_cons pre c rest Hb). cbn [mbind outcome_bind].
  destruct (Z.eqb_spec c c_lbracket); [done|]. cbn [negb]. by rewrite unput_snoc.
Qed.

(** The attempts of [json_parse_value] at a character, up to the one for [t]. *)
Definition attempt (fuel : nat) (t : jtree) (pos : Z) : parsed :=
  match t with
  | TTrue | TFalse | TNull => json_parse_keyword buf pos
  | TNumber _ => json_parse_number buf pos
  | TString _ => r ← json_parse_string buf pos; Ret (json_string_value r)
  | TArray _ => json_parse_array buf fuel pos
  | TObject _ => json_parse_object buf fuel pos
  end.

Lemma digit_first c : isdigit c = true -> c <> c_lbrace /\ c <> c_lbracket /\ c <> c_quote /\ isspace c = false.
Proof.
  unfold isdigit, isspace, c_lbrace, c_lbracket, c_quote. rewrite andb_true_iff, !Z.leb_le. intros Hc.
  split_and!; lia.
Qed.

(** The characters a text begins and ends with. *)
Lemma ttext_ends t : tok t = true -> exists c m, ttext t = c :: m /\ isspace c = false
  /\ no_space [default 0 (last (ttext t))].
Proof.
  assert (forall {A} (f : A -> list Z) close l, (0 < length l)%nat -> last (items f close l) = Some close) as Hitems.
  { intros A f close l. induction l as [|x l IH]; intros Hl; [simpl in Hl; lia|]. cbn [items].
    destruct l as [|y l]; [by rewrite last_snoc|]. rewrite last_app. rewrite last_cons, IH by (simpl; lia). done. }
  destruct t; intros Ht; try (by eexists _, _).
  - cbn [ttext tok] in *. apply andb_true_iff in Ht as [Ht _]. apply andb_true_iff in Ht as [Hd Hl].
    apply Nat.ltb_lt in Hl. rewrite forallb_forall in Hd.
    destruct digits as [|c m]; [simpl in Hl; lia|]. exists c, m. split; [done|]. split.
    + apply digit_first, Hd. by left.
    + destruct (last (c :: m)) as [x|] eqn:E; [|by apply last_None in E].
      apply digit_first, Hd. apply list_elem_of_In. by eapply last_Some_elem_of.
  - eexists _, _. split; [done|]. split; [done|]. cbn [ttext]. unfold quoted.
    by rewrite app_comm_cons, last_snoc.
  - eexists _, _. split; [done|]. split; [done|]. cbn [ttext tok] in *.
    apply andb_true_iff in Ht as [Hl _]. apply Nat.ltb_lt in Hl. rewrite last_cons, Hitems by done. done.
  - eexists _, _. split; [done|]. split; [done|]. cbn [ttext tok] in *.
    apply andb_true_iff in Ht as [Hl _]. apply Nat.ltb_lt in Hl. rewrite last_cons, Hitems by done. done.
Qed.

(** The first character decides which attempts fail. *)
Lemma ttext_first t c m : tok t = true -> ttext t = c :: m ->
  (match t with TObject _ => True | _ => c <> c_lbrace end)
  /\ (match t with TObject _ | TArray _ => True | _ => c <> c_lbracket end)
  /\ (match t with TObject _ | TArray _ | TString _ => True | _ => c <> c_quote end)
  /\ (match t with TTrue | TFalse | TNull => isdigit c = false | _ => True end).
Proof.
  intros Ht Hc. destruct t; cbn [ttext] in Hc; try (injection Hc as <- _; by split_and!).
  cbn [tok] in Ht. apply andb_true_iff in Ht as [Ht _]. apply andb_true_iff in Ht as [Hd _].
  rewrite Hc in Hd. simpl in Hd. apply andb_true_iff in Hd as [Hd _].
  destruct (digit_first c Hd) as (? & ? & ? & _). done.
Qed.

Lemma value_of_attempt fuel pre w1 t w2 rest p :
  buf = (pre ++ w1) ++ ttext t ++ w2 ++ rest -> spaces w1 = true -> tok t = true -> spaces w2 = true ->
  no_space rest -> (0 < fuel)%nat ->
  attempt fuel t (at_ (pre ++ w1)) = Ret (1, Some (terase t), p) ->
  p = at_ ((pre ++ w1) ++ ttext t) \/ p = at_ ((pre ++ w1) ++ ttext t) + fin (w2 ++ rest) ->
  json_parse_value buf (S fuel) (at_ pre)
  = Ret (1, Some (terase t), at_ (((pre ++ w1) ++ ttext t) ++ w2) + fin rest).
Proof.
  intros Hb Hw1 Ht Hw2 Hr Hf Ha Hp. destruct (ttext_ends t Ht) as (c & m & Hc & Hsp & Hlast).
  destruct (ttext_first t c m Ht Hc) as (H1 & H2 & H3 & H4).
  assert (buf = (pre ++ w1) ++ c :: m ++ w2 ++ rest) as Hb' by (by rewrite Hb, Hc).
  cbn [json_parse_value].
  rewrite (json_skip_at pre w1 (c :: m ++ w2 ++ rest)); [|by rewrite Hb', <- app_assoc|done|done].
  rewrite fin_cons, Z.add_0_r. cbn [mbind outcome_bind].
  assert (json_skip_whitespace buf p = Ret (at_ (((pre ++ w1) ++ ttext t) ++ w2) + fin rest)) as Hout.
  { assert (buf = ((pre ++ w1) ++ ttext t) ++ w2 ++ rest) as Hb2 by (by rewrite Hb, <- !app_assoc).
    destruct Hp as [-> | ->]; [by apply json_skip_at|]. apply skip_behind; try done.
    - rewrite last_app. destruct (last (ttext t)) eqn:E; [done|]. apply last_None in E. by rewrite Hc in E.
    - rewrite Hc. by destruct (pre ++ w1). }
  destruct t; cbn [attempt terase] in *; cbv zeta.
  1-3: rewrite (not_object_at fuel _ c _ Hb') by done; cbn [mbind outcome_bind fst snd Z.eqb];
    rewrite (not_array_at fuel _ c _ Hb') by done; cbn [mbind outcome_bind fst snd Z.eqb];
    rewrite (not_string_at _ c _ Hb') by done; cbn [mbind outcome_bind json_string_value fst snd Z.eqb];
    rewrite (not_number_at _ c _ Hb') by done; cbn [mbind outcome_bind fst snd Z.eqb];
    rewrite Ha; cbn [mbind outcome_bind fst snd Z.eqb]; by rewrite Hout.
  all: try (rewrite (not_object_at fuel _ c _ Hb') by done; cbn [mbind outcome_bind fst snd Z.eqb]).
  all: try (rewrite (not_array_at fuel _ c _ Hb') by done; cbn [mbind outcome_bind fst snd Z.eqb]).
  all: try (rewrite (not_string_at _ c _ Hb') by done; cbn [mbind outcome_bind json_string_value fst snd Z.eqb]).
  all: rewrite Ha; cbn [mbind outcome_bind fst snd Z.eqb]; by rewrite Hout.
Qed.

(** ** Arrays and objects *)

Definition reads_later (x : list Z * jtree * list Z) : Prop :=
  forall fuel, (3 * length (ttext x.1.2) <= fuel)%nat -> reads fuel x.

(** An item in front of its separator. *)
Lemma item_value fuel pre x sep rest :
  reads_later x -> (3 * length (ttext x.1.2) <= fuel)%nat ->
  buf = pre ++ padded ttext x ++ sep :: rest -> isspace sep = false -> isdigit sep = false ->
  json_parse_value buf fuel (at_ pre) = Ret (1, Some (terase x.1.2), at_ (pre ++ padded ttext x)).
Proof.
  intros Hx Hf Hb Hs Hd. rewrite (Hx fuel Hf pre (sep :: rest) Hb Hs Hd). by rewrite fin_cons, Z.add_0_r.
Qed.

Lemma length_padded x : (length (ttext x.1.2) <= length (padded ttext x))%nat.
Proof. destruct x as [[w1 t] w2]. simpl. rewrite !length_app. lia. Qed.

Lemma array_loop_at l : forall acc pre rest fuel,
  l <> [] -> buf = pre ++ items (padded ttext) c_rbracket l ++ rest -> Forall reads_later l ->
  (3 * length (items (padded ttext) c_rbracket l) <= fuel)%nat ->
  array_loop buf fuel acc (at_ pre)
  = Ret (1, Some (JSON_ARRAY (reverse acc ++ map (fun x => terase x.1.2) l)),
         at_ (pre ++ items (padded ttext) c_rbracket l)).
Proof.
  induction l as [|x l IH]; intros acc pre rest fuel Hl Hb Hall Hf; [done|].
  apply list.Forall_cons in Hall as [Hx Hall]. pose proof (length_padded x) as Hlen.
  cbn [items] in *. rewrite length_app in Hf.
  destruct fuel as [|fuel]; [destruct l; simpl in Hf; lia|]. cbn [array_loop].
  destruct l as [|y l].
  - rewrite (item_value fuel pre x c_rbracket rest Hx); [|simpl in Hf; lia|by rewrite Hb, <- app_assoc|done|done].
    cbn [mbind outcome_bind].
    rewrite (input_cons (pre ++ padded ttext x) c_rbracket rest) by (by rewrite Hb, <- !app_assoc).
    cbn [mbind outcome_bind]. change (c_rbracket =? c_rbracket) with true. cbv iota.
    rewrite reverse_cons. by rewrite <- app_assoc.
  - rewrite (item_value fuel pre x c_comma (items (padded ttext) c_rbracket (y :: l) ++ rest) Hx);
      [|simpl in Hf; lia|by rewrite Hb, <- app_assoc|done|done].
    cbn [mbind outcome_bind].
    rewrite (input_cons (pre ++ padded ttext x) c_comma (items (padded ttext) c_rbracket (y :: l) ++ rest))
      by (by rewrite Hb, <- !app_assoc).
    cbn [mbind outcome_bind]. change (c_comma =? c_rbracket) with false.
    change (c_comma =? c_comma) with true. cbv iota.
    rewrite (IH _ _ rest); try done;
      [|by rewrite Hb, <- !app_assoc|change (length (c_comma :: ?q)) with (S (length q)) in Hf; lia].
    rewrite reverse_cons, <- !app_assoc. done.
Qed.

Definition member_text (m : list Z * list Z * list Z * (list Z * jtree * list Z)) : list Z :=
  let '(w0, k, w1, x) := m in w0 ++ quoted k ++ w1 ++ c_colon :: padded ttext x.

Definition member_reads (m : list Z * list Z * list Z * (list Z * jtree * list Z)) : Prop :=
  let '(w0, k, w1, x) := m in
  spaces w0 = true /\ plain k = true /\ spaces w1 = true /\ reads_later x.

Lemma member_at fuel pre m sep rest :
  member_reads m -> (3 * length (member_text m) <= fuel)%nat ->
  buf = pre ++ member_text m ++ sep :: rest -> isspace sep = false -> isdigit sep = false ->
  json_parse_property buf fuel (at_ pre)
  = Ret (1, Some (m.1.1.2, terase m.2.1.2), at_ (pre ++ member_text m)).
Proof.
  destruct m as [[[w0 k] w1] x]. intros (Hw0 & Hk & Hw1 & Hx) Hf Hb Hs Hd. cbn [member_text fst snd] in *.
  pose proof (length_padded x) as Hlen. rewrite !length_app in Hf. unfold quoted in Hf at 1. simpl in Hf.
  destruct fuel as [|fuel]; [lia|]. cbn [json_parse_property].
  rewrite (json_skip_at pre w0 ((quoted k ++ w1 ++ c_colon :: padded ttext x) ++ sep :: rest));
    [|by rewrite Hb, <- !app_assoc|done|done].
  change (fin ((quoted k ++ w1 ++ c_colon :: padded ttext x) ++ sep :: rest)) with 0. rewrite Z.add_0_r.
  cbn [mbind outcome_bind].
  rewrite (string_at (pre ++ w0) k ((w1 ++ c_colon :: padded ttext x) ++ sep :: rest));
    [|by rewrite Hb, <- !app_assoc|done].
  cbn [mbind outcome_bind].
  rewrite (json_skip_at ((pre ++ w0) ++ quoted k) w1 (c_colon :: padded ttext x ++ sep :: rest));
    [|rewrite Hb; by rewrite <- !app_assoc|done|done].
  rewrite fin_cons, Z.add_0_r. cbn [mbind outcome_bind].
  rewrite (input_cons (((pre ++ w0) ++ quoted k) ++ w1) c_colon (padded ttext x ++ sep :: rest))
    by (rewrite Hb; by rewrite <- !app_assoc).
  cbn [mbind outcome_bind]. change (negb (c_colon =? c_colon)) with false. cbv iota.
  rewrite (item_value fuel _ x sep rest Hx); [|lia|rewrite Hb; by rewrite <- !app_assoc|done|done].
  cbn [mbind outcome_bind]. do 2 f_equal. rewrite <- !app_assoc. done.
Qed.

Lemma object_loop_at l : forall acc pre rest fuel,
  l <> [] -> buf = pre ++ items member_text c_rbrace l ++ rest -> Forall member_reads l ->
  (3 * length (items member_text c_rbrace l) <= fuel)%nat ->
  object_loop buf fuel acc (at_ pre)
  = Ret (1, Some (JSON_OBJECT (reverse acc ++ map (fun m => (m.1.1.2, terase m.2.1.2)) l)),
         at_ (pre ++ items member_text c_rbrace l)).
Proof.
  induction l as [|m l IH]; intros acc pre rest fuel Hl Hb Hall Hf; [done|].
  apply list.Forall_cons in Hall as [Hm Hall].
  cbn [items] in *. rewrite length_app in Hf.
  destruct fuel as [|fuel]; [destruct l; simpl in Hf; lia|]. cbn [object_loop].
  destruct l as [|y l].
  - rewrite (member_at fuel pre m c_rbrace rest Hm); [|simpl in Hf; lia|by rewrite Hb, <- app_assoc|done|done].
    cbn [mbind outcome_bind].
    rewrite (input_cons (pre ++ member_text m) c_rbrace rest) by (by rewrite Hb, <- !app_assoc).
    cbn [mbind outcome_bind]. change (c_rbrace =? c_rbrace) with true. cbv iota.
    rewrite reverse_cons. by rewrite <- app_assoc.
  - rewrite (member_at fuel pre m c_comma (items member_text c_rbrace (y :: l) ++ rest) Hm);
      [|simpl in Hf; lia|by rewrite Hb, <- app_assoc|done|done].
    cbn [mbind outcome_bind].
    rewrite (input_cons (pre ++ member_text m) c_comma (items member_text c_rbrace (y :: l) ++ rest))
      by (by rewrite Hb, <- !app_assoc).
    cbn [mbind outcome_bind]. change (c_comma =? c_rbrace) with false.
    change (c_comma =? c_comma) with true. cbv iota.
    rewrite (IH _ _ rest); try done;
      [|by rewrite Hb, <- !app_assoc|change (length (c_comma :: ?q)) with (S (length q)) in Hf; lia].
    rewrite reverse_cons, <- !app_assoc. done.
Qed.

Lemma items_elem {A} (f : A -> list Z) close l x :
  x ∈ l -> (length (f x) < length (items f close l))%nat.
Proof.
  induction 1 as [x l|x y l Hin IH]; cbn [items]; rewrite length_app.
  - destruct l; simpl; lia.
  - destruct l; [by apply not_elem_of_nil in Hin|]. simpl in *. lia.
Qed.

Lemma value_attempt fuel pre t w2 rest :
  tok t = true -> spaces w2 = true -> isdigit (default 0 (head rest)) = false ->
  buf = pre ++ ttext t ++ w2 ++ rest ->
  (3 * length (ttext t) <= S fuel)%nat ->
  (match t with TArray l => Forall reads_later l | TObject l => Forall member_reads l | _ => True end) ->
  exists p, attempt fuel t (at_ pre) = Ret (1, Some (terase t), p)
    /\ (p = at_ (pre ++ ttext t) \/ p = at_ (pre ++ ttext t) + fin (w2 ++ rest)).
Proof.
  intros Ht Hw2 Hd Hb Hf Hsub. assert (isdigit (default 0 (head (w2 ++ rest))) = false) as Hd2.
  { destruct w2 as [|c w2]; [done|]. simpl in *. apply andb_true_iff in Hw2 as [Hc _].
    destruct (isdigit c) eqn:E; [|done]. apply digit_first in E as (_ & _ & _ & E). congruence. }
  destruct t; cbn [attempt terase].
  1: eexists; split; [by apply (keyword_at pre TTrue)|by right].
  1: eexists; split; [by apply (keyword_at pre TFalse)|by right].
  1: eexists; split; [by apply (keyword_at pre TNull)|by right].
  - eexists. split; [by apply number_at|by right].
  - cbn [ttext tok] in *. rewrite (string_at _ _ _ Hb Ht). cbn [mbind outcome_bind].
    eexists. split; [done|by left].
  - cbn [ttext tok length] in *. apply andb_true_iff in Ht as [Hl _]. apply Nat.ltb_lt in Hl.
    destruct fuel as [|fuel]; [lia|]. cbn [json_parse_array].
    rewrite (input_cons pre c_lbracket (items (padded ttext) c_rbracket elems ++ w2 ++ rest)) by done.
    cbn [mbind outcome_bind]. change (negb (c_lbracket =? c_lbracket)) with false. cbv iota.
    rewrite (array_loop_at elems [] _ (w2 ++ rest)); try done;
      [|intros ->; simpl in Hl; lia|by rewrite Hb, <- app_assoc|lia].
    eexists. split; [done|left]. by rewrite <- app_assoc.
  - cbn [ttext tok length] in *. apply andb_true_iff in Ht as [Hl _]. apply Nat.ltb_lt in Hl.
    fold member_text in *. destruct fuel as [|fuel]; [lia|]. cbn [json_parse_object].
    rewrite (input_cons pre c_lbrace (items member_text c_rbrace members ++ w2 ++ rest)) by done.
    cbn [mbind outcome_bind]. change (negb (c_lbrace =? c_lbrace)) with false. cbv iota.
    rewrite (object_loop_at members [] _ (w2 ++ rest)); try done;
      [|intros ->; simpl in Hl; lia|by rewrite Hb, <- app_assoc|change (items _ c_rbrace members) with (items member_text c_rbrace members) in Hf; lia].
    eexists. split; [done|left]. by rewrite <- app_assoc.
Qed.

Lemma value_reads n : forall x,
  (length (ttext x.1.2) <= n)%nat -> padded_ok tok x = true -> reads_later x.
Proof.
  induction n as [|n IH]; intros [[w1 t] w2] Hn Hok; cbn [fst snd padded_ok] in *;
    apply andb_true_iff in Hok as [Hok Hw2]; apply andb_true_iff in Hok as [Hw1 Ht];
    destruct (ttext_ends t Ht) as (c & m & Hc & _ & _).
  { rewrite Hc in Hn. simpl in Hn. lia. }
  intros fuel Hf pre rest Hb Hr Hd. cbn [fst snd padded] in *.
  destruct fuel as [|fuel]; [rewrite Hc in Hf; simpl in Hf; lia|].
  assert (buf = (pre ++ w1) ++ ttext t ++ w2 ++ rest) as Hb' by (rewrite Hb; by rewrite <- !app_assoc).
  destruct (value_attempt fuel (pre ++ w1) t w2 rest) as (p & Ha & Hp); try done.
  { destruct t as [| | | | |l|l]; try done; cbn [tok ttext length] in *;
      apply andb_true_iff in Ht as [_ Ht]; rewrite forallb_forall in Ht; apply Forall_forall; intros x Hx.
    - apply IH; [|by apply Ht, list_elem_of_In].
      pose proof (items_elem (padded ttext) c_rbracket l x Hx). pose proof (length_padded x). lia.
    - specialize (Ht x (proj1 (list_elem_of_In _ _) Hx)). destruct x as [[[w0 k] w3] x].
      apply andb_true_iff in Ht as [Ht Hx3]. apply andb_true_iff in Ht as [Ht Hw3].
      apply andb_true_iff in Ht as [Hw0 Hk]. split_and!; try done. apply IH; [|done].
      pose proof (items_elem member_text c_rbrace l (w0, k, w3, x) Hx) as Hlt. cbn [member_text] in Hlt.
      pose proof (length_padded x). rewrite !length_app in Hlt. simpl in Hlt.
      change (items _ c_rbrace l) with (items member_text c_rbrace l) in Hn. lia. }
  rewrite (value_of_attempt fuel pre w1 t w2 rest p); try done; [by rewrite <- !app_assoc|].
  rewrite Hc in Hf. simpl in Hf. lia.
Qed.
End reading.

(** ** Whole texts *)

Lemma parse_text w1 t w2 fuel :
  padded_ok tok (w1, t, w2) = true -> (3 * length (ttext t) <= fuel)%nat ->
  json_parse fuel (padded ttext (w1, t, w2)) = Ret (Some (terase t)).
Proof.
  intros Hok Hf. unfold json_parse.
  pose proof (value_reads (padded ttext (w1, t, w2)) (length (ttext t)) (w1, t, w2) (Nat.le_refl _) Hok
    fuel Hf [] []) as Hr.
  change (at_ (@nil Z)) with 0 in Hr. rewrite Hr; [done|by rewrite app_nil_r|done|done].
Qed.
