(* ===== verification/JsonHeap.v ===== *)
(** * The memory of the JSON reader (src/qcom/pd-mapper/json.c)

    Json has the reader as a function to values.  Here it builds them, as the
    code does, from blocks that [calloc] and [strdup] give, linked through
    [next], and [json_free] gives them back.  The reader on blocks does what the
    function does, and freeing what it built frees every block it took but the
    text of the file. *)

From Stdlib Require Import ZArith Lia.
From stdpp Require Import base gmap list numbers strings.
From S2P Require Import Prelude CLib Json.

(** ** Blocks

    [u] is the union: zero from [calloc], a number, or a pointer to a string or to
    the first child. *)

Inductive jtype : Type :=
| TYPE_UNKNOWN | TYPE_TRUE | TYPE_FALSE | TYPE_NULL | TYPE_NUMBER | TYPE_STRING | TYPE_ARRAY | TYPE_OBJECT.

Inductive junion : Type := U_zero | U_number (digits : list Z) | U_ptr (p : Z).

Record jnode : Type := MkNode { n_key : Z; n_type : jtype; n_u : junion; n_next : Z }.

Inductive jblock : Type := Node (n : jnode) | Chars (s : list Z).

(** The allocator gives addresses in order and none twice; 0 is NULL. *)
Record jmem : Type := MkMem { blocks : gmap Z jblock; brk : Z }.

Definition alloc (b : jblock) (m : jmem) : Z * jmem := (brk m, MkMem (<[brk m := b]> (blocks m)) (brk m + 1)).
Definition calloc_node (m : jmem) : Z * jmem := alloc (Node (MkNode 0 TYPE_UNKNOWN U_zero 0)) m.

Definition free (p : Z) (m : jmem) : outcome jmem :=
  if p =? 0 then Ret m
  else match blocks m !! p with Some _ => Ret (MkMem (delete p (blocks m)) (brk m)) | None => Fault end.

Definition node_at (p : Z) (m : jmem) : outcome jnode :=
  match blocks m !! p with Some (Node n) => Ret n | _ => Fault end.
Definition update_node (p : Z) (f : jnode -> jnode) (m : jmem) : outcome jmem :=
  n ← node_at p m; Ret (MkMem (<[p := Node (f n)]> (blocks m)) (brk m)).

Definition set_value (ty : jtype) (u : junion) (n : jnode) : jnode := MkNode (n_key n) ty u (n_next n).
Definition set_type (ty : jtype) (n : jnode) : jnode := set_value ty (n_u n) n.
Definition set_u (u : junion) (n : jnode) : jnode := set_value (n_type n) u n.
Definition set_key (k : Z) (n : jnode) : jnode := MkNode k (n_type n) (n_u n) (n_next n).
Definition set_nextp (p : Z) (n : jnode) : jnode := MkNode (n_key n) (n_type n) (n_u n) p.

(** The union read as a pointer. *)
Definition u_ptr (u : junion) : outcome Z := match u with U_zero => Ret 0 | U_ptr p => Ret p | U_number _ => Fault end.

(** ** The reader on blocks *)

Section parser.
Context (input_buf : list Z).

(** The return code, the position and the memory. *)
Definition hparsed : Type := outcome (Z * Z * jmem).

Definition heap_parse_string (p pos : Z) (m : jmem) : hparsed :=
  '(ret, s, pos) ← json_parse_string input_buf pos;
  match s with
  | Some bs => let (q, m) := alloc (Chars bs) m in m ← update_node p (set_value TYPE_STRING (U_ptr q)) m; Ret (ret, pos, m)
  | None => Ret (ret, pos, m)
  end.

Definition heap_parse_number (p pos : Z) (m : jmem) : hparsed :=
  '(bs, _, pos) ← fill_loop input_buf isdigit 19 (loop_fuel input_buf) pos;
  let pos := unput pos in
  match bs with
  | [] => Ret (0, pos, m)
  | _ => m ← update_node p (set_value TYPE_NUMBER (U_number bs)) m; Ret (1, pos, m)
  end.

(** The type is set before the word is compared. *)
Definition heap_parse_keyword (p pos : Z) (m : jmem) : hparsed :=
  '(ch, pos) ← input input_buf pos;
  let keyword word ty :=
    m ← update_node p (set_type ty) m;
    '(rest, pos) ← keyword_loop input_buf (bytes_of_string word) ch pos;
    let pos := unput pos in
    match rest with [] => Ret (1, pos, m) | _ => Ret (-1, pos, m) end in
  if ch =? 116 then keyword "true" TYPE_TRUE
  else if ch =? 102 then keyword "false" TYPE_FALSE
  else if ch =? 110 then keyword "null" TYPE_NULL
  else Ret (0, unput pos, m).

(** [value] behind [last], or as the first child of [p]. *)
Definition link (p last value : Z) (m : jmem) : outcome jmem :=
  n ← node_at p m;
  first ← u_ptr (n_u n);
  m ← (if first =? 0 then update_node p (set_u (U_ptr value)) m else Ret m);
  if last =? 0 then Ret m else update_node last (set_nextp value) m.

Fixpoint heap_parse_value (fuel : nat) (p pos : Z) (m : jmem) : hparsed :=
  match fuel with
  | O => OutOfFuel
  | S fuel' =>
      pos ← json_skip_whitespace input_buf pos;
      let out (r : Z * Z * jmem) := let '(ret, pos, m) := r in pos ← json_skip_whitespace input_buf pos; Ret (ret, pos, m) in
      let orelse (a : hparsed) (k : Z -> jmem -> hparsed) := r ← a; if r.1.1 =? 0 then k r.1.2 r.2 else out r in
      orelse (heap_parse_object fuel' p pos m) (fun pos m =>
      orelse (heap_parse_array fuel' p pos m) (fun pos m =>
      orelse (heap_parse_string p pos m) (fun pos m =>
      orelse (heap_parse_number p pos m) (fun pos m =>
      orelse (heap_parse_keyword p pos m) (fun pos m =>
      Ret (-1, pos, m))))))
  end
with heap_parse_array (fuel : nat) (p pos : Z) (m : jmem) : hparsed :=
  match fuel with
  | O => OutOfFuel
  | S fuel' =>
      '(ch, pos) ← input input_buf pos;
      if negb (ch =? c_lbracket) then Ret (0, unput pos, m)
      else m ← update_node p (set_type TYPE_ARRAY) m; heap_array_loop fuel' p 0 pos m
  end
with heap_array_loop (fuel : nat) (p last pos : Z) (m : jmem) : hparsed :=
  match fuel with
  | O => OutOfFuel
  | S fuel' =>
      let (value, m) := calloc_node m in
      '(ret, pos, m) ← heap_parse_value fuel' value pos m;
      if ret <=? 0 then m ← free value m; Ret (-1, pos, m)
      else
        m ← link p last value m;
        '(ch, pos) ← input input_buf pos;
        if ch =? c_rbracket then Ret (1, pos, m)
        else if ch =? c_comma then heap_array_loop fuel' p value pos m
        else Ret (-1, pos, m)
  end
with heap_parse_object (fuel : nat) (p pos : Z) (m : jmem) : hparsed :=
  match fuel with
  | O => OutOfFuel
  | S fuel' =>
      '(ch, pos) ← input input_buf pos;
      if negb (ch =? c_lbrace) then Ret (0, unput pos, m)
      else m ← update_node p (set_type TYPE_OBJECT) m; heap_object_loop fuel' p 0 pos m
  end
with heap_object_loop (fuel : nat) (p last pos : Z) (m : jmem) : hparsed :=
  match fuel with
  | O => OutOfFuel
  | S fuel' =>
      let (value, m) := calloc_node m in
      '(ret, pos, m) ← heap_parse_property fuel' value pos m;
      if ret <=? 0 then m ← free value m; Ret (-1, pos, m)
      else
        m ← link p last value m;
        '(ch, pos) ← input input_buf pos;
        if ch =? c_rbrace then Ret (1, pos, m)
        else if ch =? c_comma then heap_object_loop fuel' p value pos m
        else Ret (-1, pos, m)
  end
with heap_parse_property (fuel : nat) (p pos : Z) (m : jmem) : hparsed :=
  match fuel with
  | O => OutOfFuel
  | S fuel' =>
      pos ← json_skip_whitespace input_buf pos;
      '(ret, key, pos) ← json_parse_string input_buf pos;
      match key with
      | None => Ret (-1, pos, m)
      | Some key =>
          let (q, m) := alloc (Chars key) m in
          m ← update_node p (set_key q) m;
          pos ← json_skip_whitespace input_buf pos;
          '(ch, pos) ← input input_buf pos;
          if negb (ch =? c_colon) then Ret (-1, pos, m)
          else
            '(ret, pos, m) ← heap_parse_value fuel' p pos m;
            if ret <=? 0 then Ret (-1, pos, m) else Ret (1, pos, m)
      end
  end.

End parser.

(** ** Freeing *)

Fixpoint json_free (fuel : nat) (p : Z) (m : jmem) : outcome jmem :=
  match fuel with
  | O => OutOfFuel
  | S fuel' =>
      n ← node_at p m;
      m ← free (n_key n) m;
      m ← match n_type n with
          | TYPE_OBJECT | TYPE_ARRAY => it ← u_ptr (n_u n); free_children fuel' it m
          | TYPE_STRING => s ← u_ptr (n_u n); free s m
          | _ => Ret m
          end;
      free p m
  end
with free_children (fuel : nat) (it : Z) (m : jmem) : outcome jmem :=
  match fuel with
  | O => OutOfFuel
  | S fuel' =>
      if it =? 0 then Ret m
      else n ← node_at it m; m ← json_free fuel' it m; free_children fuel' (n_next n) m
  end.

Definition free_fuel (m : jmem) : nat := S (2 * size (blocks m)).

(** ** Whole texts

    [json_parse] frees the root alone when it fails, [json_parse_file] all of it.
    The descriptor of the file is left open when [fstat] fails; the buffer of
    the text is not freed. *)

Definition heap_json_parse (fuel : nat) (json : list Z) (m : jmem) : outcome (Z * jmem) :=
  let (root, m) := calloc_node m in
  '(ret, _, m) ← heap_parse_value json fuel root 0 m;
  if negb (ret =? 1) then m ← free root m; Ret (0, m) else Ret (root, m).

(** What [read] gives, [None] for -1. *)
Inductive json_file : Type := OpenFails | StatFails | ReadGives (st_size : Z) (data : option (list Z)).

(** The root, whether the descriptor stays open, and the memory. *)
Definition heap_json_parse_file (fuel : nat) (file : json_file) (m : jmem) : outcome (Z * bool * jmem) :=
  match file with
  | OpenFails => Ret (0, false, m)
  | StatFails => Ret (0, true, m)
  | ReadGives st_size data =>
      let (_, m) := alloc (Chars (default [] data)) m in
      let ret := match data with Some d => Z.of_nat (length d) | None => -1 end in
      if negb (ret =? st_size) then Ret (0, false, m)
      else
        let (root, m) := calloc_node m in
        '(ret, _, m) ← heap_parse_value (default [] data) fuel root 0 m;
        if negb (ret =? 1) then m ← json_free (free_fuel m) root m; Ret (0, false, m) else Ret (root, false, m)
  end.

(** ** What is in memory

    [is_value h p ko nx v a]: the node at [p] is [v], with the key [ko] and the next
    node [nx], in the blocks [a].  [is_chain] are the nodes from one address up to
    another. *)

Definition is_key (h : gmap Z jblock) (k : Z) (ko : option (list Z)) (a : list Z) : Prop :=
  match ko with None => k = 0 /\ a = [] | Some s => k <> 0 /\ h !! k = Some (Chars s) /\ a = [k] end.

Inductive is_value (h : gmap Z jblock) : Z -> option (list Z) -> Z -> json_value -> list Z -> Prop :=
| is_node p k ty u nx ko ka v ba :
    p <> 0 -> h !! p = Some (Node (MkNode k ty u nx)) -> is_key h k ko ka -> is_body h ty u v ba ->
    is_value h p ko nx v (p :: ka ++ ba)
with is_body (h : gmap Z jblock) : jtype -> junion -> json_value -> list Z -> Prop :=
| is_true u : is_body h TYPE_TRUE u JSON_TRUE []
| is_false u : is_body h TYPE_FALSE u JSON_FALSE []
| is_null u : is_body h TYPE_NULL u JSON_NULL []
| is_number ds : is_body h TYPE_NUMBER (U_number ds) (JSON_NUMBER ds) []
| is_string q s : q <> 0 -> h !! q = Some (Chars s) -> is_body h TYPE_STRING (U_ptr q) (JSON_STRING s) [q]
| is_array u q vs a :
    u_ptr u = Ret q -> is_chain h q (pair None <$> vs) 0 a -> is_body h TYPE_ARRAY u (JSON_ARRAY vs) a
| is_object u q ms a :
    u_ptr u = Ret q -> is_chain h q (prod_map Some id <$> ms) 0 a -> is_body h TYPE_OBJECT u (JSON_OBJECT ms) a
with is_chain (h : gmap Z jblock) : Z -> list (option (list Z) * json_value) -> Z -> list Z -> Prop :=
| chain_nil e : is_chain h e [] e []
| chain_cons p ko nx v a kvs e b :
    is_value h p ko nx v a -> is_chain h nx kvs e b -> is_chain h p ((ko, v) :: kvs) e (a ++ b).

Scheme is_value_mut := Minimality for is_value Sort Prop
  with is_body_mut := Minimality for is_body Sort Prop
  with is_chain_mut := Minimality for is_chain Sort Prop.
Combined Scheme is_value_all from is_value_mut, is_body_mut, is_chain_mut.

Definition same_on (a : list Z) (h h' : gmap Z jblock) : Prop := forall x, x ∈ a -> h' !! x = h !! x.

Lemma same_on_app a b h h' : same_on (a ++ b) h h' <-> same_on a h h' /\ same_on b h h'.
Proof. unfold same_on. set_solver. Qed.

Lemma same_on_cons x a h h' : same_on (x :: a) h h' <-> h' !! x = h !! x /\ same_on a h h'.
Proof. unfold same_on. set_solver. Qed.

Lemma is_key_ext h h' k ko a : is_key h k ko a -> same_on a h h' -> is_key h' k ko a.
Proof. destruct ko; [|done]. intros (Hk & Hl & ->) Hs. split_and!; [done| |done]. rewrite Hs by set_solver. done. Qed.

(** A value is where it was as long as its blocks are. *)
Lemma is_value_ext_all h :
  (forall p ko nx v a, is_value h p ko nx v a -> forall h', same_on a h h' -> is_value h' p ko nx v a)
  /\ (forall ty u v a, is_body h ty u v a -> forall h', same_on a h h' -> is_body h' ty u v a)
  /\ (forall p kvs e a, is_chain h p kvs e a -> forall h', same_on a h h' -> is_chain h' p kvs e a).
Proof.
  apply is_value_all; intros; rewrite ?same_on_app, ?same_on_cons, ?same_on_app in *; destruct_and?; econstructor; eauto using is_key_ext; by congruence.
Qed.

Definition is_value_ext h h' p ko nx v a (H : is_value h p ko nx v a) := proj1 (is_value_ext_all h) _ _ _ _ _ H h'.
Definition is_body_ext h h' ty u v a (H : is_body h ty u v a) := proj1 (proj2 (is_value_ext_all h)) _ _ _ _ H h'.
Definition is_chain_ext h h' p kvs e a (H : is_chain h p kvs e a) := proj2 (proj2 (is_value_ext_all h)) _ _ _ _ H h'.

Lemma is_chain_app h p kvs m kvs' e a b :
  is_chain h p kvs m a -> is_chain h m kvs' e b -> is_chain h p (kvs ++ kvs') e (a ++ b).
Proof. induction 1 as [|p ko nx v a kvs m a' Hv Hc IH]; intros Hb; [done|]. rewrite <- app_assoc. cbn [app]. econstructor; eauto. Qed.

Lemma is_value_nonzero h p ko nx v a : is_value h p ko nx v a -> p <> 0.
Proof. by destruct 1. Qed.

(** ** Freeing a value frees its blocks *)

Definition drops (a : list Z) (h : gmap Z jblock) : gmap Z jblock := foldr delete h a.

Lemma lookup_drops a h x : drops a h !! x = if decide (x ∈ a) then None else h !! x.
Proof.
  induction a as [|y a IH]; cbn [drops foldr]; [by rewrite decide_False by set_solver|]. fold (drops a h).
  destruct (decide (x = y)) as [->|Hne]; [rewrite lookup_delete_eq, decide_True by set_solver; done|].
  rewrite lookup_delete_ne, IH by done. repeat case_decide; set_solver.
Qed.

Lemma drops_app a b h : drops (a ++ b) h = drops b (drops a h).
Proof. apply map_eq. intros x. rewrite !lookup_drops. repeat case_decide; set_solver. Qed.

Lemma same_on_drops a b h : NoDup (a ++ b) -> same_on b h (drops a h).
Proof. intros (_ & Hd & _)%NoDup_app x Hx. rewrite lookup_drops, decide_False; [done|]. intros Ha. by apply (Hd x). Qed.

Lemma free_ret p b h n : p <> 0 -> h !! p = Some b -> free p (MkMem h n) = Ret (MkMem (drops [p] h) n).
Proof. intros Hp Hl. unfold free. destruct (Z.eqb_spec p 0); [done|]. cbn [blocks]. by rewrite Hl. Qed.

Lemma free_key h k ko a n : is_key h k ko a -> free k (MkMem h n) = Ret (MkMem (drops a h) n).
Proof. destruct ko; [intros (Hk & Hl & ->); by eapply free_ret|intros [-> ->]; done]. Qed.

(** The body of a node, which [json_free] frees between the key and the node. *)
Definition free_body (fuel : nat) (ty : jtype) (u : junion) (m : jmem) : outcome jmem :=
  match ty with
  | TYPE_OBJECT | TYPE_ARRAY => it ← u_ptr u; free_children fuel it m
  | TYPE_STRING => s ← u_ptr u; free s m
  | _ => Ret m
  end.

Lemma json_free_node fuel h p k ty u nx ko ka ba n :
  p <> 0 -> h !! p = Some (Node (MkNode k ty u nx)) -> is_key h k ko ka -> NoDup (p :: ka ++ ba) ->
  free_body fuel ty u (MkMem (drops ka h) n) = Ret (MkMem (drops ba (drops ka h)) n) ->
  json_free (S fuel) p (MkMem h n) = Ret (MkMem (drops (p :: ka ++ ba) h) n).
Proof.
  intros Hp Hl Hk Hnd Hb. cbn [json_free]. unfold node_at at 1. cbn [blocks]. rewrite Hl. cbn [mbind outcome_bind n_key n_type n_u].
  rewrite (free_key _ _ _ _ _ Hk). cbn [mbind outcome_bind]. fold (free_body fuel ty u (MkMem (drops ka h) n)). rewrite Hb. cbn [mbind outcome_bind].
  apply NoDup_cons in Hnd as [Hp' _]. rewrite <- drops_app. erewrite free_ret; [|done|].
  - rewrite <- drops_app. do 2 f_equal. apply map_eq. intros x. rewrite !lookup_drops. repeat case_decide; set_solver.
  - rewrite lookup_drops, decide_False by done. exact Hl.
Qed.

Lemma is_value_length h p ko nx v a : is_value h p ko nx v a -> (0 < length a)%nat.
Proof. destruct 1. cbn [length]. lia. Qed.

Lemma json_free_all h :
  (forall p ko nx v a, is_value h p ko nx v a -> forall h' fuel n, same_on a h h' -> NoDup a -> (2 * length a <= fuel)%nat ->
     json_free fuel p (MkMem h' n) = Ret (MkMem (drops a h') n))
  /\ (forall ty u v a, is_body h ty u v a -> forall h' fuel n, same_on a h h' -> NoDup a -> (2 * length a < fuel)%nat ->
     free_body fuel ty u (MkMem h' n) = Ret (MkMem (drops a h') n))
  /\ (forall p kvs e a, is_chain h p kvs e a -> forall h' fuel n, e = 0 -> same_on a h h' -> NoDup a -> (2 * length a < fuel)%nat ->
     free_children fuel p (MkMem h' n) = Ret (MkMem (drops a h') n)).
Proof.
  apply is_value_all; try done.
  - intros p k ty u nx ko ka v ba Hp Hl Hk _ IH h' fuel n Hs Hnd Hf. destruct fuel as [|fuel]; [cbn [length] in Hf; lia|].
    rewrite same_on_cons, same_on_app in Hs. destruct Hs as (Hs & Hsk & Hsb). apply (json_free_node fuel h' p k ty u nx ko ka ba); [done|by rewrite Hs|by eapply is_key_ext|done|].
    apply NoDup_cons in Hnd as [_ Hnd]. apply IH; [|by apply NoDup_app in Hnd as (_ & _ & ?)|cbn [length] in Hf; rewrite length_app in Hf; lia].
    intros x Hx. rewrite (same_on_drops ka ba h' Hnd x Hx). by apply Hsb.
  - intros q s Hq Hl h' fuel n Hs _ _. cbn [free_body u_ptr mbind outcome_bind]. eapply free_ret; [done|]. rewrite Hs by set_solver. exact Hl.
  - intros u q vs a Hu _ IH h' fuel n Hs Hnd Hf. cbn [free_body]. rewrite Hu. by apply IH.
  - intros u q ms a Hu _ IH h' fuel n Hs Hnd Hf. cbn [free_body]. rewrite Hu. by apply IH.
  - intros e h' fuel n -> _ _ Hf. destruct fuel; [lia|]. done.
  - intros p ko nx v a kvs e b Hv IHv _ IHc h' fuel n -> Hs Hnd Hf. destruct fuel as [|fuel]; [lia|]. cbn [free_children].
    apply same_on_app in Hs as [Hsa Hsb]. pose proof (is_value_length _ _ _ _ _ _ Hv). rewrite length_app in Hf.
    destruct (Z.eqb_spec p 0) as [->|_]; [by apply is_value_nonzero in Hv|].
    assert (node_at p (MkMem h' n) = node_at p (MkMem h n)) as -> by (unfold node_at; cbn [blocks]; inversion Hv; subst; rewrite Hsa by set_solver; done).
    assert (exists nd, node_at p (MkMem h n) = Ret nd /\ n_next nd = nx) as (nd & -> & Hnx) by (inversion Hv as [? k ty u ? ? ? ? ? ? Hl]; subst; unfold node_at; cbn [blocks]; rewrite Hl; by eexists).
    cbn [mbind outcome_bind]. rewrite Hnx. rewrite IHv; [|done|by apply NoDup_app in Hnd as (? & _)|lia]. cbn [mbind outcome_bind]. rewrite drops_app. apply IHc; [done| |by apply NoDup_app in Hnd as (_ & _ & ?)|lia].
    intros x Hx. rewrite (same_on_drops a b h' Hnd x Hx). by apply Hsb.
Qed.

(** ** The reader on blocks and the reader to values

    [grows p m m']: from [m] to [m'] only the block at [p] and new ones have
    changed; [newly m m' a]: the blocks [a] are new ones, each once, and [exact]: there are no
    others. *)

Definition wf (m : jmem) : Prop := 0 < brk m /\ forall x, brk m <= x -> blocks m !! x = None.

Definition grows (p : Z) (m m' : jmem) : Prop :=
  wf m' /\ brk m <= brk m' /\ forall x, x < brk m -> x <> p -> blocks m' !! x = blocks m !! x.

Definition newly (m m' : jmem) (a : list Z) : Prop := NoDup a /\ forall x, x ∈ a -> brk m <= x < brk m'.
Definition exact (m m' : jmem) (a : list Z) : Prop := forall x, brk m <= x -> x ∉ a -> blocks m' !! x = None.

Definition fresh_node (k : Z) : jblock := Node (MkNode k TYPE_UNKNOWN U_zero 0).

(** What is in a node the reader has given up can still be freed. *)
Definition freeable (h : gmap Z jblock) (ty : jtype) (u : junion) (a : list Z) : Prop :=
  (ty = TYPE_UNKNOWN /\ a = []) \/ exists v, is_body h ty u v a.

(** The node at [p] is now [ov]. *)
Definition filled (m : jmem) (p k : Z) (ov : option json_value) (m' : jmem) : Prop :=
  exists ty u a, grows p m m' /\ blocks m' !! p = Some (Node (MkNode k ty u 0)) /\ newly m m' a
    /\ match ov with Some v => is_body (blocks m') ty u v a /\ exact m m' a | None => freeable (blocks m') ty u a end.

Definition ret_of {A} (ret : Z) (o : option A) : Prop := match o with Some _ => ret = 1 | None => ret <= 0 end.

Definition agrees (A : parsed) (H : hparsed) (m : jmem) (p k : Z) : Prop :=
  match A with
  | Ret (ret, ov, pos) => exists m', H = Ret (ret, pos, m') /\ ret_of ret ov /\ filled m p k ov m' /\ (ret = 0 -> m' = m)
  | Fault => H = Fault
  | OutOfFuel => H = OutOfFuel
  end.

Lemma wf_below m x b : wf m -> blocks m !! x = Some b -> x < brk m.
Proof. intros [_ Hn] Hl. destruct (Z.lt_ge_cases x (brk m)) as [|Hge]; [done|]. by rewrite Hn in Hl. Qed.

Lemma grows_refl p m : wf m -> grows p m m.
Proof. intros Hwf. split_and!; [done|lia|done]. Qed.

Lemma newly_nil m m' : newly m m' [].
Proof. split; [constructor|]. intros x Hx. by apply not_elem_of_nil in Hx. Qed.

Lemma exact_nil m p m' : wf m -> grows p m m' -> brk m' = brk m -> exact m m' [].
Proof. intros Hwf ([_ Hn] & _) Hb x Hx _. apply Hn. lia. Qed.

Lemma filled_same m p k : wf m -> blocks m !! p = Some (fresh_node k) -> filled m p k None m.
Proof. intros Hwf Hp. exists TYPE_UNKNOWN, U_zero, []. split_and!; [by apply grows_refl|done|apply newly_nil|by left]. Qed.

(** Overwriting a node. *)
Lemma update_node_ret p f m n : blocks m !! p = Some (Node n) -> update_node p f m = Ret (MkMem (<[p := Node (f n)]> (blocks m)) (brk m)).
Proof. intros Hl. unfold update_node, node_at. by rewrite Hl. Qed.

Lemma grows_update p b m m' : grows p m m' -> p < brk m -> grows p m (MkMem (<[p := b]> (blocks m')) (brk m')).
Proof.
  intros ([Hb Hn] & Hle & Hs) Hp. split_and!; [split; [done|]| done|].
  - intros x Hx. cbn [blocks brk] in *. rewrite lookup_insert_ne by lia. by apply Hn.
  - intros x Hx Hxp. cbn [blocks]. rewrite lookup_insert_ne by done. by apply Hs.
Qed.

Lemma grows_alloc p b m : wf m -> grows p m (alloc b m).2.
Proof.
  intros [Hb Hn]. split_and!; [split|cbn; lia|].
  - cbn. lia.
  - intros x Hx. cbn [alloc snd blocks brk] in *. rewrite lookup_insert_ne by lia. apply Hn. lia.
  - intros x Hx _. cbn [alloc snd blocks]. rewrite lookup_insert_ne by lia. done.
Qed.

Lemma grows_trans p m m1 m2 : grows p m m1 -> grows p m1 m2 -> grows p m m2.
Proof. intros (_ & H1 & Hs1) (Hw & H2 & Hs2). split_and!; [done|lia|]. intros x Hx Hp. rewrite Hs2 by (done || lia). by apply Hs1. Qed.

(** A leaf needs no blocks. *)
Lemma filled_leaf m p k ty u v :
  wf m -> blocks m !! p = Some (fresh_node k) -> (forall h, is_body h ty u v []) ->
  filled m p k (Some v) (MkMem (<[p := Node (MkNode k ty u 0)]> (blocks m)) (brk m)).
Proof.
  intros Hwf Hp Hb. assert (grows p m (MkMem (<[p := Node (MkNode k ty u 0)]> (blocks m)) (brk m))) as Hg by (apply grows_update; [by apply grows_refl|by eapply wf_below]).
  exists ty, u, []. split_and!; [done|cbn [blocks]; apply lookup_insert_eq|apply newly_nil|done|by eapply exact_nil].
Qed.

Lemma filled_weaken m p k v m' : filled m p k (Some v) m' -> filled m p k None m'.
Proof. intros (ty & u & a & Hg & Hp & Hn & Hb & _). exists ty, u, a. split_and!; [done..|]. right. by exists v. Qed.

Section spec.
Context (buf : list Z).

Lemma string_agrees pos m p k :
  wf m -> blocks m !! p = Some (fresh_node k) ->
  agrees (r ← json_parse_string buf pos; Ret (json_string_value r)) (heap_parse_string buf p pos m) m p k.
Proof.
  intros Hwf Hp. unfold agrees, heap_parse_string. destruct (json_parse_string buf pos) as [[[ret o] pos']| |] eqn:E; cbn [mbind outcome_bind json_string_value]; [|done|done].
  assert (ret_of ret o /\ (o = None -> ret = 0 \/ ret = -1)) as [Hr Hn].
  { revert E. unfold json_parse_string. destruct (input buf pos) as [[ch q]| |]; cbn [mbind outcome_bind]; [|done|done]. destruct (negb _); [intros [= <- <- _]; split; [cbn [ret_of]; lia|auto]|].
    destruct (fill_loop _ _ _ _ _) as [[[bs ch'] q']| |]; cbn [mbind outcome_bind]; [|done|done]. destruct (ch' =? 0); intros [= <- <- _]; (split; [cbn [ret_of]; lia|auto]). done. }
  destruct o as [bs|]; [|exists m; split_and!; [done|done|by apply filled_same|done]].
  cbn [alloc]. pose proof (wf_below _ _ _ Hwf Hp) as Hlt. erewrite update_node_ret by (cbn [blocks]; rewrite lookup_insert_ne by lia; exact Hp). cbn [mbind outcome_bind]. eexists. split_and!; [done|done| |].
  2:{ cbn [ret_of] in Hr. lia. }
  exists TYPE_STRING, (U_ptr (brk m)), [brk m]. cbn [blocks brk set_value n_key n_next]. destruct Hwf as [Hb Hnone]. split_and!.
  - exact (grows_update _ (Node (MkNode k TYPE_STRING (U_ptr (brk m)) 0)) _ _ (grows_alloc p (Chars bs) m (conj Hb Hnone)) Hlt).
  - apply lookup_insert_eq.
  - split; [apply NoDup_singleton|]. intros x ->%list_elem_of_singleton. cbn [brk]. lia.
  - cbn [fmap option_fmap option_map]. split; [apply is_string; [lia|]; rewrite lookup_insert_ne by lia; apply lookup_insert_eq|].
    intros x Hx Hne. cbn [blocks]. rewrite lookup_insert_ne by lia. rewrite lookup_insert_ne by set_solver. by apply Hnone.
Qed.

Lemma number_agrees pos m p k :
  wf m -> blocks m !! p = Some (fresh_node k) -> agrees (json_parse_number buf pos) (heap_parse_number buf p pos m) m p k.
Proof.
  intros Hwf Hp. unfold agrees, heap_parse_number, json_parse_number. destruct (fill_loop _ _ _ _ _) as [[[bs ch] pos']| |]; cbn [mbind outcome_bind]; [|done|done].
  destruct bs as [|b bs]; [exists m; split_and!; [done|cbn [ret_of]; lia|by apply filled_same|done]|]. erewrite update_node_ret by exact Hp. cbn [mbind outcome_bind]. eexists. split_and!; [done|done| |lia].
  apply filled_leaf; [done|done|]. intros h. constructor.
Qed.

Lemma keyword_agrees pos m p k :
  wf m -> blocks m !! p = Some (fresh_node k) -> agrees (json_parse_keyword buf pos) (heap_parse_keyword buf p pos m) m p k.
Proof.
  intros Hwf Hp. unfold agrees, heap_parse_keyword, json_parse_keyword. destruct (input buf pos) as [[ch pos']| |]; cbn [mbind outcome_bind]; [|done|done].
  assert (forall word ty v, (forall h u, is_body h ty u v []) ->
    agrees ('(m0, pos0) ← keyword_loop buf (bytes_of_string word) ch pos'; match m0 with [] => Ret (1, Some v, unput pos0) | _ => Ret (-1, None, unput pos0) end)
      (m ← update_node p (set_type ty) m; '(rest, pos) ← keyword_loop buf (bytes_of_string word) ch pos'; match rest with [] => Ret (1, unput pos, m) | _ => Ret (-1, unput pos, m) end) m p k) as Hw.
  { intros word ty v Hv. unfold agrees. erewrite update_node_ret by exact Hp. cbn [mbind outcome_bind]. destruct (keyword_loop _ _ _ _) as [[rest pos0]| |]; cbn [mbind outcome_bind]; [|done|done].
    assert (filled m p k (Some v) (MkMem (<[p := Node (MkNode k ty U_zero 0)]> (blocks m)) (brk m))) as Hf by by apply filled_leaf.
    destruct rest; eexists; (split_and!; [done| |eauto using filled_weaken|lia]); cbn [ret_of]; lia. }
  destruct (ch =? 116); [apply (Hw "true"); constructor|]. destruct (ch =? 102); [apply (Hw "false"); constructor|]. destruct (ch =? 110); [apply (Hw "null"); constructor|].
  exists m. split_and!; [done|cbn [ret_of]; lia|by apply filled_same|done].
Qed.

(** Trying one kind of value behind another. *)
Lemma orelse_agrees A H fA fH m p k :
  agrees A H m p k -> (forall pos, agrees (fA (0, None, pos)) (fH (0, pos, m)) m p k) ->
  (forall ret v pos m', ret <> 0 -> fA (ret, v, pos) = (pos ← json_skip_whitespace buf pos; Ret (ret, v, pos))
                           /\ fH (ret, pos, m') = (pos ← json_skip_whitespace buf pos; Ret (ret, pos, m'))) ->
  agrees (A ≫= fA) (H ≫= fH) m p k.
Proof.
  intros HA Hk Hout. destruct A as [[[ret ov] pos]| |]; cbn [agrees] in HA; [|by rewrite HA..].
  destruct HA as (m' & -> & Hr & Hf & H0). cbn [mbind outcome_bind]. destruct (Z.eq_dec ret 0) as [->|Hne]; [destruct ov; [done|]; rewrite (H0 eq_refl); apply Hk|].
  destruct (Hout ret ov pos m' Hne) as [-> ->]. destruct (json_skip_whitespace buf pos) as [pos'| |]; cbn [mbind outcome_bind]; [|done|done]. exists m'. done.
Qed.

(** *** Children *)

(** The node at [v], new since [m], is a whole child; or it was given up. *)
Definition child_ok (m : jmem) (v : Z) (kv : option (list Z) * json_value) (m' : jmem) : Prop :=
  exists c, grows v m m' /\ newly m m' c /\ exact m m' c /\ is_value (blocks m') v kv.1 0 kv.2 c.

Definition child_failed (m : jmem) (v : Z) (m' : jmem) : Prop := grows v m m' /\ is_Some (blocks m' !! v).

Definition child_agrees {T} (f : T -> option (list Z) * json_value) (A : outcome (Z * option T * Z)) (H : hparsed) (m : jmem) : Prop :=
  match A with
  | Ret (ret, o, pos) => exists m', H = Ret (ret, pos, m') /\ ret_of ret o
      /\ match o with Some t => child_ok m (brk m) (f t) m' | None => child_failed m (brk m) m' end
  | Fault => H = Fault
  | OutOfFuel => H = OutOfFuel
  end.

(** The children so far of the array or object at [p], up to [last]. *)
Definition building (m0 m : jmem) (p k : Z) (ty : jtype) (kvs : list (option (list Z) * json_value)) (last : Z) : Prop :=
  exists u a, grows p m0 m /\ blocks m !! p = Some (Node (MkNode k ty u 0)) /\ newly m0 m a /\ exact m0 m a
    /\ ((kvs = [] /\ u = U_zero /\ last = 0 /\ a = [])
        \/ exists q kvs' kv b c, kvs = kvs' ++ [kv] /\ u = U_ptr q /\ q <> 0 /\ a = b ++ c
           /\ is_chain (blocks m) q kvs' last b /\ is_value (blocks m) last kv.1 0 kv.2 c).

Lemma building_chain m0 m p k ty kvs last :
  building m0 m p k ty kvs last ->
  exists u a q, grows p m0 m /\ blocks m !! p = Some (Node (MkNode k ty u 0)) /\ newly m0 m a /\ exact m0 m a
    /\ u_ptr u = Ret q /\ is_chain (blocks m) q kvs 0 a.
Proof.
  intros (u & a & Hg & Hp & Hn & He & [(-> & -> & _ & ->)|(q & kvs' & [ko v] & b & c & -> & -> & _ & -> & Hc & Hv)]).
  - exists U_zero, [], 0. split_and!; try done. constructor.
  - exists (U_ptr q), (b ++ c), q. split_and!; try done. eapply is_chain_app; [done|]. rewrite <- (app_nil_r c). econstructor; [done|constructor].
Qed.

(** The child begins behind everything older, so it leaves the older blocks alone. *)
Lemma newly_same m0 m p m' a : grows p m m' -> newly m0 m a -> p ∉ a -> same_on a (blocks m) (blocks m').
Proof. intros (_ & _ & Hs) [_ Ha] Hp x Hx. apply Hs; [apply Ha in Hx; lia|]. by intros ->. Qed.

Lemma newly_app m0 m m' a c : newly m0 m a -> newly m m' c -> brk m0 <= brk m -> brk m <= brk m' -> newly m0 m' (a ++ c).
Proof.
  intros [Hna Ha] [Hnc Hc] H0 H1. split.
  - apply NoDup_app. split_and!; [done| |done]. intros x Hx Hx'. apply Ha in Hx. apply Hc in Hx'. lia.
  - intros x [Hx|Hx]%elem_of_app; [apply Ha in Hx; lia|apply Hc in Hx; lia].
Qed.

(** The next node is the only thing a value does not fix. *)
Lemma is_value_relink h p ko nx v a :
  is_value h p ko nx v a ->
  exists n, h !! p = Some (Node n) /\ p ∈ a
    /\ forall h' nx', same_on a h h' -> NoDup a -> is_value (<[p := Node (set_nextp nx' n)]> h') p ko nx' v a.
Proof.
  destruct 1 as [p k ty u nx ko ka v ba Hp Hl Hk Hb]. eexists. split_and!; [exact Hl|by left|].
  intros h' nx' Hs [Hnin _]%NoDup_cons. apply same_on_cons in Hs as [_ Hs].
  assert (same_on (ka ++ ba) h (<[p := Node (set_nextp nx' (MkNode k ty u nx))]> h')) as [Hsk Hsb]%same_on_app.
  { intros x Hx. rewrite lookup_insert_ne by (by intros ->). by apply Hs. }
  econstructor; [done|apply lookup_insert_eq|by eapply is_key_ext|by eapply is_body_ext].
Qed.

(** A loop that gives up leaves what it has built. *)
Lemma building_failed m0 m p k kvs last v m' ty body :
  p < brk m0 -> building m0 m p k ty kvs last -> grows v m m' -> brk m <= v ->
  (forall h u q a, u_ptr u = Ret q -> is_chain h q kvs 0 a -> is_body h ty u body a) -> filled m0 p k None m'.
Proof.
  intros Hlt Hb Hg Hv Hbody. apply building_chain in Hb as (u & a & q & Hg0 & Hp & Hn & _ & Hu & Hc).
  assert (forall x, x < brk m -> blocks m' !! x = blocks m !! x) as Hs by (intros x Hx; apply Hg; lia). destruct Hg0 as (Hw & Hle & Hs0), Hg as (Hw' & Hle' & _).
  exists ty, u, a. split_and!.
  - split_and!; [done|lia|]. intros x Hx Hxp. rewrite Hs by lia. by apply Hs0.
  - by rewrite Hs by lia.
  - destruct Hn as [Hnd Hr]. split; [done|]. intros x Hx%Hr. lia.
  - right. exists body. eapply Hbody; [done|]. eapply is_chain_ext; [done|]. intros x Hx. apply Hs. apply Hn in Hx. lia.
Qed.

Lemma link_building m0 m p k ty kvs last kv m' :
  p < brk m0 -> building m0 m p k ty kvs last -> child_ok m (brk m) kv m' ->
  exists m'', link p last (brk m) m' = Ret m'' /\ building m0 m'' p k ty (kvs ++ [kv]) (brk m).
Proof.
  intros Hlt (u & a & Hg0 & Hp & Hn & He & Hcase) (c & Hg & Hnc & Hec & Hv). set (v := brk m) in *.
  assert (forall x, x < v -> blocks m' !! x = blocks m !! x) as Hs by (intros x Hx; apply Hg; [exact Hx|lia]).
  pose proof Hg0 as (Hw & Hle & _). pose proof Hg as (Hw' & Hle' & _). fold v in Hle, Hle'.
  assert (grows p m0 m') as Hgm by (split_and!; [done|lia|]; intros x Hx Hxp; rewrite Hs by lia; by apply Hg0).
  assert (newly m0 m' (a ++ c)) as Hna by (by eapply newly_app).
  assert (exact m0 m' (a ++ c)) as Hea.
  { intros x Hx Hin. rewrite not_elem_of_app in Hin. destruct (Z.lt_ge_cases x v); [rewrite Hs by done; apply He; tauto|apply Hec; tauto]. }
  assert (v <> 0) as Hv0 by (by eapply is_value_nonzero).
  assert (forall x, x < v -> x ∉ c) as Hlow by (intros x Hx Hin; apply Hnc in Hin; unfold v in Hx; lia).
  assert (forall x, x < brk m0 -> x ∉ a) as Hlow0 by (intros x Hx Hin; apply Hn in Hin; lia).
  unfold link, node_at. rewrite Hs, Hp by lia. cbn [mbind outcome_bind n_u].
  destruct Hcase as [(-> & -> & -> & ->)|(q & kvs' & kv' & b & d & -> & -> & Hq & -> & Hc & Hd)]; cbn [u_ptr mbind outcome_bind].
  - rewrite Z.eqb_refl. erewrite update_node_ret by (rewrite Hs by lia; exact Hp). cbn [mbind outcome_bind]. eexists. split; [done|].
    exists (U_ptr v), ([] ++ c). cbn [blocks brk]. split_and!; [by apply grows_update|apply lookup_insert_eq|done| |].
    + intros x Hx Hin. cbn [blocks]. rewrite lookup_insert_ne by lia. by apply Hea.
    + right. exists v, [], kv, [], c. split_and!; [done|done|done|done|constructor|]. eapply is_value_ext; [done|]. intros x Hx. rewrite lookup_insert_ne; [done|]. intros <-. apply (Hlow p); [lia|done].
  - destruct (Z.eqb_spec q 0); [done|]. cbn [mbind outcome_bind]. destruct (Z.eqb_spec last 0) as [E|_]; [by apply is_value_nonzero in Hd|].
    destruct (is_value_relink _ _ _ _ _ _ Hd) as (nl & Hl & Hin & Hre).
    assert (last ∈ b ++ d) as Hlast by set_solver. apply Hn in Hlast. change (brk m0 <= last < v) in Hlast.
    assert (same_on (b ++ d) (blocks m) (blocks m')) as [Hsb Hsd]%same_on_app by (intros x Hx; apply Hs; apply Hn in Hx; exact (proj2 Hx)).
    erewrite update_node_ret by (rewrite Hs by lia; exact Hl). eexists. split; [done|].
    destruct Hn as [Hnd _]. pose proof Hnd as (_ & Hdis & Hndd)%NoDup_app.
    exists (U_ptr q), ((b ++ d) ++ c). cbn [blocks brk]. split_and!.
    + destruct Hgm as (Hw2 & Hle2 & Hs2). split_and!; [split; [apply Hw2|]|done|]; intros x Hx; cbn [blocks brk] in *; intros; (rewrite lookup_insert_ne; [|lia]); [by apply Hw2|by apply Hs2].
    + rewrite lookup_insert_ne by lia. by rewrite Hs by lia.
    + done.
    + intros x Hx Hx'. cbn [blocks]. rewrite lookup_insert_ne by (intros ->; set_solver). by apply Hea.
    + right. exists q, (kvs' ++ [kv']), kv, (b ++ d), c. split_and!; try done.
      * eapply is_chain_app; [eapply is_chain_ext; [done|]; intros x Hx; rewrite lookup_insert_ne by (intros ->; by apply (Hdis x)); by apply Hsb|].
        destruct kv' as [ko' v']. rewrite <- (app_nil_r d). econstructor; [by apply Hre|constructor].
      * eapply is_value_ext; [done|]. intros x Hx. rewrite lookup_insert_ne; [done|]. intros <-. by apply (Hlow last); [lia|].
Qed.

Lemma free_failed m v m' :
  wf m -> v = brk m -> child_failed m v m' -> exists m'', free v m' = Ret m'' /\ grows v m m''.
Proof.
  intros [Hb _] -> (((Hb' & Hn) & Hle & Hs) & b & Hl). destruct m' as [h n]. erewrite free_ret by (done || lia). eexists. split; [done|]. split_and!; [split; [done|]|done|]; cbn [blocks brk] in *.
  - intros x Hx. rewrite lookup_drops. case_decide; [done|by apply Hn].
  - intros x Hx Hne. rewrite lookup_drops, decide_False by set_solver. by apply Hs.
Qed.

(** One turn of either loop. *)
Lemma item_agrees {T} (f : T -> option (list Z) * json_value) A H kA kH m0 m p k ty kvs last body :
  wf m -> p < brk m0 -> building m0 m p k ty kvs last -> child_agrees f A H m ->
  (forall h u q a, u_ptr u = Ret q -> is_chain h q kvs 0 a -> is_body h ty u body a) ->
  (forall t pos m2, building m0 m2 p k ty (kvs ++ [f t]) (brk m) -> agrees (kA t pos) (kH pos m2) m0 p k) ->
  agrees ('(_, o, pos) ← A; match o with Some t => kA t pos | None => Ret (-1, None, pos) end)
         ('(ret, pos, m') ← H; if ret <=? 0 then m' ← free (brk m) m'; Ret (-1, pos, m') else m' ← link p last (brk m) m'; kH pos m') m0 p k.
Proof.
  intros Hw Hlt Hb HA Hbody Hk. destruct A as [[[ret o] pos]| |]; cbn [child_agrees] in HA; [|by rewrite HA..]. destruct HA as (m' & -> & Hr & Ho). cbn [mbind outcome_bind].
  destruct o as [t|]; cbn [ret_of] in Hr.
  - subst ret. cbn [Z.leb Z.compare]. destruct (link_building _ _ _ _ _ _ _ _ _ Hlt Hb Ho) as (m'' & -> & Hb'). cbn [mbind outcome_bind]. by apply Hk.
  - destruct (Z.leb_spec ret 0); [|lia]. destruct (free_failed m (brk m) m' Hw eq_refl Ho) as (m'' & -> & Hg). cbn [mbind outcome_bind agrees].
    exists m''. split_and!; [done|cbn [ret_of]; lia| |lia]. eapply building_failed; [done..|lia|done].
Qed.

(** A value in a new node is a child. *)
Lemma child_of_value m ov m' k ka ko m1 :
  wf m -> grows (brk m) m m1 -> brk m < brk m1 -> filled m1 (brk m) k ov m' -> is_key (blocks m1) k ko ka -> newly m m1 ka -> exact m m1 (brk m :: ka) -> brk m ∉ ka ->
  match ov with Some v => child_ok m (brk m) (ko, v) m' | None => child_failed m (brk m) m' end.
Proof.
  intros Hw Hg Hlt (ty & u & a & Hg' & Hp & Hn & Hov) Hk Hka Hex Hnin. assert (grows (brk m) m m') as Hgm.
  { destruct Hg as (_ & H1 & Hs1), Hg' as (Hw2 & H2 & Hs2). split_and!; [done|lia|]. intros x Hx Hne. rewrite Hs2 by lia. by apply Hs1. }
  destruct ov as [v|]; [|split; [done|by eexists]]. destruct Hov as [Hbody Hexact].
  pose proof Hg' as (_ & Hle & Hs). exists (brk m :: ka ++ a). split_and!; [done| | |].
  - assert (newly m1 m' a) as Hn' by done. pose proof (newly_app _ _ _ _ _ Hka Hn' ltac:(lia) ltac:(lia)) as [Hnd Hr]. split.
    + apply NoDup_cons. split; [|done]. rewrite not_elem_of_app. split; [done|]. intros Hin. apply Hn in Hin. lia.
    + intros x [->|Hx]%elem_of_cons; [lia|by apply Hr].
  - intros x Hx Hin. destruct (Z.lt_ge_cases x (brk m1)); [|apply Hexact; set_solver]. rewrite Hs by set_solver. apply Hex; set_solver.
  - cbn [fst snd]. destruct Hw. econstructor; [lia|done| |done]. eapply is_key_ext; [done|]. intros x Hx. apply Hs; [by apply Hka in Hx as []|]. by intros ->.
Qed.

Lemma calloc_facts m : wf m ->
  wf (calloc_node m).2 /\ grows (brk m) m (calloc_node m).2 /\ blocks (calloc_node m).2 !! brk m = Some (fresh_node 0)
  /\ exact m (calloc_node m).2 [brk m].
Proof.
  intros Hw. pose proof (grows_alloc (brk m) (fresh_node 0) m Hw) as Hg. split_and!; [apply Hg|exact Hg|apply lookup_insert_eq|].
  intros x Hx Hin. cbn [calloc_node alloc snd blocks]. rewrite lookup_insert_ne by set_solver. by apply Hw.
Qed.

Lemma value_child fuel m pos :
  (forall pos m p k, wf m -> blocks m !! p = Some (fresh_node k) -> agrees (json_parse_value buf fuel pos) (heap_parse_value buf fuel p pos m) m p k) ->
  wf m -> child_agrees (pair None) (json_parse_value buf fuel pos) (heap_parse_value buf fuel (brk m) pos (calloc_node m).2) m.
Proof.
  intros Hval Hw. destruct (calloc_facts m Hw) as (Hw1 & Hg & Hn & Hex). specialize (Hval pos _ _ 0 Hw1 Hn). unfold agrees in Hval. unfold child_agrees.
  destruct (json_parse_value buf fuel pos) as [[[ret o] pos']| |]; [|done|done]. destruct Hval as (m' & -> & Hr & Hf & _). exists m'. split_and!; [done|done|].
  pose proof (child_of_value m o m' 0 [] None _ Hw Hg ltac:(cbn; lia) Hf (conj eq_refl eq_refl) (newly_nil _ _) Hex ltac:(set_solver)) as H. by destruct o.
Qed.

(** The new node with its key. *)
Definition keyed (key : list Z) (m : jmem) : jmem :=
  MkMem (<[brk m := fresh_node (brk m + 1)]> (<[brk m + 1 := Chars key]> (blocks (calloc_node m).2))) (brk m + 2).

Lemma keyed_facts key m : wf m ->
  wf (keyed key m) /\ grows (brk m) m (keyed key m) /\ blocks (keyed key m) !! brk m = Some (fresh_node (brk m + 1))
  /\ is_key (blocks (keyed key m)) (brk m + 1) (Some key) [brk m + 1] /\ newly m (keyed key m) [brk m + 1] /\ exact m (keyed key m) [brk m; brk m + 1].
Proof.
  intros [Hb Hn]. assert (wf (keyed key m)) as Hw.
  { split; cbn [keyed blocks brk calloc_node alloc snd]; [lia|]. intros x Hx. rewrite !lookup_insert_ne by lia. apply Hn. lia. }
  split_and!; [done| | | |split|]; cbn [keyed blocks brk calloc_node alloc snd is_key].
  - split_and!; [done|cbn; lia|]. intros x Hx Hne. cbn [keyed blocks calloc_node alloc snd]. by rewrite !lookup_insert_ne by lia.
  - apply lookup_insert_eq.
  - split_and!; [lia| |done]. rewrite lookup_insert_ne by lia. apply lookup_insert_eq.
  - apply NoDup_singleton.
  - intros x ->%list_elem_of_singleton. cbn. lia.
  - intros x Hx Hin. cbn [keyed blocks calloc_node alloc snd]. rewrite !lookup_insert_ne by set_solver. by apply Hn.
Qed.

Lemma property_child fuel m pos :
  (forall pos m p k, wf m -> blocks m !! p = Some (fresh_node k) -> agrees (json_parse_value buf fuel pos) (heap_parse_value buf fuel p pos m) m p k) ->
  wf m -> child_agrees (prod_map Some id) (json_parse_property buf (S fuel) pos) (heap_parse_property buf (S fuel) (brk m) pos (calloc_node m).2) m.
Proof.
  intros Hval Hw. destruct (calloc_facts m Hw) as (_ & Hgc & Hnc & _). cbn [json_parse_property heap_parse_property].
  destruct (json_skip_whitespace buf pos) as [pos1| |]; cbn [mbind outcome_bind]; [|done|done].
  destruct (json_parse_string buf pos1) as [[[ret key] pos2]| |]; cbn [mbind outcome_bind]; [|done|done].
  assert (forall m' pos, child_failed m (brk m) m' -> child_agrees (prod_map Some id) (Ret (-1, None, pos)) (Ret (-1, pos, m')) m) as Hfail
    by (intros m' pos' Hf; exists m'; split_and!; [done|cbn [ret_of]; lia|done]).
  destruct key as [key|]; [|apply Hfail; split; [done|by eexists]].
  destruct (keyed_facts key m Hw) as (Hwk & Hgk & Hnk & Hkk & Hnew & Hex). unfold alloc at 1. erewrite update_node_ret by (cbn [blocks]; rewrite lookup_insert_ne by (cbn; lia); exact Hnc). cbn [mbind outcome_bind].
  replace (MkMem _ _) with (keyed key m) by (unfold keyed, fresh_node, set_key; cbn [calloc_node alloc snd brk blocks n_type n_u n_next]; f_equal; lia).
  destruct (json_skip_whitespace buf pos2) as [pos3| |]; cbn [mbind outcome_bind]; [|done|done].
  destruct (input buf pos3) as [[ch pos4]| |]; cbn [mbind outcome_bind]; [|done|done]. destruct (negb (ch =? c_colon)); [apply Hfail; split; [done|by eexists]|].
  specialize (Hval pos4 _ _ _ Hwk Hnk). unfold agrees in Hval. destruct (json_parse_value buf fuel pos4) as [[[ret' o] pos5]| |]; [|by rewrite Hval..].
  destruct Hval as (m' & -> & Hr & Hf & _). cbn [mbind outcome_bind].
  pose proof (child_of_value m o m' (brk m + 1) [brk m + 1] (Some key) (keyed key m) Hw Hgk ltac:(cbn; lia) Hf Hkk Hnew Hex ltac:(rewrite list_elem_of_singleton; lia)) as Hc.
  destruct o as [v|]; cbn [ret_of] in Hr; [subst ret'; exists m'; done|]. destruct (Z.leb_spec ret' 0); [|lia]. by apply Hfail.
Qed.

Lemma first_building m p k ty : wf m -> blocks m !! p = Some (fresh_node k) ->
  update_node p (set_type ty) m = Ret (MkMem (<[p := Node (MkNode k ty U_zero 0)]> (blocks m)) (brk m))
  /\ building m (MkMem (<[p := Node (MkNode k ty U_zero 0)]> (blocks m)) (brk m)) p k ty [] 0.
Proof.
  intros Hw Hp. split; [erewrite update_node_ret by exact Hp; done|]. assert (grows p m (MkMem (<[p := Node (MkNode k ty U_zero 0)]> (blocks m)) (brk m))) as Hg by (apply grows_update; [by apply grows_refl|by eapply wf_below]).
  exists U_zero, []. split_and!; [done|apply lookup_insert_eq|apply newly_nil|by eapply exact_nil|left; done].
Qed.

Lemma building_wf m0 m p k ty kvs last : building m0 m p k ty kvs last -> wf m.
Proof. intros (u & a & Hg & _). apply Hg. Qed.

(** A loop that is done, or that finds neither a comma nor the bracket. *)
Lemma building_filled m0 m p k ty kvs last body :
  building m0 m p k ty kvs last -> (forall h u q a, u_ptr u = Ret q -> is_chain h q kvs 0 a -> is_body h ty u body a) -> filled m0 p k (Some body) m.
Proof. intros (u & a & q & Hg & Hp & Hn & He & Hu & Hc)%building_chain Hbody. exists ty, u, a. split_and!; [done..|by eapply Hbody|done]. Qed.

Lemma fmap_snoc {A B} (f : A -> B) l x : f <$> (l ++ [x]) = (f <$> l) ++ [f x].
Proof. by rewrite fmap_app. Qed.

Lemma ret_bind {A B} (a : A) (f : A -> outcome B) : Ret a ≫= f = f a.
Proof. done. Qed.

Lemma agrees_all fuel :
  (forall pos m p k, wf m -> blocks m !! p = Some (fresh_node k) -> agrees (json_parse_value buf fuel pos) (heap_parse_value buf fuel p pos m) m p k)
  /\ (forall pos m p k, wf m -> blocks m !! p = Some (fresh_node k) -> agrees (json_parse_array buf fuel pos) (heap_parse_array buf fuel p pos m) m p k)
  /\ (forall acc last pos m0 m p k, p < brk m0 -> building m0 m p k TYPE_ARRAY (pair None <$> reverse acc) last ->
        agrees (array_loop buf fuel acc pos) (heap_array_loop buf fuel p last pos m) m0 p k)
  /\ (forall pos m p k, wf m -> blocks m !! p = Some (fresh_node k) -> agrees (json_parse_object buf fuel pos) (heap_parse_object buf fuel p pos m) m p k)
  /\ (forall acc last pos m0 m p k, p < brk m0 -> building m0 m p k TYPE_OBJECT (prod_map Some id <$> reverse acc) last ->
        agrees (object_loop buf fuel acc pos) (heap_object_loop buf fuel p last pos m) m0 p k)
  /\ (forall m pos, wf m -> child_agrees (prod_map Some id) (json_parse_property buf fuel pos) (heap_parse_property buf fuel (brk m) pos (calloc_node m).2) m).
Proof.
  induction fuel as [|fuel (IHv & IHa & IHal & IHo & IHol & IHp)]; [done|]. split_and!.
  - intros pos m p k Hw Hp. cbn [json_parse_value heap_parse_value]. destruct (json_skip_whitespace buf pos) as [pos1| |]; [|done|done]. rewrite !ret_bind. cbv beta.
    do 5 (apply orelse_agrees; [eauto using string_agrees, number_agrees, keyword_agrees|intros ?; cbn [fst snd]; rewrite Z.eqb_refl|intros ret v pos' m' Hne; cbn [fst snd]; destruct (Z.eqb_spec ret 0); done]). exists m. split_and!; [done|cbn [ret_of]; lia|by apply filled_same|lia].
  - intros pos m p k Hw Hp. cbn [json_parse_array heap_parse_array]. destruct (input buf pos) as [[ch pos1]| |]; cbn [mbind outcome_bind]; [|done|done].
    destruct (negb _); [exists m; split_and!; [done|cbn [ret_of]; lia|by apply filled_same|done]|].
    destruct (first_building m p k TYPE_ARRAY Hw Hp) as [-> Hb]. cbn [mbind outcome_bind]. apply IHal; [by eapply wf_below|exact Hb].
  - intros acc last pos m0 m p k Hlt Hb. cbn [array_loop heap_array_loop]. change (calloc_node m) with (brk m, (calloc_node m).2). cbv beta iota.
    pose proof (building_wf _ _ _ _ _ _ _ Hb) as Hw. eapply (item_agrees (pair None)); [done|done|exact Hb|by apply value_child|intros h u q a; apply is_array|].
    intros v pos2 m2 Hb2. rewrite <- (fmap_snoc (pair None)), <- reverse_cons in Hb2.
    pose proof (building_filled _ _ _ _ _ _ _ (JSON_ARRAY (reverse (v :: acc))) Hb2 ltac:(intros h u q a; apply is_array)) as Hf.
    destruct (input buf pos2) as [[ch pos3]| |]; cbn [mbind outcome_bind]; [|done|done].
    destruct (ch =? c_rbracket); [exists m2; split_and!; [done|done|done|lia]|]. destruct (ch =? c_comma); [by apply IHal|].
    exists m2. split_and!; [done|cbn [ret_of]; lia|by eapply filled_weaken|lia].
  - intros pos m p k Hw Hp. cbn [json_parse_object heap_parse_object]. destruct (input buf pos) as [[ch pos1]| |]; cbn [mbind outcome_bind]; [|done|done].
    destruct (negb _); [exists m; split_and!; [done|cbn [ret_of]; lia|by apply filled_same|done]|].
    destruct (first_building m p k TYPE_OBJECT Hw Hp) as [-> Hb]. cbn [mbind outcome_bind]. apply IHol; [by eapply wf_below|exact Hb].
  - intros acc last pos m0 m p k Hlt Hb. cbn [object_loop heap_object_loop]. change (calloc_node m) with (brk m, (calloc_node m).2). cbv beta iota.
    pose proof (building_wf _ _ _ _ _ _ _ Hb) as Hw. eapply (item_agrees (prod_map Some id)); [done|done|exact Hb|by apply IHp|intros h u q a; apply is_object|].
    intros v pos2 m2 Hb2. rewrite <- fmap_snoc, <- reverse_cons in Hb2.
    pose proof (building_filled _ _ _ _ _ _ _ (JSON_OBJECT (reverse (v :: acc))) Hb2 ltac:(intros h u q a; apply is_object)) as Hf.
    destruct (input buf pos2) as [[ch pos3]| |]; cbn [mbind outcome_bind]; [|done|done].
    destruct (ch =? c_rbrace); [exists m2; split_and!; [done|done|done|lia]|]. destruct (ch =? c_comma); [by apply IHol|].
    exists m2. split_and!; [done|cbn [ret_of]; lia|by eapply filled_weaken|lia].
  - intros m pos Hw. by apply property_child.
Qed.

End spec.
