(* ===== verification/JsonMemory.v ===== *)
(** * What the JSON reader of pd-mapper builds, gives and frees
    (src/qcom/pd-mapper/json.c)

    The functions that look into a value, on blocks, and the theorems on the
    memory of the reader. *)

From Stdlib Require Import ZArith Lia.
From stdpp Require Import base gmap list numbers strings.
From S2P Require Import Prelude CLib Json JsonHeap.

(** ** Access

    [it] goes along [next]; a walk takes a turn per node. *)

Definition chars_at (p : Z) (m : jmem) : outcome (list Z) :=
  match blocks m !! p with Some (Chars s) => Ret s | _ => Fault end.

Fixpoint find_node (fuel : nat) (it : Z) (key : list Z) (m : jmem) : outcome Z :=
  match fuel with
  | O => OutOfFuel
  | S fuel' =>
      if it =? 0 then Ret 0
      else
        n ← node_at it m;
        k ← chars_at (n_key n) m;
        if decide (k = key) then Ret it else find_node fuel' (n_next n) key m
  end.

Definition walk_fuel (m : jmem) : nat := S (size (blocks m)).

Definition heap_get_child (object : Z) (key : list Z) (m : jmem) : outcome Z :=
  n ← node_at object m;
  match n_type n with TYPE_OBJECT => it ← u_ptr (n_u n); find_node (walk_fuel m) it key m | _ => Ret 0 end.

Fixpoint count_nodes (fuel : nat) (it count : Z) (m : jmem) : outcome Z :=
  match fuel with
  | O => OutOfFuel
  | S fuel' => if it =? 0 then Ret count else n ← node_at it m; count_nodes fuel' (n_next n) (count + 1) m
  end.

Definition heap_count_children (array : Z) (m : jmem) : outcome Z :=
  if array =? 0 then Ret (-1)
  else
    n ← node_at array m;
    match n_type n with TYPE_ARRAY => it ← u_ptr (n_u n); count_nodes (walk_fuel m) it 0 m | _ => Ret (-1) end.

(** The return code and [*number] when it is assigned. *)
Definition heap_get_number (object : Z) (key : list Z) (m : jmem) : outcome (Z * option (list Z)) :=
  if object =? 0 then Ret (-1, None)
  else
    it ← heap_get_child object key m;
    if it =? 0 then Ret (-1, None)
    else
      n ← node_at it m;
      match n_type n with
      | TYPE_NUMBER => match n_u n with U_number ds => Ret (0, Some ds) | _ => Fault end
      | _ => Ret (-1, None)
      end.

(** The address of the string, or NULL. *)
Definition heap_get_string (object : Z) (key : list Z) (m : jmem) : outcome Z :=
  if object =? 0 then Ret 0
  else
    it ← heap_get_child object key m;
    if it =? 0 then Ret 0
    else n ← node_at it m; match n_type n with TYPE_STRING => u_ptr (n_u n) | _ => Ret 0 end.

(** ** They give what is in the value *)

Section access.
Context (m : jmem).

Lemma node_of_value p ko nx v a :
  is_value (blocks m) p ko nx v a ->
  p <> 0 /\ exists k ty u ka ba, node_at p m = Ret (MkNode k ty u nx) /\ is_key (blocks m) k ko ka /\ is_body (blocks m) ty u v ba /\ a = p :: ka ++ ba.
Proof. destruct 1 as [p k ty u nx ko ka v ba Hp Hl Hk Hb]. split; [done|]. exists k, ty, u, ka, ba. unfold node_at. by rewrite Hl. Qed.

Lemma chain_length p kvs e a : is_chain (blocks m) p kvs e a -> (length kvs <= length a)%nat.
Proof. induction 1 as [|p ko nx v a kvs e b Hv _ IH]; [done|]. rewrite length_app. cbn [length]. apply is_value_length in Hv. lia. Qed.

Lemma value_blocks :
  (forall p ko nx v a, is_value (blocks m) p ko nx v a -> forall x, x ∈ a -> is_Some (blocks m !! x))
  /\ (forall ty u v a, is_body (blocks m) ty u v a -> forall x, x ∈ a -> is_Some (blocks m !! x))
  /\ (forall p kvs e a, is_chain (blocks m) p kvs e a -> forall x, x ∈ a -> is_Some (blocks m !! x)).
Proof.
  apply is_value_all; try set_solver.
  intros p k ty u nx ko ka v ba Hp Hl Hk _ IH x [->|[Hx|Hx]%elem_of_app]%elem_of_cons; [by eexists| |by apply IH].
  destruct ko; [|by destruct Hk as [_ ->]; apply not_elem_of_nil in Hx]. destruct Hk as (_ & Hk & ->). apply list_elem_of_singleton in Hx as ->. by eexists.
Qed.

Lemma find_node_chain key ms : forall fuel p a,
  is_chain (blocks m) p (prod_map Some id <$> ms) 0 a -> (length ms < fuel)%nat ->
  exists q, find_node fuel p key m = Ret q
    /\ match find_member key ms with Some w => exists nx c, is_value (blocks m) q (Some key) nx w c | None => q = 0 end.
Proof.
  induction ms as [|[k w] ms IH]; intros fuel p a Hc Hf; (destruct fuel as [|fuel]; [lia|]); cbn [find_node find_member].
  - inversion Hc; subst. exists 0. done.
  - rewrite fmap_cons in Hc. cbn [prod_map id] in Hc. inversion Hc as [|? ? nx ? c ? ? b Hv Hr]; subst. destruct (node_of_value _ _ _ _ _ Hv) as (Hp & kk & ty & u & ka & ba & Hn & Hk & _ & _).
    destruct (Z.eqb_spec p 0); [done|]. rewrite Hn. cbn [mbind outcome_bind n_key n_next]. destruct Hk as (_ & Hk & _). unfold chars_at. rewrite Hk. cbn [mbind outcome_bind].
    destruct (decide (k = key)) as [<-|Hne]; [exists p; eauto|]. apply (IH fuel nx b Hr). cbn [length] in Hf. lia.
Qed.

Lemma count_nodes_chain kvs : forall fuel p a n,
  is_chain (blocks m) p kvs 0 a -> (length kvs < fuel)%nat -> count_nodes fuel p n m = Ret (n + Z.of_nat (length kvs)).
Proof.
  induction kvs as [|[k w] kvs IH]; intros fuel p a n Hc Hf; (destruct fuel as [|fuel]; [lia|]); cbn [count_nodes].
  - inversion Hc; subst. cbn. by rewrite Z.add_0_r.
  - inversion Hc as [|? ? nx ? c ? ? b Hv Hr]; subst. destruct (node_of_value _ _ _ _ _ Hv) as (Hp & kk & ty & u & ka & ba & Hn & _).
    destruct (Z.eqb_spec p 0); [done|]. rewrite Hn. cbn [mbind outcome_bind n_next]. cbn [length] in *. rewrite (IH fuel nx b (n + 1) Hr) by lia. f_equal. lia.
Qed.

Lemma get_child_value key p ko nx v a :
  is_value (blocks m) p ko nx v a -> NoDup a ->
  exists q, heap_get_child p key m = Ret q
    /\ match json_get_child v key with Some w => exists nx c, is_value (blocks m) q (Some key) nx w c | None => q = 0 end.
Proof.
  intros Hv Hnd. destruct (node_of_value _ _ _ _ _ Hv) as (_ & k & ty & u & ka & ba & Hn & _ & Hb & ->). unfold heap_get_child. rewrite Hn. cbn [mbind outcome_bind n_type n_u].
  apply NoDup_cons in Hnd as [_ (_ & _ & Hnd)%NoDup_app]. pose proof (nodup_size (blocks m) ba Hnd (proj1 (proj2 value_blocks) _ _ _ _ Hb)) as Hs.
  destruct Hb as [| | | | | |u q ms a Hu Hc]; cbn [json_get_child]; try (exists 0; done). rewrite Hu. cbn [mbind outcome_bind].
  apply chain_length in Hc as Hl. rewrite length_fmap in Hl. eapply find_node_chain; [done|]. unfold walk_fuel. lia.
Qed.

Lemma count_children_value p ko nx v a : is_value (blocks m) p ko nx v a -> NoDup a -> heap_count_children p m = Ret (json_count_children (Some v)).
Proof.
  intros Hv Hnd. destruct (node_of_value _ _ _ _ _ Hv) as (Hp & k & ty & u & ka & ba & Hn & _ & Hb & ->). unfold heap_count_children. destruct (Z.eqb_spec p 0); [done|].
  rewrite Hn. cbn [mbind outcome_bind n_type n_u]. apply NoDup_cons in Hnd as [_ (_ & _ & Hnd)%NoDup_app]. pose proof (nodup_size (blocks m) ba Hnd (proj1 (proj2 value_blocks) _ _ _ _ Hb)) as Hs.
  destruct Hb as [| | | | |u q vs a Hu Hc|]; cbn [json_count_children]; try done. rewrite Hu. cbn [mbind outcome_bind].
  apply chain_length in Hc as Hl. rewrite (count_nodes_chain _ _ _ _ 0 Hc) by (unfold walk_fuel; lia). by rewrite length_fmap.
Qed.

Lemma get_number_value key p ko nx v a : is_value (blocks m) p ko nx v a -> NoDup a -> heap_get_number p key m = Ret (json_get_number (Some v) key).
Proof.
  intros Hv Hnd. destruct (get_child_value key p ko nx v a Hv Hnd) as (q & Hq & Hw). unfold heap_get_number. destruct (Z.eqb_spec p 0) as [->|_]; [by apply is_value_nonzero in Hv|].
  rewrite Hq. cbn [mbind outcome_bind]. assert (json_get_number (Some v) key = match json_get_child v key with Some (JSON_NUMBER ds) => (0, Some ds) | _ => (-1, None) end) as -> by by destruct v.
  destruct (json_get_child v key) as [w|]; [|by subst q]. destruct Hw as (nx' & c & Hw). destruct (node_of_value _ _ _ _ _ Hw) as (Hq0 & k & ty & u & ka & ba & Hn & _ & Hb & _).
  destruct (Z.eqb_spec q 0); [done|]. rewrite Hn. cbn [mbind outcome_bind n_type n_u]. by destruct Hb.
Qed.

Lemma get_string_value key p ko nx v a :
  is_value (blocks m) p ko nx v a -> NoDup a ->
  exists q, heap_get_string p key m = Ret q
    /\ match json_get_string (Some v) key with Some s => q <> 0 /\ chars_at q m = Ret s | None => q = 0 end.
Proof.
  intros Hv Hnd. destruct (get_child_value key p ko nx v a Hv Hnd) as (q & Hq & Hw). unfold heap_get_string. destruct (Z.eqb_spec p 0) as [->|_]; [by apply is_value_nonzero in Hv|].
  rewrite Hq. cbn [mbind outcome_bind]. assert (json_get_string (Some v) key = match json_get_child v key with Some (JSON_STRING s) => Some s | _ => None end) as -> by by destruct v.
  destruct (json_get_child v key) as [w|]; [|by subst q; exists 0]. destruct Hw as (nx' & c & Hw). destruct (node_of_value _ _ _ _ _ Hw) as (Hq0 & k & ty & u & ka & ba & Hn & _ & Hb & _).
  destruct (Z.eqb_spec q 0); [done|]. rewrite Hn. cbn [mbind outcome_bind n_type n_u]. destruct Hb as [| | | |r s Hr Hl| |]; try (exists 0; done).
  exists r. cbn [u_ptr]. split_and!; [done|done|]. unfold chars_at. by rewrite Hl.
Qed.

End access.

(** ** Whole files *)

(** The blocks of a value that was read are the new ones, so freeing them gives the old ones. *)
Lemma drops_child m v kv m' c :
  wf m -> v = brk m -> grows v m m' -> newly m m' c -> exact m m' c -> is_value (blocks m') v kv.1 0 kv.2 c -> drops c (blocks m') = blocks m.
Proof.
  intros [Hb Hn] -> (_ & _ & Hs) [_ Hc] He _. apply map_eq. intros x. rewrite lookup_drops. case_decide as Hx; [apply Hc in Hx; symmetry; apply Hn; lia|].
  destruct (Z.lt_ge_cases x (brk m)); [apply Hs; lia|]. rewrite He, Hn by (done || lia). done.
Qed.

(** Freeing a root that was given up. *)
Lemma free_given_up m p m' :
  wf m -> p = brk m -> filled (calloc_node m).2 p 0 None m' ->
  exists m'', json_free (free_fuel m') p m' = Ret m'' /\ forall x, x < brk m -> blocks m'' !! x = blocks m !! x.
Proof.
  intros Hw -> (ty & u & a & (_ & Hle & Hs) & Hp & [Hnd Hr] & Hfree). cbn [calloc_node alloc snd brk] in *.
  assert (brk m ∉ a) as Hnin by (intros Hin%Hr; lia).
  assert (forall x, x ∈ brk m :: a -> is_Some (blocks m' !! x)) as Hin.
  { intros x [->|Hx]%elem_of_cons; [by eexists|]. destruct Hfree as [[_ ->]|[v Hv]]; [by apply not_elem_of_nil in Hx|]. exact (proj1 (proj2 (value_blocks m')) _ _ _ _ Hv x Hx). }
  pose proof (nodup_size (blocks m') (brk m :: a) ltac:(by apply NoDup_cons) Hin) as Hsize. cbn [length] in Hsize. destruct Hw as [Hb Hn].
  destruct m' as [h n]. unfold free_fuel. cbn [blocks brk] in *. eexists. split.
  - eapply (json_free_node _ h (brk m) 0 ty u 0 None [] a); [lia|done|done|by apply NoDup_cons|]. cbn [drops foldr].
    destruct Hfree as [[-> ->]|[v Hv]]; [done|]. eapply json_free_all; [exact Hv|done|done|clear -Hsize; cbn [blocks]; lia].
  - intros x Hx. cbn [blocks]. rewrite lookup_drops, decide_False.
    + rewrite Hs by (cbn [calloc_node alloc snd brk]; lia). cbn [blocks]. by rewrite lookup_insert_ne by lia.
    + intros [->|Hin']%elem_of_cons; [lia|]. cbn [app] in Hin'. apply Hr in Hin'. lia.
Qed.

(** C17: Whenever the reader returns, json_parse_file does so on memory, without a
    double free or an access to a freed block. A text it accepts is built as linked
    blocks from which the members are looked up as in the value, and json_free of
    the root gives back every block taken but the buffer with the text. A
    text it refuses gives NULL, and the blocks from before are as they were. *)
Theorem json_memory fuel text m ov :
  wf m -> json_parse fuel text = Ret ov ->
  exists root m1, heap_json_parse_file fuel (ReadGives (Z.of_nat (length text)) (Some text)) m = Ret (root, false, m1)
    /\ match ov with
       | Some v =>
           (exists a, is_value (blocks m1) root None 0 v a)
           /\ (forall key, exists q, heap_get_child root key m1 = Ret q
                 /\ match json_get_child v key with Some w => exists nx c, is_value (blocks m1) q (Some key) nx w c | None => q = 0 end)
           /\ json_free (free_fuel m1) root m1 = Ret (MkMem (<[brk m := Chars text]> (blocks m)) (brk m1))
       | None => root = 0 /\ forall x, x < brk m -> blocks m1 !! x = blocks m !! x
       end.
Proof.
  intros Hw Hparse. unfold json_parse in Hparse. unfold heap_json_parse_file. unfold alloc at 1. cbv zeta. change (default [] (Some text)) with text. rewrite Z.eqb_refl. cbn [negb].
  set (mt := MkMem (<[brk m := Chars text]> (blocks m)) (brk m + 1)). assert (wf mt) as Hwt by exact (proj1 (grows_alloc 0 (Chars text) m Hw)).
  change (calloc_node mt) with (brk mt, (calloc_node mt).2). cbv beta iota. destruct (calloc_facts mt Hwt) as (Hw1 & Hg1 & Hn1 & He1).
  pose proof (proj1 (agrees_all text fuel) 0 _ _ 0 Hw1 Hn1) as Hag. pose proof (value_child text fuel mt 0 (proj1 (agrees_all text fuel)) Hwt) as Hch.
  unfold agrees in Hag. unfold child_agrees in Hch. destruct (json_parse_value text fuel 0) as [[[ret o] pos]| |]; [|done|done]. cbn [mbind outcome_bind] in Hparse.
  destruct Hag as (m1 & E & Hr & Hf & _), Hch as (m1' & E' & _ & Hc). rewrite E in E' |- *. injection E' as <-. cbn [mbind outcome_bind]. destruct o as [v|]; cbn [ret_of] in Hr.
  - subst ret. injection Hparse as <-. cbn [Z.eqb Pos.eqb negb]. exists (brk mt), m1. split; [done|]. destruct Hc as (c & Hg & Hnew & Hex & Hv). destruct (Hnew) as [Hnd _]. split_and!; [by exists c| |].
    + intros key. by eapply get_child_value.
    + assert (2 * length c <= free_fuel m1)%nat as Hfuel by (pose proof (nodup_size (blocks m1) c Hnd (proj1 (value_blocks m1) _ _ _ _ _ Hv)); unfold free_fuel; lia).
      pose proof (drops_child mt (brk mt) (None, v) m1 c Hwt eq_refl Hg Hnew Hex Hv) as Hd. destruct m1 as [h n]. cbn [blocks fst snd] in *.
      rewrite (proj1 (json_free_all h) _ _ _ _ _ Hv h) by done. rewrite Hd. done.
  - injection Hparse as <-. destruct (Z.eqb_spec ret 1); [lia|]. cbn [negb]. destruct (free_given_up mt _ m1 Hwt eq_refl Hf) as (m2 & -> & Hs). cbn [mbind outcome_bind]. exists 0, m2. split_and!; [done|done|].
    intros x Hx. rewrite Hs by (cbn [mt brk]; lia). cbn [mt blocks]. by rewrite lookup_insert_ne by lia.
Qed.

(** A text with double quotes for single ones. *)
Definition json_text (s : string) : list Z := (fun c => if c =? 39 then 34 else c) <$> bytes_of_string s.

Lemma json_memory_witness :
  exists root m1, heap_json_parse_file 200 (ReadGives 34 (Some (json_text "{ 'a': [1, 'x', true], 'b': null }"))) (MkMem ∅ 1) = Ret (root, false, m1)
    /\ exists m2, json_free (free_fuel m1) root m1 = Ret m2 /\ blocks m2 = {[1 := Chars (json_text "{ 'a': [1, 'x', true], 'b': null }")]}.
Proof.
  destruct (json_memory 200 (json_text "{ 'a': [1, 'x', true], 'b': null }") (MkMem ∅ 1)
    (Some (JSON_OBJECT [([97], JSON_ARRAY [JSON_NUMBER [49]; JSON_STRING [120]; JSON_TRUE]); ([98], JSON_NULL)]))) as (root & m1 & E & _ & _ & Hfree).
  - split; [cbn; lia|]. intros x _. cbn [blocks]. apply lookup_empty.
  - vm_compute. reflexivity.
  - exists root, m1. split; [exact E|]. eexists. split; [exact Hfree|]. cbn [blocks]. reflexivity.
Defined.

(** A child that is given up is freed without what it holds: here the number in the inner array. *)
Example refused_text_leaks :
  exists m1, heap_json_parse_file 100 (ReadGives 4 (Some (bytes_of_string "[[1;"))) (MkMem ∅ 1) = Ret (0, false, m1)
    /\ blocks m1 = {[1 := Chars (bytes_of_string "[[1;"); 4 := Node (MkNode 0 TYPE_NUMBER (U_number [49]) 0)]}.
Proof. eexists. split; vm_compute; reflexivity. Qed.
