(* ===== verification/PdMapper.v ===== *)
(** * The protection domain mapper (src/qcom/pd-mapper/pd-mapper.c)

    The table of services is loaded from JSON files; a get-domain-list request
    is answered with the domains of the service it names. *)

From Stdlib Require Import ZArith Lia.
From stdpp Require Import base list numbers strings.
From S2P Require Import Prelude CLib Packet QmiCodec QmiMessages Rmtfs Json.

Record pd_map : Type := MkPdMap { pd_service : list Z; pd_domain : list Z; pd_instance : Z }.

(** ** Loading *)

Fixpoint digits_val (acc : Z) (ds : list Z) : Z :=
  match ds with [] => acc | d :: ds' => digits_val (10 * acc + (d - 48)) ds' end.

(** [map->instance = number], a [double] to an [int], which saturates on the
    target; below 2^31 the [double] is exact. *)
Definition to_int (ds : list Z) : Z := Z.min (digits_val 0 ds) 2147483647.

(** The loop over [sr_service]: the return code and [pd_maps]. *)
Fixpoint load_loop (maps : list pd_map) (soc domain subdomain number : list Z) (its : list json_value)
    : Z * list pd_map :=
  match its with
  | [] => (0, maps)
  | it :: its' =>
      match json_get_string (Some it) (bytes_of_string "provider"),
            json_get_string (Some it) (bytes_of_string "service") with
      | Some provider, Some service =>
          load_loop (maps ++ [MkPdMap (provider ++ [c_slash] ++ service)
                                (soc ++ [c_slash] ++ domain ++ [c_slash] ++ subdomain) (to_int number)])
            soc domain subdomain number its'
      | _, _ => (-1, maps)
      end
  end.

(** The part of [pd_load_map] behind [json_parse_file]; [realloc] is taken to
    succeed. *)
Definition pd_load_root (maps : list pd_map) (root : json_value) : Z * list pd_map :=
  let sr_domain := json_get_child root (bytes_of_string "sr_domain") in
  let soc := json_get_string sr_domain (bytes_of_string "soc") in
  let domain := json_get_string sr_domain (bytes_of_string "domain") in
  let subdomain := json_get_string sr_domain (bytes_of_string "subdomain") in
  match json_get_number sr_domain (bytes_of_string "qmi_instance_id") with
  | (0, Some number) =>
      match soc, domain, subdomain with
      | Some soc, Some domain, Some subdomain =>
          let sr_service := json_get_child root (bytes_of_string "sr_service") in
          let count := json_count_children sr_service in
          if count <? 0 then (count, maps)
          else match sr_service with
               | Some (JSON_ARRAY its) => load_loop maps soc domain subdomain number its
               | _ => (-1, maps)
               end
      | _, _, _ => (-1, maps)
      end
  | (ret, _) => (ret, maps)
  end.

Definition pd_load_map (fuel : nat) (maps : list pd_map) (file : option (list Z)) : outcome (Z * list pd_map) :=
  root ← json_parse_file fuel file;
  match root with None => Ret (-1, maps) | Some root => Ret (pd_load_root maps root) end.

(** The loop of [pd_load_maps] over the files found, in the order of the set;
    [ret] is the code of the file before. *)
Fixpoint pd_load_files (fuel : nat) (ret : Z) (maps : list pd_map) (files : list (option (list Z)))
    : outcome (Z * list pd_map) :=
  match files with
  | [] => Ret (ret, maps)
  | f :: files' =>
      '(ret, maps) ← pd_load_map fuel maps f;
      if ret <? 0 then Ret (ret, maps) else pd_load_files fuel ret maps files'
  end.

(** ** Requests *)

Definition QMI_RESULT_FAILURE : Z := 1.
Definition QMI_ERR_MALFORMED_MSG : Z := 2.

(** [&resp.domain_list[i]] *)
Definition domain_entry (i : Z) : Z := 20 + 272 * i.

(** The loop over [pd_maps]; [resp] is the response structure and [n] its
    [domain_list_len]. *)
Fixpoint domain_loop (maps : list pd_map) (name : list Z) (resp : list Z) (n : Z) : outcome (list Z * Z) :=
  match maps with
  | [] => Ret (resp, n)
  | m :: maps' =>
      if decide (pd_service m = name) then
        let entry := domain_entry n in
        resp ← store resp (entry + 4) (pd_domain m ++ [0]);
        resp ← store resp entry (le_bytes 4 (Z.of_nat (length (pd_domain m))));
        resp ← store resp (entry + 260) (le_bytes 4 (pd_instance m));
        domain_loop maps' name resp (n + 1)
      else domain_loop maps' name resp n
  end.

Definition servreg_result (result error : Z) : list Z := le_bytes 2 result ++ le_bytes 2 error.

Definition handle_get_domain_list (maps : list pd_map) (stk : stack) (pkt : packet) : outcome reply :=
  '(ret, req, txn) ← qmi_decode_message (replicate 268 0) (pk_data pkt) (pk_len pkt) QMI_REQUEST
                       SERVREG_LOC_GET_DOMAIN_LIST (Some servreg_loc_get_domain_list_req_ei);
  let txn := txn_or (stk_txn stk) txn in
  let resp := replicate (Z.to_nat sizeof_servreg_loc_get_domain_list_resp) 0 in
  let answer resp :=
    respond (stk_resp stk) SERVREG_LOC_GET_DOMAIN_LIST txn resp servreg_loc_get_domain_list_resp_ei in
  if ret <? 0 then
    resp ← store resp 0 (servreg_result QMI_RESULT_FAILURE QMI_ERR_MALFORMED_MSG); answer resp
  else
    req ← store req (4 + 255) [0];
    name ← cstr req 4;
    resp ← store resp 8 [1];
    resp ← store resp 10 (le_bytes 2 1);
    '(resp, n) ← domain_loop maps name resp 0;
    resp ← store resp 16 (le_bytes 4 n);
    resp ← (if negb (n =? 0) then store resp 12 [1] else Ret resp);
    resp ← store resp 4 [1];
    resp ← store resp 6 (le_bytes 2 n);
    answer resp.

(** A turn of the loop in [main] behind [recvfrom], which gave [ret] (a length or
    [-errno]): what [main] returns, or what is sent. *)
Definition pd_turn (maps : list pd_map) (stk : stack) (ret : Z) (buf : list Z) (sq : sockaddr_qrtr)
    : outcome (Z + list syscall) :=
  if ret <? 0 then Ret (inl ret)
  else
    let '(rc, q) := qrtr_decode (MkQpkt 0 0 0 0 0 0 [] 0) buf ret sq in
    if rc <? 0 then Ret (inl rc)
    else if p_type q =? QRTR_TYPE_DATA then
      '(rc, msg_id) ← qmi_decode_header buf ret;
      if rc <? 0 then Ret (inr [])
      else
        match msg_id with
        | Some id =>
            if id =? SERVREG_LOC_GET_DOMAIN_LIST then
              rep ← handle_get_domain_list maps stk (MkPacket (p_node q) (p_port q) buf ret);
              Ret (inr match rep with Some bytes => [Sendto (MkSq AF_QIPCRTR (p_node q) (p_port q)) bytes] | None => [] end)
            else Ret (inr [])
        | None => Ret (inr [])
        end
    else Ret (inr []).
