(* ===== verification/PdProofs.v ===== *)
(** * What the protection domain mapper answers *)

From Stdlib Require Import ZArith Lia.
From stdpp Require Import base list numbers strings.
From S2P Require Import Prelude CLib Packet QmiCodec QmiMessages QmiDecode QmiEncode QmiTurns.
From S2P Require Import Rmtfs RmtfsProofs Json PdMapper.

(** ** Objects in parts *)

Lemma store_parts a b c bs : length b = length bs -> store (a ++ b ++ c) (Z.of_nat (length a)) bs = Ret (a ++ bs ++ c).
Proof.
  intros Hl. rewrite store_ret by (rewrite ?length_app; lia). rewrite Nat2Z.id. f_equal.
  rewrite take_app_length, <- Hl. do 2 f_equal. rewrite <- drop_drop, drop_app_length.
  by rewrite drop_app_length.
Qed.

Lemma load_parts a b c : load (a ++ b ++ c) (Z.of_nat (length a)) (Z.of_nat (length b)) = Ret b.
Proof.
  rewrite load_ret by (rewrite ?length_app; lia). rewrite !Nat2Z.id. f_equal.
  by rewrite drop_app_length, take_app_length.
Qed.

Lemma load_app_l a c off n : off + n <= Z.of_nat (length a) -> load (a ++ c) off n = load a off n.
Proof.
  intros Hl. unfold load. rewrite length_app.
  destruct (Z.leb_spec 0 off); [|done]. destruct (Z.leb_spec 0 n); [|done]. cbn [andb].
  destruct (Z.leb_spec (off + n) (Z.of_nat (length a))); [|lia].
  destruct (Z.leb_spec (off + n) (Z.of_nat (length a + length c))); [|lia].
  f_equal. rewrite drop_app_le by lia. by rewrite take_app_le by (rewrite length_drop; lia).
Qed.

Lemma store_app_l a c off bs a' :
  store a off bs = Ret a' -> store (a ++ c) off bs = Ret (a' ++ c).
Proof.
  intros (H0 & Hl & ->)%store_ret_inv. rewrite store_ret by (rewrite ?length_app; lia). f_equal.
  rewrite take_app_le by lia. rewrite drop_app_le by lia. by rewrite <- !app_assoc.
Qed.

(** ** The entries *)

(** One entry of the list: [name_len], [name], [instance_id], no service data. *)
Definition entry_bytes (m : pd_map) : list Z :=
  le_bytes 4 (Z.of_nat (length (pd_domain m)))
  ++ (pd_domain m ++ 0 :: replicate (255 - length (pd_domain m)) 0)
  ++ le_bytes 4 (pd_instance m) ++ replicate 8 0.

Definition domain_ok (m : pd_map) : Prop :=
  (length (pd_domain m) <= 255)%nat /\ Forall (fun b => b <> 0) (pd_domain m).

Lemma length_entry_bytes m : domain_ok m -> length (entry_bytes m) = 272%nat.
Proof.
  intros [Hl _]. unfold entry_bytes. rewrite !length_app, !length_le_bytes. cbn [length].
  rewrite !length_replicate. lia.
Qed.

(** The three stores of a turn of the loop, on an entry of zeros. *)
Lemma entry_stored a c m :
  domain_ok m -> let e := Z.of_nat (length a) in
  (resp ← store (a ++ replicate 272 0 ++ c) (e + 4) (pd_domain m ++ [0]);
   resp ← store resp e (le_bytes 4 (Z.of_nat (length (pd_domain m))));
   store resp (e + 260) (le_bytes 4 (pd_instance m)))
  = Ret (a ++ entry_bytes m ++ c).
Proof.
  intros [Hl _] e. unfold e, entry_bytes. set (d := pd_domain m) in *.
  replace 272%nat with (4 + ((length d + 1) + ((255 - length d) + (4 + 8))))%nat by lia.
  rewrite !replicate_add, <- !app_assoc.
  replace (Z.of_nat (length a) + 4) with (Z.of_nat (length (a ++ replicate 4 0))) by (rewrite length_app; simpl; lia).
  rewrite (app_assoc a (replicate 4 0)), (app_assoc (replicate (length d) 0) (replicate 1 0)).
  rewrite store_parts by (rewrite !length_app, !length_replicate; done). cbn [mbind outcome_bind].
  rewrite <- (app_assoc a (replicate 4 0)).
  rewrite store_parts by (by rewrite length_le_bytes). cbn [mbind outcome_bind].
  set (l4 := le_bytes 4 (Z.of_nat (length d))). assert (length l4 = 4%nat) as Hl4 by apply length_le_bytes.
  replace (Z.of_nat (length a) + 260)
    with (Z.of_nat (length (a ++ l4 ++ (d ++ [0]) ++ replicate (255 - length d) 0)))
    by (rewrite !length_app, length_replicate, Hl4; simpl; lia).
  rewrite (app_assoc (d ++ [0]) (replicate (255 - length d) 0)), (app_assoc l4), (app_assoc a).
  rewrite store_parts by (by rewrite length_le_bytes). f_equal. rewrite <- !app_assoc. done.
Qed.

(** The services that match, in the order of the table. *)
Definition matching (maps : list pd_map) (name : list Z) : list pd_map :=
  filter (fun m => pd_service m = name) maps.

Definition entries (ms : list pd_map) : list Z := concat (map entry_bytes ms).

Lemma length_entries ms : Forall domain_ok ms -> length (entries ms) = (272 * length ms)%nat.
Proof.
  unfold entries. induction 1 as [|m ms Hm _ IH]; [done|]. cbn [map concat]. rewrite length_app, IH.
  rewrite length_entry_bytes by done. simpl. lia.
Qed.

(** The structure with the header [hdr] and the entries [ms]. *)
Definition domain_resp (hdr : list Z) (ms : list pd_map) : list Z :=
  hdr ++ entries ms ++ replicate (272 * (255 - length ms)) 0.

Lemma domain_loop_lists maps name : forall hdr done_,
  length hdr = 20%nat -> Forall domain_ok done_ -> Forall domain_ok (matching maps name) ->
  (length done_ + length (matching maps name) <= 255)%nat ->
  domain_loop maps name (domain_resp hdr done_) (Z.of_nat (length done_))
  = Ret (domain_resp hdr (done_ ++ matching maps name), Z.of_nat (length (done_ ++ matching maps name))).
Proof.
  unfold matching. induction maps as [|m maps IH]; intros hdr done_ Hh Hd Hm Hn; cbn [domain_loop].
  { rewrite filter_nil, app_nil_r. done. }
  rewrite filter_cons in *. case_decide as Heq; [|by apply IH].
  apply list.Forall_cons in Hm as [Hm Hms]. cbn [length] in Hn.
  pose proof (entry_stored (hdr ++ entries done_) (replicate (272 * (255 - length (done_ ++ [m]))) 0) m Hm) as Hst.
  cbv zeta in Hst. rewrite length_app, (length_entries _ Hd), Hh in Hst.
  replace (Z.of_nat (20 + 272 * length done_)) with (domain_entry (Z.of_nat (length done_))) in Hst
    by (unfold domain_entry; lia).
  assert ((hdr ++ entries done_) ++ replicate 272 0 ++ replicate (272 * (255 - length (done_ ++ [m]))) 0
    = domain_resp hdr done_) as Hresp.
  { unfold domain_resp. rewrite <- app_assoc, <- replicate_add. do 3 f_equal.
    rewrite length_app. simpl length. lia. }
  rewrite Hresp in Hst. cbv zeta.
  destruct (store (domain_resp hdr done_) _ _) as [r1| |]; try done. cbn [mbind outcome_bind] in *.
  destruct (store r1 _ _) as [r2| |]; try done. cbn [mbind outcome_bind] in *. rewrite Hst. cbn [mbind outcome_bind].
  replace ((hdr ++ entries done_) ++ entry_bytes m ++ replicate (272 * (255 - length (done_ ++ [m]))) 0)
    with (domain_resp hdr (done_ ++ [m])).
  - replace (Z.of_nat (length done_) + 1) with (Z.of_nat (length (done_ ++ [m]))) by (rewrite length_app; simpl; lia).
    rewrite IH; [by rewrite <- app_assoc|done| |done|rewrite length_app; simpl; lia].
    apply Forall_app_2; [done|by constructor].
  - unfold domain_resp, entries. rewrite map_app, concat_app. cbn [map concat]. rewrite app_nil_r.
    by rewrite <- !app_assoc.
Qed.

(** ** The message *)

(** An entry on the wire. *)
Definition entry_wire (m : pd_map) : list Z :=
  u8 (Z.of_nat (length (pd_domain m))) :: pd_domain m ++ le_bytes 4 (pd_instance m) ++ [0] ++ le_bytes 4 0.

Lemma load_at x y z o off n :
  o = x ++ y ++ z -> off = Z.of_nat (length x) -> n = Z.of_nat (length y) -> load o off n = Ret y.
Proof. intros -> -> ->. apply load_parts. Qed.

(** The entry at [a] encodes to its wire form. *)
Lemma entry_encodes fuel a m c :
  domain_ok m -> (5 <= fuel)%nat ->
  enc_ref fuel servreg_loc_domain_list_entry_ei (a ++ entry_bytes m ++ c) (Z.of_nat (length a)) 2 0 []
  = Ret (Some (entry_wire m)).
Proof.
  intros [Hl Hz] Hf. set (o := a ++ entry_bytes m ++ c). unfold entry_wire. set (d := pd_domain m) in *.
  set (l4 := le_bytes 4 (Z.of_nat (length d))). set (i4 := le_bytes 4 (pd_instance m)).
  set (pad := replicate (255 - length d) 0).
  assert (length l4 = 4%nat) as Hl4 by apply length_le_bytes.
  assert (length i4 = 4%nat) as Hi4 by apply length_le_bytes.
  assert (length pad = (255 - length d)%nat) as Hpad by apply length_replicate.
  assert (o = (a ++ l4) ++ d ++ 0 :: pad ++ i4 ++ replicate 8 0 ++ c) as Ho.
  { unfold o, entry_bytes. fold d l4 i4 pad. by rewrite <- !app_assoc. }
  assert (strlen o (Z.of_nat (length a) + 4) = Ret (Z.of_nat (length d))) as Hlen.
  { rewrite Ho. replace (Z.of_nat (length a) + 4) with (Z.of_nat (length (a ++ l4))) by (rewrite length_app; lia).
    by apply strlen_at. }
  assert (load o (Z.of_nat (length a) + 4) (Z.of_nat (length d)) = Ret d) as Hd.
  { apply (load_at (a ++ l4) d _ _ _ _ Ho); [rewrite length_app; lia|done]. }
  assert (load o (Z.of_nat (length a) + 260) (1 * 4) = Ret i4) as Hi.
  { apply (load_at ((a ++ l4) ++ d ++ 0 :: pad) i4 (replicate 8 0 ++ c));
      [by rewrite Ho, <- !app_assoc|rewrite !length_app; simpl; lia|lia]. }
  assert (load o (Z.of_nat (length a) + 264) (1 * 1) = Ret [0]) as Hv.
  { apply (load_at (((a ++ l4) ++ d ++ 0 :: pad) ++ i4) [0] (replicate 7 0 ++ c));
      [by rewrite Ho, <- !app_assoc|rewrite !length_app; simpl; lia|done]. }
  assert (load o (Z.of_nat (length a) + 268) (1 * 4) = Ret (le_bytes 4 0)) as Hs.
  { apply (load_at ((((a ++ l4) ++ d ++ 0 :: pad) ++ i4) ++ replicate 4 0) (le_bytes 4 0) c);
      [by rewrite Ho, <- !app_assoc|rewrite !length_app; simpl; lia|done]. }
  do 5 (destruct fuel as [|fuel]; [lia|]).
  unfold servreg_loc_domain_list_entry_ei, ei_plain, eoti.
  cbn [enc_ref data_type enc_data_len array_type elem_len elem_size offset tlv_type].
  rewrite !decide_False by done. rewrite decide_True by done.
  unfold string_ref. cbn [elem_len elem_size]. rewrite Hlen. cbn [mbind outcome_bind].
  destruct (Z.ltb_spec 256 (Z.of_nat (length d))); [lia|]. change (negb (1 =? 1)) with false. cbv iota.
  rewrite Hd. cbn [mbind outcome_bind]. change (2 =? 1) with false. change (256 <=? 256) with true. cbv iota.
  change ((1 <? 0) || (4 <? 0)) with false. change ((1 <? 0) || (1 <? 0)) with false. cbv iota.
  rewrite Hi. cbn [mbind outcome_bind]. rewrite Hv. cbn [mbind outcome_bind]. rewrite Hs.
  cbn [mbind outcome_bind option_map]. done.
Qed.

Lemma entries_encode fuel o ms : forall a c,
  o = a ++ entries ms ++ c -> Forall domain_ok ms -> (5 <= fuel)%nat ->
  struct_ref (fun s => enc_ref fuel servreg_loc_domain_list_entry_ei o s 2 0 [])
    (length ms) (Z.of_nat (length a)) 272 = Ret (Some (concat (map entry_wire ms))).
Proof.
  induction ms as [|m ms IH]; intros a c Ho Hms Hf; [done|].
  apply list.Forall_cons in Hms as [Hm Hms]. cbn [length struct_ref].
  assert (o = a ++ entry_bytes m ++ entries ms ++ c) as Ho' by (by rewrite Ho; unfold entries; cbn [map concat]; rewrite <- app_assoc).
  rewrite Ho' at 1. rewrite (entry_encodes fuel a m (entries ms ++ c) Hm Hf). cbn [mbind outcome_bind].
  replace (Z.of_nat (length a) + 272) with (Z.of_nat (length (a ++ entry_bytes m)))
    by (rewrite length_app, length_entry_bytes by done; lia).
  rewrite (IH (a ++ entry_bytes m) c); [done|by rewrite Ho', <- app_assoc|done|done].
Qed.

(** The header of the structure and the message for the entries [ms]. *)
Definition resp_header (ms : list pd_map) : list Z :=
  let k := Z.of_nat (length ms) in
  [0; 0; 0; 0; 1; 0] ++ le_bytes 2 k ++ [1; 0; 1; 0; (if k =? 0 then 0 else 1); 0; 0; 0] ++ le_bytes 4 k.

Definition list_wire (ms : list pd_map) : list Z :=
  u8 (Z.of_nat (length ms)) :: concat (map entry_wire ms).

Definition resp_wire (ms : list pd_map) : list Z :=
  [2; 4; 0; 0; 0; 0; 0]
  ++ [16; 2; 0] ++ le_bytes 2 (Z.of_nat (length ms))
  ++ [17; 2; 0; 1; 0]
  ++ match ms with [] => [] | _ => tlv_bytes 18 (list_wire ms) end.

(** ** Steps of the reference encoder at level 1 *)

Section steps.
Context (f : nat) (l : list qmi_elem_info) (c : list Z) (in_c n : Z) (pend : list Z).

Lemma enc_plain t size tlv off bs :
  is_basic t = true -> 0 <= size -> load c (in_c + off) size = Ret bs ->
  enc_ref (S f) (ei_plain t size tlv off :: l) c in_c 1 n pend
  = (rest ← enc_ref f l c in_c 1 1 []; Ret (option_map (app (tlv_bytes tlv (pend ++ bs))) rest)).
Proof.
  intros Ht Hs Hl. cbn [enc_ref]. rewrite decide_False by (intros E; cbn in E; by rewrite E in Ht).
  cbn [ei_plain enc_data_len array_type data_type elem_size offset tlv_type]. change (1 =? 1) with true.
  assert ((1 <? 0) || (size <? 0) = false) as Hpos by (zcases; simpl; done || lia).
  destruct t; try done; rewrite Hpos, Z.mul_1_l, Hl; done.
Qed.

Lemma enc_flag_set tlv off :
  load c (in_c + off) 1 = Ret [1] ->
  enc_ref (S f) (ei_plain QMI_OPT_FLAG 1 tlv off :: l) c in_c 1 n pend = enc_ref f l c in_c 1 1 pend.
Proof. intros Hl. cbn [enc_ref]. rewrite decide_False by done. cbn. by rewrite Hl. Qed.

Lemma enc_flag_clear tlv off l' :
  load c (in_c + off) 1 = Ret [0] -> skip_same tlv l = Ret l' ->
  enc_ref (S f) (ei_plain QMI_OPT_FLAG 1 tlv off :: l) c in_c 1 n pend = enc_ref f l' c in_c 1 1 pend.
Proof. intros Hl Hs. cbn [enc_ref]. rewrite decide_False by done. cbn. rewrite Hl. cbn. by rewrite Hs. Qed.

Lemma enc_len_byte tlv off k :
  load c (in_c + off) 1 = Ret [k] -> 0 < k < 256 ->
  enc_ref (S f) (ei_plain QMI_DATA_LEN 1 tlv off :: l) c in_c 1 n pend = enc_ref f l c in_c 1 k (pend ++ [k]).
Proof.
  intros Hl Hk. cbn [enc_ref]. rewrite decide_False by done.
  cbn [ei_plain enc_data_len array_type data_type elem_size offset tlv_type]. rewrite Hl.
  cbn [mbind outcome_bind]. change (store (le_bytes 4 1) 0 [k]) with (Ret [k; 0; 0; 0]). cbn [mbind outcome_bind].
  change (le_val [k; 0; 0; 0]) with (k + 256 * 0). rewrite Z.add_0_r.
  destruct (Z.eqb_spec k 0); [lia|]. done.
Qed.

Lemma enc_structs e a m bs :
  data_type e = QMI_STRUCT -> ei_array e = Some a -> enc_data_len e n = Some m ->
  struct_ref (fun s => enc_ref f a c s 2 0 []) (Z.to_nat m) (in_c + offset e) (elem_size e) = Ret (Some bs) ->
  enc_ref (S f) (e :: l) c in_c 1 n pend
  = (rest ← enc_ref f l c in_c 1 m []; Ret (option_map (app (tlv_bytes (tlv_type e) (pend ++ bs))) rest)).
Proof.
  intros Ht Ha Hm Hs. cbn [enc_ref]. rewrite decide_False by congruence. rewrite Hm, Ht. cbv zeta.
  rewrite Ha. change (1 + 1) with 2. rewrite Hs. done.
Qed.
End steps.

Lemma result_encodes f c s x y :
  load c (s + 0) (1 * 2) = Ret x -> load c (s + 2) (1 * 2) = Ret y ->
  enc_ref (S (S (S f))) servreg_loc_qmi_result_ei c s 2 0 [] = Ret (Some (x ++ y)).
Proof.
  intros Hx Hy. unfold servreg_loc_qmi_result_ei, ei_plain, eoti.
  cbn [enc_ref data_type enc_data_len array_type elem_len elem_size offset tlv_type].
  rewrite !decide_False by done. rewrite decide_True by done.
  change ((1 <? 0) || (2 <? 0)) with false. cbv iota. rewrite Hx. cbn [mbind outcome_bind]. rewrite Hy.
  cbn [mbind outcome_bind option_map]. change (2 =? 1) with false. cbv iota. by rewrite app_nil_r.
Qed.

Lemma resp_encodes fuel ms :
  Forall domain_ok ms -> (length ms <= 255)%nat -> (16 <= fuel)%nat ->
  enc_ref fuel servreg_loc_get_domain_list_resp_ei (domain_resp (resp_header ms) ms) 0 1 0 []
  = Ret (Some (resp_wire ms)).
Proof.
  intros Hms Hk Hf. unfold domain_resp. generalize (replicate (272 * (255 - length ms)) 0) as z. intros z.
  remember (resp_header ms ++ entries ms ++ z) as o eqn:Ho. set (k := Z.of_nat (length ms)).
  assert (forall off n bs, load (resp_header ms) off n = Ret bs -> load o off n = Ret bs) as Hld.
  { intros off n bs Hb. rewrite Ho, load_app_l; [done|]. apply load_ret_inv in Hb. lia. }
  do 9 (destruct fuel as [|fuel]; [lia|]). unfold servreg_loc_get_domain_list_resp_ei.
  assert (struct_ref (fun s => enc_ref (S (S (S (S (S (S (S (S fuel)))))))) servreg_loc_qmi_result_ei o s 2 0 [])
    (Z.to_nat 1) (0 + 0) 4 = Ret (Some ([0; 0] ++ [0; 0]))) as Hres.
  { change (Z.to_nat 1) with 1%nat. cbn [struct_ref].
    rewrite (result_encodes _ o (0 + 0) [0; 0] [0; 0]) by (by apply Hld). done. }
  rewrite (enc_structs _ _ _ _ _ _ (ei_struct 4 2 0 servreg_loc_qmi_result_ei) _ 1 _ eq_refl eq_refl eq_refl Hres).
  rewrite enc_flag_set by (by apply Hld).
  rewrite (enc_plain _ _ _ _ _ _ QMI_UNSIGNED_2_BYTE 2 16 6 (le_bytes 2 k)) by (done || by apply Hld).
  rewrite enc_flag_set by (by apply Hld).
  rewrite (enc_plain _ _ _ _ _ _ QMI_UNSIGNED_2_BYTE 2 17 10 [1; 0]) by (done || by apply Hld).
  destruct (decide (ms = [])) as [->|Hne].
  - rewrite (enc_flag_clear _ _ _ _ _ _ 18 12 [eoti]) by (done || by apply Hld). reflexivity.
  - assert (0 < k) as Hk0 by (unfold k; destruct ms; [done|simpl; lia]).
    assert (le_bytes 4 k = [k; 0; 0; 0]) as Hle.
    { unfold le_bytes. rewrite (Z.mod_small k 256), (Z.div_small k 256) by lia. done. }
    rewrite enc_flag_set by (apply Hld; unfold resp_header; fold k; destruct (Z.eqb_spec k 0); [lia|done]).
    rewrite (enc_len_byte _ _ _ _ _ _ 18 16 k) by (lia || (apply Hld; unfold resp_header; fold k; rewrite Hle; done)).
    rewrite (enc_structs _ _ _ _ _ _ (MkEi QMI_STRUCT 255 272 VAR_LEN_ARRAY 18 20 (Some servreg_loc_domain_list_entry_ei))
      servreg_loc_domain_list_entry_ei k (concat (map entry_wire ms))); try done.
    + cbn [enc_ref]. rewrite decide_True by done. cbn [mbind outcome_bind option_map tlv_type].
      unfold resp_wire, list_wire. fold k. rewrite u8_small by lia. rewrite app_nil_r.
      destruct ms; [done|]. reflexivity.
    + cbn [enc_data_len array_type elem_len]. destruct (Z.leb_spec k 0); [lia|].
      destruct (Z.ltb_spec 255 k); [lia|done].
    + cbn [offset elem_size]. unfold k. rewrite Nat2Z.id. apply (entries_encode _ o ms (resp_header ms) z); [done|done|lia].
Qed.

(** ** The handler *)

Lemma store_hdr hdr ms off bs hdr' :
  store hdr off bs = Ret hdr' -> store (domain_resp hdr ms) off bs = Ret (domain_resp hdr' ms).
Proof. intros Hs. unfold domain_resp. by apply store_app_l. Qed.

Lemma zero_resp :
  replicate (Z.to_nat sizeof_servreg_loc_get_domain_list_resp) 0 = domain_resp (replicate 20 0) [].
Proof.
  unfold domain_resp. change (entries []) with (@nil Z). rewrite app_nil_l, <- replicate_add. f_equal.
Qed.

#[local] Opaque domain_resp.

(** The stores around the loop. *)
Lemma resp_filled ms :
  (resp ← store (domain_resp ([0; 0; 0; 0; 0; 0; 0; 0; 1; 0; 1; 0] ++ replicate 8 0) ms) 16
            (le_bytes 4 (Z.of_nat (length ms)));
   resp ← (if negb (Z.of_nat (length ms) =? 0) then store resp 12 [1] else Ret resp);
   resp ← store resp 4 [1];
   store resp 6 (le_bytes 2 (Z.of_nat (length ms))))
  = Ret (domain_resp (resp_header ms) ms).
Proof.
  set (k := Z.of_nat (length ms)). unfold resp_header. fold k. cbv zeta.
  rewrite (store_hdr _ ms 16 (le_bytes 4 k) ([0; 0; 0; 0; 0; 0; 0; 0; 1; 0; 1; 0; 0; 0; 0; 0] ++ le_bytes 4 k))
    by reflexivity.
  cbn [mbind outcome_bind]. destruct (k =? 0); cbn [negb mbind outcome_bind].
  - rewrite (store_hdr _ ms 4 [1] ([0; 0; 0; 0; 1; 0; 0; 0; 1; 0; 1; 0; 0; 0; 0; 0] ++ le_bytes 4 k)) by reflexivity.
    cbn [mbind outcome_bind]. by apply store_hdr.
  - rewrite (store_hdr _ ms 12 [1] ([0; 0; 0; 0; 0; 0; 0; 0; 1; 0; 1; 0; 1; 0; 0; 0] ++ le_bytes 4 k)) by reflexivity.
    cbn [mbind outcome_bind].
    rewrite (store_hdr _ ms 4 [1] ([0; 0; 0; 0; 1; 0; 0; 0; 1; 0; 1; 0; 1; 0; 0; 0] ++ le_bytes 4 k)) by reflexivity.
    cbn [mbind outcome_bind]. by apply store_hdr.
Qed.

(** A request that decodes, with the name it asks for. *)
Definition list_request (pkt : packet) (name : list Z) (txn : Z) : Prop :=
  exists ret req req',
    qmi_decode_message (replicate 268 0) (pk_data pkt) (pk_len pkt) QMI_REQUEST
      SERVREG_LOC_GET_DOMAIN_LIST (Some servreg_loc_get_domain_list_req_ei) = Ret (ret, req, Some txn)
    /\ 0 <= ret /\ store req 259 [0] = Ret req' /\ cstr req' 4 = Ret name.

Lemma handle_lists maps stk pkt name txn :
  list_request pkt name txn -> (256 <= length (stk_resp stk))%nat ->
  Forall domain_ok (matching maps name) -> (length (matching maps name) <= 255)%nat ->
  Z.of_nat (length (resp_wire (matching maps name))) <= 249 ->
  handle_get_domain_list maps stk pkt
  = Ret (Some (message_bytes QMI_RESPONSE SERVREG_LOC_GET_DOMAIN_LIST txn (resp_wire (matching maps name)))).
Proof.
  intros (ret & req & req' & Hd & Hr & Hst & Hn) Hj Hok Hk Hfit. unfold handle_get_domain_list. rewrite Hd.
  cbn [mbind outcome_bind]. destruct (Z.ltb_spec ret 0); [lia|]. change (4 + 255) with 259. rewrite Hst.
  cbn [mbind outcome_bind]. rewrite Hn. cbn [mbind outcome_bind txn_or]. rewrite zero_resp.
  rewrite (store_hdr (replicate 20 0) [] 8 [1] ([0; 0; 0; 0; 0; 0; 0; 0; 1] ++ replicate 11 0)) by reflexivity.
  cbn [mbind outcome_bind].
  rewrite (store_hdr ([0; 0; 0; 0; 0; 0; 0; 0; 1] ++ replicate 11 0) [] 10 (le_bytes 2 1) ([0; 0; 0; 0; 0; 0; 0; 0; 1; 0; 1; 0] ++ replicate 8 0)) by reflexivity.
  cbn [mbind outcome_bind]. change 0 with (Z.of_nat (length (@nil pd_map))) at 1.
  rewrite domain_loop_lists; [|done|constructor|done|done]. rewrite app_nil_l.
  pose proof (resp_filled (matching maps name)) as Hf. set (ms := matching maps name) in *.
  cbn [mbind outcome_bind]. change (Z.of_nat (length (@nil pd_map))) with 0.
  destruct (store _ 16 _) as [r1| |]; try done. cbn [mbind outcome_bind] in *.
  destruct (if negb _ then _ else _) as [r2| |]; try done. cbn [mbind outcome_bind] in *.
  destruct (store r2 4 [1]) as [r3| |]; try done. cbn [mbind outcome_bind] in *. rewrite Hf.
  cbn [mbind outcome_bind]. apply respond_written; [done| |done]. apply resp_encodes; [done|done|].
  unfold qmi_fuel. change (Z.to_nat 256) with 256%nat. lia.
Qed.
