(* ===== verification/Firmware.v ===== *)
(** * The firmware directories (src/qcom/pd-mapper/pd-mapper.c, src/qcom/tqftpserv/translate.c)

    Both services go through /sys/class/remoteproc, read the [firmware] attribute
    of each remote processor and look into the directory of the file it names.
    The kernel's directories and files are the class [Remoteprocs]; here are the
    steps the two loops share, and the search for map files of pd-mapper, which
    collects them in an associative array.  Paths are those of the Android
    build. *)

From Stdlib Require Import ZArith Lia.
From stdpp Require Import base gmap list numbers strings.
From S2P Require Import Prelude CLib Json Assoc PdMapper.

(** ** The files of the kernel *)

(** [class_entries]: the names [readdir] gives, [None] when the directory cannot
    be opened or read.  [attr_read attr]: what [openat] and [read] of a file
    below it give: [None] when it cannot be opened, [Some None] when the read
    fails.  [dir_entries path]: the names in a firmware directory.
    [file_content path]: the content of a file that can be read. *)
Class Remoteprocs : Type :=
  { class_entries : option (list (list Z));
    attr_read : list Z -> option (option (list Z));
    dir_entries : list Z -> option (list (list Z));
    file_content : list Z -> option (list Z) }.

Definition PATH_MAX : Z := 4096.
Definition FIRMWARE_BASE : list Z := bytes_of_string "/vendor/firmware/".

(** [firmware_attr] of a directory entry, [None] where the loop continues; the
    buffer has 32 bytes and [sizeof("/firmware")] is 10. *)
Definition firmware_attr (d_name : list Z) : option (list Z) :=
  if decide (d_name = bytes_of_string ".") then None
  else if decide (d_name = bytes_of_string "..") then None
  else if 32 <? strlen d_name + 10 then None
  else Some (d_name ++ bytes_of_string "/firmware").

Section enumerate.
Context `{Remoteprocs}.

(** [&d_name[len - 4]] is [".jsn"]. *)
Definition is_jsn (d_name : list Z) : bool :=
  (5 <=? strlen d_name) && bool_decide (drop (length d_name - 4) d_name = bytes_of_string ".jsn").

(** The loop over a firmware directory; [value] is [firmware_value].  A name in
    a directory has at most 255 characters, so that [json_path] has room. *)
Fixpoint fw_dir_loop (json_set : assoc) (path value : list Z) (names : list (list Z)) : outcome assoc :=
  match names with
  | [] => Ret json_set
  | d_name :: names' =>
      if bool_decide (d_name = bytes_of_string ".") || bool_decide (d_name = bytes_of_string "..")
      then fw_dir_loop json_set path value names'
      else if negb (is_jsn d_name) then fw_dir_loop json_set path value names'
      else if PATH_MAX <? strlen FIRMWARE_BASE + strlen value + 1 + strlen d_name + 1
      then fw_dir_loop json_set path value names'
      else
        json_set ← assoc_set json_set (path ++ [c_slash] ++ d_name) 0;
        fw_dir_loop json_set path value names'
  end.

(** The loop over the remote processors.  [n] is a [size_t]: a failed [read] is
    not noticed and [firmware_value[n]] lies outside the buffer, as it does when
    the buffer is full. *)
Fixpoint class_loop (json_set : assoc) (entries : list (list Z)) : outcome assoc :=
  match entries with
  | [] => Ret json_set
  | d_name :: entries' =>
      match firmware_attr d_name with
      | None => class_loop json_set entries'
      | Some attr =>
          match attr_read attr with
          | None => class_loop json_set entries'
          | Some None => Fault
          | Some (Some bs) =>
              if PATH_MAX <=? strlen bs then Fault
              else
                let value := until_nul bs in
                if PATH_MAX <? strlen FIRMWARE_BASE + strlen value + 1 then class_loop json_set entries'
                else
                  let path := FIRMWARE_BASE ++ dirname value in
                  match dir_entries path with
                  | None => Fault (* readdir(NULL) *)
                  | Some names =>
                      json_set ← fw_dir_loop json_set path value names;
                      class_loop json_set entries'
                  end
          end
      end
  end.

(** The return code is not used by the caller. *)
Definition pd_enumerate_jsons (json_set : assoc) : outcome assoc :=
  match class_entries with None => Ret json_set | Some entries => class_loop json_set entries end.

Definition pd_load_maps (fuel : nat) : outcome (Z * list pd_map) :=
  json_set ← assoc_init 20;
  json_set ← pd_enumerate_jsons json_set;
  files ← assoc_foreach json_set;
  pd_load_files fuel 0 [] (file_content <$> files).

(** [main] up to the socket: [None] is an exit.  [pd_maps] is NULL exactly when
    no file was loaded, since every file has a service. *)
Definition pd_main_load (fuel : nat) : outcome (option (list pd_map)) :=
  '(ret, maps) ← pd_load_maps fuel;
  Ret (if negb (ret =? 0) then None else match maps with [] => None | _ => Some maps end).

End enumerate.

(** ** What is found *)

Section found.
Context `{Remoteprocs}.

(** The directory of a remote processor and its [firmware_value], when the
    attribute is usable. *)
Definition fw_dir_of (d_name : list Z) : option (list Z * list Z) :=
  match firmware_attr d_name ≫= attr_read with
  | Some (Some bs) =>
      if PATH_MAX <? strlen FIRMWARE_BASE + strlen (until_nul bs) + 1 then None
      else Some (FIRMWARE_BASE ++ dirname (until_nul bs), until_nul bs)
  | _ => None
  end.

(** The map files of a directory. *)
Definition jsn_in (value d_name : list Z) : bool :=
  is_jsn d_name && (strlen FIRMWARE_BASE + strlen value + 1 + strlen d_name + 1 <=? PATH_MAX).

Definition dir_jsns (path value : list Z) (names : list (list Z)) : list (list Z) :=
  (fun d => path ++ [c_slash] ++ d) <$> List.filter (jsn_in value) names.

(** The map files of all remote processors, in order, with repetitions. *)
Definition entry_jsns (d_name : list Z) : list (list Z) :=
  match fw_dir_of d_name with
  | None => []
  | Some (path, value) => dir_jsns path value (default [] (dir_entries path))
  end.

Definition found_jsns : list (list Z) := default [] class_entries ≫= entry_jsns.

(** The reads of the attribute succeed, it is shorter than the buffer, and the
    directory can be opened. *)
Definition entry_ok (d_name : list Z) : Prop :=
  match firmware_attr d_name ≫= attr_read with
  | None => True
  | Some None => False
  | Some (Some bs) => strlen bs < PATH_MAX
  end
  /\ match fw_dir_of d_name with None => True | Some (path, _) => is_Some (dir_entries path) end.

Definition with_null (ps : list (list Z)) : list (list Z * Z) := (fun p => (p, 0)) <$> ps.

Lemma assoc_sets_app kvs kvs' : forall a,
  assoc_sets a (kvs ++ kvs') = (a' ← assoc_sets a kvs; assoc_sets a' kvs').
Proof.
  induction kvs as [|[k v] kvs IH]; intros a; cbn [assoc_sets app]; [done|].
  destruct (assoc_set a k v) as [b| |]; cbn [mbind outcome_bind]; [apply IH|done|done].
Qed.

Lemma is_jsn_dots d : is_jsn d = true -> d <> bytes_of_string "." /\ d <> bytes_of_string "..".
Proof. intros Hd. split; intros ->; vm_compute in Hd; done. Qed.

Lemma fw_dir_loop_sets path value names : forall a,
  fw_dir_loop a path value names = assoc_sets a (with_null (dir_jsns path value names)).
Proof.
  unfold dir_jsns, with_null. induction names as [|d names IH]; intros a; [done|]. cbn [fw_dir_loop List.filter].
  unfold jsn_in at 1. destruct (is_jsn d) eqn:Hj.
  - destruct (is_jsn_dots d Hj) as [H1 H2]. rewrite !bool_decide_false by done. cbn [orb negb andb].
    destruct (Z.ltb_spec PATH_MAX (strlen FIRMWARE_BASE + strlen value + 1 + strlen d + 1)) as [Hl|Hl].
    + destruct (Z.leb_spec (strlen FIRMWARE_BASE + strlen value + 1 + strlen d + 1) PATH_MAX); [lia|]. apply IH.
    + destruct (Z.leb_spec (strlen FIRMWARE_BASE + strlen value + 1 + strlen d + 1) PATH_MAX); [|lia].
      cbn [fmap list_fmap assoc_sets]. destruct (assoc_set a _ 0) as [b| |]; cbn [mbind outcome_bind]; [apply IH|done|done].
  - cbn [negb andb]. destruct (_ || _); apply IH.
Qed.

Lemma class_loop_entry e entries a :
  entry_ok e -> class_loop a (e :: entries) = (a' ← assoc_sets a (with_null (entry_jsns e)); class_loop a' entries).
Proof.
  intros [Hr Hd]. cbn [class_loop]. unfold entry_jsns. unfold fw_dir_of in *.
  destruct (firmware_attr e) as [attr|]; cbn [mbind option_bind] in *; [|done].
  destruct (attr_read attr) as [[bs|]|]; [|done|done].
  destruct (Z.leb_spec PATH_MAX (strlen bs)); [lia|]. cbv zeta.
  destruct (_ <? _); [done|]. destruct Hd as [names Hn]. rewrite Hn. cbn [default from_option id].
  by rewrite fw_dir_loop_sets.
Qed.

Lemma class_loop_sets entries : forall a,
  Forall entry_ok entries -> class_loop a entries = assoc_sets a (with_null (entries ≫= entry_jsns)).
Proof.
  induction entries as [|e entries IH]; intros a Hok; [done|].
  apply list.Forall_cons in Hok as [He Hok]. rewrite class_loop_entry by done. cbn [mbind list_bind].
  unfold with_null. rewrite fmap_app, assoc_sets_app. fold (with_null (entry_jsns e)).
  destruct (assoc_sets a _) as [b| |]; cbn [mbind outcome_bind]; [by apply IH|done|done].
Qed.

Lemma inserts_null ps : forall M k, is_Some (inserts M (with_null ps) !! k) <-> k ∈ ps \/ is_Some (M !! k).
Proof.
  unfold with_null. induction ps as [|p ps IH]; intros M k; cbn; [set_solver|].
  fold (inserts (<[p := 0]> M) ((fun p => (p, 0)) <$> ps)). rewrite IH, elem_of_cons.
  destruct (decide (k = p)) as [->|Hne]; [rewrite lookup_insert_eq|rewrite lookup_insert_ne by done]; naive_solver.
Qed.

(** The search finds every map file, and each once. *)
Lemma enumerate_spec :
  Forall entry_ok (default [] class_entries) -> 30 * Z.of_nat (length found_jsns) < 18446744073709551000 ->
  exists a (ps : list (list Z)), (a0 ← assoc_init 20; pd_enumerate_jsons a0) = Ret a /\ assoc_foreach a = Ret ps
    /\ NoDup ps /\ forall p, p ∈ ps <-> p ∈ found_jsns.
Proof.
  intros Hok Hb. unfold assoc_init. cbn [Nat.eqb mbind outcome_bind].
  destruct (assoc_sets_repr 20 (with_null found_jsns) _ _ (assoc_repr_fresh 20)) as (a & Hs & HM & Hinv).
  { unfold assoc_inv. cbn. lia. }
  { unfold with_null. rewrite length_fmap. cbn. lia. }
  destruct (assoc_foreach_repr a _ HM) as (ps & Hf & Hnd & Hin). exists a, ps. split_and!; [|done|done|].
  - rewrite <- Hs. unfold pd_enumerate_jsons, found_jsns. destruct class_entries as [es|]; [|done].
    by apply class_loop_sets.
  - intros p. rewrite Hin, inserts_null, lookup_empty. split; [intros [?|[? ?]]; done|by left].
Qed.

End found.
