(* ===== verification/PdClaims.v ===== *)
(** * What the protection domain mapper guarantees

    Its JSON reader against the grammar of JsonProofs, the table it loads, and
    the answers it gives from the table. *)

From Stdlib Require Import ZArith Lia.
From stdpp Require Import base list numbers strings.
From S2P Require Import Prelude CLib Packet QmiCodec QmiMessages QmiDecode QmiEncode.
From S2P Require Import Rmtfs RmtfsProofs Json JsonProofs Assoc PdMapper PdProofs Firmware.

(** ** The reader *)

(** C28: The JSON reader reads back what is printed.  Every text of the grammar
    within the limits of the reader (strings of up to 127 characters without
    escapes, numbers of up to 19 digits, no empty arrays or objects), with any
    white space, is read, with fuel linear in its length, as the value it
    stands for. *)
Theorem json_text_roundtrip w1 t w2 fuel :
  spaces w1 = true -> tok t = true -> spaces w2 = true -> (3 * length (ttext t) <= fuel)%nat ->
  json_parse fuel (w1 ++ ttext t ++ w2) = Ret (Some (terase t)).
Proof.
  intros Hw1 Ht Hw2 Hf. apply (parse_text w1 t w2); [|done]. cbn [padded_ok]. by rewrite Hw1, Ht, Hw2.
Qed.

Definition demo_tree : jtree :=
  TObject [([10], bytes_of_string "a", [], ([32], TArray [([], TNumber [49], []); ([32], TNull, [])], []));
           ([], bytes_of_string "b", [32], ([], TString (bytes_of_string "x y"), [10]))].

Lemma json_text_roundtrip_witness :
  json_parse 200 ([32] ++ ttext demo_tree ++ [10])
  = Ret (Some (JSON_OBJECT [(bytes_of_string "a", JSON_ARRAY [JSON_NUMBER [49]; JSON_NULL]);
                            (bytes_of_string "b", JSON_STRING (bytes_of_string "x y"))])).
Proof.
  apply (json_text_roundtrip [32] demo_tree [10] 200).
  - reflexivity.
  - reflexivity.
  - reflexivity.
  - vm_compute. lia.
Defined.

(** At the end of the input the reader steps back, onto the bracket. *)
Lemma lone_bracket fuel :
  (forall pos, pos = 0 \/ pos = 1 -> json_parse_value [c_lbracket] fuel pos = OutOfFuel)
  /\ json_parse_array [c_lbracket] fuel 0 = OutOfFuel
  /\ (forall acc, array_loop [c_lbracket] fuel acc 1 = OutOfFuel).
Proof.
  induction fuel as [|fuel (IHv & IHa & IHl)]; [done|]. split_and!.
  - intros pos Hpos. cbn [json_parse_value].
    assert (json_skip_whitespace [c_lbracket] pos = Ret 0) as -> by (destruct Hpos as [-> | ->]; reflexivity).
    cbn [mbind outcome_bind]. destruct fuel as [|fuel]; [done|].
    pose proof (not_object_at [c_lbracket] (S fuel) [] c_lbracket [] eq_refl) as Ho.
    change (Z.of_nat (length (@nil Z))) with 0 in Ho. rewrite Ho by (done || lia).
    cbn [mbind outcome_bind fst snd Z.eqb]. rewrite IHa. done.
  - cbn [json_parse_array]. change (input [c_lbracket] 0) with (@Ret (Z * Z) (c_lbracket, 1)).
    cbn [mbind outcome_bind]. change (negb (c_lbracket =? c_lbracket)) with false. cbv iota. apply IHl.
  - intros acc. cbn [array_loop]. rewrite IHv by (by right). done.
Qed.

(** The reader does not terminate on a text that ends right behind an
    opening bracket: at the end of the input [unput] steps back onto the
    bracket, which is then read as a nested array, without end. *)
Theorem lone_bracket_never_ends fuel : json_parse fuel (bytes_of_string "[") = OutOfFuel.
Proof.
  unfold json_parse. change (bytes_of_string "[") with [c_lbracket].
  destruct (lone_bracket fuel) as (Hv & _ & _). rewrite Hv by (by left). done.
Qed.

(** ** The table *)

(** The services of a file: provider and service of each. *)
Definition service_of (it : json_value) (ps : list Z * list Z) : Prop :=
  json_get_string (Some it) (bytes_of_string "provider") = Some ps.1
  /\ json_get_string (Some it) (bytes_of_string "service") = Some ps.2.

Record file_ok (root : json_value) (soc domain subdomain number : list Z) (svcs : list (list Z * list Z)) : Prop :=
  MkFileOk
  { fo_soc : json_get_string (json_get_child root (bytes_of_string "sr_domain")) (bytes_of_string "soc") = Some soc;
    fo_domain : json_get_string (json_get_child root (bytes_of_string "sr_domain")) (bytes_of_string "domain") = Some domain;
    fo_sub : json_get_string (json_get_child root (bytes_of_string "sr_domain")) (bytes_of_string "subdomain") = Some subdomain;
    fo_number : json_get_number (json_get_child root (bytes_of_string "sr_domain")) (bytes_of_string "qmi_instance_id") = (0, Some number);
    fo_services : exists its, json_get_child root (bytes_of_string "sr_service") = Some (JSON_ARRAY its)
                    /\ Forall2 service_of its svcs }.

(** The entry for one of them. *)
Definition pd_entry (soc domain subdomain number : list Z) (ps : list Z * list Z) : pd_map :=
  MkPdMap (ps.1 ++ [c_slash] ++ ps.2) (soc ++ [c_slash] ++ domain ++ [c_slash] ++ subdomain) (to_int number).

Lemma load_loop_appends soc domain subdomain number its svcs :
  Forall2 service_of its svcs -> forall maps,
  load_loop maps soc domain subdomain number its
  = (0, maps ++ map (pd_entry soc domain subdomain number) svcs).
Proof.
  induction 1 as [|it [p s] its svcs [Hp Hs] _ IH]; intros maps; cbn [load_loop map]; [by rewrite app_nil_r|].
  cbn [fst snd] in Hp, Hs. rewrite Hp, Hs, IH. by rewrite <- app_assoc.
Qed.

Lemma load_root_appends maps root soc domain subdomain number svcs :
  file_ok root soc domain subdomain number svcs ->
  pd_load_root maps root = (0, maps ++ map (pd_entry soc domain subdomain number) svcs).
Proof.
  intros [Hs Hd Hsub Hn (its & Hi & Hall)]. unfold pd_load_root. rewrite Hn, Hs, Hd, Hsub, Hi.
  cbn [json_count_children]. destruct (Z.ltb_spec (Z.of_nat (length its)) 0); [lia|].
  by apply load_loop_appends.
Qed.

(** A readable map file and the entries it stands for. *)
Definition map_file (fuel : nat) (file : option (list Z)) (es : list pd_map) : Prop :=
  exists w1 t w2 soc domain subdomain number svcs,
    file = Some (w1 ++ ttext t ++ w2) /\ spaces w1 = true /\ tok t = true /\ spaces w2 = true
    /\ file_ok (terase t) soc domain subdomain number svcs /\ (3 * length (ttext t) <= fuel)%nat
    /\ es = map (pd_entry soc domain subdomain number) svcs.

Lemma load_map_appends fuel file es maps :
  map_file fuel file es -> pd_load_map fuel maps file = Ret (0, maps ++ es).
Proof.
  intros (w1 & t & w2 & soc & domain & sub & number & svcs & -> & Hw1 & Ht & Hw2 & Hok & Hf & ->).
  unfold pd_load_map, json_parse_file.
  rewrite (parse_text w1 t w2) by (cbn [padded_ok]; by rewrite ?Hw1, ?Ht, ?Hw2).
  cbn [mbind outcome_bind]. by rewrite (load_root_appends _ _ _ _ _ _ _ Hok).
Qed.

Lemma load_files_append fuel (ents : list Z -> list pd_map) (content : list Z -> option (list Z)) ps : forall maps,
  Forall (fun p => map_file fuel (content p) (ents p)) ps ->
  pd_load_files fuel 0 maps (content <$> ps) = Ret (0, maps ++ (ps ≫= ents)).
Proof.
  induction ps as [|p ps IH]; intros maps Hall; [by rewrite app_nil_r|].
  apply list.Forall_cons in Hall as [Hp Hall]. cbn [fmap list_fmap pd_load_files].
  rewrite (load_map_appends _ _ _ _ Hp). cbn [mbind outcome_bind list_bind]. change (0 <? 0) with false. cbv iota.
  rewrite (IH _ Hall). by rewrite <- app_assoc.
Qed.

(** Loading a map file.  A file with a domain and a list of services, as any
    text of the grammar, adds exactly one entry per service to the table, in
    the order of the file, under the names provider/service and
    soc/domain/subdomain. *)
Theorem map_file_loads maps w1 t w2 soc domain subdomain number svcs fuel :
  spaces w1 = true -> tok t = true -> spaces w2 = true ->
  file_ok (terase t) soc domain subdomain number svcs -> (3 * length (ttext t) <= fuel)%nat ->
  pd_load_map fuel maps (Some (w1 ++ ttext t ++ w2))
  = Ret (0, maps ++ map (pd_entry soc domain subdomain number) svcs).
Proof.
  intros Hw1 Ht Hw2 Hok Hf. apply load_map_appends. by exists w1, t, w2, soc, domain, subdomain, number, svcs.
Qed.

(** A file in the layout of the firmware. *)
Definition demo_jsn : jtree :=
  let str k v := ([], bytes_of_string k, [], ([32], TString (bytes_of_string v), [])) in
  TObject [ ([], bytes_of_string "sr_domain", [],
             ([], TObject [str "soc" "msm"; str "domain" "modem"; str "subdomain" "wlan_pd";
                           ([], bytes_of_string "qmi_instance_id", [], ([32], TNumber [49; 56; 48], []))], []));
            ([10], bytes_of_string "sr_service", [],
             ([], TArray [([], TObject [str "provider" "kernel"; str "service" "elf_loader"], []);
                          ([], TObject [str "provider" "wlan"; str "service" "fw"], [])], [])) ]%string.

Definition demo_svcs : list (list Z * list Z) :=
  [(bytes_of_string "kernel", bytes_of_string "elf_loader"); (bytes_of_string "wlan", bytes_of_string "fw")]%string.

Definition demo_maps : list pd_map :=
  [MkPdMap (bytes_of_string "kernel/elf_loader") (bytes_of_string "msm/modem/wlan_pd") 180;
   MkPdMap (bytes_of_string "wlan/fw") (bytes_of_string "msm/modem/wlan_pd") 180]%string.

Lemma demo_file_ok :
  file_ok (terase demo_jsn) (bytes_of_string "msm") (bytes_of_string "modem") (bytes_of_string "wlan_pd")
    [49; 56; 48] demo_svcs.
Proof.
  split; try (vm_compute; reflexivity). eexists. split; [vm_compute; reflexivity|].
  repeat constructor; vm_compute; reflexivity.
Qed.

Lemma map_file_loads_witness : pd_load_map 2000 [] (Some ([] ++ ttext demo_jsn ++ [10])) = Ret (0, demo_maps).
Proof.
  apply (map_file_loads [] [] demo_jsn [10] (bytes_of_string "msm") (bytes_of_string "modem")
    (bytes_of_string "wlan_pd") [49; 56; 48] demo_svcs 2000).
  - reflexivity.
  - vm_compute. reflexivity.
  - reflexivity.
  - exact demo_file_ok.
  - vm_compute. lia.
Defined.

(** Starting up.  pd-mapper goes through the firmware directories of all
    remote processors and loads every map file in them, each once, even when
    several remote processors share a directory: the table holds exactly the
    entries of these files. *)
Theorem pd_startup_loads `{Remoteprocs} fuel (ents : list Z -> list pd_map) :
  Forall entry_ok (default [] class_entries) -> 30 * Z.of_nat (length found_jsns) < 18446744073709551000 ->
  Forall (fun p => map_file fuel (file_content p) (ents p) /\ ents p <> []) found_jsns -> found_jsns <> [] ->
  exists ps : list (list Z), NoDup ps /\ (forall p, p ∈ ps <-> p ∈ found_jsns)
    /\ pd_main_load fuel = Ret (Some (ps ≫= ents)).
Proof.
  intros Hok Hb Hall Hne. destruct (enumerate_spec Hok Hb) as (a & ps & Ha & Hf & Hnd & Hin).
  exists ps. split_and!; [done|done|].
  assert (Forall (fun p => map_file fuel (file_content p) (ents p) /\ ents p <> []) ps) as Hps.
  { apply Forall_forall. intros p Hp. apply Hin in Hp. revert p Hp. by apply Forall_forall. }
  unfold pd_main_load, pd_load_maps. unfold assoc_init in *. cbn [Nat.eqb mbind outcome_bind] in *.
  rewrite Ha. cbn [mbind outcome_bind]. rewrite Hf. cbn [mbind outcome_bind].
  rewrite (load_files_append _ ents); [|eapply Forall_impl; [exact Hps|by intros ? []]].
  cbn [mbind outcome_bind app]. change (negb (0 =? 0)) with false. cbv iota.
  destruct ps as [|p ps].
  { destruct found_jsns as [|p ps]; [done|]. by destruct (not_elem_of_nil p); apply Hin; left. }
  apply list.Forall_cons in Hps as [[_ He] _]. cbn [mbind list_bind]. by destruct (ents p).
Qed.

(** Two remote processors with their firmware in one directory. *)
#[local] Instance demo_procs : Remoteprocs :=
  {| class_entries := Some [bytes_of_string "."; bytes_of_string "remoteproc0"; bytes_of_string "remoteproc1"];
     attr_read attr := Some (Some (if decide (attr = bytes_of_string "remoteproc0/firmware")
                                   then bytes_of_string "qcom/sdm845/modem.mdt" else bytes_of_string "qcom/sdm845/adsp.mdt"));
     dir_entries path := Some [bytes_of_string "modem.mdt"; bytes_of_string "modemr.jsn"];
     file_content path := Some (ttext demo_jsn) |}.

Lemma demo_map_file : map_file 2000 (Some (ttext demo_jsn)) demo_maps.
Proof.
  exists [], demo_jsn, [], (bytes_of_string "msm"), (bytes_of_string "modem"), (bytes_of_string "wlan_pd"),
    [49; 56; 48], demo_svcs.
  split_and!; [by rewrite app_nil_r|vm_compute; reflexivity..|exact demo_file_ok|vm_compute; lia|reflexivity].
Qed.

Lemma pd_startup_loads_witness :
  found_jsns = [bytes_of_string "/vendor/firmware/qcom/sdm845/modemr.jsn";
                bytes_of_string "/vendor/firmware/qcom/sdm845/modemr.jsn"]
  /\ pd_main_load 2000 = Ret (Some demo_maps).
Proof.
  split; [vm_compute; reflexivity|].
  destruct (pd_startup_loads 2000 (fun _ => demo_maps)) as (ps & Hnd & Hin & Hm).
  - vm_compute. repeat constructor; by eexists.
  - vm_compute. reflexivity.
  - apply Forall_forall. intros p _. split; [exact demo_map_file|done].
  - vm_compute. done.
  - rewrite Hm. set (path := bytes_of_string "/vendor/firmware/qcom/sdm845/modemr.jsn") in *.
    assert (ps = [path]) as ->; [|reflexivity]. apply Permutation_singleton_r, NoDup_Permutation; [done| |].
    + apply NoDup_singleton.
    + intros p. rewrite Hin. change found_jsns with [path; path]. rewrite !elem_of_cons. clear. naive_solver.
Defined.

(** ** The answers *)

(** A get-domain-list request is answered with the domains of exactly the
    entries of the table whose service is the one asked for, in order, their
    number and the revision; whenever these fit the packet of 256 bytes. *)
Theorem domain_list_answers maps stk pkt name txn :
  list_request pkt name txn -> (256 <= length (stk_resp stk))%nat ->
  Forall domain_ok (matching maps name) -> (length (matching maps name) <= 255)%nat ->
  Z.of_nat (length (resp_wire (matching maps name))) <= 249 ->
  handle_get_domain_list maps stk pkt
  = Ret (Some (message_bytes QMI_RESPONSE SERVREG_LOC_GET_DOMAIN_LIST txn (resp_wire (matching maps name)))).
Proof. apply handle_lists. Qed.

(** A request for [name]. *)
Definition list_req_msg (name : list Z) : list Z :=
  qmi_header_bytes (MkHdr 0 9 SERVREG_LOC_GET_DOMAIN_LIST (3 + Z.of_nat (length name)))
  ++ 1 :: le_bytes 2 (Z.of_nat (length name)) ++ name.

Definition list_pkt (name : list Z) : packet :=
  MkPacket 0 20 (list_req_msg name ++ replicate 300 0) (Z.of_nat (length (list_req_msg name))).

Definition demo_stk : stack := MkStack 0 (replicate 256 170) [].

Lemma domain_list_answers_witness :
  handle_get_domain_list demo_maps demo_stk (list_pkt (bytes_of_string "wlan/fw"))
  = Ret (Some ([2; 9; 0; 33; 0; 48; 0; 2; 4; 0; 0; 0; 0; 0; 16; 2; 0; 1; 0; 17; 2; 0; 1; 0; 18; 28; 0; 1; 17]
               ++ bytes_of_string "msm/modem/wlan_pd" ++ [180; 0; 0; 0; 0; 0; 0; 0; 0])).
Proof.
  apply (domain_list_answers demo_maps demo_stk (list_pkt (bytes_of_string "wlan/fw")) (bytes_of_string "wlan/fw") 9).
  - eexists _, _, _. split; [vm_compute; reflexivity|]. split; [lia|]. split; vm_compute; reflexivity.
  - vm_compute. lia.
  - constructor; [|constructor]. split; [vm_compute; lia|]. repeat constructor; done.
  - vm_compute. lia.
  - vm_compute. congruence.
Defined.
