(* ===== verification/PdMain.v ===== *)
(** * pd-mapper as a program (src/qcom/pd-mapper/pd-mapper.c)

    [main] loads the map files, publishes the service and answers requests until
    its socket fails.  The theorem follows a request from the bytes a client
    sends to the bytes it receives, through the files found on the system. *)

From Stdlib Require Import ZArith Lia.
From stdpp Require Import base list numbers strings.
From S2P Require Import Prelude CLib Packet QmiCodec QmiMessages QmiDecode QmiEncode QmiTurns.
From S2P Require Import Rmtfs RmtfsProofs Json JsonProofs Assoc PdMapper PdProofs Firmware PdClaims.

(** ** The program *)

Definition SERVREG_QMI_SERVICE : Z := 64.
Definition SERVREG_QMI_VERSION : Z := 257.
Definition SERVREG_QMI_INSTANCE : Z := 0.

(** What one turn of the loop gets: an error of [qrtr_poll], or what [recvfrom]
    gives (the length or [-errno], the buffer and the sender), with the old content of the stack. *)
Inductive pd_input : Type :=
| PollFails (errno : Z)
| Got (stk : stack) (ret : Z) (buf : list Z) (sq : sockaddr_qrtr).

(** The loop: the calls made, and what [main] returns unless it still runs. *)
Fixpoint pd_loop (fd : Z) (maps : list pd_map) (inputs : list pd_input) : outcome (list syscall * option Z) :=
  match inputs with
  | [] => Ret ([], None)
  | PollFails errno :: inputs' => if errno =? EINTR then pd_loop fd maps inputs' else Ret ([Close fd], Some 0)
  | Got stk ret buf sq :: inputs' =>
      r ← pd_turn maps stk ret buf sq;
      match r with
      | inl ret => Ret ([], Some ret)
      | inr calls => '(calls', ret) ← pd_loop fd maps inputs'; Ret (calls ++ calls', ret)
      end
  end.

(** [main]: [sock] and [rc_opt] are the answers [qrtr_open] gets, [g] and [rc] those of
    [qrtr_publish]. *)
Definition pd_main `{Remoteprocs} (fuel : nat) (sock rc_opt : Z) (g : sockname) (rc : Z) (inputs : list pd_input)
    : outcome (list syscall * option Z) :=
  loaded ← pd_main_load fuel;
  match loaded with
  | None => Ret ([], Some 1)
  | Some maps =>
      let '(fd, calls) := qrtr_open 0 sock rc_opt 0 in
      if fd <? 0 then Ret (calls, Some 1)
      else
        let '(ret, calls') := qrtr_publish SERVREG_QMI_SERVICE SERVREG_QMI_VERSION SERVREG_QMI_INSTANCE g rc in
        if ret <? 0 then Ret (calls ++ calls', Some 1)
        else '(calls'', ret) ← pd_loop fd maps inputs; Ret (calls ++ calls' ++ calls'', ret)
  end.

(** ** The bytes of a request *)

(** The message a client sends to ask for the domains of a service, from the entry
    [off] of the list on if it says so. *)
Definition list_request_body (name : list Z) (off : option Z) : list Z :=
  tlv_bytes 1 name ++ match off with Some o => tlv_bytes 16 (le_bytes 4 o) | None => [] end.

Definition list_request_bytes (txn : Z) (name : list Z) (off : option Z) : list Z :=
  message_bytes QMI_REQUEST SERVREG_LOC_GET_DOMAIN_LIST txn (list_request_body name off).

Lemma length_request txn name off : Z.of_nat (length (list_request_bytes txn name off)) = 7 + Z.of_nat (length (list_request_body name off)).
Proof. unfold list_request_bytes. rewrite length_message. lia. Qed.

Lemma request_fits name off : name_ok name -> 3 <= Z.of_nat (length (list_request_body name off)) <= 265.
Proof. intros [_ Hl]. unfold list_request_body. rewrite length_app, length_tlv_bytes. destruct off; [rewrite length_tlv_bytes, length_le_bytes|cbn [length]]; lia. Qed.

(** The structure the handler finds. *)
Definition list_struct (name : list Z) (off : option Z) : list Z :=
  replicate 4 0 ++ name ++ replicate (256 - length name) 0
  ++ match off with Some o => [1; 0; 0; 0] ++ le_bytes 4 o | None => replicate 8 0 end.

(** The name with its NUL, and what comes behind it. *)
Lemma list_struct_split name off : (length name <= 255)%nat ->
  exists tl, list_struct name off = replicate 4 0 ++ name ++ 0 :: tl
    /\ tl = replicate (255 - length name) 0 ++ match off with Some o => [1; 0; 0; 0] ++ le_bytes 4 o | None => replicate 8 0 end.
Proof. intros Hl. eexists. split; [|done]. unfold list_struct. by replace (256 - length name)%nat with (S (255 - length name)) by lia. Qed.

Lemma list_struct_nul name off : name_ok name -> store (list_struct name off) 259 [0] = Ret (list_struct name off).
Proof.
  intros [_ Hl]. unfold list_struct. set (tl := match off with Some _ => _ | None => _ end).
  replace (256 - length name)%nat with (255 - length name + 1)%nat by lia. rewrite replicate_add, <- app_assoc, (app_assoc name), (app_assoc (replicate 4 0)).
  apply (store_mid _ [0] [0] tl); [|done]. rewrite !length_app, !length_replicate. lia.
Qed.

Lemma list_struct_name name off : name_ok name -> cstr (list_struct name off) 4 = Ret name.
Proof.
  intros [Hnz Hl]. destruct (list_struct_split name off Hl) as (tl & -> & _). unfold cstr. rewrite (strlen_at (replicate 4 0) name tl Hnz : strlen _ 4 = _).
  cbn [mbind outcome_bind]. exact (load_mid (replicate 4 0) name _ 4 _ eq_refl eq_refl).
Qed.

(** How a request decodes. *)
Lemma list_body_decodes txn name off junk :
  0 <= txn < 65536 -> name_ok name ->
  qmi_decode_message (replicate 268 0) (list_request_bytes txn name off ++ junk) (7 + Z.of_nat (length (list_request_body name off)))
    QMI_REQUEST SERVREG_LOC_GET_DOMAIN_LIST (Some servreg_loc_get_domain_list_req_ei)
  = Ret (Z.of_nat (length (list_request_body name off)), list_struct name off, Some txn).
Proof.
  intros Ht Hok. pose proof Hok as [_ Hl]. pose proof (request_fits name off Hok) as Hlen. apply message_decodes; [done|done|done|lia| |done].
  intros fuel. set (buf := _ ++ junk). set (n := Z.of_nat (length (list_request_body name off))). assert (has buf 7 (list_request_body name off)) as Hm by apply message_body.
  assert (exists g, (3 + length (list_request_body name off) + fuel)%nat = S (S (S g))) as (g & ->) by (exists (length (list_request_body name off) + fuel)%nat; lia).
  assert (replicate 268 0 = replicate 4 0 ++ replicate (length name) 0 ++ 0 :: replicate (255 - length name) 0 ++ replicate 8 0) as ->.
  { change (0 :: replicate (255 - length name) 0 ++ replicate 8 0) with (replicate 1 0 ++ replicate (255 - length name) 0 ++ replicate 8 0). rewrite <- !replicate_add. f_equal. lia. }
  set (e := MkEi QMI_STRING 256 1 VAR_LEN_ARRAY 1 4 None). unfold list_request_body in Hm. apply has_app in Hm as [H1 H2].
  rewrite (tlv_turn_string servreg_loc_get_domain_list_req_ei buf n (S (S g)) 1 name e (drop 1 servreg_loc_get_domain_list_req_ei)
    (replicate 4 0) (replicate (length name) 0) 0); try done; try (unfold n; cbn [elem_len e]; lia); [|by rewrite length_replicate].
  destruct (list_struct_split name off Hl) as (tl & -> & ->). destruct off as [o|].
  - set (pre := replicate 4 0 ++ name ++ 0 :: replicate (255 - length name) 0).
    assert (length pre = 260%nat) as Hpre by (unfold pre; rewrite !length_app; cbn [length]; rewrite !length_replicate; lia).
    assert (forall tl, replicate 4 0 ++ name ++ 0 :: replicate (255 - length name) 0 ++ tl = pre ++ tl) as Hsp by (intros tl; unfold pre; by rewrite <- !app_assoc).
    rewrite !Hsp. rewrite (tlv_turn_opt servreg_loc_get_domain_list_req_ei buf n (S g) 16 (le_bytes 4 o) (ei_plain QMI_OPT_FLAG 1 16 260) (ei_plain QMI_UNSIGNED_4_BYTE 4 16 264) [eoti]
      (pre ++ [1; 0; 0; 0]) (replicate 4 0) []); try done; try (unfold n, list_request_body; rewrite ?length_app, ?length_tlv_bytes, ?length_le_bytes; lia).
    + match goal with |- context [MkDec _ _ _ ?k] => replace k with n by (unfold n, list_request_body; rewrite !length_app; lia) end.
      rewrite turns_end by (unfold n; lia). by rewrite <- !app_assoc, app_nil_r.
    + cbn [offset ei_plain]. change (replicate 8 0) with ([0] ++ replicate 7 0). rewrite (store_mid pre [0] [1] (replicate 7 0)) by (done || lia).
      by rewrite <- !app_assoc.
    + cbn [offset ei_plain]. rewrite length_app, Hpre. done.
  - match goal with |- context [MkDec _ _ _ ?k] => replace k with n by (unfold n, list_request_body; rewrite !length_app; cbn [length]; lia) end.
    rewrite turns_end by (unfold n; lia). done.
Qed.

Lemma list_request_decodes node port txn name off junk :
  0 <= txn < 65536 -> name_ok name ->
  list_request (MkPacket node port (list_request_bytes txn name off ++ junk) (Z.of_nat (length (list_request_bytes txn name off)))) name txn.
Proof.
  intros Ht Hok. exists (Z.of_nat (length (list_request_body name off))), (list_struct name off), (list_struct name off). split_and!.
  - cbn [pk_data pk_len]. rewrite length_request. by apply list_body_decodes.
  - lia.
  - by apply list_struct_nul.
  - by apply list_struct_name.
Qed.

(** ** Runs *)

(** What happens in a turn: a signal, a request of a client, or a packet pd-mapper
    has nothing to do with. *)
Inductive pd_event : Type :=
| Interrupted
| Asked (from : sockaddr_qrtr) (txn : Z) (name : list Z) (off : option Z)
| Unrelated.

(** The turn as the program sees it, whatever the stack and the rest of the buffer hold. *)
Inductive happens : pd_event -> pd_input -> Prop :=
| happens_signal : happens Interrupted (PollFails EINTR)
| happens_request from txn name off stk junk :
    sq_port from <> QRTR_PORT_CTRL -> 0 <= txn < 65536 -> name_ok name -> (256 <= length (stk_resp stk))%nat ->
    happens (Asked from txn name off) (Got stk (Z.of_nat (length (list_request_bytes txn name off))) (list_request_bytes txn name off ++ junk) from)
| happens_control stk ret buf from :
    sq_port from = QRTR_PORT_CTRL -> sizeof_ctrl_pkt <= ret -> s32 (cmd (ctrl_pkt_of_bytes buf)) <> QRTR_TYPE_DATA -> happens Unrelated (Got stk ret buf from)
| happens_other stk ret buf from rc id :
    sq_port from <> QRTR_PORT_CTRL -> 0 <= ret -> qmi_decode_header buf ret = Ret (rc, id) -> rc < 0 \/ id <> Some SERVREG_LOC_GET_DOMAIN_LIST ->
    happens Unrelated (Got stk ret buf from).

(** The answer to what happens, from the table. *)
Definition answer (maps : list pd_map) (ev : pd_event) : list syscall :=
  match ev with
  | Asked from txn name _ =>
      [Sendto (MkSq AF_QIPCRTR (sq_node from) (sq_port from))
         (message_bytes QMI_RESPONSE SERVREG_LOC_GET_DOMAIN_LIST txn (resp_wire (matching maps name)))]
  | _ => []
  end.

(** The answer fits the packet. *)
Definition answer_fits (maps : list pd_map) (ev : pd_event) : Prop :=
  match ev with
  | Asked _ _ name _ =>
      Forall domain_ok (matching maps name) /\ (length (matching maps name) <= 255)%nat /\ Z.of_nat (length (resp_wire (matching maps name))) <= 249
  | _ => True
  end.

Lemma pd_turn_asked maps from txn name off stk junk :
  sq_port from <> QRTR_PORT_CTRL -> 0 <= txn < 65536 -> name_ok name -> (256 <= length (stk_resp stk))%nat -> answer_fits maps (Asked from txn name off) ->
  pd_turn maps stk (Z.of_nat (length (list_request_bytes txn name off))) (list_request_bytes txn name off ++ junk) from = Ret (inr (answer maps (Asked from txn name off))).
Proof.
  intros Hp Ht Hn Hstk (Hd & H255 & Hw). pose proof Hn as [_ Hl]. unfold pd_turn. destruct (Z.ltb_spec (Z.of_nat (length (list_request_bytes txn name off))) 0); [lia|].
  unfold qrtr_decode. rewrite (proj2 (Z.eqb_neq _ _) Hp). change (0 <? 0) with false. cbv iota. cbn [p_type p_node p_port]. rewrite Z.eqb_refl.
  rewrite length_request. unfold list_request_bytes. pose proof (request_fits name off Hn).
  rewrite message_decode_header by (done || lia). cbn [mbind outcome_bind]. change (0 <? 0) with false. cbv iota. rewrite Z.eqb_refl.
  pose proof (list_request_decodes (sq_node from) (sq_port from) txn name off junk Ht Hn) as Hreq. rewrite length_request in Hreq. unfold list_request_bytes in Hreq.
  by rewrite (handle_lists maps stk _ name txn Hreq Hstk Hd H255 Hw).
Qed.

Lemma pd_turn_unrelated maps stk ret buf from : happens Unrelated (Got stk ret buf from) -> pd_turn maps stk ret buf from = Ret (inr []).
Proof.
  intros Hev. unfold pd_turn. inversion Hev as [| |s r b f Hp Hr Hcmd|s r b f rc id Hp Hr Hh Hid]; subst.
  - unfold sizeof_ctrl_pkt in Hr. destruct (Z.ltb_spec ret 0); [lia|]. unfold qrtr_decode. rewrite Hp, Z.eqb_refl.
    change sizeof_ctrl_pkt with 20. destruct (Z.ltb_spec ret 20); [lia|]. cbv zeta.
    set (t := s32 (cmd (ctrl_pkt_of_bytes buf))) in *.
    destruct (t =? QRTR_TYPE_BYE); [|destruct (t =? QRTR_TYPE_DEL_CLIENT); [|destruct (_ || _)]]; change (0 <? 0) with false; cbv iota; cbn [p_type];
      try (by rewrite (proj2 (Z.eqb_neq _ _) Hcmd)); done.
  - destruct (Z.ltb_spec ret 0); [lia|]. unfold qrtr_decode. rewrite (proj2 (Z.eqb_neq _ _) Hp). change (0 <? 0) with false. cbv iota. cbn [p_type].
    rewrite Z.eqb_refl, Hh. cbn [mbind outcome_bind]. destruct (Z.ltb_spec rc 0); [done|]. destruct id as [id|]; [|done].
    destruct (Z.eqb_spec id SERVREG_LOC_GET_DOMAIN_LIST) as [->|]; [|done]. destruct Hid; [lia|done].
Qed.

Lemma pd_loop_answers fd maps evs inputs :
  Forall2 happens evs inputs -> Forall (answer_fits maps) evs -> pd_loop fd maps inputs = Ret (concat (answer maps <$> evs), None).
Proof.
  induction 1 as [|ev i evs inputs Hev _ IH]; [done|]. intros [Hf Hfs]%list.Forall_cons. specialize (IH Hfs). cbn [fmap list_fmap concat]. destruct i as [errno|stk ret buf sq]; cbn [pd_loop].
  - inversion Hev; subst. rewrite Z.eqb_refl. exact IH.
  - assert (pd_turn maps stk ret buf sq = Ret (inr (answer maps ev))) as ->; [|cbn [mbind outcome_bind]; rewrite IH; reflexivity].
    destruct ev; [inversion Hev|inversion Hev; subst; by apply pd_turn_asked|by apply pd_turn_unrelated].
Qed.

(** C9: pd-mapper answers from the files of the system.  Started with map files in the
    firmware directories, it publishes the service and then sends exactly one
    answer to each request of a client for a list, with a name of up to 255 characters and
    with or without an offset, in order and to the client that asked: the domains that the map
    files, each loaded once, list for the service whose name the client put into its
    message (all of them, whatever the offset).  In between there may be signals, control packets of at least 20 bytes, and
    packets of clients that are not requests for a list.  The answers fit the packet of
    256 bytes. *)
Theorem pd_mapper_answers `{Remoteprocs} fuel (ents : list Z -> list pd_map) sock g sq rc evs inputs :
  Forall entry_ok (default [] class_entries) -> 30 * Z.of_nat (length found_jsns) < 18446744073709551000 ->
  Forall (fun p => map_file fuel (file_content p) (ents p) /\ ents p <> []) found_jsns -> found_jsns <> [] ->
  0 <= sock -> qrtr_getname g = Some sq -> 0 <= rc -> Forall2 happens evs inputs ->
  (forall ps, NoDup ps -> (forall p, p ∈ ps <-> p ∈ found_jsns) -> Forall (answer_fits (ps ≫= ents)) evs) ->
  exists ps, NoDup ps /\ (forall p, p ∈ ps <-> p ∈ found_jsns)
    /\ pd_main fuel sock 0 g rc inputs
       = Ret ([Socket; Setsockopt; Sendto (MkSq AF_QIPCRTR (sq_node sq) QRTR_PORT_CTRL) (ctrl_pkt_bytes (MkPkt QRTR_TYPE_NEW_SERVER SERVREG_QMI_SERVICE 257 0 0))]
              ++ concat (answer (ps ≫= ents) <$> evs), None).
Proof.
  intros Hok Hb Hall Hne Hs Hg Hrc Hin Hfit. destruct (pd_startup_loads fuel ents Hok Hb Hall Hne) as (ps & Hnd & Hps & Hload).
  exists ps. split_and!; [done|done|]. unfold pd_main. rewrite Hload. cbn [mbind outcome_bind]. unfold qrtr_open. destruct (Z.ltb_spec sock 0); [lia|].
  cbn [negb Z.eqb]. destruct (Z.ltb_spec sock 0); [lia|]. unfold qrtr_publish, qrtr_new_server, send_ctrl, qrtr_sendto. rewrite Hg.
  destruct (Z.ltb_spec rc 0); [lia|]. change (0 <? 0) with false. cbv iota. rewrite (pd_loop_answers _ _ _ _ Hin (Hfit ps Hnd Hps)). done.
Qed.

(** A request, a signal and a control packet, with the file of PdClaims. *)
Definition demo_events : list pd_event := [Asked (MkSq 42 5 20) 9 (bytes_of_string "wlan/fw") (Some 0); Interrupted; Unrelated].

Definition demo_inputs : list pd_input :=
  [Got demo_stk 24 (list_request_bytes 9 (bytes_of_string "wlan/fw") (Some 0) ++ replicate 300 170) (MkSq 42 5 20);
   PollFails EINTR;
   Got demo_stk 20 (ctrl_pkt_bytes (MkPkt QRTR_TYPE_BYE 5 0 0 0)) (MkSq 42 5 QRTR_PORT_CTRL)].

Lemma pd_mapper_answers_witness :
  exists ps, NoDup ps /\ (forall p, p ∈ ps <-> p ∈ @found_jsns demo_procs)
    /\ @pd_main demo_procs 2000 3 0 (MkSockname 0 (MkSq AF_QIPCRTR 1 16384) sizeof_sockaddr_qrtr) 20 demo_inputs
       = Ret ([Socket; Setsockopt; Sendto (MkSq AF_QIPCRTR 1 QRTR_PORT_CTRL) (ctrl_pkt_bytes (MkPkt QRTR_TYPE_NEW_SERVER SERVREG_QMI_SERVICE 257 0 0))]
              ++ concat (answer (ps ≫= fun _ => demo_maps) <$> demo_events), None).
Proof.
  apply (@pd_mapper_answers demo_procs 2000 (fun _ => demo_maps) 3 (MkSockname 0 (MkSq AF_QIPCRTR 1 16384) sizeof_sockaddr_qrtr) (MkSq AF_QIPCRTR 1 16384)).
  - vm_compute. repeat constructor; by eexists.
  - vm_compute. reflexivity.
  - apply Forall_forall. intros p _. split; [exact demo_map_file|done].
  - vm_compute. done.
  - lia.
  - reflexivity.
  - lia.
  - constructor; [|constructor; [constructor|constructor; [apply happens_control; by vm_compute|constructor]]].
    apply (happens_request (MkSq 42 5 20) 9 (bytes_of_string "wlan/fw") (Some 0) demo_stk (replicate 300 170)); [done|lia|split; [repeat constructor; done|vm_compute; lia]|vm_compute; lia].
  - intros ps Hnd Hps. set (path := bytes_of_string "/vendor/firmware/qcom/sdm845/modemr.jsn") in *. assert (ps = [path]) as ->.
    { apply Permutation_singleton_r, NoDup_Permutation; [done|apply NoDup_singleton|]. intros p. rewrite Hps. change (@found_jsns demo_procs) with [path; path].
      rewrite !elem_of_cons. clear. naive_solver. }
    repeat constructor; try done; vm_compute; repeat constructor; try done; lia.
Defined.
