(* ===== verification/Dll.v ===== *)
(** * Linked cells

    The memory of the two intrusive list implementations
    (src/qcom/qrtr/src/list.h and src/qcom/tqftpserv/list.h): a cell is a [next]
    and a [prev] pointer inside an object, an address is a number and 0 is
    NULL.  A segment is a run of cells that link each other; its lemmas carry
    the proofs of both implementations. *)

From Stdlib Require Import ZArith Lia.
From stdpp Require Import base gmap numbers list strings.
From S2P Require Import Prelude.

Record cell : Type := MkCell { c_next : Z; c_prev : Z }.

Notation heap := (gmap Z cell).

(** [p->next], [p->prev] and the assignments to them; a pointer that is not the
    address of a cell is a [Fault]. *)
Definition deref (h : heap) (p : Z) : outcome cell :=
  match h !! p with Some c => Ret c | None => Fault end.

Definition get_next (h : heap) (p : Z) : outcome Z := c ← deref h p; Ret (c_next c).
Definition get_prev (h : heap) (p : Z) : outcome Z := c ← deref h p; Ret (c_prev c).

Definition set_next (h : heap) (p v : Z) : outcome heap :=
  c ← deref h p; Ret (<[p := MkCell v (c_prev c)]> h).
Definition set_prev (h : heap) (p v : Z) : outcome heap :=
  c ← deref h p; Ret (<[p := MkCell (c_next c) v]> h).

(** ** Segments *)

(** The first and the last address of a list, or [d]. *)
Definition first_or (d : Z) (xs : list Z) : Z := hd d xs.
Definition last_or (d : Z) (xs : list Z) : Z := List.last xs d.

(** The cells [xs], linked in order, between the cells [p] and [n]. *)
Fixpoint seg (h : heap) (p : Z) (xs : list Z) (n : Z) : Prop :=
  match xs with
  | [] => True
  | x :: xs' => h !! x = Some (MkCell (first_or n xs') p) /\ seg h x xs' n
  end.

Lemma last_or_cons d x xs : last_or d (x :: xs) = last_or x xs.
Proof.
  unfold last_or. revert d x. induction xs as [|y ys IH]; intros d x; [done|].
  change (List.last (y :: ys) d = List.last (y :: ys) x). by rewrite (IH d y), (IH x y).
Qed.

Lemma last_or_snoc d xs x : last_or d (xs ++ [x]) = x.
Proof. apply List.last_last. Qed.

Lemma last_or_app d xs ys : last_or d (xs ++ ys) = last_or (last_or d xs) ys.
Proof. revert d. induction xs as [|x xs IH]; intros d; [done|]. cbn [app]. by rewrite !last_or_cons, IH. Qed.

Lemma first_or_app d xs ys : first_or d (xs ++ ys) = first_or (first_or d ys) xs.
Proof. by destruct xs. Qed.

Lemma seg_app h xs ys : forall p n,
  seg h p (xs ++ ys) n <-> seg h p xs (first_or n ys) /\ seg h (last_or p xs) ys n.
Proof.
  induction xs as [|x xs IH]; intros p n; cbn [app seg]; [tauto|].
  rewrite IH, last_or_cons, first_or_app. tauto.
Qed.

Lemma seg_frame h xs x c : forall p n, x ∉ xs -> seg h p xs n -> seg (<[x := c]> h) p xs n.
Proof.
  induction xs as [|y xs IH]; intros p n Hx; cbn [seg]; [done|]. apply not_elem_of_cons in Hx as [Hxy Hx].
  intros [Hy Hs]. split; [by rewrite lookup_insert_ne|by apply IH].
Qed.

(** Relinking the ends of a segment. *)
Lemma seg_set_prev h p q x xs n :
  NoDup (x :: xs) -> seg h p (x :: xs) n ->
  seg (<[x := MkCell (first_or n xs) q]> h) q (x :: xs) n.
Proof.
  intros Hnd [Hx Hs]. apply NoDup_cons in Hnd as [Hn _]. cbn [seg]. split; [by rewrite lookup_insert_eq|].
  by apply seg_frame.
Qed.

Lemma seg_set_next h p xs x n m :
  NoDup (xs ++ [x]) -> seg h p (xs ++ [x]) n ->
  seg (<[x := MkCell m (last_or p xs)]> h) p (xs ++ [x]) m.
Proof.
  intros Hnd Hs. apply NoDup_app in Hnd as (_ & Hd & _). apply seg_app in Hs as [Hxs Hx]. apply seg_app. split.
  - apply seg_frame; [|done]. intros H. by apply (Hd x H), list_elem_of_singleton.
  - cbn [seg first_or hd]. by rewrite lookup_insert_eq.
Qed.

(** The cell of an element. *)
Lemma seg_lookup h p xs x ys n :
  seg h p (xs ++ x :: ys) n -> h !! x = Some (MkCell (first_or n ys) (last_or p xs)).
Proof. rewrite seg_app. cbn [seg]. tauto. Qed.

Lemma deref_ret h p c : h !! p = Some c -> deref h p = Ret c.
Proof. unfold deref. by intros ->. Qed.

(** ** Walking *)

(** [for (it = first; it != stop; it = it->next)]: the cells visited. *)
Fixpoint walk (fuel : nat) (h : heap) (stop it : Z) : outcome (list Z) :=
  match fuel with
  | O => OutOfFuel
  | S fuel' =>
      if it =? stop then Ret []
      else next ← get_next h it; xs ← walk fuel' h stop next; Ret (it :: xs)
  end.

Lemma walk_seg h stop xs : forall fuel p,
  (length xs < fuel)%nat -> stop ∉ xs -> seg h p xs stop -> walk fuel h stop (first_or stop xs) = Ret xs.
Proof.
  induction xs as [|x xs IH]; intros [|fuel] p Hf Hs Hseg; cbn [length] in Hf; try lia; cbn [walk first_or hd].
  { by rewrite Z.eqb_refl. }
  apply not_elem_of_cons in Hs as [Hx Hs]. destruct Hseg as [Hc Hseg].
  destruct (Z.eqb_spec x stop); [done|]. unfold get_next. rewrite (deref_ret _ _ _ Hc). cbn [mbind outcome_bind c_next].
  rewrite (IH fuel x); [done|lia|done|done].
Qed.

(** Accesses to a cell that is there. *)
Lemma get_next_ret h p c : h !! p = Some c -> get_next h p = Ret (c_next c).
Proof. intros H. unfold get_next. by rewrite (deref_ret _ _ _ H). Qed.

Lemma get_prev_ret h p c : h !! p = Some c -> get_prev h p = Ret (c_prev c).
Proof. intros H. unfold get_prev. by rewrite (deref_ret _ _ _ H). Qed.

Lemma set_next_ret h p c v : h !! p = Some c -> set_next h p v = Ret (<[p := MkCell v (c_prev c)]> h).
Proof. intros H. unfold set_next. by rewrite (deref_ret _ _ _ H). Qed.

Lemma set_prev_ret h p c v : h !! p = Some c -> set_prev h p v = Ret (<[p := MkCell (c_next c) v]> h).
Proof. intros H. unfold set_prev. by rewrite (deref_ret _ _ _ H). Qed.

(** Writing both fields of one cell, in either order. *)
Lemma set_next_prev {B} h p n q (k : heap -> outcome B) :
  is_Some (h !! p) -> (h ← set_next h p n; h ← set_prev h p q; k h) = k (<[p := MkCell n q]> h).
Proof.
  intros [c Hc]. rewrite (set_next_ret _ _ _ _ Hc). cbn [mbind outcome_bind].
  rewrite (set_prev_ret _ _ (MkCell n (c_prev c))) by (by rewrite lookup_insert_eq). by rewrite insert_insert_eq.
Qed.

Lemma set_prev_next {B} h p n q (k : heap -> outcome B) :
  is_Some (h !! p) -> (h ← set_prev h p q; h ← set_next h p n; k h) = k (<[p := MkCell n q]> h).
Proof.
  intros [c Hc]. rewrite (set_prev_ret _ _ _ _ Hc). cbn [mbind outcome_bind].
  rewrite (set_next_ret _ _ (MkCell (c_next c) q)) by (by rewrite lookup_insert_eq). by rewrite insert_insert_eq.
Qed.

(** Overwriting a cell keeps the domain. *)
Lemma dom_overwrite (h : heap) (p : Z) (c : cell) : is_Some (h !! p) -> dom (<[p := c]> h) = dom h.
Proof. intros H. apply dom_insert_lookup_L, H. Qed.

(** The last element, or none. *)
Lemma last_or_cases d xs : (xs = [] /\ last_or d xs = d) \/ exists ys y, xs = ys ++ [y] /\ last_or d xs = y.
Proof.
  destruct xs as [|x xs _] using rev_ind; [by left|]. right. exists xs, x. split; [done|]. apply last_or_snoc.
Qed.

Lemma seg_ext (h h' : heap) xs : forall p n,
  (forall x, x ∈ xs -> h' !! x = h !! x) -> seg h p xs n -> seg h' p xs n.
Proof.
  induction xs as [|x xs IH]; intros p n He; cbn [seg]; [done|]. intros [Hx Hs]. split.
  - rewrite He by (by left). done.
  - apply IH; [|done]. intros y Hy. apply He. by right.
Qed.

Lemma seg_in h p xs n x : seg h p xs n -> x ∈ xs -> is_Some (h !! x).
Proof. intros Hs Hx. apply list_elem_of_split in Hx as (ys & zs & ->). apply seg_lookup in Hs. by eexists. Qed.
