(* ===== verification/QrtrList.v ===== *)
(** * The lists of the qrtr tools (src/qcom/qrtr/src/list.h)

    Doubly linked lists that end in NULL on both sides, with a head and a tail
    pointer, over the cells of Dll.  The name server keeps its lookups and
    the waiter its tickets in them; their models use plain lists, which
    [qlist_refines] justifies. *)

From Stdlib Require Import ZArith Lia.
From stdpp Require Import base gmap numbers list strings.
From S2P Require Import Prelude Dll.

(** [struct list] *)
Record qlist : Type := MkQList { ql_head : Z; ql_tail : Z }.

Definition list_init : qlist := MkQList 0 0.

Definition list_append (h : heap) (l : qlist) (item : Z) : outcome (heap * qlist) :=
  h ← set_next h item 0;
  h ← set_prev h item (ql_tail l);
  if negb (ql_tail l =? 0) then
    h ← set_next h (ql_tail l) item;
    Ret (h, MkQList (ql_head l) item)
  else Ret (h, MkQList item item).

Definition list_prepend (h : heap) (l : qlist) (item : Z) : outcome (heap * qlist) :=
  h ← set_prev h item 0;
  h ← set_next h item (ql_head l);
  Ret (h, MkQList item (if ql_head l =? 0 then item else ql_tail l)).

Definition list_insert (h : heap) (l : qlist) (after item : Z) : outcome (heap * qlist) :=
  if after =? 0 then list_prepend h l item
  else
    h ← set_prev h item after;
    next ← get_next h after;
    h ← set_next h item next;
    h ← set_next h after item;
    next ← get_next h item;
    h ← (if negb (next =? 0) then set_prev h next item else Ret h);
    Ret (h, MkQList (ql_head l) (if ql_tail l =? after then item else ql_tail l)).

Definition list_remove (h : heap) (l : qlist) (item : Z) : outcome (heap * qlist) :=
  next ← get_next h item;
  prev ← get_prev h item;
  h ← (if negb (next =? 0) then set_prev h next prev else Ret h);
  '(h, l) ← (if ql_head l =? item then
               next ← get_next h item;
               Ret (h, MkQList next (if next =? 0 then 0 else ql_tail l))
             else
               prev ← get_prev h item;
               next ← get_next h item;
               h ← set_next h prev next;
               (if ql_tail l =? item then prev ← get_prev h item; Ret (h, MkQList (ql_head l) prev)
                else Ret (h, l)));
  h ← set_next h item 0;
  h ← set_prev h item 0;
  Ret (h, l).

(** The item, NULL when the list is empty. *)
Definition list_pop (h : heap) (l : qlist) : outcome (Z * heap * qlist) :=
  let item := ql_head l in
  if item =? 0 then Ret (0, h, l)
  else '(h, l) ← list_remove h l item; Ret (item, h, l).

Definition list_last (l : qlist) : Z := ql_tail l.
Definition list_first (l : qlist) : Z := ql_head l.
Definition list_next (h : heap) (item : Z) : outcome Z := get_next h item.

(** The items [list_for_each] visits; the loop takes one turn more than there
    are cells, or does not end. *)
Definition list_for_each (h : heap) (l : qlist) : outcome (list Z) := walk (S (size h)) h 0 (ql_head l).

(** ** Representation *)

(** The list holds the items [xs]. *)
Record qrepr (h : heap) (l : qlist) (xs : list Z) : Prop := MkQRepr
  { qr_nodup : NoDup xs;
    qr_null : 0 ∉ xs;
    qr_head : ql_head l = first_or 0 xs;
    qr_tail : ql_tail l = last_or 0 xs;
    qr_seg : seg h 0 xs 0 }.

Lemma qrepr_init h : qrepr h list_init [].
Proof. split; [constructor|set_solver|done..]. Qed.

Lemma list_append_repr h l xs x :
  qrepr h l xs -> is_Some (h !! x) -> x <> 0 -> x ∉ xs ->
  exists h' l', list_append h l x = Ret (h', l') /\ qrepr h' l' (xs ++ [x]) /\ dom h' = dom h.
Proof.
  intros [Hnd H0 Hh Ht Hs] Hx Hx0 Hn. unfold list_append.
  rewrite (set_next_prev h x 0 (ql_tail l)) by done. rewrite Ht.
  assert (NoDup (xs ++ [x])) as Hnd'.
  { apply NoDup_app. split_and!; [done| |apply NoDup_singleton]. intros y Hy ->%list_elem_of_singleton. done. }
  assert (0 ∉ xs ++ [x]) as H0' by (rewrite elem_of_app, list_elem_of_singleton; naive_solver).
  destruct (last_or_cases 0 xs) as [[-> ->]|(ys & y & -> & ->)].
  - exists (<[x := MkCell 0 0]> h), (MkQList x x). cbn. split; [done|]. split; [|by apply dom_overwrite].
    split; cbn; [done..|]. by rewrite lookup_insert_eq.
  - assert (x <> y) by set_solver. assert (y <> 0) by set_solver.
    destruct (Z.eqb_spec y 0); [done|]. cbn [negb].
    pose proof (seg_lookup _ _ _ _ [] _ Hs) as Hy. cbn in Hy.
    rewrite (set_next_ret _ y (MkCell 0 (last_or 0 ys))) by (by rewrite lookup_insert_ne).
    cbn [mbind outcome_bind c_prev]. eexists _, _. split; [done|]. split.
    + split; cbn [ql_head ql_tail]; [done|done| |by rewrite last_or_snoc|].
      * rewrite Hh, first_or_app. by destruct ys.
      * apply seg_app. cbn [first_or hd seg]. rewrite last_or_snoc. split.
        -- apply seg_set_next with (n := 0); [done|]. apply seg_frame; [set_solver|done].
        -- rewrite lookup_insert_ne by done. by rewrite lookup_insert_eq.
    + rewrite dom_overwrite; [by apply dom_overwrite|]. rewrite lookup_insert_ne by done. by eexists.
Qed.

(** [if (next) next->prev = q] *)
Lemma relink_prev h p q zs :
  NoDup zs -> 0 ∉ zs -> seg h p zs 0 ->
  exists h', (if negb (first_or 0 zs =? 0) then set_prev h (first_or 0 zs) q else Ret h) = Ret h'
    /\ seg h' q zs 0 /\ (forall y, y ∉ zs -> h' !! y = h !! y) /\ dom h' = dom h.
Proof.
  intros Hnd H0 Hs. destruct zs as [|z zs]; cbn [first_or hd].
  { rewrite Z.eqb_refl. by exists h. }
  destruct (Z.eqb_spec z 0); [set_solver|]. cbn [negb]. pose proof (proj1 Hs) as Hz.
  rewrite (set_prev_ret _ _ _ _ Hz). cbn [c_next]. eexists. split; [done|]. split_and!.
  - by apply seg_set_prev with (p := p).
  - intros y Hy. rewrite lookup_insert_ne by set_solver. done.
  - by apply dom_overwrite.
Qed.

Lemma nodup_middle (ys zs : list Z) x :
  NoDup (ys ++ x :: zs) -> NoDup (ys ++ zs) /\ NoDup ys /\ NoDup zs /\ x ∉ ys /\ x ∉ zs /\ (forall y, y ∈ ys -> y ∉ zs).
Proof.
  intros H. apply NoDup_app in H as (Hy & Hd & Hz). apply NoDup_cons in Hz as [Hx Hz].
  assert (forall y, y ∈ ys -> y ∉ zs) by set_solver.
  split_and!; [apply NoDup_app; split_and!; done|done|done|set_solver|done|done].
Qed.

(** The tail pointer when an item behind the first is taken out. *)
Lemma tail_without (h : heap) l ys x zs :
  NoDup (ys ++ x :: zs) -> ql_head l = first_or 0 (ys ++ x :: zs) -> ql_tail l = last_or 0 (ys ++ x :: zs) -> ys <> [] ->
  exists l', (if ql_tail l =? x then Ret (h, MkQList (ql_head l) (last_or 0 ys)) else Ret (h, l)) = Ret (h, l')
    /\ ql_head l' = first_or 0 (ys ++ zs) /\ ql_tail l' = last_or 0 (ys ++ zs).
Proof.
  intros Hnd Hh Ht Hne. destruct (nodup_middle _ _ _ Hnd) as (_ & _ & _ & _ & Hxz & _).
  assert (first_or 0 (ys ++ x :: zs) = first_or 0 (ys ++ zs)) as He by (by destruct ys).
  rewrite Ht, !last_or_app, last_or_cons. destruct (last_or_cases x zs) as [[-> ->]|(ws & w & -> & ->)].
  - rewrite Z.eqb_refl. eexists. split; [done|]. split; [cbn; congruence|done].
  - destruct (Z.eqb_spec w x) as [->|_]; [set_solver|]. exists l. split; [done|]. split; [congruence|].
    by rewrite Ht, last_or_app, last_or_cons, !last_or_snoc.
Qed.

Lemma list_remove_repr h l ys x zs :
  qrepr h l (ys ++ x :: zs) ->
  exists h' l', list_remove h l x = Ret (h', l') /\ qrepr h' l' (ys ++ zs) /\ dom h' = dom h.
Proof.
  intros [Hnd H0 Hh Ht Hs]. destruct (nodup_middle _ _ _ Hnd) as (Hnd' & Hndy & Hndz & Hxy & Hxz & Hyz).
  assert (0 ∉ ys ++ zs) as H0' by set_solver.
  pose proof (seg_lookup _ _ _ _ _ _ Hs) as Hx. apply seg_app in Hs as [Hsy [_ Hsz]].
  unfold list_remove. rewrite (get_next_ret _ _ _ Hx), (get_prev_ret _ _ _ Hx). cbn [mbind outcome_bind c_next c_prev].
  destruct (relink_prev h x (last_or 0 ys) zs) as (h1 & -> & Hsz1 & Hfr1 & Hd1); [done|set_solver|done|].
  cbn [mbind outcome_bind]. pose proof Hx as Hx1. rewrite <- (Hfr1 x Hxz) in Hx1.
  destruct (last_or_cases 0 ys) as [[-> _]|(ys' & y & -> & Hlast)].
  - rewrite Hh. cbn [app first_or hd]. rewrite Z.eqb_refl, (get_next_ret _ _ _ Hx1). cbn [mbind outcome_bind c_next].
    rewrite set_next_prev by (by eexists). eexists _, _. split; [done|]. split.
    + split; cbn [ql_head ql_tail app]; [done|set_solver|done| |by apply seg_frame].
      rewrite Ht. cbn [app]. rewrite last_or_cons. destruct zs as [|z zs]; [done|]. cbn [first_or hd].
      destruct (Z.eqb_spec z 0); [set_solver|]. by rewrite !last_or_cons.
    + rewrite dom_overwrite by (by eexists). done.
  - rewrite Hlast in *. assert (y <> x) as Hyx by set_solver.
    assert (h1 !! y = Some (MkCell x (last_or 0 ys'))) as Hy1.
    { rewrite Hfr1 by (apply Hyz; set_solver). by apply (seg_lookup _ _ _ _ [] _ Hsy). }
    assert (first_or 0 ((ys' ++ [y]) ++ x :: zs) =? x = false) as Hne.
    { apply Z.eqb_neq. rewrite <- app_assoc. destruct ys'; cbn; set_solver. }
    rewrite Hh, Hne, (get_prev_ret _ _ _ Hx1), (get_next_ret _ _ _ Hx1). cbn [mbind outcome_bind c_prev c_next].
    rewrite (set_next_ret _ _ _ _ Hy1). cbn [mbind outcome_bind c_prev].
    set (h2 := <[y := MkCell (first_or 0 zs) (last_or 0 ys')]> h1).
    assert (h2 !! x = h1 !! x) as Hx2 by (unfold h2; by rewrite lookup_insert_ne).
    rewrite Hx1 in Hx2.
    assert (seg h2 0 ((ys' ++ [y]) ++ zs) 0) as Hs2.
    { apply seg_app. rewrite last_or_snoc. split.
      - apply seg_set_next with (n := x); [done|].
        apply (seg_ext h); [|done]. intros w Hw. by apply Hfr1, Hyz.
      - apply seg_frame; [|done]. apply Hyz. set_solver. }
    rewrite (get_prev_ret _ _ _ Hx2). cbn [mbind outcome_bind c_prev].
    destruct (tail_without h2 l (ys' ++ [y]) x zs) as (l' & Hl' & Hh' & Ht'); [done|done|done|by destruct ys'|].
    rewrite last_or_snoc, Hh in Hl'. rewrite Hl'. cbn [mbind outcome_bind].
    rewrite set_next_prev by (by eexists). eexists _, _. split; [done|]. split.
    + split; [done|done|done|done|]. apply seg_frame; [set_solver|done].
    + rewrite dom_overwrite by (by eexists). unfold h2. rewrite dom_overwrite by (by eexists). done.
Qed.

Lemma list_insert_repr h l ys a zs x :
  qrepr h l (ys ++ a :: zs) -> is_Some (h !! x) -> x <> 0 -> x ∉ ys ++ a :: zs ->
  exists h' l', list_insert h l a x = Ret (h', l') /\ qrepr h' l' (ys ++ a :: x :: zs) /\ dom h' = dom h.
Proof.
  intros [Hnd H0 Hh Ht Hs] [c Hc] Hx0 Hx. destruct (nodup_middle _ _ _ Hnd) as (_ & Hndy & Hndz & Hay & Haz & Hyz).
  pose proof (seg_lookup _ _ _ _ _ _ Hs) as Ha. apply seg_app in Hs as [Hsy [_ Hsz]].
  assert (a <> 0 /\ x <> a) as [Ha0 Hxa] by set_solver.
  unfold list_insert. destruct (Z.eqb_spec a 0); [done|].
  rewrite (set_prev_ret _ _ _ _ Hc). cbn [mbind outcome_bind].
  rewrite (get_next_ret _ a (MkCell (first_or 0 zs) (last_or 0 ys))) by (by rewrite lookup_insert_ne).
  cbn [mbind outcome_bind c_next]. rewrite (set_next_ret _ x (MkCell (c_next c) a)) by (by rewrite lookup_insert_eq).
  cbn [mbind outcome_bind c_prev]. rewrite insert_insert_eq. set (h1 := <[x := MkCell (first_or 0 zs) a]> h).
  rewrite (set_next_ret h1 a (MkCell (first_or 0 zs) (last_or 0 ys))) by (unfold h1; by rewrite lookup_insert_ne).
  cbn [mbind outcome_bind c_prev]. set (h2 := <[a := MkCell x (last_or 0 ys)]> h1).
  assert (h2 !! x = Some (MkCell (first_or 0 zs) a)) as Hx2.
  { unfold h2, h1. rewrite lookup_insert_ne by done. apply lookup_insert_eq. }
  assert (h2 !! a = Some (MkCell x (last_or 0 ys))) as Ha2 by (apply lookup_insert_eq).
  rewrite (get_next_ret _ _ _ Hx2). cbn [mbind outcome_bind c_next].
  assert (forall p ws n, a ∉ ws -> x ∉ ws -> seg h p ws n -> seg h2 p ws n) as Hfr.
  { intros p ws m H1 H2 H3. by apply seg_frame, seg_frame. }
  destruct (relink_prev h2 a x zs) as (h3 & -> & Hsz3 & Hfr3 & Hd3); [done|set_solver|apply Hfr; set_solver|].
  cbn [mbind outcome_bind]. eexists _, _. split; [done|]. split.
  - split; cbn [ql_head ql_tail].
    + apply NoDup_app in Hnd as (H1 & H2 & H3). apply NoDup_cons in H3 as [H3 H4].
      apply NoDup_app. split_and!; [done|set_solver|]. apply NoDup_cons. split; [set_solver|]. apply NoDup_cons. set_solver.
    + set_solver.
    + rewrite Hh. by destruct ys.
    + rewrite Ht, !last_or_app, !last_or_cons. destruct (last_or_cases a zs) as [[-> ->]|(ws & w & -> & ->)].
      * by rewrite Z.eqb_refl.
      * destruct (Z.eqb_spec w a) as [->|_]; [set_solver|]. by rewrite last_or_snoc.
    + apply seg_app. cbn [seg first_or hd]. rewrite !Hfr3 by set_solver. split_and!; [|done|done|done].
      apply (seg_ext h2); [intros y Hy; apply Hfr3; set_solver|]. apply Hfr; set_solver.
  - rewrite Hd3. unfold h2, h1. rewrite !dom_overwrite; [done|by eexists|]. rewrite lookup_insert_ne by done. by eexists.
Qed.

Lemma list_pop_repr h l xs :
  qrepr h l xs ->
  exists h' l', list_pop h l = Ret (first_or 0 xs, h', l') /\ qrepr h' l' (tail xs) /\ dom h' = dom h.
Proof.
  intros Hq. pose proof Hq as [_ H0 Hh _ _]. unfold list_pop. rewrite Hh. destruct xs as [|x xs]; cbn [first_or hd].
  { rewrite Z.eqb_refl. by exists h, l. }
  destruct (Z.eqb_spec x 0); [set_solver|].
  destruct (list_remove_repr h l [] x xs Hq) as (h' & l' & -> & Hq' & Hd). by exists h', l'.
Qed.

Lemma list_for_each_repr h l xs : qrepr h l xs -> list_for_each h l = Ret xs.
Proof.
  intros [Hnd H0 Hh _ Hs]. unfold list_for_each. rewrite Hh. apply walk_seg with (p := 0); [|done|done].
  apply Nat.lt_succ_r, nodup_size; [done|]. intros x Hx. by apply (seg_in _ _ _ _ _ Hs).
Qed.

(** ** The contract *)

Inductive list_op : Type := OpAppend (x : Z) | OpInsert (after x : Z) | OpRemove (x : Z) | OpPop.

Definition list_exec (h : heap) (l : qlist) (op : list_op) : outcome (heap * qlist) :=
  match op with
  | OpAppend x => list_append h l x
  | OpInsert a x => list_insert h l a x
  | OpRemove x => list_remove h l x
  | OpPop => '(_, h, l) ← list_pop h l; Ret (h, l)
  end.

Fixpoint list_run (h : heap) (l : qlist) (ops : list list_op) : outcome (heap * qlist) :=
  match ops with [] => Ret (h, l) | op :: ops' => '(h, l) ← list_exec h l op; list_run h l ops' end.

(** The same operations on sequences: [after] must be in the sequence, [x] must
    not be when it is put in and must be when it is taken out. *)
Fixpoint insert_after (a x : Z) (xs : list Z) : list Z :=
  match xs with [] => [] | y :: ys => if y =? a then y :: x :: ys else y :: insert_after a x ys end.

Fixpoint take_out (x : Z) (xs : list Z) : list Z :=
  match xs with [] => [] | y :: ys => if y =? x then ys else y :: take_out x ys end.

Definition op_spec (h : heap) (xs : list Z) (op : list_op) : option (list Z) :=
  match op with
  | OpAppend x => if decide (x ∉ xs /\ x <> 0 /\ is_Some (h !! x)) then Some (xs ++ [x]) else None
  | OpInsert a x =>
      if decide (a ∈ xs /\ x ∉ xs /\ x <> 0 /\ is_Some (h !! x)) then Some (insert_after a x xs) else None
  | OpRemove x => if decide (x ∈ xs) then Some (take_out x xs) else None
  | OpPop => Some (tail xs)
  end.

Fixpoint run_spec (h : heap) (xs : list Z) (ops : list list_op) : option (list Z) :=
  match ops with [] => Some xs | op :: ops' => xs ← op_spec h xs op; run_spec h xs ops' end.

Lemma insert_after_app a x ys zs : a ∉ ys -> insert_after a x (ys ++ a :: zs) = ys ++ a :: x :: zs.
Proof.
  induction ys as [|y ys IH]; intros Ha; cbn [app insert_after]; [by rewrite Z.eqb_refl|].
  apply not_elem_of_cons in Ha as [Hay Ha]. destruct (Z.eqb_spec y a); [done|]. by rewrite IH.
Qed.

Lemma take_out_app x ys zs : x ∉ ys -> take_out x (ys ++ x :: zs) = ys ++ zs.
Proof.
  induction ys as [|y ys IH]; intros Ha; cbn [app take_out]; [by rewrite Z.eqb_refl|].
  apply not_elem_of_cons in Ha as [Hay Ha]. destruct (Z.eqb_spec y x); [done|]. by rewrite IH.
Qed.

Lemma list_exec_repr h0 h l xs op xs' :
  dom h = dom h0 -> qrepr h l xs -> op_spec h0 xs op = Some xs' ->
  exists h' l', list_exec h l op = Ret (h', l') /\ qrepr h' l' xs' /\ dom h' = dom h0.
Proof.
  intros Hd Hq Hop. rewrite <- Hd.
  assert (forall x, is_Some (h0 !! x) -> is_Some (h !! x)) as Hin by (intros x; rewrite <- !elem_of_dom, Hd; done).
  destruct op as [x|a x|x|]; cbn [op_spec list_exec] in *.
  - case_decide as Hc; [|done]. injection Hop as <-. apply list_append_repr; naive_solver.
  - case_decide as Hc; [|done]. injection Hop as <-. destruct Hc as (Ha & Hx & Hx0 & Hs).
    apply list_elem_of_split in Ha as (ys & zs & ->). pose proof (qr_nodup _ _ _ Hq) as Hnd.
    rewrite insert_after_app by (apply nodup_middle in Hnd; tauto). apply list_insert_repr; auto.
  - case_decide as Hc; [|done]. injection Hop as <-. apply list_elem_of_split in Hc as (ys & zs & ->).
    pose proof (qr_nodup _ _ _ Hq) as Hnd.
    rewrite take_out_app by (apply nodup_middle in Hnd; tauto). by apply list_remove_repr.
  - injection Hop as <-. destruct (list_pop_repr h l xs Hq) as (h' & l' & -> & ?). by exists h', l'.
Qed.

(** C32: The lists of the qrtr tools refine sequences.  Every sequence of appends,
    insertions, removals and pops that is sensible on sequences runs without a
    bad pointer, whatever the cells held before, and ends with a list whose
    iteration gives exactly the resulting sequence. *)
Theorem qlist_refines h ops xs :
  run_spec h [] ops = Some xs ->
  exists h' l', list_run h list_init ops = Ret (h', l') /\ list_for_each h' l' = Ret xs
    /\ list_first l' = first_or 0 xs /\ list_last l' = last_or 0 xs.
Proof.
  assert (forall ops h1 l1 ys, dom h1 = dom h -> qrepr h1 l1 ys -> run_spec h ys ops = Some xs ->
    exists h' l', list_run h1 l1 ops = Ret (h', l') /\ qrepr h' l' xs) as Hrun.
  { clear ops. induction ops as [|op ops IH]; intros h1 l1 ys Hd Hq Hr; cbn [run_spec list_run] in *.
    - injection Hr as ->. by exists h1, l1.
    - destruct (op_spec h ys op) as [zs|] eqn:Hop; [|done]. cbn [mbind option_bind] in Hr.
      destruct (list_exec_repr h h1 l1 ys op zs Hd Hq Hop) as (h2 & l2 & -> & Hq2 & Hd2). cbn [mbind outcome_bind].
      by apply (IH h2 l2 zs). }
  intros Hr. destruct (Hrun ops h list_init [] eq_refl (qrepr_init h) Hr) as (h' & l' & Hl & Hq).
  exists h', l'. split_and!; [done|by apply list_for_each_repr|by apply (qr_head _ _ _ Hq)|by apply (qr_tail _ _ _ Hq)].
Qed.

(** Four cells with old pointers in them. *)
Definition demo_cells : heap := list_to_map [(1, MkCell 7 7); (2, MkCell 0 9); (3, MkCell 1 2); (4, MkCell 4 4)].
Definition demo_ops : list list_op :=
  [OpAppend 1; OpAppend 2; OpInsert 1 3; OpInsert 2 4; OpRemove 2; OpPop; OpAppend 1].

Lemma qlist_refines_witness :
  exists h' l', list_run demo_cells list_init demo_ops = Ret (h', l') /\ list_for_each h' l' = Ret [3; 4; 1].
Proof.
  destruct (qlist_refines demo_cells demo_ops [3; 4; 1]) as (h' & l' & Hr & Hf & _).
  - vm_compute. reflexivity.
  - exists h', l'. split; [exact Hr|exact Hf].
Defined.

(** [list_prepend] leaves the old first item without a link back: taking that
    item out afterwards follows a NULL pointer. *)
Lemma prepend_then_remove_faults h l x y ys :
  qrepr h l (y :: ys) -> is_Some (h !! x) -> x <> 0 -> x ∉ y :: ys -> h !! 0 = None ->
  exists h' l', list_prepend h l x = Ret (h', l') /\ list_remove h' l' y = Fault.
Proof.
  intros [Hnd H0 Hh Ht [Hy Hs]] Hx Hx0 Hn Hnull. unfold list_prepend. rewrite set_prev_next by done.
  eexists _, _. split; [done|]. rewrite Hh. cbn [first_or hd]. set (h' := <[x := MkCell y 0]> h).
  assert (h' !! y = Some (MkCell (first_or 0 ys) 0)) as Hy' by (unfold h'; rewrite lookup_insert_ne by set_solver; done).
  unfold list_remove. rewrite (get_next_ret _ _ _ Hy'), (get_prev_ret _ _ _ Hy'). cbn [mbind outcome_bind c_next c_prev ql_head].
  apply NoDup_cons in Hnd as [Hyy Hnd].
  destruct (relink_prev h' y 0 ys) as (h1 & -> & _ & Hfr & _); [done|set_solver|apply seg_frame; [set_solver|done]|].
  cbn [mbind outcome_bind]. destruct (Z.eqb_spec x y) as [->|_]; [set_solver|].
  rewrite (get_prev_ret _ y (MkCell (first_or 0 ys) 0)), (get_next_ret _ y (MkCell (first_or 0 ys) 0)) by (by rewrite Hfr).
  cbn [mbind outcome_bind c_prev c_next].
  assert (set_next h1 0 (first_or 0 ys) = Fault) as ->; [|done]. unfold set_next, deref.
  rewrite Hfr by set_solver. unfold h'. rewrite lookup_insert_ne by done. by rewrite Hnull.
Qed.
