(* ===== verification/TftpList.v ===== *)
(** * The lists of tqftpserv (src/qcom/tqftpserv/list.h)

    Circular lists with a sentinel, over the cells of Dll.  tqftpserv keeps its
    readers and writers in two of them and takes clients out while it iterates;
    [for_each_filters] says that such a loop filters the sequence, which is how
    the model of the service treats it. *)

From Stdlib Require Import ZArith Lia.
From stdpp Require Import base gmap numbers list strings.
From S2P Require Import Prelude Dll.

(** [list] is the address of the sentinel. *)
Definition list_init (h : heap) (list : Z) : outcome heap :=
  h ← set_next h list list; set_prev h list list.

Definition list_empty (h : heap) (list : Z) : outcome bool :=
  next ← get_next h list; Ret (next =? list).

Definition list_add (h : heap) (list item : Z) : outcome heap :=
  prev ← get_prev h list;
  h ← set_next h item list;
  h ← set_prev h item prev;
  h ← set_prev h list item;
  set_next h prev item.

Definition list_del (h : heap) (item : Z) : outcome heap :=
  prev ← get_prev h item;
  next ← get_next h item;
  h ← set_next h prev next;
  next ← get_next h item;
  prev ← get_prev h item;
  set_prev h next prev.

(** The loop of [list_for_each_entry_safe].  [body] acts on the state of the
    program and says whether the client is to be closed: it is taken out of the
    list and its memory freed, so that a later access to it would fault. *)
Fixpoint for_each_safe_loop {A : Type} (body : A -> Z -> outcome (A * bool)) (fuel : nat)
    (list : Z) (s : A) (h : heap) (item next : Z) : outcome (A * heap) :=
  match fuel with
  | O => OutOfFuel
  | S fuel' =>
      if item =? list then Ret (s, h)
      else
        '(s, close) ← body s item;
        h ← (if close : bool then h ← list_del h item; Ret (delete item h) else Ret h);
        next' ← get_next h next;
        for_each_safe_loop body fuel' list s h next next'
  end.

Definition list_for_each_entry_safe {A : Type} (body : A -> Z -> outcome (A * bool)) (list : Z) (s : A) (h : heap)
    : outcome (A * heap) :=
  item ← get_next h list;
  next ← get_next h item;
  for_each_safe_loop body (S (size h)) list s h item next.

(** The items [list_for_each_entry] visits. *)
Definition list_for_each_entry (h : heap) (l : Z) : outcome (list Z) :=
  first ← get_next h l; walk (S (size h)) h l first.

(** ** Representation *)

(** The sentinel [l] and the items [xs]. *)
Definition cyc (h : heap) (l : Z) (xs : list Z) : Prop :=
  NoDup (l :: xs) /\ seg h (last_or l xs) (l :: xs) l.

Lemma cyc_sentinel h l xs : cyc h l xs -> h !! l = Some (MkCell (first_or l xs) (last_or l xs)).
Proof. intros [_ [H _]]. exact H. Qed.

(** The cell in front of a suffix. *)
Lemma last_or_split (l : Z) (ys : list Z) : exists ws, l :: ys = ws ++ [last_or l ys].
Proof.
  destruct (last_or_cases l ys) as [[-> ->]|(ws & w & -> & ->)]; [by exists []|by exists (l :: ws)].
Qed.

Lemma cyc_init h l : is_Some (h !! l) -> exists h', list_init h l = Ret h' /\ cyc h' l [] /\ dom h' = dom h.
Proof.
  intros [c Hc]. unfold list_init. rewrite (set_next_ret _ _ _ _ Hc). cbn [mbind outcome_bind].
  rewrite (set_prev_ret _ _ (MkCell l (c_prev c))) by (by rewrite lookup_insert_eq).
  rewrite insert_insert_eq. eexists. split; [done|]. split; [|by apply dom_overwrite].
  split; [apply NoDup_singleton|]. cbn. by rewrite lookup_insert_eq.
Qed.

Lemma list_add_cyc h l xs x :
  cyc h l xs -> is_Some (h !! x) -> x ∉ l :: xs ->
  exists h', list_add h l x = Ret h' /\ cyc h' l (xs ++ [x]) /\ (forall y, y ∉ x :: l :: xs -> h' !! y = h !! y).
Proof.
  intros Hc Hx Hn. pose proof (cyc_sentinel _ _ _ Hc) as Hl. destruct Hc as [Hnd Hs].
  unfold list_add. rewrite (get_prev_ret _ _ _ Hl). cbn [mbind outcome_bind c_prev]. rewrite set_next_prev by done.
  set (p := last_or l xs) in *. set (h1 := <[x := MkCell l p]> h).
  assert (seg h1 p (l :: xs) l) as Hs1 by (by apply seg_frame).
  rewrite (set_prev_ret _ _ _ _ (proj1 Hs1)). cbn [mbind outcome_bind c_next].
  apply (seg_set_prev _ _ x) in Hs1; [|done]. set (h2 := <[l := _]> h1) in *.
  destruct (last_or_split l xs) as [ws Hws]. fold p in Hws. rewrite Hws in Hs1.
  pose proof (seg_lookup _ _ _ _ [] _ Hs1) as Hp. rewrite (set_next_ret _ _ _ _ Hp). cbn [c_prev].
  assert (p ∈ l :: xs) as Hpin by (rewrite Hws; set_solver).
  eexists. split; [done|]. split; [split|].
  - change (l :: xs ++ [x]) with ((l :: xs) ++ [x]). apply NoDup_app. split_and!; [done| |apply NoDup_singleton].
    intros y Hy ->%list_elem_of_singleton. done.
  - change (l :: xs ++ [x]) with ((l :: xs) ++ [x]). rewrite last_or_snoc. apply seg_app. cbn [first_or hd]. split.
    + rewrite Hws in Hnd |- *. by apply seg_set_next with (n := l).
    + rewrite last_or_cons. fold p. cbn [seg first_or hd]. split; [|done]. rewrite lookup_insert_ne by set_solver.
      unfold h2. rewrite lookup_insert_ne by set_solver. apply lookup_insert_eq.
  - intros y Hy. unfold h2, h1. rewrite !lookup_insert_ne by set_solver. done.
Qed.

Lemma list_del_cyc h l ys x zs :
  cyc h l (ys ++ x :: zs) ->
  exists h', list_del h x = Ret h' /\ cyc h' l (ys ++ zs)
    /\ (forall y, y ∉ l :: ys ++ zs -> h' !! y = h !! y).
Proof.
  intros [Hnd Hs]. change (l :: ys ++ x :: zs) with ((l :: ys) ++ x :: zs) in *.
  pose proof (seg_lookup _ _ _ _ _ _ Hs) as Hx. rewrite last_or_cons in Hx.
  rewrite last_or_app, last_or_cons in Hs. apply seg_app in Hs as [Hsy [_ Hsz]]. cbn [first_or hd] in Hsy.
  apply NoDup_app in Hnd as (Hndy & Hd & Hndz). apply NoDup_cons in Hndz as [Hxz Hndz].
  assert (NoDup (l :: ys ++ zs)) as Hnd'.
  { change (l :: ys ++ zs) with ((l :: ys) ++ zs). apply NoDup_app. split_and!; [done|set_solver|done]. }
  set (p := last_or l ys) in *. destruct (last_or_split l ys) as [ws Hws]. fold p in Hws.
  assert (p ∈ l :: ys /\ p <> x) as [Hpin Hpx].
  { assert (p ∈ l :: ys) as Hp by (rewrite Hws; set_solver). split; [done|]. intros He. apply (Hd p Hp). rewrite He. by left. }
  unfold list_del. rewrite (get_prev_ret _ _ _ Hx), (get_next_ret _ _ _ Hx). cbn [mbind outcome_bind c_prev c_next].
  rewrite Hws in Hsy. pose proof (seg_lookup _ _ _ _ [] _ Hsy) as Hp. rewrite (set_next_ret _ _ _ _ Hp).
  cbn [mbind outcome_bind c_prev]. apply (seg_set_next _ _ _ _ _ (first_or l zs)) in Hsy; [|by rewrite <- Hws].
  set (h1 := <[p := _]> h) in *. rewrite <- Hws in Hsy.
  assert (h1 !! x = Some (MkCell (first_or l zs) p)) as Hx1 by (unfold h1; by rewrite lookup_insert_ne).
  rewrite (get_next_ret _ _ _ Hx1), (get_prev_ret _ _ _ Hx1). cbn [mbind outcome_bind c_prev c_next].
  assert (seg h1 x zs l) as Hsz1 by (apply seg_frame; [set_solver|done]).
  destruct zs as [|z zs]; cbn [first_or hd] in *.
  - rewrite (set_prev_ret _ _ _ _ (proj1 Hsy)). eexists. split; [done|]. split; [split; [done|]|].
    + rewrite app_nil_r. by apply (seg_set_prev _ _ p) in Hsy.
    + intros y Hy. unfold h1. rewrite !lookup_insert_ne by set_solver. done.
  - rewrite (set_prev_ret _ _ _ _ (proj1 Hsz1)). eexists. split; [done|]. split; [split; [done|]|].
    + rewrite last_or_app. change (l :: ys ++ z :: zs) with ((l :: ys) ++ z :: zs). apply seg_app. rewrite (last_or_cons _ l ys).
      fold p. split; [|by apply (seg_set_prev _ _ p) in Hsz1]. rewrite (last_or_cons x z zs) in Hsy. rewrite (last_or_cons p z zs). cbn [first_or hd]. apply seg_frame; [set_solver|exact Hsy].
    + intros y Hy. unfold h1. rewrite !lookup_insert_ne by set_solver. done.
Qed.

(** ** The loop that closes clients *)

(** What the loop does to the sequence. *)
Fixpoint filter_run {A : Type} (body : A -> Z -> outcome (A * bool)) (s : A) (xs : list Z) : outcome (A * list Z) :=
  match xs with
  | [] => Ret (s, [])
  | x :: xs' =>
      '(s, close) ← body s x;
      '(s, kept) ← filter_run body s xs';
      Ret (s, if close : bool then kept else x :: kept)
  end.

Lemma cyc_free h l xs x : cyc h l xs -> x ∉ l :: xs -> cyc (delete x h) l xs.
Proof.
  intros [Hnd Hs] Hx. split; [done|]. apply (seg_ext h); [|done].
  intros y Hy. apply lookup_delete_ne. intros ->. done.
Qed.

(** The pointer to the cell behind. *)
Lemma cyc_next h l ys zs :
  cyc h l (ys ++ zs) -> exists n, get_next h (first_or l zs) = Ret n /\ (zs <> [] -> n = first_or l (tail zs)).
Proof.
  intros Hc. destruct zs as [|z zs]; cbn [first_or hd].
  - rewrite (get_next_ret _ _ _ (cyc_sentinel _ _ _ Hc)). by eexists.
  - destruct Hc as [_ Hs]. change (l :: ys ++ z :: zs) with ((l :: ys) ++ z :: zs) in Hs.
    rewrite (get_next_ret _ _ _ (seg_lookup _ _ _ _ _ _ Hs)). by eexists.
Qed.

Lemma for_each_safe_filters {A : Type} (body : A -> Z -> outcome (A * bool)) l xs s' : forall fuel s h ys next kept,
  cyc h l (ys ++ xs) -> (xs <> [] -> next = first_or l (tail xs)) -> (length xs < fuel)%nat ->
  filter_run body s xs = Ret (s', kept) ->
  exists h', for_each_safe_loop body fuel l s h (first_or l xs) next = Ret (s', h') /\ cyc h' l (ys ++ kept)
    /\ (forall x, x ∈ xs -> x ∉ kept -> h' !! x = None) /\ (forall x, x ∉ l :: ys ++ xs -> h' !! x = h !! x).
Proof.
  induction xs as [|x xs IH]; intros [|fuel] s h ys next kept Hc Hnext Hf Hrun; cbn [length] in Hf; try lia;
    cbn [for_each_safe_loop first_or hd filter_run] in *.
  { injection Hrun as -> <-. rewrite Z.eqb_refl. exists h. split_and!; [done|done|set_solver|done]. }
  assert (x <> l /\ x ∉ ys ++ xs) as [Hxl Hxn].
  { destruct Hc as [Hnd _]. apply NoDup_cons in Hnd as [Hl Hnd]. apply NoDup_app in Hnd as (_ & Hd & Hnd).
    apply NoDup_cons in Hnd as [Hx _]. set_solver. }
  destruct (Z.eqb_spec x l) as [|_]; [done|]. destruct (body s x) as [[s1 close]| |]; [|done|done].
  cbn [mbind outcome_bind] in *. destruct (filter_run body s1 xs) as [[s2 kept']| |] eqn:Hrun'; [|done|done].
  cbn [mbind outcome_bind] in Hrun. injection Hrun as -> <-. rewrite (Hnext ltac:(done)). cbn [tail].
  destruct close.
  - destruct (list_del_cyc h l ys x xs Hc) as (h1 & -> & Hc1 & Hfr1). cbn [mbind outcome_bind].
    apply (cyc_free _ _ _ x) in Hc1; [|set_solver]. destruct (cyc_next _ _ _ _ Hc1) as (n & -> & Hn).
    cbn [mbind outcome_bind].
    destruct (IH fuel s1 _ ys n kept' Hc1 Hn ltac:(lia) Hrun') as (h' & Hl & Hc' & Hfree & Hfr).
    exists h'. split_and!; [done|done| |].
    + intros y Hy Hk. apply elem_of_cons in Hy as [->|Hy]; [|by apply Hfree].
      rewrite Hfr by set_solver. apply lookup_delete_eq.
    + intros y Hy. rewrite Hfr by set_solver. rewrite lookup_delete_ne by set_solver. apply Hfr1. set_solver.
  - cbn [mbind outcome_bind]. rewrite (cons_middle x) in Hc. rewrite app_assoc in Hc.
    destruct (cyc_next _ _ _ _ Hc) as (n & -> & Hn). cbn [mbind outcome_bind].
    destruct (IH fuel s1 h (ys ++ [x]) n kept' Hc Hn ltac:(lia) Hrun') as (h' & Hl & Hc' & Hfree & Hfr).
    exists h'. rewrite <- app_assoc in Hc'. split_and!; [done|done|set_solver|].
    intros y Hy. apply Hfr. set_solver.
Qed.

Lemma cyc_size h l xs : cyc h l xs -> (length xs < size h)%nat.
Proof.
  intros [Hnd Hs]. apply (nodup_size h (l :: xs) Hnd). intros x Hx. by apply (seg_in _ _ _ _ _ Hs).
Qed.

Lemma list_for_each_entry_cyc h l xs : cyc h l xs -> list_for_each_entry h l = Ret xs.
Proof.
  intros Hc. unfold list_for_each_entry. rewrite (get_next_ret _ _ _ (cyc_sentinel _ _ _ Hc)). cbn [mbind outcome_bind c_next].
  pose proof (cyc_size _ _ _ Hc). destruct Hc as [Hnd [_ Hs]]. apply NoDup_cons in Hnd as [Hl _].
  apply walk_seg with (p := l); [lia|done|done].
Qed.

Lemma for_each_entry_safe_cyc {A : Type} (body : A -> Z -> outcome (A * bool)) h l xs s s' kept :
  cyc h l xs -> filter_run body s xs = Ret (s', kept) ->
  exists h', list_for_each_entry_safe body l s h = Ret (s', h') /\ cyc h' l kept
    /\ (forall x, x ∈ xs -> x ∉ kept -> h' !! x = None).
Proof.
  intros Hc Hrun. unfold list_for_each_entry_safe. rewrite (get_next_ret _ _ _ (cyc_sentinel _ _ _ Hc)).
  cbn [mbind outcome_bind c_next]. destruct (cyc_next h l [] xs Hc) as (n & -> & Hn). cbn [mbind outcome_bind].
  pose proof (cyc_size _ _ _ Hc).
  destruct (for_each_safe_filters body l xs s' (S (size h)) s h [] n kept Hc Hn ltac:(lia) Hrun)
    as (h' & Hl & Hc' & Hfree & _). by exists h'.
Qed.

(** [list_add] of every item. *)
Fixpoint add_all (h : heap) (l : Z) (xs : list Z) : outcome heap :=
  match xs with [] => Ret h | x :: xs' => h ← list_add h l x; add_all h l xs' end.

Lemma add_all_cyc l xs : forall h ys,
  cyc h l ys -> NoDup (l :: ys ++ xs) -> Forall (fun x => is_Some (h !! x)) xs ->
  exists h', add_all h l xs = Ret h' /\ cyc h' l (ys ++ xs).
Proof.
  induction xs as [|x xs IH]; intros h ys Hc Hnd Hin; cbn [add_all].
  { rewrite app_nil_r. by exists h. }
  apply list.Forall_cons in Hin as [Hx Hin]. pose proof Hnd as Hnd0. rewrite (cons_middle x), app_assoc in Hnd.
  change (l :: ys ++ x :: xs) with ((l :: ys) ++ x :: xs) in Hnd0.
  apply NoDup_app in Hnd0 as (_ & Hd & Hnd1). apply NoDup_cons in Hnd1 as [Hxx _].
  destruct (list_add_cyc h l ys x Hc Hx) as (h1 & -> & Hc1 & Hfr1); [set_solver|]. cbn [mbind outcome_bind].
  destruct (IH h1 (ys ++ [x]) Hc1 Hnd) as (h2 & Ha & Hc2).
  { apply Forall_forall. intros y Hy. rewrite Hfr1 by set_solver. by apply (proj1 (Forall_forall _ _) Hin). }
  exists h2. by rewrite <- app_assoc in Hc2.
Qed.

(** The lists of tqftpserv, and closing clients while iterating, are
    equivalent to sequences.  After any number of clients are added to an
    initialised list, the safe loop runs the body on each of them once, in the
    order they came, never touches the memory of one that was closed, and leaves
    a list of exactly those that stay; a client that was closed is freed. *)
Theorem tftp_list_filters {A : Type} (body : A -> Z -> outcome (A * bool)) h l xs s s' kept :
  NoDup (l :: xs) -> Forall (fun x => is_Some (h !! x)) (l :: xs) -> filter_run body s xs = Ret (s', kept) ->
  exists h', (h ← list_init h l; h ← add_all h l xs; list_for_each_entry_safe body l s h) = Ret (s', h')
    /\ list_for_each_entry h' l = Ret kept
    /\ (forall x, x ∈ xs -> x ∉ kept -> h' !! x = None).
Proof.
  intros Hnd Hin Hrun. apply list.Forall_cons in Hin as [Hl Hin].
  destruct (cyc_init h l Hl) as (h1 & Hi & Hc1 & Hd1). rewrite Hi. cbn [mbind outcome_bind].
  destruct (add_all_cyc l xs h1 [] Hc1 Hnd) as (h2 & -> & Hc2).
  { eapply Forall_impl; [exact Hin|]. intros x Hx. apply elem_of_dom. rewrite Hd1. by apply elem_of_dom. }
  cbn [mbind outcome_bind]. destruct (for_each_entry_safe_cyc body h2 l xs s s' kept Hc2 Hrun) as (h3 & -> & Hc3 & Hfree).
  exists h3. split_and!; [done|by apply list_for_each_entry_cyc|done].
Qed.

(** Four clients; the body sums them up and closes the even ones. *)
Lemma tftp_list_filters_witness :
  exists h', (h ← list_init (list_to_map ((fun x => (x, MkCell 9 9)) <$> [100; 1; 2; 3; 4])) 100;
              h ← add_all h 100 [4; 1; 2; 3];
              list_for_each_entry_safe (fun s x => Ret (s + x, Z.even x)) 100 0 h) = Ret (10, h')
    /\ list_for_each_entry h' 100 = Ret [1; 3].
Proof.
  destruct (tftp_list_filters (fun s x => Ret (s + x, Z.even x))
    (list_to_map ((fun x => (x, MkCell 9 9)) <$> [100; 1; 2; 3; 4])) 100 [4; 1; 2; 3] 0 10 [1; 3]) as (h' & Hr & Hf & _).
  - apply (bool_decide_unpack _). vm_compute. exact I.
  - repeat constructor; by eexists.
  - reflexivity.
  - exists h'. split; [exact Hr|exact Hf].
Defined.
