(* ===== verification/ListLoops.v ===== *)
(** * Loops that free what they visit (src/qcom/qrtr/src/list.h, ns.c, waiter.c)

    [list_for_each_safe] reads the next item before its body runs, so that the
    body may take the item out of the list and free it.  The name server
    drops lookups this way and the waiter its tickets; both models use sequences, and
    the theorems here say that on linked cells nothing freed is touched. *)

From Stdlib Require Import ZArith Lia.
From stdpp Require Import base gmap numbers list strings.
From S2P Require Import Prelude Dll QrtrList.

(** [free] of the object around an item. *)
Definition free_item (h : heap) (p : Z) : outcome heap := match h !! p with Some _ => Ret (delete p h) | None => Fault end.

Fixpoint safe_loop (fuel : nat) (body : heap -> qlist -> Z -> outcome (heap * qlist)) (h : heap) (l : qlist) (iter : Z) : outcome (heap * qlist) :=
  match fuel with
  | O => OutOfFuel
  | S fuel' =>
      if iter =? 0 then Ret (h, l)
      else bkup ← get_next h iter; '(h, l) ← body h l iter; safe_loop fuel' body h l bkup
  end.

Definition qlist_for_each_safe (body : heap -> qlist -> Z -> outcome (heap * qlist)) (h : heap) (l : qlist) : outcome (heap * qlist) :=
  safe_loop (S (size h)) body h l (ql_head l).

(** The loops of [ctrl_cmd_del_client] and [ctrl_cmd_del_lookup]: [skip] is the
    disjunction of the conditions that [continue]. *)
Definition drop_lookup (skip : Z -> bool) (h : heap) (l : qlist) (li : Z) : outcome (heap * qlist) :=
  if skip li then Ret (h, l) else '(h, l) ← list_remove h l li; h ← free_item h li; Ret (h, l).

Definition drop_lookups (skip : Z -> bool) : heap -> qlist -> outcome (heap * qlist) := qlist_for_each_safe (drop_lookup skip).

(** [waiter_destroy]: the tickets, the poll set if there is one, and the waiter at [w].
    The other blocks are addresses of [own]. *)
Definition waiter_destroy (w pollset : Z) (h : heap) (l : qlist) (own : gset Z) : outcome (heap * gset Z) :=
  '(h, _) ← qlist_for_each_safe (fun h l node => h ← free_item h node; Ret (h, l)) h l;
  own ← (if pollset =? 0 then Ret own else if decide (pollset ∈ own) then Ret (own ∖ {[pollset]}) else Fault);
  if decide (w ∈ own) then Ret (h, own ∖ {[w]}) else Fault.

(** ** The loops on a list of items *)

Lemma free_item_ret h p : is_Some (h !! p) -> free_item h p = Ret (delete p h).
Proof. unfold free_item. by intros [c ->]. Qed.

Lemma seg_delete h x xs : forall p n, x ∉ xs -> seg h p xs n -> seg (delete x h) p xs n.
Proof.
  intros p n Hx Hs. eapply seg_ext; [|exact Hs]. intros y Hy. apply lookup_delete_ne. by intros ->.
Qed.

Lemma qrepr_delete h l xs x : x ∉ xs -> qrepr h l xs -> qrepr (delete x h) l xs.
Proof. intros Hx [Hnd H0 Hh Ht Hs]. split; [done..|]. by apply seg_delete. Qed.

Lemma seg_next h p xs x ys n : seg h p (xs ++ x :: ys) n -> get_next h x = Ret (first_or n ys).
Proof. intros Hs. apply seg_lookup in Hs. by rewrite (get_next_ret _ _ _ Hs). Qed.

Lemma drop_loop_repr skip zs : forall fuel h l ys,
  qrepr h l (ys ++ zs) -> (length zs < fuel)%nat ->
  exists h' l', safe_loop fuel (drop_lookup skip) h l (first_or 0 zs) = Ret (h', l')
    /\ qrepr h' l' (ys ++ filter (fun x => Is_true (skip x)) zs)
    /\ dom h' = dom h ∖ list_to_set (filter (fun x => ~ Is_true (skip x)) zs).
Proof.
  induction zs as [|z zs IH]; intros fuel h l ys Hq Hf; (destruct fuel as [|fuel]; [cbn [length] in Hf; lia|]); cbn [safe_loop].
  - exists h, l. split_and!; [done|by rewrite filter_nil|]. rewrite filter_nil. set_solver.
  - assert (z <> 0) as Hz by (intros ->; apply (qr_null _ _ _ Hq); set_solver). cbn [first_or hd]. destruct (Z.eqb_spec z 0); [done|].
    rewrite (seg_next _ _ _ _ _ _ (qr_seg _ _ _ Hq)). cbn [mbind outcome_bind]. rewrite !filter_cons. cbn [length] in Hf.
    destruct (skip z) eqn:Hs; cbn [Is_true].
    + assert (drop_lookup skip h l z = Ret (h, l)) as -> by (unfold drop_lookup; by rewrite Hs). cbn [mbind outcome_bind]. destruct (IH fuel h l (ys ++ [z])) as (h' & l' & E & Hq' & Hd); [by rewrite <- app_assoc|lia|]. exists h', l'. split; [exact E|].
      rewrite <- app_assoc in Hq'. cbn [app] in Hq'. rewrite decide_True by done. rewrite decide_False by (cbn; tauto). done.
    + destruct (list_remove_repr h l ys z zs Hq) as (h1 & l1 & E1 & Hq1 & Hd1). assert (z ∈ dom h) as Hin by (apply elem_of_dom; eapply seg_in; [apply Hq|set_solver]).
      assert (drop_lookup skip h l z = Ret (delete z h1, l1)) as -> by (unfold drop_lookup; rewrite Hs, E1; cbn [mbind outcome_bind]; rewrite free_item_ret by (apply elem_of_dom; by rewrite Hd1); done). cbn [mbind outcome_bind].
      assert (z ∉ ys ++ zs) as Hnin by (pose proof (qr_nodup _ _ _ Hq) as Hnd; rewrite <- Permutation_middle in Hnd; by apply NoDup_cons in Hnd as [? _]).
      destruct (IH fuel (delete z h1) l1 ys) as (h' & l' & E & Hq' & Hd); [by apply qrepr_delete|lia|]. exists h', l'. split; [exact E|].
      rewrite decide_False by (cbn; tauto). rewrite decide_True by (cbn; tauto). split; [done|]. rewrite Hd, dom_delete_L, Hd1. set_solver.
Qed.

Lemma free_loop_repr zs : forall fuel h l p,
  NoDup zs -> 0 ∉ zs -> seg h p zs 0 -> (length zs < fuel)%nat ->
  exists h' l', safe_loop fuel (fun h l node => h ← free_item h node; Ret (h, l)) h l (first_or 0 zs) = Ret (h', l') /\ h' = foldr delete h zs.
Proof.
  induction zs as [|z zs IH]; intros fuel h l p Hnd H0 Hs Hf; (destruct fuel as [|fuel]; [cbn [length] in Hf; lia|]); cbn [safe_loop].
  - by exists h, l.
  - apply NoDup_cons in Hnd as [Hz Hnd]. cbn [first_or hd]. destruct (Z.eqb_spec z 0); [set_solver|]. pose proof (seg_next h p [] z zs 0 Hs) as ->. cbn [mbind outcome_bind].
    rewrite free_item_ret by (eapply seg_in; [exact Hs|set_solver]). cbn [mbind outcome_bind]. cbn [length] in Hf. destruct Hs as [_ Hs].
    destruct (IH fuel (delete z h) l z) as (h' & l' & E & ->); [done|set_solver|by apply seg_delete|lia|]. exists (foldr delete (delete z h) zs), l'. split; [exact E|]. cbn [foldr].
    clear. induction zs as [|x zs IH]; [done|]. cbn [foldr]. by rewrite IH, delete_delete.
Qed.

Lemma qrepr_fuel h l xs : qrepr h l xs -> (length xs < S (size h))%nat.
Proof. intros [Hnd _ _ _ Hs]. apply Nat.lt_succ_r, nodup_size; [done|]. intros x Hx. by apply (seg_in _ _ _ _ _ Hs). Qed.

(** The lookups of the name server that are not skipped leave the list and are freed,
    the others stay in their order; no item is touched after it was freed. *)
Theorem drop_lookups_filters skip h l xs :
  qrepr h l xs ->
  exists h' l', drop_lookups skip h l = Ret (h', l') /\ qrepr h' l' (filter (fun x => Is_true (skip x)) xs)
    /\ dom h' = dom h ∖ list_to_set (filter (fun x => ~ Is_true (skip x)) xs).
Proof.
  intros Hq. unfold drop_lookups, qlist_for_each_safe. rewrite (qr_head _ _ _ Hq). apply (drop_loop_repr skip xs _ h l []); [done|]. by eapply qrepr_fuel.
Qed.

(** Destroying a waiter frees its tickets, its poll set and itself, each once, and
    nothing else. *)
Theorem waiter_destroy_frees w pollset h l xs own :
  qrepr h l xs -> w ∈ own -> (pollset = 0 \/ (pollset ∈ own /\ pollset <> w)) ->
  waiter_destroy w pollset h l own = Ret (foldr delete h xs, own ∖ {[w]} ∖ (if pollset =? 0 then ∅ else {[pollset]})).
Proof.
  intros Hq Hw Hp. unfold waiter_destroy, qlist_for_each_safe. rewrite (qr_head _ _ _ Hq). pose proof Hq as [Hnd H0 _ _ Hs].
  destruct (free_loop_repr xs (S (size h)) h l 0 Hnd H0 Hs (qrepr_fuel _ _ _ Hq)) as (h' & l' & -> & ->). cbn [mbind outcome_bind].
  destruct (Z.eqb_spec pollset 0) as [->|Hne]; cbn [mbind outcome_bind].
  - rewrite decide_True by done. do 2 f_equal. set_solver.
  - destruct Hp as [|[Hin Hpw]]; [done|]. rewrite decide_True by done. cbn [mbind outcome_bind]. rewrite decide_True by set_solver. do 2 f_equal. set_solver.
Qed.
