(* ===== verification/Waiter.v ===== *)
(** * The waiter (src/qcom/qrtr/src/waiter.c)

    Tickets for file descriptors and timeouts, and a wait that polls for the
    first of them.  The ticket list is a sequence (QrtrList); a ticket is named
    by its address.  The clock and [poll] answer through arguments; callbacks
    act on their own ticket, through the argument [cb]. *)

From Stdlib Require Import ZArith Lia.
From stdpp Require Import base gmap numbers list strings.
From S2P Require Import Prelude.

(** ** Poll sets *)

(** [ps_room] is the number of [struct pollfd] allocated behind the header,
    [ps_fds] the descriptors added since the reset. *)
Record pollset : Type := MkPollset { ps_room : Z; ps_fds : list Z; ps_cause : Z }.

Definition pollset_create (count : Z) : pollset := MkPollset count [] 0.

Definition pollset_reset (ps : pollset) : pollset := MkPollset (ps_room ps) [] (ps_cause ps).

Definition pollset_add_fd (ps : pollset) (fd : Z) : outcome pollset :=
  if ps_room ps <=? Z.of_nat (length (ps_fds ps)) then Fault
  else Ret (MkPollset (ps_room ps) (ps_fds ps ++ [fd]) (ps_cause ps)).

(** The first descriptor with POLLERR or POLLIN in its [revents], or -1. *)
Fixpoint find_cause (i : Z) (n : nat) (revents : list bool) : Z :=
  match n, revents with
  | S n', true :: _ => i
  | S n', false :: revents' => find_cause (i + 1) n' revents'
  | _, _ => -1
  end.

(** [answer]: the result of [poll] and the [revents] that matter. *)
Definition pollset_wait (ps : pollset) (answer : Z * list bool) : Z * pollset :=
  let '(rc, revents) := answer in
  if rc <=? 0 then (rc, ps)
  else (rc, MkPollset (ps_room ps) (ps_fds ps) (find_cause 0 (length (ps_fds ps)) revents)).

Definition pollset_cause_fd (ps : pollset) (fd : Z) : bool :=
  (0 <=? ps_cause ps) && bool_decide (ps_fds ps !! Z.to_nat (ps_cause ps) = Some fd).

(** ** Tickets *)

Inductive waiter_type : Type := WATCH_TYPE_NULL | WATCH_TYPE_FD | WATCH_TYPE_TIMEOUT.

(** [t_val] is the union of [filedes], [event] and [interval]; [t_fn] the callback. *)
Record waiter_ticket : Type := MkTicket
  { t_id : Z; t_type : waiter_type; t_val : Z; t_fn : option Z; t_start : Z; t_updated : Z }.

Record waiter : Type := MkWaiter { w_tickets : list waiter_ticket; w_pollset : option pollset; w_count : Z }.

Definition waiter_create : waiter := MkWaiter [] None 0.

Definition waiter_ticket_set_null (t : waiter_ticket) : waiter_ticket :=
  MkTicket (t_id t) WATCH_TYPE_NULL (t_val t) (t_fn t) (t_start t) (t_updated t).
Definition waiter_ticket_set_fd (fd : Z) (t : waiter_ticket) : waiter_ticket :=
  MkTicket (t_id t) WATCH_TYPE_FD fd (t_fn t) (t_start t) (t_updated t).
Definition waiter_ticket_set_timeout (ms time_ms : Z) (t : waiter_ticket) : waiter_ticket :=
  MkTicket (t_id t) WATCH_TYPE_TIMEOUT ms (t_fn t) time_ms (t_updated t).
Definition waiter_ticket_callback (fn : option Z) (t : waiter_ticket) : waiter_ticket :=
  MkTicket (t_id t) (t_type t) (t_val t) fn (t_start t) (t_updated t).
Definition waiter_ticket_check (t : waiter_ticket) : Z := if t_updated t =? 0 then -1 else 0.
Definition set_updated (v : Z) (t : waiter_ticket) : waiter_ticket :=
  MkTicket (t_id t) (t_type t) (t_val t) (t_fn t) (t_start t) v.
Definition set_start (v : Z) (t : waiter_ticket) : waiter_ticket :=
  MkTicket (t_id t) (t_type t) (t_val t) (t_fn t) v (t_updated t).
Definition waiter_ticket_clear (t : waiter_ticket) : Z * waiter_ticket := (waiter_ticket_check t, set_updated 0 t).

(** An assignment to the ticket [id] of the list. *)
Definition on_ticket (id : Z) (f : waiter_ticket -> waiter_ticket) (ts : list waiter_ticket) : list waiter_ticket :=
  (fun t => if t_id t =? id then f t else t) <$> ts.

(** ** Adding and deleting

    [id] is the address of the new ticket, [None] when its [calloc] fails;
    [ps_ok] says whether that of a new poll set succeeds. *)
Definition waiter_add_null (w : waiter) (id : option Z) (ps_ok : bool) : waiter * option Z :=
  match id with
  | None => (w, None)
  | Some id =>
      let ts := w_tickets w ++ [MkTicket id WATCH_TYPE_NULL 0 None 0 0] in
      if w_count w mod 32 =? 0 then
        if ps_ok then (MkWaiter ts (Some (pollset_create (w_count w + 33))) (w_count w + 1), Some id)
        else (MkWaiter ts None (w_count w), None)
      else (MkWaiter ts (w_pollset w) (w_count w + 1), Some id)
  end.

Definition waiter_add_with (f : waiter_ticket -> waiter_ticket) (w : waiter) (id : option Z) (ps_ok : bool)
    : waiter * option Z :=
  match waiter_add_null w id ps_ok with
  | (w, Some id) => (MkWaiter (on_ticket id f (w_tickets w)) (w_pollset w) (w_count w), Some id)
  | r => r
  end.

Definition waiter_add_fd (w : waiter) (fd : Z) := waiter_add_with (waiter_ticket_set_fd fd) w.
Definition waiter_add_timeout (w : waiter) (ms time_ms : Z) := waiter_add_with (waiter_ticket_set_timeout ms time_ms) w.

Definition waiter_ticket_delete (w : waiter) (id : Z) : waiter :=
  MkWaiter (List.filter (fun t => negb (t_id t =? id)) (w_tickets w)) (w_pollset w) (w_count w - 1).

(** ** Waiting *)

Definition UINT64_MAX : Z := 18446744073709551615.
Definition INT_MAX : Z := 2147483647.

(** [ticket->start + ticket->interval] *)
Definition deadline (t : waiter_ticket) : Z := u64 (t_start t + t_val t).

(** The first loop: the poll set and [term_time]. *)
Fixpoint gather (ps : pollset) (term_time : Z) (ts : list waiter_ticket) : outcome (pollset * Z) :=
  match ts with
  | [] => Ret (ps, term_time)
  | t :: ts' =>
      match t_type t with
      | WATCH_TYPE_TIMEOUT => gather ps (if deadline t <? term_time then deadline t else term_time) ts'
      | WATCH_TYPE_FD => ps ← pollset_add_fd ps (t_val t); gather ps term_time ts'
      | WATCH_TYPE_NULL => gather ps term_time ts'
      end
  end.

(** The timeout [poll] is called with at the time [now], [None] when it is
    skipped. *)
Definition poll_ms (term_time now : Z) : option Z :=
  if term_time =? UINT64_MAX then Some (-1)
  else if term_time <=? now then None
  else Some (Z.min (term_time - now) INT_MAX).

(** One turn of the second loop: the ticket, and whether it is fresh. *)
Definition refresh (ps : pollset) (rc now : Z) (t : waiter_ticket) : waiter_ticket * bool :=
  match t_type t with
  | WATCH_TYPE_TIMEOUT =>
      if deadline t <=? now then (set_start now t, t_updated t =? 0) else (t, false)
  | WATCH_TYPE_FD => (t, negb (rc =? 0) && pollset_cause_fd ps (t_val t) && (t_updated t =? 0))
  | WATCH_TYPE_NULL => (t, false)
  end.

Section wait.
(** [cb fn t]: the ticket after the callback [fn] was called with it. *)
Context (cb : Z -> waiter_ticket -> waiter_ticket).

Definition notify_ticket (ps : pollset) (rc now : Z) (t : waiter_ticket) : waiter_ticket * list (Z * Z) :=
  let '(t, fresh) := refresh ps rc now t in
  if fresh then
    let t := set_updated 1 t in
    match t_fn t with Some fn => (cb fn t, [(fn, t_id t)]) | None => (t, []) end
  else (t, []).

(** [now1], [now2]: the clock before and after [poll].  The result is the waiter,
    the callbacks called, with their tickets, and the timeout of the call of
    [poll], if there was one. *)
Definition waiter_wait (w : waiter) (now1 now2 : Z) (answer : Z * list bool)
    : outcome (waiter * list (Z * Z) * option Z) :=
  match w_pollset w with
  | None => Fault
  | Some ps =>
      '(ps, term_time) ← gather (pollset_reset ps) UINT64_MAX (w_tickets w);
      let ms := poll_ms term_time now1 in
      let '(rc, ps) := match ms with Some _ => pollset_wait ps answer | None => (0, ps) end in
      if rc <? 0 then Ret (MkWaiter (w_tickets w) (Some ps) (w_count w), [], ms)
      else
        let rs := notify_ticket ps rc now2 <$> w_tickets w in
        Ret (MkWaiter (fst <$> rs) (Some ps) (w_count w), concat (snd <$> rs), ms)
  end.

(** The ticket on the stack has address [id]; it has no callback. *)
Definition waiter_wait_timeout (w : waiter) (id ms now0 now1 now2 : Z) (answer : Z * list bool)
    : outcome (Z * waiter * list (Z * Z)) :=
  let t := waiter_ticket_set_timeout ms now0 (MkTicket id WATCH_TYPE_NULL 0 None 0 0) in
  '(w, calls, _) ← waiter_wait (MkWaiter (w_tickets w ++ [t]) (w_pollset w) (w_count w + 1)) now1 now2 answer;
  let rc := match list_find (fun t => t_id t = id) (w_tickets w) with
            | Some (_, t) => waiter_ticket_check t
            | None => -1
            end in
  Ret (if rc =? 0 then -1 else 0, waiter_ticket_delete w id, calls).

End wait.

(** ** Synchronizing *)

(** The inner loop: the first later timeout of the same interval. *)
Fixpoint sync_after (interval start : Z) (ts : list waiter_ticket) : list waiter_ticket :=
  match ts with
  | [] => []
  | t :: ts' =>
      match t_type t with
      | WATCH_TYPE_TIMEOUT =>
          if t_val t =? interval then set_start start t :: ts' else t :: sync_after interval start ts'
      | _ => t :: sync_after interval start ts'
      end
  end.

(** The outer loop, over a list the inner one changes. *)
Fixpoint sync_loop (n : nat) (ts : list waiter_ticket) : list waiter_ticket :=
  match n, ts with
  | S n', t :: ts' =>
      t :: sync_loop n' match t_type t with
                        | WATCH_TYPE_TIMEOUT => sync_after (t_val t) (t_start t) ts'
                        | _ => ts'
                        end
  | _, _ => ts
  end.

Definition waiter_synchronize (w : waiter) : waiter :=
  MkWaiter (sync_loop (length (w_tickets w)) (w_tickets w)) (w_pollset w) (w_count w).
