(* ===== verification/WaiterProofs.v ===== *)
(** * What the waiter guarantees

    The poll set never overflows, a wait never sleeps past a deadline, and
    synchronizing aligns all timers of one interval. *)

From Stdlib Require Import ZArith Lia.
From stdpp Require Import base gmap numbers list strings relations.
From S2P Require Import Prelude Waiter.

Definition is_timeout (t : waiter_ticket) : bool :=
  match t_type t with WATCH_TYPE_TIMEOUT => true | _ => false end.

Definition is_fd (t : waiter_ticket) : bool :=
  match t_type t with WATCH_TYPE_FD => true | _ => false end.

(** ** The first loop *)

(** The earliest deadline, [term] when there is none before. *)
Definition earliest (term : Z) (ts : list waiter_ticket) : Z :=
  foldl Z.min term (deadline <$> List.filter is_timeout ts).

Lemma gather_spec ts : forall ps term,
  Z.of_nat (length (ps_fds ps) + length ts) <= ps_room ps ->
  gather ps term ts
  = Ret (MkPollset (ps_room ps) (ps_fds ps ++ (t_val <$> List.filter is_fd ts)) (ps_cause ps), earliest term ts).
Proof.
  unfold earliest. induction ts as [|t ts IH]; intros ps term Hroom; cbn [gather List.filter length] in *.
  { rewrite app_nil_r. by destruct ps. }
  unfold is_fd at 1, is_timeout at 1. destruct (t_type t).
  - apply IH. lia.
  - unfold pollset_add_fd. destruct (Z.leb_spec (ps_room ps) (Z.of_nat (length (ps_fds ps)))); [lia|].
    cbn [mbind outcome_bind]. rewrite IH; cbn [ps_fds ps_room ps_cause].
    + by rewrite <- app_assoc.
    + rewrite length_app. cbn. lia.
  - rewrite IH by lia. cbn [fmap list_fmap foldl]. do 3 f_equal.
    destruct (Z.ltb_spec (deadline t) term); [by rewrite Z.min_r by lia|by rewrite Z.min_l by lia].
Qed.

Lemma foldl_min_le ds : forall term, foldl Z.min term ds <= term /\ Forall (fun d => foldl Z.min term ds <= d) ds.
Proof.
  induction ds as [|d ds IH]; intros term; cbn [foldl]; [split; [lia|constructor]|].
  destruct (IH (Z.min term d)) as [Hle Hall]. split; [lia|]. constructor; [lia|done].
Qed.

Lemma earliest_le term ts t : t ∈ ts -> is_timeout t = true -> earliest term ts <= deadline t.
Proof.
  intros Ht Hty. destruct (foldl_min_le (deadline <$> List.filter is_timeout ts) term) as [_ Hall].
  rewrite Forall_forall in Hall. apply Hall, list_elem_of_fmap_2. apply list_elem_of_In, filter_In.
  split; [by apply list_elem_of_In|done].
Qed.

Lemma earliest_cases term ts :
  earliest term ts = term \/ exists t, t ∈ ts /\ is_timeout t = true /\ earliest term ts = deadline t.
Proof.
  unfold earliest. revert term. induction ts as [|t ts IH]; intros term; cbn [List.filter]; [by left|].
  destruct (is_timeout t) eqn:Ht; cbn [fmap list_fmap foldl].
  - destruct (IH (Z.min term (deadline t))) as [->|(u & Hu & Hty & ->)].
    + destruct (Z.min_spec term (deadline t)) as [[_ ->]|[_ ->]]; [by left|]. right. exists t. split_and!; [by left|done|done].
    + right. exists u. split_and!; [by right|done|done].
  - destruct (IH term) as [->|(u & Hu & Hty & ->)]; [by left|]. right. exists u. split_and!; [by right|done|done].
Qed.

(** ** The invariant *)

(** A poll set made when there were [32 * q] tickets serves for the next 32. *)
Definition room_ok (count room : Z) : Prop := 33 <= room /\ (count = 0 \/ 32 * ((count - 1) / 32) + 33 <= room).

Record waiter_inv (w : waiter) : Prop := MkWInv
  { wi_count : w_count w = Z.of_nat (length (w_tickets w));
    wi_ids : NoDup (t_id <$> w_tickets w);
    wi_pollset : match w_pollset w with None => w_tickets w = [] | Some ps => room_ok (w_count w) (ps_room ps) end }.

Lemma room_enough count room : room_ok count room -> 0 <= count -> count < room.
Proof.
  intros [H33 [->|H]] Hc; [lia|]. pose proof (Z.div_mod (count - 1) 32 ltac:(lia)).
  pose proof (Z.mod_pos_bound (count - 1) 32 ltac:(lia)). lia.
Qed.

Lemma room_add count room :
  0 <= count -> count mod 32 <> 0 -> room_ok count room -> room_ok (count + 1) room.
Proof.
  intros Hc Hm [H33 [->|H]]; [done|]. split; [done|]. right. replace (count + 1 - 1) with count by lia.
  assert (count / 32 = (count - 1) / 32) as ->; [|done].
  pose proof (Z.div_mod count 32 ltac:(lia)). pose proof (Z.mod_pos_bound count 32 ltac:(lia)).
  apply (Z.div_unique _ _ _ (count mod 32 - 1)); lia.
Qed.

Lemma room_new count : 0 <= count -> count mod 32 = 0 -> room_ok (count + 1) (count + 33).
Proof.
  intros Hc Hm. split; [lia|]. right. replace (count + 1 - 1) with count by lia.
  pose proof (Z.div_mod count 32 ltac:(lia)). lia.
Qed.

Lemma room_del count room : 0 < count -> room_ok count room -> room_ok (count - 1) room.
Proof.
  intros Hc [H33 [->|H]]; [lia|]. split; [done|]. destruct (decide (count = 1)) as [->|]; [by left|]. right.
  assert ((count - 1 - 1) / 32 <= (count - 1) / 32) by (apply Z.div_le_mono; lia). lia.
Qed.

(** A change of the tickets that keeps their addresses. *)
Lemma inv_tickets w ts ps :
  waiter_inv w -> t_id <$> ts = t_id <$> w_tickets w -> ps_room <$> ps = ps_room <$> w_pollset w ->
  waiter_inv (MkWaiter ts ps (w_count w)).
Proof.
  intros [Hc Hi Hp] Hids Hr. assert (length ts = length (w_tickets w)) as Hl.
  { by rewrite <- (length_fmap t_id), Hids, length_fmap. }
  split; cbn [w_tickets w_count w_pollset].
  - congruence.
  - by rewrite Hids.
  - destruct ps as [ps|], (w_pollset w) as [ps'|]; cbn in Hr; try done; [by injection Hr as ->|].
    rewrite Hp in Hl. by apply nil_length_inv.
Qed.

Lemma on_ticket_ids id f ts : (forall t, t_id (f t) = t_id t) -> t_id <$> on_ticket id f ts = t_id <$> ts.
Proof.
  intros Hf. unfold on_ticket. rewrite <- list_fmap_compose. apply list_fmap_ext. intros i t _. cbn.
  destruct (t_id t =? id); [apply Hf|done].
Qed.

Lemma add_null_inv w id :
  waiter_inv w -> id ∉ t_id <$> w_tickets w -> waiter_inv (fst (waiter_add_null w (Some id) true)).
Proof.
  intros [Hc Hi Hp] Hid. unfold waiter_add_null.
  assert (NoDup (t_id <$> w_tickets w ++ [MkTicket id WATCH_TYPE_NULL 0 None 0 0])) as Hnd.
  { rewrite fmap_app. cbn. apply NoDup_app. split_and!; [done| |apply NoDup_singleton].
    intros y Hy ->%list_elem_of_singleton. done. }
  destruct (Z.eqb_spec (w_count w mod 32) 0) as [Hm|Hm]; split; cbn [fst w_tickets w_count w_pollset]; try done.
  - rewrite length_app. cbn. lia.
  - cbn [pollset_create ps_room]. apply room_new; [lia|done].
  - rewrite length_app. cbn. lia.
  - destruct (w_pollset w) as [ps|].
    + apply room_add; [lia|done|done].
    + rewrite Hp in Hc. cbn in Hc. rewrite Hc in Hm. done.
Qed.

Lemma filter_ids id ts :
  t_id <$> List.filter (fun t => negb (t_id t =? id)) ts = List.filter (fun x => negb (x =? id)) (t_id <$> ts).
Proof. induction ts as [|t ts IH]; [done|]. cbn. destruct (t_id t =? id); cbn; by rewrite IH. Qed.

Lemma filter_absent id (xs : list Z) : id ∉ xs -> List.filter (fun x => negb (x =? id)) xs = xs.
Proof.
  induction xs as [|x xs IH]; [done|]. intros H. apply not_elem_of_cons in H as [H1 H2]. cbn.
  destruct (Z.eqb_spec x id); [congruence|]. cbn. by rewrite IH.
Qed.

Lemma delete_inv w id : waiter_inv w -> id ∈ t_id <$> w_tickets w -> waiter_inv (waiter_ticket_delete w id).
Proof.
  intros [Hc Hi Hp] Hin. apply list_elem_of_split in Hin as (us & vs & Hts). rewrite Hts in Hi.
  assert (t_id <$> w_tickets (waiter_ticket_delete w id) = us ++ vs) as Hids.
  { cbn. rewrite filter_ids, Hts, List.filter_app. cbn. rewrite Z.eqb_refl. cbn.
    apply NoDup_app in Hi as (_ & Hd & Hv). apply NoDup_cons in Hv as [Hn _].
    rewrite !filter_absent; [done|done|]. intros Hx. apply (Hd _ Hx). by left. }
  assert (length (w_tickets w) = S (length (us ++ vs))) as Hl.
  { rewrite <- (length_fmap t_id), Hts, !length_app. cbn. lia. }
  assert (length (w_tickets (waiter_ticket_delete w id)) = length (us ++ vs)) as Hl'.
  { by rewrite <- (length_fmap t_id), Hids. }
  split.
  - rewrite Hl'. cbn. lia.
  - rewrite Hids. apply NoDup_app in Hi as (Hu & Hd & Hv). apply NoDup_cons in Hv as [Hn Hv].
    apply NoDup_app. split_and!; [done| |done]. intros x Hx Hy. apply (Hd x Hx). by right.
  - cbn [waiter_ticket_delete w_pollset w_count]. destruct (w_pollset w); [apply room_del; [lia|done]|].
    rewrite Hp in Hl. done.
Qed.

(** ** Waiting *)

Section waits.
Context (cb : Z -> waiter_ticket -> waiter_ticket).
(** A callback does not change the address of its ticket. *)
Context (Hcb : forall fn t, t_id (cb fn t) = t_id t).

Lemma notify_id ps rc now t : t_id (fst (notify_ticket cb ps rc now t)) = t_id t.
Proof.
  unfold notify_ticket, refresh. destruct (t_type t); [done| |].
  - destruct (_ && _); [|done]. cbn. destruct (t_fn t); cbn; [by rewrite Hcb|done].
  - destruct (_ <=? _); [|done]. destruct (_ =? _); [|done]. cbn. destruct (t_fn t); cbn; [by rewrite Hcb|done].
Qed.

(** The poll set when [poll] is called, and after it. *)
Definition filled (w : waiter) (ps : pollset) : pollset :=
  MkPollset (ps_room ps) (t_val <$> List.filter is_fd (w_tickets w)) (ps_cause ps).

Definition polled (w : waiter) (ps : pollset) (now1 : Z) (answer : Z * list bool) : Z * pollset :=
  match poll_ms (earliest UINT64_MAX (w_tickets w)) now1 with
  | Some _ => pollset_wait (filled w ps) answer
  | None => (0, filled w ps)
  end.

Lemma waiter_wait_eq w ps now1 now2 answer :
  w_pollset w = Some ps -> Z.of_nat (length (w_tickets w)) <= ps_room ps ->
  waiter_wait cb w now1 now2 answer
  = let ms := poll_ms (earliest UINT64_MAX (w_tickets w)) now1 in
    let '(rc, ps) := polled w ps now1 answer in
    if rc <? 0 then Ret (MkWaiter (w_tickets w) (Some ps) (w_count w), [], ms)
    else let rs := notify_ticket cb ps rc now2 <$> w_tickets w in
         Ret (MkWaiter (fst <$> rs) (Some ps) (w_count w), concat (snd <$> rs), ms).
Proof.
  intros Hps Hroom. unfold waiter_wait, polled. rewrite Hps, gather_spec by (cbn; lia).
  cbn [mbind outcome_bind pollset_reset ps_fds ps_room ps_cause app]. done.
Qed.

Lemma polled_room w ps now1 answer : ps_room (snd (polled w ps now1 answer)) = ps_room ps.
Proof.
  unfold polled, pollset_wait. destruct (poll_ms _ _); [|done]. destruct answer as [rc rev]. by destruct (rc <=? 0).
Qed.

Lemma waiter_wait_ret w ps now1 now2 answer :
  w_pollset w = Some ps -> Z.of_nat (length (w_tickets w)) <= ps_room ps ->
  exists w' calls ms, waiter_wait cb w now1 now2 answer = Ret (w', calls, ms)
    /\ t_id <$> w_tickets w' = t_id <$> w_tickets w /\ w_count w' = w_count w
    /\ ps_room <$> w_pollset w' = ps_room <$> w_pollset w.
Proof.
  intros Hps Hroom. rewrite (waiter_wait_eq w ps) by done. pose proof (polled_room w ps now1 answer) as Hr.
  destruct (polled w ps now1 answer) as [rc ps']. cbn in Hr. cbv zeta.
  assert (t_id <$> (fst <$> (notify_ticket cb ps' rc now2 <$> w_tickets w)) = t_id <$> w_tickets w) as Hids.
  { rewrite <- !list_fmap_compose. apply list_fmap_ext. intros i t _. apply notify_id. }
  rewrite Hps. destruct (rc <? 0); eexists _, _, _; split_and!; try done; cbn; congruence.
Qed.

Lemma inv_room w ps : waiter_inv w -> w_pollset w = Some ps -> Z.of_nat (length (w_tickets w)) < ps_room ps.
Proof. intros [Hc _ Hr] Hps. rewrite Hps in Hr. apply room_enough in Hr; lia. Qed.

Lemma waiter_wait_inv w now1 now2 answer :
  waiter_inv w -> w_pollset w <> None ->
  exists w' calls ms, waiter_wait cb w now1 now2 answer = Ret (w', calls, ms) /\ waiter_inv w' /\ w_pollset w' <> None.
Proof.
  intros Hinv Hp. destruct (w_pollset w) as [ps|] eqn:Hps; [|done]. pose proof (inv_room w ps Hinv Hps) as Hroom.
  destruct (waiter_wait_ret w ps now1 now2 answer Hps ltac:(lia)) as ([ts ps' c] & calls & ms & Hw & Hids & Hc & Hr).
  cbn in *. subst c. eexists _, calls, ms. split; [exact Hw|]. split; [by apply inv_tickets|].
  rewrite Hps in Hr. by destruct ps'.
Qed.

(** *** Every use of a waiter *)

(** The calls of the interface, on a waiter that holds the ticket they name.
    Poll sets are allocated; a wait needs one, so it needs a first ticket. *)
Inductive wstep : waiter -> waiter -> Prop :=
| WAdd w id f :
    id ∉ t_id <$> w_tickets w -> (forall t, t_id (f t) = t_id t) ->
    wstep w (fst (waiter_add_with f w (Some id) true))
| WDelete w id : id ∈ t_id <$> w_tickets w -> wstep w (waiter_ticket_delete w id)
| WAssign w id f :
    (forall t, t_id (f t) = t_id t) ->
    wstep w (MkWaiter (on_ticket id f (w_tickets w)) (w_pollset w) (w_count w))
| WSync w : wstep w (waiter_synchronize w)
| WWait w w' now1 now2 answer calls ms :
    waiter_wait cb w now1 now2 answer = Ret (w', calls, ms) -> wstep w w'
| WWaitTimeout w w' id ms now0 now1 now2 answer calls rc :
    id ∉ t_id <$> w_tickets w ->
    waiter_wait_timeout cb w id ms now0 now1 now2 answer = Ret (rc, w', calls) -> wstep w w'.

Lemma sync_after_ids v s ts : t_id <$> sync_after v s ts = t_id <$> ts.
Proof.
  induction ts as [|t ts IH]; [done|]. cbn [sync_after].
  destruct (t_type t); [|..|destruct (t_val t =? v)]; cbn; by rewrite ?IH.
Qed.

Lemma sync_loop_ids n : forall ts, t_id <$> sync_loop n ts = t_id <$> ts.
Proof.
  induction n as [|n IH]; intros [|t ts]; cbn [sync_loop]; try done. cbn. f_equal. rewrite IH.
  destruct (t_type t); [done|done|]. apply sync_after_ids.
Qed.

Lemma wait_timeout_inv w id ms now0 now1 now2 answer :
  waiter_inv w -> w_pollset w <> None -> id ∉ t_id <$> w_tickets w ->
  exists rc w' calls, waiter_wait_timeout cb w id ms now0 now1 now2 answer = Ret (rc, w', calls) /\ waiter_inv w'
    /\ w_pollset w' <> None.
Proof.
  intros Hinv Hp Hid. destruct (w_pollset w) as [ps|] eqn:Hps; [|done]. pose proof (inv_room w ps Hinv Hps) as Hroom.
  unfold waiter_wait_timeout. set (t := waiter_ticket_set_timeout _ _ _).
  destruct (waiter_wait_ret (MkWaiter (w_tickets w ++ [t]) (w_pollset w) (w_count w + 1)) ps now1 now2 answer)
    as ([ts ps' c] & calls & ms' & Hw & Hids & Hc & Hr).
  { done. }
  { cbn. rewrite length_app. cbn. lia. }
  rewrite Hw. cbn [mbind outcome_bind]. eexists _, _, _. split; [done|].
  cbn [w_tickets w_pollset w_count waiter_ticket_delete] in *. subst c.
  split; [|by destruct ps'; rewrite ?Hps in Hr]. unfold waiter_ticket_delete. cbn [w_tickets w_pollset w_count].
  replace (w_count w + 1 - 1) with (w_count w) by lia. apply inv_tickets; [done| |done].
  rewrite filter_ids, Hids, fmap_app, List.filter_app. cbn. rewrite Z.eqb_refl. cbn. rewrite app_nil_r.
  apply filter_absent. done.
Qed.

Lemma wstep_inv w w' : waiter_inv w -> wstep w w' -> waiter_inv w'.
Proof.
  intros Hinv Hstep. destruct Hstep as [w id f Hid Hf|w id Hid|w id f Hf|w|w w' now1 now2 ans calls ms Hw|
                                        w w' id ms now0 now1 now2 ans calls rc Hid Hw].
  - pose proof (add_null_inv w id Hinv Hid) as Hadd. unfold waiter_add_with.
    destruct (waiter_add_null w (Some id) true) as [w1 [id1|]]; [|done].
    apply inv_tickets; [done|by apply on_ticket_ids|done].
  - by apply delete_inv.
  - apply inv_tickets; [done|by apply on_ticket_ids|done].
  - apply inv_tickets; [done|apply sync_loop_ids|done].
  - destruct (w_pollset w) eqn:Hps; [|by unfold waiter_wait in Hw; rewrite Hps in Hw].
    destruct (waiter_wait_inv w now1 now2 ans Hinv ltac:(congruence)) as (w1 & ? & ? & Hw1 & Hinv1 & _). congruence.
  - destruct (w_pollset w) eqn:Hps; [|by unfold waiter_wait_timeout, waiter_wait in Hw; cbn in Hw; rewrite Hps in Hw].
    destruct (wait_timeout_inv w id ms now0 now1 now2 ans Hinv ltac:(congruence) Hid) as (? & w1 & ? & Hw1 & Hinv1 & _).
    congruence.
Qed.

Lemma inv_create : waiter_inv waiter_create.
Proof. split; [done|constructor|done]. Qed.

Lemma reachable_inv w : rtc wstep waiter_create w -> waiter_inv w.
Proof.
  intros H. pose proof inv_create as Hi. revert H Hi. generalize waiter_create. intros w0 H.
  induction H as [|x y z Hxy _ IH]; [done|]. intros Hx. by apply IH, (wstep_inv x).
Qed.

(** The wait in front of the earliest deadline. *)
Lemma poll_ms_earliest w t now1 :
  t ∈ w_tickets w -> is_timeout t = true ->
  (forall u, u ∈ w_tickets w -> is_timeout u = true -> deadline t <= deadline u) ->
  deadline t < UINT64_MAX -> deadline t - now1 <= INT_MAX ->
  poll_ms (earliest UINT64_MAX (w_tickets w)) now1 = if deadline t <=? now1 then None else Some (deadline t - now1).
Proof.
  intros Ht Hty Hmin Hmax Hint.
  assert (earliest UINT64_MAX (w_tickets w) = deadline t) as ->.
  { pose proof (earliest_le UINT64_MAX (w_tickets w) t Ht Hty).
    destruct (earliest_cases UINT64_MAX (w_tickets w)) as [E|(u & Hu & Hut & E)]; [lia|].
    specialize (Hmin u Hu Hut). lia. }
  unfold poll_ms. destruct (Z.eqb_spec (deadline t) UINT64_MAX); [lia|]. destruct (Z.leb_spec (deadline t) now1); [done|].
  by rewrite Z.min_l by lia.
Qed.

(** The ticket after it fired. *)
Definition fired (now : Z) (t : waiter_ticket) : waiter_ticket :=
  let t' := set_updated 1 (set_start now t) in
  match t_fn t with Some fn => cb fn t' | None => t' end.

Lemma notify_due ps rc now t :
  is_timeout t = true -> t_updated t = 0 -> deadline t <= now ->
  notify_ticket cb ps rc now t = (fired now t, match t_fn t with Some fn => [(fn, t_id t)] | None => [] end).
Proof.
  intros Hty Hup Hd. unfold notify_ticket, refresh, fired. unfold is_timeout in Hty. destruct (t_type t) eqn:E; try done.
  destruct (Z.leb_spec (deadline t) now); [|lia]. rewrite Hup. cbn. destruct (t_fn t); done.
Qed.

End waits.

Section waiter_claims.
Context (cb : Z -> waiter_ticket -> waiter_ticket).

(** However tickets are added, changed, synchronized and deleted and however
    often the waiter has waited, the tickets counted are those in the list, and
    a wait on a waiter that has tickets returns, whatever [poll] and the clock
    answer: the poll set has room for every descriptor. *)
Theorem waiter_pollset_fits w :
  (forall fn t, t_id (cb fn t) = t_id t) -> rtc (wstep cb) waiter_create w ->
  w_count w = Z.of_nat (length (w_tickets w))
  /\ (w_tickets w <> [] -> forall now1 now2 answer, exists w' calls ms,
        waiter_wait cb w now1 now2 answer = Ret (w', calls, ms)).
Proof.
  intros Hcb Hr. pose proof (reachable_inv cb Hcb w Hr) as Hinv. split; [apply (wi_count _ Hinv)|].
  intros Hne now1 now2 answer. destruct (waiter_wait_inv cb Hcb w now1 now2 answer Hinv) as (w' & calls & ms & Hw & _).
  - pose proof (wi_pollset _ Hinv) as Hp. by destruct (w_pollset w).
  - by exists w', calls, ms.
Qed.

(** C33: A wait ends in time.  For the timer with the earliest deadline, the wait
    calls [poll] with exactly the time that is left, or not at all when the
    deadline has passed.  If [poll] times out no earlier than asked, the timer
    fires: its ticket is marked, it starts anew from the clock and its callback
    is called. *)
Theorem waiter_fires_in_time w ps t now1 now2 revents :
  waiter_inv w -> w_pollset w = Some ps -> t ∈ w_tickets w -> is_timeout t = true -> t_updated t = 0 ->
  (forall u, u ∈ w_tickets w -> is_timeout u = true -> deadline t <= deadline u) ->
  deadline t < UINT64_MAX -> deadline t - now1 <= INT_MAX -> Z.max now1 (deadline t) <= now2 ->
  exists w' calls, waiter_wait cb w now1 now2 (0, revents)
      = Ret (w', calls, if deadline t <=? now1 then None else Some (deadline t - now1))
    /\ fired cb now2 t ∈ w_tickets w'
    /\ (forall fn, t_fn t = Some fn -> (fn, t_id t) ∈ calls).
Proof.
  intros Hinv Hps Ht Hty Hup Hmin Hmax Hint Hnow. pose proof (inv_room w ps Hinv Hps).
  rewrite (waiter_wait_eq cb w ps) by (done || lia).
  assert (exists ps', polled w ps now1 (0, revents) = (0, ps')) as [ps' Hpo].
  { unfold polled, pollset_wait. destruct (poll_ms _ _); by eexists. }
  rewrite Hpo, (poll_ms_earliest w t now1) by done. cbv zeta. change (0 <? 0) with false. cbv iota.
  pose proof (notify_due cb ps' 0 now2 t Hty Hup ltac:(lia)) as Hn.
  assert (notify_ticket cb ps' 0 now2 t ∈ notify_ticket cb ps' 0 now2 <$> w_tickets w) as Hin by (by apply list_elem_of_fmap_2).
  rewrite Hn in Hin. eexists _, _. split; [done|]. cbn [w_tickets]. split.
  - apply (list_elem_of_fmap_2 fst) in Hin. exact Hin.
  - intros fn Hfn. apply (list_elem_of_fmap_2 snd) in Hin. cbn in Hin. rewrite Hfn in Hin.
    apply list_elem_of_In, in_concat. eexists. split; [apply list_elem_of_In; exact Hin|by left].
Qed.

End waiter_claims.

(** ** Synchronizing *)

(** The start of the first timer of an interval. *)
Fixpoint first_start (v : Z) (ts : list waiter_ticket) : option Z :=
  match ts with
  | [] => None
  | t :: ts' => if is_timeout t && (t_val t =? v) then Some (t_start t) else first_start v ts'
  end.

Definition align (ts : list waiter_ticket) (t : waiter_ticket) : waiter_ticket :=
  if is_timeout t then set_start (default 0 (first_start (t_val t) ts)) t else t.

Lemma sync_after_fmap (g : waiter_ticket -> waiter_ticket) v s ts :
  (forall t s', is_timeout t = true -> g (set_start s' t) = g t) -> g <$> sync_after v s ts = g <$> ts.
Proof.
  intros Hg. induction ts as [|t ts IH]; [done|]. cbn [sync_after]. destruct (t_type t) eqn:E; cbn; [by rewrite IH..|].
  destruct (t_val t =? v); cbn; [|by rewrite IH]. rewrite Hg; [done|]. unfold is_timeout. by rewrite E.
Qed.

Lemma is_timeout_set s t : is_timeout (set_start s t) = is_timeout t.
Proof. done. Qed.

Lemma sync_after_cons v s t ts :
  sync_after v s (t :: ts)
  = if is_timeout t && (t_val t =? v) then set_start s t :: ts else t :: sync_after v s ts.
Proof. unfold is_timeout. cbn [sync_after]. by destruct (t_type t). Qed.

Lemma first_start_after v v' s ts :
  first_start v' (sync_after v s ts)
  = if v' =? v then match first_start v ts with Some _ => Some s | None => None end else first_start v' ts.
Proof.
  induction ts as [|t ts IH]; [cbn; by destruct (_ =? _)|]. rewrite sync_after_cons. cbn [first_start].
  destruct (is_timeout t) eqn:E; cbn [andb].
  2:{ cbn [first_start]. rewrite E. exact IH. }
  destruct (Z.eqb_spec (t_val t) v) as [Hv|Hv]; cbn [first_start]; rewrite ?is_timeout_set, E; cbn [andb set_start t_val t_start].
  - destruct (Z.eqb_spec v' v) as [->|Hne]; [by rewrite Hv, Z.eqb_refl|].
    destruct (Z.eqb_spec (t_val t) v'); [congruence|done].
  - rewrite IH. destruct (Z.eqb_spec v' v) as [->|Hne]; [|done]. destruct (Z.eqb_spec (t_val t) v); [done|done].
Qed.

Lemma first_start_in ts t : t ∈ ts -> is_timeout t = true -> is_Some (first_start (t_val t) ts).
Proof.
  induction ts as [|u ts IH]; intros Ht Hty; [by apply not_elem_of_nil in Ht|]. cbn [first_start].
  apply elem_of_cons in Ht as [<-|Ht]; [rewrite Hty, Z.eqb_refl; by eexists|].
  destruct (_ && _); [by eexists|by apply IH].
Qed.

Lemma sync_loop_align n : forall ts, (length ts <= n)%nat -> sync_loop n ts = align ts <$> ts.
Proof.
  induction n as [|n IH]; intros [|t ts] Hl; cbn [length] in Hl; try done; try lia. cbn [sync_loop].
  set (ts' := match t_type t with WATCH_TYPE_TIMEOUT => _ | _ => _ end).
  assert (length ts' = length ts) as Hl'.
  { unfold ts'. destruct (t_type t); [done|done|]. by rewrite <- (length_fmap t_id), sync_after_ids, length_fmap. }
  rewrite IH by lia. cbn [fmap list_fmap]. f_equal.
  - unfold align. cbn [first_start]. destruct (is_timeout t) eqn:E; [|done]. rewrite Z.eqb_refl. by destruct t.
  - assert (align ts' <$> ts' = align ts' <$> ts) as ->.
    { unfold ts'. destruct (t_type t); [done|done|]. apply sync_after_fmap. intros u s' Hu.
      unfold align. rewrite is_timeout_set, Hu. by destruct u. }
    apply list_fmap_ext. intros i u Hu. unfold align. destruct (is_timeout u) eqn:E; [|done]. do 2 f_equal.
    apply list_elem_of_lookup_2 in Hu. pose proof (first_start_in ts u Hu E) as [s Hs].
    cbn [first_start]. unfold ts', is_timeout at 1. destruct (t_type t); cbn [andb]; [done|done|].
    rewrite first_start_after. destruct (Z.eqb_spec (t_val u) (t_val t)) as [Hv|Hv].
    + rewrite <- Hv, Hs, Z.eqb_refl. done.
    + destruct (Z.eqb_spec (t_val t) (t_val u)); [congruence|done].
Qed.

(** [waiter_synchronize] gives all timers of an interval the start of the
    first of them, and changes nothing else: its two nested loops, in which a
    turn only reaches the next timer of the interval, come to the same as
    setting each timer directly. *)
Theorem waiter_synchronize_aligns w :
  waiter_synchronize w = MkWaiter (align (w_tickets w) <$> w_tickets w) (w_pollset w) (w_count w).
Proof. unfold waiter_synchronize. by rewrite sync_loop_align. Qed.

(** ** Concrete waiters *)

(** A callback that clears its ticket, as the one of the name server does. *)
Definition clear_cb (fn : Z) (t : waiter_ticket) : waiter_ticket := snd (waiter_ticket_clear t).

(** A descriptor, and a timer of 500 ms started at 1000. *)
Definition demo_waiter : waiter :=
  MkWaiter [MkTicket 1 WATCH_TYPE_FD 5 None 0 0; MkTicket 2 WATCH_TYPE_TIMEOUT 500 (Some 7) 1000 0]
    (Some (pollset_create 33)) 2.

Lemma waiter_pollset_fits_witness :
  rtc (wstep clear_cb) waiter_create demo_waiter
  /\ exists w' calls ms, waiter_wait clear_cb demo_waiter 1200 1300 (1, [true]) = Ret (w', calls, ms).
Proof.
  assert (rtc (wstep clear_cb) waiter_create demo_waiter) as Hr.
  { eapply rtc_l; [apply (WAdd clear_cb waiter_create 1 (waiter_ticket_set_fd 5)); [apply not_elem_of_nil|done]|].
    eapply rtc_l; [apply (WAdd clear_cb _ 2 (waiter_ticket_set_timeout 500 1000)); [vm_compute; set_solver|done]|].
    eapply rtc_l; [apply (WAssign clear_cb _ 2 (waiter_ticket_callback (Some 7))); done|].
    apply rtc_refl. }
  split; [exact Hr|].
  apply (waiter_pollset_fits clear_cb demo_waiter); [done|exact Hr|done].
Defined.

Lemma waiter_fires_in_time_witness :
  exists w' calls, waiter_wait clear_cb demo_waiter 1200 1503 (0, []) = Ret (w', calls, Some 300)
    /\ MkTicket 2 WATCH_TYPE_TIMEOUT 500 (Some 7) 1503 0 ∈ w_tickets w' /\ (7, 2) ∈ calls.
Proof.
  destruct (waiter_fires_in_time clear_cb demo_waiter (pollset_create 33)
    (MkTicket 2 WATCH_TYPE_TIMEOUT 500 (Some 7) 1000 0) 1200 1503 []) as (w' & calls & Hw & Ht & Hc).
  - split; [reflexivity| |split; [vm_compute; discriminate|right; vm_compute; discriminate]].
    apply (bool_decide_unpack _). vm_compute. exact I.
  - reflexivity.
  - right. left.
  - reflexivity.
  - reflexivity.
  - intros u Hu Hty. apply elem_of_cons in Hu as [->|Hu]; [done|]. apply list_elem_of_singleton in Hu as ->. lia.
  - reflexivity.
  - vm_compute. discriminate.
  - vm_compute. discriminate.
  - exists w', calls. split; [exact Hw|]. split; [exact Ht|]. by apply Hc.
Defined.
