(* ===== verification/Tftp.v ===== *)
(** * TFTP over qrtr (src/qcom/tqftpserv/tqftpserv.c, translate.c)

    The service keeps a list of clients that read and one of clients that write
    files; a request opens the file and a socket of its own for the client, on
    which blocks and acknowledgements then go back and forth.  The lists are
    sequences (TftpList).  System calls answer through the classes
    [Remoteprocs], [Filesystem] and [TftpIO]; what the program sends, writes and
    closes are events. *)

From Stdlib Require Import ZArith Lia.
From stdpp Require Import base gmap list numbers strings.
From S2P Require Import Prelude CLib Packet Json Assoc PdMapper Firmware.

(** ** Opening files (translate.c) *)

(** Results of the calls, a descriptor or a negative number: [open] of
    /sys/class/remoteproc ([class_entries] is then [None] when [fdopendir] fails), [attr_fd attr] the
    descriptor of an attribute that can be opened, [open_rdonly path],
    [mkdir] of the temporary directory ([true] also for EEXIST), [open] of it
    and [openat base file flags]. *)
Class Filesystem : Type :=
  { open_class : Z;
    attr_fd : list Z -> Z;
    open_rdonly : list Z -> Z;
    mkdir_tmp : bool;
    open_tmp : Z;
    openat_tmp : Z -> list Z -> Z -> Z }.

(** [open(2)] calls on files asked for by a client. *)
Inductive open_call : Type := OpenRdonly (path : list Z) | OpenAt (base : Z) (file : list Z) (flags : Z).

(** What the program does with descriptors: packets, bytes written, descriptors
    closed; [close] of one that [closedir] has just closed; the calls for files of clients; and
    descriptors it gets. *)
Inductive event : Type :=
| EvSend (sock : Z) (bytes : list Z)
| EvWrite (fd : Z) (bytes : list Z)
| EvClose (fd : Z)
| EvReclose (fd : Z)
| EvOpen (call : open_call)
| EvNew (fd : Z).

Definition READONLY_PATH : list Z := bytes_of_string "/readonly/firmware/image/".
Definition READWRITE_PATH : list Z := bytes_of_string "/readwrite/".
Definition TQFTPSERV_TMP : list Z := bytes_of_string "/data/vendor/tmp/tqftpserv".
Definition O_RDONLY : Z := 0.
Definition O_WRONLY_CREAT : Z := 65.

Section translate.
Context `{Remoteprocs, Filesystem}.

(** The loop of [translate_readonly]: the descriptor and the events.  A
    full [firmware_value] makes [firmware_value[n]] lie outside; [path] has
    PATH_MAX bytes. *)
Fixpoint translate_loop (file : list Z) (entries : list (list Z)) : outcome (Z * list event) :=
  match entries with
  | [] => Ret (-1, [])
  | d_name :: entries' =>
      match firmware_attr d_name with
      | None => translate_loop file entries'
      | Some attr =>
          match attr_read attr with
          | None => translate_loop file entries'
          | Some r =>
              '(fd, evs) ←
                match r with
                | None => translate_loop file entries'
                | Some bs =>
                    if PATH_MAX <=? strlen bs then Fault
                    else
                      let value := until_nul bs in
                      if PATH_MAX <? strlen FIRMWARE_BASE + strlen value + 1 + strlen file + 1 then translate_loop file entries'
                      else
                        let path := FIRMWARE_BASE ++ dirname value ++ [c_slash] ++ file in
                        let fd := open_rdonly path in
                        if PATH_MAX <? strlen path + 1 then Fault
                        else if 0 <=? fd then Ret (fd, [EvOpen (OpenRdonly path); EvNew fd])
                        else '(fd, evs) ← translate_loop file entries'; Ret (fd, EvOpen (OpenRdonly path) :: evs)
                end;
              Ret (fd, EvNew (attr_fd attr) :: EvClose (attr_fd attr) :: evs)
          end
      end
  end.

(** [closedir] closes [class_fd], which is then closed once more. *)
Definition translate_readonly (file : list Z) : outcome (Z * list event) :=
  if open_class <? 0 then Ret (-1, [])
  else
    match class_entries with
    | None => Ret (-1, [EvNew open_class; EvClose open_class])
    | Some entries =>
        '(fd, evs) ← translate_loop file entries;
        Ret (fd, EvNew open_class :: evs ++ [EvClose open_class; EvReclose open_class])
    end.

Definition translate_readwrite (file : list Z) (flags : Z) : Z * list event :=
  if negb mkdir_tmp then (-1, [])
  else if open_tmp <? 0 then (-1, [])
  else
    let fd := openat_tmp open_tmp file flags in
    (fd, EvNew open_tmp :: EvOpen (OpenAt open_tmp file flags) :: (if 0 <=? fd then [EvNew fd] else []) ++ [EvClose open_tmp]).

(** [strncmp(path, prefix, strlen(prefix)) == 0] *)
Definition has_prefix (prefix path : list Z) : bool := bool_decide (take (length prefix) path = prefix).

Definition translate_open (path : list Z) (flags : Z) : outcome (Z * list event) :=
  if has_prefix READONLY_PATH path then translate_readonly (drop (length READONLY_PATH) path)
  else if has_prefix READWRITE_PATH path
  then Ret (translate_readwrite (drop (length READWRITE_PATH) path) flags)
  else Ret (-1, []).

End translate.

(** ** Packets *)

Definition OP_RRQ : Z := 1.
Definition OP_WRQ : Z := 2.
Definition OP_DATA : Z := 3.
Definition OP_ACK : Z := 4.
Definition OP_ERROR : Z := 5.
Definition OP_OACK : Z := 6.

(** A 16-bit number in network order. *)
Definition be16 (z : Z) : list Z := [Z.land (Z.shiftr z 8) 255; Z.land z 255].

Record tftp_client : Type := MkClient
  { c_sq : sockaddr_qrtr; c_sock : Z; c_fd : Z; c_blksize : Z; c_rsize : Z; c_wsize : Z; c_timeoutms : Z }.

(** The calls on open descriptors: [pread] gives [None] on an error and at most
    [count] bytes otherwise, [send] and [write] the number of bytes or -1, which may be
    less than asked for; [malloc_ok n] says whether [n] bytes can be allocated. *)
Class TftpIO : Type :=
  { pread : Z -> Z -> Z -> option (list Z);
    send : Z -> list Z -> Z;
    write : Z -> list Z -> Z;
    malloc_ok : Z -> bool }.

(** One option of an OACK. *)
Definition oack_option (name : string) (value : Z) : list Z := bytes_of_string name ++ [0] ++ sprintf_d value ++ [0].

(** The bytes of [tftp_send_oack]; [None] for a NULL pointer. *)
Definition oack_bytes (blocksize tsize wsize timeoutms rsize : option Z) : list Z :=
  [0; OP_OACK]
  ++ match blocksize with Some v => oack_option "blksize" (s64 v) | None => [] end
  ++ match timeoutms with Some v => oack_option "timeoutms" (s32 v) | None => [] end
  ++ match tsize with Some v => if s64 v =? -1 then [] else oack_option "tsize" (s64 v) | None => [] end
  ++ match wsize with Some v => oack_option "wsize" (s64 v) | None => [] end
  ++ match rsize with Some v => oack_option "rsize" (s64 v) | None => [] end.

(** [buf] has 512 bytes. *)
Definition tftp_send_oack (sock : Z) (blocksize tsize wsize timeoutms rsize : option Z) : outcome (list event) :=
  let bs := oack_bytes blocksize tsize wsize timeoutms rsize in
  if 512 <? Z.of_nat (length bs) then Fault else Ret [EvSend sock bs].

Definition tftp_send_ack (sock block : Z) : list event := [EvSend sock (be16 OP_ACK ++ be16 block)].

Definition tftp_send_error (sock code : Z) (msg : string) : list event :=
  [EvSend sock (be16 OP_ERROR ++ be16 code ++ bytes_of_string msg ++ [0])].

(** ** Strings of a request

    [buf] is the whole buffer of [main]; behind the packet it holds old bytes.
    Running over its end is a [Fault]. *)
Fixpoint read_str (bs : list Z) : outcome (list Z) :=
  match bs with
  | [] => Fault
  | b :: bs' => if b =? 0 then Ret [] else s ← read_str bs'; Ret (b :: s)
  end.

Definition str_at (buf : list Z) (p : nat) : outcome (list Z) := read_str (drop p buf).

Definition lower (c : Z) : Z := if (65 <=? c) && (c <=? 90) then c + 32 else c.
Definition octet (mode : list Z) : bool := bool_decide (lower <$> mode = bytes_of_string "octet").

(** The variables the options set. *)
Record rrq_opts : Type := MkOpts { o_blksize : Z; o_timeoutms : Z; o_tsize : Z; o_rsize : Z; o_wsize : Z }.

Definition opts0 : rrq_opts := MkOpts 512 1000 (-1) 0 0.

Definition set_opt (o : rrq_opts) (opt value : list Z) : rrq_opts :=
  let '(MkOpts b t ts r w) := o in
  if decide (opt = bytes_of_string "blksize") then MkOpts (u64 (atoi value)) t ts r w
  else if decide (opt = bytes_of_string "timeoutms") then MkOpts b (u32 (atoi value)) ts r w
  else if decide (opt = bytes_of_string "tsize") then MkOpts b t (atoi value) r w
  else if decide (opt = bytes_of_string "rsize") then MkOpts b t ts (u64 (atoi value)) w
  else if decide (opt = bytes_of_string "wsize") then MkOpts b t ts r (u64 (atoi value))
  else o.

(** The loop over the options from position [p] on; every turn moves on by two
    bytes at least. *)
Fixpoint opt_loop (fuel : nat) (buf : list Z) (len p : nat) (o : rrq_opts) : outcome rrq_opts :=
  match fuel with
  | O => OutOfFuel
  | S fuel' =>
      if (p <? len)%nat then
        opt ← str_at buf p;
        let p := (p + length opt + 1)%nat in
        value ← str_at buf p;
        opt_loop fuel' buf len (p + length value + 1) (set_opt o opt value)
      else Ret o
  end.

(** ** Requests *)

Record tftp_state : Type := MkTftp { readers : list tftp_client; writers : list tftp_client }.

(** The answers to the calls of one request: the new socket and whether it
    connects, and the size [fstat] gives. *)
Record answers : Type := MkAns { an_sock : Z; an_connect : Z; an_size : Z }.

Section service.
Context `{Remoteprocs, Filesystem, TftpIO}.

(** The return value and the packet sent. *)
Definition tftp_send_data (client : tftp_client) (block offset : Z) : outcome (Z * list event) :=
  let room := u64 (4 + c_blksize client) in
  if negb (malloc_ok room) || (room <? 4) then Fault
  else
    match pread (c_fd client) (c_blksize client) (s64 offset) with
    | None => Ret (-1, [])
    | Some [] => Ret (0, [])
    | Some bs =>
        if room <? 4 + Z.of_nat (length bs) then Fault
        else
          let pkt := [0; OP_DATA] ++ be16 block ++ bs in
          Ret (send (c_sock client) pkt, [EvSend (c_sock client) pkt])
    end.

Definition handle_rrq (s : tftp_state) (buf : list Z) (len : nat) (sq : sockaddr_qrtr) (an : answers)
    : outcome (tftp_state * list event) :=
  filename ← str_at buf 2;
  let p := (2 + length filename + 1)%nat in
  mode ← str_at buf p;
  let p := (p + length mode + 1)%nat in
  if negb (octet mode) then Ret (s, [])
  else
    let do_oack := (p <? len)%nat in
    o ← opt_loop (S len) buf len p opts0;
    if an_sock an <? 0 then Ret (s, [])
    else if an_connect an <? 0 then Ret (s, [EvNew (an_sock an)])
    else
      '(fd, calls) ← translate_open filename O_RDONLY;
      if fd <? 0 then Ret (s, EvNew (an_sock an) :: calls ++ tftp_send_error (an_sock an) 1 "file not found")
      else
        let tsize := if o_tsize o =? -1 then -1 else an_size an in
        let client := MkClient sq (an_sock an) fd (o_blksize o) (o_rsize o) (o_wsize o) (o_timeoutms o) in
        let s := MkTftp (readers s ++ [client]) (writers s) in
        evs ← (if do_oack then
                 tftp_send_oack (c_sock client) (Some (o_blksize o))
                   (if tsize =? 0 then None else Some tsize)
                   (if o_wsize o =? 0 then None else Some (o_wsize o))
                   (Some (c_timeoutms client))
                   (if o_rsize o =? 0 then None else Some (o_rsize o))
               else '(_, evs) ← tftp_send_data client 1 0; Ret evs);
        Ret (s, EvNew (an_sock an) :: calls ++ evs).

Definition handle_wrq (s : tftp_state) (buf : list Z) (sq : sockaddr_qrtr) (an : answers)
    : outcome (tftp_state * list event) :=
  filename ← str_at buf 2;
  mode ← str_at buf (2 + length filename + 1);
  if negb (octet mode) then Ret (s, [])
  else
    '(fd, calls) ← translate_open filename O_WRONLY_CREAT;
    if fd <? 0 then Ret (s, calls)
    else if an_sock an <? 0 then Ret (s, calls)
    else if an_connect an <? 0 then Ret (s, calls ++ [EvNew (an_sock an)])
    else
      let client := MkClient sq (an_sock an) fd 0 0 0 0 in
      let evs := calls ++ [EvNew (an_sock an)] ++ tftp_send_ack (an_sock an) 0 in
      if send (an_sock an) (be16 OP_ACK ++ be16 0) <? 0
      then Ret (s, evs ++ [EvClose (an_sock an); EvClose fd])
      else Ret (MkTftp (readers s) (writers s ++ [client]), evs).

(** ** Transfers *)

(** What [recvfrom] gives: the length or [-errno], the buffer and the sender. *)
Record received : Type := MkRecv { rv_len : Z; rv_buf : list Z; rv_sq : sockaddr_qrtr }.

Definition byte_at (buf : list Z) (i : nat) : Z := default 0 (buf !! i).
Definition word_at (buf : list Z) (i : nat) : Z := Z.lor (Z.shiftl (byte_at buf i) 8) (byte_at buf (S i)).

Definition same_peer (sq : sockaddr_qrtr) (client : tftp_client) : bool :=
  (sq_node sq =? sq_node (c_sq client)) && (sq_port sq =? sq_port (c_sq client)).

(** The loop over a window; [block] is a [uint16_t], [last + wsize] a [size_t]. *)
Fixpoint window_loop (fuel : nat) (client : tftp_client) (last block : Z) : outcome (list event) :=
  match fuel with
  | O => OutOfFuel
  | S fuel' =>
      if block <? u64 (last + c_wsize client) then
        '(n, evs) ← tftp_send_data client (block + 1) (u64 (block * c_blksize client));
        if n <=? 0 then Ret evs
        else rest ← window_loop fuel' client last (u16 (block + 1)); Ret (evs ++ rest)
      else Ret []
  end.

(** The return value and the packets; [buf] has 128 bytes. *)
Definition handle_reader (fuel : nat) (client : tftp_client) (rv : received) : outcome (Z * list event) :=
  if rv_len rv <? 0 then Ret (-1, [])
  else if negb (same_peer (rv_sq rv) client) then Ret (-1, [])
  else
    let opcode := word_at (rv_buf rv) 0 in
    if opcode =? OP_ERROR then (if 128 <=? rv_len rv then Fault else Ret (-1, []))
    else if negb (opcode =? OP_ACK) then Ret (-1, [])
    else
      let last := word_at (rv_buf rv) 2 in
      evs ← window_loop fuel client last last;
      Ret (1, evs).

(** [buf] has 516 bytes; [payload] is a [size_t].  A block of which only a part was
    written is acknowledged like the others. *)
Definition handle_writer (client : tftp_client) (rv : received) : outcome (Z * list event) :=
  if rv_len rv <? 0 then Ret (-1, [])
  else if negb (same_peer (rv_sq rv) client) then Ret (-1, [])
  else
    let opcode := word_at (rv_buf rv) 0 in
    let block := word_at (rv_buf rv) 2 in
    if negb (opcode =? OP_DATA) then Ret (-1, tftp_send_error (c_sock client) 4 "Expected DATA opcode")
    else
      let payload := u64 (rv_len rv - 4) in
      bs ← load (rv_buf rv) 4 payload;
      let n := write (c_fd client) bs in
      if n <? 0 then Ret (-1, [])
      else Ret (if payload =? 512 then 1 else 0, EvWrite (c_fd client) (take (Z.to_nat n) bs) :: tftp_send_ack (c_sock client) block).

(** ** The main loop *)

Definition close_events (client : tftp_client) : list event := [EvClose (c_sock client); EvClose (c_fd client)].

(** The loop over the clients of a list whose socket is ready: [ready client] is
    what [recvfrom] gives on it. *)
Fixpoint serve (handle : tftp_client -> received -> outcome (Z * list event)) (ready : tftp_client -> option received)
    (cs : list tftp_client) : outcome (list tftp_client * list event) :=
  match cs with
  | [] => Ret ([], [])
  | c :: cs' =>
      match ready c with
      | None => '(kept, evs) ← serve handle ready cs'; Ret (c :: kept, evs)
      | Some rv =>
          '(ret, evs) ← handle c rv;
          '(kept, evs') ← serve handle ready cs';
          if ret <=? 0 then Ret (kept, evs ++ close_events c ++ evs')
          else Ret (c :: kept, evs ++ evs')
      end
  end.

(** Closing the writers that [p] picks, for BYE and DEL_CLIENT. *)
Definition close_writers (p : tftp_client -> bool) (s : tftp_state) : tftp_state * list event :=
  (MkTftp (readers s) (List.filter (fun c => negb (p c)) (writers s)), concat (close_events <$> List.filter p (writers s))).

(** The part on the socket of the service: the state, or what [main] returns. *)
Definition serve_main (s : tftp_state) (rv : received) (an : answers) : outcome ((tftp_state + Z) * list event) :=
  let len := rv_len rv in
  let sq := rv_sq rv in
  if len <? 0 then Ret (inr len, [])
  else if sq_port sq =? QRTR_PORT_CTRL then
    let '(rc, pkt) := qrtr_decode (MkQpkt 0 0 0 0 0 0 [] 0) (rv_buf rv) len sq in
    if rc <? 0 then Ret (inr rc, [])
    else
      let '(s, evs) :=
        if p_type pkt =? QRTR_TYPE_BYE then close_writers (fun c => sq_node (c_sq c) =? sq_node sq) s
        else if p_type pkt =? QRTR_TYPE_DEL_CLIENT then close_writers (fun c => bool_decide (c_sq c = sq)) s
        else (s, []) in
      Ret (inl s, evs)
  else if len <? 2 then Ret (inl s, [])
  else
    let opcode := word_at (rv_buf rv) 0 in
    if opcode =? OP_RRQ then '(s, evs) ← handle_rrq s (rv_buf rv) (Z.to_nat len) sq an; Ret (inl s, evs)
    else if opcode =? OP_WRQ then '(s, evs) ← handle_wrq s (rv_buf rv) sq an; Ret (inl s, evs)
    else Ret (inl s, []).

(** The clients whose socket is ready. *)
Definition serve_clients (fuel : nat) (s : tftp_state) (ready : tftp_client -> option received) : outcome (tftp_state * list event) :=
  '(ws, evs1) ← serve handle_writer ready (writers s);
  '(rs, evs2) ← serve (handle_reader fuel) ready (readers s);
  Ret (MkTftp rs ws, evs1 ++ evs2).

(** A turn of the loop in [main] behind [select]: what is ready on the clients
    and, if it is, on the socket of the service. *)
Definition tftp_turn (fuel : nat) (s : tftp_state) (ready : tftp_client -> option received)
    (main : option (received * answers)) : outcome ((tftp_state + Z) * list event) :=
  '(s, evs) ← serve_clients fuel s ready;
  match main with
  | None => Ret (inl s, evs)
  | Some (rv, an) => '(r, evs') ← serve_main s rv an; Ret (r, evs ++ evs')
  end.

End service.
