(* ===== verification/TftpClaims.v ===== *)
(** * What the TFTP service guarantees

    Files are transferred intact in both directions, options are negotiated as
    asked for, and files are opened only below the two directories served. *)

From Stdlib Require Import ZArith Lia.
From stdpp Require Import base gmap list numbers strings relations.
From S2P Require Import Prelude CLib Packet Json Assoc PdMapper Firmware Tftp.

(** ** Numbers and strings *)

Lemma be16_word z (rest : list Z) : 0 <= z < 65536 -> word_at (be16 z ++ rest) 0 = z.
Proof.
  intros Hz. unfold word_at, byte_at, be16. cbn [app lookup list_lookup default from_option id].
  apply Z.bits_inj'. intros n Hn. rewrite Z.lor_spec, Z.shiftl_spec by done.
  change 255 with (Z.ones 8). destruct (decide (n < 8)).
  - rewrite (Z.testbit_neg_r _ (n - 8)) by lia. rewrite Z.land_spec, Z.ones_spec_low by lia. cbn. by rewrite andb_true_r.
  - rewrite !Z.land_spec, (Z.ones_spec_high 8 n) by lia. rewrite andb_false_r, orb_false_r, Z.shiftr_spec by lia.
    replace (n - 8 + 8) with n by lia. destruct (decide (n < 16)).
    + rewrite Z.ones_spec_low by lia. by rewrite andb_true_r.
    + rewrite Z.ones_spec_high by lia. rewrite andb_false_r. symmetry.
      destruct (decide (z = 0)) as [->|]; [apply Z.bits_0|]. apply Z.bits_above_log2; [lia|].
      apply Z.log2_lt_pow2; [lia|]. apply Z.lt_le_trans with (2 ^ 16); [change (2 ^ 16) with 65536; lia|]. apply Z.pow_le_mono_r; lia.
Qed.

Lemma length_be16 z : length (be16 z) = 2%nat.
Proof. done. Qed.

(** ** Receiving a file *)

(** The data packet of block [n]. *)
Definition data_packet (n : Z) (payload : list Z) : list Z := be16 OP_DATA ++ be16 n ++ payload.

(** The payloads of a file: full blocks of 512 bytes and a shorter one, which is
    empty for a file of a whole number of blocks. *)
Fixpoint blocks512 (fuel : nat) (f : list Z) : list (list Z) :=
  match fuel with
  | O => []
  | S fuel' => if (length f <? 512)%nat then [f] else take 512 f :: blocks512 fuel' (drop 512 f)
  end.

(** A client that sends the blocks, numbered from [n] on. *)
Fixpoint put_packets (n : Z) (bs : list (list Z)) : list (list Z) :=
  match bs with [] => [] | b :: bs' => data_packet n b :: put_packets (u16 (n + 1)) bs' end.

Section transfers.
Context `{TftpIO}.

(** What [recvfrom] gives for a packet of the client: [junk] is the buffer. *)
Definition recv_from (size : nat) (client : tftp_client) (junk pkt : list Z) : received :=
  MkRecv (Z.of_nat (length pkt)) (take size (pkt ++ drop (length pkt) junk)) (c_sq client).

(** The packets of a client one after the other, until it is closed: the
    events, the packets left and whether it was closed. *)
Fixpoint run_writer (client : tftp_client) (junk : list Z) (pkts : list (list Z)) : outcome (list event * list (list Z) * bool) :=
  match pkts with
  | [] => Ret ([], [], false)
  | pkt :: pkts' =>
      '(ret, evs) ← handle_writer client (recv_from 516 client junk pkt);
      if ret <=? 0 then Ret (evs, pkts', true)
      else '(evs', rest, closed) ← run_writer client junk pkts'; Ret (evs ++ evs', rest, closed)
  end.

(** What a run wrote to a file, and the blocks it acknowledged. *)
Definition written (fd : Z) (evs : list event) : list Z :=
  concat ((fun e => match e with EvWrite fd' bs => if fd' =? fd then bs else [] | _ => [] end) <$> evs).

Lemma same_peer_self client size junk pkt : same_peer (rv_sq (recv_from size client junk pkt)) client = true.
Proof. unfold same_peer. cbn. by rewrite !Z.eqb_refl. Qed.

Lemma handle_writer_data client junk n payload :
  0 <= n < 65536 -> (length payload <= 512)%nat -> (516 <= length junk)%nat -> write (c_fd client) payload = Z.of_nat (length payload) ->
  handle_writer client (recv_from 516 client junk (data_packet n payload))
  = Ret (if (length payload =? 512)%nat then 1 else 0,
         EvWrite (c_fd client) payload :: tftp_send_ack (c_sock client) n).
Proof.
  intros Hn Hl Hj Hw. unfold handle_writer. rewrite same_peer_self. cbn [negb].
  set (pkt := data_packet n payload). assert (length pkt = (4 + length payload)%nat) as Hlen by done.
  cbn [recv_from rv_len rv_buf rv_sq]. destruct (Z.ltb_spec (Z.of_nat (length pkt)) 0); [lia|].
  assert (take 516 (pkt ++ drop (length pkt) junk)
    = be16 OP_DATA ++ be16 n ++ payload ++ take (512 - length payload) (drop (length pkt) junk)) as Hbuf.
  { rewrite take_app_ge by lia. rewrite Hlen. replace (516 - (4 + length payload))%nat with (512 - length payload)%nat by lia.
    unfold pkt, data_packet. by rewrite <- !app_assoc. }
  rewrite Hbuf. rewrite be16_word by (unfold OP_DATA; lia). rewrite Z.eqb_refl. cbn [negb].
  set (rest := payload ++ take (512 - length payload) (drop (length pkt) junk)).
  change (word_at (be16 OP_DATA ++ be16 n ++ rest) 2) with (word_at (be16 n ++ rest) 0). rewrite be16_word by done.
  rewrite Hlen. replace (Z.of_nat (4 + length payload) - 4) with (Z.of_nat (length payload)) by lia.
  rewrite u64_small by lia.
  assert (load (be16 OP_DATA ++ be16 n ++ rest) 4 (Z.of_nat (length payload)) = Ret payload) as ->.
  { unfold load. destruct (Z.leb_spec 0 (Z.of_nat (length payload))); [|lia].
    destruct (Z.leb_spec (4 + Z.of_nat (length payload)) (Z.of_nat (length (be16 OP_DATA ++ be16 n ++ rest)))) as [_|Hbad].
    - cbn [andb]. rewrite Nat2Z.id. change (drop (Z.to_nat 4) (be16 OP_DATA ++ be16 n ++ rest)) with rest.
      unfold rest. by rewrite take_app_length.
    - unfold rest in Hbad. rewrite !length_app in Hbad. cbn in Hbad. lia. }
  cbn [mbind outcome_bind]. rewrite Hw. destruct (Z.ltb_spec (Z.of_nat (length payload)) 0); [lia|]. rewrite Nat2Z.id, take_ge by lia. do 2 f_equal.
  destruct (Nat.eqb_spec (length payload) 512), (Z.eqb_spec (Z.of_nat (length payload)) 512); try done; lia.
Qed.

(** What is done for the blocks: each is written and acknowledged. *)
Fixpoint put_events (client : tftp_client) (n : Z) (bs : list (list Z)) : list event :=
  match bs with
  | [] => []
  | b :: bs' => (EvWrite (c_fd client) b :: tftp_send_ack (c_sock client) n) ++ put_events client (u16 (n + 1)) bs'
  end.

Lemma written_put client bs : forall n, written (c_fd client) (put_events client n bs) = concat bs.
Proof.
  induction bs as [|b bs IH]; intros n; [done|]. cbn [put_events concat]. unfold written in *. rewrite fmap_app, concat_app, IH.
  cbn. rewrite Z.eqb_refl. by rewrite !app_nil_r.
Qed.

Lemma concat_blocks512 fuel : forall f, (length f < fuel)%nat -> concat (blocks512 fuel f) = f.
Proof.
  induction fuel as [|fuel IH]; intros f Hf; [lia|]. cbn [blocks512].
  destruct (Nat.ltb_spec (length f) 512); cbn [concat]; [by rewrite app_nil_r|].
  rewrite IH by (rewrite length_drop; lia). apply take_drop.
Qed.

Lemma run_writer_put client junk more fuel : forall f n,
  (length f < fuel)%nat -> 0 <= n < 65536 -> (516 <= length junk)%nat -> (forall bs, write (c_fd client) bs = Z.of_nat (length bs)) ->
  run_writer client junk (put_packets n (blocks512 fuel f) ++ more)
  = Ret (put_events client n (blocks512 fuel f), more, true).
Proof.
  induction fuel as [|fuel IH]; intros f n Hf Hn Hj Hw; [lia|]. cbn [blocks512].
  destruct (Nat.ltb_spec (length f) 512) as [Hs|Hs]; cbn [put_packets put_events app run_writer].
  - rewrite handle_writer_data by (done || lia). cbn [mbind outcome_bind].
    destruct (Nat.eqb_spec (length f) 512); [lia|]. done.
  - rewrite handle_writer_data by (done || (rewrite ?length_take; lia)). cbn [mbind outcome_bind].
    rewrite length_take, Nat.min_l by lia. cbn [Nat.eqb]. change (1 <=? 0) with false. cbv iota.
    rewrite IH; [|rewrite length_drop; lia|pose proof (u16_range (n + 1)); lia|done|done]. done.
Qed.

End transfers.

(** C29: A file sent to the service arrives.  Where the file takes the bytes of each
    write, a client that sends a file in blocks
    of 512 bytes and a shorter last one has each block written to its file and
    acknowledged with its number, the bytes written are the file, and the
    transfer is closed with the last block: packets that follow are not
    read. *)
Theorem tftp_put_stores_file `{TftpIO} client junk f more :
  (516 <= length junk)%nat -> (forall bs, write (c_fd client) bs = Z.of_nat (length bs)) ->
  let blocks := blocks512 (S (length f)) f in
  exists evs, run_writer client junk (put_packets 1 blocks ++ more) = Ret (evs, more, true)
    /\ evs = put_events client 1 blocks /\ written (c_fd client) evs = f.
Proof.
  intros Hj Hw blocks. exists (put_events client 1 blocks). split_and!; [apply run_writer_put; (done || lia)|done|].
  rewrite written_put. apply concat_blocks512. lia.
Qed.

(** A system on which everything works and every file holds the bytes 0 to 99. *)
#[local] Instance demo_io : TftpIO :=
  {| pread fd count off := Some (take (Z.to_nat count) (drop (Z.to_nat off) (seqZ 0 100)));
     send sock bs := Z.of_nat (length bs);
     write _ bs := Z.of_nat (length bs);
     malloc_ok _ := true |}.

Definition demo_client : tftp_client := MkClient (MkSq 42 0 17) 6 7 16 0 2 1000.

Lemma tftp_put_stores_file_witness :
  exists evs, run_writer demo_client (replicate 516 0) (put_packets 1 (blocks512 601 (replicate 600 65)) ++ [[]])
      = Ret (evs, [[]], true)
    /\ written 7 evs = replicate 600 65 /\ EvSend 6 [0; 4; 0; 2] ∈ evs.
Proof.
  destruct (tftp_put_stores_file demo_client (replicate 516 0) (replicate 600 65) [[]]) as (evs & Hr & He & Hw).
  - vm_compute. lia.
  - done.
  - exists evs. split; [exact Hr|]. split; [exact Hw|]. rewrite He. vm_compute. do 3 right. left.
Defined.

(** A disk that is full after ten bytes: the block is acknowledged all the same. *)
Example short_write_acknowledged :
  let io := {| pread _ _ _ := None; send _ _ := 4; write _ _ := 10; malloc_ok _ := true |} in
  @handle_writer io demo_client (recv_from 516 demo_client (replicate 516 0) (data_packet 1 (replicate 512 65)))
  = Ret (1, [EvWrite 7 (replicate 10 65); EvSend 6 [0; 4; 0; 1]]).
Proof. vm_compute. reflexivity. Qed.

(** ** Sending a file *)

(** The [k]-th block of a file, from 0. *)
Definition slice (b : nat) (f : list Z) (k : nat) : list Z := take b (drop (k * b) f).

Lemma concat_slices b f n : forall k, concat (slice b f <$> seq k n) = take (n * b) (drop (k * b) f).
Proof.
  induction n as [|n IH]; intros k; cbn [seq fmap list_fmap concat]; [done|].
  fold (slice b f <$> seq (S k) n). rewrite IH. unfold slice. change (S n * b)%nat with (b + n * b)%nat.
  rewrite <- (take_take_drop (drop (k * b) f) b (n * b)), drop_drop. do 3 f_equal. lia.
Qed.

(** The blocks of a file that is not empty at block [k]. *)
Definition nblocks (b : nat) (f : list Z) : nat := ((length f + b - 1) / b)%nat.

Lemma nblocks_spec b f k : (0 < b)%nat -> (k < nblocks b f)%nat <-> (k * b < length f)%nat.
Proof.
  intros Hb. unfold nblocks. pose proof (Nat.div_mod_eq (length f + b - 1) b) as Hd.
  pose proof (Nat.mod_upper_bound (length f + b - 1) b ltac:(lia)) as Hm.
  set (q := ((length f + b - 1) / b)%nat) in *. split; intros Hk; nia.
Qed.

Section get.
Context `{TftpIO}.
Variable (client : tftp_client) (f : list Z) (b w : nat).
Hypothesis (Hb : (0 < b)%nat) (Hb31 : Z.of_nat b < 2147483648) (Hw : Z.of_nat w < 2147483648).
Hypothesis (Hblk : c_blksize client = Z.of_nat b) (Hwin : c_wsize client = Z.of_nat w).
(** The file can be numbered. *)
Hypothesis (Hsize : Z.of_nat (length f) <= 65535 * Z.of_nat b).
(** Reads give the bytes of the file and nothing at its end, packets are sent,
    memory is available. *)
Hypothesis (Hread : forall count off : nat, pread (c_fd client) (Z.of_nat count) (Z.of_nat off) = Some (take count (drop off f))).
Hypothesis (Hsend : forall pkt, pkt <> [] -> 0 < send (c_sock client) pkt).
Hypothesis (Hmem : forall n, malloc_ok n = true).

Definition data_event (k : nat) : event := EvSend (c_sock client) (data_packet (Z.of_nat k + 1) (slice b f k)).

Lemma send_data_slice k :
  Z.of_nat k <= 65535 ->
  exists n, tftp_send_data client (Z.of_nat k + 1) (u64 (Z.of_nat k * c_blksize client))
    = Ret (n, if (k * b <? length f)%nat then [data_event k] else [])
    /\ (0 <? n) = (k * b <? length f)%nat.
Proof.
  intros Hk. unfold tftp_send_data. rewrite Hblk, Hmem, (u64_small (4 + _)) by lia.
  destruct (Z.ltb_spec (4 + Z.of_nat b) 4); [lia|]. cbn [negb orb].
  replace (s64 (u64 (Z.of_nat k * Z.of_nat b))) with (Z.of_nat (k * b)).
  2:{ assert (0 <= Z.of_nat k * Z.of_nat b <= 65535 * 2147483648) by (split; [lia|apply Z.mul_le_mono_nonneg; lia]).
      unfold s64. rewrite !(u64_small (Z.of_nat k * Z.of_nat b)) by lia.
      destruct (Z.ltb_spec (Z.of_nat k * Z.of_nat b) 9223372036854775808); lia. }
  rewrite Hread. destruct (Nat.ltb_spec (k * b) (length f)) as [Hin|Hout].
  - unfold data_event, slice. destruct (take b (drop (k * b) f)) as [|x xs] eqn:E.
    { apply (f_equal length) in E. rewrite length_take, length_drop in E. cbn in E. lia. }
    assert (length (x :: xs) <= b)%nat by (rewrite <- E, length_take; lia).
    destruct (Z.ltb_spec (4 + Z.of_nat b) (4 + Z.of_nat (length (x :: xs)))); [lia|].
    eexists. split; [done|]. by apply Z.ltb_lt, Hsend.
  - rewrite drop_ge, take_nil by lia. by exists 0.
Qed.

Lemma window_loop_events fuel : forall k last,
  Z.of_nat k <= 65535 -> (Nat.min (last + w) (nblocks b f) - k < fuel)%nat -> Z.of_nat last <= 65535 ->
  window_loop fuel client (Z.of_nat last) (Z.of_nat k)
  = Ret (data_event <$> seq k (Nat.min (last + w) (nblocks b f) - k)).
Proof.
  induction fuel as [|fuel IH]; intros k last Hk Hf Hl; [lia|]. cbn [window_loop].
  rewrite Hwin, u64_small by lia. destruct (Z.ltb_spec (Z.of_nat k) (Z.of_nat last + Z.of_nat w)) as [Hlt|Hge].
  2:{ replace (Nat.min (last + w) (nblocks b f) - k)%nat with 0%nat by lia. done. }
  destruct (send_data_slice k Hk) as (n & -> & Hn). cbn [mbind outcome_bind].
  pose proof (nblocks_spec b f k Hb) as Hnb. destruct (Nat.ltb_spec (k * b) (length f)) as [Hin|Hout].
  - destruct (Z.leb_spec n 0); [apply Z.ltb_lt in Hn; lia|].
    assert (Z.of_nat k < 65535) by nia. rewrite u16_small by lia. replace (Z.of_nat k + 1) with (Z.of_nat (S k)) by lia.
    rewrite IH by lia. cbn [mbind outcome_bind].
    replace (Nat.min (last + w) (nblocks b f) - k)%nat with (S (Nat.min (last + w) (nblocks b f) - S k)) by lia. done.
  - destruct (Z.leb_spec n 0); [|apply Z.ltb_ge in Hn; lia].
    replace (Nat.min (last + w) (nblocks b f) - k)%nat with 0%nat by lia. done.
Qed.

(** The acknowledgement of block [last]. *)
Definition ack_packet (last : nat) : list Z := be16 OP_ACK ++ be16 (Z.of_nat last).

(** The blocks sent for it. *)
Definition window (last : nat) : list nat := seq last (Nat.min (last + w) (nblocks b f) - last).

Lemma handle_reader_ack fuel junk last :
  (124 <= length junk)%nat -> Z.of_nat last <= 65535 -> (w < fuel)%nat ->
  handle_reader fuel client (recv_from 128 client junk (ack_packet last))
  = Ret (1, data_event <$> window last).
Proof.
  intros Hj Hl Hf. unfold handle_reader. rewrite same_peer_self. cbn [negb].
  cbn [recv_from rv_len rv_buf]. change (length (ack_packet last)) with 4%nat. change (Z.of_nat 4 <? 0) with false. cbv iota.
  assert (take 128 (ack_packet last ++ drop 4 junk) = be16 OP_ACK ++ be16 (Z.of_nat last) ++ take 124 (drop 4 junk)) as ->.
  { rewrite take_app_ge by (cbn; lia). unfold ack_packet. by rewrite <- app_assoc. }
  rewrite be16_word by (unfold OP_ACK; lia). change (OP_ACK =? OP_ERROR) with false. rewrite Z.eqb_refl. cbn [negb].
  set (rest := take 124 (drop 4 junk)).
  change (word_at (be16 OP_ACK ++ be16 (Z.of_nat last) ++ rest) 2) with (word_at (be16 (Z.of_nat last) ++ rest) 0).
  rewrite be16_word by lia. rewrite window_loop_events by lia. done.
Qed.

(** The acknowledgements of a client, and all that is sent for them. *)
Fixpoint run_reader (fuel : nat) (junk : list Z) (acks : list nat) : outcome (list event) :=
  match acks with
  | [] => Ret []
  | last :: acks' =>
      '(_, evs) ← handle_reader fuel client (recv_from 128 client junk (ack_packet last));
      evs' ← run_reader fuel junk acks'; Ret (evs ++ evs')
  end.

(** The payloads sent. *)
Definition sent_payload (e : event) : list Z := match e with EvSend _ pkt => drop 4 pkt | _ => [] end.

(** The windows of acknowledgements [i * w], [(i + 1) * w], ... follow each other. *)
Lemma windows_concat n : forall i,
  concat (window <$> ((fun j => j * w)%nat <$> seq i n)) = seq (i * w) (Nat.min ((i + n) * w) (nblocks b f) - i * w).
Proof using.
  clear -f b w. induction n as [|n IH]; intros i.
  { cbn [seq fmap list_fmap concat]. replace (Nat.min ((i + 0) * w) (nblocks b f) - i * w)%nat with 0%nat by lia. done. }
  cbn [seq]. rewrite !fmap_cons. cbn [concat]. rewrite IH. unfold window.
  replace ((S i + n) * w)%nat with ((i + S n) * w)%nat by lia. change (S i * w)%nat with (w + i * w)%nat.
  set (m := ((i + S n) * w)%nat) in *. assert (i * w + w <= m)%nat by nia.
  destruct (decide (i * w + w <= nblocks b f)%nat).
  - replace (Nat.min (i * w + w) (nblocks b f) - i * w)%nat with w by lia.
    replace (Nat.min m (nblocks b f) - i * w)%nat with (w + (Nat.min m (nblocks b f) - (w + i * w)))%nat by lia.
    rewrite seq_app. do 2 f_equal. lia.
  - replace (Nat.min m (nblocks b f) - (w + i * w))%nat with 0%nat by lia. cbn [seq]. rewrite app_nil_r. f_equal. lia.
Qed.

Lemma run_reader_acks fuel junk acks :
  (124 <= length junk)%nat -> (w < fuel)%nat -> Forall (fun last => Z.of_nat last <= 65535) acks ->
  run_reader fuel junk acks = Ret (data_event <$> concat (window <$> acks)).
Proof.
  intros Hj Hf. induction 1 as [|last acks Hl _ IH]; [done|]. cbn [run_reader]. rewrite handle_reader_ack by done. cbn [mbind outcome_bind].
  rewrite IH. cbn [mbind outcome_bind]. by rewrite fmap_cons, concat_cons, fmap_app.
Qed.

(** As many windows as the file has blocks give the file. *)
Lemma blocks_make_file n :
  (length f <= n * w * b)%nat ->
  concat (window <$> ((fun j => j * w)%nat <$> seq 0 n)) = seq 0 (nblocks b f) /\ concat (sent_payload <$> (data_event <$> seq 0 (nblocks b f))) = f.
Proof using Hb client.
  clear -Hb f client. intros Hlen. assert (nblocks b f <= n * w)%nat as Hnb.
  { destruct (decide (n * w < nblocks b f)%nat) as [Hlt|]; [|lia]. apply nblocks_spec in Hlt; lia. }
  split; [rewrite windows_concat; f_equal; cbn [Nat.mul Nat.add]; lia|].
  rewrite <- list_fmap_compose, (list_fmap_ext _ (slice b f)) by done. rewrite concat_slices. cbn [Nat.mul]. rewrite drop_0.
  apply take_ge. destruct (decide (nblocks b f * b < length f)%nat) as [Hlt|]; [|lia]. apply nblocks_spec in Hlt; lia.
Qed.

End get.

(** A reader of the file [f] in blocks of [b] bytes and windows of [w] blocks, on
    a system where reads give the bytes of the file, packets are sent and memory
    is available.  The file has at most 65535 blocks. *)
Record serves `{TftpIO} (client : tftp_client) (f : list Z) (b w : nat) : Prop := MkServes
  { sv_b : (0 < b)%nat;
    sv_b31 : Z.of_nat b < 2147483648;
    sv_w31 : Z.of_nat w < 2147483648;
    sv_blksize : c_blksize client = Z.of_nat b;
    sv_wsize : c_wsize client = Z.of_nat w;
    sv_size : Z.of_nat (length f) <= 65535 * Z.of_nat b;
    sv_read : forall count off : nat, pread (c_fd client) (Z.of_nat count) (Z.of_nat off) = Some (take count (drop off f));
    sv_send : forall pkt, pkt <> [] -> 0 < send (c_sock client) pkt;
    sv_mem : forall n, malloc_ok n = true }.

(** A file read from the service arrives.  A client that acknowledges the last
    block of each window, from block 0 on, is sent every block of the file once,
    in order and under its number, and nothing else; the payloads make up the
    file. *)
Theorem tftp_get_sends_file `{TftpIO} client f b w fuel junk n :
  serves client f b w -> (124 <= length junk)%nat -> (w < fuel)%nat ->
  Z.of_nat (n * w) <= 65535 + Z.of_nat w -> (length f <= n * w * b)%nat ->
  exists evs, run_reader client fuel junk ((fun i => i * w)%nat <$> seq 0 n) = Ret evs
    /\ evs = data_event client f b <$> seq 0 (nblocks b f)
    /\ concat (sent_payload <$> evs) = f.
Proof.
  intros [Hb Hb31 Hw31 Hblk Hwin Hsize Hread Hsend Hmem] Hj Hf Hn Hlen.
  destruct (blocks_make_file client f b w Hb n Hlen) as [Hall Hfile]. eexists. split; [|split; [done|exact Hfile]].
  rewrite (run_reader_acks client f b w) by (done || (apply Forall_fmap, Forall_seq; intros j Hj'; cbn; nia)). by rewrite Hall.
Qed.

Lemma tftp_get_sends_file_witness :
  exists evs, run_reader demo_client 3 (replicate 128 0) [0; 2; 4; 6]%nat = Ret evs
    /\ length evs = 7%nat /\ concat (sent_payload <$> evs) = seqZ 0 100.
Proof.
  destruct (tftp_get_sends_file demo_client (seqZ 0 100) 16 2 3 (replicate 128 0) 4) as (evs & Hr & He & Hp).
  - split; try reflexivity; try lia.
    + vm_compute. discriminate.
    + intros count off. cbn. by rewrite !Nat2Z.id.
    + intros [|x pkt] Hne; [done|]. cbn. lia.
  - vm_compute. lia.
  - lia.
  - vm_compute. discriminate.
  - vm_compute. lia.
  - exists evs. split; [exact Hr|]. split; [|exact Hp]. rewrite He. vm_compute. reflexivity.
Defined.

(** The window loop does not end when the window reaches block 65536 of a
    longer file: [block] is a [uint16_t] and starts again at 0, below the limit,
    and the blocks of the file are sent over and over. *)
Theorem tftp_window_wraps `{TftpIO} client last fuel :
  0 <= last <= 65535 -> 65535 < last + c_wsize client < 18446744073709551616 ->
  (forall k, 0 <= k <= 65535 -> exists n evs,
     tftp_send_data client (k + 1) (u64 (k * c_blksize client)) = Ret (n, evs) /\ 0 < n) ->
  window_loop fuel client last last = OutOfFuel.
Proof.
  intros Hl Hw Hdata.
  assert (forall block, 0 <= block <= 65535 -> window_loop fuel client last block = OutOfFuel) as Hall; [|by apply Hall].
  induction fuel as [|fuel IH]; intros block Hb; [done|]. cbn [window_loop]. rewrite u64_small by lia.
  destruct (Z.ltb_spec block (last + c_wsize client)); [|lia].
  destruct (Hdata block Hb) as (n & evs & -> & Hn). cbn [mbind outcome_bind]. destruct (Z.leb_spec n 0); [lia|].
  pose proof (u16_range (block + 1)). rewrite IH by lia. done.
Qed.

(** A file that does not end. *)
Definition endless_io : TftpIO :=
  {| pread _ _ _ := Some [65]; send _ bs := Z.of_nat (length bs); write _ bs := Z.of_nat (length bs); malloc_ok _ := true |}.

Lemma tftp_window_wraps_witness :
  @window_loop endless_io (Z.to_nat 1000000) (MkClient (MkSq 42 0 17) 6 7 1 0 1 1000) 65535 65535 = OutOfFuel.
Proof.
  apply (@tftp_window_wraps endless_io (MkClient (MkSq 42 0 17) 6 7 1 0 1 1000) 65535 (Z.to_nat 1000000)).
  - lia.
  - cbn. lia.
  - intros k Hk. eexists 5, _. split; [|lia]. reflexivity.
Defined.

(** ** Options *)

Lemma read_str_app s rest : Forall (fun c => c <> 0) s -> read_str (s ++ 0 :: rest) = Ret s.
Proof.
  induction 1 as [|c s Hc _ IH]; [done|]. cbn [app read_str]. destruct (Z.eqb_spec c 0); [done|]. by rewrite IH.
Qed.

Lemma str_at_app pre s rest : Forall (fun c => c <> 0) s -> str_at (pre ++ s ++ 0 :: rest) (length pre) = Ret s.
Proof. intros Hs. unfold str_at. rewrite drop_app_length. by apply read_str_app. Qed.

(** Options as they are in requests and in OACKs. *)
Definition options_bytes (kvs : list (string * Z)) : list Z := concat ((fun kv => oack_option kv.1 kv.2) <$> kvs).

Definition take_options (o : rrq_opts) (kvs : list (string * Z)) : rrq_opts :=
  foldl (fun o kv => set_opt o (bytes_of_string kv.1) (sprintf_d kv.2)) o kvs.

Definition option_ok (kv : string * Z) : Prop := Forall (fun c => c <> 0) (bytes_of_string kv.1) /\ 0 <= kv.2.

Lemma opt_loop_options kvs : forall fuel pre junk o,
  Forall option_ok kvs -> (length kvs < fuel)%nat ->
  opt_loop fuel (pre ++ options_bytes kvs ++ junk) (length pre + length (options_bytes kvs)) (length pre) o
  = Ret (take_options o kvs).
Proof.
  induction kvs as [|[name v] kvs IH]; intros [|fuel] pre junk o Hok Hf; cbn [length] in Hf; try lia.
  { cbn [opt_loop options_bytes fmap list_fmap concat length app]. by rewrite Nat.add_0_r, Nat.ltb_irrefl. }
  apply list.Forall_cons in Hok as [[Hn Hv] Hok]. cbn [fst snd] in Hn, Hv.
  change (options_bytes ((name, v) :: kvs)) with (oack_option name v ++ options_bytes kvs).
  cbn [opt_loop].
  assert (length (oack_option name v) = length (bytes_of_string name) + length (sprintf_d v) + 2)%nat as Hol.
  { unfold oack_option. rewrite !length_app. cbn. lia. }
  rewrite length_app.
  destruct (Nat.ltb_spec (length pre) (length pre + (length (oack_option name v) + length (options_bytes kvs)))) as [_|]; [|lia].
  assert (pre ++ (oack_option name v ++ options_bytes kvs) ++ junk
    = pre ++ bytes_of_string name ++ 0 :: sprintf_d v ++ 0 :: options_bytes kvs ++ junk) as Hbuf.
  { unfold oack_option. by rewrite <- !app_assoc. }
  rewrite Hbuf, str_at_app by done. cbn [mbind outcome_bind].
  assert (forall rest, pre ++ bytes_of_string name ++ 0 :: rest = (pre ++ bytes_of_string name ++ [0]) ++ rest) as Hsplit.
  { intros rest. by rewrite <- !app_assoc. }
  assert (length pre + length (bytes_of_string name) + 1 = length (pre ++ bytes_of_string name ++ [0%Z]))%nat as ->.
  { rewrite !length_app. cbn. lia. }
  rewrite (Hsplit (sprintf_d v ++ 0 :: options_bytes kvs ++ junk)), str_at_app by (by apply sprintf_no_nul). cbn [mbind outcome_bind].
  set (pre' := (pre ++ bytes_of_string name ++ [0]) ++ sprintf_d v ++ [0]).
  specialize (IH fuel pre' junk (set_opt o (bytes_of_string name) (sprintf_d v)) Hok ltac:(lia)).
  cbn [take_options foldl fst snd]. fold (take_options (set_opt o (bytes_of_string name) (sprintf_d v)) kvs).
  rewrite <- IH. f_equal.
  - unfold pre'. by rewrite <- !app_assoc.
  - unfold pre'. rewrite !length_app, Hol. cbn. lia.
  - unfold pre'. rewrite !length_app. cbn. lia.
Qed.

Lemma length_oack_option name v :
  0 <= v -> (length (oack_option name v) <= length (bytes_of_string name) + 22)%nat.
Proof.
  intros Hv. unfold oack_option. pose proof (length_sprintf v Hv). rewrite !length_app. cbn [length] in *. lia.
Qed.

Definition rrq_bytes (filename : list Z) (kvs : list (string * Z)) : list Z :=
  be16 OP_RRQ ++ filename ++ [0] ++ bytes_of_string "octet" ++ [0] ++ options_bytes kvs.

(** The value a request asks for: that of the last option of this name. *)
Definition asked (kvs : list (string * Z)) (name : string) : option Z :=
  snd <$> last (filter (fun kv => bytes_of_string kv.1 = bytes_of_string name) kvs).

(** Options of any names, with values that are numbers below 2^31. *)
Definition small_option (kv : string * Z) : Prop := Forall (fun c => c <> 0) (bytes_of_string kv.1) /\ 0 <= kv.2 < 2147483648.

Lemma asked_snoc kvs k v name :
  asked (kvs ++ [(k, v)]) name = if decide (bytes_of_string k = bytes_of_string name) then Some v else asked kvs name.
Proof.
  unfold asked. rewrite filter_app, filter_cons, filter_nil. cbn [fst]. case_decide; [by rewrite last_snoc|by rewrite app_nil_r].
Qed.

Lemma asked_small kvs name v : Forall small_option kvs -> asked kvs name = Some v -> 0 <= v < 2147483648.
Proof.
  intros Hok. unfold asked. intros (kv & Hl & ->)%fmap_Some. apply last_Some_elem_of in Hl. apply list_elem_of_filter in Hl as [_ Hin].
  rewrite list.Forall_forall in Hok. by apply Hok.
Qed.

(** The options of a request are the values asked for, and the defaults. *)
Lemma take_options_asked kvs :
  Forall small_option kvs ->
  take_options opts0 kvs = MkOpts (default 512 (asked kvs "blksize")) (default 1000 (asked kvs "timeoutms")) (default (-1) (asked kvs "tsize"))
    (default 0 (asked kvs "rsize")) (default 0 (asked kvs "wsize")).
Proof.
  induction kvs as [|[k v] kvs IH] using rev_ind; intros Hok; [done|]. apply Forall_app in Hok as [Hok [Hkv _]%list.Forall_cons].
  destruct Hkv as [_ Hv]. cbn [snd] in Hv. unfold take_options in *. rewrite foldl_app. cbn [foldl fst snd]. rewrite IH by done. unfold set_opt.
  rewrite !asked_snoc, atoi_sprintf by done. rewrite u64_small, u32_small by lia.
  repeat (case_decide;
    [repeat rewrite decide_False by (match goal with Hk : bytes_of_string k = _ |- _ => rewrite Hk end; vm_compute; discriminate); done|]).
  done.
Qed.

(** What is granted: the window and the receive size when they are not zero. *)
Definition granted (b t : Z) (size : option Z) (w r : Z) : list (string * Z) :=
  [("blksize", b); ("timeoutms", t)]%string ++ match size with Some v => [("tsize"%string, v)] | None => [] end
  ++ (if w =? 0 then [] else [("wsize"%string, w)]) ++ (if r =? 0 then [] else [("rsize"%string, r)]).

Definition small (v : Z) : Prop := 0 <= v < 2147483648.

Lemma granted_ok b t size w r : small b -> small t -> (forall v, size = Some v -> small v) -> small w -> small r -> Forall small_option (granted b t size w r).
Proof.
  unfold small. intros Hb Ht Hs Hw Hr. assert (forall name v, 0 <= v < 2147483648 -> bool_decide (Forall (fun c => c <> 0) (bytes_of_string name)) = true -> small_option (name, v)) as Ho
    by (intros name v Hv Hn%bool_decide_eq_true; by split).
  unfold granted. rewrite !Forall_app. split_and!.
  - constructor; [by apply Ho|]. constructor; [by apply Ho|done].
  - destruct size as [v|]; [|done]. constructor; [|done]. apply Ho; [by apply Hs|done].
  - destruct (w =? 0); [done|]. constructor; [|done]. by apply Ho.
  - destruct (r =? 0); [done|]. constructor; [|done]. by apply Ho.
Qed.

(** Read back by the syntax of options, an answer gives these values. *)
Lemma granted_asked b t size w r :
  let kvs := granted b t size w r in
  asked kvs "blksize" = Some b /\ asked kvs "timeoutms" = Some t /\ asked kvs "tsize" = size
  /\ default 0 (asked kvs "wsize") = w /\ default 0 (asked kvs "rsize") = r.
Proof.
  intros kvs. unfold kvs, granted. destruct size, (Z.eqb_spec w 0), (Z.eqb_spec r 0); subst; done.
Qed.

Lemma oack_granted sock b t size w r :
  small b -> small t -> (forall v, size = Some v -> small v) -> small w -> small r ->
  forall ts, ts = Some (-1) /\ size = None \/ ts = size ->
  tftp_send_oack sock (Some b) ts (if w =? 0 then None else Some w) (Some t) (if r =? 0 then None else Some r)
  = Ret [EvSend sock ([0; OP_OACK] ++ options_bytes (granted b t size w r))].
Proof.
  unfold small. intros Hb Ht Hs Hw Hr ts Hts. unfold tftp_send_oack.
  assert (oack_bytes (Some b) ts (if w =? 0 then None else Some w) (Some t) (if r =? 0 then None else Some r)
    = [0; OP_OACK] ++ options_bytes (granted b t size w r)) as ->.
  { unfold oack_bytes, options_bytes, granted. rewrite !fmap_app, !concat_app. rewrite (s64_small b), (s32_small t) by lia. cbn [fmap list_fmap concat fst snd].
    rewrite app_nil_r, <- !app_assoc. do 3 f_equal. f_equal; [|f_equal].
    - destruct Hts as [[-> ->] | ->]; [done|]. destruct size as [v|]; [|done]. specialize (Hs v eq_refl). rewrite s64_small by lia.
      destruct (Z.eqb_spec v (-1)); [lia|]. cbn. by rewrite app_nil_r.
    - destruct (w =? 0); [done|]. rewrite s64_small by lia. cbn. by rewrite app_nil_r.
    - destruct (r =? 0); [done|]. rewrite s64_small by lia. cbn. by rewrite app_nil_r. }
  destruct (Z.ltb_spec 512 (Z.of_nat (length ([0; OP_OACK] ++ options_bytes (granted b t size w r))))) as [Hbad|]; [exfalso|done].
  assert (Forall (fun kv => (length (oack_option kv.1 kv.2) <= 31)%nat) (granted b t size w r) /\ (length (granted b t size w r) <= 5)%nat) as [Hl Hn].
  { unfold granted. split.
    - pose proof (length_oack_option "blksize" b ltac:(lia)). pose proof (length_oack_option "timeoutms" t ltac:(lia)).
      pose proof (length_oack_option "wsize" w ltac:(lia)). pose proof (length_oack_option "rsize" r ltac:(lia)).
      cbn [length bytes_of_string] in *. rewrite !Forall_app. split_and!; [apply list.Forall_cons; split; [cbn [fst snd]; lia|]; apply Forall_singleton; cbn [fst snd]; lia| | |].
      + destruct size as [v|]; [|done]. specialize (Hs v eq_refl). pose proof (length_oack_option "tsize" v ltac:(lia)). cbn [length bytes_of_string] in *.
        apply Forall_singleton. cbn [fst snd]. lia.
      + destruct (w =? 0); [done|]. apply Forall_singleton. cbn [fst snd]. lia.
      + destruct (r =? 0); [done|]. apply Forall_singleton. cbn [fst snd]. lia.
    - rewrite !length_app. destruct size, (w =? 0), (r =? 0); cbn; lia. }
  assert (forall kvs, Forall (fun kv : string * Z => (length (oack_option kv.1 kv.2) <= 31)%nat) kvs -> (length (options_bytes kvs) <= 31 * length kvs)%nat) as Hsum.
  { induction 1 as [|kv kvs Hkv _ IH]; [done|]. change (options_bytes (kv :: kvs)) with (oack_option kv.1 kv.2 ++ options_bytes kvs). rewrite length_app. cbn [length]. lia. }
  specialize (Hsum _ Hl). rewrite length_app in Hbad. cbn [length] in Hbad. lia.
Qed.

(** The head of a request. *)
Lemma rrq_strings filename rest :
  Forall (fun c => c <> 0) filename ->
  let buf := be16 OP_RRQ ++ filename ++ [0] ++ bytes_of_string "octet" ++ [0] ++ rest in
  str_at buf 2 = Ret filename /\ str_at buf (2 + length filename + 1) = Ret (bytes_of_string "octet").
Proof.
  intros Hf buf. split; [by apply (str_at_app (be16 OP_RRQ))|].
  assert (buf = (be16 OP_RRQ ++ filename ++ [0]) ++ bytes_of_string "octet" ++ 0 :: rest) as ->.
  { unfold buf. by rewrite <- !app_assoc. }
  assert (2 + length filename + 1 = length (be16 OP_RRQ ++ filename ++ [0%Z]))%nat as ->.
  { rewrite !length_app. cbn. lia. }
  apply str_at_app. repeat constructor; done.
Qed.

(** The size a request is told: that of the file, when it asked for it and the file is
    not empty. *)
Definition told_size (kvs : list (string * Z)) (size : Z) : option Z :=
  match asked kvs "tsize" with Some _ => if size =? 0 then None else Some size | None => None end.

(** C30: A read request is negotiated as asked for.  For a request with options of any
    names, in any order and number, whose values are numbers below 2^31, and a file of less than 2^31 bytes that can be
    opened, the new reader has exactly the block size, window size, receive size and
    timeout asked for last, and the defaults 512, 0, 0 and 1000 for those not asked
    for; the answer, read back by the syntax of options, grants these values
    and, where the size was asked for and the file is not empty, gives the size of the
    file. *)
Theorem rrq_negotiates `{Remoteprocs, Filesystem, TftpIO} s filename kvs junk sq an fd calls :
  Forall (fun c => c <> 0) filename -> kvs <> [] -> Forall small_option kvs ->
  0 <= an_sock an -> 0 <= an_connect an -> small (an_size an) ->
  translate_open filename O_RDONLY = Ret (fd, calls) -> 0 <= fd ->
  let req := rrq_bytes filename kvs in
  let b := default 512 (asked kvs "blksize") in
  let t := default 1000 (asked kvs "timeoutms") in
  let w := default 0 (asked kvs "wsize") in
  let r := default 0 (asked kvs "rsize") in
  exists oack,
    handle_rrq s (req ++ junk) (length req) sq an
    = Ret (MkTftp (readers s ++ [MkClient sq (an_sock an) fd b r w t]) (writers s),
           EvNew (an_sock an) :: calls ++ [EvSend (an_sock an) oack])
    /\ opt_loop (length oack) oack (length oack) 2 opts0 = Ret (MkOpts b t (default (-1) (told_size kvs (an_size an))) r w).
Proof.
  intros Hf Hne Hok Hs Hc Hsz Hopen Hfd req b t w r.
  assert (small b /\ small t /\ small w /\ small r) as (Hb & Ht & Hw & Hr).
  { unfold b, t, w, r, small.
    assert (forall name d, 0 <= d < 2147483648 -> 0 <= default d (asked kvs name) < 2147483648) as Hd
      by (intros name d Hd; destruct (asked kvs name) eqn:E; [by eapply asked_small|done]).
    split_and!; apply Hd; lia. }
  set (ts := told_size kvs (an_size an)).
  assert (forall v, ts = Some v -> small v) as Hts.
  { unfold ts, told_size. intros v. destruct (asked kvs "tsize"); [|done]. destruct (_ =? 0); [done|]. by intros [= <-]. }
  exists ([0; OP_OACK] ++ options_bytes (granted b t ts w r)). split.
  - destruct (rrq_strings filename (options_bytes kvs ++ junk) Hf) as [Hstr1 Hstr2].
    set (pre := be16 OP_RRQ ++ filename ++ [0] ++ bytes_of_string "octet" ++ [0]).
    assert (req ++ junk = be16 OP_RRQ ++ filename ++ [0] ++ bytes_of_string "octet" ++ [0] ++ options_bytes kvs ++ junk) as Hreq
      by (unfold req, rrq_bytes; by rewrite <- !app_assoc).
    assert (req ++ junk = pre ++ options_bytes kvs ++ junk) as Hbuf by (rewrite Hreq; unfold pre; by rewrite <- !app_assoc).
    assert (length pre = (2 + length filename + 1 + length (bytes_of_string "octet") + 1)%nat) as Hpre by (unfold pre; rewrite !length_app; cbn; lia).
    assert (length req = (length pre + length (options_bytes kvs))%nat) as Hlen
      by (unfold req, rrq_bytes, pre; rewrite !length_app; cbn [length]; lia).
    assert (0 < length (options_bytes kvs))%nat as Hpos.
    { destruct kvs as [|[k v] kvs']; [done|]. change (options_bytes ((k, v) :: kvs')) with (oack_option k v ++ options_bytes kvs').
      unfold oack_option. rewrite !length_app. cbn [length]. lia. }
    assert (length kvs <= length (options_bytes kvs))%nat as Hcount.
    { clear. induction kvs as [|[k v] kvs' IH]; [done|]. change (options_bytes ((k, v) :: kvs')) with (oack_option k v ++ options_bytes kvs').
      unfold oack_option. rewrite !length_app. cbn [length]. lia. }
    unfold handle_rrq. rewrite Hreq, Hstr1. cbn [mbind outcome_bind]. rewrite Hstr2. cbn [mbind outcome_bind].
    change (octet (bytes_of_string "octet")) with true. cbn [negb]. rewrite <- Hreq, Hbuf, <- Hpre, Hlen.
    rewrite opt_loop_options; [| |lia]. 2:{ eapply list.Forall_impl; [exact Hok|]. intros kv [? ?]. split; [done|lia]. }
    cbn [mbind outcome_bind]. rewrite take_options_asked by done.
    destruct (Z.ltb_spec (an_sock an) 0); [lia|]. destruct (Z.ltb_spec (an_connect an) 0); [lia|].
    rewrite Hopen. cbn [mbind outcome_bind o_blksize o_timeoutms o_tsize o_rsize o_wsize c_sock c_timeoutms].
    destruct (Z.ltb_spec fd 0); [lia|]. destruct (Nat.ltb_spec (length pre) (length pre + length (options_bytes kvs))); [|lia].
    fold b t w r. rewrite (oack_granted _ b t ts w r); try done. unfold ts, told_size. destruct (asked kvs "tsize") as [v|] eqn:Ev; cbn [default from_option id].
    + apply asked_small in Ev; [|done]. destruct (Z.eqb_spec v (-1)); [lia|]. destruct (Z.eqb_spec (an_size an) 0) as [|]; by right.
    + change (-1 =? -1) with true. cbv iota. change (-1 =? 0) with false. by left.
  - rewrite length_app. pose proof (granted_ok b t ts w r Hb Ht Hts Hw Hr) as Hg.
    pose proof (opt_loop_options (granted b t ts w r) (2 + length (options_bytes (granted b t ts w r))) [0; OP_OACK] [] opts0) as Hp.
    rewrite app_nil_r in Hp. change (length [0; OP_OACK]) with 2%nat in *. rewrite Hp.
    + rewrite take_options_asked by done. destruct (granted_asked b t ts w r) as (-> & -> & -> & -> & ->). done.
    + eapply list.Forall_impl; [exact Hg|]. intros kv [? ?]. split; [done|lia].
    + unfold granted, options_bytes. rewrite !fmap_app, !concat_app. cbn [fmap list_fmap concat]. unfold oack_option. rewrite !length_app. cbn [length].
      destruct ts, (w =? 0), (r =? 0); cbn [fmap list_fmap concat length]; rewrite ?length_app; cbn [length]; lia.
Qed.

(** A system with a writable directory. *)
#[local] Instance demo_nodes : Remoteprocs :=
  {| class_entries := Some [bytes_of_string "remoteproc0"];
     attr_read attr := Some (Some (bytes_of_string "qcom/modem.mdt"));
     dir_entries path := None;
     file_content path := None |}.

#[local] Instance demo_fs : Filesystem :=
  {| open_class := 10;
     attr_fd _ := 11;
     open_rdonly path := if decide (path = bytes_of_string "/vendor/firmware/qcom/wlanmdsp.mbn") then 7 else -1;
     mkdir_tmp := true;
     open_tmp := 5;
     openat_tmp _ _ _ := 8 |}.

(** A request as the modem sends it, and its options in the answer. *)
Definition demo_options : list (string * Z) := [("blksize", 7680); ("timeoutms", 1000); ("tsize", 0); ("wsize", 10); ("rsize", 0)]%string.

Lemma rrq_negotiates_witness :
  exists oack,
    handle_rrq (MkTftp [] []) (rrq_bytes (bytes_of_string "/readonly/firmware/image/wlanmdsp.mbn") demo_options ++ [1; 2; 3]) 97
      (MkSq 42 0 17) (MkAns 6 0 3311)
    = Ret (MkTftp [MkClient (MkSq 42 0 17) 6 7 7680 0 10 1000] [],
           [EvNew 6; EvNew 10; EvNew 11; EvClose 11; EvOpen (OpenRdonly (bytes_of_string "/vendor/firmware/qcom/wlanmdsp.mbn")); EvNew 7;
            EvClose 10; EvReclose 10; EvSend 6 oack])
    /\ opt_loop (length oack) oack (length oack) 2 opts0 = Ret (MkOpts 7680 1000 3311 0 10).
Proof.
  apply (rrq_negotiates (MkTftp [] []) (bytes_of_string "/readonly/firmware/image/wlanmdsp.mbn") demo_options [1; 2; 3] (MkSq 42 0 17)
    (MkAns 6 0 3311) 7
    [EvNew 10; EvNew 11; EvClose 11; EvOpen (OpenRdonly (bytes_of_string "/vendor/firmware/qcom/wlanmdsp.mbn")); EvNew 7; EvClose 10; EvReclose 10]);
    unfold small; cbn [an_sock an_connect an_size]; try lia.
  - repeat constructor; discriminate.
  - discriminate.
  - apply (bool_decide_unpack _). vm_compute. exact I.
  - vm_compute. reflexivity.
Defined.

(** ** Descriptors *)

(** The set of open descriptors after an event; [None] when a descriptor is
    used or closed that is not open, when one is handed out while it is, or when a
    second [close] meets a descriptor that is open again. *)
Definition use_event (fds : gset Z) (e : event) : option (gset Z) :=
  match e with
  | EvSend fd _ | EvWrite fd _ => if decide (fd ∈ fds) then Some fds else None
  | EvClose fd => if decide (fd ∈ fds) then Some (fds ∖ {[ fd ]}) else None
  | EvReclose fd => if decide (fd ∈ fds) then None else Some fds
  | EvOpen (OpenRdonly _) => Some fds
  | EvOpen (OpenAt base _ _) => if decide (base ∈ fds) then Some fds else None
  | EvNew fd => if decide (fd ∈ fds) then None else Some ({[ fd ]} ∪ fds)
  end.

Fixpoint use_events (fds : gset Z) (evs : list event) : option (gset Z) :=
  match evs with [] => Some fds | e :: evs' => fds ← use_event fds e; use_events fds evs' end.

Lemma use_events_app fds evs evs' : use_events fds (evs ++ evs') = use_events fds evs ≫= fun fds => use_events fds evs'.
Proof. revert fds. induction evs as [|e evs IH]; intros fds; [done|]. cbn [app use_events]. destruct (use_event fds e); [apply IH|done]. Qed.

(** What the kernel promises: a descriptor it hands out is not open at that time. *)
Fixpoint kernel_ok (fds : gset Z) (evs : list event) : Prop :=
  match evs with
  | [] => True
  | EvNew fd :: evs' => fd ∉ fds /\ kernel_ok ({[ fd ]} ∪ fds) evs'
  | EvClose fd :: evs' => kernel_ok (fds ∖ {[ fd ]}) evs'
  | _ :: evs' => kernel_ok fds evs'
  end.

Lemma use_new fds fd evs : fd ∉ fds -> use_events fds (EvNew fd :: evs) = use_events ({[ fd ]} ∪ fds) evs.
Proof. intros Hf. cbn [use_events use_event]. by rewrite decide_False by done. Qed.

Lemma use_closed fds fd evs : fd ∉ fds -> use_events ({[ fd ]} ∪ fds) (EvClose fd :: evs) = use_events fds evs.
Proof.
  intros Hf. cbn [use_events use_event]. rewrite decide_True by set_solver. cbn [mbind option_bind]. f_equal. set_solver.
Qed.

(** An event on none of the descriptors that were open. *)
Definition new_only (fds : gset Z) (e : event) : Prop :=
  match e with
  | EvOpen (OpenRdonly _) => True
  | EvSend x _ | EvWrite x _ | EvClose x | EvReclose x | EvNew x | EvOpen (OpenAt x _ _) => x ∉ fds
  end.

(** The descriptors when a call for a file is through. *)
Definition with_file (fd : Z) (fds : gset Z) : gset Z := if 0 <=? fd then {[ fd ]} ∪ fds else fds.

(** ** Opening *)

(** Names lexically: the components of a path, and the place it leads to from the
    directory [dir]. *)
Fixpoint components (p : list Z) : list (list Z) :=
  match p with
  | [] => [[]]
  | c :: p' =>
      if c =? c_slash then [] :: components p'
      else match components p' with w :: ws => (c :: w) :: ws | [] => [[c]] end
  end.

Definition dots : list Z := bytes_of_string "..".

Definition enter (dir : list (list Z)) (w : list Z) : list (list Z) :=
  if bool_decide (w = []) || bool_decide (w = bytes_of_string ".") then dir
  else if bool_decide (w = dots) then take (length dir - 1) dir
  else dir ++ [w].

Definition walk (dir : list (list Z)) (p : list Z) : list (list Z) :=
  foldl enter (match p with c :: _ => if c =? c_slash then [] else dir | [] => dir end) (components p).

Lemma components_app a b : components (a ++ [c_slash] ++ b) = components a ++ components b.
Proof.
  induction a as [|c a IH]; [done|]. cbn [app components] in *. destruct (c =? c_slash); [by rewrite IH|].
  rewrite IH. assert (components a <> []) as Hne by (destruct a as [|x a]; [done|]; cbn; destruct (x =? _); [done|]; by destruct (components a)).
  by destruct (components a).
Qed.

Lemma enter_down w dir : w <> dots -> dir `prefix_of` enter dir w.
Proof. intros Hw. unfold enter. destruct (_ || _); [done|]. rewrite bool_decide_eq_false_2 by done. by exists [w]. Qed.

Lemma walk_down ws : forall dir, dots ∉ ws -> dir `prefix_of` foldl enter dir ws.
Proof.
  induction ws as [|w ws IH]; intros dir Hn; [done|]. apply not_elem_of_cons in Hn as [Hw Hn]. cbn [foldl].
  etrans; [by apply enter_down, not_eq_sym|by apply IH].
Qed.

(** A name without [..] stays below the directory it is appended to; so does a
    relative one that is looked up from a directory. *)
Lemma walk_below dir file : dots ∉ components file -> walk [] dir `prefix_of` walk [] (dir ++ [c_slash] ++ file).
Proof.
  intros Hn. assert (forall p, walk [] p = foldl enter [] (components p)) as Hroot by (intros [|c p]; [done|]; unfold walk; by destruct (c =? c_slash)).
  rewrite !Hroot, components_app, foldl_app. by apply walk_down.
Qed.

Lemma walk_from dir file : dots ∉ components file -> hd 0 file <> c_slash -> dir `prefix_of` walk dir file.
Proof.
  intros Hn Hd. unfold walk. destruct file as [|c file]; [done|]. cbn [hd] in Hd. destruct (Z.eqb_spec c c_slash); [done|]. by apply walk_down.
Qed.

(** The calls a path may lead to, and where they stay: for names without [..] below the
    directory of a firmware file, and below the temporary directory if they are not absolute. *)
Definition call_ok `{Remoteprocs, Filesystem} (path : list Z) (flags : Z) (call : open_call) : Prop :=
  match call with
  | OpenRdonly p => exists d_name bs file, d_name ∈ default [] class_entries
      /\ firmware_attr d_name ≫= attr_read = Some (Some bs)
      /\ path = READONLY_PATH ++ file /\ p = FIRMWARE_BASE ++ dirname (until_nul bs) ++ [c_slash] ++ file
      /\ (dots ∉ components file -> walk [] (FIRMWARE_BASE ++ dirname (until_nul bs)) `prefix_of` walk [] p)
  | OpenAt base file fl => path = READWRITE_PATH ++ file /\ base = open_tmp /\ fl = flags
      /\ (dots ∉ components file -> hd 0 file <> c_slash -> walk [] TQFTPSERV_TMP `prefix_of` walk (walk [] TQFTPSERV_TMP) file)
  end.

Definition call_result `{Filesystem} (call : open_call) : Z :=
  match call with OpenRdonly p => open_rdonly p | OpenAt base file flags => openat_tmp base file flags end.

(** The calls for the file among the events. *)
Definition calls_of (evs : list event) : list open_call := omap (fun e => match e with EvOpen c => Some c | _ => None end) evs.

Lemma calls_of_app evs evs' : calls_of (evs ++ evs') = calls_of evs ++ calls_of evs'.
Proof. apply omap_app. Qed.

(** The attribute of an entry names a file and fits the buffer. *)
Definition attr_ok `{Remoteprocs} (d_name : list Z) : Prop :=
  forall bs, firmware_attr d_name ≫= attr_read = Some (Some bs) -> strlen bs < PATH_MAX /\ until_nul bs <> [].

Lemma has_prefix_app prefix path : has_prefix prefix path = true -> path = prefix ++ drop (length prefix) path.
Proof. unfold has_prefix. intros H%bool_decide_eq_true. rewrite <- H at 1. by rewrite take_drop. Qed.

(** A call for a file: the calls are those the path allows, a descriptor that is
    returned came from one of them, and it is the only one that stays open. *)
Definition opened `{Remoteprocs, Filesystem} (path : list Z) (flags : Z) (o : outcome (Z * list event)) : Prop :=
  exists fd evs, o = Ret (fd, evs) /\ Forall (call_ok path flags) (calls_of evs)
    /\ (0 <= fd -> exists c, c ∈ calls_of evs /\ call_result c = fd)
    /\ forall fds, kernel_ok fds evs -> use_events fds evs = Some (with_file fd fds) /\ Forall (new_only fds) evs /\ (0 <= fd -> fd ∉ fds).

Lemma opened_nothing `{Remoteprocs, Filesystem} path flags : opened path flags (Ret (-1, [])).
Proof. eexists _, _. split; [done|]. split; [constructor|]. split; [lia|]. intros fds _. by split_and!. Qed.

(** The attribute is opened and closed before. *)
Lemma opened_attr `{Remoteprocs, Filesystem} path flags a o :
  opened path flags o -> opened path flags ('(fd, evs) ← o; Ret (fd, EvNew a :: EvClose a :: evs)).
Proof.
  intros (fd & evs & -> & Hc & Hr & Hu). eexists _, _. split; [done|]. split; [done|]. split; [done|]. intros fds (Ha & Hk).
  cbn [kernel_ok] in Hk. replace (({[ a ]} ∪ fds) ∖ {[ a ]}) with fds in Hk by set_solver. destruct (Hu fds Hk) as (Hu1 & Hn & Hf).
  rewrite use_new, use_closed by done. split_and!; [done|by repeat constructor|done].
Qed.

Lemma opened_tried `{Remoteprocs, Filesystem} path flags p o :
  call_ok path flags (OpenRdonly p) -> opened path flags o -> opened path flags ('(fd, evs) ← o; Ret (fd, EvOpen (OpenRdonly p) :: evs)).
Proof.
  intros Hp (fd & evs & -> & Hc & Hr & Hu). eexists _, _. split; [done|]. split; [by constructor|]. split.
  - intros Hfd. destruct (Hr Hfd) as (c & Hin & Hres). exists c. split; [by right|done].
  - intros fds Hk. destruct (Hu fds Hk) as (Hu1 & Hn & Hf). split_and!; [done|by constructor|done].
Qed.

Lemma translate_loop_opened `{Remoteprocs, Filesystem} path file flags entries :
  path = READONLY_PATH ++ file -> (forall d, d ∈ entries -> d ∈ default [] class_entries) -> Forall attr_ok entries ->
  opened path flags (translate_loop file entries).
Proof.
  intros Hpath. induction entries as [|d entries IH]; intros Hin Hok; cbn [translate_loop]; [apply opened_nothing|].
  apply list.Forall_cons in Hok as [Hd Hok]. assert (opened path flags (translate_loop file entries)) as Hskip
    by (apply IH; [intros x Hx; apply Hin; by right|done]).
  unfold attr_ok in Hd. destruct (firmware_attr d) as [attr|] eqn:Ea; [|done]. cbn [mbind option_bind] in Hd.
  destruct (attr_read attr) as [[bs|]|] eqn:Ha; [|by apply opened_attr|done]. apply opened_attr.
  destruct (Hd bs eq_refl) as [Hlen Hne]. destruct (Z.leb_spec PATH_MAX (strlen bs)); [lia|]. cbv zeta.
  destruct (Z.ltb_spec PATH_MAX (strlen FIRMWARE_BASE + strlen (until_nul bs) + 1 + strlen file + 1)) as [|Hfit]; [done|].
  set (p := FIRMWARE_BASE ++ dirname (until_nul bs) ++ [c_slash] ++ file).
  assert (strlen p + 1 <= PATH_MAX) as Hp.
  { unfold p, strlen in *. rewrite !length_app. cbn [length]. pose proof (length_dirname _ Hne). lia. }
  destruct (Z.ltb_spec PATH_MAX (strlen p + 1)); [lia|].
  assert (call_ok path flags (OpenRdonly p)) as Hcall.
  { exists d, bs, file. split_and!; [apply Hin; by left|by rewrite Ea|done|done|]. intros Hn. unfold p. rewrite app_assoc. by apply walk_below. }
  destruct (Z.leb_spec 0 (open_rdonly p)) as [Hfd|]; [|by apply opened_tried].
  eexists _, _. split; [done|]. split; [by repeat constructor|]. split.
  - intros _. exists (OpenRdonly p). split; [by left|done].
  - intros fds [Hnew _]. unfold with_file. destruct (Z.leb_spec 0 (open_rdonly p)); [|lia]. change (EvOpen (OpenRdonly p) :: [EvNew (open_rdonly p)]) with ([EvOpen (OpenRdonly p)] ++ [EvNew (open_rdonly p)]).
    split_and!; [cbn; by rewrite decide_False by done|by repeat constructor|done].
Qed.

Lemma kernel_ok_app evs evs' : forall fds, kernel_ok fds (evs ++ evs') -> kernel_ok fds evs.
Proof. induction evs as [|e evs IH]; intros fds; [done|]. destruct e; cbn; naive_solver. Qed.

Lemma translate_open_opened `{Remoteprocs, Filesystem} path flags :
  Forall attr_ok (default [] class_entries) -> opened path flags (translate_open path flags).
Proof.
  intros Hok. unfold translate_open. destruct (has_prefix READONLY_PATH path) eqn:Hro.
  { apply has_prefix_app in Hro. unfold translate_readonly. destruct (open_class <? 0); [apply opened_nothing|]. destruct class_entries as [es|] eqn:Hes.
    - destruct (translate_loop_opened path (drop (length READONLY_PATH) path) flags es) as (fd & evs & -> & Hc & Hr & Hu); [done|by rewrite Hes|done|].
      cbn [mbind outcome_bind]. eexists _, _. split; [done|].
      assert (calls_of (EvNew open_class :: evs ++ [EvClose open_class; EvReclose open_class]) = calls_of evs) as ->
        by (change (EvNew open_class :: ?l) with ([EvNew open_class] ++ l); rewrite !calls_of_app; cbn; by rewrite app_nil_r).
      split; [done|]. split; [done|]. intros fds [Hn Hk]. apply kernel_ok_app in Hk. destruct (Hu _ Hk) as (Hu1 & Hne & Hf).
      assert (open_class ∉ with_file fd fds /\ with_file fd ({[ open_class ]} ∪ fds) = {[ open_class ]} ∪ with_file fd fds) as [Hno Hset].
      { unfold with_file. destruct (Z.leb_spec 0 fd) as [Hge|]; [|done]. specialize (Hf Hge). split; set_solver. }
      rewrite use_new, use_events_app, Hu1, Hset by done. cbn [mbind option_bind]. rewrite use_closed by done.
      split_and!; [cbn; by rewrite decide_False by done| |intros Hge; specialize (Hf Hge); set_solver].
      constructor; [done|]. apply Forall_app. split; [|by repeat constructor]. eapply list.Forall_impl; [exact Hne|].
      intros e. destruct e as [| | | |[]|]; cbn; set_solver.
    - eexists _, _. split; [done|]. split; [constructor|]. split; [lia|]. intros fds [Hn _]. rewrite use_new, use_closed by done. by split_and!; [|repeat constructor|]. }
  destruct (has_prefix READWRITE_PATH path) eqn:Hrw; [|apply opened_nothing].
  apply has_prefix_app in Hrw. unfold translate_readwrite.
  destruct (negb mkdir_tmp); [|destruct (open_tmp <? 0)]; try apply opened_nothing.
  set (file := drop (length READWRITE_PATH) path) in *. set (fd := openat_tmp open_tmp file flags). eexists _, _. split; [done|].
  assert (calls_of (EvNew open_tmp :: EvOpen (OpenAt open_tmp file flags) :: (if 0 <=? fd then [EvNew fd] else []) ++ [EvClose open_tmp]) = [OpenAt open_tmp file flags]) as ->
    by (by destruct (0 <=? fd)).
  split; [apply Forall_singleton; split_and!; [done..|intros Hn Hd; by apply walk_from]|]. split; [intros _; eexists; split; [by left|done]|].
  intros fds [Hn Hk]. rewrite use_new by done. unfold with_file. change (EvOpen (OpenAt open_tmp file flags) :: ?l) with ([EvOpen (OpenAt open_tmp file flags)] ++ l).
  rewrite use_events_app. cbn [use_events use_event]. rewrite decide_True by set_solver. cbn [mbind option_bind].
  destruct (Z.leb_spec 0 fd) as [Hge|]; cbn [app] in *.
  - destruct Hk as [Hfd _]. rewrite use_new by done. replace ({[ fd ]} ∪ ({[ open_tmp ]} ∪ fds)) with ({[ open_tmp ]} ∪ ({[ fd ]} ∪ fds)) by set_solver.
    rewrite use_closed by set_solver. split_and!; [done|repeat constructor; set_solver|set_solver].
  - rewrite use_closed by done. split_and!; [done|by repeat constructor|lia].
Qed.


Lemma demo_attrs_ok : Forall attr_ok (default [] class_entries).
Proof. constructor; [|constructor]. intros bs Hbs. vm_compute in Hbs. injection Hbs as <-. split; [reflexivity|discriminate]. Qed.


(** The events of both kinds of request, and names that leave the temporary
    directory. *)
Example translate_open_runs :
  translate_open (bytes_of_string "/readonly/firmware/image/wlanmdsp.mbn") O_RDONLY
  = Ret (7, [EvNew 10; EvNew 11; EvClose 11; EvOpen (OpenRdonly (bytes_of_string "/vendor/firmware/qcom/wlanmdsp.mbn")); EvNew 7; EvClose 10; EvReclose 10])
  /\ translate_open (bytes_of_string "/readwrite/log") 65 = Ret (8, [EvNew 5; EvOpen (OpenAt 5 (bytes_of_string "log") 65); EvNew 8; EvClose 5]).
Proof. split; vm_compute; reflexivity. Qed.

Example names_that_leave :
  let tmp := walk [] TQFTPSERV_TMP in
  walk tmp (bytes_of_string "../../x") = bytes_of_string <$> ["data"; "vendor"; "x"]%string
  /\ walk tmp (bytes_of_string "/etc/x") = bytes_of_string <$> ["etc"; "x"]%string
  /\ walk tmp (bytes_of_string "a//./b") = tmp ++ (bytes_of_string <$> ["a"; "b"]%string).
Proof. vm_compute. done. Qed.

(** ** Clients *)

Section clients.
Context `{Remoteprocs, Filesystem, TftpIO}.

Definition tftp_step (s s' : tftp_state) : Prop :=
  exists fuel ready main evs, tftp_turn fuel s ready main = Ret (inl s', evs).

(** No client is a control port. *)
Definition peers_ok (s : tftp_state) : Prop :=
  Forall (fun c => sq_port (c_sq c) <> QRTR_PORT_CTRL) (readers s ++ writers s).

Lemma serve_kept handle ready cs : forall kept evs,
  serve handle ready cs = Ret (kept, evs) -> forall c, c ∈ kept -> c ∈ cs.
Proof.
  induction cs as [|c0 cs IH]; intros kept evs; cbn [serve]; [by intros [= <- <-]|].
  destruct (ready c0) as [rv|].
  - destruct (handle c0 rv) as [[ret e]| |]; [|done|done]. cbn [mbind outcome_bind].
    destruct (serve handle ready cs) as [[kept' evs']| |]; [|done|done]. cbn [mbind outcome_bind].
    destruct (ret <=? 0); intros [= <- <-] c Hc; [right; by apply (IH kept' evs')|].
    apply elem_of_cons in Hc as [->|Hc]; [by left|right; by apply (IH kept' evs')].
  - destruct (serve handle ready cs) as [[kept' evs']| |]; [|done|done]. cbn [mbind outcome_bind].
    intros [= <- <-] c Hc. apply elem_of_cons in Hc as [->|Hc]; [by left|right; by apply (IH kept' evs')].
Qed.

(** A request adds at most one client, with the address of the sender. *)
Definition adds (sq : sockaddr_qrtr) (s s' : tftp_state) : Prop :=
  forall c, c ∈ readers s' ++ writers s' -> c ∈ readers s ++ writers s \/ c_sq c = sq.

Lemma adds_refl sq s : adds sq s s.
Proof. by left. Qed.

Lemma adds_reader sq s c : c_sq c = sq -> adds sq s (MkTftp (readers s ++ [c]) (writers s)).
Proof. intros Hc d. cbn. rewrite !elem_of_app, list_elem_of_singleton. naive_solver. Qed.

Lemma adds_writer sq s c : c_sq c = sq -> adds sq s (MkTftp (readers s) (writers s ++ [c])).
Proof. intros Hc d. cbn. rewrite !elem_of_app, list_elem_of_singleton. naive_solver. Qed.

Ltac adds_cases :=
  repeat match goal with
  | |- context [if ?b then _ else _] => destruct b
  | |- context [match ?o with Ret _ => _ | Fault => _ | OutOfFuel => _ end] => destruct o as [?| |]
  | |- context [let '(_, _) := ?p in _] => destruct p
  end.

Lemma handle_rrq_adds s buf len sq an s' evs : handle_rrq s buf len sq an = Ret (s', evs) -> adds sq s s'.
Proof.
  unfold handle_rrq, mbind, outcome_bind. adds_cases; intros [= <- <-]; auto using adds_refl, adds_reader.
Qed.

Lemma handle_wrq_adds s buf sq an s' evs : handle_wrq s buf sq an = Ret (s', evs) -> adds sq s s'.
Proof.
  unfold handle_wrq, mbind, outcome_bind. adds_cases; intros [= <- <-]; auto using adds_refl, adds_writer.
Qed.

Lemma close_writers_kept p s c :
  c ∈ readers (close_writers p s).1 ++ writers (close_writers p s).1 -> c ∈ readers s ++ writers s.
Proof.
  cbn. rewrite !elem_of_app. intros [?|Hc]; [by left|right]. apply list_elem_of_In, filter_In in Hc as [Hc _].
  by apply list_elem_of_In.
Qed.

Lemma serve_main_peers s rv an s' evs :
  peers_ok s -> serve_main s rv an = Ret (inl s', evs) -> peers_ok s'.
Proof.
  unfold peers_ok. rewrite !Forall_forall. intros Hs. unfold serve_main. destruct (_ <? 0); [done|].
  destruct (Z.eqb_spec (sq_port (rv_sq rv)) QRTR_PORT_CTRL) as [Hctrl|Hctrl].
  - destruct (qrtr_decode _ _ _ _) as [rc pkt]. destruct (rc <? 0); [done|].
    destruct (p_type pkt =? QRTR_TYPE_BYE); [|destruct (p_type pkt =? QRTR_TYPE_DEL_CLIENT)].
    + intros [= <- <-] c Hc. eapply Hs, close_writers_kept, Hc.
    + intros [= <- <-] c Hc. eapply Hs, close_writers_kept, Hc.
    + intros [= <- <-]. done.
  - destruct (_ <? 2); [intros [= <- <-]; done|]. destruct (_ =? OP_RRQ); [|destruct (_ =? OP_WRQ)].
    + destruct (handle_rrq _ _ _ _ _) as [[s1 e1]| |] eqn:Hr; [|done|done]. intros [= <- <-] c Hc.
      apply handle_rrq_adds in Hr. destruct (Hr c Hc) as [?| ->]; auto.
    + destruct (handle_wrq _ _ _ _) as [[s1 e1]| |] eqn:Hr; [|done|done]. intros [= <- <-] c Hc.
      apply handle_wrq_adds in Hr. destruct (Hr c Hc) as [?| ->]; auto.
    + intros [= <- <-]. done.
Qed.

Lemma serve_clients_kept fuel s ready s' evs :
  serve_clients fuel s ready = Ret (s', evs) -> forall c, c ∈ readers s' ++ writers s' -> c ∈ readers s ++ writers s.
Proof.
  unfold serve_clients. intros He. apply outcome_bind_inv in He as ([ws e1] & Hw & He).
  apply outcome_bind_inv in He as ([rs e2] & Hr & He). injection He as <- <-. intros c. cbn. rewrite !elem_of_app.
  intros [Hc|Hc]; [left; by apply (serve_kept _ _ _ _ _ Hr)|right; by apply (serve_kept _ _ _ _ _ Hw)].
Qed.

Lemma tftp_step_peers s s' : peers_ok s -> tftp_step s s' -> peers_ok s'.
Proof.
  intros Hs (fuel & ready & main & evs & Ht). unfold tftp_turn in Ht.
  apply outcome_bind_inv in Ht as ([s1 e1] & Hc & Ht).
  assert (peers_ok s1) as Hmid.
  { unfold peers_ok in *. rewrite Forall_forall in *. intros c Hin. by apply Hs, (serve_clients_kept _ _ _ _ _ Hc). }
  destruct main as [[rv an]|]; [|by injection Ht as <- _].
  apply outcome_bind_inv in Ht as ([r e2] & Hm & Ht). simplify_eq. by apply (serve_main_peers _ _ _ _ _ Hmid Hm).
Qed.

(** In every state the service reaches, the peer of each client is an ordinary
    port, never the control port; therefore the DEL_CLIENT message, which comes
    from a control port and is compared with the whole address of the clients,
    closes none of them. *)
Theorem del_client_closes_nobody s rv an :
  rtc tftp_step (MkTftp [] []) s ->
  0 <= rv_len rv -> sq_port (rv_sq rv) = QRTR_PORT_CTRL ->
  (qrtr_decode (MkQpkt 0 0 0 0 0 0 [] 0) (rv_buf rv) (rv_len rv) (rv_sq rv)).1 = 0 ->
  p_type (qrtr_decode (MkQpkt 0 0 0 0 0 0 [] 0) (rv_buf rv) (rv_len rv) (rv_sq rv)).2 = QRTR_TYPE_DEL_CLIENT ->
  Forall (fun c => sq_port (c_sq c) <> QRTR_PORT_CTRL) (readers s ++ writers s)
  /\ serve_main s rv an = Ret (inl s, []).
Proof.
  intros Hreach Hlen Hctrl Hrc Htype.
  assert (peers_ok s) as Hs.
  { assert (peers_ok (MkTftp [] [])) as H0s by constructor. revert H0s Hreach. generalize (MkTftp [] []). intros s0 H0s Hreach.
    induction Hreach as [|x y z Hxy _ IH]; [done|]. by apply IH, (tftp_step_peers x). }
  split; [exact Hs|]. unfold serve_main. destruct (Z.ltb_spec (rv_len rv) 0); [lia|]. rewrite Hctrl, Z.eqb_refl.
  destruct (qrtr_decode _ _ _ _) as [rc pkt]. cbn [fst snd] in Hrc, Htype. subst rc. change (0 <? 0) with false. cbv iota.
  rewrite Htype. change (QRTR_TYPE_DEL_CLIENT =? QRTR_TYPE_BYE) with false. rewrite Z.eqb_refl.
  assert (forall cs, Forall (fun c => sq_port (c_sq c) <> QRTR_PORT_CTRL) cs ->
    List.filter (fun c => bool_decide (c_sq c = rv_sq rv)) cs = []
    /\ List.filter (fun c => negb (bool_decide (c_sq c = rv_sq rv))) cs = cs) as Hf.
  { clear -Hctrl. induction 1 as [|c cs Hc _ [IH1 IH2]]; [done|]. cbn.
    rewrite bool_decide_false by (intros He; rewrite He in Hc; done). cbn. by rewrite IH1, IH2. }
  unfold peers_ok in Hs. apply Forall_app in Hs as [_ Hws]. destruct (Hf _ Hws) as [H1f H2f].
  unfold close_writers. cbv beta. rewrite H1f, H2f. by destruct s.
Qed.

End clients.

(** A write request, then the DEL_CLIENT of its client. *)
Definition demo_wrq : received :=
  MkRecv 29 ([0; 2] ++ bytes_of_string "/readwrite/modem.log" ++ [0] ++ bytes_of_string "octet" ++ replicate 100 0) (MkSq 42 0 17).

Definition demo_del : received :=
  MkRecv 20 (ctrl_pkt_bytes (MkPkt QRTR_TYPE_DEL_CLIENT 0 17 0 0)) (MkSq 42 0 QRTR_PORT_CTRL).

Definition demo_writing : tftp_state := MkTftp [] [MkClient (MkSq 42 0 17) 6 8 0 0 0 0].

Lemma del_client_closes_nobody_witness :
  rtc tftp_step (MkTftp [] []) demo_writing /\ serve_main demo_writing demo_del (MkAns 0 0 0) = Ret (inl demo_writing, []).
Proof.
  assert (rtc tftp_step (MkTftp [] []) demo_writing) as Hr.
  { apply rtc_once. exists 1%nat, (fun _ => None), (Some (demo_wrq, MkAns 6 0 0)). eexists. vm_compute. reflexivity. }
  split; [exact Hr|]. apply (del_client_closes_nobody demo_writing demo_del (MkAns 0 0 0)).
  - exact Hr.
  - vm_compute. discriminate.
  - reflexivity.
  - vm_compute. reflexivity.
  - vm_compute. reflexivity.
Defined.
