(* ===== verification/TftpMain.v ===== *)
(** * The main loop of tqftpserv (src/qcom/tqftpserv/tqftpserv.c)

    [main] sets up the socket of the service and goes round a loop: it collects
    the sockets of the service and of its clients in an [fd_set], waits in
    [select] and serves the sockets that are ready.  The theorems
    say that the loop goes on as long as packets avoid the defects of the handlers, that it
    never touches a descriptor that is not open, and that no client
    disturbs another. *)

From Stdlib Require Import ZArith Lia.
From stdpp Require Import base gmap list numbers strings sets.
From S2P Require Import Prelude CLib Packet Firmware Tftp TftpClaims.

(** ** The set of descriptors [select] waits for *)

Definition FD_SETSIZE : Z := 1024.

(** [FD_SET]: an [fd_set] has a bit for each descriptor below [FD_SETSIZE]. *)
Definition FD_SET (fd : Z) (rfds : gset Z) : outcome (gset Z) :=
  if (0 <=? fd) && (fd <? FD_SETSIZE) then Ret ({[ fd ]} ∪ rfds) else Fault.

(** The loop over a list of clients; [nfds] is the largest descriptor. *)
Fixpoint watch_clients (cs : list tftp_client) (rfds : gset Z) (nfds : Z) : outcome (gset Z * Z) :=
  match cs with
  | [] => Ret (rfds, nfds)
  | c :: cs' => rfds ← FD_SET (c_sock c) rfds; watch_clients cs' rfds (Z.max nfds (c_sock c))
  end.

Definition watch (fd : Z) (s : tftp_state) : outcome (gset Z * Z) :=
  rfds ← FD_SET fd ∅;
  '(rfds, nfds) ← watch_clients (writers s) rfds fd;
  watch_clients (readers s) rfds nfds.

(** [select(nfds, rfds)], when [data] are the descriptors with something to
    read: it looks at those of the set below [nfds]. *)
Definition select (nfds : Z) (rfds data : gset Z) : gset Z := filter (fun fd => fd < nfds) (rfds ∩ data).

(** ** The loop *)

(** What the system gives in one turn: the error of [select] or the descriptors with
    data, what [recvfrom] gives on each, the answers to a request, and how files
    and memory behave. *)
Record turn : Type := MkTurn
  { t_select : Z + gset Z; t_recv : Z -> received; t_answers : answers;
    t_nodes : Remoteprocs; t_files : Filesystem; t_io : TftpIO }.

Definition ready_of (t : turn) (isset : gset Z) (c : tftp_client) : option received :=
  if decide (c_sock c ∈ isset) then Some (t_recv t (c_sock c)) else None.

Definition main_ready (t : turn) (isset : gset Z) (fd : Z) : option (received * answers) :=
  if decide (fd ∈ isset) then Some (t_recv t fd, t_answers t) else None.

(** One turn: the state the loop goes on with, or what [main] returns. *)
Definition main_turn (fuel : nat) (fd : Z) (s : tftp_state) (t : turn) : outcome ((tftp_state + Z) * list event) :=
  '(rfds, nfds) ← watch fd s;
  match t_select t with
  | inl errno => if errno =? EINTR then Ret (inl s, []) else Ret (inr 0, [EvClose fd])
  | inr data =>
      let isset := select (nfds + 1) rfds data in
      @tftp_turn (t_nodes t) (t_files t) (t_io t) fuel s (ready_of t isset) (main_ready t isset fd)
  end.

Fixpoint main_loop (fuel : nat) (fd : Z) (s : tftp_state) (turns : list turn) : outcome ((tftp_state + Z) * list event) :=
  match turns with
  | [] => Ret (inl s, [])
  | t :: turns' =>
      '(r, evs) ← main_turn fuel fd s t;
      match r with
      | inr ret => Ret (inr ret, evs)
      | inl s => '(r, evs') ← main_loop fuel fd s turns'; Ret (r, evs ++ evs')
      end
  end.

(** [main] for a number of turns, with the system calls of the set-up: [sock] and
    [rc_opt] are the answers [qrtr_open] gets, [g] and [rc] those of
    [qrtr_publish]. *)
Definition tftp_main (fuel : nat) (sock rc_opt : Z) (g : sockname) (rc : Z) (turns : list turn)
    : outcome (list syscall * ((tftp_state + Z) * list event)) :=
  let '(fd, calls) := qrtr_open 0 sock rc_opt 0 in
  if fd <? 0 then Ret (calls, (inr 1, []))
  else
    let '(ret, calls') := qrtr_publish 4096 1 0 g rc in
    if ret <? 0 then Ret (calls ++ calls', (inr 1, []))
    else r ← main_loop fuel fd (MkTftp [] []) turns; Ret (calls ++ calls', r).

(** ** Descriptors *)

(** Descriptors of a client, and of all clients. *)
Definition descriptors (c : tftp_client) : list Z := [c_sock c; c_fd c].
Definition held (cs : list tftp_client) : list Z := concat (descriptors <$> cs).

Lemma held_cons c cs : held (c :: cs) = c_sock c :: c_fd c :: held cs.
Proof. done. Qed.

Lemma held_app cs cs' : held (cs ++ cs') = held cs ++ held cs'.
Proof. unfold held. by rewrite fmap_app, concat_app. Qed.

Lemma held_in c cs x : c ∈ cs -> x ∈ descriptors c -> x ∈ held cs.
Proof.
  intros Hc Hx. apply list_elem_of_In, in_concat. exists (descriptors c). split; apply list_elem_of_In; [|done]. apply list_elem_of_fmap. by exists c.
Qed.

Lemma held_sublist cs cs' : cs `sublist_of` cs' -> held cs `sublist_of` held cs'.
Proof.
  induction 1 as [|c cs cs' _ IH|c cs cs' _ IH]; [done| |].
  - rewrite !held_cons. by do 2 apply sublist_skip.
  - rewrite held_cons. by do 2 apply sublist_cons.
Qed.

(** Events that stay with one client. *)
Definition local_to (c : tftp_client) (e : event) : Prop :=
  match e with EvSend fd _ => fd = c_sock c | EvWrite fd _ => fd = c_fd c | _ => False end.

Lemma use_local fds c evs : c_sock c ∈ fds -> c_fd c ∈ fds -> Forall (local_to c) evs -> use_events fds evs = Some fds.
Proof.
  intros Hs Hf. induction 1 as [|e evs He _ IH]; [done|]. cbn [use_events].
  assert (use_event fds e = Some fds) as ->; [|exact IH].
  destruct e; cbn in He |- *; try done; subst; by rewrite decide_True by done.
Qed.

Lemma use_close fds c :
  c_sock c ∈ fds -> c_fd c ∈ fds -> c_sock c <> c_fd c -> use_events fds (close_events c) = Some (fds ∖ {[ c_sock c ]} ∖ {[ c_fd c ]}).
Proof.
  intros Hs Hf Hne. cbn. rewrite decide_True by done. cbn. rewrite decide_True by set_solver. done.
Qed.

Lemma select_all nfds rfds data : (forall fd, fd ∈ rfds -> fd <= nfds) -> select (nfds + 1) rfds data = rfds ∩ data.
Proof.
  intros Hn. unfold select. apply set_eq. intros x. rewrite elem_of_filter, elem_of_intersection.
  split; [by intros [_ ?]|]. intros [Hx Hd]. specialize (Hn x Hx). split; [lia|done].
Qed.

(** ** What the packets must avoid *)

(** A read gives no more than was asked for, and there is memory. *)
Record io_ok (io : TftpIO) : Prop := MkIoOk
  { io_pread fd n off bs : 0 <= n -> pread fd n off = Some bs -> Z.of_nat (length bs) <= n;
    io_memory n : malloc_ok n = true }.

(** A block size that was not given as a negative number. *)
Definition client_ok (c : tftp_client) : Prop :=
  0 <= c_blksize c < 2147483648 /\ 0 <= c_wsize c /\ 0 <= c_sock c < FD_SETSIZE.

(** A packet to a reader: shorter than the buffer, its window below block 65536. *)
Definition reader_packet (c : tftp_client) (rv : received) : Prop :=
  rv_len rv < 128 /\ 0 <= word_at (rv_buf rv) 2 /\ word_at (rv_buf rv) 2 + c_wsize c <= 65535.

(** A packet to a writer has a header and fits the buffer. *)
Definition writer_packet (rv : received) : Prop := rv_len rv < 0 \/ 4 <= rv_len rv <= Z.of_nat (length (rv_buf rv)).

(** The buffer of [main] has two NUL bytes behind the request, so that a string or an
    option without its value ends there. *)
Definition terminated (buf : list Z) (len : nat) : Prop :=
  exists n1 n2, (len <= n1 < n2)%nat /\ buf !! n1 = Some 0 /\ buf !! n2 = Some 0.

(** The options do not ask for a negative block size. *)
Definition sane_options (buf : list Z) (len : nat) : Prop :=
  forall filename mode o, str_at buf 2 = Ret filename -> str_at buf (2 + length filename + 1) = Ret mode ->
    opt_loop (S len) buf len (2 + length filename + 1 + length mode + 1) opts0 = Ret o -> 0 <= o_blksize o < 2147483648.

Definition request_ok (rv : received) : Prop :=
  2 <= rv_len rv -> terminated (rv_buf rv) (Z.to_nat (rv_len rv)) /\ sane_options (rv_buf rv) (Z.to_nat (rv_len rv)).

Section handlers.
Context {RP : Remoteprocs} {FS : Filesystem} {IO : TftpIO} (Hio : io_ok IO).

Lemma send_data_returns c block off :
  client_ok c -> exists n evs, tftp_send_data c block off = Ret (n, evs) /\ Forall (local_to c) evs.
Proof.
  intros (Hb & _). unfold tftp_send_data. rewrite (io_memory _ Hio), u64_small by lia. cbn [negb orb].
  destruct (Z.ltb_spec (4 + c_blksize c) 4); [lia|].
  destruct (pread (c_fd c) (c_blksize c) (s64 off)) as [bs|] eqn:Hp; [|by eexists _, _].
  apply (io_pread _ Hio) in Hp; [|lia]. destruct bs as [|b bs]; [by eexists _, _|].
  destruct (Z.ltb_spec (4 + c_blksize c) (4 + Z.of_nat (length (b :: bs)))); [lia|].
  eexists _, _. split; [done|]. by repeat constructor.
Qed.

Lemma window_loop_returns c last : client_ok c -> 0 <= last -> last + c_wsize c <= 65535 -> forall fuel block,
  0 <= block <= last + c_wsize c -> last + c_wsize c - block < Z.of_nat fuel ->
  exists evs, window_loop fuel c last block = Ret evs /\ Forall (local_to c) evs.
Proof.
  intros Hc Hl Hw. pose proof Hc as (_ & Hw0 & _). induction fuel as [|fuel IH]; intros block Hb Hf; [lia|]. cbn [window_loop].
  rewrite u64_small by lia. destruct (Z.ltb_spec block (last + c_wsize c)); [|by exists []].
  destruct (send_data_returns c (block + 1) (u64 (block * c_blksize c)) Hc) as (n & evs & -> & Hloc). cbn [mbind outcome_bind].
  destruct (n <=? 0); [by exists evs|]. rewrite u16_small by lia. destruct (IH (block + 1)) as (rest & -> & Hrest); [lia|lia|].
  exists (evs ++ rest). split; [done|]. by apply Forall_app.
Qed.

Lemma handle_reader_returns fuel c rv :
  65536 < Z.of_nat fuel -> client_ok c -> reader_packet c rv ->
  exists ret evs, handle_reader fuel c rv = Ret (ret, evs) /\ Forall (local_to c) evs.
Proof.
  intros Hf Hc (Hlen & Hl & Hw). pose proof Hc as (_ & Hw0 & _). unfold handle_reader.
  destruct (rv_len rv <? 0); [by eexists _, _|]. destruct (negb _); [by eexists _, _|].
  destruct (_ =? OP_ERROR). { destruct (Z.leb_spec 128 (rv_len rv)); [lia|by eexists _, _]. }
  destruct (negb _); [by eexists _, _|].
  destruct (window_loop_returns c (word_at (rv_buf rv) 2) Hc Hl Hw fuel (word_at (rv_buf rv) 2)) as (evs & -> & Hloc); [lia|lia|].
  by eexists _, _.
Qed.

Lemma handle_writer_returns c rv :
  writer_packet rv -> exists ret evs, handle_writer c rv = Ret (ret, evs) /\ Forall (local_to c) evs.
Proof.
  intros Hp. unfold handle_writer. destruct (Z.ltb_spec (rv_len rv) 0); [by eexists _, _|]. destruct Hp as [|Hp]; [lia|].
  destruct (negb _); [by eexists _, _|]. destruct (negb _); [eexists _, _; split; [done|by repeat constructor]|].
  destruct (Z.lt_ge_cases (rv_len rv) 18446744073709551620) as [Hlt|Hge].
  - rewrite u64_small by lia. rewrite load_ret by lia. cbn [mbind outcome_bind].
    destruct (write _ _ <? 0); eexists _, _; (split; [done|by repeat constructor]).
  - unfold u64. assert (0 <= (rv_len rv - 4) mod 18446744073709551616 < 18446744073709551616) by (apply Z.mod_pos_bound; lia).
    rewrite load_ret by lia. cbn [mbind outcome_bind]. destruct (write _ _ <? 0); eexists _, _; (split; [done|by repeat constructor]).
Qed.

End handlers.

(** ** Clients *)

(** The clients served: those left are some of those there were, their
    descriptors are still open, and nothing but descriptors of clients was
    closed. *)
Definition served (cs : list tftp_client) (fds : gset Z) (kept : list tftp_client) (evs : list event) : Prop :=
  kept `sublist_of` cs /\ exists fds', use_events fds evs = Some fds' /\ fds' ⊆ fds
    /\ (forall x, x ∈ fds -> x ∉ held cs -> x ∈ fds') /\ (forall x, x ∈ held kept -> x ∈ fds').

Definition handles (handle : tftp_client -> received -> outcome (Z * list event)) (ready : tftp_client -> option received) (c : tftp_client) : Prop :=
  forall rv, ready c = Some rv -> exists ret evs, handle c rv = Ret (ret, evs) /\ Forall (local_to c) evs.

Lemma serve_served handle ready cs : forall fds,
  NoDup (held cs) -> (forall x, x ∈ held cs -> x ∈ fds) -> Forall (handles handle ready) cs ->
  exists kept evs, serve handle ready cs = Ret (kept, evs) /\ served cs fds kept evs.
Proof.
  induction cs as [|c cs IH]; intros fds Hnd Hin Hh.
  { exists [], []. split; [done|]. split; [done|]. exists fds. split_and!; [done|done|done|]. intros x Hx. by apply not_elem_of_nil in Hx. }
  rewrite held_cons in Hnd, Hin. apply NoDup_cons in Hnd as [Hn1 Hnd]. apply NoDup_cons in Hnd as [Hn2 Hnd].
  rewrite not_elem_of_cons in Hn1. destruct Hn1 as [Hne Hn1]. apply list.Forall_cons in Hh as [Hc Hh].
  assert (c_sock c ∈ fds) as Hs by (apply Hin; left). assert (c_fd c ∈ fds) as Hf by (apply Hin; right; left).
  assert (forall kept evs evs1, use_events fds evs1 = Some fds -> served cs fds kept evs -> served (c :: cs) fds (c :: kept) (evs1 ++ evs)) as Hkeep.
  { intros kept evs evs1 H1 [Hsub (fds' & Hu & Hle & Hout & Hk)]. split; [by apply sublist_skip|]. exists fds'. rewrite use_events_app, H1.
    cbn [mbind option_bind]. split_and!; [done|done| |].
    - intros x Hx Hnx. rewrite held_cons, !not_elem_of_cons in Hnx. apply Hout; naive_solver.
    - intros x. rewrite held_cons, !elem_of_cons. intros [->|[->|Hx]]; auto. }
  cbn [serve]. destruct (ready c) as [rv|] eqn:Hr.
  - destruct (Hc rv Hr) as (ret & e1 & -> & Hloc). cbn [mbind outcome_bind]. pose proof (use_local fds c e1 Hs Hf Hloc) as H1. destruct (ret <=? 0).
    + set (fds1 := fds ∖ {[ c_sock c ]} ∖ {[ c_fd c ]}).
      destruct (IH fds1 Hnd) as (kept & evs & -> & Hsub & fds' & Hu & Hle & Hout & Hk); [|done|].
      { intros x Hx. unfold fds1. rewrite !elem_of_difference, !elem_of_singleton. split_and!; [apply Hin; by do 2 right|by intros ->|by intros ->]. }
      cbn [mbind outcome_bind]. eexists _, _. split; [done|]. split; [by apply sublist_cons|]. exists fds'.
      rewrite !use_events_app, H1. cbn [mbind option_bind]. rewrite use_events_app, use_close by done. cbn [mbind option_bind]. split_and!; [done|set_solver| |done].
      intros x Hx Hnx. rewrite held_cons, !not_elem_of_cons in Hnx. apply Hout; [|naive_solver]. set_solver.
    + destruct (IH fds Hnd) as (kept & evs & -> & Hserved); [intros x Hx; apply Hin; by do 2 right|done|].
      eexists _, _. split; [done|]. by apply Hkeep.
  - destruct (IH fds Hnd) as (kept & evs & -> & Hserved); [intros x Hx; apply Hin; by do 2 right|done|].
    eexists _, _. split; [done|]. by apply (Hkeep kept evs []).
Qed.

(** Closing writers is serving those picked with a handler that fails. *)
Lemma close_writers_serve (p : tftp_client -> bool) s (rv : received) :
  serve (fun _ _ => Ret (0, [])) (fun c => if p c then Some rv else None) (writers s)
  = Ret (writers (close_writers p s).1, (close_writers p s).2).
Proof.
  cbn. induction (writers s) as [|c cs IH]; [done|]. cbn [serve List.filter]. destruct (p c); cbn [mbind outcome_bind negb]; by rewrite IH.
Qed.

(** ** Requests *)

Section requests.
Context {RP : Remoteprocs} {FS : Filesystem} {IO : TftpIO} (Hio : io_ok IO).

Lemma read_str_returns bs n : bs !! n = Some 0 -> exists s, read_str bs = Ret s /\ (length s <= n)%nat.
Proof.
  revert n. induction bs as [|b bs IH]; intros n Hn; [done|]. cbn [read_str]. destruct (Z.eqb_spec b 0); [exists []; cbn; split; [done|lia]|].
  destruct n as [|n]; cbn in Hn; [by simplify_eq|]. destruct (IH n Hn) as (s & -> & Hs). exists (b :: s). cbn [mbind outcome_bind length]. split; [done|lia].
Qed.

Lemma str_at_returns buf p n : buf !! n = Some 0 -> (p <= n)%nat -> exists s, str_at buf p = Ret s /\ (p + length s <= n)%nat.
Proof.
  intros Hn Hp. unfold str_at. destruct (read_str_returns (drop p buf) (n - p)) as (s & -> & Hs); [rewrite lookup_drop; by replace (p + (n - p))%nat with n by lia|].
  exists s. split; [done|lia].
Qed.

(** The name and the mode of a request, behind each other. *)
Lemma two_strings buf p len :
  terminated buf len -> (p <= len)%nat -> exists s1 s2, str_at buf p = Ret s1 /\ str_at buf (p + length s1 + 1) = Ret s2.
Proof.
  intros (n1 & n2 & Hn & H1 & H2) Hp. destruct (str_at_returns buf p n1 H1) as (s1 & He1 & Hs1); [lia|].
  destruct (str_at_returns buf (p + length s1 + 1) n2 H2) as (s2 & He2 & _); [lia|]. by exists s1, s2.
Qed.

Lemma set_opt_wsize o opt value : 0 <= o_wsize o -> 0 <= o_wsize (set_opt o opt value).
Proof. destruct o. cbn. intros Hw. repeat case_decide; cbn; try done. by apply Z.mod_pos_bound. Qed.

Lemma opt_loop_returns buf len : terminated buf len -> forall fuel p o,
  (len - p < fuel)%nat -> 0 <= o_wsize o -> exists o', opt_loop fuel buf len p o = Ret o' /\ 0 <= o_wsize o'.
Proof.
  intros Ht. induction fuel as [|fuel IH]; intros p o Hf Ho; [lia|]. cbn [opt_loop].
  destruct (Nat.ltb_spec p len); [|by exists o]. destruct (two_strings buf p len Ht) as (s1 & s2 & -> & Hs2); [lia|]. cbn [mbind outcome_bind].
  rewrite Hs2. cbn [mbind outcome_bind]. apply IH; [lia|by apply set_opt_wsize].
Qed.

Lemma send_oack_returns sock b t w m r : exists bs, tftp_send_oack sock b t w m r = Ret [EvSend sock bs].
Proof.
  unfold tftp_send_oack. destruct (Z.ltb_spec 512 (Z.of_nat (length (oack_bytes b t w m r)))) as [Hbad|]; [exfalso|by eexists].
  assert (forall name v, (length (oack_option name v) <= length (bytes_of_string name) + 23)%nat) as Ho.
  { intros name v. unfold oack_option. pose proof (length_sprintf_signed v). rewrite !length_app. cbn [length]. lia. }
  unfold oack_bytes in Hbad. rewrite !length_app in Hbad.
  assert (forall name (o : option Z) (f : Z -> Z), (length (match o with Some v => oack_option name (f v) | None => [] end) <= length (bytes_of_string name) + 23)%nat) as Hm.
  { intros name [v|] f; [apply Ho|cbn; lia]. }
  pose proof (Hm "blksize"%string b s64). pose proof (Hm "timeoutms"%string m s32). pose proof (Hm "wsize"%string w s64). pose proof (Hm "rsize"%string r s64).
  set (tb := match t with Some v => if s64 v =? -1 then [] else oack_option "tsize" (s64 v) | None => [] end) in *.
  assert (length tb <= 28)%nat.
  { unfold tb. destruct t as [v|]; [|cbn; lia]. destruct (s64 v =? -1); [cbn; lia|]. apply (Ho "tsize"%string). }
  cbn [length bytes_of_string] in *. lia.
Qed.

(** The kernel hands out descriptors that are not open: for a read request the
    socket first and then what [translate_open] needs, for a write request the other way
    round. *)
Definition fresh (fds : gset Z) (rv : received) (an : answers) : Prop :=
  if word_at (rv_buf rv) 0 =? OP_RRQ
  then (0 <= an_sock an -> an_sock an ∉ fds /\ an_sock an < FD_SETSIZE)
       /\ forall path fd evs, translate_open path O_RDONLY = Ret (fd, evs) -> kernel_ok ({[ an_sock an ]} ∪ fds) evs
  else forall path fd evs, translate_open path O_WRONLY_CREAT = Ret (fd, evs) ->
         kernel_ok fds evs /\ (0 <= an_sock an -> an_sock an ∉ with_file fd fds /\ an_sock an < FD_SETSIZE).

Lemma new_only_local fds c evs : c_sock c ∉ fds -> c_fd c ∉ fds -> Forall (local_to c) evs -> Forall (new_only fds) evs.
Proof. intros Hs Hf Hl. eapply list.Forall_impl; [exact Hl|]. intros e He. destruct e; cbn in He |- *; try done; by subst. Qed.

(** A request adds at most one client, with new descriptors. *)
Definition requested (s : tftp_state) (fds : gset Z) (s' : tftp_state) (evs : list event) : Prop :=
  Forall (new_only fds) evs /\
  exists fds', use_events fds evs = Some fds' /\ fds ⊆ fds'
    /\ (s' = s \/ exists c, (s' = MkTftp (readers s ++ [c]) (writers s) \/ s' = MkTftp (readers s) (writers s ++ [c]))
                          /\ client_ok c /\ NoDup (descriptors c) /\ forall x, x ∈ descriptors c -> x ∈ fds' /\ x ∉ fds).

Lemma nothing_requested s fds : exists s' evs, Ret (s, []) = Ret (s', evs) /\ requested s fds s' evs.
Proof. eexists _, _. split; [done|]. split; [done|]. exists fds. split_and!; [done|done|by left]. Qed.

Lemma use_send fds fd bs evs : fd ∈ fds -> use_events fds (EvSend fd bs :: evs) = use_events fds evs.
Proof. intros Hf. cbn [use_events use_event]. by rewrite decide_True by done. Qed.

Lemma NoDup_two (x y : Z) : x <> y -> NoDup [x; y].
Proof. intros Hne. apply NoDup_cons. split; [by rewrite list_elem_of_singleton|apply NoDup_singleton]. Qed.

Lemma new_only_more fds fds' evs : fds ⊆ fds' -> Forall (new_only fds') evs -> Forall (new_only fds) evs.
Proof. intros Hle Hn. eapply list.Forall_impl; [exact Hn|]. intros e. destruct e as [| | | |[]|]; cbn; set_solver. Qed.

Ltac new_events := repeat first [done | apply Forall_app; split | constructor].

Lemma handle_rrq_requested s fds buf len sq an :
  terminated buf len -> (2 <= len)%nat -> Forall attr_ok (default [] class_entries) -> (0 <= an_sock an -> an_sock an ∉ fds /\ an_sock an < FD_SETSIZE) ->
  (forall path fd evs, translate_open path O_RDONLY = Ret (fd, evs) -> kernel_ok ({[ an_sock an ]} ∪ fds) evs) -> sane_options buf len ->
  exists s' evs, handle_rrq s buf len sq an = Ret (s', evs) /\ requested s fds s' evs.
Proof.
  intros Ht Hlen Ha Hsock Hfile Hblk. unfold handle_rrq.
  destruct (two_strings buf 2 len Ht Hlen) as (filename & mode & Hname & Hmode). rewrite Hname. cbn [mbind outcome_bind]. rewrite Hmode. cbn [mbind outcome_bind].
  destruct (negb (octet mode)); [by apply nothing_requested|].
  set (p := (2 + length filename + 1 + length mode + 1)%nat).
  destruct (opt_loop_returns buf len Ht (S len) p opts0) as (o & Ho & Hw); [lia|done|]. rewrite Ho. cbn [mbind outcome_bind]. apply (Hblk _ _ _ Hname Hmode) in Ho.
  destruct (Z.ltb_spec (an_sock an) 0) as [|Hs]; [by apply nothing_requested|].
  destruct (Hsock Hs) as [Hsn Hsb]. destruct (an_connect an <? 0).
  { eexists _, _. split; [done|]. split; [new_events|]. exists ({[an_sock an]} ∪ fds). rewrite use_new by done. split_and!; [done|set_solver|by left]. }
  destruct (translate_open_opened filename O_RDONLY Ha) as (fd & calls & Hopen & _ & _ & Huse). rewrite Hopen. cbn [mbind outcome_bind].
  destruct (Huse _ (Hfile _ _ _ Hopen)) as (Hu & Hn & Hfd'). assert (Forall (new_only fds) calls) as Hn' by (eapply new_only_more; [|exact Hn]; set_solver).
  destruct (Z.ltb_spec fd 0) as [|Hfd].
  { unfold with_file in Hu. destruct (Z.leb_spec 0 fd); [lia|]. eexists _, _. split; [done|]. split; [new_events|]. exists ({[an_sock an]} ∪ fds).
    rewrite use_new, use_events_app, Hu by done. cbn [mbind option_bind]. unfold tftp_send_error. rewrite use_send by set_solver. split_and!; [done|set_solver|by left]. }
  specialize (Hfd' Hfd). assert (fd ∉ fds /\ fd <> an_sock an) as [Hfn Hfs] by set_solver. unfold with_file in Hu. destruct (Z.leb_spec 0 fd); [|lia].
  set (c := MkClient sq (an_sock an) fd (o_blksize o) (o_rsize o) (o_wsize o) (o_timeoutms o)).
  assert (client_ok c) as Hc by (unfold client_ok, c; cbn; lia).
  assert (exists evs, (if (p <? len)%nat then
     tftp_send_oack (c_sock c) (Some (o_blksize o)) (if (if o_tsize o =? -1 then -1 else an_size an) =? 0 then None else Some (if o_tsize o =? -1 then -1 else an_size an))
       (if o_wsize o =? 0 then None else Some (o_wsize o)) (Some (c_timeoutms c)) (if o_rsize o =? 0 then None else Some (o_rsize o))
     else '(_, evs) ← tftp_send_data c 1 0; Ret evs) = Ret evs /\ Forall (local_to c) evs) as (evs & -> & Hloc).
  { destruct (p <? len)%nat.
    - destruct (send_oack_returns (c_sock c) (Some (o_blksize o)) (if (if o_tsize o =? -1 then -1 else an_size an) =? 0 then None else Some (if o_tsize o =? -1 then -1 else an_size an))
       (if o_wsize o =? 0 then None else Some (o_wsize o)) (Some (c_timeoutms c)) (if o_rsize o =? 0 then None else Some (o_rsize o))) as [bs ->].
      eexists. split; [done|by repeat constructor].
    - destruct (send_data_returns Hio c 1 0 Hc) as (n & evs & -> & Hl). by exists evs. }
  cbn [mbind outcome_bind]. eexists _, _. split; [done|]. split; [new_events; by apply (new_only_local _ c)|]. exists ({[fd]} ∪ ({[an_sock an]} ∪ fds)).
  rewrite use_new, use_events_app, Hu by done. cbn [mbind option_bind]. split_and!; [apply (use_local _ c); [set_solver..|done]|set_solver|].
  right. exists c. split_and!; [by left|done|by apply NoDup_two, not_eq_sym|].
  intros x. unfold descriptors. rewrite elem_of_cons, list_elem_of_singleton. cbn [c c_sock c_fd]. intros [-> | ->]; (split; [set_solver|done]).
Qed.

Lemma handle_wrq_requested s fds buf len sq an :
  terminated buf len -> (2 <= len)%nat -> Forall attr_ok (default [] class_entries) -> 
  (forall path fd evs, translate_open path O_WRONLY_CREAT = Ret (fd, evs) ->
     kernel_ok fds evs /\ (0 <= an_sock an -> an_sock an ∉ with_file fd fds /\ an_sock an < FD_SETSIZE)) ->
  exists s' evs, handle_wrq s buf sq an = Ret (s', evs) /\ requested s fds s' evs.
Proof.
  intros Ht Hlen Ha Hfile. unfold handle_wrq.
  destruct (two_strings buf 2 len Ht Hlen) as (filename & mode & -> & Hmode). cbn [mbind outcome_bind]. rewrite Hmode. cbn [mbind outcome_bind].
  destruct (negb (octet mode)); [by apply nothing_requested|].
  destruct (translate_open_opened filename O_WRONLY_CREAT Ha) as (fd & calls & Hopen & _ & _ & Huse). rewrite Hopen. cbn [mbind outcome_bind].
  destruct (Hfile _ _ _ Hopen) as [Hk Hsock]. destruct (Huse _ Hk) as (Hu & Hn & Hfn).
  assert (requested s fds s calls) as Hnone.
  { split; [done|]. exists (with_file fd fds). split; [done|]. split; [unfold with_file; destruct (0 <=? fd); set_solver|by left]. }
  destruct (Z.ltb_spec fd 0) as [|Hfd]; [by eexists _, _|]. specialize (Hfn Hfd). destruct (Z.ltb_spec (an_sock an) 0) as [|Hs]; [by eexists _, _|].
  unfold with_file in *. destruct (Z.leb_spec 0 fd); [|lia]. destruct (Hsock Hs) as [Hsn Hsb]. assert (an_sock an ∉ fds /\ fd <> an_sock an) as [Hsf Hfs] by set_solver.
  destruct (an_connect an <? 0).
  { eexists _, _. split; [done|]. split; [new_events|]. exists ({[an_sock an]} ∪ ({[fd]} ∪ fds)). rewrite use_events_app, Hu. cbn [mbind option_bind].
    rewrite use_new by done. split_and!; [done|set_solver|by left]. }
  assert (use_events fds (calls ++ [EvNew (an_sock an)] ++ tftp_send_ack (an_sock an) 0) = Some ({[an_sock an]} ∪ ({[fd]} ∪ fds))) as Hu2.
  { rewrite use_events_app, Hu. cbn [mbind option_bind app]. rewrite use_new by done. unfold tftp_send_ack. by rewrite use_send by set_solver. }
  destruct (send _ _ <? 0).
  - eexists _, _. split; [done|]. split; [new_events|]. rewrite use_events_app, Hu2. cbn [mbind option_bind use_events use_event].
    rewrite decide_True by set_solver. cbn [mbind option_bind]. rewrite decide_True by set_solver. eexists. split; [done|]. split; [set_solver|by left].
  - eexists _, _. split; [done|]. split; [new_events|]. eexists. split; [exact Hu2|]. split; [set_solver|]. right. eexists. split; [by right|].
    split; [unfold client_ok; cbn; lia|]. split; [by apply NoDup_two, not_eq_sym|].
    intros x. unfold descriptors. rewrite elem_of_cons, list_elem_of_singleton. cbn [c_sock c_fd]. intros [-> | ->]; (split; [set_solver|done]).
Qed.

End requests.

(** ** One turn *)

(** The sockets are those of the service and of the clients, and all other
    descriptors of the process stay open. *)
Record main_inv (base : gset Z) (fd : Z) (fds : gset Z) (s : tftp_state) : Prop := MkMainInv
  { mi_nodup : NoDup (fd :: held (writers s ++ readers s));
    mi_open x : x ∈ fd :: held (writers s ++ readers s) -> x ∈ fds /\ x ∉ base;
    mi_base : base ⊆ fds;
    mi_clients : Forall client_ok (writers s ++ readers s);
    mi_fd : 0 <= fd < FD_SETSIZE }.

Lemma fd_set_ret fd rfds : 0 <= fd < FD_SETSIZE -> FD_SET fd rfds = Ret ({[ fd ]} ∪ rfds).
Proof. intros. unfold FD_SET. destruct (Z.leb_spec 0 fd); [|lia]. destruct (Z.ltb_spec fd FD_SETSIZE); [done|lia]. Qed.

Lemma watch_clients_spec cs : forall rfds nfds,
  Forall client_ok cs -> (forall x, x ∈ rfds -> x <= nfds) ->
  exists rfds' nfds', watch_clients cs rfds nfds = Ret (rfds', nfds') /\ rfds' = rfds ∪ list_to_set (c_sock <$> cs) /\ forall x, x ∈ rfds' -> x <= nfds'.
Proof.
  induction cs as [|c cs IH]; intros rfds nfds Hc Hn; [exists rfds, nfds; split; [done|split; [set_solver|done]]|].
  apply list.Forall_cons in Hc as [(_ & _ & Hs) Hc]. cbn [watch_clients]. rewrite fd_set_ret by done. cbn [mbind outcome_bind].
  destruct (IH ({[c_sock c]} ∪ rfds) (Z.max nfds (c_sock c)) Hc) as (rfds' & nfds' & -> & Hr & Hm).
  { intros x. rewrite elem_of_union, elem_of_singleton. intros [->|Hx]; [lia|]. specialize (Hn x Hx). lia. }
  exists rfds', nfds'. split; [done|]. split; [rewrite Hr; set_solver|done].
Qed.

(** [select] is asked for exactly the sockets there are, none too large for it. *)
Lemma watch_spec base fd fds s :
  main_inv base fd fds s ->
  exists rfds nfds, watch fd s = Ret (rfds, nfds) /\ rfds = {[ fd ]} ∪ list_to_set (c_sock <$> writers s ++ readers s)
    /\ forall data, select (nfds + 1) rfds data = rfds ∩ data.
Proof.
  intros [_ _ _ Hc Hfd]. apply Forall_app in Hc as [Hw Hr]. unfold watch. rewrite fd_set_ret by done. cbn [mbind outcome_bind].
  destruct (watch_clients_spec (writers s) ({[fd]} ∪ ∅) fd Hw) as (rfds1 & nfds1 & -> & H1 & Hn1); [set_solver by lia|]. cbn [mbind outcome_bind].
  destruct (watch_clients_spec (readers s) rfds1 nfds1 Hr Hn1) as (rfds2 & nfds2 & -> & H2 & Hn2). exists rfds2, nfds2.
  split; [done|]. split; [|intros data; by apply select_all]. rewrite H2, H1, fmap_app, list_to_set_app_L. set_solver.
Qed.

Lemma serve_ext handle ready ready' cs : (forall c, c ∈ cs -> ready c = ready' c) -> serve handle ready cs = serve handle ready' cs.
Proof.
  induction cs as [|c cs IH]; intros He; [done|]. cbn [serve]. rewrite (He c) by (by left). rewrite IH by (intros; apply He; by right). done.
Qed.

Lemma serve_clients_ext `{TftpIO} fuel s ready ready' :
  (forall c, c ∈ writers s ++ readers s -> ready c = ready' c) -> serve_clients fuel s ready = serve_clients fuel s ready'.
Proof.
  intros He. unfold serve_clients. by rewrite (serve_ext _ ready ready' (writers s)), (serve_ext _ ready ready' (readers s)) by (intros; apply He, elem_of_app; auto).
Qed.

(** A turn serves all clients whose socket has data. *)
Lemma main_turn_serves base fuel fd fds s t :
  main_inv base fd fds s ->
  main_turn fuel fd s t = match t_select t with
    | inl errno => if errno =? EINTR then Ret (inl s, []) else Ret (inr 0, [EvClose fd])
    | inr data => @tftp_turn (t_nodes t) (t_files t) (t_io t) fuel s (ready_of t data) (main_ready t data fd)
    end.
Proof.
  intros Hinv. unfold main_turn. destruct (watch_spec _ _ _ _ Hinv) as (rfds & nfds & -> & Hr & Hsel). cbn [mbind outcome_bind].
  destruct (t_select t) as [errno|data]; [done|]. rewrite Hsel. unfold tftp_turn.
  rewrite (@serve_clients_ext (t_io t) fuel s (ready_of t (rfds ∩ data)) (ready_of t data)).
  - destruct (@serve_clients (t_io t) fuel s (ready_of t data)) as [[s1 evs]| |]; [|done|done]. cbn [mbind outcome_bind].
    unfold main_ready. rewrite (decide_ext (fd ∈ rfds ∩ data) (fd ∈ data)) by set_solver. done.
  - intros c Hc. unfold ready_of. rewrite (decide_ext (c_sock c ∈ rfds ∩ data) (c_sock c ∈ data)); [done|].
    assert (c_sock c ∈ rfds); [|set_solver]. rewrite Hr. apply elem_of_union_r, elem_of_list_to_set, list_elem_of_fmap. by exists c.
Qed.

Section turns.
Variables (base : gset Z) (fuel : nat) (fd : Z).
Hypothesis (Hfuel : 65536 < Z.of_nat fuel).

(** A turn that avoids the defects: memory and the packets as above, attributes that
    fit, requests whose strings end and whose block size is not
    negative, and fresh descriptors for a request. *)
Record turn_ok (fds : gset Z) (s : tftp_state) (t : turn) : Prop := MkTurnOk
  { to_io : io_ok (t_io t);
    to_attrs : Forall (@attr_ok (t_nodes t)) (default [] (@class_entries (t_nodes t)));
    to_readers data c : t_select t = inr data -> c ∈ readers s -> c_sock c ∈ data -> reader_packet c (t_recv t (c_sock c));
    to_writers data c : t_select t = inr data -> c ∈ writers s -> c_sock c ∈ data -> writer_packet (t_recv t (c_sock c));
    to_request : request_ok (t_recv t fd);
    to_fresh data s1 evs fds1 : t_select t = inr data -> @serve_clients (t_io t) fuel s (ready_of t data) = Ret (s1, evs) ->
      use_events fds evs = Some fds1 -> @fresh (t_nodes t) (t_files t) fds1 (t_recv t fd) (t_answers t) }.

(** Fewer clients, whose descriptors are still open. *)
Lemma main_inv_fewer fds s fds' s' :
  main_inv base fd fds s -> writers s' `sublist_of` writers s -> readers s' `sublist_of` readers s ->
  (forall x, x ∈ held (writers s' ++ readers s') -> x ∈ fds') ->
  (forall x, x ∈ fds -> x ∉ held (writers s ++ readers s) -> x ∈ fds') -> main_inv base fd fds' s'.
Proof.
  intros [Hnd Hop Hb Hc Hfd] Hw Hr Hin Hout.
  assert (writers s' ++ readers s' `sublist_of` writers s ++ readers s) as Hsub by (by apply sublist_app).
  pose proof (held_sublist _ _ Hsub) as Hheld.
  assert (forall x, x ∈ held (writers s' ++ readers s') -> x ∈ held (writers s ++ readers s)) as Hle.
  { intros x Hx. by eapply elem_of_sublist. }
  apply NoDup_cons in Hnd as [Hnf Hnd]. split.
  - apply NoDup_cons. split; [intros Hx; by apply Hnf, Hle|]. eapply sublist_NoDup; done.
  - intros x Hx. apply elem_of_cons in Hx as [->|Hx].
    + destruct (Hop fd) as [H1 H2]; [by left|]. split; [by apply Hout|done].
    + split; [by apply Hin|]. apply Hop. right. by apply Hle.
  - intros x Hx. apply Hout; [by apply Hb|]. intros Hh. destruct (Hop x) as [_ Hn]; [by right|done].
  - rewrite list.Forall_forall in Hc |- *. intros c Hcin. apply Hc. by eapply elem_of_sublist.
  - done.
Qed.

Lemma serve_clients_inv fds s t data :
  main_inv base fd fds s -> turn_ok fds s t -> t_select t = inr data ->
  exists s1 evs fds1, @serve_clients (t_io t) fuel s (ready_of t data) = Ret (s1, evs) /\ use_events fds evs = Some fds1 /\ main_inv base fd fds1 s1.
Proof.
  intros Hinv Ht Hdata. pose proof Hinv as [Hnd Hop _ Hc _]. apply NoDup_cons in Hnd as [_ Hnd]. rewrite held_app in Hnd, Hop. apply NoDup_app in Hnd as (Hndw & Hdis & Hndr).
  apply Forall_app in Hc as [Hcw Hcr]. rewrite list.Forall_forall in Hcw, Hcr. unfold serve_clients.
  destruct (serve_served (@handle_writer (t_io t)) (ready_of t data) (writers s) fds Hndw) as (ws & e1 & -> & Hsw & fds1 & Hu1 & Hle1 & Hout1 & Hk1).
  { intros x Hx. apply Hop. right. apply elem_of_app. by left. }
  { apply list.Forall_forall. intros c Hcin rv Hrv. unfold ready_of in Hrv. case_decide; simplify_eq. by apply handle_writer_returns, (to_writers _ _ _ Ht data). }
  cbn [mbind outcome_bind].
  destruct (serve_served (@handle_reader (t_io t) fuel) (ready_of t data) (readers s) fds1 Hndr) as (rs & e2 & -> & Hsr & fds2 & Hu2 & Hle2 & Hout2 & Hk2).
  { intros x Hx. apply Hout1; [apply Hop; right; apply elem_of_app; by right|]. intros Hx'. by apply (Hdis x). }
  { apply list.Forall_forall. intros c Hcin rv Hrv. unfold ready_of in Hrv. case_decide; simplify_eq.
    apply (handle_reader_returns (to_io _ _ _ Ht)); [done|by apply Hcr|by apply (to_readers _ _ _ Ht data)]. }
  cbn [mbind outcome_bind]. eexists _, _, fds2. split; [done|]. rewrite use_events_app, Hu1. split; [done|].
  apply (main_inv_fewer fds s); [done|done|done| |].
  - intros x. cbn [writers readers]. rewrite held_app, elem_of_app. intros [Hx|Hx]; [|by apply Hk2]. apply Hout2; [by apply Hk1|].
    intros Hx'. apply (Hdis x); [|done]. eapply elem_of_sublist; [exact Hx|by apply held_sublist].
  - intros x Hx. rewrite held_app, not_elem_of_app. intros [Hn1 Hn2]. apply Hout2; [|done]. by apply Hout1.
Qed.

(** A client more, with new descriptors. *)
Lemma main_inv_requested fds s s' evs :
  main_inv base fd fds s -> requested s fds s' evs -> exists fds', use_events fds evs = Some fds' /\ main_inv base fd fds' s'.
Proof.
  intros Hinv (_ & fds' & Hu & Hle & Hs). exists fds'. split; [done|]. destruct Hinv as [Hnd Hop Hb Hc Hfd]. destruct Hs as [->|(c & Hs & Hcok & Hcn & Hcd)].
  { split; [done| |set_solver|done|done]. intros x Hx. destruct (Hop x Hx). set_solver. }
  assert (held (writers s' ++ readers s') ≡ₚ descriptors c ++ held (writers s ++ readers s)) as Hp.
  { destruct Hs as [-> | ->]; cbn [writers readers]; rewrite !held_app; change (held [c]) with (descriptors c); solve_Permutation. }
  assert (Forall client_ok (writers s' ++ readers s')) as Hcl.
  { apply Forall_app in Hc as [? ?]. destruct Hs as [-> | ->]; cbn [writers readers]; rewrite !Forall_app, Forall_singleton; tauto. }
  assert (forall x, x ∈ descriptors c -> x ∉ fd :: held (writers s ++ readers s)) as Hnew.
  { intros x Hx Hin. destruct (Hcd x Hx) as [_ Hn]. by destruct (Hop x Hin). }
  split; [| |set_solver|done|done].
  - rewrite Hp. apply NoDup_cons in Hnd as [Hnf Hnd]. apply NoDup_cons. split.
    + rewrite elem_of_app. intros [Hx|Hx]; [|done]. by apply (Hnew fd Hx), list_elem_of_here.
    + apply NoDup_app. split_and!; [done| |done]. intros x Hx Hh. apply (Hnew x Hx). by right.
  - intros x. rewrite Hp, elem_of_cons, elem_of_app. intros [->|[Hx|Hx]].
    + destruct (Hop fd) as [H1 H2]; [by left|]. set_solver.
    + destruct (Hcd x Hx) as [H1 H2]. set_solver.
    + destruct (Hop x) as [H1 H2]; [by right|]. set_solver.
Qed.

Lemma close_writers_inv fds s p :
  main_inv base fd fds s -> exists fds', use_events fds (close_writers p s).2 = Some fds' /\ main_inv base fd fds' (close_writers p s).1.
Proof.
  intros Hinv. pose proof Hinv as [Hnd Hop _ _ _]. apply NoDup_cons in Hnd as [_ Hnd]. rewrite held_app in Hnd, Hop. apply NoDup_app in Hnd as (Hndw & Hdis & _).
  destruct (serve_served (fun _ _ => Ret (0, [])) (fun c => if p c then Some (MkRecv 0 [] (MkSq 0 0 0)) else None) (writers s) fds Hndw)
    as (ws & evs & He & Hsub & fds' & Hu & Hle & Hout & Hk).
  { intros x Hx. apply Hop. right. apply elem_of_app. by left. }
  { apply list.Forall_forall. intros c Hc rv _. by exists 0, []. }
  rewrite close_writers_serve in He. injection He as <- <-. exists fds'. split; [done|].
  apply (main_inv_fewer fds s); [done|done|done| |].
  - intros x. rewrite held_app, elem_of_app. intros [Hx|Hx]; [by apply Hk|]. apply Hout; [apply Hop; right; apply elem_of_app; by right|].
    intros Hx'. by apply (Hdis x).
  - intros x Hx. rewrite held_app, not_elem_of_app. intros [Hn _]. by apply Hout.
Qed.

Definition goes_on (r : tftp_state + Z) (fds : gset Z) : Prop :=
  match r with inl s => main_inv base fd fds s | inr _ => True end.

Lemma serve_main_inv `{RP : Remoteprocs, FS : Filesystem, IO : TftpIO} fds s rv an :
  io_ok IO -> main_inv base fd fds s -> Forall attr_ok (default [] class_entries) -> fresh fds rv an -> request_ok rv ->
  exists r evs fds', serve_main s rv an = Ret (r, evs) /\ use_events fds evs = Some fds' /\ goes_on r fds'.
Proof.
  intros Hio Hinv Ha Hfr Hreq. unfold serve_main. destruct (rv_len rv <? 0); [by eexists _, _, _|].
  destruct (_ =? QRTR_PORT_CTRL).
  { destruct (qrtr_decode _ _ _ _) as [rc pkt]. destruct (rc <? 0); [by eexists _, _, _|].
    assert (forall p, exists r evs fds', (let '(s, evs) := close_writers p s in Ret (inl s, evs)) = Ret (r, evs) /\ use_events fds evs = Some fds' /\ goes_on r fds') as Hcl.
    { intros p. destruct (close_writers_inv fds s p Hinv) as (fds' & Hu & Hi). by eexists _, _, fds'. }
    destruct (p_type pkt =? QRTR_TYPE_BYE); [apply Hcl|]. destruct (_ =? QRTR_TYPE_DEL_CLIENT); [apply Hcl|]. by eexists _, _, _. }
  destruct (Z.ltb_spec (rv_len rv) 2); [by eexists _, _, _|]. destruct Hreq as [Ht Hblk]; [done|].
  assert (2 <= Z.to_nat (rv_len rv))%nat by lia. unfold fresh in Hfr. destruct (_ =? OP_RRQ); [destruct Hfr as [Hfr1 Hfr2]|destruct (_ =? OP_WRQ); [|by eexists _, _, _]].
  - destruct (handle_rrq_requested Hio s fds (rv_buf rv) _ (rv_sq rv) an Ht) as (s' & evs & -> & Hr); [done..|].
    destruct (main_inv_requested fds s s' evs Hinv Hr) as (fds' & Hu & Hi). by eexists _, _, fds'.
  - destruct (handle_wrq_requested Hio s fds (rv_buf rv) _ (rv_sq rv) an Ht) as (s' & evs & -> & Hr); [done..|].
    destruct (main_inv_requested fds s s' evs Hinv Hr) as (fds' & Hu & Hi). by eexists _, _, fds'.
Qed.

Lemma main_turn_inv fds s t :
  main_inv base fd fds s -> turn_ok fds s t ->
  exists r evs fds', main_turn fuel fd s t = Ret (r, evs) /\ use_events fds evs = Some fds' /\ goes_on r fds'.
Proof.
  intros Hinv Ht. rewrite (main_turn_serves base _ _ fds) by done. destruct (t_select t) as [errno|data] eqn:Hsel.
  { destruct (errno =? EINTR); [by eexists _, _, fds|]. destruct (mi_open _ _ _ _ Hinv fd) as [Hf _]; [by left|].
    eexists _, _, _. split; [done|]. cbn. by rewrite decide_True by done. }
  unfold tftp_turn. destruct (serve_clients_inv fds s t data Hinv Ht Hsel) as (s1 & evs1 & fds1 & He1 & Hu1 & Hi1). rewrite He1. cbn [mbind outcome_bind].
  unfold main_ready. case_decide; [|by eexists _, _, fds1].
  destruct (@serve_main_inv (t_nodes t) (t_files t) (t_io t) fds1 s1 (t_recv t fd) (t_answers t)) as (r & evs2 & fds2 & -> & Hu2 & Hr);
    [apply Ht|done|apply Ht|by eapply (to_fresh _ _ _ Ht)|apply Ht|].
  cbn [mbind outcome_bind]. eexists _, _, fds2. split; [done|]. rewrite use_events_app, Hu1. done.
Qed.

(** The turns in which [main] returns: [select] fails for another reason than a signal, or
    the socket of the service fails or has a control packet that does not
    decode. *)
Definition stops (t : turn) : Prop :=
  match t_select t with
  | inl errno => errno <> EINTR
  | inr data =>
      let rv := t_recv t fd in
      fd ∈ data /\ (rv_len rv < 0 \/ sq_port (rv_sq rv) = QRTR_PORT_CTRL
                   /\ fst (qrtr_decode (MkQpkt 0 0 0 0 0 0 [] 0) (rv_buf rv) (rv_len rv) (rv_sq rv)) < 0)
  end.

Lemma serve_main_stops `{RP : Remoteprocs, FS : Filesystem, IO : TftpIO} s rv an ret evs :
  serve_main s rv an = Ret (inr ret, evs) ->
  rv_len rv < 0 \/ sq_port (rv_sq rv) = QRTR_PORT_CTRL /\ fst (qrtr_decode (MkQpkt 0 0 0 0 0 0 [] 0) (rv_buf rv) (rv_len rv) (rv_sq rv)) < 0.
Proof using.
  unfold serve_main. destruct (Z.ltb_spec (rv_len rv) 0); [by left|]. destruct (Z.eqb_spec (sq_port (rv_sq rv)) QRTR_PORT_CTRL).
  { destruct (qrtr_decode _ _ _ _) as [rc pkt]. destruct (Z.ltb_spec rc 0); [by right|]. destruct (_ =? _); [by destruct (close_writers _ s)|].
    destruct (_ =? _); [by destruct (close_writers _ s)|done]. }
  destruct (_ <? 2); [done|]. destruct (_ =? OP_RRQ).
  - destruct (handle_rrq _ _ _ _ _) as [[s' e]| |]; done.
  - destruct (_ =? OP_WRQ); [|done]. destruct (handle_wrq _ _ _ _) as [[s' e]| |]; done.
Qed.

Lemma main_turn_stops fds s t ret evs : main_inv base fd fds s -> main_turn fuel fd s t = Ret (inr ret, evs) -> stops t.
Proof using.
  clear Hfuel. intros Hinv. rewrite (main_turn_serves base _ _ fds) by done. unfold stops. destruct (t_select t) as [errno|data].
  { destruct (Z.eqb_spec errno EINTR); done. }
  unfold tftp_turn. destruct (@serve_clients (t_io t) fuel s (ready_of t data)) as [[s1 e1]| |]; [|done|done]. cbn [mbind outcome_bind].
  unfold main_ready. case_decide; [|done]. intros He. apply outcome_bind_inv in He as ([r e2] & He & [= -> _]). split; [done|]. by eapply serve_main_stops.
Qed.

(** A run whose turns all avoid the defects, in the states it gets to. *)
Fixpoint turns_ok (fds : gset Z) (s : tftp_state) (turns : list turn) : Prop :=
  match turns with
  | [] => True
  | t :: turns' => turn_ok fds s t /\ forall s' evs fds', main_turn fuel fd s t = Ret (inl s', evs) -> use_events fds evs = Some fds' -> turns_ok fds' s' turns'
  end.

(** The loop goes on with its descriptors in order, or has met a turn that stops
    it. *)
Definition ran (turns : list turn) (r : tftp_state + Z) (fds : gset Z) : Prop :=
  match r with inl s => main_inv base fd fds s | inr _ => Exists stops turns end.

Lemma main_loop_inv turns : forall fds s,
  main_inv base fd fds s -> turns_ok fds s turns ->
  exists r evs fds', main_loop fuel fd s turns = Ret (r, evs) /\ use_events fds evs = Some fds' /\ ran turns r fds'.
Proof.
  induction turns as [|t turns IH]; intros fds s Hinv Hts; [by eexists _, _, fds|]. destruct Hts as [Ht Hts]. cbn [main_loop].
  destruct (main_turn_inv fds s t Hinv Ht) as (r & evs & fds1 & He & Hu & Hr). rewrite He. cbn [mbind outcome_bind].
  destruct r as [s1|ret]; [|eexists _, _, fds1; split_and!; [done|done|apply Exists_cons_hd; by eapply main_turn_stops]].
  destruct (IH fds1 s1 Hr) as (r & evs' & fds2 & -> & Hu2 & Hr2); [by eapply Hts|]. cbn [mbind outcome_bind].
  eexists _, _, fds2. split; [done|]. rewrite use_events_app, Hu. split; [done|]. destruct r; [done|by apply Exists_cons_tl].
Qed.

End turns.

(** ** Clients do not disturb each other *)

Definition touches (c : tftp_client) (e : event) : bool :=
  match e with
  | EvOpen (OpenRdonly _) => false
  | EvSend x _ | EvWrite x _ | EvClose x | EvReclose x | EvNew x | EvOpen (OpenAt x _ _) => bool_decide (x ∈ descriptors c)
  end.

(** The events on the descriptors of a client. *)
Definition about (c : tftp_client) (evs : list event) : list event := List.filter (touches c) evs.

Lemma about_app c evs evs' : about c (evs ++ evs') = about c evs ++ about c evs'.
Proof. apply List.filter_app. Qed.

Lemma about_none c evs : Forall (fun e => touches c e = false) evs -> about c evs = [].
Proof. induction 1 as [|e evs He _ IH]; [done|]. unfold about in *. cbn. by rewrite He. Qed.

Lemma about_own c evs : Forall (local_to c) evs -> about c evs = evs.
Proof.
  induction 1 as [|e evs He _ IH]; [done|]. unfold about in *. cbn. assert (touches c e = true) as ->; [|by rewrite IH].
  destruct e; cbn in He |- *; try done; subst; apply bool_decide_eq_true; unfold descriptors; set_solver.
Qed.

(** Two clients without a common descriptor. *)
Definition apart (c d : tftp_client) : Prop := forall x, x ∈ descriptors c -> x ∉ descriptors d.

Lemma about_other c d evs : apart c d -> Forall (local_to d) evs -> about c evs = [].
Proof.
  intros Ha Hl. apply about_none. eapply list.Forall_impl; [exact Hl|]. intros e He.
  destruct e; cbn in He |- *; try done; subst; apply bool_decide_eq_false; intros Hx; apply (Ha _ Hx); unfold descriptors; set_solver.
Qed.

Lemma about_close c d : apart c d -> about c (close_events d) = [].
Proof.
  intros Ha. apply about_none. repeat constructor; cbn; apply bool_decide_eq_false; intros Hx; apply (Ha _ Hx); unfold descriptors; set_solver.
Qed.

Lemma about_new fds c evs : (forall x, x ∈ descriptors c -> x ∈ fds) -> Forall (new_only fds) evs -> about c evs = [].
Proof.
  intros Hin Hn. apply about_none. eapply list.Forall_impl; [exact Hn|]. intros e He.
  destruct e as [| | | |[]|]; cbn in He |- *; try done; apply bool_decide_eq_false; intros Hx; by apply He, Hin.
Qed.

(** What serving a list does about a client outside it, and about one of it that
    stays: exactly what its handler does. *)
Lemma serve_about handle ready cs : forall kept evs,
  NoDup (held cs) -> Forall (handles handle ready) cs -> serve handle ready cs = Ret (kept, evs) ->
  (forall c, (forall d, d ∈ cs -> apart c d) -> about c evs = [])
  /\ forall c, c ∈ cs ->
       (ready c = None -> c ∈ kept /\ about c evs = [])
       /\ forall rv ret e, ready c = Some rv -> handle c rv = Ret (ret, e) -> 0 < ret -> c ∈ kept /\ about c evs = e.
Proof.
  induction cs as [|d cs IH]; intros kept evs Hnd Hh He; cbn [serve] in He.
  { injection He as <- <-. split; [done|]. intros c Hc. by apply not_elem_of_nil in Hc. }
  rewrite held_cons in Hnd. apply NoDup_cons in Hnd as [Hn1 Hnd]. apply NoDup_cons in Hnd as [Hn2 Hnd]. apply list.Forall_cons in Hh as [Hd Hh].
  assert (forall c, c ∈ cs -> apart d c /\ apart c d) as Hap.
  { intros c Hc. assert (forall x, x ∈ descriptors c -> x ∈ held cs) as Hin.
    { intros x. by apply held_in. }
    assert (forall x, x ∈ descriptors d -> x ∉ held cs) as Hout.
    { intros x. unfold descriptors. rewrite elem_of_cons, list_elem_of_singleton. rewrite not_elem_of_cons in Hn1. intros [-> | ->]; tauto. }
    split; intros x Hx Hx'; [by apply (Hout x Hx), Hin|by apply (Hout x Hx'), Hin]. }
  destruct (ready d) as [rv|] eqn:Hr.
  - destruct (Hd rv Hr) as (ret & e1 & Hhd & Hloc). rewrite Hhd in He. cbn [mbind outcome_bind] in He.
    apply outcome_bind_inv in He as ([kept' evs'] & Hs & He). destruct (IH kept' evs' Hnd Hh Hs) as [IHout IHin].
    assert (exists e2, evs = e1 ++ e2 ++ evs' /\ (forall c, apart c d -> about c e2 = []) /\ (0 < ret -> e2 = [] /\ kept = d :: kept') /\ forall c, c ∈ kept' -> c ∈ kept) as (e2 & -> & He2 & Hstay & Hk).
    { destruct (Z.leb_spec ret 0); simplify_eq; [exists (close_events d)|exists []]; (split; [done|]); (split; [|split; [by (lia || (intros; split))|]]);
        [intros c Hc; by apply about_close|done|done|by right]. }
    split.
    + intros c Hc. rewrite !about_app, (about_other c d), He2, IHout; [done|intros d' Hd'; apply Hc; by right|apply Hc; by left|apply Hc; by left|done].
    + intros c Hc. apply elem_of_cons in Hc as [->|Hc].
      * split; [by rewrite Hr|]. intros rv' ret' e Hr' Hh' Hpos. rewrite Hr in Hr'. injection Hr' as <-. rewrite Hhd in Hh'. injection Hh' as <- <-.
        destruct (Hstay Hpos) as [-> ->]. split; [by left|]. rewrite !about_app, about_own by done. rewrite (IHout d) by (intros c Hc; by apply Hap). cbn. by rewrite !app_nil_r.
      * destruct (Hap c Hc) as [_ Hcd]. destruct (IHin c Hc) as [IH1 IH2]. rewrite !about_app, (about_other c d), (He2 c) by done. cbn [app].
        split; [intros Hnone; destruct (IH1 Hnone); auto|]. intros rv' ret' e H1 H2 H3. destruct (IH2 rv' ret' e H1 H2 H3). auto.
  - apply outcome_bind_inv in He as ([kept' evs'] & Hs & He). injection He as <- <-. destruct (IH kept' evs' Hnd Hh Hs) as [IHout IHin]. split.
    + intros c Hc. apply IHout. intros d' Hd'. apply Hc. by right.
    + intros c Hc. apply elem_of_cons in Hc as [->|Hc].
      * split; [|by rewrite Hr]. intros _. split; [by left|]. apply IHout. intros c Hc. by apply Hap.
      * destruct (IHin c Hc) as [IH1 IH2]. split; [intros Hnone; destruct (IH1 Hnone); split; [by right|done]|].
        intros rv' ret' e H1 H2 H3. destruct (IH2 rv' ret' e H1 H2 H3). split; [by right|done].
Qed.

Section readers.
Variables (base : gset Z) (fuel : nat) (fd : Z).
Hypothesis (Hfuel : 65536 < Z.of_nat fuel).

Lemma reader_apart fds s c d : main_inv base fd fds s -> c ∈ readers s -> d ∈ writers s -> apart c d.
Proof using.
  intros Hinv Hc Hd x Hx Hx'. pose proof (mi_nodup _ _ _ _ Hinv) as Hnd. apply NoDup_cons in Hnd as [_ Hnd]. rewrite held_app in Hnd.
  apply NoDup_app in Hnd as (_ & Hdis & _). by apply (Hdis x); [apply (held_in d)|apply (held_in c)].
Qed.

Lemma reader_open fds s c x : main_inv base fd fds s -> c ∈ readers s -> x ∈ descriptors c -> x ∈ fds.
Proof using.
  intros Hinv Hc Hx. apply (mi_open _ _ _ _ Hinv x). right. rewrite held_app. apply elem_of_app. right. by apply (held_in c).
Qed.

(** What comes in on the socket of the service does not concern a reader. *)
Lemma serve_main_reader `{RP : Remoteprocs, FS : Filesystem, IO : TftpIO} fds s rv an s' evs c :
  io_ok IO -> main_inv base fd fds s -> Forall attr_ok (default [] class_entries) -> fresh fds rv an -> request_ok rv ->
  serve_main s rv an = Ret (inl s', evs) -> c ∈ readers s -> c ∈ readers s' /\ about c evs = [].
Proof using.
  clear fuel Hfuel. intros Hio Hinv Ha Hfr Hreq He Hc. unfold serve_main in He. destruct (rv_len rv <? 0); [done|].
  assert (forall s1 e1, requested s fds s1 e1 -> c ∈ readers s1 /\ about c e1 = []) as Hrq.
  { intros s1 e1 (Hn & fds' & _ & _ & Hs). split; [|by apply (about_new fds); [intros x; by apply (reader_open fds s)|]].
    destruct Hs as [->|(c' & [-> | ->] & _)]; [done| |done]. apply elem_of_app. by left. }
  destruct (_ =? QRTR_PORT_CTRL).
  { assert (forall p, c ∈ readers (close_writers p s).1 /\ about c (close_writers p s).2 = []) as Hcl.
    { intros p. split; [done|]. pose proof (mi_nodup _ _ _ _ Hinv) as Hnd. apply NoDup_cons in Hnd as [_ Hnd]. rewrite held_app in Hnd. apply NoDup_app in Hnd as (Hndw & _).
      refine (proj1 (serve_about _ _ (writers s) _ _ Hndw _ (close_writers_serve p s rv)) c _); [|intros d Hd; by apply (reader_apart fds s)].
      apply list.Forall_forall. intros d Hd rv' _. by exists 0, []. }
    destruct (qrtr_decode _ _ _ _) as [rc pkt]. destruct (rc <? 0); [done|].
    destruct (p_type pkt =? QRTR_TYPE_BYE); [injection He as <- <-; apply Hcl|]. destruct (_ =? QRTR_TYPE_DEL_CLIENT); [injection He as <- <-; apply Hcl|]. by simplify_eq. }
  destruct (Z.ltb_spec (rv_len rv) 2); [by simplify_eq|]. destruct Hreq as [Ht Hblk]; [done|].
  assert (2 <= Z.to_nat (rv_len rv))%nat by lia. unfold fresh in Hfr. destruct (_ =? OP_RRQ); [destruct Hfr as [Hfr1 Hfr2]|destruct (_ =? OP_WRQ); [|by simplify_eq]].
  - destruct (handle_rrq_requested Hio s fds (rv_buf rv) _ (rv_sq rv) an Ht) as (s1 & e1 & He1 & Hr); [done..|]. rewrite He1 in He. injection He as <- <-. by apply Hrq.
  - destruct (handle_wrq_requested Hio s fds (rv_buf rv) _ (rv_sq rv) an Ht) as (s1 & e1 & He1 & Hr); [done..|]. rewrite He1 in He. injection He as <- <-. by apply Hrq.
Qed.

(** A turn does with a reader what its handler does with its packet, whatever
    else happens in the turn. *)
Lemma main_turn_reader fds s t s' evs c :
  main_inv base fd fds s -> turn_ok fuel fd fds s t -> main_turn fuel fd s t = Ret (inl s', evs) -> c ∈ readers s ->
  ((forall data, t_select t = inr data -> c_sock c ∉ data) -> c ∈ readers s' /\ about c evs = [])
  /\ forall data ret e, t_select t = inr data -> c_sock c ∈ data -> @handle_reader (t_io t) fuel c (t_recv t (c_sock c)) = Ret (ret, e) -> 0 < ret ->
       c ∈ readers s' /\ about c evs = e.
Proof.
  intros Hinv Ht He Hc. rewrite (main_turn_serves base _ _ fds) in He by done. destruct (t_select t) as [errno|data] eqn:Hsel.
  { destruct (errno =? EINTR); simplify_eq. split; [done|]. intros data ret e [=]. }
  destruct (serve_clients_inv base fuel fd Hfuel fds s t data Hinv Ht Hsel) as (s1 & evs1 & fds1 & He1 & Hu1 & Hi1).
  unfold tftp_turn in He. rewrite He1 in He. cbn [mbind outcome_bind] in He.
  assert (exists evs2, evs = evs1 ++ evs2 /\ (c ∈ readers s1 -> c ∈ readers s' /\ about c evs2 = [])) as (evs2 & -> & Hmain).
  { unfold main_ready in He. case_decide as Hd; [|simplify_eq; exists []; by rewrite app_nil_r].
    apply outcome_bind_inv in He as ([r e2] & Hm & He). simplify_eq. exists e2. split; [done|].
    apply (serve_main_reader (RP := t_nodes t) (FS := t_files t) (IO := t_io t) fds1 s1 (t_recv t fd) (t_answers t)); [apply Ht|done|apply Ht|by eapply (to_fresh _ _ _ _ _ Ht)|apply Ht|done]. }
  pose proof (mi_nodup _ _ _ _ Hinv) as Hnd. apply NoDup_cons in Hnd as [_ Hnd]. rewrite held_app in Hnd. apply NoDup_app in Hnd as (Hndw & _ & Hndr).
  pose proof (mi_clients _ _ _ _ Hinv) as Hcl. apply Forall_app in Hcl as [_ Hcr]. rewrite list.Forall_forall in Hcr.
  unfold serve_clients in He1. apply outcome_bind_inv in He1 as ([ws ew] & Hw & He1). apply outcome_bind_inv in He1 as ([rs er] & Hr & He1). injection He1 as <- <-.
  assert (forall c, (forall d, d ∈ writers s -> apart c d) -> about c ew = []) as Houtw.
  { refine (proj1 (serve_about _ _ _ _ _ Hndw _ Hw)). apply list.Forall_forall. intros d Hd rv Hrv. unfold ready_of in Hrv. case_decide; simplify_eq. by apply handle_writer_returns, (to_writers _ _ _ _ _ Ht data). }
  assert (Forall (handles (@handle_reader (t_io t) fuel) (ready_of t data)) (readers s)) as Hhr.
  { apply list.Forall_forall. intros d Hd rv Hrv. unfold ready_of in Hrv. case_decide; simplify_eq.
    apply (handle_reader_returns (to_io _ _ _ _ _ Ht)); [done|by apply Hcr|by apply (to_readers _ _ _ _ _ Ht data)]. }
  destruct (proj2 (serve_about _ _ _ _ _ Hndr Hhr Hr) c Hc) as [Hno Hyes]. rewrite !about_app, (Houtw c) by (intros d Hd; by apply (reader_apart fds s)). cbn [app readers] in *.
  split.
  - intros Hnot. destruct Hno as [Hk Hab]; [unfold ready_of; by rewrite decide_False by (by apply Hnot)|]. destruct (Hmain Hk) as [? ->]. by rewrite Hab.
  - intros data' ret e [= <-] Hd Hhd Hpos. destruct (Hyes (t_recv t (c_sock c)) ret e) as [Hk Hab]; [unfold ready_of; by rewrite decide_True|done|done|].
    destruct (Hmain Hk) as [? ->]. by rewrite Hab, app_nil_r.
Qed.
End readers.

(** ** Theorems *)

(** C11: tqftpserv goes on and keeps its descriptors in order.  Once its socket is
    open and the service published, for every sequence of turns whose packets
    avoid the listed defects of the handlers, in whatever order sockets become
    ready and whatever clients come and go: [main] does not crash or hang, and returns only where [select]
    fails, its socket fails or has a control packet that does not decode; it
    reads, writes, sends on and closes only descriptors that are open, those it opens on
    the way to a file included, but that after each read-only file the directory of the
    remote processors is closed a second time, and then its number is not in use;
    the sockets and files of its clients are
    all different and open, and no other descriptor of the process is closed. *)
Theorem tftp_service_safe base fuel sock g rc turns :
  65536 < Z.of_nat fuel -> 0 <= sock < FD_SETSIZE -> sock ∉ base -> is_Some (qrtr_getname g) -> 0 <= rc ->
  turns_ok fuel sock ({[ sock ]} ∪ base) (MkTftp [] []) turns ->
  exists calls r evs fds,
    tftp_main fuel sock 0 g rc turns = Ret (calls, (r, evs)) /\ use_events ({[ sock ]} ∪ base) evs = Some fds
    /\ match r with
       | inl s => base ⊆ fds /\ NoDup (sock :: held (writers s ++ readers s)) /\ forall x, x ∈ sock :: held (writers s ++ readers s) -> x ∈ fds /\ x ∉ base
       | inr _ => Exists (stops sock) turns
       end.
Proof.
  intros Hf Hs Hb [sq Hg] Hrc Hts. assert (main_inv base sock ({[sock]} ∪ base) (MkTftp [] [])) as Hinv.
  { split; [apply NoDup_singleton| |set_solver|constructor|done]. intros x. rewrite list_elem_of_singleton. intros ->. set_solver. }
  destruct (main_loop_inv base fuel sock Hf turns _ _ Hinv Hts) as (r & evs & fds & He & Hu & Hr).
  unfold tftp_main, qrtr_open. destruct (Z.ltb_spec sock 0); [lia|]. cbn [negb Z.eqb]. destruct (Z.ltb_spec sock 0); [lia|].
  unfold qrtr_publish, qrtr_new_server, send_ctrl, qrtr_sendto. rewrite Hg. destruct (Z.ltb_spec rc 0); [lia|]. change (0 <? 0) with false. cbv iota.
  rewrite He. cbn [mbind outcome_bind]. eexists _, r, evs, fds. split; [done|]. split; [done|].
  destruct r as [s|]; [|done]. destruct Hr as [Hnd Hop Hbs _ _]. done.
Qed.

Section session.
Variables (c : tftp_client) (f : list Z) (b w : nat).

(** The turns of a client that acknowledges: in some of them its socket
    has nothing to read, in the others the next acknowledgement. *)
Inductive acknowledges : list nat -> list turn -> Prop :=
| ack_done : acknowledges [] []
| ack_waits t acks turns : (forall data, t_select t = inr data -> c_sock c ∉ data) -> acknowledges acks turns -> acknowledges acks (t :: turns)
| ack_next t data junk last acks turns :
    t_select t = inr data -> c_sock c ∈ data -> (124 <= length junk)%nat -> Z.of_nat last <= 65535 ->
    t_recv t (c_sock c) = recv_from 128 c junk (ack_packet last) -> @serves (t_io t) c f b w -> acknowledges acks turns -> acknowledges (last :: acks) (t :: turns).

Lemma main_loop_session base fuel fd turns acks : 65536 < Z.of_nat fuel -> acknowledges acks turns -> forall fds s s' evs,
  main_inv base fd fds s -> turns_ok fuel fd fds s turns -> c ∈ readers s -> main_loop fuel fd s turns = Ret (inl s', evs) ->
  c ∈ readers s' /\ about c evs = data_event c f b <$> concat (window f b w <$> acks).
Proof.
  intros Hf. induction 1 as [|t acks turns Hno _ IH|t data junk last acks turns Hsel Hd Hj Hl Hrecv Hsv _ IH]; intros fds s s' evs Hinv Hts Hc He.
  { cbn [main_loop] in He. by simplify_eq. }
  all: destruct Hts as [Ht Hts]; cbn [main_loop] in He; apply outcome_bind_inv in He as ([[s1|ret] e1] & He1 & He); [|by simplify_eq].
  all: apply outcome_bind_inv in He as ([r e2] & He2 & He); simplify_eq.
  all: destruct (main_turn_inv base fuel fd Hf fds s t Hinv Ht) as (r' & e1' & fds1 & He1' & Hu1 & Hi1); rewrite He1 in He1'; injection He1' as <- <-.
  all: specialize (Hts s1 e1 fds1 He1 Hu1); destruct (main_turn_reader base fuel fd Hf fds s t s1 e1 c Hinv Ht He1 Hc) as [Hw Ha].
  - destruct (Hw Hno) as [Hc1 Hab]. rewrite about_app, Hab. by apply (IH fds1 s1).
  - destruct (to_readers _ _ _ _ _ Ht data c Hsel Hc Hd) as (_ & Hw0 & Hwin). destruct Hsv as [Hb Hb31 Hw31 Hblk Hwsz Hsize Hread Hsend Hmem].
    destruct (Ha data 1 (data_event c f b <$> window f b w last) Hsel Hd) as [Hc1 Hab]; [|lia|].
    { rewrite Hrecv. apply handle_reader_ack; done || lia. }
    destruct (IH fds1 s1 s' e2 Hi1 Hts Hc1 He2) as [Hc2 Hab2]. split; [done|]. by rewrite about_app, Hab, Hab2, fmap_cons, concat_cons, fmap_app.
Qed.

End session.

(** C10: A file is served whole, whatever else goes on.  A reader with a window of [w]
    blocks of [b] bytes
    acknowledges window after window, below block 65536, while in the same turns of the loop other clients read, write, come and
    go, and control messages and signals arrive, all avoiding the listed defects of the
    handlers ([turn_ok]).  Unless in one of the turns [select] fails, or the socket of the service fails
    or has a control packet that does not decode, where [main] returns, the reader is still there in the end, and what was
    done on its descriptors is exactly that every block of the file was sent once, in order and under
    its number; the payloads make up the file. *)
Theorem file_served_among_others base fuel fd fds s turns c f b w n :
  65536 < Z.of_nat fuel -> main_inv base fd fds s -> turns_ok fuel fd fds s turns -> c ∈ readers s ->
  acknowledges c f b w ((fun i => i * w)%nat <$> seq 0 n) turns -> (0 < b)%nat -> (length f <= n * w * b)%nat ->
  exists r evs, main_loop fuel fd s turns = Ret (r, evs)
    /\ match r with
       | inl s' => c ∈ readers s' /\ about c evs = data_event c f b <$> seq 0 (nblocks b f) /\ concat (sent_payload <$> about c evs) = f
       | inr _ => Exists (stops fd) turns
       end.
Proof.
  intros Hf Hinv Hts Hc Hack Hb Hlen. destruct (main_loop_inv base fuel fd Hf turns fds s Hinv Hts) as (r & evs & fds' & He & _ & Hran).
  exists r, evs. split; [done|]. destruct r as [s'|]; [|done]. destruct (blocks_make_file c f b w Hb n Hlen) as [Hall Hfile].
  destruct (main_loop_session c f b w base fuel fd turns _ Hf Hack fds s s' evs Hinv Hts Hc He) as [Hc' Hab]. rewrite Hall in Hab.
  split; [done|]. by rewrite Hab.
Qed.

(** ** A run *)

(** Files of the numbers 0 to 99, or the bytes sent. *)
Definition run_io : TftpIO :=
  {| pread _ n off := Some (take (Z.to_nat n) (drop (Z.to_nat off) (seqZ 0 100)));
     send _ pkt := Z.of_nat (length pkt); write _ bs := Z.of_nat (length bs); malloc_ok _ := true |}.

Definition run_nodes : Remoteprocs := {| class_entries := None; attr_read _ := None; dir_entries _ := None; file_content _ := None |}.

(** Opening a file in the temporary directory gives [file]. *)
Definition run_files (file : Z) : Filesystem :=
  {| open_class := 21; attr_fd _ := 22; open_rdonly _ := -1; mkdir_tmp := true; open_tmp := 20; openat_tmp _ _ _ := file |}.

Definition run_turn (sel : Z + gset Z) (recv : Z -> received) (sock file : Z) : turn :=
  MkTurn sel recv (MkAns sock 0 0) run_nodes (run_files file) run_io.

Lemma run_io_ok : io_ok run_io.
Proof.
  split; [|done]. intros fd n off bs Hn. cbn. intros [= <-]. rewrite length_take. lia.
Qed.

(** The directories are opened as 20 and 21; a write request may get the number
    of the directory for its socket. *)
Lemma run_fresh sock file fds rv :
  sock ∉ fds -> sock < FD_SETSIZE -> file ∉ fds -> file <> sock -> file <> 20 -> 20 ∉ fds -> 21 ∉ fds ->
  (word_at (rv_buf rv) 0 = OP_RRQ -> sock <> 20 /\ sock <> 21) ->
  @fresh run_nodes (run_files file) fds rv (MkAns sock 0 0).
Proof.
  intros Hs Hb Hf Hne Hf20 H20 H21 Hrq. unfold fresh. cbn [an_sock].
  assert (forall X path flags fd evs, 20 ∉ X -> 21 ∉ X -> file ∉ X -> @translate_open run_nodes (run_files file) path flags = Ret (fd, evs) ->
    kernel_ok X evs /\ (fd < 0 \/ fd = file)) as Hk.
  { intros X path flags fd evs HX20 HX21 HXf. unfold translate_open, translate_readonly, translate_readwrite. cbn.
    destruct (has_prefix _ path); [intros [= <- <-]; cbn; by split; [|left]|]. destruct (has_prefix _ path); [|intros [= <- <-]; cbn; by split; [|left]].
    intros [= <- <-]. split; [|by right]. cbn. split; [done|]. destruct (0 <=? file); cbn; [|done]. split; [set_solver|done]. }
  destruct (Z.eqb_spec (word_at (rv_buf rv) 0) OP_RRQ) as [E|].
  - destruct (Hrq E) as [? ?]. split; [done|]. intros path fd evs He. eapply (Hk _ path O_RDONLY fd evs); [set_solver..|done].
  - intros path fd evs He. destruct (Hk fds path O_WRONLY_CREAT fd evs) as [Hko Hfd]; [done..|]. split; [done|]. intros _. split; [|done].
    unfold with_file. destruct (Z.leb_spec 0 fd); [|done]. destruct Hfd as [| ->]; [lia|]. set_solver.
Qed.

Definition silent : received := MkRecv (-1) [] (MkSq 0 0 0).

(** A request to write, from port 19. *)
Definition run_wrq : received :=
  MkRecv 29 ([0; 2] ++ bytes_of_string "/readwrite/modem.log" ++ [0] ++ bytes_of_string "octet" ++ replicate 100 0) (MkSq 42 0 19).

Definition run_writer_client : tftp_client := MkClient (MkSq 42 0 19) 8 9 0 0 0 0.

(** The reader acknowledges block [last]; other sockets have what [recv] says. *)
Definition run_recv (last : nat) (other : Z -> received) (fd : Z) : received :=
  if fd =? 6 then recv_from 128 demo_client (replicate 128 0) (ack_packet last) else other fd.

(** A request to write; then a block for the new writer and the first
    acknowledgement of the reader; a signal; then the other acknowledgements. *)
Definition run_turns : list turn :=
  [run_turn (inr {[ 3; 6 ]}) (run_recv 0 (fun _ => run_wrq)) 8 9;
   run_turn (inr {[ 6; 8 ]}) (run_recv 2 (fun _ => recv_from 516 run_writer_client (replicate 516 0) (data_packet 1 [1; 2; 3]))) (-1) 30;
   run_turn (inl EINTR) (fun _ => silent) (-1) 30;
   run_turn (inr {[ 6 ]}) (run_recv 4 (fun _ => silent)) (-1) 30;
   run_turn (inr {[ 6 ]}) (run_recv 6 (fun _ => silent)) (-1) 30].

Definition run_fuel : nat := Z.to_nat 65537.
Definition run_start : tftp_state := MkTftp [demo_client] [].
Definition run_fds : gset Z := {[ 0; 1; 2; 3; 6; 7 ]}.

Lemma run_turn_ok fuel fd fds s sel recv sock file :
  (forall data c, sel = inr data -> c ∈ readers s -> c_sock c ∈ data -> reader_packet c (recv (c_sock c))) ->
  (forall data c, sel = inr data -> c ∈ writers s -> c_sock c ∈ data -> writer_packet (recv (c_sock c))) ->
  request_ok (recv fd) ->
  (forall data s1 evs fds1, sel = inr data -> @serve_clients run_io fuel s (ready_of (run_turn sel recv sock file) data) = Ret (s1, evs) ->
    use_events fds evs = Some fds1 ->
    (sock ∉ fds1 /\ file ∉ fds1 /\ 20 ∉ fds1 /\ 21 ∉ fds1) /\ sock < FD_SETSIZE /\ file <> sock /\ file <> 20
    /\ (word_at (rv_buf (recv fd)) 0 = OP_RRQ -> sock <> 20 /\ sock <> 21)) ->
  turn_ok fuel fd fds s (run_turn sel recv sock file).
Proof.
  intros Hr Hw Hq Hf. split; [apply run_io_ok|constructor|exact Hr|exact Hw|exact Hq|].
  intros data s1 evs fds1 Hsel He Hu. destruct (Hf data s1 evs fds1 Hsel He Hu) as ((? & ? & ? & ?) & ? & ? & ? & ?). by apply run_fresh.
Qed.

(** A turn of the run: every fact about it is computed. *)
Ltac run_step :=
  split;
  [ apply run_turn_ok;
    [ intros ? ? [= <-] Hc ?; apply list_elem_of_In in Hc; cbn in Hc; first [by destruct Hc | destruct Hc as [<-|[]]; split_and!; by vm_compute]
    | intros ? ? [= <-] Hc ?; apply list_elem_of_In in Hc; cbn in Hc; first [by destruct Hc | destruct Hc as [<-|[]]; right; split; by vm_compute]
    | intros Hlen; first [by vm_compute in Hlen | split; [exists 40%nat, 41%nat; split_and!; [by vm_compute; lia..|done|done]
                                                   | intros ? ? ? Hn Hm Ho; vm_compute in Hn; injection Hn as <-; vm_compute in Hm; injection Hm as <-; vm_compute in Ho; injection Ho as <-; split; by vm_compute]]
    | first [ intros ? ? ? ? [=]; fail | intros ? ? ? ? [= <-] He Hu; vm_compute in He; injection He as <- <-; vm_compute in Hu; injection Hu as <-;
      split; [apply (bool_decide_unpack _); vm_compute; exact I|split_and!; [done|done|done|by intros Hop; vm_compute in Hop]] ] ]
  | intros ? ? ? He Hu; vm_compute in He; injection He as <- <-; vm_compute in Hu; injection Hu as <- ].

Lemma run_turns_ok : turns_ok run_fuel 3 run_fds run_start run_turns.
Proof.
  do 5 run_step. exact I.
Qed.

Lemma file_served_among_others_witness :
  exists r evs, main_loop run_fuel 3 run_start run_turns = Ret (r, evs)
    /\ match r with
       | inl s' => demo_client ∈ readers s' /\ about demo_client evs = data_event demo_client (seqZ 0 100) 16 <$> seq 0 (nblocks 16 (seqZ 0 100))
                  /\ concat (sent_payload <$> about demo_client evs) = seqZ 0 100
       | inr _ => Exists (stops 3) run_turns
       end.
Proof.
  apply (file_served_among_others {[ 0; 1; 2 ]} run_fuel 3 run_fds run_start run_turns demo_client (seqZ 0 100) 16 2 4);
    [by vm_compute| | exact run_turns_ok | by left | | lia | vm_compute; lia].
  - split; [apply (bool_decide_unpack _); vm_compute; exact I| |set_solver|repeat constructor; by vm_compute|done].
    intros x Hx. apply list_elem_of_In in Hx. cbn in Hx. split; destruct_or?; subst; apply (bool_decide_unpack _); vm_compute; exact I.
  - assert (@serves run_io demo_client (seqZ 0 100) 16 2) as Hsv.
    { split; try done; try lia. - intros count off. cbn. by rewrite !Nat2Z.id. - intros [|x pkt] Hne; [done|]. cbn. lia. }
    change ((λ i : nat, (i * 2)%nat) <$> seq 0 4) with [0; 2; 4; 6]%nat.
    repeat first [ exact (ack_done _ _ _ _)
                 | apply ack_waits; [by intros data [=]|]
                 | eapply (ack_next _ _ _ _ _ _ (replicate 128 0)); [reflexivity|apply (bool_decide_unpack _); vm_compute; exact I|rewrite length_replicate; lia|lia|reflexivity|exact Hsv|] ].
Defined.

(** The run of a client that writes, from the start of the service. *)
Definition run_from_start : list turn :=
  [run_turn (inr {[ 3 ]}) (fun _ => run_wrq) 8 9;
   run_turn (inr {[ 8 ]}) (fun _ => recv_from 516 run_writer_client (replicate 516 0) (data_packet 1 [1; 2; 3])) (-1) 30].

Lemma tftp_service_safe_witness :
  exists calls r evs fds,
    tftp_main run_fuel 3 0 (MkSockname 0 (MkSq AF_QIPCRTR 1 5) sizeof_sockaddr_qrtr) 20 run_from_start = Ret (calls, (r, evs))
    /\ use_events ({[ 3 ]} ∪ {[ 0; 1; 2 ]}) evs = Some fds
    /\ match r with
       | inl s => {[ 0; 1; 2 ]} ⊆ fds /\ NoDup (3 :: held (writers s ++ readers s))
                 /\ forall x, x ∈ 3 :: held (writers s ++ readers s) -> x ∈ fds /\ x ∉ ({[ 0; 1; 2 ]} : gset Z)
       | inr _ => Exists (stops 3) run_from_start
       end.
Proof.
  apply (tftp_service_safe {[ 0; 1; 2 ]} run_fuel 3); [by vm_compute|done|set_solver|by eexists|done|].
  do 2 run_step. exact I.
Defined.

(** A client whose socket does not fit an [fd_set] is fatal. *)
Example socket_1024_faults :
  match main_turn run_fuel 3 (MkTftp [] []) (run_turn (inr {[ 3 ]}) (fun _ => run_wrq) 1024 9) with
  | Ret (inl s, _) => watch 3 s
  | _ => Ret (∅, 0)
  end = Fault.
Proof. vm_compute. reflexivity. Qed.

(** A request for a file that does not exist leaves its socket open. *)
Example missing_file_leaks_socket :
  match main_turn run_fuel 3 (MkTftp [] []) (run_turn (inr {[ 3 ]})
    (fun _ => MkRecv 40 ([0; 1] ++ bytes_of_string "/readonly/firmware/image/x" ++ [0] ++ bytes_of_string "octet" ++ replicate 100 0) (MkSq 42 0 19)) 8 9) with
  | Ret (inl s, evs) => Some (held (writers s ++ readers s), elements <$> use_events {[ 3 ]} evs)
  | _ => None
  end = Some ([], Some [3; 8]).
Proof. vm_compute. reflexivity. Qed.
