(* ===== verification/Fir.v ===== *)
(** * The FIR filter of the audio HAL (src/audio/fir_filter.c)

    A filter over interleaved 16-bit samples that keeps the end of the last
    block as history.  Channels are processed in pairs, as the NEON version does
    with the lanes of a vector; the accumulators wrap at 32 bits.  [lanes] is the
    number of samples one load takes: 2 in the portable version, 4 with NEON,
    which uses the first two of them. *)

From Stdlib Require Import ZArith Lia.
From stdpp Require Import base list numbers strings.
From S2P Require Import Prelude.

Inductive fir_filter_mode : Type := FIR_SINGLE_FILTER | FIR_PER_CHANNEL_FILTER.

(** [coeffs] and [state] are the arrays of [int16_t]. *)
Record fir_filter : Type := MkFir
  { fir_mode : fir_filter_mode; channels : nat; filter_length : nat; buffer_size : Z;
    coeffs : list Z; state : list Z }.

(** The saturation to 16 bits comes from the library audio_utils. *)
Class AudioUtils : Type := { clamp16 : Z -> Z }.

Definition per_channel (m : fir_filter_mode) : bool :=
  match m with FIR_PER_CHANNEL_FILTER => true | FIR_SINGLE_FILTER => false end.

(** [memcpy] of [n] samples. *)
Definition read_samples (a : list Z) (off n : nat) : outcome (list Z) :=
  if (off + n <=? length a)%nat then Ret (take n (drop off a)) else Fault.
Definition write_samples (a : list Z) (off : nat) (bs : list Z) : outcome (list Z) :=
  if (off + length bs <=? length a)%nat then Ret (take off a ++ bs ++ drop (off + length bs) a) else Fault.

(** [memset(fir->state, 0, ...)] *)
Definition fir_reset (fir : fir_filter) : fir_filter :=
  MkFir (fir_mode fir) (channels fir) (filter_length fir) (buffer_size fir) (coeffs fir)
    (replicate (length (state fir)) 0).

(** [None] is a NULL result; [coeff] is the array given, [None] when it is NULL.
    The allocations are taken to succeed. *)
Definition fir_init (chans : nat) (mode : fir_filter_mode) (len input_length : nat) (coeff : option (list Z))
    : outcome (option fir_filter) :=
  match coeff with
  | None => Ret None
  | Some cs =>
      if (chans =? 0)%nat || (len =? 0)%nat then Ret None
      else
        let coeff_bytes := if per_channel mode then u32 (Z.of_nat len * Z.of_nat chans * 2) else u32 (Z.of_nat len * 2) in
        cs ← read_samples cs 0 (Z.to_nat (coeff_bytes / 2));
        let size := u32 (u32 (Z.of_nat input_length + Z.of_nat len) * Z.of_nat chans) in
        Ret (Some (fir_reset (MkFir mode chans len size cs (replicate (Z.to_nat size) 0))))
  end.

(** The loop over the taps: [offset] goes down by [channels] each turn.  The
    result is the two accumulators. *)
Fixpoint tap_loop (lanes : nat) (fir : fir_filter) (pA pB : nat) (k n offset : nat) (accA accB : Z) : outcome (Z * Z) :=
  match n with
  | O => Ret (accA, accB)
  | S n' =>
      xs ← read_samples (state fir) offset lanes;
      cA ← read_samples (coeffs fir) (pA + k) 1;
      cB ← read_samples (coeffs fir) (pB + k) 1;
      tap_loop lanes fir pA pB (S k) n' (offset - channels fir)
        (s32 (accA + nth 0 xs 0 * nth 0 cA 0)) (s32 (accB + nth 1 xs 0 * nth 0 cB 0))
  end.

Section process.
Context `{AU : AudioUtils}.

(** The loop over the samples of a pair of channels: [out] is the index of
    [p_output] in [output]. *)
Fixpoint sample_loop (lanes : nat) (fir : fir_filter) (pA pB ch n offset out : nat) (output : list Z) : outcome (list Z) :=
  match n with
  | O => Ret output
  | S n' =>
      '(accA, accB) ← tap_loop lanes fir pA pB 0 (filter_length fir) offset 0 0;
      output ← write_samples output out [clamp16 (Z.shiftr accA 15)];
      output ← (if (ch <? channels fir - 1)%nat then write_samples output (out + 1) [clamp16 (Z.shiftr accB 15)]
                else Ret output);
      sample_loop lanes fir pA pB ch n' (offset + channels fir) (out + channels fir) output
  end.

(** The loop over the pairs, [n] turns at most. *)
Fixpoint pair_loop (lanes : nat) (fir : fir_filter) (second : bool) (samples start_offset n ch pA pB : nat) (output : list Z)
    : outcome (list Z) :=
  match n with
  | O => Ret output
  | S n' =>
      if (ch <? channels fir)%nat then
        output ← sample_loop lanes fir pA pB ch samples (start_offset + ch) ch output;
        let step := if second then (2 * filter_length fir)%nat else 0%nat in
        pair_loop lanes fir second samples start_offset n' (ch + 2) (pA + step) (pB + step) output
      else Ret output
  end.

(** The filter with its new state, and the output. *)
Definition fir_process_interleaved (lanes : nat) (fir : fir_filter) (input output : list Z) (samples : nat)
    : outcome (fir_filter * list Z) :=
  let start_offset := ((filter_length fir - 1) * channels fir)%nat in
  block ← read_samples input 0 (samples * channels fir);
  st ← write_samples (state fir) start_offset block;
  let fir := MkFir (fir_mode fir) (channels fir) (filter_length fir) (buffer_size fir) (coeffs fir) st in
  let second := (1 <? channels fir)%nat && per_channel (fir_mode fir) in
  output ← pair_loop lanes fir second samples start_offset (channels fir) 0 0 (if second then filter_length fir else 0%nat) output;
  hist ← read_samples st (samples * channels fir) start_offset;
  st ← write_samples st 0 hist;
  Ret (MkFir (fir_mode fir) (channels fir) (filter_length fir) (buffer_size fir) (coeffs fir) st, output).

End process.
