(* ===== verification/FirProofs.v ===== *)
(** * The FIR filter computes a convolution

    The paired, interleaved loops of Fir against the definition of a filter:
    block by block, and for a whole stream cut into blocks. *)

From Stdlib Require Import ZArith Lia.
From stdpp Require Import base list numbers strings.
From S2P Require Import Prelude Fir.

Section fir_proofs.
Context `{AU : AudioUtils}.

Notation sample a i := (List.nth i a 0%Z).

(** ** The reference *)

(** The sum over the taps of channel [c], for the sample at [base]. *)
Definition taps (coef : nat -> nat -> Z) (C L : nat) (sig : list Z) (c base : nat) : Z :=
  foldr Z.add 0 ((fun k => sample sig (base - k * C) * coef c k) <$> seq 0 L).

(** The sample [i] of the interleaved output: [sig] is the history of [L - 1]
    frames and the input. *)
Definition fir_at (coef : nat -> nat -> Z) (C L : nat) (sig : list Z) (i : nat) : Z :=
  clamp16 (Z.shiftr (s32 (taps coef C L sig (i mod C) ((L - 1) * C + i))) 15).

Definition fir_ref (coef : nat -> nat -> Z) (C L : nat) (hist input : list Z) : list Z :=
  fir_at coef C L (hist ++ input) <$> seq 0 (length input).

(** ** Arrays *)

Lemma read_ret (a : list Z) off n : (off + n <= length a)%nat -> read_samples a off n = Ret (take n (drop off a)).
Proof. intros. unfold read_samples. by destruct (Nat.leb_spec (off + n) (length a)); [|lia]. Qed.

Lemma write_ret (a : list Z) off bs :
  (off + length bs <= length a)%nat -> write_samples a off bs = Ret (take off a ++ bs ++ drop (off + length bs) a).
Proof. intros. unfold write_samples. by destruct (Nat.leb_spec (off + length bs) (length a)); [|lia]. Qed.

Lemma write_one (a : list Z) i v : (i < length a)%nat -> write_samples a i [v] = Ret (<[i := v]> a).
Proof.
  intros Hi. rewrite write_ret by (cbn; lia). f_equal. rewrite insert_take_drop by done.
  cbn [length app]. by rewrite Nat.add_1_r.
Qed.

Lemma sample_read (a : list Z) off n i : (i < n)%nat -> sample (take n (drop off a)) i = sample a (off + i).
Proof.
  intros Hi. rewrite !nth_lookup. by rewrite lookup_take_lt, lookup_drop by done.
Qed.

Lemma sample_drop (a : list Z) off i : sample (drop off a) i = sample a (off + i).
Proof. rewrite !nth_lookup. by rewrite lookup_drop. Qed.

(** ** The loops *)

Lemma s32_add a b : s32 (s32 a + b) = s32 (a + b).
Proof.
  unfold s32. assert (forall z, u32 ((if u32 z <? 2147483648 then u32 z else u32 z - 4294967296) + b) = u32 (z + b)) as H.
  { intros z. unfold u32. destruct (_ <? _).
    - by rewrite Zplus_mod_idemp_l.
    - replace (z mod 4294967296 - 4294967296 + b) with (z mod 4294967296 + b + (-1) * 4294967296) by lia.
      by rewrite Z_mod_plus_full, Zplus_mod_idemp_l. }
  by rewrite H.
Qed.

(** The part of the sum over [n] taps from [k] on, going down from [offset]. *)
Definition part (fir : fir_filter) (lane p k n offset : nat) : Z :=
  foldr Z.add 0 ((fun j => sample (state fir) (offset - j * channels fir + lane) * sample (coeffs fir) (p + (k + j))) <$> seq 0 n).

Lemma part_S fir lane p k n offset :
  part fir lane p k (S n) offset
  = sample (state fir) (offset + lane) * sample (coeffs fir) (p + k) + part fir lane p (S k) n (offset - channels fir).
Proof.
  unfold part. change (seq 0 (S n)) with (0%nat :: seq 1 n). cbn [fmap list_fmap foldr]. f_equal.
  - f_equal; f_equal; lia.
  - rewrite <- (fmap_S_seq 0 n), <- list_fmap_compose. f_equal. apply list_fmap_ext. intros i j _. cbn.
    f_equal; f_equal; lia.
Qed.

Lemma tap_loop_sum lanes fir pA pB : forall n k offset a b,
  (2 <= lanes)%nat -> ((n - 1) * channels fir <= offset)%nat -> (offset + lanes <= length (state fir))%nat ->
  (pA + k + n <= length (coeffs fir))%nat -> (pB + k + n <= length (coeffs fir))%nat ->
  tap_loop lanes fir pA pB k n offset (s32 a) (s32 b)
  = Ret (s32 (a + part fir 0 pA k n offset), s32 (b + part fir 1 pB k n offset)).
Proof.
  induction n as [|n IH]; intros k offset a b Hl Ho Hs HA HB; cbn [tap_loop].
  { unfold part. cbn. by rewrite !Z.add_0_r. }
  rewrite (read_ret (state fir)), !(read_ret (coeffs fir)) by lia. cbn [mbind outcome_bind].
  rewrite !sample_read by lia. rewrite !s32_add.
  rewrite IH; [|lia|destruct n; cbn in *; lia|lia|lia|lia]. rewrite !part_S. do 2 f_equal; f_equal.
  - rewrite !Nat.add_0_r. lia.
  - rewrite !Nat.add_0_r. lia.
Qed.

(** ** A block *)

(** Where the coefficients of a channel are. *)
Definition second_set (fir : fir_filter) : bool := (1 <? channels fir)%nat && per_channel (fir_mode fir).
Definition coef_off (fir : fir_filter) (c : nat) : nat := if second_set fir then (c * filter_length fir)%nat else 0%nat.
Definition coef (fir : fir_filter) (c k : nat) : Z := sample (coeffs fir) (coef_off fir c + k).

Section block.
Context (lanes : nat) (fir : fir_filter) (N : nat).
Let C := channels fir.
Let L := filter_length fir.
Context (HC : (0 < C)%nat) (HL : (0 < L)%nat) (Hlanes : (2 <= lanes)%nat).
(** The loads and the coefficients of every pair are inside the arrays. *)
Context (Hroom : forall ch, (ch < C)%nat -> Nat.Even ch -> ((L - 1 + N) * C + ch + lanes <= length (state fir) + C)%nat).
Context (Hcoef : forall ch, (ch < C)%nat -> Nat.Even ch ->
  (coef_off fir ch + L <= length (coeffs fir))%nat /\ (coef_off fir (ch + 1) + L <= length (coeffs fir))%nat).

Notation v := (fir_at (coef fir) C L (state fir)).

Lemma taps_part lane c i :
  (lane <= 1)%nat -> taps (coef fir) C L (state fir) c ((L - 1) * C + i + lane)
  = part fir lane (coef_off fir c) 0 L ((L - 1) * C + i).
Proof.
  intros Hlane. unfold taps, part, coef. f_equal. apply list_fmap_ext. intros k j Hj. apply lookup_seq in Hj as [-> Hk]. cbn.
  fold C. f_equal. f_equal. assert (k * C <= (L - 1) * C)%nat by (apply Nat.mul_le_mono_r; lia). lia.
Qed.

(** The two outputs of a turn. *)
Lemma tap_loop_at ch s :
  (ch < C)%nat -> Nat.Even ch -> (s < N)%nat ->
  tap_loop lanes fir (coef_off fir ch) (coef_off fir (ch + 1)) 0 L ((L - 1) * C + ch + s * C) 0 0
  = Ret (s32 (taps (coef fir) C L (state fir) ch ((L - 1) * C + (s * C + ch))),
         s32 (taps (coef fir) C L (state fir) (ch + 1) ((L - 1) * C + (s * C + (ch + 1))))).
Proof.
  intros Hch He Hs. destruct (Hcoef ch Hch He) as [HA HB]. specialize (Hroom ch Hch He).
  change (Z.of_nat 0) with 0. change 0 with (s32 0). rewrite tap_loop_sum; [|lia|fold C L; lia|fold C L; nia|fold C L; lia..].
  cbn [Z.add]. pose proof (taps_part 0 ch (s * C + ch) ltac:(lia)) as T0. pose proof (taps_part 1 (ch + 1) (s * C + ch) ltac:(lia)) as T1.
  rewrite Nat.add_0_r in T0. replace ((L - 1) * C + (s * C + (ch + 1)))%nat with ((L - 1) * C + (s * C + ch) + 1)%nat by lia.
  rewrite T0, T1. change (s32 0) with 0. by replace ((L - 1) * C + ch + s * C)%nat with ((L - 1) * C + (s * C + ch))%nat by lia.
Qed.

Lemma mod_in_frame s c : (c < C)%nat -> ((s * C + c) mod C = c)%nat.
Proof. intros Hc. rewrite Nat.add_comm, Nat.Div0.mod_add. by apply Nat.mod_small. Qed.

(** The samples of the channels [ch] and [ch + 1] from frame [s] on. *)
Definition touched (ch s i : nat) : bool :=
  (s * C <=? i)%nat && (i <? N * C)%nat && ((i mod C =? ch)%nat || (i mod C =? ch + 1)%nat).

Lemma frame_cases s i : (s * C <= i)%nat -> ((i - s * C < C)%nat /\ i = (s * C + (i - s * C))%nat) \/ (S s * C <= i)%nat.
Proof. intros. destruct (decide (i - s * C < C)%nat); [left; lia|right; cbn; lia]. Qed.

Lemma sample_loop_spec ch n : forall s output,
  (ch < C)%nat -> Nat.Even ch -> (s + n = N)%nat -> (N * C <= length output)%nat ->
  exists output', sample_loop lanes fir (coef_off fir ch) (coef_off fir (ch + 1)) ch n ((L - 1) * C + ch + s * C) (ch + s * C) output
      = Ret output'
    /\ length output' = length output
    /\ forall i, output' !! i = if touched ch s i then Some (v i) else output !! i.
Proof.
  induction n as [|n IH]; intros s output Hch He Hsn Hlen; cbn [sample_loop].
  { exists output. split_and!; [done|done|]. intros i. unfold touched. replace s with N by lia.
    destruct (Nat.leb_spec (N * C) i), (Nat.ltb_spec i (N * C)); try lia; done. }
  assert ((s + 1) * C <= N * C)%nat as HsC by (apply Nat.mul_le_mono_r; lia).
  rewrite tap_loop_at by (done || lia). cbn [mbind outcome_bind]. fold C.
  rewrite write_one by lia. cbn [mbind outcome_bind].
  set (vA := clamp16 _). set (out1 := <[(ch + s * C)%nat := vA]> output).
  assert (vA = v (s * C + ch)) as HvA by (unfold vA, fir_at; by rewrite mod_in_frame).
  assert (exists out2, (if (ch <? C - 1)%nat
      then write_samples out1 (ch + s * C + 1) [clamp16 (Z.shiftr (s32 (taps (coef fir) C L (state fir) (ch + 1) ((L - 1) * C + (s * C + (ch + 1))))) 15)]
      else Ret out1) = Ret out2 /\ length out2 = length output
    /\ forall i, out2 !! i = if ((i =? s * C + ch) || ((i =? s * C + (ch + 1)) && (ch + 1 <? C)))%nat then Some (v i) else output !! i)
    as (out2 & -> & Hl2 & Hv2).
  { assert (length out1 = length output) as Hl1 by (unfold out1; by rewrite length_insert).
    assert (forall i, out1 !! i = if (i =? s * C + ch)%nat then Some (v i) else output !! i) as Hv1.
    { intros i. unfold out1. destruct (Nat.eqb_spec i (s * C + ch)) as [->|Hne].
      - rewrite HvA, (Nat.add_comm ch). apply list_lookup_insert_eq. lia.
      - apply list_lookup_insert_ne. lia. }
    destruct (Nat.ltb_spec ch (C - 1)) as [Hb|Hb]; destruct (Nat.ltb_spec (ch + 1) C) as [Hb'|Hb']; try lia.
    - rewrite write_one by lia. eexists. split; [done|]. split; [by rewrite length_insert|]. intros i. rewrite andb_true_r.
      destruct (Nat.eqb_spec i (s * C + (ch + 1))) as [->|Hne].
      + rewrite orb_true_r. replace (ch + s * C + 1)%nat with (s * C + (ch + 1))%nat by lia.
        rewrite list_lookup_insert_eq by lia. unfold fir_at. by rewrite mod_in_frame.
      + rewrite orb_false_r, list_lookup_insert_ne by lia. apply Hv1.
    - exists out1. split_and!; [done|done|]. intros i. rewrite andb_false_r, orb_false_r. apply Hv1. }
  cbn [mbind outcome_bind].
  destruct (IH (S s) out2 Hch He ltac:(lia) ltac:(lia)) as (out3 & Hr & Hl3 & Hv3).
  replace ((L - 1) * C + ch + s * C + C)%nat with ((L - 1) * C + ch + S s * C)%nat by (cbn; lia).
  replace (ch + s * C + C)%nat with (ch + S s * C)%nat by (cbn; lia).
  exists out3. split_and!; [done|congruence|]. intros i. rewrite Hv3, Hv2.
  (* the samples of frame [s], those behind it, and those before *)
  unfold touched. destruct (Nat.leb_spec (s * C) i) as [Hi|Hi].
  - destruct (frame_cases s i Hi) as [[Hlt Heq]|Hge].
    + set (c := (i - s * C)%nat) in *. rewrite Heq, mod_in_frame by done.
      destruct (Nat.leb_spec (S s * C) (s * C + c)) as [Hbad|_]; [cbn in Hbad; lia|]. cbn [andb].
      destruct (Nat.ltb_spec (s * C + c) (N * C)); [|lia]. cbn [andb].
      destruct (Nat.eqb_spec c ch), (Nat.eqb_spec c (ch + 1)), (Nat.eqb_spec (s * C + c) (s * C + ch)),
        (Nat.eqb_spec (s * C + c) (s * C + (ch + 1))), (Nat.ltb_spec (ch + 1) C); try lia; done.
    + destruct (Nat.leb_spec (S s * C) i); [|lia]. cbn [andb].
      destruct (_ && _); [done|].
      destruct (Nat.eqb_spec i (s * C + ch)); [cbn in Hge; lia|].
      destruct (Nat.eqb_spec i (s * C + (ch + 1))), (Nat.ltb_spec (ch + 1) C); try done. cbn in Hge; lia.
  - destruct (Nat.leb_spec (S s * C) i) as [Hbad|_]; [cbn in Hbad; lia|]. cbn [andb].
    destruct (Nat.eqb_spec i (s * C + ch)); [lia|]. destruct (Nat.eqb_spec i (s * C + (ch + 1))); [lia|]. done.
Qed.

Lemma coef_off_step ch :
  (coef_off fir ch + (if second_set fir then 2 * L else 0) = coef_off fir (ch + 2))%nat.
Proof. unfold coef_off. fold L. destruct (second_set fir); lia. Qed.

Lemma pair_loop_spec n : forall ch output,
  (C <= ch + 2 * n)%nat -> Nat.Even ch -> (N * C <= length output)%nat ->
  exists output', pair_loop lanes fir (second_set fir) N ((L - 1) * C) n ch (coef_off fir ch) (coef_off fir (ch + 1)) output
      = Ret output'
    /\ length output' = length output
    /\ forall i, output' !! i = if (i <? N * C)%nat && (ch <=? i mod C)%nat then Some (v i) else output !! i.
Proof.
  assert (forall ch i, (C <= ch)%nat -> ((i <? N * C)%nat && (ch <=? i mod C)%nat) = false) as Hout.
  { intros ch i Hc. pose proof (Nat.mod_upper_bound i C ltac:(lia)).
    destruct (Nat.leb_spec ch (i mod C)); [lia|]. by rewrite andb_false_r. }
  induction n as [|n IH]; intros ch output Hn He Hlen; cbn [pair_loop].
  { exists output. split_and!; [done|done|]. intros i. rewrite Hout by lia. done. }
  fold C L. destruct (Nat.ltb_spec ch C) as [Hch|Hch].
  2:{ exists output. split_and!; [done|done|]. intros i. by rewrite Hout. }
  destruct (sample_loop_spec ch N 0 output Hch He ltac:(lia) Hlen) as (out1 & Hr & Hl1 & Hv1).
  rewrite !Nat.add_0_r in Hr. rewrite Hr. cbn [mbind outcome_bind].
  rewrite coef_off_step. replace (coef_off fir (ch + 1) + (if second_set fir then 2 * L else 0))%nat with (coef_off fir (ch + 2 + 1)).
  2:{ rewrite (coef_off_step (ch + 1)). f_equal. lia. }
  destruct (IH (ch + 2)%nat out1) as (out2 & Hr2 & Hl2 & Hv2); [lia|destruct He as [q ->]; exists (q + 1)%nat; lia|lia|].
  exists out2. split_and!; [done|congruence|]. intros i. rewrite Hv2, Hv1. unfold touched. cbn [Nat.mul Nat.leb andb].
  destruct (i <? N * C)%nat; [|done]. cbn [andb].
  destruct (Nat.leb_spec (ch + 2) (i mod C)), (Nat.leb_spec ch (i mod C)), (Nat.eqb_spec (i mod C) ch), (Nat.eqb_spec (i mod C) (ch + 1));
    try lia; done.
Qed.

End block.

(** ** Filters *)

(** A filter made by [fir_init] for blocks of up to [I] frames; with a set of
    coefficients per channel the number of channels is even. *)
Record fir_ok (fir : fir_filter) (I : nat) : Prop := MkFirOk
  { fo_channels : (0 < channels fir)%nat;
    fo_length : (0 < filter_length fir)%nat;
    fo_state : length (state fir) = ((I + filter_length fir) * channels fir)%nat;
    fo_coeffs : length (coeffs fir) = if per_channel (fir_mode fir) then (filter_length fir * channels fir)%nat else filter_length fir;
    fo_even : per_channel (fir_mode fir) = true -> channels fir = 1%nat \/ Nat.Even (channels fir) }.

Definition history (fir : fir_filter) : list Z := take ((filter_length fir - 1) * channels fir) (state fir).

Lemma fir_ok_coefs fir I ch :
  fir_ok fir I -> (ch < channels fir)%nat -> Nat.Even ch ->
  (coef_off fir ch + filter_length fir <= length (coeffs fir))%nat
  /\ (coef_off fir (ch + 1) + filter_length fir <= length (coeffs fir))%nat.
Proof.
  intros [HC HL _ Hc Heven] Hch He. unfold coef_off, second_set. rewrite Hc.
  destruct (per_channel (fir_mode fir)); [|rewrite andb_false_r; lia]. rewrite andb_true_r.
  destruct (Nat.ltb_spec 1 (channels fir)) as [Hgt|Hle].
  - destruct (Heven eq_refl) as [?|[q Hq]]; [lia|]. destruct He as [r Hr]. assert (ch + 2 <= channels fir)%nat by lia. nia.
  - replace (channels fir) with 1%nat by lia. lia.
Qed.

(** Same signal, same samples. *)
Lemma taps_ext coef C L sig sig' c base :
  (forall k, (k < L)%nat -> sample sig (base - k * C) = sample sig' (base - k * C)) ->
  taps coef C L sig c base = taps coef C L sig' c base.
Proof.
  intros H. unfold taps. f_equal. apply list_fmap_ext. intros i k Hk. apply lookup_seq in Hk as [-> Hlt]. by rewrite H.
Qed.

Lemma fir_at_prefix coef C L sig rest i :
  ((L - 1) * C + i < length sig)%nat -> fir_at coef C L (sig ++ rest) i = fir_at coef C L sig i.
Proof.
  intros Hi. unfold fir_at. do 3 f_equal. apply taps_ext. intros k Hk. apply app_nth1. lia.
Qed.

Lemma process_block lanes fir I input output N :
  fir_ok fir I -> (N <= I)%nat -> length input = (N * channels fir)%nat -> (N * channels fir <= length output)%nat ->
  (2 <= lanes <= 4)%nat -> (lanes = 2 \/ 2 <= channels fir)%nat ->
  exists st, fir_process_interleaved lanes fir input output N
    = Ret (MkFir (fir_mode fir) (channels fir) (filter_length fir) (buffer_size fir) (coeffs fir) st,
           fir_ref (coef fir) (channels fir) (filter_length fir) (history fir) input ++ drop (N * channels fir) output)
  /\ length st = length (state fir)
  /\ take ((filter_length fir - 1) * channels fir) st = drop (N * channels fir) (history fir ++ input).
Proof.
  intros Hok HN Hin Hout Hlanes Hwide. pose proof Hok as [HC HL Hst Hco Heven].
  set (C := channels fir) in *. set (L := filter_length fir) in *.
  assert ((L - 1) * C + N * C + C <= (I + L) * C)%nat as Hfit by nia.
  unfold fir_process_interleaved. fold C L. rewrite read_ret by lia. cbn [mbind outcome_bind].
  rewrite drop_0, take_ge by lia. rewrite write_ret by (rewrite Hin, Hst; lia). cbn [mbind outcome_bind].
  set (st := take ((L - 1) * C) (state fir) ++ input ++ drop ((L - 1) * C + length input) (state fir)).
  assert (length st = length (state fir)) as Hlst.
  { unfold st. rewrite !length_app, length_take, length_drop. lia. }
  assert (length (history fir) = ((L - 1) * C)%nat) as Hlh by (unfold history; rewrite length_take; fold C L; lia).
  assert (st = (history fir ++ input) ++ drop ((L - 1) * C + length input) (state fir)) as Hsplit.
  { unfold st, history. by rewrite <- app_assoc. }
  set (fir' := MkFir (fir_mode fir) C L (buffer_size fir) (coeffs fir) st).
  change ((1 <? channels fir')%nat && per_channel (fir_mode fir')) with (second_set fir').
  destruct (pair_loop_spec lanes fir' N HC HL ltac:(lia)) with (n := C) (ch := 0%nat) (output := output) as (out' & Hr & Hl' & Hv').
  { intros ch Hch [q Hq]. cbn [channels filter_length state fir']. rewrite Hlst, Hst.
    replace ((L - 1 + N) * C)%nat with ((L - 1) * C + N * C)%nat by lia. cbn in Hch. nia. }
  { intros ch Hch He. by apply (fir_ok_coefs fir I). }
  { change (channels fir') with C. lia. }
  { by exists 0%nat. }
  { exact Hout. }
  assert (coef_off fir' 0 = 0%nat /\ coef_off fir' (0 + 1) = if second_set fir' then L else 0%nat) as [Hoff0 Hoff1].
  { unfold coef_off. cbn. destruct (second_set fir'); lia. }
  rewrite Hoff0, Hoff1 in Hr. change (channels fir') with C in *. change (filter_length fir') with L in *.
  rewrite Hr. cbn [mbind outcome_bind].
  rewrite read_ret by (rewrite Hlst, Hst; lia). cbn [mbind outcome_bind].
  rewrite write_ret by (rewrite length_take, length_drop; lia). cbn [mbind outcome_bind].
  eexists. split; [|split].
  - do 3 f_equal. apply list_eq. intros i. rewrite Hv'. cbn [channels filter_length state fir' Nat.leb]. rewrite andb_true_r.
    unfold fir_ref. rewrite Hin. destruct (Nat.ltb_spec i (N * C)) as [Hi|Hi].
    + rewrite lookup_app_l by (rewrite length_fmap, length_seq; lia).
      rewrite list_lookup_fmap, lookup_seq_lt by done. cbn. f_equal. rewrite Hsplit. apply fir_at_prefix.
      rewrite length_app, Hlh. lia.
    + rewrite lookup_app_r by (rewrite length_fmap, length_seq; lia). rewrite length_fmap, length_seq, lookup_drop. f_equal. lia.
  - rewrite !length_app, length_take, length_take, !length_drop. lia.
  - cbn [take app]. rewrite take_0. cbn [app]. rewrite take_app_le by (rewrite length_take, length_drop; lia).
    rewrite take_take, Nat.min_id. rewrite Hsplit, drop_app_le by (rewrite length_app, Hlh; lia).
    rewrite take_app_le by (rewrite length_drop, length_app, Hlh; lia). apply take_ge. rewrite length_drop, length_app, Hlh. lia.
Qed.

(** ** Streams *)

Lemma fir_at_drop coef C L sig q i :
  (0 < L)%nat -> fir_at coef C L (drop (q * C) sig) i = fir_at coef C L sig (q * C + i).
Proof.
  intros HL. unfold fir_at. assert ((q * C + i) mod C = i mod C)%nat as ->.
  { rewrite Nat.add_comm. apply Nat.Div0.mod_add. }
  do 3 f_equal. unfold taps. f_equal. apply list_fmap_ext. intros j k Hk. apply lookup_seq in Hk as [-> Hlt]. cbn.
  rewrite sample_drop. do 2 f_equal. assert (j * C <= (L - 1) * C)%nat by (apply Nat.mul_le_mono_r; lia). lia.
Qed.

(** A block first, the rest with the history it leaves. *)
Lemma fir_ref_app coef C L hist b rest q :
  (0 < L)%nat -> length hist = ((L - 1) * C)%nat -> length b = (q * C)%nat ->
  fir_ref coef C L hist (b ++ rest) = fir_ref coef C L hist b ++ fir_ref coef C L (drop (q * C) (hist ++ b)) rest.
Proof.
  intros HL Hh Hb. unfold fir_ref. rewrite length_app, seq_app, fmap_app. f_equal.
  - apply list_fmap_ext. intros j i Hi. apply lookup_seq in Hi as [-> Hlt]. rewrite app_assoc. apply fir_at_prefix.
    rewrite length_app. cbn. lia.
  - cbn [Nat.add]. rewrite Hb, <- (Nat.add_0_r (q * C)) at 1. rewrite <- fmap_add_seq, <- list_fmap_compose.
    apply list_fmap_ext. intros j i _. cbn. rewrite <- fir_at_drop by done.
    rewrite app_assoc. by rewrite drop_app_le by (rewrite length_app; lia).
Qed.

(** Blocks one after the other, each into a buffer of [junk]. *)
Fixpoint fir_stream (lanes : nat) (junk : Z) (fir : fir_filter) (blocks : list (list Z)) : outcome (fir_filter * list Z) :=
  match blocks with
  | [] => Ret (fir, [])
  | b :: blocks' =>
      '(fir, out) ← fir_process_interleaved lanes fir b (replicate (length b) junk) (length b / channels fir);
      '(fir, outs) ← fir_stream lanes junk fir blocks';
      Ret (fir, out ++ outs)
  end.

Definition block_ok (C I : nat) (b : list Z) : Prop := exists N, (N <= I)%nat /\ length b = (N * C)%nat.

Lemma fir_stream_ref lanes junk I blocks : forall fir,
  fir_ok fir I -> (2 <= lanes <= 4)%nat -> (lanes = 2 \/ 2 <= channels fir)%nat -> Forall (block_ok (channels fir) I) blocks ->
  exists fir', fir_stream lanes junk fir blocks
    = Ret (fir', fir_ref (coef fir) (channels fir) (filter_length fir) (history fir) (concat blocks)).
Proof.
  induction blocks as [|b blocks IH]; intros fir Hok Hlanes Hwide Hall; cbn [fir_stream concat]; [by exists fir|].
  apply list.Forall_cons in Hall as [(N & HN & Hb) Hall]. pose proof Hok as [HC HL Hst Hco Heven].
  rewrite Hb, Nat.div_mul by lia.
  destruct (process_block lanes fir I b (replicate (N * channels fir) junk) N) as (st & -> & Hlst & Hhist);
    [done|done|done|by rewrite length_replicate|done|done|].
  cbn [mbind outcome_bind]. set (fir1 := MkFir _ _ _ _ _ st).
  destruct (IH fir1) as (fir' & ->); [split; cbn; (done || congruence)|done|done|done|].
  cbn [mbind outcome_bind]. exists fir'. do 2 f_equal.
  rewrite drop_ge by (rewrite length_replicate; lia). rewrite app_nil_r.
  rewrite (fir_ref_app _ _ _ _ b (concat blocks) N); [|done|unfold history; rewrite length_take; nia|done].
  f_equal. unfold fir1 at 4. unfold history at 1. cbn [filter_length channels state]. by rewrite Hhist.
Qed.

Lemma fir_ref_ext coef coef' C L hist input :
  (0 < C)%nat -> (forall c k, (c < C)%nat -> (k < L)%nat -> coef c k = coef' c k) ->
  fir_ref coef C L hist input = fir_ref coef' C L hist input.
Proof.
  intros HC H. unfold fir_ref. apply list_fmap_ext. intros j i _. unfold fir_at, taps. do 4 f_equal.
  apply list_fmap_ext. intros k x Hx. apply lookup_seq in Hx as [-> Hlt]. f_equal. apply H; [|done].
  apply Nat.mod_upper_bound. lia.
Qed.

(** C34: The filter computes the convolution of the whole stream with its
    coefficients.  However the stream is cut into blocks of at most the length
    the filter was made for, with the portable and with the NEON loads, the
    outputs put together are, for every channel and sample, the sum over the
    taps, in 32 bits, scaled down and put through [clamp16] of audio_utils; the
    time before the stream counts as silence. *)
Theorem fir_stream_convolves lanes junk C mode L I cs blocks :
  (0 < C)%nat -> (0 < L)%nat -> 2 * ((Z.of_nat I + Z.of_nat L) * Z.of_nat C) < 4294967296 ->
  (if per_channel mode then L * C else L)%nat = length cs -> (per_channel mode = true -> C = 1%nat \/ Nat.Even C) ->
  lanes = 2%nat \/ lanes = 4%nat /\ (2 <= C)%nat -> Forall (block_ok C I) blocks ->
  exists fir fir', fir_init C mode L I (Some cs) = Ret (Some fir)
    /\ fir_stream lanes junk fir blocks
       = Ret (fir', fir_ref (fun c k => sample cs ((if per_channel mode then c * L else 0) + k)) C L
                      (replicate ((L - 1) * C) 0) (concat blocks)).
Proof.
  intros HC HL Hsize Hcs Heven Hlanes Hall. unfold fir_init.
  destruct (Nat.eqb_spec C 0); [lia|]. destruct (Nat.eqb_spec L 0); [lia|]. cbn [orb].
  assert (Z.to_nat ((if per_channel mode then u32 (Z.of_nat L * Z.of_nat C * 2) else u32 (Z.of_nat L * 2)) / 2) = length cs) as Hcount.
  { rewrite <- Hcs. destruct (per_channel mode); rewrite u32_small by nia; rewrite Z.div_mul by lia; lia. }
  rewrite Hcount, read_ret by lia. cbn [mbind outcome_bind]. rewrite drop_0, firstn_all.
  assert (u32 (u32 (Z.of_nat I + Z.of_nat L) * Z.of_nat C) = Z.of_nat ((I + L) * C)) as Hbs.
  { rewrite (u32_small (Z.of_nat I + Z.of_nat L)) by nia. rewrite u32_small by nia. lia. }
  rewrite Hbs, Nat2Z.id. unfold fir_reset. cbn [fir_mode channels filter_length buffer_size coeffs state].
  rewrite length_replicate. set (fir := MkFir _ _ _ _ _ _).
  destruct (fir_stream_ref lanes junk I blocks fir) as (fir' & Hr); [|lia|cbn; lia|done|].
  { split; cbn; [done|done|by rewrite length_replicate|by rewrite <- Hcs|done]. }
  exists fir, fir'. split; [done|]. rewrite Hr. do 2 f_equal.
  assert (history fir = replicate ((L - 1) * C) 0) as ->.
  { unfold history, fir. cbn [filter_length channels state]. rewrite take_replicate. f_equal. nia. }
  apply fir_ref_ext; [done|]. intros c k Hc Hk. unfold coef, coef_off, second_set, fir. cbn [channels fir_mode filter_length coeffs].
  destruct (per_channel mode); [|by rewrite andb_false_r]. rewrite andb_true_r.
  destruct (Nat.ltb_spec 1 C); [done|]. by replace c with 0%nat by lia.
Qed.

End fir_proofs.

Definition saturating : AudioUtils := {| clamp16 z := Z.max (-32768) (Z.min z 32767) |}.

(** Two channels with their own two taps, in blocks of two frames and one. *)
Lemma fir_stream_convolves_witness :
  exists fir fir', fir_init 2 FIR_PER_CHANNEL_FILTER 2 4 (Some [16384; 8192; 32767; 0]) = Ret (Some fir)
    /\ @fir_stream saturating 4 7 fir [[1000; 2000; 3000; 4000]; [5000; -32768]] = Ret (fir', [500; 1999; 1750; 3999; 3250; -32767]).
Proof.
  apply (@fir_stream_convolves saturating 4 7 2 FIR_PER_CHANNEL_FILTER 2 4 [16384; 8192; 32767; 0] [[1000; 2000; 3000; 4000]; [5000; -32768]]).
  - lia.
  - lia.
  - reflexivity.
  - reflexivity.
  - intros _. right. exists 1%nat. reflexivity.
  - right. lia.
  - repeat constructor; [exists 2%nat|exists 1%nat]; cbn; lia.
Defined.
