(* ===== verification/Lights.v ===== *)
(** * The lights HAL (src/liblight/lights.c)

    The backlight is set by writing a number, computed from an RGB colour, to a
    file of sysfs. *)

From Stdlib Require Import ZArith Lia.
From stdpp Require Import base list numbers strings.
From S2P Require Import Prelude CLib.

(** ** Writing a number *)

Definition LCD_FILE : list Z := bytes_of_string "/sys/class/backlight/wled/brightness".

(** The calls: [open] gives a descriptor or -1, [write] a count or -1; [errno_]
    is [errno] after a call that failed. *)
Class LightFiles : Type :=
  { lf_open : list Z -> Z; lf_write : Z -> list Z -> Z; lf_errno : Z }.

Section lights.
Context `{LightFiles}.

(** The return code and what was written; the buffer has 20 bytes. *)
Definition write_int (path : list Z) (value : Z) : Z * option (list Z) :=
  let fd := lf_open path in
  if 0 <=? fd then
    let buffer := sprintf_d value ++ [10] in
    if strlen buffer <? 20 then
      (if lf_write fd buffer =? -1 then - lf_errno else 0, Some buffer)
    else (EINVAL, None)
  else (- lf_errno, None).

(** ** Colours *)

(** [color] is the [unsigned int] of [struct light_state_t]. *)
Definition rgb_to_brightness (color : Z) : Z :=
  let color := Z.land color 16777215 in
  Z.shiftr (77 * Z.land (Z.shiftr color 16) 255 + 150 * Z.land (Z.shiftr color 8) 255 + 29 * Z.land color 255) 8.

(** [dev] says whether the pointer is not NULL; the result of [write_int] is not
    looked at. *)
Definition set_light_backlight (dev : bool) (color : Z) : Z * option (list Z) :=
  if negb dev then (-1, None)
  else (0, snd (write_int LCD_FILE (Z.shiftl (rgb_to_brightness color) 4))).

(** [rgb_brightness_ratio] for the value of the property; nothing reads it. *)
Definition init_globals (color_id_prop : list Z) : Z :=
  if decide (color_id_prop = bytes_of_string "GRA00") then 25
  else if decide (color_id_prop = bytes_of_string "SLV00") then 15
  else if decide (color_id_prop = bytes_of_string "BLU00") then 15
  else 20.

(** ** Properties *)

Definition red (color : Z) : Z := color / 65536 mod 256.
Definition green (color : Z) : Z := color / 256 mod 256.
Definition blue (color : Z) : Z := color mod 256.

Lemma rgb_to_brightness_eq color :
  0 <= color < 4294967296 -> rgb_to_brightness color = (77 * red color + 150 * green color + 29 * blue color) / 256.
Proof.
  intros Hc. unfold rgb_to_brightness, red, green, blue.
  assert (forall z, Z.land z 255 = z mod 256) as Hland by (intros z; change 255 with (Z.ones 8); by rewrite Z.land_ones).
  change 16777215 with (Z.ones 24). rewrite !Hland, Z.land_ones, !Z.shiftr_div_pow2 by lia.
  change (2 ^ 24) with 16777216. change (2 ^ 16) with 65536. change (2 ^ 8) with 256.
  do 2 f_equal; [f_equal|]; f_equal; Z.to_euclidean_division_equations; lia.
Qed.

(** The brightness written to the backlight is the weighted sum of red, green
    and blue, between 0 for black and 4080 for white, whatever the alpha bits,
    as a decimal number that fits the buffer; it is 0 only when the sum is
    below 256. *)
Theorem backlight_range color :
  0 <= color < 4294967296 -> 0 <= lf_open LCD_FILE ->
  exists b, set_light_backlight true color = (0, Some (sprintf_d b ++ [10])) /\ 0 <= b <= 4080
    /\ b = 16 * ((77 * red color + 150 * green color + 29 * blue color) / 256)
    /\ strtol (sprintf_d b) = b.
Proof.
  intros Hc Hopen. unfold set_light_backlight. cbn [negb]. rewrite rgb_to_brightness_eq by done.
  assert (0 <= red color < 256 /\ 0 <= green color < 256 /\ 0 <= blue color < 256) as (Hr & Hg & Hb)
    by (unfold red, green, blue; split_and!; try apply Z.mod_pos_bound; lia).
  set (y := (77 * red color + 150 * green color + 29 * blue color) / 256).
  assert (0 <= y <= 255) as Hy.
  { unfold y. split; [apply Z.div_pos; lia|]. apply Z.lt_succ_r, Z.div_lt_upper_bound; lia. }
  rewrite Z.shiftl_mul_pow2 by lia. change (2 ^ 4) with 16. exists (y * 16).
  assert (strlen (sprintf_d (y * 16) ++ [10]) < 20) as Hlen.
  { unfold strlen. rewrite length_app. pose proof (length_sprintf_small (y * 16) ltac:(lia)). cbn. lia. }
  unfold write_int. destruct (Z.leb_spec 0 (lf_open LCD_FILE)); [|lia].
  destruct (Z.ltb_spec (strlen (sprintf_d (y * 16) ++ [10])) 20); [|lia].
  split_and!; [done|lia|lia|lia|]. apply strtol_sprintf. lia.
Qed.

End lights.

Definition open_panel : LightFiles := {| lf_open _ := 3; lf_write _ bs := strlen bs; lf_errno := 0 |}.

Lemma backlight_range_witness :
  exists b, @set_light_backlight open_panel true 4294967295 = (0, Some (sprintf_d b ++ [10])) /\ b = 4080.
Proof.
  destruct (@backlight_range open_panel 4294967295) as (b & Hs & _ & Hb & _).
  - lia.
  - cbn. lia.
  - exists b. split; [exact Hs|]. rewrite Hb. reflexivity.
Defined.
