(* ===== verification/CFloat.v ===== *)
(** * Floating-point numbers

    The conversions and operations on [float], [double] and [long double] that
    the audio HAL uses, with the IEEE 754 arithmetic of [SpecFloat].  On the
    64-bit target [long double] has 113 bits of precision. *)

From Stdlib Require Import ZArith Lia SpecFloat.
From stdpp Require Import base list numbers strings.
From S2P Require Import Prelude.

(** The precision and the exponent of the infinities. *)
Record float_type : Type := MkFloatType { fprec : Z; femax : Z }.

Definition c_float : float_type := MkFloatType 24 128.
Definition c_double : float_type := MkFloatType 53 1024.
Definition c_long_double : float_type := MkFloatType 113 16384.

(** An integer, or a number of another type, rounded to the type. *)
Definition of_int (t : float_type) (z : Z) : spec_float := binary_normalize (fprec t) (femax t) z 0 false.

Definition convert (t : float_type) (x : spec_float) : spec_float :=
  match x with
  | S754_finite s m e => binary_normalize (fprec t) (femax t) (cond_Zopp s (Zpos m)) e s
  | _ => x
  end.

Definition fdiv (t : float_type) (x y : spec_float) : spec_float := SFdiv (fprec t) (femax t) x y.
Definition fmul (t : float_type) (x y : spec_float) : spec_float := SFmul (fprec t) (femax t) x y.

(** The integer part, with the sign; the conversion of what is not a number or
    does not fit is undefined in C and saturates on the target. *)
Definition trunc_between (lo hi : Z) (x : spec_float) : Z :=
  match x with
  | S754_zero _ | S754_nan => 0
  | S754_infinity s => if s then lo else hi
  | S754_finite s m e =>
      let n := if 0 <=? e then Z.shiftl (Zpos m) e else Z.shiftr (Zpos m) (- e) in
      Z.max lo (Z.min hi (if s then - n else n))
  end.

Definition to_u64 (x : spec_float) : Z := trunc_between 0 18446744073709551615 x.
Definition to_s64 (x : spec_float) : Z := trunc_between (-9223372036854775808) 9223372036854775807 x.
