(* ===== verification/Aec.v ===== *)
(** * The echo reference of the audio HAL (src/audio/audio_aec.c, fifo_wrapper.cpp)

    What is played is kept in a queue, with a second queue for the time each
    packet was played, so that an echo canceller can get the reference for the
    samples of the microphone.  The queues are those of audio_utils, the
    resampler and the canceller are libraries as well: they are parameters.
    Buffers are lists of bytes and samples are little-endian.  A call that
    sleeps is given what the playback thread writes meanwhile. *)

From Stdlib Require Import ZArith Lia SpecFloat.
From stdpp Require Import base list numbers strings.
From S2P Require Import Prelude CFloat Fir.

Definition ETIMEDOUT : Z := 110.

(** ** Pointers *)

Inductive ptr (A : Type) : Type := Null | Freed | Live (a : A).
Arguments Null {A}.
Arguments Freed {A}.
Arguments Live {A} _.

Definition deref {A} (p : ptr A) : outcome A :=
  match p with Live a => Ret a | Null | Freed => Fault end.

Definition is_null {A} (p : ptr A) : bool :=
  match p with Null => true | _ => false end.

(** [free] of a pointer: freeing twice is a fault, NULL is ignored. *)
Definition free {A} (p : ptr A) : outcome (ptr A) :=
  match p with Live _ => Ret Freed | Null => Ret Null | Freed => Fault end.

(** ** Libraries *)

(** The queue of audio_utils with its one reader and writer: [read] gives a
    count or an error and what was copied. *)
Class AudioFifo : Type :=
  { audio_utils_fifo : Type;
    af_new : Z -> audio_utils_fifo;
    af_read : audio_utils_fifo -> Z -> audio_utils_fifo * (Z * list Z);
    af_write : audio_utils_fifo -> list Z -> audio_utils_fifo * Z;
    af_available : audio_utils_fifo -> audio_utils_fifo * Z;
    af_space : audio_utils_fifo -> audio_utils_fifo * Z;
    af_flush : audio_utils_fifo -> audio_utils_fifo * Z }.

(** The resampler: frames in and out, and the bytes written. *)
Class Resampler : Type :=
  { resampler_itfe : Type;
    create_resampler : Z -> Z -> Z -> Z * resampler_itfe;
    resample_from_input : resampler_itfe -> list Z -> Z -> Z -> resampler_itfe * list Z }.

(** ** The queue wrapper (fifo_wrapper.cpp) *)

Section aec.
Context `{AF : AudioFifo} `{RS : Resampler} `{AU : AudioUtils}.

(** [new] does not return NULL. *)
Definition fifo_init (bytes : Z) : ptr audio_utils_fifo := Live (af_new (u32 bytes)).

Definition fifo_release (p : ptr audio_utils_fifo) : outcome (ptr audio_utils_fifo) :=
  _ ← deref p; Ret Freed.

Definition fifo_read (p : ptr audio_utils_fifo) (bytes : Z) : outcome (ptr audio_utils_fifo * Z * list Z) :=
  f ← deref p; let '(f, (n, bs)) := af_read f bytes in Ret (Live f, n, bs).

Definition fifo_write (p : ptr audio_utils_fifo) (bs : list Z) : outcome (ptr audio_utils_fifo * Z) :=
  f ← deref p; let '(f, n) := af_write f bs in Ret (Live f, n).

Definition fifo_available_to_read (p : ptr audio_utils_fifo) : outcome (ptr audio_utils_fifo * Z) :=
  f ← deref p; let '(f, n) := af_available f in Ret (Live f, n).

Definition fifo_available_to_write (p : ptr audio_utils_fifo) : outcome (ptr audio_utils_fifo * Z) :=
  f ← deref p; let '(f, n) := af_space f in Ret (Live f, n).

Definition fifo_flush (p : ptr audio_utils_fifo) : outcome (ptr audio_utils_fifo * Z) :=
  f ← deref p; let '(f, n) := af_flush f in Ret (Live f, n).

(** ** Data *)

Record timespec : Type := MkTimespec { tv_sec : Z; tv_nsec : Z }.

Record aec_info : Type := MkInfo
  { ai_timestamp : timespec; ai_timestamp_usec : Z; ai_available : Z; ai_bytes : Z }.

Definition info0 : aec_info := MkInfo (MkTimespec 0 0) 0 0 0.

(** [struct aec_info] in memory: 40 bytes, four of them padding. *)
Definition sizeof_aec_info : Z := 40.

Definition info_bytes (i : aec_info) : list Z :=
  le_bytes 8 (tv_sec (ai_timestamp i)) ++ le_bytes 8 (tv_nsec (ai_timestamp i)) ++ le_bytes 8 (ai_timestamp_usec i)
  ++ le_bytes 4 (ai_available i) ++ le_bytes 4 0 ++ le_bytes 8 (ai_bytes i).

Definition info_of_bytes (bs : list Z) : aec_info :=
  let at_ off len := le_val (take len (drop off bs)) in
  MkInfo (MkTimespec (s64 (at_ 0 8)%nat) (s64 (at_ 8 8)%nat)) (at_ 16 8)%nat (at_ 24 4)%nat (at_ 32 8)%nat.

(** The fields of [struct pcm_config] the HAL uses. *)
Record pcm_config : Type := MkPcmConfig
  { pc_channels : Z; pc_rate : Z; pc_format : Z; pc_period_size : Z; pc_period_count : Z;
    pc_start_threshold : Z; pc_avail_min : Z }.

(** [struct aec_t], in four groups: the microphone, the format of the reference,
    its buffers and its queues. *)
Record aec_mic : Type := MkMic
  { mic_initialized : bool; mic_buf : ptr (list Z); mic_num_channels : Z; mic_buf_size_bytes : Z;
    mic_frame_size_bytes : Z; mic_sampling_rate : Z; last_mic_info : aec_info }.

Record aec_spk : Type := MkSpk
  { spk_initialized : bool; spk_num_channels : Z; spk_frame_size_bytes : Z; spk_sampling_rate : Z }.

Record aec_bufs : Type := MkBufs
  { spk_buf : ptr (list Z); spk_buf_size_bytes : Z; spk_buf_playback_format : ptr (list Z);
    spk_buf_resampler_out : ptr (list Z); spk_resampler : ptr resampler_itfe }.

Record aec_queue : Type := MkQueue
  { spk_fifo : ptr audio_utils_fifo; ts_fifo : ptr audio_utils_fifo; last_spk_info : aec_info;
    read_write_diff_bytes : Z }.

Record aec_t : Type := MkAec
  { num_reference_channels : Z; aec_m : aec_mic; aec_s : aec_spk; aec_b : aec_bufs; aec_q : aec_queue;
    spk_running : bool; prev_spk_running : bool }.

Definition set_mic (m : aec_mic) (a : aec_t) : aec_t :=
  MkAec (num_reference_channels a) m (aec_s a) (aec_b a) (aec_q a) (spk_running a) (prev_spk_running a).
Definition set_spk (s : aec_spk) (a : aec_t) : aec_t :=
  MkAec (num_reference_channels a) (aec_m a) s (aec_b a) (aec_q a) (spk_running a) (prev_spk_running a).
Definition set_bufs (b : aec_bufs) (a : aec_t) : aec_t :=
  MkAec (num_reference_channels a) (aec_m a) (aec_s a) b (aec_q a) (spk_running a) (prev_spk_running a).
Definition set_queue (q : aec_queue) (a : aec_t) : aec_t :=
  MkAec (num_reference_channels a) (aec_m a) (aec_s a) (aec_b a) q (spk_running a) (prev_spk_running a).
Definition set_prev (p : bool) (a : aec_t) : aec_t :=
  MkAec (num_reference_channels a) (aec_m a) (aec_s a) (aec_b a) (aec_q a) (spk_running a) p.

Definition aec_set_spk_running_no_lock (a : aec_t) (state : bool) : aec_t :=
  MkAec (num_reference_channels a) (aec_m a) (aec_s a) (aec_b a) (aec_q a) state (prev_spk_running a).
Definition aec_get_spk_running_no_lock (a : aec_t) : bool := spk_running a.
Definition aec_set_spk_running (a : aec_t) (state : bool) : aec_t := aec_set_spk_running_no_lock a state.
Definition aec_get_spk_running (a : aec_t) : bool := aec_get_spk_running_no_lock a.

(** ** Time *)

(** [ts.tv_sec * 1e6L + ts.tv_nsec/1000], exact in a [long double]. *)
Definition timespec_to_usec (ts : timespec) : Z := u64 (tv_sec ts * 1000000 + Z.quot (tv_nsec ts) 1000).

(** [usec_per_byte], and the time of a number of bytes. *)
Definition usec_per_byte (s : aec_spk) : spec_float :=
  convert c_float (fdiv c_double (of_int c_double 1000000)
    (convert c_double (of_int c_float (u64 (spk_frame_size_bytes s * spk_sampling_rate s))))).

Definition bytes_to_usec (s : aec_spk) (n : Z) : Z := to_u64 (fmul c_float (of_int c_float n) (usec_per_byte s)).

(** ** The reference signal *)

Definition int16 (bs : list Z) : Z := let v := le_val bs in if v <? 32768 then v else v - 65536.

(** The sum over the channels of a frame. *)
Fixpoint sum_channels (buf : list Z) (src : Z) (n : nat) (acc : Z) : outcome Z :=
  match n with
  | O => Ret acc
  | S n' => bs ← load buf src 2; sum_channels buf (src + 2) n' (s32 (acc + int16 bs))
  end.

Fixpoint downmix_loop (n : nat) (chans : Z) (buf : list Z) (src dst : Z) : outcome (list Z) :=
  match n with
  | O => Ret buf
  | S n' =>
      acc ← sum_channels buf src (Z.to_nat chans) 0;
      if s32 chans =? 0 then Fault
      else
        buf ← store buf dst (le_bytes 2 (clamp16 (Z.quot acc (s32 chans))));
        downmix_loop n' chans buf (src + 2 * chans) (dst + 2)
  end.

(** The buffer is at the same time the source and the destination. *)
Definition get_reference_audio_in_place (a : aec_t) (frames : Z) : outcome aec_t :=
  if num_reference_channels a =? spk_num_channels (aec_s a) then Ret a
  else if negb (num_reference_channels a =? 1) then Ret a
  else
    let b := aec_b a in
    buf ← deref (spk_buf_playback_format b);
    buf ← downmix_loop (Z.to_nat frames) (spk_num_channels (aec_s a)) buf 0 0;
    Ret (set_bufs (MkBufs (spk_buf b) (spk_buf_size_bytes b) (Live buf) (spk_buf_resampler_out b) (spk_resampler b)) a).

(** ** The queues *)

Definition print_queue_status_to_log (q : aec_queue) : outcome aec_queue :=
  '(f, _) ← fifo_available_to_read (spk_fifo q);
  '(t, _) ← fifo_available_to_read (ts_fifo q);
  Ret (MkQueue f t (last_spk_info q) (read_write_diff_bytes q)).

(** [flush] of a queue unless the pointer is NULL. *)
Definition flush_if (p : ptr audio_utils_fifo) : outcome (ptr audio_utils_fifo) :=
  if is_null p then Ret p else '(p, _) ← fifo_flush p; Ret p.

Definition flush_aec_fifos (a : aec_t) : outcome aec_t :=
  f ← flush_if (spk_fifo (aec_q a));
  t ← flush_if (ts_fifo (aec_q a));
  Ret (set_queue (MkQueue f t (last_spk_info (aec_q a)) 0) a).

(** The queues, the information with the bytes written, and the result. *)
Definition write_to_reference_fifo (q : aec_queue) (buffer : list Z) (info : aec_info)
    : outcome (aec_queue * aec_info * Z) :=
  bs ← load buffer 0 (ai_bytes info);
  '(f, written) ← fifo_write (spk_fifo q) bs;
  let ret := if u64 written =? ai_bytes info then 0 else - ENOMEM in
  let info := MkInfo (ai_timestamp info) (ai_timestamp_usec info) (ai_available info) (u64 written) in
  '(t, _) ← fifo_write (ts_fifo q) (info_bytes info);
  q ← print_queue_status_to_log (MkQueue f t (last_spk_info q) (read_write_diff_bytes q));
  Ret (q, info, ret).

(** [fifo_read] of a [struct aec_info] over [i]. *)
Definition read_info (p : ptr audio_utils_fifo) (i : aec_info) : outcome (ptr audio_utils_fifo * aec_info) :=
  '(p, _, bs) ← fifo_read p sizeof_aec_info;
  m ← store (info_bytes i) 0 bs;
  Ret (p, info_of_bytes m).

(** The loop that goes on to the packet that was read last; [fuel] bounds the
    number of packets. *)
Fixpoint fast_forward (fuel : nat) (t : ptr audio_utils_fifo) (info : aec_info) (diff : Z)
    : outcome (ptr audio_utils_fifo * aec_info * Z) :=
  match fuel with
  | O => OutOfFuel
  | S fuel' =>
      if 0 <? diff then
        '(t, avail) ← fifo_available_to_read t;
        if avail =? 0 then Ret (t, info, diff)
        else
          '(t, info) ← read_info t info;
          fast_forward fuel' t info (s64 (diff - ai_bytes info))
      else Ret (t, info, diff)
  end.

(** The queues and the time of the first byte read, 0 when it is not known. *)
Definition get_spk_timestamp (fuel : nat) (s : aec_spk) (q : aec_queue) (read_bytes : Z) : outcome (aec_queue * Z) :=
  let finish t last diff offset :=
    let spk_time := u64 (timespec_to_usec (ai_timestamp last) + offset) in
    '(t, last, diff) ← fast_forward fuel t last (s64 (diff + read_bytes));
    Ret (MkQueue (spk_fifo q) t last diff, spk_time) in
  if read_write_diff_bytes q <? 0 then
    finish (ts_fifo q) (last_spk_info q) (read_write_diff_bytes q)
      (bytes_to_usec s (u64 (ai_bytes (last_spk_info q) + read_write_diff_bytes q)))
  else
    '(t, avail) ← fifo_available_to_read (ts_fifo q);
    if avail =? 0 then Ret (MkQueue (spk_fifo q) t (last_spk_info q) (read_write_diff_bytes q), 0)
    else
      '(t, last) ← read_info t (last_spk_info q);
      finish t last (s64 (read_write_diff_bytes q - ai_bytes last)) 0.

(** ** Getting the reference *)

(** What the playback thread writes during a sleep. *)
Fixpoint play_all (q : aec_queue) (ws : list (list Z * aec_info)) : outcome aec_queue :=
  match ws with
  | [] => Ret q
  | (b, i) :: ws' => '(q, _, _) ← write_to_reference_fifo q b i; play_all q ws'
  end.

(** The loop that waits for the samples: [n] more sleeps are allowed, [waits]
    says what is played in each.  [Some] is the result of a failure. *)
Fixpoint wait_loop (n : nat) (waits : nat -> list (list Z * aec_info)) (q : aec_queue) (req : Z)
    : outcome (aec_queue * option Z) :=
  '(f, avail) ← fifo_available_to_read (spk_fifo q);
  let q := MkQueue f (ts_fifo q) (last_spk_info q) (read_write_diff_bytes q) in
  if req <=? u64 avail then Ret (q, None)
  else if avail <? 0 then Ret (q, Some (- ENOMEM))
  else
    q ← play_all q (waits n);
    match n with
    | O => Ret (q, Some (- ETIMEDOUT))
    | S n' => wait_loop n' waits q req
    end.

Definition MAX_READ_WAIT_TIME_MSEC : nat := 80.

(** The samples as 32-bit numbers: [n] of them. *)
Fixpoint widen_loop (n : nat) (src16 : list Z) (src : Z) (buffer : list Z) (dst : Z) : outcome (list Z) :=
  match n with
  | O => Ret buffer
  | S n' =>
      bs ← load src16 src 2;
      buffer ← store buffer dst (le_bytes 4 (Z.shiftl (int16 bs) 16));
      widen_loop n' src16 (src + 2) buffer (dst + 4)
  end.

(** The canceller, [buffer] with the samples, [info] and the result. *)
Definition get_reference_samples (fuel : nat) (waits : nat -> list (list Z * aec_info)) (a : aec_t)
    (buffer : list Z) (info : aec_info) : outcome (aec_t * list Z * aec_info * Z) :=
  if negb (spk_initialized (aec_s a)) then Ret (a, buffer, info, - EINVAL)
  else
    let bytes := ai_bytes info in
    if (mic_frame_size_bytes (aec_m a) =? 0) || (mic_sampling_rate (aec_m a) =? 0) then Fault
    else
      let frames := bytes / mic_frame_size_bytes (aec_m a) in
      let sample_rate_ratio := spk_sampling_rate (aec_s a) / mic_sampling_rate (aec_m a) in
      let req_bytes := u64 (u64 (frames * sample_rate_ratio) * spk_frame_size_bytes (aec_s a)) in
      '(q, failed) ← wait_loop MAX_READ_WAIT_TIME_MSEC waits (aec_q a) req_bytes;
      let a := set_queue q a in
      match failed with
      | Some rc => Ret (a, buffer, info, rc)
      | None =>
          '(f, read_bytes, got) ← fifo_read (spk_fifo q) req_bytes;
          buf ← deref (spk_buf_playback_format (aec_b a));
          buf ← store buf 0 got;
          let b := aec_b a in
          let a := set_bufs (MkBufs (spk_buf b) (spk_buf_size_bytes b) (Live buf) (spk_buf_resampler_out b) (spk_resampler b)) a in
          '(q, spk_time) ← get_spk_timestamp fuel (aec_s a)
              (MkQueue f (ts_fifo q) (last_spk_info q) (read_write_diff_bytes q)) read_bytes;
          let a := set_queue q a in
          let resampler_in_frames := u64 (frames * sample_rate_ratio) in
          a ← get_reference_audio_in_place a resampler_in_frames;
          buf ← deref (spk_buf_playback_format (aec_b a));
          '(a, out) ← match spk_resampler (aec_b a) with
                      | Null => Ret (a, buf)
                      | p =>
                          r ← deref p;
                          let '(r, res) := resample_from_input r buf resampler_in_frames frames in
                          out ← deref (spk_buf_resampler_out (aec_b a));
                          out ← store out 0 res;
                          let b := aec_b a in
                          Ret (set_bufs (MkBufs (spk_buf b) (spk_buf_size_bytes b) (spk_buf_playback_format b) (Live out) (Live r)) a, out)
                      end;
          buffer ← widen_loop (Z.to_nat (frames * num_reference_channels a)) out 0 buffer 0;
          Ret (a, buffer, MkInfo (ai_timestamp info) spk_time (ai_available info) bytes, 0)
      end.

(** ** Configuration *)

Definition aec0 : aec_t :=
  MkAec 0 (MkMic false Null 0 0 0 0 info0) (MkSpk false 0 0 0) (MkBufs Null 0 Null Null Null) (MkQueue Null Null info0 0) false false.

Definition CHANNEL_STEREO : Z := 2.
Definition CAPTURE_CODEC_SAMPLING_RATE : Z := 16000.
Definition PLAYBACK_CODEC_SAMPLING_RATE : Z := 48000.

(** [aec_ret] is the result of [aec_spk_mic_init], [mem] says whether there was
    memory. *)
Definition init_aec (aec_ret : Z) (mem : bool) (num_ref : Z) : outcome (ptr aec_t * Z) :=
  if negb (aec_ret =? 0) then Ret (if mem then Live aec0 else Null, - EINVAL)
  else if negb mem then Fault
  else Ret (Live (MkAec num_ref (MkMic false Null CHANNEL_STEREO 0 (CHANNEL_STEREO * 4) CAPTURE_CODEC_SAMPLING_RATE info0)
                  (MkSpk false CHANNEL_STEREO (CHANNEL_STEREO * 2) PLAYBACK_CODEC_SAMPLING_RATE)
                  (MkBufs Null 0 Null Null Null) (MkQueue Null Null info0 0) false false), 0).

Definition destroy_aec_reference_config_no_lock (a : aec_t) : outcome aec_t :=
  if negb (spk_initialized (aec_s a)) then Ret a
  else
    let a := aec_set_spk_running_no_lock a false in
    f ← fifo_release (spk_fifo (aec_q a));
    t ← fifo_release (ts_fifo (aec_q a));
    let s := aec_s a in
    Ret (set_spk (MkSpk false (spk_num_channels s) (spk_frame_size_bytes s) (spk_sampling_rate s))
          (set_queue (MkQueue f t info0 (read_write_diff_bytes (aec_q a))) a)).

(** A resampler that is NULL is not released. *)
Definition release_resampler (p : ptr resampler_itfe) : outcome (ptr resampler_itfe) := free p.

Definition destroy_aec_mic_config_no_lock (a : aec_t) : outcome aec_t :=
  let m := aec_m a in let b := aec_b a in
  if negb (mic_initialized m) then Ret a
  else
    r ← release_resampler (spk_resampler b);
    mb ← free (mic_buf m);
    sb ← free (spk_buf b);
    pf ← free (spk_buf_playback_format b);
    ro ← free (spk_buf_resampler_out b);
    Ret (set_mic (MkMic false mb (mic_num_channels m) (mic_buf_size_bytes m) (mic_frame_size_bytes m) (mic_sampling_rate m) info0)
          (set_bufs (MkBufs sb (spk_buf_size_bytes b) pf ro r) a)).

(** [p] may be NULL; the canceller itself is freed. *)
Definition release_aec_interface (p : ptr aec_t) : outcome (ptr aec_t) :=
  a ← deref p;
  a ← destroy_aec_mic_config_no_lock a;
  _ ← destroy_aec_reference_config_no_lock a;
  Ret Freed.

Definition release_aec (p : ptr aec_t) : outcome (ptr aec_t) := if is_null p then Ret p else release_aec_interface p.

Definition destroy_aec_reference_config (p : ptr aec_t) : outcome (ptr aec_t) :=
  if is_null p then Ret p else a ← deref p; a ← destroy_aec_reference_config_no_lock a; Ret (Live a).

Definition destroy_aec_mic_config (p : ptr aec_t) : outcome (ptr aec_t) :=
  if is_null p then Ret p else a ← deref p; a ← destroy_aec_mic_config_no_lock a; Ret (Live a).

(** [frame_size] is the size of a frame of the stream. *)
Definition init_aec_reference_config (p : ptr aec_t) (config : pcm_config) (frame_size : Z) : outcome (ptr aec_t * Z) :=
  if is_null p then Ret (p, - EINVAL)
  else
    a ← deref p;
    a ← (if spk_initialized (aec_s a) then destroy_aec_reference_config_no_lock a else Ret a);
    let f := fifo_init (u64 (u32 (pc_period_count config * pc_period_size config) * frame_size)) in
    let t := fifo_init (u64 (pc_period_count config * sizeof_aec_info)) in
    Ret (Live (set_spk (MkSpk true (pc_channels config) frame_size (pc_rate config))
                (set_queue (MkQueue f t (last_spk_info (aec_q a)) (read_write_diff_bytes (aec_q a))) a)), 0).

(** [malloc] of [n] bytes, [junk] its contents. *)
Definition malloc (ok : bool) (junk n : Z) : ptr (list Z) :=
  if ok then Live (replicate (Z.to_nat n) junk) else Null.

(** The four allocations succeed or fail as [mems] says. *)
Definition init_aec_mic_config (mems : nat -> bool) (junk : Z) (p : ptr aec_t) (config : pcm_config) (frame_size : Z)
    : outcome (ptr aec_t * Z) :=
  if is_null p then Ret (p, - EINVAL)
  else
    a ← deref p;
    a ← (if mic_initialized (aec_m a) then destroy_aec_mic_config_no_lock a else Ret a);
    let size := u64 (pc_period_size config * frame_size) in
    let spk_size := u64 (pc_period_size config * spk_frame_size_bytes (aec_s a)) in
    let mic init mb := MkMic init mb (pc_channels config) size frame_size (pc_rate config) (last_mic_info (aec_m a)) in
    let b := aec_b a in
    let mb := malloc (mems 0%nat) 0 size in
    if is_null mb then Ret (Live (set_mic (mic false mb) a), - ENOMEM)
    else
      let sb := malloc (mems 1%nat) 0 spk_size in
      if is_null sb then
        mb ← free mb;
        Ret (Live (set_mic (mic false mb)
              (set_bufs (MkBufs sb spk_size (spk_buf_playback_format b) (spk_buf_resampler_out b) (spk_resampler b)) a)), - ENOMEM)
      else if pc_rate config =? 0 then Fault
      else
        let pf := malloc (mems 2%nat) junk (u64 (spk_sampling_rate (aec_s a) / pc_rate config * spk_size)) in
        if is_null pf then
          mb ← free mb; sb ← free sb;
          Ret (Live (set_mic (mic false mb)
                (set_bufs (MkBufs sb spk_size pf (spk_buf_resampler_out b) (spk_resampler b)) a)), - ENOMEM)
        else
          let ro := malloc (mems 3%nat) junk spk_size in
          if is_null ro then
            mb ← free mb; sb ← free sb; pf ← free pf;
            Ret (Live (set_mic (mic false mb) (set_bufs (MkBufs sb spk_size pf ro (spk_resampler b)) a)), - ENOMEM)
          else
            let '(rc, r) := if pc_rate config =? spk_sampling_rate (aec_s a) then (0, Null)
                            else let '(rc, r) := create_resampler (spk_sampling_rate (aec_s a)) (pc_rate config) (num_reference_channels a) in
                                 (rc, if rc =? 0 then Live r else spk_resampler b) in
            if negb (rc =? 0) then
              mb ← free mb; sb ← free sb; pf ← free pf; ro ← free ro;
              Ret (Live (set_mic (mic false mb) (set_bufs (MkBufs sb spk_size pf ro r) a)), rc)
            else
              a ← flush_aec_fifos (set_mic (mic false mb) (set_bufs (MkBufs sb spk_size pf ro r) a));
              Ret (Live (set_mic (mic true mb) a), 0).

(** ** Processing *)

Definition MAX_TIMESTAMP_DIFF_USEC : Z := 200000.

(** The end of [process_aec]: after a failure the microphone samples are given
    back. *)
Definition process_exit (a : aec_t) (running : bool) (buffer : list Z) (bytes ret : Z) : outcome (aec_t * list Z * Z) :=
  let a := set_prev running a in
  if ret =? 0 then Ret (a, buffer, 0)
  else
    mb ← deref (mic_buf (aec_m a));
    raw ← load mb 0 bytes;
    buffer ← store buffer 0 raw;
    a ← flush_aec_fifos a;
    Ret (a, buffer, ret).

(** [process] is [aec_spk_mic_process]: the status and the samples it writes. *)
Definition process_aec (process : list Z -> Z -> list Z -> Z -> Z -> Z * list Z) (fuel : nat)
    (waits : nat -> list (list Z * aec_info)) (junk : aec_info) (p : ptr aec_t) (buffer : list Z) (info : aec_info)
    : outcome (ptr aec_t * list Z * Z) :=
  if is_null p then Ret (p, buffer, - EINVAL)
  else
    a ← deref p;
    if negb (mic_initialized (aec_m a)) || negb (spk_initialized (aec_s a)) then Ret (Live a, buffer, - EINVAL)
    else
      let bytes := ai_bytes info in
      let m := aec_m a in
      if mic_frame_size_bytes m =? 0 then Fault
      else
        mb ← deref (mic_buf m);
        raw ← load buffer 0 bytes;
        mb ← store mb 0 raw;
        let a := set_mic (MkMic (mic_initialized m) (Live mb) (mic_num_channels m) (mic_buf_size_bytes m) (mic_frame_size_bytes m)
                            (mic_sampling_rate m) (last_mic_info m)) a in
        let mic_time := timespec_to_usec (ai_timestamp info) in
        let running := aec_get_spk_running a in
        '(a, buffer, ret) ←
          (if negb running then process_exit a running buffer bytes 0
           else
             a ← (if negb (prev_spk_running a) then flush_aec_fifos a else Ret a);
             '(f, avail) ← fifo_available_to_read (spk_fifo (aec_q a));
             let q := aec_q a in
             let a := set_queue (MkQueue f (ts_fifo q) (last_spk_info q) (read_write_diff_bytes q)) a in
             if avail <=? 0 then process_exit a running buffer bytes 0
             else
               q ← print_queue_status_to_log (aec_q a);
               let a := set_queue q a in
               sb ← deref (spk_buf (aec_b a));
               '(a, sb, spk_info, ref_ret) ← get_reference_samples fuel waits a sb
                   (MkInfo (ai_timestamp junk) (ai_timestamp_usec junk) (ai_available junk) bytes);
               let b := aec_b a in
               let a := set_bufs (MkBufs (Live sb) (spk_buf_size_bytes b) (spk_buf_playback_format b) (spk_buf_resampler_out b) (spk_resampler b)) a in
               let spk_time := ai_timestamp_usec spk_info in
               if negb (ref_ret =? 0) then process_exit a running buffer bytes (- ENOMEM)
               else
                 let time_diff := s64 (if spk_time <? mic_time then mic_time - spk_time else spk_time - mic_time) in
                 if (spk_time =? 0) || (mic_time =? 0) || (MAX_TIMESTAMP_DIFF_USEC <? time_diff) then
                   a ← flush_aec_fifos a;
                   process_exit a running buffer bytes 0
                 else
                   let '(status, out) := process sb spk_time mb mic_time (bytes / mic_frame_size_bytes m) in
                   buffer ← store buffer 0 out;
                   process_exit a running buffer bytes (if status =? 0 then - EINVAL else 0));
        Ret (Live a, buffer, ret).

End aec.
