(* ===== verification/AecProofs.v ===== *)
(** * The echo reference: queues, time and downmixing

    The queues of audio_utils are described by the class [FifoLaws]; against it,
    the pair of queues with its running difference is shown to keep the signal
    that was played together with its time. *)

From Stdlib Require Import ZArith Lia SpecFloat.
From stdpp Require Import base list numbers strings.
From S2P Require Import Prelude CFloat Fir Aec.

Notation zlen l := (Z.of_nat (length l)).

(** Projections of the records of the canceller, and its setters. *)
Ltac aec_cbn :=
  cbn [mbind outcome_bind deref is_null negb orb andb set_mic set_spk set_bufs set_queue set_prev aec_set_spk_running
       num_reference_channels aec_m aec_s aec_b aec_q spk_running prev_spk_running
       mic_initialized mic_buf mic_num_channels mic_buf_size_bytes mic_frame_size_bytes mic_sampling_rate last_mic_info
       spk_initialized spk_num_channels spk_frame_size_bytes spk_sampling_rate
       spk_buf spk_buf_size_bytes spk_buf_playback_format spk_buf_resampler_out spk_resampler
       spk_fifo ts_fifo last_spk_info read_write_diff_bytes].

(** ** What the queue of audio_utils promises *)

(** [fifo_holds f room l]: the queue has [room] bytes and holds [l].  Nothing is
    said about a queue that was written over its end. *)
Class FifoLaws `{AF : AudioFifo} : Type :=
  { fifo_holds : audio_utils_fifo -> Z -> list Z -> Prop;
    fl_new n : 0 < n < 2147483648 -> fifo_holds (af_new n) n [];
    fl_write f room l bs : fifo_holds f room l -> zlen l + zlen bs <= room ->
      exists f', af_write f bs = (f', zlen bs) /\ fifo_holds f' room (l ++ bs);
    fl_read f room l n : fifo_holds f room l -> 0 <= n ->
      exists f', af_read f n = (f', (Z.min n (zlen l), take (Z.to_nat n) l)) /\ fifo_holds f' room (drop (Z.to_nat n) l);
    fl_available f room l : fifo_holds f room l -> exists f', af_available f = (f', zlen l) /\ fifo_holds f' room l;
    fl_flush f room l : fifo_holds f room l -> exists f' rc, af_flush f = (f', rc) /\ fifo_holds f' room [] }.

(** A queue that keeps its contents in a list; [None] after it was written over
    its end. *)
Record list_fifo : Type := MkListFifo { lf_room : Z; lf_data : option (list Z) }.

Definition EOVERFLOW : Z := 75.

#[global] Instance list_fifo_ops : AudioFifo :=
  {| audio_utils_fifo := list_fifo;
     af_new n := MkListFifo n (Some []);
     af_read f n := match lf_data f with
                    | Some l => (MkListFifo (lf_room f) (Some (drop (Z.to_nat n) l)), (Z.min n (zlen l), take (Z.to_nat n) l))
                    | None => (MkListFifo (lf_room f) (Some []), (- EOVERFLOW, []))
                    end;
     af_write f bs := match lf_data f with
                      | Some l => (MkListFifo (lf_room f) (if zlen l + zlen bs <=? lf_room f then Some (l ++ bs) else None), zlen bs)
                      | None => (f, zlen bs)
                      end;
     af_available f := (f, match lf_data f with Some l => zlen l | None => - EOVERFLOW end);
     af_space f := (f, lf_room f);
     af_flush f := (MkListFifo (lf_room f) (Some []), 0) |}.

#[global, refine] Instance list_fifo_laws : FifoLaws :=
  {| fifo_holds f room l := lf_room f = room /\ lf_data f = Some l |}.
Proof.
  - done.
  - intros [r d] room l bs [Hr Hd] Hfit. cbn in *. subst. destruct (Z.leb_spec (zlen l + zlen bs) room); [|lia]. by eexists.
  - intros [r d] room l n [Hr Hd] Hn. cbn in *. subst. by eexists.
  - intros [r d] room l [Hr Hd]. cbn in *. subst. by eexists.
  - intros [r d] room l [Hr Hd]. cbn in *. subst. by eexists _, _.
Defined.

(** No resampler can be created. *)
Definition no_resampler : Resampler :=
  {| resampler_itfe := unit; create_resampler _ _ _ := (- EINVAL, tt); resample_from_input _ _ _ _ := (tt, []) |}.

Section queues.
Context `{FL : FifoLaws}.

(** A pointer to such a queue. *)
Definition holds (p : ptr audio_utils_fifo) (room : Z) (l : list Z) : Prop :=
  exists f, p = Live f /\ fifo_holds f room l.

Lemma fifo_init_holds n : 0 < n < 2147483648 -> holds (fifo_init n) n [].
Proof. intros Hn. eexists. split; [done|]. rewrite u32_small by lia. by apply fl_new. Qed.

Lemma fifo_write_ok p room l bs :
  holds p room l -> zlen l + zlen bs <= room -> exists p', fifo_write p bs = Ret (p', zlen bs) /\ holds p' room (l ++ bs).
Proof.
  intros (f & -> & Hf) Hfit. destruct (fl_write _ _ _ _ Hf Hfit) as (f' & He & Hf'). unfold fifo_write. cbn. rewrite He.
  eexists. split; [done|]. by exists f'.
Qed.

Lemma fifo_read_ok p room l n :
  holds p room l -> 0 <= n <= zlen l ->
  exists p', fifo_read p n = Ret (p', n, take (Z.to_nat n) l) /\ holds p' room (drop (Z.to_nat n) l).
Proof.
  intros (f & -> & Hf) Hn. destruct (fl_read _ _ _ n Hf ltac:(lia)) as (f' & He & Hf'). unfold fifo_read. cbn. rewrite He.
  rewrite Z.min_l by lia. eexists. split; [done|]. by exists f'.
Qed.

Lemma fifo_available_ok p room l :
  holds p room l -> exists p', fifo_available_to_read p = Ret (p', zlen l) /\ holds p' room l.
Proof.
  intros (f & -> & Hf). destruct (fl_available _ _ _ Hf) as (f' & He & Hf'). unfold fifo_available_to_read. cbn. rewrite He.
  eexists. split; [done|]. by exists f'.
Qed.

Lemma flush_if_ok p room l : holds p room l -> exists p', flush_if p = Ret p' /\ holds p' room [].
Proof.
  intros (f & -> & Hf). destruct (fl_flush _ _ _ Hf) as (f' & rc & He & Hf'). unfold flush_if, fifo_flush. cbn. rewrite He.
  eexists. split; [done|]. by exists f'.
Qed.

(** ** Packets *)

(** The members of the structure are within their types. *)
Definition info_ok (i : aec_info) : Prop :=
  - 9223372036854775808 <= tv_sec (ai_timestamp i) < 9223372036854775808
  /\ - 9223372036854775808 <= tv_nsec (ai_timestamp i) < 9223372036854775808
  /\ 0 <= ai_timestamp_usec i < 18446744073709551616 /\ 0 <= ai_available i < 4294967296
  /\ 0 <= ai_bytes i < 9223372036854775808.

Lemma s64_id z : - 9223372036854775808 <= z < 9223372036854775808 -> s64 z = z.
Proof. intros. unfold s64, u64. zcases; Z.to_euclidean_division_equations; lia. Qed.

Lemma s64_le z : - 9223372036854775808 <= z < 9223372036854775808 -> s64 (le_val (le_bytes 8 z)) = z.
Proof.
  intros Hz. rewrite le_val_bytes. change (2 ^ (8 * Z.of_nat 8)) with 18446744073709551616.
  unfold s64, u64. rewrite Z.mod_mod by lia. by apply s64_id.
Qed.

Lemma length_info_bytes i : length (info_bytes i) = 40%nat.
Proof. reflexivity. Qed.

Lemma info_of_info_bytes i : info_ok i -> info_of_bytes (info_bytes i) = i.
Proof.
  intros (Hs & Hn & Hu & Ha & Hb). unfold info_of_bytes.
  change (take 8 (drop 0 (info_bytes i))) with (le_bytes 8 (tv_sec (ai_timestamp i))).
  change (take 8 (drop 8 (info_bytes i))) with (le_bytes 8 (tv_nsec (ai_timestamp i))).
  change (take 8 (drop 16 (info_bytes i))) with (le_bytes 8 (ai_timestamp_usec i)).
  change (take 4 (drop 24 (info_bytes i))) with (le_bytes 4 (ai_available i)).
  change (take 8 (drop 32 (info_bytes i))) with (le_bytes 8 (ai_bytes i)).
  rewrite !s64_le by done. rewrite !le_val_bytes_small by (cbn; lia). by destruct i as [[]].
Qed.

(** A packet: the information written with it, and its bytes. *)
Definition packet : Type := aec_info * list Z.

Definition packet_ok (p : packet) : Prop := info_ok p.1 /\ ai_bytes p.1 = zlen p.2 /\ 0 < zlen p.2.

(** The signal, and what the second queue holds for the packets. *)
Definition signal (h : list packet) : list Z := concat (snd <$> h).
Definition stamps (h : list packet) : list Z := concat (info_bytes ∘ fst <$> h).

Lemma signal_app h h' : signal (h ++ h') = signal h ++ signal h'.
Proof. unfold signal. by rewrite fmap_app, concat_app. Qed.

Lemma signal_cons p h : signal (p :: h) = p.2 ++ signal h.
Proof. done. Qed.

Lemma stamps_app h h' : stamps (h ++ h') = stamps h ++ stamps h'.
Proof. unfold stamps. by rewrite fmap_app, concat_app. Qed.

Lemma length_stamps h : length (stamps h) = (40 * length h)%nat.
Proof.
  induction h as [|p h IH]; [done|]. change (stamps (p :: h)) with (info_bytes p.1 ++ stamps h).
  rewrite length_app, length_info_bytes, IH. cbn. lia.
Qed.

Lemma read_info_ok t room p rest i :
  holds t room (stamps (p :: rest)) -> packet_ok p ->
  exists t', read_info t i = Ret (t', p.1) /\ holds t' room (stamps rest).
Proof.
  intros Ht (Hok & _). change (stamps (p :: rest)) with (info_bytes p.1 ++ stamps rest) in Ht.
  destruct (fifo_read_ok _ _ _ sizeof_aec_info Ht) as (t' & He & Ht').
  { rewrite length_app, length_info_bytes. unfold sizeof_aec_info. lia. }
  unfold read_info. rewrite He. cbn [mbind outcome_bind]. change (Z.to_nat sizeof_aec_info) with (length (info_bytes p.1)) in *.
  rewrite take_app_length in *. rewrite drop_app_length in Ht'.
  rewrite store_ret by (rewrite ?length_info_bytes; lia). cbn [mbind outcome_bind].
  exists t'. split; [|done]. rewrite take_0, length_info_bytes, app_nil_l, drop_ge by (rewrite length_info_bytes; lia).
  by rewrite app_nil_r, info_of_info_bytes.
Qed.

(** ** Going on to the packet read last *)

Lemma fast_forward_spec rest : forall fuel t room i diff,
  holds t room (stamps rest) -> Forall packet_ok rest -> (length rest < fuel)%nat ->
  diff <= zlen (signal rest) < 9223372036854775808 -> - 9223372036854775808 <= diff ->
  exists mid rest' t' i', rest = mid ++ rest' /\ fast_forward fuel t i diff = Ret (t', i', diff - zlen (signal mid))
    /\ holds t' room (stamps rest') /\ diff - zlen (signal mid) <= Z.max 0 (Z.min diff 0)
    /\ (mid = [] /\ i' = i /\ diff <= 0
        \/ exists mid' p, mid = mid' ++ [p] /\ i' = p.1 /\ zlen (signal mid') < diff).
Proof.
  induction rest as [|p rest IH]; intros fuel t room i diff Ht Hall Hfuel Hd Hlo; (destruct fuel as [|fuel]; [lia|]); cbn [fast_forward].
  { cbn in Hd. destruct (Z.ltb_spec 0 diff); [lia|]. exists [], [], t, i. rewrite Z.sub_0_r. split_and!; [done|done|done|cbn; lia|]. by left. }
  destruct (Z.ltb_spec 0 diff) as [Hpos|Hneg].
  2:{ exists [], (p :: rest), t, i. cbn [app]. rewrite Z.sub_0_r. split_and!; [done|done|done|cbn; lia|]. by left. }
  destruct (fifo_available_ok _ _ _ Ht) as (t1 & -> & Ht1). cbn [mbind outcome_bind].
  rewrite length_stamps. destruct (Z.eqb_spec (Z.of_nat (40 * length (p :: rest))) 0) as [Hbad|_]; [cbn in Hbad; lia|].
  apply list.Forall_cons in Hall as [Hp Hall]. destruct (read_info_ok _ _ _ _ i Ht1 Hp) as (t2 & -> & Ht2). cbn [mbind outcome_bind].
  destruct Hp as (Hok & Hlen & Hne). rewrite signal_cons, length_app, Nat2Z.inj_add in Hd.
  rewrite s64_id by lia. rewrite Hlen.
  destruct (IH fuel t2 room p.1 (diff - zlen p.2) Ht2 Hall) as (mid & rest' & t' & i' & -> & He & Ht' & Hle & Hcase);
    [cbn in Hfuel; lia|lia|lia|].
  exists (p :: mid), rest', t', i'. split; [done|]. rewrite He. rewrite signal_cons, length_app, Nat2Z.inj_add.
  split; [do 2 f_equal; lia|]. split; [done|]. split; [lia|]. right.
  destruct Hcase as [(-> & -> & Hz)|(mid' & p' & -> & -> & Hlt)].
  - exists [], p. cbn. split_and!; [done|done|lia].
  - exists (p :: mid'), p'. split_and!; [done|done|]. rewrite signal_cons, length_app. lia.
Qed.

(** ** The invariant *)

(** The time of the byte [r] of the signal: that of its packet, and of the bytes
    in front of it in the packet. *)
Fixpoint time_at (s : aec_spk) (h : list (timespec * list Z)) (r : Z) : Z :=
  match h with
  | [] => 0
  | (ts, d) :: h' =>
      if r <? zlen d then u64 (timespec_to_usec ts + bytes_to_usec s r) else time_at s h' (r - zlen d)
  end.

(** Packets with their times and with their lengths. *)
Definition timed (h : list packet) : list (timespec * list Z) := (fun p => (ai_timestamp p.1, p.2)) <$> h.
Definition lens (h : list packet) : list Z := (fun p => zlen p.2) <$> h.

(** [h] was played since the queues were flushed, and [r] bytes of it were
    read: the first queue holds the rest of the signal, the second one the times
    of the packets not yet begun, and the difference says how much is left of the
    packet begun last. *)
Record queue_inv (rooms : Z * Z) (h : list packet) (r : Z) (q : aec_queue) : Prop := MkQueueInv
  { qi_packets : Forall packet_ok h;
    qi_small : zlen (signal h) < 9223372036854775808;
    qi_read : 0 <= r <= zlen (signal h);
    qi_spk : holds (spk_fifo q) rooms.1 (drop (Z.to_nat r) (signal h));
    qi_ts : exists done rest, h = done ++ rest /\ holds (ts_fifo q) rooms.2 (stamps rest)
      /\ read_write_diff_bytes q = r - zlen (signal done) /\ read_write_diff_bytes q <= 0
      /\ (read_write_diff_bytes q < 0 ->
          exists done' p, done = done' ++ [p] /\ last_spk_info q = p.1 /\ zlen (signal done') <= r) }.

Lemma time_at_app s h h' r : zlen (signal h) <= r -> time_at s (timed (h ++ h')) r = time_at s (timed h') (r - zlen (signal h)).
Proof.
  revert r. induction h as [|[i d] h IH]; intros r Hr; [cbn; by rewrite Z.sub_0_r|].
  rewrite signal_cons, length_app, Nat2Z.inj_add in *. cbn [fst snd] in *.
  change (timed (((i, d) :: h) ++ h')) with ((ai_timestamp i, d) :: timed (h ++ h')). cbn [time_at].
  destruct (Z.ltb_spec r (zlen d)); [lia|]. rewrite IH by lia. f_equal. lia.
Qed.

Lemma bytes_to_usec_0 s : bytes_to_usec s 0 = 0.
Proof. unfold bytes_to_usec, fmul. cbn. by destruct (usec_per_byte s). Qed.

(** The number of packets that begin behind the first [r] bytes. *)
Fixpoint unbegun (ls : list Z) (r : Z) : nat :=
  match ls with
  | [] => 0%nat
  | n :: ls' => if r <=? 0 then length ls else unbegun ls' (r - n)
  end.

Lemma unbegun_rest h h' r : r <= zlen (signal h) -> (length h' <= unbegun (lens (h ++ h')) r)%nat.
Proof.
  revert r. induction h as [|p h IH]; intros r Hr; cbn [app].
  { cbn in Hr. destruct h' as [|p h']; [done|]. cbn. destruct (Z.leb_spec r 0); [|lia]. cbn. by rewrite length_fmap. }
  cbn. rewrite signal_cons, length_app in Hr. destruct (Z.leb_spec r 0).
  - cbn. rewrite length_fmap, length_app. lia.
  - apply IH. lia.
Qed.

(** Packets that are written fit when both queues have room. *)
Lemma write_queue_inv rooms h r q i d :
  queue_inv rooms h r q -> packet_ok (i, d) -> zlen (signal h) + zlen d < 9223372036854775808 ->
  zlen (signal h) - r + zlen d <= rooms.1 -> 40 * (Z.of_nat (unbegun (lens h) r) + 1) <= rooms.2 ->
  exists q', write_to_reference_fifo q d i = Ret (q', i, 0) /\ queue_inv rooms (h ++ [(i, d)]) r q'.
Proof.
  intros [Hall Hsmall Hr Hspk (done & rest & -> & Hts & Hdiff & Hle & Hlast)] (Hok & Hlen & Hne) Hbig Hroom Hroom2.
  cbn [fst snd] in *. unfold write_to_reference_fifo. rewrite Hlen.
  rewrite load_ret by lia. rewrite drop_0, Nat2Z.id, firstn_all. cbn [mbind outcome_bind].
  destruct (fifo_write_ok _ _ _ d Hspk) as (f & -> & Hf); [rewrite length_drop; lia|]. cbn [mbind outcome_bind].
  rewrite u64_small by lia. rewrite Z.eqb_refl.
  replace (MkInfo (ai_timestamp i) (ai_timestamp_usec i) (ai_available i) (zlen d)) with i by (destruct i; cbn in *; congruence).
  destruct (fifo_write_ok _ _ _ (info_bytes i) Hts) as (t & -> & Ht).
  { rewrite length_stamps, length_info_bytes. pose proof (unbegun_rest done rest r ltac:(lia)). lia. }
  cbn [mbind outcome_bind]. unfold print_queue_status_to_log. cbn [spk_fifo ts_fifo last_spk_info read_write_diff_bytes].
  destruct (fifo_available_ok _ _ _ Hf) as (f' & -> & Hf'). destruct (fifo_available_ok _ _ _ Ht) as (t' & -> & Ht').
  cbn [mbind outcome_bind]. eexists. split; [done|].
  assert (signal ((done ++ rest) ++ [(i, d)]) = signal (done ++ rest) ++ d) as Hsig.
  { rewrite signal_app. unfold signal at 2. cbn. by rewrite app_nil_r. }
  split; cbn [spk_fifo ts_fifo last_spk_info read_write_diff_bytes].
  - apply Forall_app_2; [done|]. constructor; [by split_and!|constructor].
  - rewrite Hsig, length_app. lia.
  - rewrite Hsig, length_app. lia.
  - rewrite Hsig, drop_app_le by lia. done.
  - exists done, (rest ++ [(i, d)]). split; [by rewrite app_assoc|]. split; [|done].
    rewrite stamps_app. unfold stamps at 2. cbn [fmap list_fmap concat compose fst]. by rewrite app_nil_r.
Qed.

(** Reading gives the next bytes of the signal and the time of the first one. *)
Lemma read_queue_inv rooms h r q n s fuel :
  queue_inv rooms h r q -> 0 < n -> r + n <= zlen (signal h) -> (unbegun (lens h) r < fuel)%nat ->
  exists f q', fifo_read (spk_fifo q) n = Ret (f, n, take (Z.to_nat n) (drop (Z.to_nat r) (signal h)))
    /\ get_spk_timestamp fuel s (MkQueue f (ts_fifo q) (last_spk_info q) (read_write_diff_bytes q)) n = Ret (q', time_at s (timed h) r)
    /\ queue_inv rooms h (r + n) q'.
Proof.
  intros [Hall Hsmall Hr Hspk (done & rest & -> & Hts & Hdiff & Hle & Hlast)] Hn Hrn Hfuel.
  destruct (fifo_read_ok _ _ _ n Hspk) as (f & -> & Hf); [rewrite length_drop; lia|].
  rewrite drop_drop in Hf. replace (Z.to_nat r + Z.to_nat n)%nat with (Z.to_nat (r + n)) in Hf by lia.
  exists f. unfold get_spk_timestamp. cbn [spk_fifo ts_fifo last_spk_info read_write_diff_bytes].
  pose proof (unbegun_rest done rest r ltac:(lia)) as Hcount. rewrite signal_app, length_app in Hrn, Hsmall. apply Forall_app in Hall as [Hdone Hrest].
  assert (forall q', spk_fifo q' = f -> (exists done0 rest0, done ++ rest = done0 ++ rest0 /\ holds (ts_fifo q') rooms.2 (stamps rest0)
      /\ read_write_diff_bytes q' = r + n - zlen (signal done0) /\ read_write_diff_bytes q' <= 0
      /\ (read_write_diff_bytes q' < 0 ->
          exists done' p, done0 = done' ++ [p] /\ last_spk_info q' = p.1 /\ zlen (signal done') <= r + n))
    -> queue_inv rooms (done ++ rest) (r + n) q') as Hinv.
  { intros q' <- Hq. split; [by apply Forall_app_2|rewrite signal_app, length_app; lia|rewrite signal_app, length_app; lia|done|done]. }
  destruct (Z.ltb_spec (read_write_diff_bytes q) 0) as [Hneg|Hzero].
  - destruct (Hlast Hneg) as (done' & p & -> & -> & Hge). apply Forall_app in Hdone as [Hdone' Hp].
    apply list.Forall_cons in Hp as [(Hok & Hlen & Hne) _].
    rewrite signal_app, length_app in Hdiff, Hrn, Hsmall. replace (signal [p]) with p.2 in * by (unfold signal; cbn; by rewrite app_nil_r).
    rewrite s64_id by lia.
    destruct (fast_forward_spec rest fuel (ts_fifo q) rooms.2 p.1 (read_write_diff_bytes q + n) Hts Hrest)
      as (mid & rest' & t' & i' & -> & -> & Ht' & Hle' & Hcase); [lia|lia|lia|].
    cbn [mbind outcome_bind]. eexists. split; [done|]. split.
    + do 2 f_equal. rewrite <- app_assoc, time_at_app by lia. destruct p as [i d]. cbn [app timed fmap list_fmap time_at fst snd] in *.
      destruct (Z.ltb_spec (r - zlen (signal done')) (zlen d)); [|lia]. do 3 f_equal. rewrite u64_small by lia. lia.
    + apply Hinv; [done|]. exists ((done' ++ [p]) ++ mid), rest'. cbn [ts_fifo last_spk_info read_write_diff_bytes].
      split; [by rewrite !app_assoc|]. split; [done|].
      rewrite !signal_app, !length_app. replace (signal [p]) with p.2 by (unfold signal; cbn; by rewrite app_nil_r).
      split; [lia|]. split; [lia|]. intros Hlt. destruct Hcase as [(-> & -> & Hz)|(mid' & p' & -> & -> & Hlt')].
      * exists done', p. rewrite app_nil_r. split_and!; [done|done|lia].
      * exists ((done' ++ [p]) ++ mid'), p'. split_and!; [by rewrite app_assoc|done|].
        rewrite !signal_app, !length_app. replace (signal [p]) with p.2 by (unfold signal; cbn; by rewrite app_nil_r). lia.
  - assert (read_write_diff_bytes q = 0) as Hq0 by lia. rewrite Hq0 in *.
    destruct (fifo_available_ok _ _ _ Hts) as (t1 & -> & Ht1). cbn [mbind outcome_bind].
    destruct rest as [|p rest]; [cbn in Hrn; lia|]. rewrite length_stamps.
    destruct (Z.eqb_spec (Z.of_nat (40 * length (p :: rest))) 0) as [Hbad|_]; [cbn in Hbad; lia|].
    apply list.Forall_cons in Hrest as [Hp Hrest].
    destruct (read_info_ok _ _ _ _ (last_spk_info q) Ht1 Hp) as (t2 & -> & Ht2). cbn [mbind outcome_bind].
    destruct Hp as (Hok & Hlen & Hne). rewrite signal_cons, length_app in Hrn, Hsmall.
    rewrite Hlen, (s64_id (0 - _)) by lia. rewrite s64_id by lia.
    destruct (fast_forward_spec rest fuel t2 rooms.2 p.1 (0 - zlen p.2 + n) Ht2 Hrest)
      as (mid & rest' & t' & i' & -> & -> & Ht' & Hle' & Hcase); [cbn in Hcount; lia|lia|lia|].
    cbn [mbind outcome_bind]. eexists. split; [done|]. split.
    + do 2 f_equal. rewrite time_at_app by lia. destruct p as [i d]. cbn [timed fmap list_fmap time_at fst snd] in *.
      destruct (Z.ltb_spec (r - zlen (signal done)) (zlen d)); [|lia].
      replace (r - zlen (signal done)) with 0 by lia. by rewrite bytes_to_usec_0.
    + apply Hinv; [done|]. exists ((done ++ [p]) ++ mid), rest'. cbn [ts_fifo last_spk_info read_write_diff_bytes].
      split; [by rewrite <- !app_assoc|]. split; [done|].
      rewrite !signal_app, !length_app. replace (signal [p]) with p.2 by (unfold signal; cbn; by rewrite app_nil_r).
      split; [lia|]. split; [lia|]. intros Hlt. destruct Hcase as [(-> & -> & Hz)|(mid' & p' & -> & -> & Hlt')].
      * exists done, p. rewrite app_nil_r. split_and!; [done|done|lia].
      * exists ((done ++ [p]) ++ mid'), p'. split_and!; [by rewrite app_assoc|done|].
        rewrite !signal_app, !length_app. replace (signal [p]) with p.2 by (unfold signal; cbn; by rewrite app_nil_r). lia.
Qed.

End queues.

(** ** Samples *)

Lemma int16_range bs : Forall is_byte bs -> length bs = 2%nat -> -32768 <= int16 bs <= 32767.
Proof.
  intros Hb Hl. pose proof (le_val_range bs Hb) as Hr. rewrite Hl in Hr. change (2 ^ (8 * Z.of_nat 2)) with 65536 in Hr.
  unfold int16. zcases; lia.
Qed.

(** The sample [k] of a buffer of 16-bit samples. *)
Definition sample16 (buf : list Z) (k : Z) : Z := int16 (take 2 (drop (Z.to_nat (2 * k)) buf)).

Lemma sample16_range buf k : Forall is_byte buf -> 0 <= k -> 2 * k + 2 <= zlen buf -> -32768 <= sample16 buf k <= 32767.
Proof.
  intros Hb Hk Hl. apply int16_range; [by apply Forall_take, Forall_drop|]. rewrite length_take, length_drop. lia.
Qed.

(** The sum of the [n] samples from [k] on. *)
Fixpoint sum16 (buf : list Z) (k : Z) (n : nat) : Z :=
  match n with O => 0 | S n' => sample16 buf k + sum16 buf (k + 1) n' end.

Lemma sum16_range buf n : forall k,
  Forall is_byte buf -> 0 <= k -> 2 * (k + Z.of_nat n) <= zlen buf -> -32768 * Z.of_nat n <= sum16 buf k n <= 32767 * Z.of_nat n.
Proof.
  induction n as [|n IH]; intros k Hb Hk Hl; cbn [sum16]; [lia|].
  pose proof (sample16_range buf k Hb Hk ltac:(lia)). specialize (IH (k + 1) Hb ltac:(lia) ltac:(lia)). lia.
Qed.

Lemma sum_channels_spec buf n : forall k acc,
  Forall is_byte buf -> 0 <= k -> 2 * (k + Z.of_nat n) <= zlen buf ->
  - 2147483648 <= acc - 32768 * Z.of_nat n -> acc + 32767 * Z.of_nat n < 2147483648 ->
  sum_channels buf (2 * k) n acc = Ret (acc + sum16 buf k n).
Proof.
  induction n as [|n IH]; intros k acc Hb Hk Hl Hlo Hhi; cbn [sum_channels sum16]; [by rewrite Z.add_0_r|].
  rewrite load_ret by lia. cbn [mbind outcome_bind]. change (Z.to_nat 2) with 2%nat.
  change (int16 (take 2 (drop (Z.to_nat (2 * k)) buf))) with (sample16 buf k).
  pose proof (sample16_range buf k Hb Hk ltac:(lia)). rewrite s32_id by lia.
  replace (2 * k + 2) with (2 * (k + 1)) by lia. rewrite IH by (done || lia). f_equal. lia.
Qed.

(** ** Downmixing in place *)

(** The mean over the channels of frame [f], rounded towards zero. *)
Definition frame_mean (chans : Z) (buf : list Z) (f : Z) : Z := Z.quot (sum16 buf (f * chans) (Z.to_nat chans)) chans.

(** Reading behind a part of the buffer does not depend on it. *)
Lemma sum_channels_suffix pre pre' rest n : forall src acc,
  length pre = length pre' -> zlen pre <= src ->
  sum_channels (pre ++ rest) src n acc = sum_channels (pre' ++ rest) src n acc.
Proof.
  induction n as [|n IH]; intros src acc Hl Hs; cbn [sum_channels]; [done|].
  assert (load (pre ++ rest) src 2 = load (pre' ++ rest) src 2) as ->.
  { unfold load. rewrite !length_app, Hl. destruct (_ && _); [|done]. f_equal. rewrite !drop_app_ge by lia. by rewrite Hl. }
  destruct (load _ _ _); cbn [mbind outcome_bind]; [|done|done]. apply IH; [done|lia].
Qed.

(** The means of [n] frames from [f] on. *)
Fixpoint mean_bytes (chans : Z) (buf : list Z) (f : Z) (n : nat) : list Z :=
  match n with O => [] | S n' => le_bytes 2 (frame_mean chans buf f) ++ mean_bytes chans buf (f + 1) n' end.

Lemma length_mean_bytes chans buf n : forall f, length (mean_bytes chans buf f n) = (2 * n)%nat.
Proof. induction n as [|n IH]; intros f; cbn [mean_bytes]; [done|]. rewrite length_app, length_le_bytes, IH. lia. Qed.

Lemma quot_mean_range s c : 1 <= c -> -32768 * c <= s <= 32767 * c -> -32768 <= Z.quot s c <= 32767.
Proof. intros. Z.to_euclidean_division_equations. nia. Qed.

Lemma frame_mean_range chans buf f :
  1 <= chans -> 0 <= f -> Forall is_byte buf -> 2 * ((f + 1) * chans) <= zlen buf -> -32768 <= frame_mean chans buf f <= 32767.
Proof.
  intros Hc Hf Hb Hl. apply quot_mean_range; [done|].
  pose proof (sum16_range buf (Z.to_nat chans) (f * chans) Hb ltac:(nia) ltac:(nia)). lia.
Qed.

Lemma int16_le z : -32768 <= z <= 32767 -> int16 (le_bytes 2 z) = z.
Proof.
  intros Hz. unfold int16. rewrite le_val_bytes. change (2 ^ (8 * Z.of_nat 2)) with 65536. zcases; Z.to_euclidean_division_equations; lia.
Qed.

(** The means are the samples of the buffer they were written to. *)
Lemma sample16_mean chans buf rest n : forall f0 f,
  (forall g, f0 <= g < f0 + Z.of_nat n -> -32768 <= frame_mean chans buf g <= 32767) -> 0 <= f < Z.of_nat n ->
  sample16 (mean_bytes chans buf f0 n ++ rest) f = frame_mean chans buf (f0 + f).
Proof.
  induction n as [|n IH]; intros f0 f Hr Hf; [lia|]. cbn [mean_bytes]. rewrite <- app_assoc.
  destruct (decide (f = 0)) as [->|Hne].
  - unfold sample16. change (Z.to_nat (2 * 0)) with 0%nat. rewrite drop_0. rewrite take_app_length' by (by rewrite length_le_bytes).
    rewrite int16_le by (apply Hr; lia). f_equal. lia.
  - unfold sample16. rewrite drop_app_ge by (rewrite length_le_bytes; lia). rewrite length_le_bytes.
    replace (Z.to_nat (2 * f) - 2)%nat with (Z.to_nat (2 * (f - 1))) by lia.
    change (sample16 (mean_bytes chans buf (f0 + 1) n ++ rest) (f - 1) = frame_mean chans buf (f0 + f)).
    rewrite IH; [f_equal; lia| |lia]. intros g Hg. apply Hr. lia.
Qed.

Section downmix.
Context `{AU : AudioUtils}.
Context (Hclamp : forall z, -32768 <= z <= 32767 -> clamp16 z = z).

(** The frames in front of [f] are done: their means are in [pre].  The source
    is never behind the destination, so the frames to come are still there. *)
Lemma downmix_spec chans orig n : forall f pre,
  1 <= chans <= 65535 -> Forall is_byte orig -> 0 <= f -> zlen pre = 2 * f ->
  2 * ((f + Z.of_nat n) * chans) <= zlen orig ->
  downmix_loop n chans (pre ++ drop (Z.to_nat (2 * f)) orig) (2 * (f * chans)) (2 * f)
  = Ret (pre ++ mean_bytes chans orig f n ++ drop (Z.to_nat (2 * (f + Z.of_nat n))) orig).
Proof.
  induction n as [|n IH]; intros f pre Hc Hb Hf Hpre Hl; cbn [downmix_loop mean_bytes].
  { cbn [app]. do 4 f_equal. lia. }
  assert (2 * f <= zlen orig) as Hfo by nia.
  assert (length (pre ++ drop (Z.to_nat (2 * f)) orig) = length orig) as Hlen by (rewrite length_app, length_drop; lia).
  pose proof (sum16_range orig (Z.to_nat chans) (f * chans) Hb ltac:(nia) ltac:(nia)) as Hrange. rewrite Z2Nat.id in Hrange by lia.
  assert (sum_channels (pre ++ drop (Z.to_nat (2 * f)) orig) (2 * (f * chans)) (Z.to_nat chans) 0
    = Ret (sum16 orig (f * chans) (Z.to_nat chans))) as ->.
  { rewrite (sum_channels_suffix pre (take (Z.to_nat (2 * f)) orig)); [|rewrite length_take; lia|nia].
    rewrite take_drop, sum_channels_spec; [by rewrite Z.add_0_l|done|nia|nia|lia|lia]. }
  cbn [mbind outcome_bind]. rewrite s32_id by lia. destruct (Z.eqb_spec chans 0); [lia|].
  fold (frame_mean chans orig f). rewrite Hclamp by (apply quot_mean_range; lia).
  rewrite store_ret by (rewrite ?length_le_bytes; nia). rewrite length_le_bytes. cbn [mbind outcome_bind].
  replace (Z.to_nat (2 * f)) with (length pre) at 1 2 by lia. rewrite take_app_length.
  rewrite drop_app_ge by lia. rewrite drop_drop.
  replace (Z.to_nat (2 * f) + (Z.to_nat (2 * f) + 2 - length pre))%nat with (Z.to_nat (2 * (f + 1))) by lia.
  rewrite app_assoc. replace (2 * (f * chans) + 2 * chans) with (2 * ((f + 1) * chans)) by lia.
  replace (2 * f + 2) with (2 * (f + 1)) by lia. rewrite IH; [|done|done|lia|rewrite length_app, length_le_bytes; lia|nia].
  rewrite <- !app_assoc. do 5 f_equal. lia.
Qed.
End downmix.

(** ** Widening *)

(** 16-bit samples as 32-bit samples, byte by byte. *)
Fixpoint widen (bs : list Z) : list Z :=
  match bs with
  | b0 :: b1 :: bs' => 0 :: 0 :: b0 :: b1 :: widen bs'
  | _ => []
  end.

Lemma widen_sample b0 b1 : is_byte b0 -> is_byte b1 -> le_bytes 4 (Z.shiftl (int16 [b0; b1]) 16) = [0; 0; b0; b1].
Proof.
  intros H0 H1. rewrite Z.shiftl_mul_pow2 by lia. change (2 ^ 16) with 65536.
  rewrite le_bytes_mod. change (2 ^ (8 * Z.of_nat 4)) with 4294967296.
  assert ((int16 [b0; b1] * 65536) mod 4294967296 = le_val [0; 0; b0; b1]) as ->.
  { unfold int16, is_byte, le_val in *. zcases; Z.to_euclidean_division_equations; lia. }
  apply (le_bytes_val [0; 0; b0; b1]). unfold is_byte in *. repeat (apply Forall_cons_2; [lia|]). apply Forall_nil_2.
Qed.

Lemma widen_loop_spec n : forall out src buf dst,
  Forall is_byte out -> 0 <= src -> 0 <= dst -> src + 2 * Z.of_nat n <= zlen out -> dst + 4 * Z.of_nat n <= zlen buf ->
  widen_loop n out src buf dst
  = Ret (take (Z.to_nat dst) buf ++ widen (take (2 * n) (drop (Z.to_nat src) out)) ++ drop (Z.to_nat dst + 4 * n) buf).
Proof.
  induction n as [|n IH]; intros out src buf dst Hb Hs Hd Ho Hbuf; cbn [widen_loop].
  { rewrite !Nat.mul_0_r, Nat.add_0_r, take_0. cbn [widen app]. by rewrite take_drop. }
  rewrite load_ret by lia. cbn [mbind outcome_bind]. change (Z.to_nat 2) with 2%nat.
  destruct (drop (Z.to_nat src) out) as [|b0 [|b1 rest]] eqn:Hdrop.
  1,2: (assert (length (drop (Z.to_nat src) out) <= 1)%nat by (rewrite Hdrop; cbn; lia); rewrite length_drop in *; lia).
  assert (Forall is_byte (b0 :: b1 :: rest)) as Hall by (rewrite <- Hdrop; by apply Forall_drop).
  apply list.Forall_cons in Hall as [H0 Hall]. apply list.Forall_cons in Hall as [H1 _].
  cbn [take]. rewrite take_0, widen_sample by done.
  rewrite store_ret by (cbn; lia). cbn [mbind outcome_bind]. rewrite IH; [|done|lia|lia|lia|].
  2:{ rewrite !length_app, length_take, length_drop. cbn. lia. }
  replace (2 * S n)%nat with (S (S (2 * n))) by lia. cbn [take widen].
  replace (drop (Z.to_nat (src + 2)) out) with rest.
  2:{ replace (Z.to_nat (src + 2)) with (Z.to_nat src + 2)%nat by lia. by rewrite <- drop_drop, Hdrop. }
  replace (Z.to_nat (dst + 4)) with (Z.to_nat dst + 4)%nat by lia. cbn [length].
  set (pre := take (Z.to_nat dst) buf). assert (length pre = Z.to_nat dst) as Hpre by (unfold pre; rewrite length_take; lia).
  set (x := [0; 0; b0; b1]). assert (length x = 4%nat) as Hx by done.
  rewrite (app_assoc pre x), take_app_length' by (rewrite length_app; lia).
  rewrite drop_app_ge by (rewrite length_app; lia). rewrite drop_drop, length_app, <- app_assoc. f_equal.
  f_equal. unfold x. cbn [app]. do 6 f_equal. cbn [length]. lia.
Qed.

(** ** Getting the reference *)

Section reference.
Context `{FL : FifoLaws} `{RS : Resampler} `{AU : AudioUtils}.

(** A reference in the format of the microphone: [chans] channels, the same rate,
    no resampler, and a buffer of [size] bytes. *)
Record ref_cfg (a : aec_t) (chans size : Z) : Prop := MkRefCfg
  { rc_chans : 1 <= chans <= 65535;
    rc_ref : num_reference_channels a = chans;
    rc_spk : aec_s a = MkSpk true chans (2 * chans) (mic_sampling_rate (aec_m a));
    rc_frame : mic_frame_size_bytes (aec_m a) = 4 * chans;
    rc_rate : 0 < mic_sampling_rate (aec_m a) < 4294967296;
    rc_buf : exists buf, spk_buf_playback_format (aec_b a) = Live buf /\ zlen buf = size /\ Forall is_byte buf;
    rc_resampler : spk_resampler (aec_b a) = Null }.

(** When enough was played, there is no wait. *)
Lemma wait_loop_ready n waits rooms h r q req :
  queue_inv rooms h r q -> 0 <= req -> r + req <= zlen (signal h) ->
  exists q', wait_loop n waits q req = Ret (q', None) /\ queue_inv rooms h r q'.
Proof.
  intros Hq Hreq Hrn. pose proof Hq as [Hall Hsmall Hr Hspk Hts].
  destruct (fifo_available_ok _ _ _ Hspk) as (f & He & Hf).
  assert (exists q', wait_loop n waits q req = Ret (q', None)
    /\ q' = MkQueue f (ts_fifo q) (last_spk_info q) (read_write_diff_bytes q)) as (q' & -> & ->).
  { eexists. split; [|done]. destruct n; cbn [wait_loop]; rewrite He; cbn [mbind outcome_bind];
      rewrite length_drop, u64_small by lia; destruct (Z.leb_spec req (Z.of_nat (length (signal h) - Z.to_nat r))); done || lia. }
  eexists. split; [done|]. by split.
Qed.

Lemma fetch_ok fuel waits a chans size rooms h r frames buffer info :
  ref_cfg a chans size -> queue_inv rooms h r (aec_q a) -> Forall is_byte (signal h) ->
  let n := frames * (2 * chans) in
  0 < frames -> n <= size < 9223372036854775808 -> r + n <= zlen (signal h) -> (unbegun (lens h) r < fuel)%nat ->
  ai_bytes info = frames * (4 * chans) -> frames * (4 * chans) <= zlen buffer ->
  exists a', get_reference_samples fuel waits a buffer info
      = Ret (a', widen (take (Z.to_nat n) (drop (Z.to_nat r) (signal h))) ++ drop (Z.to_nat (frames * (4 * chans))) buffer,
             MkInfo (ai_timestamp info) (time_at (aec_s a) (timed h) r) (ai_available info) (ai_bytes info), 0)
    /\ ref_cfg a' chans size /\ queue_inv rooms h (r + n) (aec_q a') /\ aec_s a' = aec_s a /\ aec_m a' = aec_m a
    /\ spk_running a' = spk_running a.
Proof.
  intros [Hc Hnum Hspk Hframe Hrate (buf & Hbuf & Hsize & Hbytes) Hres] Hq Hsig n Hf Hn Hrn Hfuel Hlen Hroom.
  unfold get_reference_samples. rewrite Hspk, Hframe, Hlen. aec_cbn.
  destruct (Z.eqb_spec (4 * chans) 0); [lia|]. destruct (Z.eqb_spec (mic_sampling_rate (aec_m a)) 0); [lia|]. aec_cbn.
  rewrite Z.div_mul, Z.div_same, Z.mul_1_r by lia. rewrite (u64_small frames) by nia.
  rewrite (u64_small (frames * (2 * chans))) by nia. fold n.
  destruct (wait_loop_ready MAX_READ_WAIT_TIME_MSEC waits rooms h r (aec_q a) n Hq ltac:(lia) Hrn) as (q1 & -> & Hq1).
  aec_cbn. destruct (read_queue_inv rooms h r q1 n (aec_s a) fuel Hq1 ltac:(lia) Hrn Hfuel) as (f & q2 & -> & Hts & Hq2).
  aec_cbn. rewrite Hbuf. aec_cbn.
  set (got := take (Z.to_nat n) (drop (Z.to_nat r) (signal h))).
  pose proof (qi_read _ _ _ _ Hq) as Hr. assert (zlen got = n) as Hgot by (unfold got; rewrite length_take, length_drop; lia).
  rewrite store_ret by lia. aec_cbn.
  rewrite Hspk in *. rewrite Hts. aec_cbn.
  unfold get_reference_audio_in_place. aec_cbn.
  rewrite Hnum, Hspk. aec_cbn. rewrite Z.eqb_refl. aec_cbn.
  rewrite Hres. aec_cbn. rewrite Hnum.
  set (buf' := take _ buf ++ _). assert (buf' = got ++ drop (length got) buf) as -> by done.
  assert (Forall is_byte got) as Hgb by (unfold got; by apply Forall_take, Forall_drop).
  rewrite widen_loop_spec; [|apply Forall_app_2; [done|by apply Forall_drop]|lia|lia|rewrite length_app, length_drop; nia|nia].
  aec_cbn. rewrite take_0, drop_0. cbn [app Nat.add].
  replace (2 * Z.to_nat (frames * chans))%nat with (length got) by nia. rewrite take_app_length.
  replace (Z.to_nat 0 + 4 * Z.to_nat (frames * chans))%nat with (Z.to_nat (frames * (4 * chans))) by lia.
  eexists. split; [done|]. split; [|split; [done|by split_and!]].
  split; aec_cbn;
    try done.
  exists (got ++ drop (length got) buf). split; [done|]. split; [rewrite length_app, length_drop; lia|].
  apply Forall_app_2; [done|by apply Forall_drop].
Qed.

(** The configuration of a microphone with the rate of the playback. *)
Lemma init_mic_same_rate junk a cfg frame_size rooms l l' :
  mic_initialized (aec_m a) = false -> pc_rate cfg = spk_sampling_rate (aec_s a) -> pc_rate cfg <> 0 ->
  holds (spk_fifo (aec_q a)) rooms.1 l -> holds (ts_fifo (aec_q a)) rooms.2 l' ->
  let size := u64 (pc_period_size cfg * frame_size) in
  let spk_size := u64 (pc_period_size cfg * spk_frame_size_bytes (aec_s a)) in
  exists f t, holds f rooms.1 [] /\ holds t rooms.2 []
    /\ init_aec_mic_config (fun _ => true) junk (Live a) cfg frame_size
       = Ret (Live (MkAec (num_reference_channels a)
                     (MkMic true (Live (replicate (Z.to_nat size) 0)) (pc_channels cfg) size frame_size (pc_rate cfg) (last_mic_info (aec_m a)))
                     (aec_s a)
                     (MkBufs (Live (replicate (Z.to_nat spk_size) 0)) spk_size
                        (Live (replicate (Z.to_nat (u64 (1 * spk_size))) junk)) (Live (replicate (Z.to_nat spk_size) junk)) Null)
                     (MkQueue f t (last_spk_info (aec_q a)) 0) (spk_running a) (prev_spk_running a)), 0).
Proof.
  intros Hm Hr Hr0 Hf Ht size spk_size. destruct (flush_if_ok _ _ _ Hf) as (f & Hef & Hf'). destruct (flush_if_ok _ _ _ Ht) as (t & Het & Ht').
  exists f, t. split; [done|]. split; [done|]. unfold init_aec_mic_config. aec_cbn. rewrite Hm. aec_cbn. unfold malloc. aec_cbn.
  rewrite <- Hr. destruct (Z.eqb_spec (pc_rate cfg) 0); [done|]. rewrite Z.eqb_refl. cbn [Z.eqb negb]. rewrite Z.div_same by done.
  unfold flush_aec_fifos. aec_cbn. rewrite Hef. aec_cbn. rewrite Het. aec_cbn. done.
Qed.

End reference.
