(* ===== verification/AecClaims.v ===== *)
(** * The echo reference: downmixing, waiting and failures *)

From Stdlib Require Import ZArith Lia SpecFloat.
From stdpp Require Import base list numbers strings.
From S2P Require Import Prelude CFloat Fir FirProofs Aec AecProofs.

(** ** Downmixing *)

Section downmixing.
Context `{AF : AudioFifo} `{RS : Resampler} `{AU : AudioUtils}.

(** C36: Downmixing in place computes the mean.  The buffer is read and written at
    the same time, but no sample is overwritten before it was read: for a mono
    reference of up to 65535 channels the first samples of the buffer become the
    means over the channels of the frames it held, rounded towards zero, which
    never saturate, and the rest stays as it was.  [clamp16] is only supposed to
    leave 16-bit numbers alone. *)
Theorem downmix_in_place_means a frames buf :
  (forall z, -32768 <= z <= 32767 -> clamp16 z = z) ->
  num_reference_channels a = 1 -> 2 <= spk_num_channels (aec_s a) <= 65535 -> 0 <= frames ->
  spk_buf_playback_format (aec_b a) = Live buf -> Forall is_byte buf -> 2 * (frames * spk_num_channels (aec_s a)) <= zlen buf ->
  exists a' buf', get_reference_audio_in_place a frames = Ret a' /\ spk_buf_playback_format (aec_b a') = Live buf'
    /\ length buf' = length buf
    /\ (forall f, 0 <= f < frames -> sample16 buf' f = frame_mean (spk_num_channels (aec_s a)) buf f)
    /\ drop (Z.to_nat (2 * frames)) buf' = drop (Z.to_nat (2 * frames)) buf.
Proof.
  intros Hclamp Hnum Hc Hf Hbuf Hb Hlen. unfold get_reference_audio_in_place. rewrite Hnum, Hbuf.
  set (chans := spk_num_channels (aec_s a)) in *.
  destruct (Z.eqb_spec 1 chans); [lia|]. aec_cbn. cbn [Z.eqb]. aec_cbn.
  pose proof (downmix_spec Hclamp chans buf (Z.to_nat frames) 0 [] ltac:(lia) Hb ltac:(lia) eq_refl ltac:(nia)) as Hd.
  rewrite Z2Nat.id in Hd by lia. cbn [app] in Hd. rewrite drop_0 in Hd. change (2 * (0 * chans)) with 0 in Hd. change (2 * 0) with 0 in Hd.
  cbn [Pos.eqb negb]. rewrite Hd. aec_cbn. rewrite Z.add_0_l.
  pose proof (length_mean_bytes chans buf (Z.to_nat frames) 0) as Hm. assert (2 * frames <= zlen buf) as Hlen2 by nia.
  eexists _, _. split; [done|]. split; [done|]. split; [rewrite length_app, length_drop; lia|]. split.
  - intros f Hfr. rewrite (sample16_mean chans buf); [by rewrite Z.add_0_l| |lia].
    intros g Hg. apply frame_mean_range; [lia|lia|done|nia].
  - rewrite drop_app_ge by lia. rewrite drop_drop. f_equal. lia.
Qed.

End downmixing.

(** ** Waiting *)

Section waiting.
Context `{FL : FifoLaws} `{RS : Resampler} `{AU : AudioUtils}.

(** C37: Waiting for the reference ends: when fewer bytes were played than are
    needed, and nothing is played meanwhile, [get_reference_samples] gives up after
    its 81 polls with [-ETIMEDOUT]; the buffer and the information are untouched,
    and what was played is still in the queue. *)
Theorem reference_wait_times_out fuel waits a buffer info rooms h r :
  spk_initialized (aec_s a) = true -> mic_frame_size_bytes (aec_m a) <> 0 -> mic_sampling_rate (aec_m a) <> 0 ->
  queue_inv rooms h r (aec_q a) -> (forall k, waits k = []) ->
  zlen (signal h) - r < u64 (u64 (ai_bytes info / mic_frame_size_bytes (aec_m a) * (spk_sampling_rate (aec_s a) / mic_sampling_rate (aec_m a)))
                              * spk_frame_size_bytes (aec_s a)) ->
  exists q', get_reference_samples fuel waits a buffer info = Ret (set_queue q' a, buffer, info, - ETIMEDOUT)
    /\ queue_inv rooms h r q'.
Proof.
  intros Hinit Hf Hr Hq Hwaits Hfew. unfold get_reference_samples. rewrite Hinit. cbn [negb].
  destruct (Z.eqb_spec (mic_frame_size_bytes (aec_m a)) 0); [done|]. destruct (Z.eqb_spec (mic_sampling_rate (aec_m a)) 0); [done|].
  cbn [orb]. set (req := u64 _) in *.
  assert (forall n q, queue_inv rooms h r q -> exists q', wait_loop n waits q req = Ret (q', Some (- ETIMEDOUT)) /\ queue_inv rooms h r q') as Hw.
  { intros k. induction k as [|k IH]; intros q [Hall Hsmall Hread Hspk Hts]; cbn [wait_loop];
      destruct (fifo_available_ok _ _ _ Hspk) as (f & -> & Hf'); cbn [mbind outcome_bind];
      rewrite length_drop, u64_small by lia; (destruct (Z.leb_spec req (Z.of_nat (length (signal h) - Z.to_nat r))); [lia|]);
      (destruct (Z.ltb_spec (Z.of_nat (length (signal h) - Z.to_nat r)) 0); [lia|]); rewrite Hwaits; cbn [play_all mbind outcome_bind].
    - eexists. split; [done|]. by split.
    - apply IH. by split. }
  destruct (Hw MAX_READ_WAIT_TIME_MSEC (aec_q a) Hq) as (q' & -> & Hq'). cbn [mbind outcome_bind]. by exists q'.
Qed.

End waiting.

Section overflow.
Context `{AF : AudioFifo} `{RS : Resampler} `{AU : AudioUtils}.

(** An overflow of the reference is not reported.  The header promises
    [-ENOMEM] when the queue overflows, but its negative answer is compared as an
    unsigned number and counts as more than enough, so for requests below 2^63
    bytes [get_reference_samples] never returns [-ENOMEM]. *)
Theorem overflow_not_reported fuel waits a buffer info a' buffer' info' rc :
  (forall f, - 9223372036854775808 <= (af_available f).2 < 9223372036854775808) ->
  u64 (u64 (ai_bytes info / mic_frame_size_bytes (aec_m a) * (spk_sampling_rate (aec_s a) / mic_sampling_rate (aec_m a)))
       * spk_frame_size_bytes (aec_s a)) < 9223372036854775808 ->
  get_reference_samples fuel waits a buffer info = Ret (a', buffer', info', rc) -> rc <> - ENOMEM.
Proof.
  intros Hav Hreq Hret. unfold get_reference_samples in Hret. destruct (negb (spk_initialized (aec_s a))); [by simplify_eq|].
  destruct (_ || _); [done|]. set (req := u64 _) in *.
  apply outcome_bind_inv in Hret as ([q failed] & Hw & Hret).
  assert (failed <> Some (- ENOMEM)) as Hno.
  { revert Hw. generalize (aec_q a). generalize MAX_READ_WAIT_TIME_MSEC. intros n.
    assert (forall q0, wait_loop n waits q0 req = Ret (q, failed) -> failed <> Some (- ENOMEM)) as Hloop; [|exact Hloop].
    induction n as [|n IH]; intros q0 Hw; cbn [wait_loop] in Hw;
      apply outcome_bind_inv in Hw as ([f avail] & Ha & Hw);
      (assert (- 9223372036854775808 <= avail < 9223372036854775808) as Hrange;
        [unfold fifo_available_to_read in Ha; apply outcome_bind_inv in Ha as (f0 & _ & Ha);
         specialize (Hav f0); destruct (af_available f0); simplify_eq; done|]);
      (destruct (Z.leb_spec req (u64 avail)); [by simplify_eq|]);
      (destruct (Z.ltb_spec avail 0);
        [assert (u64 avail = avail + 18446744073709551616) by (unfold u64; Z.to_euclidean_division_equations; lia); lia|]);
      apply outcome_bind_inv in Hw as (q1 & _ & Hw); [by simplify_eq|by apply IH in Hw]. }
  destruct failed as [rc'|]; [simplify_eq; congruence|].
  repeat match type of Hret with
  | (_ ≫= _) = Ret _ => apply outcome_bind_inv in Hret as ([] & _ & Hret) || apply outcome_bind_inv in Hret as (? & _ & Hret)
  | (let '(_, _) := ?x in _) = Ret _ => destruct x
  end.
  all: simplify_eq; done.
Qed.

End overflow.

(** ** Failures of the canceller *)

Section processing.
Context `{AF : AudioFifo} `{RS : Resampler} `{AU : AudioUtils}.

(** Invert the steps of a computation that returned. *)
Ltac steps H :=
  repeat first
    [ progress (cbn [negb] in H)
    | match type of H with
      | (_ ≫= _) = Ret _ => let x := fresh "x" in let E := fresh "E" in apply outcome_bind_inv in H as (x & E & H); cbv beta in H
      | context [let '(_, _) := ?x in _] => is_var x; destruct x
      end ].

Lemma flush_mic a a' : flush_aec_fifos a = Ret a' -> aec_m a' = aec_m a.
Proof. unfold flush_aec_fifos. intros H. steps H. by simplify_eq. Qed.

Lemma in_place_mic a n a' : get_reference_audio_in_place a n = Ret a' -> aec_m a' = aec_m a.
Proof.
  unfold get_reference_audio_in_place. intros H. destruct (_ =? _); [by simplify_eq|]. destruct (negb _); [by simplify_eq|].
  steps H. by simplify_eq.
Qed.

Lemma reference_mic fuel waits a b i a' b' i' rc : get_reference_samples fuel waits a b i = Ret (a', b', i', rc) -> aec_m a' = aec_m a.
Proof.
  unfold get_reference_samples. intros H. destruct (negb _); [by simplify_eq|]. destruct (_ || _); [done|].
  apply outcome_bind_inv in H as ([q failed] & _ & H). destruct failed; [by simplify_eq|].
  apply outcome_bind_inv in H as ([[f n] got] & _ & H). apply outcome_bind_inv in H as (b0 & _ & H).
  apply outcome_bind_inv in H as (b1 & _ & H). apply outcome_bind_inv in H as ([q2 t] & _ & H).
  apply outcome_bind_inv in H as (a1 & Ha1%in_place_mic & H). apply outcome_bind_inv in H as (b2 & _ & H).
  apply outcome_bind_inv in H as ([a2 out] & Ha2 & H). apply outcome_bind_inv in H as (b3 & _ & H). simplify_eq.
  transitivity (aec_m a1); [|done]. destruct (spk_resampler (aec_b a1)) as [| |r]; [by simplify_eq|done|].
  cbn [deref mbind outcome_bind] in Ha2. destruct (resample_from_input _ _ _ _).
  apply outcome_bind_inv in Ha2 as (o1 & _ & Ha2). apply outcome_bind_inv in Ha2 as (o2 & _ & Ha2). by simplify_eq.
Qed.

(** After a failure the microphone samples kept are put back. *)
Lemma process_exit_restores a running buffer buffer1 bytes ret a' buffer' ret' mb raw :
  process_exit a running buffer1 bytes ret = Ret (a', buffer', ret') -> mic_buf (aec_m a) = Live mb ->
  load buffer 0 bytes = Ret raw -> load mb 0 bytes = Ret raw ->
  length buffer1 = length buffer -> drop (Z.to_nat bytes) buffer1 = drop (Z.to_nat bytes) buffer ->
  ret' = ret /\ (ret <> 0 -> buffer' = buffer).
Proof.
  intros He Hmb Hraw Hload Hlen Hdrop. unfold process_exit in He. destruct (Z.eqb_spec ret 0) as [->|Hne]; [by simplify_eq|].
  unfold set_prev in He. cbn [aec_m mic_buf] in He. rewrite Hmb in He. cbn [deref mbind outcome_bind] in He. rewrite Hload in He.
  cbn [mbind outcome_bind] in He. apply outcome_bind_inv in He as (b1 & Hst & He). apply outcome_bind_inv in He as (a1 & _ & He).
  simplify_eq. split; [done|]. intros _. pose proof (length_load _ _ _ _ Hraw) as Hl.
  apply load_ret_inv in Hraw as (_ & H0 & _ & ->). apply store_ret_inv in Hst as (_ & _ & ->).
  change (Z.to_nat 0) with 0%nat. rewrite take_0, drop_0. cbn [app Nat.add]. rewrite drop_0 in Hl.
  replace (length (take (Z.to_nat bytes) buffer)) with (Z.to_nat bytes) by lia. rewrite Hdrop. apply take_drop.
Qed.

(** A failure of the canceller never costs samples of the microphone: whatever
    the canceller has written before it failed, when [process_aec] returns an
    error the buffer holds exactly what the microphone recorded.  The canceller
    writes at most the bytes of the request. *)
Theorem process_failure_keeps_mic process fuel waits junk p buffer info p' buffer' ret :
  (forall s st m mt n, zlen (process s st m mt n).2 <= ai_bytes info) ->
  process_aec process fuel waits junk p buffer info = Ret (p', buffer', ret) -> ret <> 0 -> buffer' = buffer.
Proof.
  intros Hproc Hret Hne. unfold process_aec in Hret. destruct (is_null p); [by simplify_eq|].
  apply outcome_bind_inv in Hret as (a & _ & Hret). destruct (_ || _); [by simplify_eq|].
  destruct (mic_frame_size_bytes (aec_m a) =? 0); [done|].
  apply outcome_bind_inv in Hret as (mb0 & _ & Hret). apply outcome_bind_inv in Hret as (raw & Hraw & Hret).
  apply outcome_bind_inv in Hret as (mb & Hmb & Hret). set (a1 := set_mic _ a) in Hret.
  assert (load mb 0 (ai_bytes info) = Ret raw) as Hload.
  { rewrite <- (length_load _ _ _ _ Hraw). by apply (load_store_same mb0). }
  assert (mic_buf (aec_m a1) = Live mb) as Hmic by done.
  assert (forall a2 running a' b' r' ret0, aec_m a2 = aec_m a1 -> process_exit a2 running buffer (ai_bytes info) ret0 = Ret (a', b', r') ->
    r' <> 0 -> b' = buffer) as Hexit.
  { intros a2 running a' b' r' ret0 Hm He Hr. destruct (process_exit_restores _ _ buffer _ _ _ _ _ _ mb raw He) as [-> Hb];
      [by rewrite Hm|done|done|done|done|]. by apply Hb. }
  apply outcome_bind_inv in Hret as ([[a2 b2] r2] & Hret & Hfin). simplify_eq.
  destruct (negb (aec_get_spk_running a1)); [by eapply Hexit in Hret|].
  apply outcome_bind_inv in Hret as (a3 & Ha3 & Hret).
  assert (aec_m a3 = aec_m a1) as Hm3 by (destruct (negb _); [by apply flush_mic|by simplify_eq]).
  apply outcome_bind_inv in Hret as ([f avail] & _ & Hret). destruct (avail <=? 0); [by eapply Hexit in Hret|].
  apply outcome_bind_inv in Hret as (q & _ & Hret). apply outcome_bind_inv in Hret as (sb & _ & Hret).
  apply outcome_bind_inv in Hret as ([[[a4 sb'] si] rr] & Ha4%reference_mic & Hret). cbn [aec_m set_queue] in Ha4.
  destruct (negb (rr =? 0)); [eapply Hexit in Hret; [done|by rewrite <- Hm3, <- Ha4|done]|].
  destruct (_ || _).
  { apply outcome_bind_inv in Hret as (a5 & Ha5%flush_mic & Hret). eapply Hexit in Hret; [done|by rewrite Ha5, <- Hm3, <- Ha4|done]. }
  specialize (Hproc sb' (ai_timestamp_usec si) mb (timespec_to_usec (ai_timestamp info)) (ai_bytes info / mic_frame_size_bytes (aec_m a))).
  destruct (process _ _ _ _ _) as [status out]. cbn [snd] in Hproc.
  apply outcome_bind_inv in Hret as (b5 & Hb5 & Hret). pose proof (length_store _ _ _ _ Hb5) as Hl5.
  destruct (process_exit_restores _ _ buffer _ _ _ _ _ _ mb raw Hret) as [-> Hb]; [aec_cbn; by rewrite Ha4, Hm3|done|done|done| |by apply Hb].
  apply store_ret_inv in Hb5 as (_ & Hfit & ->). change (Z.to_nat 0) with 0%nat. rewrite take_0. cbn [app Nat.add].
  rewrite drop_app_ge by lia. rewrite drop_drop. f_equal. lia.
Qed.

End processing.

(** ** Concrete runs *)

(** A canceller with [chans] playback channels, a mono reference, 16-bit mono
    capture frames of four bytes, and the given queues and buffers. *)
Definition demo_aec {AF : AudioFifo} (chans : Z) (mic spk playback : list Z) (f t : audio_utils_fifo) : @aec_t AF no_resampler :=
  @MkAec AF no_resampler 1 (MkMic true (Live mic) 1 (zlen mic) 4 48000 info0) (MkSpk true chans (2 * chans) 48000)
    (@MkBufs no_resampler (Live spk) (zlen spk) (Live playback) (Live []) Null) (MkQueue (Live f) (Live t) info0 0) true true.

Lemma downmix_in_place_means_witness :
  exists a' buf', @get_reference_audio_in_place _ no_resampler saturating
      (demo_aec 2 [] [] [100; 0; 200; 0; 251; 255; 248; 255] (af_new 4) (af_new 40)) 2 = Ret a'
    /\ spk_buf_playback_format (aec_b a') = Live buf' /\ sample16 buf' 0 = 150 /\ sample16 buf' 1 = -6.
Proof.
  destruct (@downmix_in_place_means _ no_resampler saturating
    (demo_aec 2 [] [] [100; 0; 200; 0; 251; 255; 248; 255] (af_new 4) (af_new 40)) 2 [100; 0; 200; 0; 251; 255; 248; 255])
    as (a' & buf' & He & Hb & _ & Hm & _).
  - cbn. lia.
  - reflexivity.
  - cbn. lia.
  - lia.
  - reflexivity.
  - apply bytes_check. reflexivity.
  - cbn. lia.
  - exists a', buf'. split; [exact He|]. split; [exact Hb|]. rewrite !Hm by lia. split; reflexivity.
Defined.

Lemma reference_wait_times_out_witness :
  exists q', @get_reference_samples _ no_resampler saturating 1 (fun _ => []) (demo_aec 1 [] [] [0; 0; 0; 0] (af_new 4) (af_new 40))
      [7; 7; 7; 7] (MkInfo (MkTimespec 0 0) 0 0 4)
    = Ret (set_queue q' (demo_aec 1 [] [] [0; 0; 0; 0] (af_new 4) (af_new 40)), [7; 7; 7; 7], MkInfo (MkTimespec 0 0) 0 0 4, - ETIMEDOUT).
Proof.
  destruct (@reference_wait_times_out _ _ no_resampler saturating 1 (fun _ => [])
    (demo_aec 1 [] [] [0; 0; 0; 0] (af_new 4) (af_new 40)) [7; 7; 7; 7] (MkInfo (MkTimespec 0 0) 0 0 4) (4, 40) [] 0) as (q' & He & _).
  - reflexivity.
  - cbn. lia.
  - cbn. lia.
  - split; [constructor|cbn; lia|cbn; lia|by eexists|]. exists [], []. split; [done|]. split; [by eexists|]. cbn. split_and!; [lia|lia|lia].
  - reflexivity.
  - reflexivity.
  - exists q'. exact He.
Defined.

(** A queue that was written over its end. *)
Definition overrun_fifo : AudioFifo :=
  {| audio_utils_fifo := unit; af_new _ := tt; af_read _ _ := (tt, (- EOVERFLOW, [])); af_write _ bs := (tt, zlen bs);
     af_available _ := (tt, - EOVERFLOW); af_space _ := (tt, 0); af_flush _ := (tt, 0) |}.

(** The samples of an older read are given out, with success. *)
Lemma overflow_not_reported_witness :
  exists a' info', @get_reference_samples overrun_fifo no_resampler saturating 1 (fun _ => [])
      (@demo_aec overrun_fifo 1 [] [] [1; 2] tt tt) [7; 7; 7; 7] (MkInfo (MkTimespec 0 0) 0 0 4) = Ret (a', [0; 0; 1; 2], info', 0)
    /\ 0 <> - ENOMEM.
Proof.
  assert (exists a' info', @get_reference_samples overrun_fifo no_resampler saturating 1 (fun _ => [])
      (@demo_aec overrun_fifo 1 [] [] [1; 2] tt tt) [7; 7; 7; 7] (MkInfo (MkTimespec 0 0) 0 0 4) = Ret (a', [0; 0; 1; 2], info', 0))
    as (a' & info' & He) by (eexists _, _; vm_compute; reflexivity).
  exists a', info'. split; [exact He|].
  apply (@overflow_not_reported overrun_fifo no_resampler saturating 1 (fun _ => []) (@demo_aec overrun_fifo 1 [] [] [1; 2] tt tt)
           [7; 7; 7; 7] (MkInfo (MkTimespec 0 0) 0 0 4) a' [0; 0; 1; 2] info' 0).
  - intros f. cbn. unfold EOVERFLOW. lia.
  - reflexivity.
  - exact He.
Defined.

Definition demo_stamp : aec_info := MkInfo (MkTimespec 10 0) 0 0 4.

(** The canceller writes and then fails. *)
Definition failing_process (s : list Z) (st : Z) (m : list Z) (mt n : Z) : Z * list Z := (0, [9; 9; 9; 9]).

Definition processed : outcome (ptr (@aec_t _ no_resampler) * list Z * Z) :=
  @process_aec _ no_resampler saturating failing_process 5 (fun _ => []) info0
    (Live (demo_aec 1 [0; 0; 0; 0] [0; 0; 0; 0] [0; 0; 0; 0] (MkListFifo 8 (Some [5; 6; 7; 8])) (MkListFifo 80 (Some (info_bytes demo_stamp)))))
    [1; 2; 3; 4] demo_stamp.

Lemma process_failure_keeps_mic_witness : exists p' buffer', processed = Ret (p', buffer', - EINVAL) /\ buffer' = [1; 2; 3; 4].
Proof.
  assert (exists p' b', processed = Ret (p', b', - EINVAL)) as (p' & b' & He) by (eexists _, _; vm_compute; reflexivity).
  exists p', b'. split; [exact He|].
  eapply (@process_failure_keeps_mic _ no_resampler saturating failing_process 5 (fun _ => []) info0 _ [1; 2; 3; 4] demo_stamp).
  - intros. vm_compute. discriminate.
  - exact He.
  - discriminate.
Defined.
