(* ===== verification/AudioHw.v ===== *)
(** * The audio HAL (src/audio/audio_hw.c)

    The device with its output and input streams over tinyalsa.  A stream that
    was closed is freed: using it is a fault.  What tinyalsa answers is an
    argument of the calls, and what the headers of the audio framework define
    is the class [AudioHeaders]. *)

From Stdlib Require Import ZArith Lia SpecFloat.
From stdpp Require Import base gmap list numbers strings.
From S2P Require Import Prelude CLib CFloat Fir Aec.

Definition ENODEV : Z := 19.
Definition ENOSYS : Z := 38.

(** ** The audio framework *)

Class AudioHeaders : Type :=
  { AUDIO_SOURCE_ECHO_REFERENCE : Z;
    AUDIO_DEVICE_OUT_ALL : Z;
    PCM_FORMAT_S16_LE : Z;
    PCM_FORMAT_S32_LE : Z;
    audio_stream_out_frame_size : pcm_config -> Z;
    audio_stream_in_frame_size : pcm_config -> Z;
    audio_channel_count_from_out_mask : Z -> Z;
    audio_channel_count_from_in_mask : Z -> Z;
    audio_channel_out_mask_from_count : Z -> Z;
    audio_channel_in_mask_from_count : Z -> Z;
    audio_bytes_per_sample : Z -> Z;
    pcm_format_from_audio_format : Z -> Z;
    audio_format_from_pcm_format : Z -> Z;
    audio_utils_ns_from_timespec : timespec -> Z }.

(** ** Constants (audio_hw.h) *)

Definition CODEC_BASE_FRAME_COUNT : Z := 32.
Definition CAPTURE_PERIOD_SIZE : Z := CODEC_BASE_FRAME_COUNT * 16.
Definition CAPTURE_PERIOD_COUNT : Z := 4.
Definition PLAYBACK_PERIOD_SIZE : Z := CODEC_BASE_FRAME_COUNT * 32.
Definition PLAYBACK_PERIOD_COUNT : Z := 4.
Definition PLAYBACK_PERIOD_START_THRESHOLD : Z := 2.
Definition PCM_OPEN_RETRIES : nat := 100.
Definition SPEAKER_MAX_EQ_LENGTH : nat := 512.
Definition NANOS_PER_SECOND : Z := 1000000000.

(** An echo canceller in the HAL ([aec_hal]) takes a mono reference. *)
Definition NUM_AEC_REFERENCE_CHANNELS (aec_hal : bool) : Z := if aec_hal then 1 else 2.

(** ** Time *)

(** [(frames / (float) sampling_rate) * 1E9L] as a [long]. *)
Definition frames_to_nsec (frames rate : Z) : Z :=
  to_s64 (fmul c_long_double (convert c_long_double (fdiv c_float (of_int c_float frames) (of_int c_float rate)))
            (of_int c_long_double 1000000000)).

(** The loop that carries seconds. *)
Fixpoint carry_seconds (fuel : nat) (sec nsec : Z) : outcome (Z * Z) :=
  match fuel with
  | O => OutOfFuel
  | S fuel' => if 1000000000 <? nsec then carry_seconds fuel' (sec + 1) (nsec - 1000000000) else Ret (sec, nsec)
  end.

(** The loop takes a turn per second. *)
Definition carry_fuel (nsec : Z) : nat := S (Z.to_nat (nsec / 1000000000)).

Definition timestamp_adjust (ts : timespec) (frames rate : Z) : outcome timespec :=
  let nsec := s64 (tv_nsec ts + frames_to_nsec frames rate) in
  '(sec, nsec) ← carry_seconds (carry_fuel nsec) (tv_sec ts) nsec;
  if nsec <? 0 then Ret (MkTimespec (sec - 1) (nsec + 1000000000)) else Ret (MkTimespec sec nsec).

(** What [pcm_get_htimestamp] gives: the frames available and the time, [None]
    when it fails. *)
Definition htimestamp : Type := option (Z * timespec).

(** [buffer_size] is that of the pcm; [-info->available] is an [unsigned int]. *)
Definition get_pcm_timestamp (ans : htimestamp) (buffer_size rate : Z) (info : aec_info) (isOutput : bool)
    : outcome (aec_info * Z) :=
  match ans with
  | None => Ret (MkInfo (MkTimespec 0 0) (ai_timestamp_usec info) (ai_available info) (ai_bytes info), - EINVAL)
  | Some (avail, ts) =>
      let frames := if isOutput then u32 (buffer_size - avail) else u32 (- avail) in
      ts ← timestamp_adjust ts frames rate;
      Ret (MkInfo ts (ai_timestamp_usec info) avail (ai_bytes info), 0)
  end.

(** ** The file of the speaker equaliser *)

Definition c_hash : Z := 35.
Definition c_newline : Z := 10.

(** [getline] on the rest of a file: the line with its newline, and the rest. *)
Fixpoint split_line (rest : list Z) : list Z * list Z :=
  match rest with
  | [] => ([], [])
  | c :: rest' => if c =? c_newline then ([c], rest') else let '(l, r) := split_line rest' in (c :: l, r)
  end.

(** The digits at the front of a string. *)
Fixpoint take_digits (s : list Z) : list Z :=
  match s with c :: s' => if isdigit c then c :: take_digits s' else [] | [] => [] end.

Definition s16 (z : Z) : Z := let r := u16 z in if r <? 32768 then r else r - 65536.

(** [sscanf] of a 16-bit number: [None] when there is none. *)
Definition sscanf_d16 (line : list Z) : option Z :=
  let s := skip_space line in
  let digits := match s with c :: s' => if (c =? c_minus) || (c =? 43) then s' else s | [] => [] end in
  match take_digits digits with [] => None | _ => Some (s16 (strtol s)) end.

(** The loop of [read_filter_from_file]: [line] is what the buffer of [getline]
    holds, [stale] what it holds after a call that found the end of the file.
    The result is the coefficients and their number. *)
Fixpoint filter_loop (fuel : nat) (stale : list Z -> list Z) (rest line : list Z) (eof : bool)
    (filter : list Z) (num_taps max_length : nat) : outcome (list Z * nat) :=
  match fuel with
  | O => OutOfFuel
  | S fuel' =>
      if eof then Ret (filter, num_taps)
      else
        let '(size, line, rest, eof) :=
          match rest with
          | [] => (18446744073709551615, stale line, [], true)
          | _ => let '(l, r) := split_line rest in (Z.of_nat (length l), l, r, negb (List.last l 0 =? c_newline))
          end in
        if (hd 0 line =? c_hash) || (size <? 2) then filter_loop fuel' stale rest line eof filter num_taps max_length
        else
          match sscanf_d16 line with
          | None => Ret (filter, 0%nat)
          | Some v =>
              filter ← write_samples filter num_taps [v];
              if (S num_taps =? max_length)%nat then Ret (filter, S num_taps)
              else filter_loop fuel' stale rest line eof filter (S num_taps) max_length
          end
  end.

(** [file] is [None] when it cannot be opened; a turn takes a line, and one more
    finds the end. *)
Definition read_filter_from_file (stale : list Z -> list Z) (file : option (list Z)) (filter : list Z) (max_length : nat)
    : outcome (list Z * nat) :=
  match file with
  | None => Ret (filter, 0%nat)
  | Some bytes => filter_loop (length bytes + 2) stale bytes [] false filter 0 max_length
  end.

(** ** The device and its streams *)

Section hal.
Context `{AF : AudioFifo} `{RS : Resampler} `{AU : AudioUtils} `{AH : AudioHeaders}.

(** A pcm of tinyalsa is a number. *)
Record alsa_stream_out : Type := MkOut
  { so_devices : Z; so_config : pcm_config; so_pcm : option Z; so_unavailable : bool; so_standby : bool;
    so_write_threshold : Z; so_frames_written : Z; so_timestamp : timespec; so_speaker_eq : option fir_filter }.

Record alsa_stream_in : Type := MkIn
  { si_devices : Z; si_config : pcm_config; si_pcm : option Z; si_unavailable : bool; si_standby : bool;
    si_frames_read : Z; si_timestamp_nsec : Z; si_source : Z }.

(** The device, and the streams that are open, under their addresses. *)
Record alsa_audio_device : Type := MkDev
  { active_input : option nat; active_output : option nat; mic_mute : bool; adev_aec : ptr aec_t;
    outs : gmap nat alsa_stream_out; ins : gmap nat alsa_stream_in }.

Definition set_aec (p : ptr aec_t) (d : alsa_audio_device) : alsa_audio_device :=
  MkDev (active_input d) (active_output d) (mic_mute d) p (outs d) (ins d).
Definition set_out (id : nat) (o : alsa_stream_out) (d : alsa_audio_device) : alsa_audio_device :=
  MkDev (active_input d) (active_output d) (mic_mute d) (adev_aec d) (<[id := o]> (outs d)) (ins d).
Definition set_in (id : nat) (i : alsa_stream_in) (d : alsa_audio_device) : alsa_audio_device :=
  MkDev (active_input d) (active_output d) (mic_mute d) (adev_aec d) (outs d) (<[id := i]> (ins d)).

Definition get_out (d : alsa_audio_device) (id : nat) : outcome alsa_stream_out :=
  match outs d !! id with Some o => Ret o | None => Fault end.
Definition get_in (d : alsa_audio_device) (id : nat) : outcome alsa_stream_in :=
  match ins d !! id with Some i => Ret i | None => Fault end.

Definition is_aec_input (aec_hal : bool) (i : alsa_stream_in) : bool :=
  aec_hal || (si_source i =? AUDIO_SOURCE_ECHO_REFERENCE).

(** The loop that opens a pcm: [opens k] is what try [k] gives, [None] when it is
    not ready. *)
Fixpoint pcm_open_loop (n k : nat) (opens : nat -> option Z) : option Z :=
  match n with
  | O => None
  | S n' => match opens k with Some p => Some p | None => pcm_open_loop n' (S k) opens end
  end.

Definition set_start (c : pcm_config) (start avail : Z) : pcm_config :=
  MkPcmConfig (pc_channels c) (pc_rate c) (pc_format c) (pc_period_size c) (pc_period_count c) start avail.

(** ** Output *)

Definition out_get_buffer_size (o : alsa_stream_out) : Z :=
  (PLAYBACK_PERIOD_SIZE + 15) / 16 * 16 * audio_stream_out_frame_size (so_config o).

(** [mem] says whether there was memory for the coefficients. *)
Definition out_set_eq (mem : bool) (stale : list Z -> list Z) (file : option (list Z)) (o : alsa_stream_out)
    : outcome alsa_stream_out :=
  let with_eq eq := MkOut (so_devices o) (so_config o) (so_pcm o) (so_unavailable o) (so_standby o) (so_write_threshold o)
                      (so_frames_written o) (so_timestamp o) eq in
  if negb mem then Ret (with_eq None)
  else
    '(coeffs, num_taps) ← read_filter_from_file stale file (replicate SPEAKER_MAX_EQ_LENGTH 0) SPEAKER_MAX_EQ_LENGTH;
    if (num_taps =? 0)%nat then Ret (with_eq None)
    else if pc_channels (so_config o) =? 0 then Fault
    else
      eq ← fir_init (Z.to_nat (pc_channels (so_config o))) FIR_SINGLE_FILTER num_taps
             (Z.to_nat (out_get_buffer_size o / pc_channels (so_config o) / 2)) (Some coeffs);
      Ret (with_eq eq).

Definition start_output_stream (opens : nat -> option Z) (d : alsa_audio_device) (id : nat)
    : outcome (alsa_audio_device * Z) :=
  o ← get_out d id;
  let started pcm unavailable :=
    MkOut (so_devices o) (set_start (so_config o) (PLAYBACK_PERIOD_START_THRESHOLD * PLAYBACK_PERIOD_SIZE) PLAYBACK_PERIOD_SIZE)
      pcm unavailable (so_standby o) (PLAYBACK_PERIOD_COUNT * PLAYBACK_PERIOD_SIZE) (so_frames_written o) (so_timestamp o) (so_speaker_eq o) in
  match pcm_open_loop PCM_OPEN_RETRIES 0 opens with
  | None => Ret (set_out id (started None true) d, - ENODEV)
  | Some p =>
      let d := set_out id (started (Some p) false) d in
      Ret (MkDev (active_input d) (Some id) (mic_mute d) (adev_aec d) (outs d) (ins d), 0)
  end.

Definition set_running (d : alsa_audio_device) (state : bool) : outcome alsa_audio_device :=
  a ← deref (adev_aec d); Ret (set_aec (Live (aec_set_spk_running a state)) d).

Definition do_output_standby (d : alsa_audio_device) (id : nat) : outcome (alsa_audio_device * Z) :=
  o ← get_out d id;
  let eq := fir_reset <$> so_speaker_eq o in
  let d :=
    if so_standby o then
      set_out id (MkOut (so_devices o) (so_config o) (so_pcm o) (so_unavailable o) true (so_write_threshold o)
                    (so_frames_written o) (so_timestamp o) eq) d
    else
      let d := set_out id (MkOut (so_devices o) (so_config o) None (so_unavailable o) true (so_write_threshold o)
                             (so_frames_written o) (so_timestamp o) eq) d in
      MkDev (active_input d) None (mic_mute d) (adev_aec d) (outs d) (ins d) in
  d ← set_running d false;
  Ret (d, 0).

Definition out_standby (d : alsa_audio_device) (id : nat) : outcome (alsa_audio_device * Z) := do_output_standby d id.

(** [routing] is the value of the parameter, when it is among the pairs. *)
Definition out_set_parameters (d : alsa_audio_device) (id : nat) (routing : option (list Z)) : outcome (alsa_audio_device * Z) :=
  o ← get_out d id;
  match routing with
  | None => Ret (d, 0)
  | Some value =>
      let val := atoi value in
      let devices := if negb (Z.land (so_devices o) AUDIO_DEVICE_OUT_ALL =? u32 val) && negb (val =? 0)
                     then Z.lor (Z.ldiff (so_devices o) AUDIO_DEVICE_OUT_ALL) (u32 val) else so_devices o in
      Ret (set_out id (MkOut devices (so_config o) (so_pcm o) (so_unavailable o) (so_standby o) (so_write_threshold o)
                         (so_frames_written o) (so_timestamp o) (so_speaker_eq o)) d, 0)
  end.

Definition out_get_sample_rate (o : alsa_stream_out) : Z := pc_rate (so_config o).

Definition out_get_latency (o : alsa_stream_out) : Z :=
  PLAYBACK_PERIOD_SIZE * PLAYBACK_PERIOD_COUNT * 1000 / pc_rate (so_config o).

Definition out_get_presentation_position (o : alsa_stream_out) : Z * timespec := (so_frames_written o, so_timestamp o).

(** The 16-bit samples of a block of bytes, and back. *)
Fixpoint samples_of (bs : list Z) : list Z :=
  match bs with b0 :: b1 :: bs' => int16 [b0; b1] :: samples_of bs' | _ => [] end.

Definition bytes_of (samples : list Z) : list Z := concat (le_bytes 2 <$> samples).

(** The filter over the frames of [buffer], in place. *)
Definition filter_in_place (lanes : nat) (eq : fir_filter) (buffer : list Z) (frames : Z) : outcome (fir_filter * list Z) :=
  block ← load buffer 0 (2 * (frames * Z.of_nat (channels eq)));
  '(eq, out) ← fir_process_interleaved lanes eq (samples_of block) (samples_of block) (Z.to_nat frames);
  buffer ← store buffer 0 (bytes_of out);
  Ret (eq, buffer).

(** What tinyalsa answers while a block is written: the tries to open the pcm,
    the result of [pcm_write], the time, and the size of the buffer. *)
Record out_answers : Type := MkOutAns
  { oa_opens : nat -> option Z; oa_write : Z; oa_time : htimestamp; oa_buffer_size : Z }.

(** The part of [out_write] that leaves standby. *)
Definition out_wake (opens : nat -> option Z) (d : alsa_audio_device) (id : nat) : outcome (alsa_audio_device * Z) :=
  o ← get_out d id;
  if so_standby o then
    '(d, ret) ← start_output_stream opens d id;
    if negb (ret =? 0) then Ret (d, ret)
    else
      o ← get_out d id;
      let d := set_out id (MkOut (so_devices o) (so_config o) (so_pcm o) (so_unavailable o) false (so_write_threshold o)
                             (so_frames_written o) (so_timestamp o) (so_speaker_eq o)) d in
      d ← set_running d true;
      Ret (d, 0)
  else Ret (d, 0).

(** The device, the buffer (the filter works in place), what was given to
    [pcm_write], and the result.  [junk] is the uninitialised [info]. *)
Definition out_write (lanes : nat) (ans : out_answers) (junk : aec_info) (d : alsa_audio_device) (id : nat) (buffer : list Z)
    : outcome (alsa_audio_device * list Z * option (list Z) * Z) :=
  let bytes := Z.of_nat (length buffer) in
  o ← get_out d id;
  let frame_size := audio_stream_out_frame_size (so_config o) in
  if frame_size =? 0 then Fault
  else
    let out_frames := bytes / frame_size in
    '(d, ret) ← out_wake (oa_opens ans) d id;
    if negb (ret =? 0) then Ret (d, buffer, None, bytes)
    else
      o ← get_out d id;
      '(eq, buffer) ← match so_speaker_eq o with
                      | None => Ret (None, buffer)
                      | Some eq => '(eq, buffer) ← filter_in_place lanes eq buffer out_frames; Ret (Some eq, buffer)
                      end;
      block ← load buffer 0 (out_frames * frame_size);
      let with_eq frames ts := MkOut (so_devices o) (so_config o) (so_pcm o) (so_unavailable o) (so_standby o) (so_write_threshold o)
                                 frames ts eq in
      if oa_write ans =? 0 then
        '(info, _) ← get_pcm_timestamp (oa_time ans) (oa_buffer_size ans) (pc_rate (so_config o)) junk true;
        let d := set_out id (with_eq (u32 (so_frames_written o + out_frames)) (ai_timestamp info)) d in
        let info := MkInfo (ai_timestamp info) (ai_timestamp_usec info) (ai_available info) (u64 (out_frames * frame_size)) in
        a ← deref (adev_aec d);
        '(q, _, _) ← write_to_reference_fifo (aec_q a) buffer info;
        Ret (set_aec (Live (set_queue q a)) d, buffer, Some block, bytes)
      else Ret (set_out id (with_eq (so_frames_written o) (so_timestamp o)) d, buffer, Some block, bytes).

(** ** Input *)

Definition start_input_stream (opens : nat -> option Z) (d : alsa_audio_device) (id : nat) : outcome (alsa_audio_device * Z) :=
  i ← get_in d id;
  let started pcm unavailable := MkIn (si_devices i) (si_config i) pcm unavailable (si_standby i) (si_frames_read i)
                                   (si_timestamp_nsec i) (si_source i) in
  match pcm_open_loop PCM_OPEN_RETRIES 0 opens with
  | None => Ret (set_in id (started None true) d, - ENODEV)
  | Some p =>
      let d := set_in id (started (Some p) false) d in
      Ret (MkDev (Some id) (active_output d) (mic_mute d) (adev_aec d) (outs d) (ins d), 0)
  end.

Definition do_input_standby (d : alsa_audio_device) (id : nat) : outcome (alsa_audio_device * Z) :=
  i ← get_in d id;
  if si_standby i then Ret (d, 0)
  else
    let d := set_in id (MkIn (si_devices i) (si_config i) None (si_unavailable i) true (si_frames_read i) (si_timestamp_nsec i) (si_source i)) d in
    Ret (MkDev None (active_output d) (mic_mute d) (adev_aec d) (outs d) (ins d), 0).

Definition in_standby (d : alsa_audio_device) (id : nat) : outcome (alsa_audio_device * Z) := do_input_standby d id.

Definition in_get_sample_rate (i : alsa_stream_in) : Z := pc_rate (si_config i).

Definition get_input_buffer_size (frames format channel_mask : Z) : Z :=
  u64 ((frames + 15) / 16 * 16 * (audio_channel_count_from_in_mask channel_mask * audio_bytes_per_sample format)).

Definition in_get_buffer_size (i : alsa_stream_in) : Z :=
  let frames := if si_source i =? AUDIO_SOURCE_ECHO_REFERENCE
                then CAPTURE_PERIOD_SIZE * PLAYBACK_CODEC_SAMPLING_RATE / CAPTURE_CODEC_SAMPLING_RATE else CAPTURE_PERIOD_SIZE in
  get_input_buffer_size frames (audio_format_from_pcm_format (pc_format (si_config i)))
    (audio_channel_in_mask_from_count (pc_channels (si_config i))).

Definition in_get_capture_position (i : alsa_stream_in) : Z * Z := (si_frames_read i, si_timestamp_nsec i).

Definition adev_set_mic_mute (d : alsa_audio_device) (state : bool) : alsa_audio_device :=
  MkDev (active_input d) (active_output d) state (adev_aec d) (outs d) (ins d).
Definition adev_get_mic_mute (d : alsa_audio_device) : bool := mic_mute d.

Definition adev_get_input_buffer_size (format channel_mask : Z) : Z := get_input_buffer_size CAPTURE_PERIOD_SIZE format channel_mask.

(** How many microphones a stream reports. *)
Definition in_get_active_microphones (d : alsa_audio_device) (i : alsa_stream_in) : Z :=
  if (si_source i =? AUDIO_SOURCE_ECHO_REFERENCE) || adev_get_mic_mute d then 0 else 1.

(** What is answered during a read: the tries to open the pcm, the result of
    [pcm_read] with the samples, the time, the clock, what is played while the
    call sleeps, and the canceller of the HAL. *)
Record in_answers : Type := MkInAns
  { ia_opens : nat -> option Z; ia_read : Z; ia_data : list Z; ia_time : htimestamp; ia_buffer_size : Z; ia_now : timespec;
    ia_waits : nat -> list (list Z * aec_info); ia_process : list Z -> Z -> list Z -> Z -> Z -> Z * list Z }.

Definition memset0 (buffer : list Z) (bytes : Z) : outcome (list Z) := store buffer 0 (replicate (Z.to_nat bytes) 0).

Definition set_capture (i : alsa_stream_in) (frames nsec : Z) : alsa_stream_in :=
  MkIn (si_devices i) (si_config i) (si_pcm i) (si_unavailable i) (si_standby i) frames nsec (si_source i).

(** A read of the echo reference. *)
Definition read_reference (fuel : nat) (ans : in_answers) (junk : aec_info) (d : alsa_audio_device) (id : nat) (i : alsa_stream_in)
    (buffer : list Z) (bytes frame_size : Z) : outcome (alsa_audio_device * list Z * Z) :=
  let in_frames := bytes / frame_size in
  let info := MkInfo (ai_timestamp junk) (ai_timestamp_usec junk) (ai_available junk) bytes in
  if in_get_sample_rate i =? 0 then Fault
  else
    let time_increment_nsec := u64 (bytes * NANOS_PER_SECOND) / frame_size / in_get_sample_rate i in
    a ← deref (adev_aec d);
    if negb (aec_get_spk_running a) then
      let nsec := if si_timestamp_nsec i =? 0 then audio_utils_ns_from_timespec (ia_now ans)
                  else u64 (si_timestamp_nsec i + time_increment_nsec) in
      buffer ← memset0 buffer bytes;
      Ret (set_in id (set_capture i (u32 (si_frames_read i + in_frames)) nsec) d, buffer, bytes)
    else
      '(a, buffer, info, ref_ret) ← get_reference_samples fuel (ia_waits ans) a buffer info;
      let d := set_aec (Live a) d in
      if negb (ref_ret =? 0) || (ai_timestamp_usec info =? 0) then
        buffer ← memset0 buffer bytes;
        Ret (set_in id (set_capture i (u32 (si_frames_read i + in_frames)) (u64 (si_timestamp_nsec i + time_increment_nsec))) d,
             buffer, ai_bytes info)
      else
        Ret (set_in id (set_capture i (u32 (si_frames_read i + in_frames)) (u64 (1000 * ai_timestamp_usec info))) d,
             buffer, ai_bytes info).

(** The device, the buffer and the result.  [aec_hal] says whether the canceller
    is in the HAL. *)
Definition in_read (aec_hal : bool) (fuel : nat) (ans : in_answers) (junk : aec_info) (d : alsa_audio_device) (id : nat)
    (buffer : list Z) (bytes : Z) : outcome (alsa_audio_device * list Z * Z) :=
  i ← get_in d id;
  let frame_size := audio_stream_in_frame_size (si_config i) in
  if frame_size =? 0 then Fault
  else if si_source i =? AUDIO_SOURCE_ECHO_REFERENCE then read_reference fuel ans junk d id i buffer bytes frame_size
  else
    let in_frames := bytes / frame_size in
    '(d, ret) ← (if si_standby i then
                   '(d, ret) ← start_input_stream (ia_opens ans) d id;
                   if negb (ret =? 0) then Ret (d, ret)
                   else
                     i ← get_in d id;
                     Ret (set_in id (MkIn (si_devices i) (si_config i) (si_pcm i) (si_unavailable i) false (si_frames_read i)
                                       (si_timestamp_nsec i) (si_source i)) d, 0)
                 else Ret (d, 0));
    '(d, buffer, info, ret) ←
      (if negb (ret =? 0) then Ret (d, buffer, junk, ret)
       else
         i ← get_in d id;
         buffer ← (if ia_read ans =? 0 then store buffer 0 (take (Z.to_nat (in_frames * frame_size)) (ia_data ans)) else Ret buffer);
         '(info, _) ← get_pcm_timestamp (ia_time ans) (ia_buffer_size ans) (pc_rate (si_config i)) junk false;
         let d := if ia_read ans =? 0
                  then set_in id (set_capture i (u32 (si_frames_read i + in_frames)) (u64 (audio_utils_ns_from_timespec (ai_timestamp info)))) d
                  else d in
         Ret (d, buffer, info, ia_read ans));
    let mic_muted := adev_get_mic_mute d in
    buffer ← (if mic_muted then memset0 buffer bytes else Ret buffer);
    if (ret =? 0) && negb mic_muted && aec_hal then
      '(p, buffer, _) ← process_aec (ia_process ans) fuel (ia_waits ans) junk (adev_aec d) buffer
          (MkInfo (ai_timestamp info) (ai_timestamp_usec info) (ai_available info) bytes);
      Ret (set_aec p d, buffer, bytes)
    else Ret (d, buffer, bytes).

(** ** Opening and closing *)

Record audio_config : Type := MkAudioConfig { ac_sample_rate : Z; ac_channel_mask : Z; ac_format : Z }.

Definition out_config : pcm_config :=
  MkPcmConfig CHANNEL_STEREO PLAYBACK_CODEC_SAMPLING_RATE PCM_FORMAT_S16_LE PLAYBACK_PERIOD_SIZE PLAYBACK_PERIOD_COUNT 0 0.

(** [id] is the address of the new stream, [params] whether [pcm_params_get] found
    the device, [mem] whether there was memory; [eq_mem], [stale] and [eq_file]
    are for the equaliser.  The result is the device, the configuration as it is
    suggested, and the code. *)
Definition adev_open_output_stream (params mem eq_mem : bool) (stale : list Z -> list Z) (eq_file : option (list Z))
    (d : alsa_audio_device) (id : nat) (devices : Z) (config : audio_config) : outcome (alsa_audio_device * audio_config * Z) :=
  if negb params then Ret (d, config, - ENOSYS)
  else if negb mem then Ret (d, config, - ENOMEM)
  else
    let suggested := MkAudioConfig (pc_rate out_config) (audio_channel_out_mask_from_count CHANNEL_STEREO)
                       (audio_format_from_pcm_format (pc_format out_config)) in
    if negb (pc_rate out_config =? ac_sample_rate config)
       || negb (audio_channel_count_from_out_mask (ac_channel_mask config) =? CHANNEL_STEREO)
       || negb (pc_format out_config =? pcm_format_from_audio_format (ac_format config))
    then Ret (d, suggested, - EINVAL)
    else
      o ← out_set_eq eq_mem stale eq_file (MkOut devices out_config None false true 0 0 (MkTimespec 0 0) None);
      '(p, aec_ret) ← init_aec_reference_config (adev_aec d) out_config (audio_stream_out_frame_size out_config);
      let d := set_aec p d in
      if negb (aec_ret =? 0) then Ret (d, suggested, - EINVAL) else Ret (set_out id o d, suggested, 0).

Definition adev_close_output_stream (d : alsa_audio_device) (id : nat) : outcome alsa_audio_device :=
  p ← destroy_aec_reference_config (adev_aec d);
  let d := set_aec p d in
  _ ← get_out d id;
  Ret (MkDev (active_input d) (active_output d) (mic_mute d) (adev_aec d) (delete id (outs d)) (ins d)).

Definition in_config (source : Z) : pcm_config :=
  MkPcmConfig CHANNEL_STEREO (if source =? AUDIO_SOURCE_ECHO_REFERENCE then PLAYBACK_CODEC_SAMPLING_RATE else CAPTURE_CODEC_SAMPLING_RATE)
    PCM_FORMAT_S32_LE CAPTURE_PERIOD_SIZE CAPTURE_PERIOD_COUNT 0 0.

Definition adev_open_input_stream (aec_hal params mem : bool) (mems : nat -> bool) (junk : Z)
    (d : alsa_audio_device) (id : nat) (devices : Z) (config : audio_config) (source : Z)
    : outcome (alsa_audio_device * audio_config * Z) :=
  if negb params then Ret (d, config, - ENOSYS)
  else if negb mem then Ret (d, config, - ENOMEM)
  else
    let c := in_config source in
    if negb (pc_rate c =? ac_sample_rate config)
       || negb (audio_channel_count_from_in_mask (ac_channel_mask config) =? CHANNEL_STEREO)
       || negb (pc_format c =? pcm_format_from_audio_format (ac_format config))
    then Ret (d, MkAudioConfig (pc_rate c) (audio_channel_in_mask_from_count (pc_channels c)) (audio_format_from_pcm_format (pc_format c)), - EINVAL)
    else
      let i := MkIn devices c None false true 0 0 source in
      if is_aec_input aec_hal i then
        '(p, aec_ret) ← init_aec_mic_config mems junk (adev_aec d) c (audio_stream_in_frame_size c);
        let d := set_aec p d in
        if negb (aec_ret =? 0) then Ret (d, config, - EINVAL) else Ret (set_in id i d, config, 0)
      else Ret (set_in id i d, config, 0).

Definition adev_close_input_stream (aec_hal : bool) (d : alsa_audio_device) (id : nat) : outcome alsa_audio_device :=
  i ← get_in d id;
  d ← (if is_aec_input aec_hal i then p ← destroy_aec_mic_config (adev_aec d); Ret (set_aec p d) else Ret d);
  Ret (MkDev (active_input d) (active_output d) (mic_mute d) (adev_aec d) (outs d) (delete id (ins d))).

(** The device is NULL when it is not opened; [mixer] and [route] say whether
    these were found, [aec_ret] and [aec_mem] are for the canceller. *)
Definition adev_open (aec_hal name_ok mem mixer route : bool) (aec_ret : Z) (aec_mem : bool) : outcome (ptr alsa_audio_device * Z) :=
  if negb name_ok then Ret (Null, - EINVAL)
  else if negb mem then Ret (Null, - ENOMEM)
  else if negb mixer || negb route then Ret (Freed, - EINVAL)
  else
    '(p, rc) ← init_aec aec_ret aec_mem (NUM_AEC_REFERENCE_CHANNELS aec_hal);
    if negb (rc =? 0) then Ret (Freed, - EINVAL) else Ret (Live (MkDev None None false p ∅ ∅), 0).

Definition adev_close (p : ptr alsa_audio_device) : outcome (ptr alsa_audio_device) :=
  d ← deref p; _ ← release_aec (adev_aec d); Ret Freed.

End hal.
