(* ===== verification/AudioTime.v ===== *)
(** * Time stamps of the audio HAL

    The adjustment of a time stamp by a number of frames, in floating-point
    arithmetic, for the formats of the device: every number of frames that can
    occur is computed. *)

From Stdlib Require Import ZArith Lia SpecFloat.
From stdpp Require Import base gmap list numbers strings.
From S2P Require Import Prelude CFloat Aec AecProofs AudioHw.

Definition time_ns (ts : timespec) : Z := tv_sec ts * 1000000000 + tv_nsec ts.

(** ** Checking a range of numbers *)

(** [p] holds for the [n] numbers from [lo] on. *)
Fixpoint all_from (p : Z -> bool) (lo : Z) (n : nat) : bool :=
  match n with O => true | S n' => p lo && all_from p (lo + 1) n' end.

Lemma all_from_spec p n : forall lo z, all_from p lo n = true -> lo <= z < lo + Z.of_nat n -> p z = true.
Proof.
  induction n as [|n IH]; intros lo z Hall Hz; cbn [all_from] in Hall; [lia|].
  apply andb_true_iff in Hall as [Hp Hall]. destruct (decide (z = lo)) as [->|]; [done|]. apply (IH (lo + 1)); [done|lia].
Qed.

(** ** Carrying seconds *)

Lemma carry_seconds_spec fuel : forall sec nsec,
  0 <= nsec -> (Z.to_nat (nsec / 1000000000) < fuel)%nat ->
  exists sec' nsec', carry_seconds fuel sec nsec = Ret (sec', nsec') /\ 0 <= nsec' <= 1000000000
    /\ sec' * 1000000000 + nsec' = sec * 1000000000 + nsec.
Proof.
  induction fuel as [|fuel IH]; intros sec nsec Hn Hf; [lia|]. cbn [carry_seconds].
  destruct (Z.ltb_spec 1000000000 nsec); [|eexists _, _; split; [done|lia]].
  destruct (IH (sec + 1) (nsec - 1000000000)) as (sec' & nsec' & -> & Hr & He); [lia| |].
  { replace (nsec - 1000000000) with (nsec + (-1) * 1000000000) by lia. rewrite Z.div_add by lia.
    pose proof (Z.div_le_lower_bound nsec 1000000000 1 ltac:(lia) ltac:(lia)). lia. }
  eexists _, _. split; [done|]. lia.
Qed.

(** An adjustment forwards is exact, and the result is normal, except that a full
    second may stay in the nanoseconds. *)
Lemma timestamp_adjust_forward ts frames rate :
  0 <= tv_nsec ts < 1000000000 -> 0 <= frames_to_nsec frames rate < 9000000000000000000 ->
  exists ts', timestamp_adjust ts frames rate = Ret ts' /\ 0 <= tv_nsec ts' <= 1000000000
    /\ time_ns ts' = time_ns ts + frames_to_nsec frames rate.
Proof.
  intros Hts Hadj. unfold timestamp_adjust, carry_fuel. rewrite s64_id by lia.
  destruct (carry_seconds_spec (S (Z.to_nat ((tv_nsec ts + frames_to_nsec frames rate) / 1000000000))) (tv_sec ts)
              (tv_nsec ts + frames_to_nsec frames rate)) as (sec & nsec & -> & Hn & He); [lia|lia|].
  cbn [mbind outcome_bind]. destruct (Z.ltb_spec nsec 0); [lia|]. eexists. split; [done|]. unfold time_ns. cbn. lia.
Qed.

(** ** The formats of the device *)

(** At 48 kHz, up to the 4096 frames of the playback buffer: the float division
    is at most 6 ns off. *)
Definition playback_ok (frames : Z) : bool :=
  let d := 48 * frames_to_nsec frames 48000 - 1000000 * frames in (-288 <=? d) && (d <=? 288) && (0 <=? frames_to_nsec frames 48000).

Lemma playback_checked : all_from playback_ok 0 4097 = true.
Proof. vm_compute. reflexivity. Qed.

(** At 16 kHz, with the number of frames the negation of an [unsigned int] gives. *)
Definition capture_ahead (frames : Z) : bool :=
  (268435000000000 <=? frames_to_nsec frames 16000) && (frames_to_nsec frames 16000 <=? 268435456000000000).

Lemma capture_checked : all_from capture_ahead 4294965248 2048 = true.
Proof. vm_compute. reflexivity. Qed.

Lemma playback_time buffer_size avail ts info :
  0 <= avail <= buffer_size -> buffer_size <= 4096 -> 0 <= tv_nsec ts < 1000000000 ->
  exists ts', get_pcm_timestamp (Some (avail, ts)) buffer_size PLAYBACK_CODEC_SAMPLING_RATE info true
      = Ret (MkInfo ts' (ai_timestamp_usec info) avail (ai_bytes info), 0)
    /\ 0 <= tv_nsec ts' <= 1000000000
    /\ Z.abs (48 * (time_ns ts' - time_ns ts) - 1000000 * (buffer_size - avail)) <= 288.
Proof.
  intros Ha Hb Hts. unfold get_pcm_timestamp. rewrite u32_small by lia.
  pose proof (all_from_spec _ _ _ (buffer_size - avail) playback_checked ltac:(lia)) as Hok.
  unfold playback_ok in Hok. apply andb_true_iff in Hok as [Hok H3%Z.leb_le]. apply andb_true_iff in Hok as [H1%Z.leb_le H2%Z.leb_le].
  unfold PLAYBACK_CODEC_SAMPLING_RATE.
  destruct (timestamp_adjust_forward ts (buffer_size - avail) 48000 Hts ltac:(lia)) as (ts' & -> & Hn & He).
  cbn [mbind outcome_bind]. eexists. split; [done|]. cbn. lia.
Qed.

(** The time of up to 4096 bytes of playback, at most two microseconds off. *)
Definition stereo_spk : aec_spk := MkSpk true 2 4 48000.

Definition offset_ok (n : Z) : bool :=
  let d := 192 * bytes_to_usec stereo_spk n - 1000 * n in (-384 <=? d) && (d <=? 384) && (0 <=? bytes_to_usec stereo_spk n).

Lemma offset_checked : all_from offset_ok 0 4097 = true.
Proof. vm_compute. reflexivity. Qed.

Lemma offset_accurate n : 0 <= n <= 4096 -> Z.abs (192 * bytes_to_usec stereo_spk n - 1000 * n) <= 384 /\ 0 <= bytes_to_usec stereo_spk n.
Proof.
  intros Hn. pose proof (all_from_spec _ _ _ n offset_checked ltac:(lia)) as Hok. unfold offset_ok in Hok.
  apply andb_true_iff in Hok as [Hok H3%Z.leb_le]. apply andb_true_iff in Hok as [H1%Z.leb_le H2%Z.leb_le]. lia.
Qed.

(** The time of the playback is right: with up to the whole buffer of 4096
    frames still to be played, the time stamp is moved by their duration, at
    most 6 nanoseconds off, and its nanoseconds stay between 0 and a second. *)
Theorem playback_time_accurate buffer_size avail ts info :
  0 <= avail <= buffer_size -> buffer_size <= 4096 -> 0 <= tv_nsec ts < 1000000000 ->
  exists info', get_pcm_timestamp (Some (avail, ts)) buffer_size PLAYBACK_CODEC_SAMPLING_RATE info true = Ret (info', 0)
    /\ 0 <= tv_nsec (ai_timestamp info') <= 1000000000
    /\ Z.abs (48 * (time_ns (ai_timestamp info') - time_ns ts) - 1000000 * (buffer_size - avail)) <= 288.
Proof.
  intros Ha Hb Hts. destruct (playback_time buffer_size avail ts info Ha Hb Hts) as (ts' & He & Hn & Hd). by eexists.
Qed.

Lemma playback_time_accurate_witness :
  exists info', get_pcm_timestamp (Some (1024, MkTimespec 100 999000000)) 4096 PLAYBACK_CODEC_SAMPLING_RATE info0 true = Ret (info', 0)
    /\ ai_timestamp info' = MkTimespec 101 63000003.
Proof.
  destruct (playback_time_accurate 4096 1024 (MkTimespec 100 999000000) info0) as (info' & He & _).
  - lia.
  - lia.
  - cbn. lia.
  - exists info'. split; [exact He|]. revert He. vm_compute. intros He. injection He as <-. reflexivity.
Defined.

(** The time of the capture runs ahead: with [1 <= avail <= 2048] frames in
    the buffer the time stamp is to be moved back by their duration, but the
    negated [unsigned int] is a large positive number of frames, and the time
    stamp moves forward by more than three days. *)
Theorem capture_time_runs_ahead buffer_size avail ts info :
  1 <= avail <= 2048 -> 0 <= tv_nsec ts < 1000000000 ->
  exists info', get_pcm_timestamp (Some (avail, ts)) buffer_size CAPTURE_CODEC_SAMPLING_RATE info false = Ret (info', 0)
    /\ time_ns (ai_timestamp info') >= time_ns ts + 268435 * 1000000000.
Proof.
  intros Ha Hts. unfold get_pcm_timestamp.
  replace (u32 (- avail)) with (4294967296 - avail) by (unfold u32; Z.to_euclidean_division_equations; lia).
  pose proof (all_from_spec _ _ _ (4294967296 - avail) capture_checked ltac:(lia)) as Hok.
  unfold capture_ahead in Hok. apply andb_true_iff in Hok as [H1%Z.leb_le H2%Z.leb_le].
  unfold CAPTURE_CODEC_SAMPLING_RATE.
  destruct (timestamp_adjust_forward ts (4294967296 - avail) 16000 Hts ltac:(lia)) as (ts' & -> & Hn & He).
  cbn [mbind outcome_bind]. eexists. split; [done|]. cbn. lia.
Qed.

Lemma capture_time_runs_ahead_witness :
  exists info', get_pcm_timestamp (Some (512, MkTimespec 100 5000000)) 2048 CAPTURE_CODEC_SAMPLING_RATE info0 false = Ret (info', 0)
    /\ time_ns (ai_timestamp info') >= 268535 * 1000000000.
Proof.
  destruct (capture_time_runs_ahead 2048 512 (MkTimespec 100 5000000) info0) as (info' & He & Hge).
  - lia.
  - cbn. lia.
  - exists info'. split; [exact He|]. cbn in Hge. unfold time_ns in *. cbn in Hge. lia.
Defined.
