(* ===== verification/AudioClaims.v ===== *)
(** * The audio HAL: playback, its reference, and the life of the streams *)

From Stdlib Require Import ZArith Lia SpecFloat.
From stdpp Require Import base gmap list numbers strings.
From S2P Require Import Prelude CLib CFloat Fir FirProofs Aec AecProofs AudioHw AudioTime.

(** ** What the headers promise *)

(** Frames have a sample of 16 or 32 bits per channel; the mask of two channels
    counts two. *)
Class HeaderLaws `{AH : AudioHeaders} : Prop :=
  { hl_out c : pc_format c = PCM_FORMAT_S16_LE -> audio_stream_out_frame_size c = 2 * pc_channels c;
    hl_in c : pc_format c = PCM_FORMAT_S32_LE -> audio_stream_in_frame_size c = 4 * pc_channels c;
    hl_mask : audio_channel_count_from_in_mask (audio_channel_in_mask_from_count 2) = 2;
    hl_sample : audio_bytes_per_sample (audio_format_from_pcm_format PCM_FORMAT_S32_LE) = 4 }.

(** The values of the platform, for concrete runs. *)
Definition platform : AudioHeaders :=
  {| AUDIO_SOURCE_ECHO_REFERENCE := 1997; AUDIO_DEVICE_OUT_ALL := 1073741823; PCM_FORMAT_S16_LE := 0; PCM_FORMAT_S32_LE := 1;
     audio_stream_out_frame_size c := (if pc_format c =? 0 then 2 else 4) * pc_channels c;
     audio_stream_in_frame_size c := (if pc_format c =? 0 then 2 else 4) * pc_channels c;
     audio_channel_count_from_out_mask m := if m =? 3 then 2 else 1;
     audio_channel_count_from_in_mask m := if m =? 12 then 2 else 1;
     audio_channel_out_mask_from_count n := if n =? 2 then 3 else 1;
     audio_channel_in_mask_from_count n := if n =? 2 then 12 else 16;
     audio_bytes_per_sample f := if f =? 1 then 2 else 4;
     pcm_format_from_audio_format f := if f =? 1 then 0 else 1;
     audio_format_from_pcm_format f := if f =? 0 then 1 else 3;
     audio_utils_ns_from_timespec ts := u64 (tv_sec ts * 1000000000 + tv_nsec ts) |}.

#[global] Instance platform_laws : @HeaderLaws platform.
Proof. split; cbn; intros; subst; try rewrite H; done. Qed.

(** ** The equaliser *)

Lemma split_line_length rest : forall l r, split_line rest = (l, r) -> (length l + length r = length rest)%nat /\ (rest <> [] -> l <> []).
Proof.
  induction rest as [|c rest IH]; intros l r H; cbn in H; [by simplify_eq|].
  destruct (c =? c_newline); [simplify_eq; cbn; split; [lia|done]|].
  destruct (split_line rest) as [l' r']. simplify_eq. destruct (IH l' r eq_refl) as [Hl _]. cbn. split; [lia|done].
Qed.

(** The loop ends, within the array. *)
Lemma filter_loop_ok (stale : list Z -> list Z) (max fuel : nat) : forall (rest line : list Z) (eof : bool) (filter : list Z) (num : nat),
  (length rest + (if eof then 0 else 1) < fuel)%nat -> (num < max)%nat -> (max <= length filter)%nat ->
  exists f n, filter_loop fuel stale rest line eof filter num max = Ret (f, n) /\ length f = length filter /\ (n <= max)%nat.
Proof.
  induction fuel as [|fuel IH]; intros rest line eof filter num Hfuel Hnum Hmax; [lia|]. cbn [filter_loop].
  destruct eof; [eexists _, _; split; [done|]; lia|].
  set (g := match rest with [] => _ | _ => _ end).
  assert (exists size l r e, g = (size, l, r, e) /\ (length r + (if e then 0 else 1) < length rest + 1)%nat) as (size & l & r & e & -> & Hlt).
  { unfold g. destruct rest as [|c rest]; [by eexists _, _, _, _; split; [done|]; cbn; lia|].
    destruct (split_line (c :: rest)) as [l r] eqn:Hs. destruct (split_line_length _ _ _ Hs) as [Hl Hne].
    eexists _, _, _, _. split; [done|]. specialize (Hne ltac:(done)). destruct l; [done|]. cbn [length] in *. destruct (negb _); lia. }
  destruct (_ || _); [apply IH; lia|]. destruct (sscanf_d16 l) as [v|]; [|eexists _, _; split; [done|]; lia].
  rewrite write_one by lia. cbn [mbind outcome_bind].
  destruct (Nat.eqb_spec (S num) max); [eexists _, _; split; [done|]; rewrite length_insert; lia|].
  destruct (IH r l e (<[num := v]> filter) (S num)) as (f & n' & -> & Hf & Hn); [lia|lia|rewrite length_insert; lia|].
  eexists _, _. split; [done|]. rewrite length_insert in Hf. lia.
Qed.

Lemma read_filter_ok (stale : list Z -> list Z) (file : option (list Z)) (filter : list Z) (max : nat) :
  (0 < max <= length filter)%nat ->
  exists f n, read_filter_from_file stale file filter max = Ret (f, n) /\ length f = length filter /\ (n <= max)%nat.
Proof.
  intros Hmax. unfold read_filter_from_file. destruct file as [bytes|]; [|eexists _, _; split; [done|]; lia].
  apply filter_loop_ok; lia.
Qed.

Section audio.
Context `{FL : FifoLaws} `{RS : Resampler} `{AU : AudioUtils} `{HL : HeaderLaws}.

(** An equaliser for blocks of up to 1024 stereo frames, or none. *)
Definition eq_ok (eq : option fir_filter) : Prop :=
  match eq with None => True | Some fir => fir_ok fir 1024 /\ channels fir = 2%nat end.

Lemma out_frame_size c : pc_format c = PCM_FORMAT_S16_LE -> pc_channels c = 2 -> audio_stream_out_frame_size c = 4.
Proof. intros Hf Hc. rewrite hl_out by done. by rewrite Hc. Qed.

Lemma in_frame_size source : audio_stream_in_frame_size (in_config source) = 8.
Proof. by rewrite hl_in. Qed.

Lemma out_set_eq_ok mem stale file devices :
  exists eq, out_set_eq mem stale file (MkOut devices out_config None false true 0 0 (MkTimespec 0 0) None)
      = Ret (MkOut devices out_config None false true 0 0 (MkTimespec 0 0) eq)
    /\ eq_ok eq.
Proof.
  unfold out_set_eq. destruct mem; cbn [negb]; [|by eexists].
  destruct (read_filter_ok stale file (replicate SPEAKER_MAX_EQ_LENGTH 0) SPEAKER_MAX_EQ_LENGTH) as (f & n & -> & Hf & Hn).
  { rewrite length_replicate. unfold SPEAKER_MAX_EQ_LENGTH. lia. }
  rewrite length_replicate in Hf. unfold SPEAKER_MAX_EQ_LENGTH in *. cbn [mbind outcome_bind].
  destruct (Nat.eqb_spec n 0); [by eexists|]. cbn [pc_channels so_config out_config]. unfold CHANNEL_STEREO. cbn [Z.eqb].
  unfold out_get_buffer_size. cbn [so_config]. rewrite out_frame_size by done.
  change (Z.to_nat 2) with 2%nat. change (Z.to_nat _) with 1024%nat.
  unfold fir_init. destruct (Nat.eqb_spec n 0); [done|]. cbn [Nat.eqb orb per_channel].
  assert (Z.to_nat (u32 (Z.of_nat n * 2) / 2) = n) as -> by (rewrite u32_small by lia; rewrite Z.div_mul; lia).
  rewrite read_ret by lia. cbn [mbind outcome_bind]. rewrite drop_0.
  assert (u32 (u32 (Z.of_nat 1024 + Z.of_nat n) * Z.of_nat 2) = Z.of_nat ((1024 + n) * 2)) as ->.
  { rewrite (u32_small (Z.of_nat 1024 + Z.of_nat n)) by lia. rewrite u32_small by lia. lia. }
  rewrite Nat2Z.id. eexists. split; [done|]. unfold fir_reset. cbn [eq_ok channels fir_mode filter_length state coeffs].
  split; [|done]. split; cbn [channels filter_length state coeffs fir_mode per_channel]; try lia.
  - rewrite !length_replicate. lia.
  - rewrite length_take. lia.
Qed.

(** ** Samples and bytes *)

Lemma length_samples_of n : forall bs, length bs = (2 * n)%nat -> length (samples_of bs) = n.
Proof.
  induction n as [|n IH]; intros bs Hl; [by destruct bs|].
  destruct bs as [|b0 [|b1 bs]]; [cbn in Hl; lia..|]. cbn [samples_of length] in *. rewrite (IH bs) by lia. done.
Qed.

Lemma length_bytes_of ss : length (bytes_of ss) = (2 * length ss)%nat.
Proof.
  unfold bytes_of. induction ss as [|x ss IH]; [done|]. cbn [fmap list_fmap concat]. rewrite length_app, length_le_bytes, IH. cbn. lia.
Qed.

Lemma bytes_of_byte ss : Forall is_byte (bytes_of ss).
Proof.
  unfold bytes_of. induction ss as [|x ss IH]; [by constructor|]. cbn [fmap list_fmap concat].
  apply Forall_app_2; [apply le_bytes_byte|done].
Qed.

(** What is played of a block: the block itself, or the convolution of its samples
    with the equaliser. *)
Definition played_block (eq : option fir_filter) (block : list Z) : list Z :=
  match eq with
  | None => block
  | Some fir => bytes_of (fir_ref (coef fir) (channels fir) (filter_length fir) (history fir) (samples_of block))
  end.

Lemma length_played eq block n : length block = (4 * n)%nat -> length (played_block eq block) = (4 * n)%nat.
Proof.
  intros Hl. unfold played_block. destruct eq as [fir|]; [|done]. rewrite length_bytes_of. unfold fir_ref.
  rewrite length_fmap, length_seq, (length_samples_of (2 * n)); lia.
Qed.

Lemma played_byte eq block : Forall is_byte block -> Forall is_byte (played_block eq block).
Proof. intros Hb. destruct eq; [apply bytes_of_byte|done]. Qed.

Lemma samples_of_app n : forall bs rest, length bs = (2 * n)%nat -> samples_of (bs ++ rest) = samples_of bs ++ samples_of rest.
Proof.
  induction n as [|n IH]; intros bs rest Hl; [by destruct bs|].
  destruct bs as [|b0 [|b1 bs]]; [cbn in Hl; lia..|]. cbn [samples_of app length] in *. by rewrite IH by lia.
Qed.

Lemma bytes_of_app ss ss' : bytes_of (ss ++ ss') = bytes_of ss ++ bytes_of ss'.
Proof. unfold bytes_of. by rewrite fmap_app, concat_app. Qed.

Lemma played_nil eq : played_block eq [] = [].
Proof. by destruct eq. Qed.

(** The filter of the stream over a block; it goes on where the block ends. *)
Lemma filter_in_place_ok lanes fir block n :
  fir_ok fir 1024 -> channels fir = 2%nat -> (n <= 1024)%nat -> length block = (4 * n)%nat -> (2 <= lanes <= 4)%nat ->
  exists fir', filter_in_place lanes fir block (Z.of_nat n) = Ret (fir', played_block (Some fir) block)
    /\ fir_ok fir' 1024 /\ channels fir' = 2%nat
    /\ forall rest, played_block (Some fir) (block ++ rest) = played_block (Some fir) block ++ played_block (Some fir') rest.
Proof.
  intros Hok Hch Hn Hl Hlanes. pose proof (length_samples_of (2 * n) block ltac:(lia)) as Hs.
  unfold filter_in_place. rewrite Hch, load_ret by lia.
  rewrite drop_0, take_ge by lia. cbn [mbind outcome_bind]. rewrite Nat2Z.id.
  destruct (process_block lanes fir 1024 (samples_of block) (samples_of block) n) as (st & -> & Hst & Hhist);
    [done|done|rewrite Hch; lia|rewrite Hch; lia|done|right; lia|].
  cbn [mbind outcome_bind]. rewrite drop_ge, app_nil_r by (rewrite Hch; lia).
  set (out := fir_ref _ _ _ _ _). assert (length out = (2 * n)%nat) as Hout by (unfold out, fir_ref; rewrite length_fmap, length_seq; lia).
  rewrite store_ret by (rewrite ?length_bytes_of; lia). cbn [mbind outcome_bind].
  rewrite take_0, drop_ge, app_nil_r by (rewrite length_bytes_of; lia). eexists. split; [done|].
  destruct Hok as [H1 H2 H3 H4 H5]. split; [split; cbn [channels filter_length state coeffs fir_mode]; (done || congruence)|]. split; [done|].
  intros rest. cbn [played_block]. rewrite (samples_of_app (2 * n)), (fir_ref_app _ _ _ _ (samples_of block) (samples_of rest) n), bytes_of_app; [|done|..].
  - do 2 f_equal. unfold history at 2. cbn [filter_length channels state]. by rewrite Hhist.
  - unfold history. rewrite length_take. nia.
  - rewrite Hch. lia.
  - lia.
Qed.

(** ** Playing with an echo reference *)

Lemma unbegun_snoc ls n : forall r, (unbegun (ls ++ [n]) r <= unbegun ls r + 1)%nat.
Proof.
  induction ls as [|m ls IH]; intros r; cbn [app unbegun].
  - destruct (r <=? 0); cbn; lia.
  - destruct (r <=? 0); [cbn; rewrite length_app; cbn; lia|apply IH].
Qed.

Lemma unbegun_le ls : forall r, (unbegun ls r <= length ls)%nat.
Proof. induction ls as [|m ls IH]; intros r; cbn [unbegun]; [cbn; lia|]. destruct (r <=? 0); [lia|]. specialize (IH (r - m)). cbn. lia. Qed.

Lemma unbegun_mono ls : forall r r', r <= r' -> (unbegun ls r' <= unbegun ls r)%nat.
Proof.
  induction ls as [|m ls IH]; intros r r' Hr; cbn [unbegun]; [done|].
  destruct (Z.leb_spec r 0), (Z.leb_spec r' 0); [done| |lia|apply IH; lia].
  pose proof (unbegun_le ls (r' - m)). cbn. lia.
Qed.

(** The output stream [oid] and the stream [iid] of the echo reference are open;
    [h] was played and [r] bytes of it were read as reference. *)
Record hal_inv (oid iid : nat) (d : alsa_audio_device) (h : list packet) (r : Z) : Prop := MkHalInv
  { hi_aec : exists a, adev_aec d = Live a /\ ref_cfg a 2 2048 /\ queue_inv (16384, 160) h r (aec_q a) /\ aec_s a = stereo_spk
      /\ spk_running a = negb (match outs d !! oid with Some o => so_standby o | None => true end);
    hi_out : exists o, outs d !! oid = Some o /\ pc_format (so_config o) = PCM_FORMAT_S16_LE /\ pc_channels (so_config o) = 2
      /\ pc_rate (so_config o) = PLAYBACK_CODEC_SAMPLING_RATE /\ eq_ok (so_speaker_eq o);
    hi_in : exists i, ins d !! iid = Some i /\ si_config i = in_config AUDIO_SOURCE_ECHO_REFERENCE
      /\ si_source i = AUDIO_SOURCE_ECHO_REFERENCE;
    hi_bytes : Forall is_byte (signal h);
    hi_awake : h <> [] -> exists o, outs d !! oid = Some o /\ so_standby o = false;
    hi_times : Forall (fun p => 1 <= tv_sec (ai_timestamp p.1) < 1000000002 /\ 0 <= tv_nsec (ai_timestamp p.1) <= 1000000000
                                /\ zlen p.2 <= 4096) h;
    hi_count : (unbegun (lens h) r <= 4)%nat }.

(** The time stamps of tinyalsa are those of the monotonic clock. *)
Definition clock_ok (ts : timespec) : Prop := 2 <= tv_sec ts < 1000000000 /\ 0 <= tv_nsec ts < 1000000000.

Lemma get_out_ok (d : alsa_audio_device) id o : outs d !! id = Some o -> get_out d id = Ret o.
Proof. unfold get_out. by intros ->. Qed.

Lemma get_in_ok (d : alsa_audio_device) id i : ins d !! id = Some i -> get_in d id = Ret i.
Proof. unfold get_in. by intros ->. Qed.

Lemma out_wake_ok opens d oid iid h r o p :
  hal_inv oid iid d h r -> outs d !! oid = Some o -> pcm_open_loop PCM_OPEN_RETRIES 0 opens = Some p ->
  exists d' o', out_wake opens d oid = Ret (d', 0) /\ hal_inv oid iid d' h r /\ outs d' !! oid = Some o' /\ so_standby o' = false
    /\ so_speaker_eq o' = so_speaker_eq o /\ so_frames_written o' = so_frames_written o.
Proof.
  intros Hinv Ho Hopen. unfold out_wake, get_out. rewrite Ho. cbn [mbind outcome_bind].
  destruct (so_standby o) eqn:Hst; [|by eexists _, _].
  destruct Hinv as [(a & Ha & Hcfg & Hq & Hs & Hrun) (o1 & Ho1 & Hfmt & Hchan & Hrate & Heq) Hin Hb Hwake Htimes Hcount].
  assert (o1 = o) as -> by congruence.
  unfold start_output_stream, get_out. rewrite Ho, Hopen. cbn [mbind outcome_bind Z.eqb negb set_out outs].
  rewrite lookup_insert_eq. cbn [mbind outcome_bind]. unfold set_running. cbn [adev_aec set_out]. rewrite Ha. cbn [deref mbind outcome_bind].
  eexists _, _. split; [done|]. cbn [set_aec set_out outs]. rewrite lookup_insert_eq. split; [|by split_and!].
  split; cbn [adev_aec set_aec outs set_out ins].
  - eexists. split; [done|]. rewrite lookup_insert_eq. cbn [so_standby]. split_and!; [|done|done|done].
    destruct Hcfg as [C1 C2 C3 C4 C5 C6 C7]. by split.
  - eexists. rewrite lookup_insert_eq. split; [done|]. by split_and!.
  - done.
  - done.
  - intros _. eexists. by rewrite lookup_insert_eq.
  - done.
  - done.
Qed.

(** A block of up to 1024 frames is played, and it is the next packet of the
    reference. *)
Lemma out_write_ok lanes ans junk d oid iid h r o p block n avail ts :
  hal_inv oid iid d h r -> outs d !! oid = Some o -> pcm_open_loop PCM_OPEN_RETRIES 0 (oa_opens ans) = Some p ->
  oa_write ans = 0 -> oa_time ans = Some (avail, ts) -> oa_buffer_size ans = 4096 -> 0 <= avail <= 4096 -> clock_ok ts ->
  0 <= ai_timestamp_usec junk < 18446744073709551616 -> (2 <= lanes <= 4)%nat ->
  length block = (4 * n)%nat -> (1 <= n <= 1024)%nat -> Forall is_byte block ->
  zlen (signal h) + 4 * Z.of_nat n < 9223372036854775808 -> zlen (signal h) - r + 4 * Z.of_nat n <= 16384 ->
  (unbegun (lens h) r < 4)%nat ->
  let played := played_block (so_speaker_eq o) block in
  exists d' info o', out_write lanes ans junk d oid block = Ret (d', played, Some played, zlen block)
    /\ hal_inv oid iid d' (h ++ [(info, played)]) r /\ outs d' !! oid = Some o' /\ so_timestamp o' = ai_timestamp info
    /\ so_frames_written o' = u32 (so_frames_written o + Z.of_nat n)
    /\ (so_speaker_eq o = None -> so_speaker_eq o' = None)
    /\ forall rest, played_block (so_speaker_eq o) (block ++ rest) = played ++ played_block (so_speaker_eq o') rest.
Proof.
  intros Hinv Ho Hopen Hw Ht Hbs Hav Hts Hjunk Hlanes Hl Hn Hb Hsmall Hroom Hroom2 played.
  destruct (hi_out _ _ _ _ _ Hinv) as (o1 & Ho1 & Hfmt & Hchan & _ & _). assert (o1 = o) as -> by congruence.
  unfold out_write. rewrite (get_out_ok _ _ _ Ho). cbn [mbind outcome_bind].
  rewrite out_frame_size by done. cbn [Z.eqb]. replace (zlen block / 4) with (Z.of_nat n) by (rewrite Hl; Z.to_euclidean_division_equations; lia).
  destruct (out_wake_ok (oa_opens ans) d oid iid h r o p Hinv Ho Hopen) as (d1 & o2 & -> & Hinv1 & Ho2 & Hst & Heq & Hfr).
  cbn [mbind outcome_bind Z.eqb negb]. rewrite (get_out_ok _ _ _ Ho2). cbn [mbind outcome_bind].
  destruct Hinv1 as [(a & Ha & Hcfg & Hq & Hs & Hrun) (o3 & Ho3 & Hfmt2 & Hchan2 & Hrate & Heqok) Hin Hbytes Hwake Htimes Hcount].
  assert (o3 = o2) as -> by congruence.
  assert (exists eq', match so_speaker_eq o2 with
                      | None => Ret (None, block)
                      | Some eq => '(eq, buffer) ← filter_in_place lanes eq block (Z.of_nat n); Ret (Some eq, buffer)
                      end = Ret (eq', played) /\ eq_ok eq' /\ (so_speaker_eq o = None -> eq' = None)
                      /\ forall rest, played_block (so_speaker_eq o) (block ++ rest) = played ++ played_block eq' rest) as (eq' & -> & Heq' & Hdry & Hcut).
  { unfold played. rewrite <- Heq. destruct (so_speaker_eq o2) as [fir|]; [|by eexists].
    destruct Heqok as [Hok Hch]. destruct (filter_in_place_ok lanes fir block n) as (fir' & -> & Hok' & Hch' & Hcut); [done|done|lia|done|done|].
    eexists. split; [done|]. split; [done|]. done. }
  cbn [mbind outcome_bind]. pose proof (length_played (so_speaker_eq o) block n Hl) as Hlp. fold played in Hlp.
  rewrite load_ret by lia. rewrite drop_0, take_ge by lia. cbn [mbind outcome_bind]. rewrite Hw. cbn [Z.eqb].
  rewrite Ht, Hbs, Hrate. destruct (playback_time 4096 avail ts junk Hav ltac:(lia) ltac:(apply Hts)) as (ts' & -> & Hns & Hd).
  cbn [mbind outcome_bind ai_timestamp ai_timestamp_usec ai_available set_out adev_aec]. rewrite Ha. cbn [deref mbind outcome_bind].
  rewrite u64_small by lia. set (info := MkInfo ts' (ai_timestamp_usec junk) avail (Z.of_nat n * 4)).
  assert (1 <= tv_sec ts' < 1000000002) as Hsec by (unfold time_ns in Hd; destruct Hts; lia).
  destruct (write_queue_inv (16384, 160) h r (aec_q a) info played Hq) as (q' & -> & Hq').
  { split; [|cbn; lia]. unfold info_ok, info. cbn. lia. }
  1-3: cbn; lia.
  cbn [mbind outcome_bind]. eexists _, info, _. split; [done|].
  cbn [set_aec set_out outs]. rewrite lookup_insert_eq. split; [|split; [done|]]; [|by rewrite Hfr].
  split; cbn [adev_aec set_aec set_out outs ins].
  - eexists. split; [done|]. rewrite lookup_insert_eq. rewrite Ho2 in Hrun. split_and!; [|done|done|done].
    destruct Hcfg as [C1 C2 C3 C4 C5 C6 C7]. by split.
  - eexists. rewrite lookup_insert_eq. split; [done|]. by split_and!.
  - done.
  - rewrite signal_app. apply Forall_app_2; [done|]. unfold signal. cbn. rewrite app_nil_r. by apply played_byte.
  - intros _. eexists. by rewrite lookup_insert_eq.
  - apply Forall_app_2; [done|]. constructor; [|constructor]. cbn. lia.
  - unfold lens. rewrite fmap_app. cbn [fmap list_fmap]. pose proof (unbegun_snoc (lens h) (zlen played) r). unfold lens in *. cbn [snd] in *. lia.
Qed.

(** The reference always has a time. *)
Lemma time_at_pos h : forall r,
  Forall (fun p => 1 <= tv_sec (ai_timestamp p.1) < 1000000002 /\ 0 <= tv_nsec (ai_timestamp p.1) <= 1000000000
                   /\ zlen p.2 <= 4096) h ->
  0 <= r < zlen (signal h) -> 0 < time_at stereo_spk (timed h) r < 10000000000000000.
Proof.
  induction h as [|[i dta] h IH]; intros r Hall Hr; [cbn in Hr; lia|]. rewrite signal_cons, length_app in Hr.
  apply list.Forall_cons in Hall as [(Hs & Hn & Hl) Hall]. cbn [timed fmap list_fmap time_at fst snd] in *.
  destruct (Z.ltb_spec r (zlen dta)).
  - pose proof (offset_accurate r ltac:(lia)). unfold timespec_to_usec.
    pose proof (Z.quot_pos (tv_nsec (ai_timestamp i)) 1000 ltac:(lia) ltac:(lia)).
    pose proof (Z.quot_le_upper_bound (tv_nsec (ai_timestamp i)) 1000 1000000 ltac:(lia) ltac:(lia)).
    rewrite (u64_small (_ * _ + _)) by lia. rewrite u64_small by lia. lia.
  - apply IH; [done|lia].
Qed.

(** A read of up to 512 frames gives the next part of what was played, as 32-bit
    samples, with the time of its first frame. *)
Lemma in_read_ok fuel ans junk d oid iid h r buffer frames i :
  hal_inv oid iid d h r -> ins d !! iid = Some i -> 0 < frames <= 512 -> r + 4 * frames <= zlen (signal h) ->
  (unbegun (lens h) r < fuel)%nat -> zlen buffer = 8 * frames ->
  let n := 4 * frames in
  exists d' i', in_read false fuel ans junk d iid buffer (8 * frames)
      = Ret (d', widen (take (Z.to_nat n) (drop (Z.to_nat r) (signal h))), 8 * frames)
    /\ hal_inv oid iid d' h (r + n) /\ ins d' !! iid = Some i' /\ outs d' = outs d
    /\ si_frames_read i' = u32 (si_frames_read i + frames) /\ si_timestamp_nsec i' = 1000 * time_at stereo_spk (timed h) r.
Proof.
  intros [(a & Ha & Hcfg & Hq & Hs & Hrun) Hout (i1 & Hi1 & Hic & Hsrc) Hbytes Hwake Htimes Hcount] Hi Hf Hrn Hfuel Hbuf n.
  assert (i1 = i) as -> by congruence. unfold in_read. rewrite (get_in_ok _ _ _ Hi). cbn [mbind outcome_bind].
  rewrite Hic, in_frame_size, Hsrc, Z.eqb_refl. cbn [Z.eqb]. unfold read_reference, in_get_sample_rate.
  rewrite Hic. cbn [pc_rate in_config]. rewrite Z.eqb_refl. unfold PLAYBACK_CODEC_SAMPLING_RATE at 1. cbn [Z.eqb].
  rewrite Ha. cbn [deref mbind outcome_bind]. unfold aec_get_spk_running, aec_get_spk_running_no_lock. rewrite Hrun.
  destruct Hwake as (o & Ho & Hst); [intros ->; cbn in Hrn; pose proof (qi_read _ _ _ _ Hq); lia|]. rewrite Ho, Hst. cbn [negb].
  pose proof (qi_read _ _ _ _ Hq) as Hr.
  destruct (fetch_ok fuel (ia_waits ans) a 2 2048 (16384, 160) h r frames buffer
              (MkInfo (ai_timestamp junk) (ai_timestamp_usec junk) (ai_available junk) (8 * frames)) Hcfg Hq Hbytes)
    as (a' & -> & Hcfg' & Hq' & Hs' & Hm' & Hrun'); [lia|lia|lia|done|cbn [ai_bytes]; lia|lia|].
  cbn [mbind outcome_bind Z.eqb negb orb ai_timestamp_usec ai_bytes]. rewrite Hs.
  pose proof (time_at_pos h r Htimes ltac:(lia)) as Htime.
  destruct (Z.eqb_spec (time_at stereo_spk (timed h) r) 0); [lia|].
  replace (frames * (2 * 2)) with n in * by lia. rewrite (drop_ge buffer), app_nil_r by lia.
  eexists _, _. split; [done|]. cbn [set_in set_aec outs ins adev_aec]. rewrite lookup_insert_eq. split; [|split_and!; [done|done| |]].
  - split; cbn [set_in set_aec outs ins adev_aec]; try done.
    + exists a'. split; [done|]. split_and!; [done|done|congruence|]. rewrite Hrun', Hrun. done.
    + eexists. rewrite lookup_insert_eq. by split_and!.
    + intros _. by exists o.
    + pose proof (unbegun_mono (lens h) r (r + n) ltac:(lia)). lia.
  - cbn. do 2 f_equal. Z.to_euclidean_division_equations; lia.
  - cbn. apply u64_small. lia.
Qed.

(** ** Opening the streams *)

(** A configuration the output, or the input, accepts. *)
Definition out_accepts (c : audio_config) : Prop :=
  ac_sample_rate c = PLAYBACK_CODEC_SAMPLING_RATE /\ audio_channel_count_from_out_mask (ac_channel_mask c) = 2
  /\ pcm_format_from_audio_format (ac_format c) = PCM_FORMAT_S16_LE.
Definition in_accepts (c : audio_config) : Prop :=
  ac_sample_rate c = PLAYBACK_CODEC_SAMPLING_RATE /\ audio_channel_count_from_in_mask (ac_channel_mask c) = 2
  /\ pcm_format_from_audio_format (ac_format c) = PCM_FORMAT_S32_LE.

(** The device, an output stream and a stream of the echo reference are opened. *)
Definition open_all (eq_mem : bool) (stale : list Z -> list Z) (eq_file : option (list Z)) (junk : Z) (oid iid : nat)
    (oc ic : audio_config) : outcome alsa_audio_device :=
  '(p, _) ← adev_open false true true true true 0 true;
  d ← deref p;
  '(d, _, _) ← adev_open_output_stream true true eq_mem stale eq_file d oid 0 oc;
  '(d, _, _) ← adev_open_input_stream false true true (fun _ => true) junk d iid 0 ic AUDIO_SOURCE_ECHO_REFERENCE;
  Ret d.

Lemma open_all_ok eq_mem stale eq_file junk oid iid oc ic :
  out_accepts oc -> in_accepts ic -> is_byte junk ->
  exists d o eq, open_all eq_mem stale eq_file junk oid iid oc ic = Ret d /\ hal_inv oid iid d [] 0 /\ outs d !! oid = Some o
    /\ so_speaker_eq o = eq /\ (eq_file = None -> eq = None).
Proof.
  intros (Or & Oc & Of) (Ir & Ic & If) Hj. unfold open_all. cbn [adev_open negb orb init_aec Z.eqb mbind outcome_bind deref].
  unfold adev_open_output_stream. cbn [negb pc_rate out_config pc_format]. rewrite Or, Oc, Of, !Z.eqb_refl. cbn [CHANNEL_STEREO Z.eqb negb orb Pos.eqb].
  destruct (out_set_eq_ok eq_mem stale eq_file 0) as (eq & Heq & Hok). rewrite Heq. cbn [mbind outcome_bind].
  rewrite out_frame_size by done. unfold init_aec_reference_config. cbn [adev_aec]. aec_cbn.
  change (u64 (u32 (pc_period_count out_config * pc_period_size out_config) * 4)) with 16384.
  change (u64 (pc_period_count out_config * sizeof_aec_info)) with 160. cbn [set_aec set_out Z.eqb negb].
  unfold adev_open_input_stream. cbn [negb pc_rate in_config pc_format mbind outcome_bind]. rewrite Ir, Ic, If, !Z.eqb_refl.
  cbn [CHANNEL_STEREO Z.eqb negb orb Pos.eqb]. unfold is_aec_input. cbn [si_source orb]. rewrite Z.eqb_refl.
  fold (in_config AUDIO_SOURCE_ECHO_REFERENCE). rewrite in_frame_size. cbn [adev_aec set_aec set_out]. set (a := set_spk _ _).
  destruct (init_mic_same_rate junk a (in_config AUDIO_SOURCE_ECHO_REFERENCE) 8 (16384, 160) [] []) as (f & t & Hf & Ht & He).
  { done. }
  { cbn. by rewrite Z.eqb_refl. }
  { cbn. by rewrite Z.eqb_refl. }
  { by apply fifo_init_holds. }
  { by apply fifo_init_holds. }
  rewrite He. cbn [mbind outcome_bind Z.eqb negb]. eexists _, _, eq. split; [done|].
  cbn [set_in set_aec set_out outs ins adev_aec]. rewrite lookup_insert_eq. split; [|split; [done|]].
  - split; cbn [set_in set_aec set_out outs ins adev_aec].
    + eexists. split; [done|]. rewrite lookup_insert_eq. split_and!; [|split|done|done]; aec_cbn.
      * split; aec_cbn; try (done || lia).
        -- cbn [in_config pc_rate]. by rewrite Z.eqb_refl.
        -- cbn [in_config pc_rate]. rewrite Z.eqb_refl. unfold PLAYBACK_CODEC_SAMPLING_RATE. lia.
        -- eexists. split; [done|]. split; [by rewrite length_replicate|]. by apply Forall_replicate.
      * done.
      * done.
      * done.
      * done.
      * exists [], []. by split_and!.
    + eexists. rewrite lookup_insert_eq. split; [done|]. by split_and!.
    + eexists. rewrite lookup_insert_eq. by split_and!.
    + done.
    + done.
    + done.
    + cbn. lia.
  - split; [done|]. intros ->. unfold out_set_eq in Heq. destruct eq_mem; cbn in Heq; congruence.
Qed.

(** ** Sequences of writes and reads *)

Inductive hal_op : Type :=
| HWrite (ans : out_answers) (junk : aec_info) (block : list Z)
| HRead (ans : in_answers) (junk : aec_info) (buffer : list Z).

(** The device, the blocks given to the pcm, with the time of each, and the buffers read, with
    the capture time of each. *)
Fixpoint hal_run (lanes : nat) (oid iid : nat) (d : alsa_audio_device) (ops : list hal_op)
    : outcome (alsa_audio_device * list (timespec * list Z) * list (list Z * Z)) :=
  match ops with
  | [] => Ret (d, [], [])
  | HWrite ans junk block :: ops' =>
      '(d, _, played, _) ← out_write lanes ans junk d oid block;
      o ← get_out d oid;
      '(d, ps, rs) ← hal_run lanes oid iid d ops';
      Ret (d, match played with Some b => (so_timestamp o, b) :: ps | None => ps end, rs)
  | HRead ans junk buffer :: ops' =>
      '(d, buf, _) ← in_read false 5 ans junk d iid buffer (zlen buffer);
      i ← get_in d iid;
      '(d, ps, rs) ← hal_run lanes oid iid d ops';
      Ret (d, ps, (buf, si_timestamp_nsec i) :: rs)
  end.

(** Blocks of up to 1024 frames are written while both queues have room; reads
    take up to 512 frames that were played. *)
Fixpoint ops_ok (ls : list Z) (r : Z) (ops : list hal_op) : Prop :=
  match ops with
  | [] => True
  | HWrite ans junk block :: ops' =>
      (exists p, pcm_open_loop PCM_OPEN_RETRIES 0 (oa_opens ans) = Some p) /\ oa_write ans = 0
      /\ (exists avail ts, oa_time ans = Some (avail, ts) /\ 0 <= avail <= 4096 /\ clock_ok ts) /\ oa_buffer_size ans = 4096
      /\ 0 <= ai_timestamp_usec junk < 18446744073709551616
      /\ (exists n, length block = (4 * n)%nat /\ (1 <= n <= 1024)%nat) /\ Forall is_byte block
      /\ foldr Z.add 0 ls + zlen block < 9223372036854775808 /\ foldr Z.add 0 ls - r + zlen block <= 16384 /\ (unbegun ls r < 4)%nat
      /\ ops_ok (ls ++ [zlen block]) r ops'
  | HRead ans junk buffer :: ops' =>
      exists frames, zlen buffer = 8 * frames /\ 0 < frames <= 512 /\ r + 4 * frames <= foldr Z.add 0 ls
      /\ ops_ok ls (r + 4 * frames) ops'
  end.

(** What the reads give, when the blocks [ps] are played by the writes: the next
    part of the signal [h], as 32-bit samples, and the time of its first frame. *)
Fixpoint ref_spec (h : list (timespec * list Z)) (r : Z) (ops : list hal_op) (ps : list (timespec * list Z)) : list (list Z * Z) :=
  match ops, ps with
  | HWrite _ _ _ :: ops', p :: ps' => ref_spec (h ++ [p]) r ops' ps'
  | HWrite _ _ _ :: _, [] => []
  | HRead _ _ buffer :: ops', _ =>
      let n := zlen buffer / 2 in
      (widen (take (Z.to_nat n) (drop (Z.to_nat r) (concat (snd <$> h)))), 1000 * time_at stereo_spk h r) :: ref_spec h (r + n) ops' ps
  | [], _ => []
  end.

(** How many bytes of the signal the reads take. *)
Fixpoint fetched (ops : list hal_op) : Z :=
  match ops with
  | [] => 0
  | HWrite _ _ _ :: ops' => fetched ops'
  | HRead _ _ buffer :: ops' => zlen buffer / 2 + fetched ops'
  end.

(** The blocks of the writes. *)
Definition written (ops : list hal_op) : list (list Z) :=
  omap (fun op => match op with HWrite _ _ b => Some b | HRead _ _ _ => None end) ops.

Lemma sum_lens h : foldr Z.add 0 (lens h) = zlen (signal h).
Proof.
  induction h as [|p h IH]; [done|]. rewrite signal_cons, length_app. cbn. unfold lens in IH. rewrite IH. lia.
Qed.

Lemma signal_timed h : concat (snd <$> timed h) = signal h.
Proof. unfold timed, signal. by rewrite <- list_fmap_compose. Qed.

Lemma hal_run_spec lanes oid iid ops : forall d h r,
  (2 <= lanes <= 4)%nat -> hal_inv oid iid d h r -> ops_ok (lens h) r ops ->
  exists d' ps rs h', hal_run lanes oid iid d ops = Ret (d', ps, rs) /\ rs = ref_spec (timed h) r ops ps
    /\ length ps = length (written ops) /\ hal_inv oid iid d' h' (r + fetched ops) /\ timed h' = timed h ++ ps
    /\ forall o, outs d !! oid = Some o ->
         concat (snd <$> ps) = played_block (so_speaker_eq o) (concat (written ops)) /\ (so_speaker_eq o = None -> snd <$> ps = written ops).
Proof.
  induction ops as [|op ops IH]; intros d h r Hlanes Hinv Hok.
  { eexists d, [], [], h. cbn [fetched]. rewrite Z.add_0_r, app_nil_r. split_and!; try done. intros o _. by rewrite played_nil. }
  destruct op as [ans junk block|ans junk buffer]; cbn [ops_ok] in Hok; cbn [hal_run ref_spec fetched].
  - destruct Hok as ((p & Hp) & Hw & (avail & ts & Ht & Hav & Hts) & Hbs & Hjunk & (n & Hl & Hn) & Hb & Hs1 & Hs2 & Hun & Hrest).
    rewrite sum_lens in Hs1, Hs2. destruct (hi_out _ _ _ _ _ Hinv) as (o & Ho & _).
    destruct (out_write_ok lanes ans junk d oid iid h r o p block n avail ts) as (d' & info & o' & -> & Hinv' & Ho' & Hst & _ & Hnone & Hcut);
      try done; [lia|lia|].
    cbn [mbind outcome_bind]. rewrite (get_out_ok _ _ _ Ho'). cbn [mbind outcome_bind].
    set (played := played_block (so_speaker_eq o) block) in *.
    assert (zlen played = zlen block) as Hlp by (unfold played; rewrite (length_played _ _ n Hl); lia).
    destruct (IH d' (h ++ [(info, played)]) r Hlanes Hinv') as (d2 & ps & rs & h' & -> & Hspec & Hlen & Hinv2 & Hh & Hdry).
    { unfold lens. rewrite fmap_app. cbn. rewrite Hlp. done. }
    assert (timed (h ++ [(info, played)]) = timed h ++ [(ai_timestamp info, played)]) as Htm by (unfold timed; by rewrite fmap_app).
    cbn [mbind outcome_bind]. eexists d2, _, _, h'. split; [done|]. rewrite Hst. split; [by rewrite Hspec, Htm|].
    split; [cbn; by rewrite Hlen|]. split; [done|]. split; [by rewrite Hh, Htm, <- app_assoc|]. intros o1 Ho1. assert (o1 = o) as -> by congruence.
    change (written (HWrite ans junk block :: ops)) with (block :: written ops). destruct (Hdry o' Ho') as [Hall Hsame].
    split; [cbn [fmap list_fmap snd concat]; by rewrite Hcut, Hall|]. intros Heq.
    rewrite <- (Hsame (Hnone Heq)). cbn [fmap list_fmap snd]. unfold played. by rewrite Heq.
  - destruct Hok as (frames & Hbuf & Hf & Hr & Hrest). rewrite sum_lens in Hr. destruct (hi_in _ _ _ _ _ Hinv) as (i & Hi & _).
    pose proof (hi_count _ _ _ _ _ Hinv) as Hcount. assert (unbegun (lens h) r < 5)%nat as Hun by lia.
    destruct (in_read_ok 5 ans junk d oid iid h r buffer frames i Hinv Hi Hf Hr Hun Hbuf) as (d' & i' & He & Hinv' & Hi' & Houts & _ & Hts).
    rewrite Hbuf, He. cbn [mbind outcome_bind]. rewrite (get_in_ok _ _ _ Hi'). cbn [mbind outcome_bind].
    destruct (IH d' h (r + 4 * frames) Hlanes Hinv' Hrest) as (d2 & ps & rs & h' & -> & Hspec & Hlen & Hinv2 & Hh & Hdry).
    assert (8 * frames / 2 = 4 * frames) as Hhalf by (Z.to_euclidean_division_equations; lia).
    cbn [mbind outcome_bind]. eexists d2, _, _, h'. split; [done|]. rewrite Hhalf. split; [by rewrite signal_timed, Hts, Hspec|].
    rewrite Z.add_assoc. split; [done|]. split; [done|]. split; [done|]. by rewrite <- Houts.
Qed.

(** C35: What is played is what the echo reference gives.  After the device, an
    output and a stream of the echo reference are opened, for every sequence of
    writes of up to 1024 frames and reads of up to 512 frames for which the queues
    have room and the frames read were played: each write hands one block to the pcm, and
    together they are what was written, put through the equaliser the output was
    opened with; without one each block is the one written.  Each read gives the
    next part of the blocks played, in order and with nothing lost, as 32-bit
    samples, under the time its first frame is played.  Larger reads, such as those of the
    size the stream itself asks for, are not covered: they overrun a buffer, as shown next. *)
Theorem echo_reference_roundtrip lanes eq_mem stale eq_file junk oid iid oc ic ops :
  out_accepts oc -> in_accepts ic -> is_byte junk -> (2 <= lanes <= 4)%nat -> ops_ok [] 0 ops ->
  exists d d' o ps rs, open_all eq_mem stale eq_file junk oid iid oc ic = Ret d /\ outs d !! oid = Some o
    /\ hal_run lanes oid iid d ops = Ret (d', ps, rs)
    /\ rs = ref_spec [] 0 ops ps /\ length ps = length (written ops)
    /\ concat (snd <$> ps) = played_block (so_speaker_eq o) (concat (written ops))
    /\ (eq_file = None -> snd <$> ps = written ops).
Proof.
  intros Hoc Hic Hj Hlanes Hops.
  destruct (open_all_ok eq_mem stale eq_file junk oid iid oc ic Hoc Hic Hj) as (d & o & eq & -> & Hinv & Ho & Heq & Hdry).
  destruct (hal_run_spec lanes oid iid ops d [] 0 Hlanes Hinv Hops) as (d' & ps & rs & h' & Hr & Hspec & Hlen & _ & _ & Hw).
  destruct (Hw o Ho) as [Hall Hsame]. exists d, d', o, ps, rs. split_and!; try done. intros Hnone. apply Hsame. rewrite Heq. by apply Hdry.
Qed.

(** A read of the size that [in_get_buffer_size] asks for overruns a buffer:
    for the echo reference it is 1536 frames, 6144 bytes of the queue, while the
    buffer they are copied to was allocated for 512 frames.  When that many
    bytes were played and not yet read, the read is a fault. *)
Theorem echo_read_overruns lanes eq_mem stale eq_file junk oid iid oc ic ops d d' ps rs fuel ans junk' i buffer :
  out_accepts oc -> in_accepts ic -> is_byte junk -> (2 <= lanes <= 4)%nat -> ops_ok [] 0 ops ->
  open_all eq_mem stale eq_file junk oid iid oc ic = Ret d -> hal_run lanes oid iid d ops = Ret (d', ps, rs) ->
  ins d' !! iid = Some i -> zlen (concat (snd <$> ps)) - fetched ops >= 6144 ->
  in_get_buffer_size i = 12288 /\ in_read false fuel ans junk' d' iid buffer (in_get_buffer_size i) = Fault.
Proof.
  intros Hoc Hic Hj Hlanes Hops Hopen Hrun Hi Hmuch.
  destruct (open_all_ok eq_mem stale eq_file junk oid iid oc ic Hoc Hic Hj) as (d1 & o & eq & Hopen' & Hinv & _).
  rewrite Hopen in Hopen'. injection Hopen' as <-.
  destruct (hal_run_spec lanes oid iid ops d [] 0 Hlanes Hinv Hops) as (d2 & ps' & rs' & h' & Hr & _ & _ & Hinv' & Hh & _).
  rewrite Hrun in Hr. injection Hr as <- <- <-. cbn in Hh. rewrite <- Hh, signal_timed in Hmuch.
  destruct Hinv' as [(a & Ha & Hcfg & Hq & Hs & Hrunning) _ (i1 & Hi1 & Hc & Hsrc) _ Hwake _ _].
  assert (i1 = i) as -> by congruence.
  assert (in_get_buffer_size i = 12288) as Hsize.
  { unfold in_get_buffer_size, get_input_buffer_size. rewrite Hsrc, Z.eqb_refl, Hc. cbn [pc_channels pc_format in_config].
    unfold CHANNEL_STEREO. rewrite hl_mask, hl_sample. reflexivity. }
  split; [done|]. rewrite Hsize. unfold in_read. rewrite (get_in_ok _ _ _ Hi). cbn [mbind outcome_bind].
  rewrite Hc, in_frame_size, Hsrc, Z.eqb_refl. cbn [Z.eqb]. unfold read_reference, in_get_sample_rate.
  rewrite Hc. cbn [pc_rate in_config]. rewrite Z.eqb_refl. unfold PLAYBACK_CODEC_SAMPLING_RATE at 1. cbn [Z.eqb].
  rewrite Ha. cbn [deref mbind outcome_bind]. unfold aec_get_spk_running, aec_get_spk_running_no_lock. rewrite Hrunning.
  pose proof (qi_read _ _ _ _ Hq) as Hread.
  destruct Hwake as (o1 & Ho1 & Hst); [intros ->; cbn in Hmuch, Hread; lia|]. rewrite Ho1, Hst. cbn [negb].
  destruct Hcfg as [Hch Hnum Hspk Hframe Hrate (buf & Hbuf & Hlen & _) Hres].
  unfold get_reference_samples. rewrite Hspk, Hframe. cbn [ai_bytes]. aec_cbn.
  destruct (Z.eqb_spec (mic_sampling_rate (aec_m a)) 0); [lia|]. change (4 * 2 =? 0) with false. cbn [orb].
  rewrite Z.div_same by lia. change (u64 (u64 (12288 / (4 * 2) * 1) * (2 * 2))) with 6144.
  destruct (wait_loop_ready MAX_READ_WAIT_TIME_MSEC (ia_waits ans) (16384, 160) h' (0 + fetched ops) (aec_q a) 6144 Hq ltac:(lia) ltac:(lia))
    as (q1 & -> & Hq1).
  aec_cbn. destruct (fifo_read_ok _ _ _ 6144 (qi_spk _ _ _ _ Hq1)) as (f & -> & _); [rewrite length_drop; lia|].
  aec_cbn. rewrite Hbuf. aec_cbn. set (got := take _ _).
  assert (zlen got = 6144) as Hgot by (unfold got; rewrite length_take, length_drop; lia).
  unfold store. rewrite Hgot, Hlen. reflexivity.
Qed.

(** Opening the echo reference after the output was closed uses freed memory.
    Closing the output releases the queues but leaves their pointers, and
    configuring the microphone flushes every queue that is not NULL. *)
Theorem reference_after_close_faults eq_mem stale eq_file junk oid iid oc ic :
  out_accepts oc -> in_accepts ic ->
  exists d0 d1 d2 oc', adev_open false true true true true 0 true = Ret (Live d0, 0)
    /\ adev_open_output_stream true true eq_mem stale eq_file d0 oid 0 oc = Ret (d1, oc', 0)
    /\ adev_close_output_stream d1 oid = Ret d2
    /\ adev_open_input_stream false true true (fun _ => true) junk d2 iid 0 ic AUDIO_SOURCE_ECHO_REFERENCE = Fault.
Proof.
  intros (Or & Oc & Of) (Ir & Ic & If). destruct (out_set_eq_ok eq_mem stale eq_file 0) as (eq & Heq & _).
  eexists _, _, _, _. split; [done|]. split.
  { unfold adev_open_output_stream. cbn [negb pc_rate out_config pc_format]. rewrite Or, Oc, Of, !Z.eqb_refl.
    cbn [CHANNEL_STEREO Z.eqb negb orb Pos.eqb]. rewrite Heq. cbn [mbind outcome_bind]. rewrite out_frame_size by done.
    unfold init_aec_reference_config. cbn [adev_aec]. aec_cbn. cbn [Z.eqb negb]. reflexivity. }
  split.
  { unfold adev_close_output_stream, destroy_aec_reference_config. cbn [adev_aec set_aec set_out]. aec_cbn.
    unfold destroy_aec_reference_config_no_lock. aec_cbn. unfold fifo_release, fifo_init. aec_cbn.
    unfold get_out. cbn [outs set_aec set_out]. rewrite lookup_insert_eq. cbn [mbind outcome_bind]. reflexivity. }
  unfold adev_open_input_stream. cbn [negb pc_rate in_config pc_format]. rewrite Ir, Ic, If, !Z.eqb_refl.
  cbn [CHANNEL_STEREO Z.eqb negb orb Pos.eqb]. unfold is_aec_input. cbn [si_source orb]. rewrite Z.eqb_refl.
  unfold init_aec_mic_config. cbn [adev_aec]. aec_cbn. unfold malloc. aec_cbn.
  assert (pc_rate (in_config AUDIO_SOURCE_ECHO_REFERENCE) = 48000) as -> by (cbn; by rewrite Z.eqb_refl). reflexivity.
Qed.

End audio.

(** ** Concrete runs *)

Definition demo_out_cfg : audio_config := MkAudioConfig 48000 3 1.
Definition demo_in_cfg : audio_config := MkAudioConfig 48000 12 3.

Lemma demo_accepts : @out_accepts platform demo_out_cfg /\ @in_accepts platform demo_in_cfg.
Proof. done. Qed.

Definition demo_write (sec : Z) (block : list Z) : hal_op :=
  HWrite (MkOutAns (fun k => if (k =? 2)%nat then Some 7 else None) 0 (Some (3072, MkTimespec sec 500000000)) 4096) info0 block.

Definition demo_read (frames : nat) : hal_op :=
  HRead (MkInAns (fun _ => None) 0 [] None 0 (MkTimespec 0 0) (fun _ => []) (fun _ _ _ _ _ => (0, []))) info0 (replicate (8 * frames) 170).

(** Two blocks are played; the second read begins in the middle of the first
    block and ends in the second. *)
Definition demo_ops : list hal_op :=
  [demo_write 100 [1; 0; 2; 0; 3; 0; 4; 0; 5; 0; 6; 0]; demo_read 2; demo_write 101 [7; 0; 8; 0]; demo_read 2].

Lemma demo_ops_ok : ops_ok [] 0 demo_ops.
Proof.
  assert (forall b, bytes_b b = true -> Forall is_byte b) as Hb by apply bytes_check.
  split_and!; [by exists 7|done|exists 3072, (MkTimespec 100 500000000); cbn; unfold clock_ok; cbn; split; [done|lia]
    |done|cbn; lia|cbn; lia|exists 3%nat; cbn; lia|by apply Hb|cbn; lia|cbn; lia|vm_compute; lia|].
  exists 2. split_and!; [done|lia|lia|cbn; lia|].
  split_and!; [by exists 7|done|exists 3072, (MkTimespec 101 500000000); cbn; unfold clock_ok; cbn; split; [done|lia]
    |done|cbn; lia|cbn; lia|exists 1%nat; cbn; lia|by apply Hb|cbn; lia|cbn; lia|vm_compute; lia|].
  exists 2. split_and!; [done|lia|lia|cbn; lia|done].
Qed.

Lemma echo_reference_roundtrip_witness :
  exists d d' ps rs, @open_all _ no_resampler platform true id None 0 1 2 demo_out_cfg demo_in_cfg = Ret d
    /\ @hal_run _ no_resampler saturating platform 4 1 2 d demo_ops = Ret (d', ps, rs)
    /\ rs.*1 = [[0; 0; 1; 0; 0; 0; 2; 0; 0; 0; 3; 0; 0; 0; 4; 0]; [0; 0; 5; 0; 0; 0; 6; 0; 0; 0; 7; 0; 0; 0; 8; 0]].
Proof.
  destruct (@echo_reference_roundtrip _ _ no_resampler saturating platform _ 4 true id None 0 1 2 demo_out_cfg demo_in_cfg demo_ops)
    as (d & d' & o & ps & rs & Ho & _ & Hr & Hs & Hl & _ & Hw).
  - apply demo_accepts.
  - apply demo_accepts.
  - unfold is_byte. lia.
  - lia.
  - apply demo_ops_ok.
  - exists d, d', ps, rs. split; [exact Ho|]. split; [exact Hr|]. specialize (Hw eq_refl).
    rewrite Hs. destruct ps as [|[t1 b1] [|[t2 b2] [|]]]; try discriminate. cbn in Hw. injection Hw as -> ->. reflexivity.
Defined.

(** Two full blocks are played and none is read. *)
Definition full_ops : list hal_op := [demo_write 100 (replicate (4 * 1024) 1); demo_write 101 (replicate (4 * 1024) 1)].

Lemma full_ops_ok : ops_ok [] 0 full_ops.
Proof.
  assert (forall n, zlen (replicate n 1) = Z.of_nat n) as Hl by (intros; by rewrite length_replicate).
  unfold full_ops, demo_write. cbn [ops_ok oa_opens oa_write oa_time oa_buffer_size app]. rewrite !Hl.
  split_and!; [by exists 7|done|exists 3072, (MkTimespec 100 500000000); unfold clock_ok; cbn; split; [done|lia]
    |done|cbn; lia|cbn; lia|exists 1024%nat; rewrite length_replicate; lia|apply Forall_replicate; unfold is_byte; lia
    |cbn [foldr]; lia|cbn [foldr]; lia|cbn; lia
    |by exists 7|done|exists 3072, (MkTimespec 101 500000000); unfold clock_ok; cbn; split; [done|lia]
    |done|cbn; lia|cbn; lia|exists 1024%nat; rewrite length_replicate; lia|apply Forall_replicate; unfold is_byte; lia
    |cbn [foldr]; lia|cbn [foldr]; lia|cbn; lia|done].
Qed.

Lemma echo_read_overruns_witness :
  exists d d' ps rs i, @open_all _ no_resampler platform true id None 0 1 2 demo_out_cfg demo_in_cfg = Ret d
    /\ @hal_run _ no_resampler saturating platform 4 1 2 d full_ops = Ret (d', ps, rs) /\ @in_get_buffer_size platform i = 12288
    /\ @in_read _ no_resampler saturating platform false 5
         (MkInAns (fun _ => None) 0 [] None 0 (MkTimespec 0 0) (fun _ => []) (fun _ _ _ _ _ => (0, []))) info0 d' 2
         (replicate 12288 0) (@in_get_buffer_size platform i) = Fault.
Proof.
  destruct demo_accepts as [Ho Hi]. assert (is_byte 0) as Hj by (unfold is_byte; lia).
  destruct (@open_all_ok _ _ no_resampler platform _ true id None 0 1 2 _ _ Ho Hi Hj) as (d & o & eq & Hd & Hinv & Hout & Heq & Hdry).
  destruct (@hal_run_spec _ _ no_resampler saturating platform _ 4 1 2 full_ops d [] 0 ltac:(lia) Hinv full_ops_ok)
    as (d' & ps & rs & h' & Hr & _ & _ & Hinv' & _ & Hw).
  destruct (hi_in _ _ _ _ _ Hinv') as (i & Hii & _).
  exists d, d', ps, rs, i. split; [exact Hd|]. split; [exact Hr|].
  apply (@echo_read_overruns _ _ no_resampler saturating platform _ 4 true id None 0 1 2 demo_out_cfg demo_in_cfg full_ops d d' ps rs 5).
  - exact Ho.
  - exact Hi.
  - exact Hj.
  - lia.
  - exact full_ops_ok.
  - exact Hd.
  - exact Hr.
  - exact Hii.
  - rewrite (proj2 (Hw o Hout)) by (rewrite Heq; by apply Hdry). unfold written, full_ops, demo_write. cbn [omap list_omap concat fetched].
    rewrite !length_app, !length_replicate. cbn [length]. lia.
Defined.

Lemma reference_after_close_faults_witness :
  exists d0 d1 d2 oc', @adev_open _ no_resampler false true true true true 0 true = Ret (Live d0, 0)
    /\ @adev_open_output_stream _ no_resampler platform true true true id None d0 1 0 demo_out_cfg = Ret (d1, oc', 0)
    /\ @adev_close_output_stream _ no_resampler d1 1 = Ret d2
    /\ @adev_open_input_stream _ no_resampler platform false true true (fun _ => true) 0 d2 2 0 demo_in_cfg 1997 = Fault.
Proof.
  apply (@reference_after_close_faults _ no_resampler platform _ true id None 0 1 2 demo_out_cfg demo_in_cfg).
  - apply demo_accepts.
  - apply demo_accepts.
Defined.
