(* ===== verification/Gralloc.v ===== *)
(** * The graphics allocator (src/gralloc/gralloc_gbm.cpp, gralloc.cpp)

    Buffers of libgbm under handles that processes share: a table from handles to
    buffers, and for each buffer the locks on it.  What libgbm answers is an
    argument of the calls, the numbers of its headers and of Android's are the
    class [GrallocHeaders].  Pointers are numbers, 0 is NULL. *)

From Stdlib Require Import ZArith Lia.
From stdpp Require Import base gmap list numbers strings.
From S2P Require Import Prelude.

Class GrallocHeaders : Type :=
  { RGBA_8888 : Z; RGBX_8888 : Z; RGB_888 : Z; RGB_565 : Z; BGRA_8888 : Z; YV12 : Z;
    YCbCr_422_SP : Z; YCrCb_420_SP : Z; YCbCr_422_I : Z;
    GBM_FORMAT_ABGR8888 : Z; GBM_FORMAT_XBGR8888 : Z; GBM_FORMAT_RGB888 : Z; GBM_FORMAT_RGB565 : Z;
    GBM_FORMAT_ARGB8888 : Z; GBM_FORMAT_GR88 : Z;
    SW_READ_OFTEN : Z; SW_WRITE_OFTEN : Z; SW_READ_MASK : Z; SW_WRITE_MASK : Z;
    HW_RENDER : Z; HW_TEXTURE : Z; HW_FB : Z; HW_COMPOSER : Z;
    GBM_BO_USE_LINEAR : Z; GBM_BO_USE_RENDERING : Z; GBM_BO_USE_SCANOUT : Z; GBM_BO_USE_CURSOR : Z }.

(** ** State *)

(** [struct bo_data_t]; [map_data] is NULL, or what libgbm gave for a mapping. *)
Record bo_data_t : Type := MkBoData { map_data : Z; lock_count : Z; locked_for : Z }.

(** A buffer of libgbm: its stride, and the user data, if it was set. *)
Record gbm_bo : Type := MkBo { bo_stride : Z; bo_user : option bo_data_t }.

(** [struct gralloc_handle_t] of libdrm; all but the descriptor is unsigned. *)
Record gralloc_handle_t : Type := MkHandle
  { gh_width : Z; gh_height : Z; gh_format : Z; gh_usage : Z; gh_stride : Z; gh_prime_fd : Z; gh_modifier : Z }.

(** The table [gbm_bo_handle_map], the buffers and the handles that exist. *)
Record gralloc : Type := MkGralloc
  { gbm_bo_handle_map : gmap Z Z; bos : gmap Z gbm_bo; handles : gmap Z gralloc_handle_t }.

Definition set_bo (bo : Z) (b : gbm_bo) (g : gralloc) : gralloc :=
  MkGralloc (gbm_bo_handle_map g) (<[bo := b]> (bos g)) (handles g).

Definition get_bo (g : gralloc) (bo : Z) : outcome gbm_bo :=
  match bos g !! bo with Some b => Ret b | None => Fault end.
Definition gralloc_handle (g : gralloc) (h : Z) : outcome gralloc_handle_t :=
  match handles g !! h with Some hd => Ret hd | None => Fault end.

Section gralloc.
Context `{GH : GrallocHeaders}.

(** ** Formats *)

Definition get_gbm_format (format : Z) : Z :=
  if format =? RGBA_8888 then GBM_FORMAT_ABGR8888
  else if format =? RGBX_8888 then GBM_FORMAT_XBGR8888
  else if format =? RGB_888 then GBM_FORMAT_RGB888
  else if format =? RGB_565 then GBM_FORMAT_RGB565
  else if format =? BGRA_8888 then GBM_FORMAT_ARGB8888
  else if format =? YV12 then GBM_FORMAT_GR88
  else 0.

Definition gralloc_gbm_get_bpp (format : Z) : Z :=
  if (format =? RGBA_8888) || (format =? RGBX_8888) || (format =? BGRA_8888) then 4
  else if format =? RGB_888 then 3
  else if (format =? RGB_565) || (format =? YCbCr_422_I) then 2
  else if (format =? YV12) || (format =? YCbCr_422_SP) || (format =? YCrCb_420_SP) then 1
  else 0.

(** [usage & mask] is not zero. *)
Definition has (usage mask : Z) : bool := negb (Z.land usage mask =? 0).

Definition get_pipe_bind (usage : Z) : Z :=
  let bind := 0 in
  let bind := if has usage (Z.lor SW_READ_OFTEN SW_WRITE_OFTEN) then Z.lor bind GBM_BO_USE_LINEAR else bind in
  let bind := if has usage (Z.lor HW_RENDER HW_TEXTURE) then Z.lor bind GBM_BO_USE_RENDERING else bind in
  let bind := if has usage HW_FB then Z.lor bind GBM_BO_USE_SCANOUT else bind in
  if has usage HW_COMPOSER then Z.lor bind (Z.lor GBM_BO_USE_SCANOUT GBM_BO_USE_RENDERING) else bind.

(** ** Buffers *)

(** What is asked of libgbm: width, height, format and usage of a buffer. *)
Record bo_request : Type := MkRequest { rq_width : Z; rq_height : Z; rq_format : Z; rq_usage : Z }.

(** YV12 is planar, but one buffer of 16-bit pixels is asked for. *)
Definition import_request (h : gralloc_handle_t) : bo_request :=
  if gh_format h =? YV12
  then MkRequest (gh_width h / 2) (u32 (gh_height h + gh_height h / 2)) (get_gbm_format (gh_format h)) 0
  else MkRequest (gh_width h) (gh_height h) (get_gbm_format (gh_format h)) 0.

(** [import] is [gbm_bo_import]: it is given the request and the handle, whose
    descriptor, stride and modifier it takes, and answers with the address and the
    stride of the buffer, or [None] when it fails. *)
Definition gbm_import (import : bo_request -> gralloc_handle_t -> outcome (option (Z * Z))) (g : gralloc) (handle : Z)
    : outcome (gralloc * Z) :=
  h ← gralloc_handle g handle;
  if gh_prime_fd h <? 0 then Ret (g, 0)
  else
    imported ← import (import_request h) h;
    match imported with
    | None => Ret (g, 0)
    | Some (bo, stride) => Ret (set_bo bo (MkBo stride None) g, bo)
    end.

Definition alloc_request (h : gralloc_handle_t) : bo_request :=
  let usage := get_pipe_bind (gh_usage h) in
  let cursor := has usage GBM_BO_USE_CURSOR in
  let width := if cursor && (gh_width h <? 64) then 64 else s32 (gh_width h) in
  let height := if cursor && (gh_height h <? 64) then 64 else s32 (gh_height h) in
  if gh_format h =? YV12
  then MkRequest (Z.quot width 2) (s32 (height + gh_height h / 2)) (get_gbm_format (gh_format h)) usage
  else MkRequest width height (get_gbm_format (gh_format h)) usage.

(** What libgbm gives for a new buffer: its address, descriptor, stride and
    modifier. *)
Record created : Type := MkCreated { cr_bo : Z; cr_fd : Z; cr_stride : Z; cr_modifier : Z }.

(** [create] is [gbm_bo_create]; the result is the buffer, or NULL. *)
Definition gbm_alloc (create : bo_request -> outcome (option created)) (g : gralloc) (handle : Z) : outcome (gralloc * Z) :=
  h ← gralloc_handle g handle;
  made ← create (alloc_request h);
  match made with
  | None => Ret (g, 0)
  | Some c =>
      let h := MkHandle (gh_width h) (gh_height h) (gh_format h) (gh_usage h) (cr_stride c) (cr_fd c) (cr_modifier c) in
      Ret (MkGralloc (gbm_bo_handle_map g) (<[cr_bo c := MkBo (cr_stride c) None]> (bos g)) (<[handle := h]> (handles g)), cr_bo c)
  end.

(** [operator[]] of the table adds NULL for a handle that is not there. *)
Definition gralloc_gbm_bo_from_handle (g : gralloc) (handle : Z) : gralloc * Z :=
  match gbm_bo_handle_map g !! handle with
  | Some bo => (g, bo)
  | None => (MkGralloc (<[handle := 0]> (gbm_bo_handle_map g)) (bos g) (handles g), 0)
  end.

(** [gbm_bo_destroy] also deletes the user data; destroying a buffer twice is a
    fault. *)
Definition gbm_free (g : gralloc) (handle : Z) : outcome gralloc :=
  let '(g, bo) := gralloc_gbm_bo_from_handle g handle in
  if bo =? 0 then Ret g
  else
    _ ← get_bo g bo;
    Ret (MkGralloc (delete handle (gbm_bo_handle_map g)) (delete bo (bos g)) (handles g)).

(** ** Mapping *)

(** What is asked of [gbm_bo_map]: the extent, from the origin, and whether the
    mapping is for writing as well. *)
Record map_request : Type := MkMapRequest { mr_width : Z; mr_height : Z; mr_write : bool }.

(** What it gives: the address, the stride and the map data, [None] when it
    fails. *)
Definition mapping : Type := map_request -> option (Z * Z * Z).

(** The extent asked for; for YV12 that of the buffer of 16-bit pixels. *)
Definition map_extent (format x y w h : Z) (enable_write : bool) : map_request :=
  if format =? YV12
  then MkMapRequest (x + Z.quot w 2) (y + (h + Z.quot h 2)) enable_write
  else MkMapRequest (x + w) (y + h) enable_write.

(** The address mapped and the result; the assertion compares the strides. *)
Definition gbm_map (ans : mapping) (g : gralloc) (handle x y w h : Z) (enable_write : bool) : outcome (gralloc * Z * Z) :=
  let '(g, bo) := gralloc_gbm_bo_from_handle g handle in
  b ← get_bo g bo;
  match bo_user b with
  | None => Fault
  | Some d =>
      if negb (map_data d =? 0) then Ret (g, 0, - EINVAL)
      else
        gbm_handle ← gralloc_handle g handle;
        match ans (map_extent (gh_format gbm_handle) x y w h enable_write) with
        | None => Ret (g, 0, - ENOMEM)
        | Some (addr, stride, data) =>
            if negb (stride =? bo_stride b) then Fault
            else Ret (set_bo bo (MkBo (bo_stride b) (Some (MkBoData data (lock_count d) (locked_for d)))) g, addr, 0)
        end
  end.

Definition gbm_unmap (g : gralloc) (bo : Z) : outcome gralloc :=
  b ← get_bo g bo;
  match bo_user b with
  | None => Fault
  | Some d => Ret (set_bo bo (MkBo (bo_stride b) (Some (MkBoData 0 (lock_count d) (locked_for d)))) g)
  end.

(** ** The interface *)

Definition gralloc_gbm_handle_register (import : bo_request -> gralloc_handle_t -> outcome (option (Z * Z))) (g : gralloc) (handle : Z) : outcome (gralloc * Z) :=
  if handle =? 0 then Ret (g, - EINVAL)
  else if decide (is_Some (gbm_bo_handle_map g !! handle)) then Ret (g, - EINVAL)
  else
    '(g, bo) ← gbm_import import g handle;
    if bo =? 0 then Ret (g, - EINVAL)
    else Ret (MkGralloc (<[handle := bo]> (gbm_bo_handle_map g)) (bos g) (handles g), 0).

Definition gralloc_gbm_handle_unregister (g : gralloc) (handle : Z) : outcome (gralloc * Z) :=
  g ← gbm_free g handle; Ret (g, 0).

(** [new] is the address of the new handle, 0 when there is no memory for it.
    The result is the handle, or NULL, and the stride in pixels; [emplace] does not
    replace an entry of the table. *)
Definition gralloc_gbm_bo_create (new : Z) (create : bo_request -> outcome (option created)) (g : gralloc)
    (width height format usage : Z) : outcome (gralloc * Z * Z) :=
  if new =? 0 then Ret (g, 0, 0)
  else
    let g := MkGralloc (gbm_bo_handle_map g) (bos g) (<[new := MkHandle width height format usage 0 (-1) 0]> (handles g)) in
    '(g, bo) ← gbm_alloc create g new;
    if bo =? 0 then Ret (MkGralloc (gbm_bo_handle_map g) (bos g) (delete new (handles g)), 0, 0)
    else
      let table := match gbm_bo_handle_map g !! new with Some _ => gbm_bo_handle_map g | None => <[new := bo]> (gbm_bo_handle_map g) end in
      let g := MkGralloc table (bos g) (handles g) in
      h ← gralloc_handle g new;
      if gralloc_gbm_get_bpp format =? 0 then Fault
      else Ret (g, new, gh_stride h / gralloc_gbm_get_bpp format).

(** The largest number of locks; one more overflows, which C leaves undefined. *)
Definition LOCK_MAX : Z := 2147483647.

(** The part of [gralloc_gbm_bo_lock] behind the check of the usage; a rectangle
    without width and height stands for the whole buffer. *)
Definition lock_counted (ans : mapping) (g : gralloc) (handle bo : Z) (hd : gralloc_handle_t) (usage x y w h : Z) : outcome (gralloc * Z * Z) :=
  b ← get_bo g bo;
  let d := match bo_user b with Some d => d | None => MkBoData 0 0 0 end in
  let g := set_bo bo (MkBo (bo_stride b) (Some d)) g in
  if negb (lock_count d =? 0) && negb (Z.land (locked_for d) usage =? usage) then Ret (g, 0, - EINVAL)
  else
    let usage := Z.lor usage (locked_for d) in
    let '(w, h) := if (w =? 0) && (h =? 0) then (s32 (gh_width hd), s32 (gh_height hd)) else (w, h) in
    '(g, addr, err) ← (if has usage (Z.lor SW_WRITE_MASK SW_READ_MASK)
                       then gbm_map ans g handle x y w h (has usage SW_WRITE_MASK) else Ret (g, 0, 0));
    if negb (err =? 0) then Ret (g, 0, err)
    else
      b ← get_bo g bo;
      match bo_user b with
      | None => Fault
      | Some d =>
          if lock_count d =? LOCK_MAX then Fault
          else Ret (set_bo bo (MkBo (bo_stride b) (Some (MkBoData (map_data d) (lock_count d + 1) (Z.lor (locked_for d) usage)))) g, addr, 0)
      end.

(** The address, for a lock of the processor, and the result. *)
Definition gralloc_gbm_bo_lock (ans : mapping) (g : gralloc) (handle usage x y w h : Z) : outcome (gralloc * Z * Z) :=
  let '(g, bo) := gralloc_gbm_bo_from_handle g handle in
  if bo =? 0 then Ret (g, 0, - EINVAL)
  else
    hd ← gralloc_handle g handle;
    if negb (Z.land (gh_usage hd) usage =? u32 usage)
       && negb (has (gh_usage hd) SW_READ_OFTEN) && negb (has (gh_usage hd) HW_FB) && negb (has (gh_usage hd) HW_TEXTURE)
    then Ret (g, 0, - EINVAL)
    else lock_counted ans g handle bo hd usage x y w h.

Definition gralloc_gbm_bo_unlock (g : gralloc) (handle : Z) : outcome (gralloc * Z) :=
  let '(g, bo) := gralloc_gbm_bo_from_handle g handle in
  if bo =? 0 then Ret (g, - EINVAL)
  else
    b ← get_bo g bo;
    match bo_user b with
    | None => Fault
    | Some d =>
        if lock_count d =? 0 then Ret (g, 0)
        else
          g ← (if has (locked_for d) (Z.lor SW_WRITE_MASK SW_READ_MASK) then gbm_unmap g bo else Ret g);
          b ← get_bo g bo;
          match bo_user b with
          | None => Fault
          | Some d =>
              let count := lock_count d - 1 in
              Ret (set_bo bo (MkBo (bo_stride b) (Some (MkBoData (map_data d) count (if count =? 0 then 0 else locked_for d)))) g, 0)
          end
    end.

(** ** Planes *)

Definition GRALLOC_ALIGN (value base : Z) : Z := Z.land (value + (base - 1)) (Z.lnot (base - 1)).

(** [struct android_ycbcr], with offsets from the address of the lock. *)
Record android_ycbcr : Type := MkYcbcr { yc_y : Z; yc_cb : Z; yc_cr : Z; yc_ystride : Z; yc_cstride : Z; yc_chroma_step : Z }.

(** The planes of a handle, [None] for a format without planes; the products
    are unsigned, the height is. *)
Definition planes (h : gralloc_handle_t) : option android_ycbcr :=
  if gh_format h =? YCrCb_420_SP then
    let ystride := s32 (u32 (GRALLOC_ALIGN (gh_width h) 16)) in
    Some (MkYcbcr 0 (u32 (ystride * gh_height h) + 1) (u32 (ystride * gh_height h)) ystride ystride 2)
  else if gh_format h =? YV12 then
    let ystride := s32 (gh_width h) in
    let cstride := GRALLOC_ALIGN (Z.quot ystride 2) 16 in
    Some (MkYcbcr 0 (u32 (ystride * gh_height h) + u32 (cstride * gh_height h) / 2) (u32 (ystride * gh_height h)) ystride cstride 1)
  else None.

Definition gralloc_gbm_bo_lock_ycbcr (ans : mapping) (g : gralloc) (handle usage x y w h : Z) : outcome (gralloc * option android_ycbcr * Z) :=
  '(g, addr, err) ← gralloc_gbm_bo_lock ans g handle usage x y w h;
  if negb (err =? 0) then Ret (g, None, err)
  else
    hnd ← gralloc_handle g handle;
    match planes hnd with
    | None => Ret (g, None, - EINVAL)
    | Some p => Ret (g, Some p, 0)
    end.

(** ** The module (gralloc.cpp) *)

(** [struct gbm_module_t]: the device of libgbm, 0 before it was opened, the
    devices that exist, and the buffers. *)
Record gbm_module_t : Type := MkModule { mod_gbm : Z; mod_devices : gset Z; mod_bufs : gralloc }.

Definition with_bufs (m : gbm_module_t) (g : gralloc) : gbm_module_t := MkModule (mod_gbm m) (mod_devices m) g.

(** A call of libgbm on the device of the module faults when it was destroyed. *)
Definition on_device {A} (m : gbm_module_t) (x : A) : outcome A :=
  if decide (mod_gbm m ∈ mod_devices m) then Ret x else Fault.

(** [fd] and [device] are what opening the file and creating the device give. *)
Definition gbm_dev_create (fd device : Z) (m : gbm_module_t) : gbm_module_t * Z :=
  if fd <? 0 then (m, 0)
  else if device =? 0 then (m, 0)
  else (MkModule (mod_gbm m) ({[ device ]} ∪ mod_devices m) (mod_bufs m), device).

Definition gbm_dev_destroy (m : gbm_module_t) (device : Z) : outcome gbm_module_t :=
  if decide (device ∈ mod_devices m) then Ret (MkModule (mod_gbm m) (mod_devices m ∖ {[ device ]}) (mod_bufs m)) else Fault.

Definition gbm_init (fd device : Z) (m : gbm_module_t) : gbm_module_t * Z :=
  if mod_gbm m =? 0 then
    let '(m, gbm) := gbm_dev_create fd device m in
    (MkModule gbm (mod_devices m) (mod_bufs m), if gbm =? 0 then - EINVAL else 0)
  else (m, 0).

(** The descriptor, [device_fd] of the device, and the result. *)
Definition gbm_mod_perform (fd device device_fd : Z) (GET_DRM_FD : Z) (m : gbm_module_t) (op : Z) : outcome (gbm_module_t * option Z * Z) :=
  let '(m, err) := gbm_init fd device m in
  if negb (err =? 0) then Ret (m, None, err)
  else if u32 op =? GET_DRM_FD then dfd ← on_device m device_fd; Ret (m, Some dfd, 0)
  else Ret (m, None, - EINVAL).

Definition gbm_mod_register_buffer (fd device : Z) (import : bo_request -> gralloc_handle_t -> option (Z * Z)) (m : gbm_module_t) (handle : Z)
    : outcome (gbm_module_t * Z) :=
  let '(m, err) := gbm_init fd device m in
  if negb (err =? 0) then Ret (m, err)
  else
    '(g, err) ← gralloc_gbm_handle_register (fun rq h => on_device m (import rq h)) (mod_bufs m) handle;
    Ret (with_bufs m g, err).

Definition gbm_mod_unregister_buffer (m : gbm_module_t) (handle : Z) : outcome (gbm_module_t * Z) :=
  '(g, err) ← gralloc_gbm_handle_unregister (mod_bufs m) handle; Ret (with_bufs m g, err).

Definition gbm_mod_lock (ans : mapping) (m : gbm_module_t) (handle usage x y w h : Z) : outcome (gbm_module_t * Z * Z) :=
  '(g, addr, err) ← gralloc_gbm_bo_lock ans (mod_bufs m) handle usage x y w h; Ret (with_bufs m g, addr, err).

Definition gbm_mod_unlock (m : gbm_module_t) (handle : Z) : outcome (gbm_module_t * Z) :=
  '(g, err) ← gralloc_gbm_bo_unlock (mod_bufs m) handle; Ret (with_bufs m g, err).

Definition gbm_mod_lock_ycbcr (ans : mapping) (m : gbm_module_t) (handle usage x y w h : Z)
    : outcome (gbm_module_t * option android_ycbcr * Z) :=
  '(g, p, err) ← gralloc_gbm_bo_lock_ycbcr ans (mod_bufs m) handle usage x y w h; Ret (with_bufs m g, p, err).

(** The device is destroyed, the pointer to it stays. *)
Definition gbm_mod_close_gpu0 (m : gbm_module_t) : outcome (gbm_module_t * Z) :=
  m ← gbm_dev_destroy m (mod_gbm m); Ret (m, 0).

(** The buffer is freed and the handle closed and deleted. *)
Definition gbm_mod_free_gpu0 (m : gbm_module_t) (handle : Z) : outcome (gbm_module_t * Z) :=
  g ← gbm_free (mod_bufs m) handle;
  _ ← gralloc_handle g handle;
  Ret (with_bufs m (MkGralloc (gbm_bo_handle_map g) (bos g) (delete handle (handles g))), 0).

(** [errno] is that of the call that failed. *)
Definition gbm_mod_alloc_gpu0 (new : Z) (create : bo_request -> option created) (errno : Z) (m : gbm_module_t)
    (w h format usage : Z) : outcome (gbm_module_t * Z * Z * Z) :=
  '(g, handle, stride) ← gralloc_gbm_bo_create new (fun rq => on_device m (create rq)) (mod_bufs m) w h format usage;
  Ret (with_bufs m g, handle, stride, if handle =? 0 then - errno else 0).

(** Opening the allocator; [new] does not return NULL. *)
Definition gbm_mod_open_gpu0 (fd device : Z) (m : gbm_module_t) : gbm_module_t * Z := gbm_init fd device m.

Definition gbm_mod_open (GPU0 name : string) (fd device : Z) (m : gbm_module_t) : gbm_module_t * Z :=
  if bool_decide (name = GPU0) then gbm_mod_open_gpu0 fd device m else (m, - EINVAL).

End gralloc.
