(* ===== verification/GrallocClaims.v ===== *)
(** * The graphics allocator: tables and locks *)

From Stdlib Require Import ZArith Lia.
From stdpp Require Import base gmap list numbers strings relations.
From S2P Require Import Prelude Gralloc.

Section claims.
Context `{GH : GrallocHeaders}.

(** ** Usage bits *)

Definition sw (usage : Z) : bool := has usage (Z.lor SW_WRITE_MASK SW_READ_MASK).

Lemma has_lor u v m : has (Z.lor u v) m = has u m || has v m.
Proof.
  unfold has. rewrite Z.land_lor_distr_l. rewrite <- negb_andb. f_equal.
  destruct (Z.eqb_spec (Z.land u m) 0) as [->|Hu]; [done|]. cbn [andb].
  destruct (Z.eqb_spec (Z.lor (Z.land u m) (Z.land v m)) 0) as [H|]; [|done]. by apply Z.lor_eq_0_iff in H as [? _].
Qed.

(** A usage that is part of another one has none of the bits that one lacks. *)
Lemma has_part u v m : Z.land v u = u -> has v m = false -> has u m = false.
Proof.
  unfold has. rewrite !negb_false_iff, !Z.eqb_eq. intros Hu Hv.
  rewrite <- Hu, (Z.land_comm v u), <- Z.land_assoc, Hv. apply Z.land_0_r.
Qed.

(** ** The invariant *)

(** The locks of a buffer: without locks it is not mapped; it is mapped exactly
    when it is locked for the processor, and then it is locked once. *)
Record data_ok (d : bo_data_t) : Prop := MkDataOk
  { do_count : 0 <= lock_count d;
    do_free : lock_count d = 0 -> locked_for d = 0;
    do_mapped : negb (map_data d =? 0) = sw (locked_for d);
    do_once : map_data d <> 0 -> lock_count d = 1 }.

Definition bo_ok (b : gbm_bo) : Prop := match bo_user b with Some d => data_ok d | None => True end.

(** Every buffer in the table exists, and has one handle. *)
Record gralloc_inv (g : gralloc) : Prop := MkGrallocInv
  { gi_null : bos g !! 0 = None;
    gi_bos : forall bo b, bos g !! bo = Some b -> bo_ok b;
    gi_live : forall h bo, gbm_bo_handle_map g !! h = Some bo -> bo <> 0 -> is_Some (bos g !! bo);
    gi_inj : forall h h' bo, gbm_bo_handle_map g !! h = Some bo -> gbm_bo_handle_map g !! h' = Some bo -> bo <> 0 -> h = h' }.

Lemma sw_0 : sw 0 = false.
Proof. reflexivity. Qed.

Lemma data_ok_0 : data_ok (MkBoData 0 0 0).
Proof. split; cbn; try (done || lia). Qed.

(** Changing the locks of a buffer keeps the table. *)
Lemma set_bo_inv g bo b b' :
  gralloc_inv g -> bos g !! bo = Some b -> bo_ok b' -> gralloc_inv (set_bo bo b' g).
Proof.
  intros [Hnull Hbos Hlive Hinj] Hb Hok. assert (bo <> 0) as Hne by (intros ->; congruence).
  split; cbn.
  - by rewrite lookup_insert_ne.
  - intros bo1 b1 H1. destruct (decide (bo1 = bo)) as [->|].
    + rewrite lookup_insert_eq in H1. by simplify_eq.
    + rewrite lookup_insert_ne in H1 by done. by eapply Hbos.
  - intros h bo1 Hh Hn. destruct (decide (bo1 = bo)) as [->|]; [by rewrite lookup_insert_eq|].
    rewrite lookup_insert_ne by done. by eapply Hlive.
  - done.
Qed.

Lemma set_bo_twice g bo b b' : set_bo bo b' (set_bo bo b g) = set_bo bo b' g.
Proof. unfold set_bo. cbn. by rewrite insert_insert_eq. Qed.

(** Looking a handle up adds at most an entry that is NULL. *)
Lemma from_handle_inv g h g' bo :
  gralloc_gbm_bo_from_handle g h = (g', bo) -> gralloc_inv g ->
  gralloc_inv g' /\ gbm_bo_handle_map g' !! h = Some bo /\ bos g' = bos g /\ handles g' = handles g.
Proof.
  unfold gralloc_gbm_bo_from_handle. intros He [Hnull Hbos Hlive Hinj].
  destruct (gbm_bo_handle_map g !! h) as [bo1|] eqn:Hh; simplify_eq; [by split_and!|].
  split; [|split_and!; cbn; [by rewrite lookup_insert_eq|done|done]]. split; cbn; [done|done| |].
  - intros h1 bo1 H1 Hn. destruct (decide (h1 = h)) as [->|]; [rewrite lookup_insert_eq in H1; by simplify_eq|].
    rewrite lookup_insert_ne in H1 by done. by eapply Hlive.
  - intros h1 h2 bo1 H1 H2 Hn. destruct (decide (h1 = h)) as [->|]; [rewrite lookup_insert_eq in H1; by simplify_eq|].
    destruct (decide (h2 = h)) as [->|]; [rewrite lookup_insert_eq in H2; by simplify_eq|].
    rewrite lookup_insert_ne in H1, H2 by done. by eapply Hinj.
Qed.

Lemma get_bo_ret g bo b : get_bo g bo = Ret b -> bos g !! bo = Some b.
Proof. unfold get_bo. destruct (bos g !! bo); intros; by simplify_eq. Qed.

(** ** Mapping *)

Lemma gbm_map_spec ans g h x y w ht wr g' addr err bo b d :
  gbm_map ans g h x y w ht wr = Ret (g', addr, err) -> gbm_bo_handle_map g !! h = Some bo -> bos g !! bo = Some b -> bo_user b = Some d ->
  (err <> 0 /\ g' = g)
  \/ (err = 0 /\ map_data d = 0 /\ exists rq data stride, ans rq = Some (addr, stride, data)
      /\ g' = set_bo bo (MkBo (bo_stride b) (Some (MkBoData data (lock_count d) (locked_for d)))) g).
Proof.
  intros Hm Hh Hb Hd. unfold gbm_map, gralloc_gbm_bo_from_handle in Hm. rewrite Hh in Hm. unfold get_bo in Hm. rewrite Hb in Hm.
  cbn [mbind outcome_bind] in Hm. rewrite Hd in Hm. destruct (Z.eqb_spec (map_data d) 0) as [H0|H0]; cbn [negb] in Hm; [|simplify_eq; by left].
  apply outcome_bind_inv in Hm as (hd & _ & Hm). destruct (ans _) as [[[a s] data]|] eqn:Hans; [|simplify_eq; by left].
  destruct (negb (s =? bo_stride b)); [done|]. simplify_eq. right. split_and!; [done|done|]. by eexists _, _, _.
Qed.

(** [gbm_bo_map] gives map data that is not NULL. *)
Definition mapping_ok (ans : mapping) : Prop :=
  forall rq addr stride data, ans rq = Some (addr, stride, data) -> data <> 0.

(** ** Locks *)

Lemma lock_counted_inv ans g h bo hd usage x y w ht g' addr err :
  lock_counted ans g h bo hd usage x y w ht = Ret (g', addr, err) -> gralloc_inv g -> gbm_bo_handle_map g !! h = Some bo -> mapping_ok ans ->
  gralloc_inv g'.
Proof.
  unfold lock_counted. intros He Hinv Hh Hans. apply outcome_bind_inv in He as (b & Hb%get_bo_ret & He).
  set (d := match bo_user b with Some d => d | None => MkBoData 0 0 0 end) in He.
  assert (data_ok d) as Hd.
  { pose proof (gi_bos g Hinv bo b Hb) as Hok. unfold bo_ok in Hok. unfold d. destruct (bo_user b); [done|apply data_ok_0]. }
  set (g1 := set_bo bo (MkBo (bo_stride b) (Some d)) g) in He.
  assert (gralloc_inv g1) as Hinv1 by (by apply (set_bo_inv g bo b)).
  assert (bos g1 !! bo = Some (MkBo (bo_stride b) (Some d))) as Hb1 by (unfold g1; cbn; by rewrite lookup_insert_eq).
  destruct Hd as [Hc Hfree Hmapped Honce].
  destruct (negb (lock_count d =? 0) && negb (Z.land (locked_for d) usage =? usage)) eqn:Hbad; [by simplify_eq|].
  destruct (if (w =? 0) && (ht =? 0) then _ else _) as [w1 h1].
  apply outcome_bind_inv in He as ([[g2 a2] err2] & Hm & He). change (has (Z.lor usage (locked_for d)) (Z.lor SW_WRITE_MASK SW_READ_MASK)) with (sw (Z.lor usage (locked_for d))) in Hm.
  assert (sw (Z.lor usage (locked_for d)) = true -> map_data d = 0 -> lock_count d = 0) as Hfirst.
  { intros Hsw H0. destruct (Z.eqb_spec (lock_count d) 0) as [|Hne]; [done|]. exfalso. cbn [negb andb] in Hbad.
    apply negb_false_iff, Z.eqb_eq in Hbad. rewrite H0 in Hmapped. cbn in Hmapped.
    unfold sw in *. rewrite has_lor, (has_part usage (locked_for d) _ Hbad (eq_sym Hmapped)), <- Hmapped in Hsw. done. }
  destruct (sw (Z.lor usage (locked_for d))) eqn:Hsw.
  - destruct (gbm_map_spec _ g1 h _ _ _ _ _ g2 a2 err2 bo _ d Hm Hh Hb1 eq_refl) as [[Herr ->]|(-> & H0 & rq & data & s & Hrq & ->)].
    { destruct (Z.eqb_spec err2 0); [done|]. cbn [negb] in He. by simplify_eq. }
    cbn [Z.eqb negb] in He. apply outcome_bind_inv in He as (b2 & Hb2%get_bo_ret & He). cbn in Hb2. rewrite lookup_insert_eq in Hb2.
    simplify_eq. cbn [bo_user bo_stride map_data lock_count locked_for] in He. destruct (lock_count d =? LOCK_MAX); [done|].
    simplify_eq. rewrite set_bo_twice. apply Hans in Hrq. eapply set_bo_inv; [done|done|]. pose proof (Hfirst eq_refl H0) as Hz. pose proof (Hfree Hz) as Hlf.
    rewrite Hlf, Z.lor_0_r in Hsw. rewrite Hz, Hlf. unfold bo_ok. cbn [bo_user].
    split; cbn [map_data lock_count locked_for]; [lia|lia| |lia]. rewrite Z.lor_0_l, Z.lor_0_r, Hsw. by destruct (Z.eqb_spec data 0).
  - simplify_eq. cbn [Z.eqb negb] in He. apply outcome_bind_inv in He as (b2 & Hb2%get_bo_ret & He). rewrite Hb1 in Hb2. simplify_eq.
    cbn [bo_user] in He. destruct (lock_count d =? LOCK_MAX); [done|]. simplify_eq. eapply set_bo_inv; [done|done|]. cbn.
    unfold sw in *. rewrite has_lor in Hsw. apply orb_false_iff in Hsw as [Hu Hl]. rewrite Hl in Hmapped.
    apply negb_false_iff, Z.eqb_eq in Hmapped. split; cbn; [lia|lia| |done].
    rewrite Hmapped. unfold sw. rewrite !has_lor, Hu, Hl. done.
Qed.

Lemma lock_inv ans g h usage x y w ht g' addr err :
  gralloc_gbm_bo_lock ans g h usage x y w ht = Ret (g', addr, err) -> gralloc_inv g -> mapping_ok ans -> gralloc_inv g'.
Proof.
  unfold gralloc_gbm_bo_lock. intros He Hinv Hans. destruct (gralloc_gbm_bo_from_handle g h) as [g1 bo] eqn:Hf.
  destruct (from_handle_inv _ _ _ _ Hf Hinv) as (Hinv1 & Hh & _). destruct (bo =? 0); [by simplify_eq|].
  apply outcome_bind_inv in He as (hd & _ & He). destruct (_ && _); [by simplify_eq|]. by eapply lock_counted_inv.
Qed.

Lemma unlock_inv g h g' err : gralloc_gbm_bo_unlock g h = Ret (g', err) -> gralloc_inv g -> gralloc_inv g'.
Proof.
  unfold gralloc_gbm_bo_unlock. intros He Hinv. destruct (gralloc_gbm_bo_from_handle g h) as [g1 bo] eqn:Hf.
  destruct (from_handle_inv _ _ _ _ Hf Hinv) as (Hinv1 & Hh & _). destruct (bo =? 0); [by simplify_eq|].
  apply outcome_bind_inv in He as ([st u] & Hb%get_bo_ret & He). pose proof (gi_bos g1 Hinv1 bo _ Hb) as Hok. unfold bo_ok in Hok. cbn in Hok.
  cbn [bo_user] in He. destruct u as [d|]; [|done]. destruct Hok as [Hc Hfree Hmapped Honce].
  destruct (Z.eqb_spec (lock_count d) 0); [by simplify_eq|]. change (has (locked_for d) _) with (sw (locked_for d)) in He.
  apply outcome_bind_inv in He as (g2 & Hu & He). apply outcome_bind_inv in He as (b2 & Hb2%get_bo_ret & He).
  destruct (sw (locked_for d)) eqn:Hsw.
  - unfold gbm_unmap, get_bo in Hu. rewrite Hb in Hu. cbn [mbind outcome_bind bo_user bo_stride] in Hu. simplify_eq.
    cbn in Hb2. rewrite lookup_insert_eq in Hb2. simplify_eq. cbn [bo_user bo_stride map_data lock_count locked_for] in He. simplify_eq.
    rewrite set_bo_twice. assert (lock_count d = 1) as Hone by (apply Honce; intros H0; by rewrite H0 in Hmapped).
    rewrite Hone. eapply set_bo_inv; [done|done|apply data_ok_0].
  - simplify_eq. cbn [bo_user bo_stride] in He. simplify_eq.
    eapply set_bo_inv; [done|done|]. apply negb_false_iff, Z.eqb_eq in Hmapped. cbn. rewrite Hmapped.
    destruct (Z.eqb_spec (lock_count d - 1) 0) as [Hz|]; split; cbn; try (done || lia).
Qed.

Lemma gbm_free_inv g h g' : gbm_free g h = Ret g' -> gralloc_inv g -> gralloc_inv g'.
Proof.
  unfold gbm_free. intros He Hinv. destruct (gralloc_gbm_bo_from_handle g h) as [g1 bo] eqn:Hf.
  destruct (from_handle_inv _ _ _ _ Hf Hinv) as ([Hnull Hbos Hlive Hinj] & Hh & _). destruct (Z.eqb_spec bo 0); [by simplify_eq|].
  apply outcome_bind_inv in He as (b & Hb%get_bo_ret & He). simplify_eq. split; cbn.
  - by rewrite lookup_delete_ne.
  - intros bo1 b1 H1. apply lookup_delete_Some in H1 as [_ H1]. by eapply Hbos.
  - intros h1 bo1 H1 Hn. apply lookup_delete_Some in H1 as [Hne H1].
    rewrite lookup_delete_ne; [by eapply Hlive|]. intros ->. apply Hne. by eapply Hinj.
  - intros h1 h2 bo1 H1 H2 Hn. apply lookup_delete_Some in H1 as [_ H1]. apply lookup_delete_Some in H2 as [_ H2]. by eapply Hinj.
Qed.

(** A new buffer, under a handle that is not in the table or leads to NULL. *)
Lemma add_bo_inv g bo s hs :
  gralloc_inv g -> bos g !! bo = None -> bo <> 0 ->
  gralloc_inv (MkGralloc (gbm_bo_handle_map g) (<[bo := MkBo s None]> (bos g)) hs).
Proof.
  intros [Hnull Hbos Hlive Hinj] Hfresh Hn. split; cbn; [by rewrite lookup_insert_ne| | |done].
  - intros bo1 b1 H1. destruct (decide (bo1 = bo)) as [->|]; [rewrite lookup_insert_eq in H1; by simplify_eq|].
    rewrite lookup_insert_ne in H1 by done. by eapply Hbos.
  - intros h1 bo1 H1 Hn1. destruct (decide (bo1 = bo)) as [->|]; [by rewrite lookup_insert_eq|].
    rewrite lookup_insert_ne by done. by eapply Hlive.
Qed.

Lemma add_handle_inv g h bo :
  gralloc_inv g -> gbm_bo_handle_map g !! h = None -> is_Some (bos g !! bo) -> (forall h', gbm_bo_handle_map g !! h' <> Some bo) ->
  gralloc_inv (MkGralloc (<[h := bo]> (gbm_bo_handle_map g)) (bos g) (handles g)).
Proof.
  intros [Hnull Hbos Hlive Hinj] Hh Hbo Hnew. split; cbn; [done|done| |].
  - intros h1 bo1 H1 Hn. destruct (decide (h1 = h)) as [->|]; [rewrite lookup_insert_eq in H1; by simplify_eq|].
    rewrite lookup_insert_ne in H1 by done. by eapply Hlive.
  - intros h1 h2 bo1 H1 H2 Hn. destruct (decide (h1 = h)) as [->|], (decide (h2 = h)) as [->|]; [done| | |].
    + rewrite lookup_insert_eq in H1. rewrite lookup_insert_ne in H2 by done. simplify_eq. by apply Hnew in H2.
    + rewrite lookup_insert_eq in H2. rewrite lookup_insert_ne in H1 by done. simplify_eq. by apply Hnew in H1.
    + rewrite lookup_insert_ne in H1, H2 by done. by eapply Hinj.
Qed.

(** The addresses libgbm gives to new buffers are not NULL and not in use. *)
Definition fresh_bo (g : gralloc) (bo : Z) : Prop := bo <> 0 /\ bos g !! bo = None.

Lemma fresh_unmapped g bo h : gralloc_inv g -> fresh_bo g bo -> gbm_bo_handle_map g !! h <> Some bo.
Proof. intros Hinv [Hn Hf] Hh. destruct (gi_live g Hinv h bo Hh Hn) as [b Hb]. congruence. Qed.

Lemma register_inv ans g h g' err :
  gralloc_gbm_handle_register ans g h = Ret (g', err) -> gralloc_inv g ->
  (forall rq hd bo s, ans rq hd = Ret (Some (bo, s)) -> fresh_bo g bo) -> gralloc_inv g'.
Proof.
  unfold gralloc_gbm_handle_register. intros He Hinv Hans. destruct (h =? 0); [by simplify_eq|].
  destruct (decide _) as [|Hno]; [by simplify_eq|]. apply outcome_bind_inv in He as ([g1 bo] & Hi & He).
  unfold gbm_import in Hi. apply outcome_bind_inv in Hi as (hd & _ & Hi). destruct (gh_prime_fd hd <? 0); [simplify_eq; by cbn in He; simplify_eq|].
  apply outcome_bind_inv in Hi as (made & Hmade & Hi). destruct made as [[bo1 s]|]; [|simplify_eq; cbn in He; by simplify_eq]. simplify_eq.
  pose proof (Hans _ _ bo s Hmade) as Hfresh. destruct Hfresh as [Hn Hf]. destruct (Z.eqb_spec bo 0); [done|]. simplify_eq.
  apply (add_handle_inv (set_bo bo (MkBo s None) g)); cbn.
  - by apply add_bo_inv.
  - by apply eq_None_not_Some.
  - by rewrite lookup_insert_eq.
  - intros h'. by apply fresh_unmapped.
Qed.

Lemma create_inv new create g w hgt f u g' r s :
  gralloc_gbm_bo_create new create g w hgt f u = Ret (g', r, s) -> gralloc_inv g ->
  (forall rq c, create rq = Ret (Some c) -> fresh_bo g (cr_bo c)) -> gralloc_inv g'.
Proof.
  unfold gralloc_gbm_bo_create. intros He Hinv Hcr. destruct (new =? 0); [by simplify_eq|].
  set (g1 := MkGralloc (gbm_bo_handle_map g) (bos g) _) in He.
  assert (gralloc_inv g1) as Hinv1 by (destruct Hinv; by split).
  apply outcome_bind_inv in He as ([g2 bo] & Ha & He). unfold gbm_alloc in Ha. apply outcome_bind_inv in Ha as (hd & _ & Ha).
  apply outcome_bind_inv in Ha as ([c|] & Hc & Ha).
  2:{ simplify_eq. cbn in He. simplify_eq. destruct Hinv1. by split. }
  pose proof (Hcr _ _ Hc) as Hfresh. pose proof Hfresh as [Hn Hf]. simplify_eq. destruct (Z.eqb_spec (cr_bo c) 0); [done|].
  apply outcome_bind_inv in He as (h3 & _ & He). destruct (gralloc_gbm_get_bpp f =? 0); [done|].
  cbn [gbm_bo_handle_map bos handles g1] in He. injection He as <- <- _.
  set (hs := <[new := MkHandle _ _ _ _ _ _ _]> _). pose proof (add_bo_inv g (cr_bo c) (cr_stride c) hs Hinv Hf Hn) as Hinv3.
  destruct (gbm_bo_handle_map g !! new) as [old|] eqn:Hold; [done|].
  apply (add_handle_inv _ new (cr_bo c) Hinv3); cbn; [done|by rewrite lookup_insert_eq|].
  intros h'. by apply (fresh_unmapped g).
Qed.

(** ** Reachable states *)

(** A call of the module, with answers of libgbm that are possible. *)
Inductive gstep : gralloc -> gralloc -> Prop :=
| step_register g ans h g' err : (forall rq hd bo s, ans rq hd = Ret (Some (bo, s)) -> fresh_bo g bo) ->
    gralloc_gbm_handle_register ans g h = Ret (g', err) -> gstep g g'
| step_unregister g h g' err : gralloc_gbm_handle_unregister g h = Ret (g', err) -> gstep g g'
| step_create g new create w hgt f u g' r s : (forall rq c, create rq = Ret (Some c) -> fresh_bo g (cr_bo c)) ->
    gralloc_gbm_bo_create new create g w hgt f u = Ret (g', r, s) -> gstep g g'
| step_lock g ans h usage x y w ht g' addr err : mapping_ok ans -> gralloc_gbm_bo_lock ans g h usage x y w ht = Ret (g', addr, err) -> gstep g g'
| step_unlock g h g' err : gralloc_gbm_bo_unlock g h = Ret (g', err) -> gstep g g'
| step_handles g hs : gstep g (MkGralloc (gbm_bo_handle_map g) (bos g) hs).

Lemma gstep_inv g g' : gstep g g' -> gralloc_inv g -> gralloc_inv g'.
Proof.
  destruct 1 as [g ans h g' err Hf He|g h g' err He|g new create w hgt f u g' r s Hf He|g ans h usage x y w ht g' addr err Ha He|g h g' err He|g hs];
    intros Hinv.
  - by eapply register_inv.
  - unfold gralloc_gbm_handle_unregister in He. apply outcome_bind_inv in He as (g1 & Hg & He). simplify_eq. by eapply gbm_free_inv.
  - by eapply create_inv.
  - by eapply lock_inv.
  - by eapply unlock_inv.
  - destruct Hinv. by split.
Qed.

Lemma reach_inv g : rtc gstep (MkGralloc ∅ ∅ ∅) g -> gralloc_inv g.
Proof.
  assert (gralloc_inv (MkGralloc ∅ ∅ ∅)) as H0.
  { split; cbn; [done|intros ? ? H; by rewrite lookup_empty in H|intros ? ? H; by rewrite lookup_empty in H|intros ? ? ? H; by rewrite lookup_empty in H]. }
  revert H0. generalize (MkGralloc ∅ ∅ ∅). intros g0 H0 Hr. induction Hr as [|g0 g1 g2 Hs _ IH]; [done|]. by apply IH, (gstep_inv g0).
Qed.

(** Adding a usage to one that has it changes nothing. *)
Lemma lor_part u v : Z.land v u = u -> Z.lor v (Z.lor u v) = v.
Proof.
  intros <-. apply Z.bits_inj'. intros n _. rewrite !Z.lor_spec, Z.land_spec. by destruct (Z.testbit v n), (Z.testbit u n).
Qed.

(** The check of the usage of a buffer lets through what the buffer is for. *)
Lemma lock_checked ans g h bo hd usage x y w ht :
  gbm_bo_handle_map g !! h = Some bo -> bo <> 0 -> handles g !! h = Some hd -> Z.land (gh_usage hd) usage = u32 usage ->
  gralloc_gbm_bo_lock ans g h usage x y w ht = lock_counted ans g h bo hd usage x y w ht.
Proof.
  intros Hh Hn Hhd Hu. unfold gralloc_gbm_bo_lock, gralloc_gbm_bo_from_handle. rewrite Hh. destruct (Z.eqb_spec bo 0); [done|].
  unfold gralloc_handle. rewrite Hhd. cbn [mbind outcome_bind]. by rewrite Hu, Z.eqb_refl.
Qed.

Lemma set_bo_same g bo b : bos g !! bo = Some b -> set_bo bo b g = g.
Proof. intros Hb. destruct g; unfold set_bo; cbn in *. by rewrite insert_id. Qed.

(** A lock that a locked buffer does not allow is refused. *)
Lemma lock_incompatible ans g h bo hd st d usage x y w ht :
  gbm_bo_handle_map g !! h = Some bo -> bo <> 0 -> handles g !! h = Some hd -> bos g !! bo = Some (MkBo st (Some d)) ->
  lock_count d <> 0 -> Z.land (locked_for d) usage <> usage -> gralloc_gbm_bo_lock ans g h usage x y w ht = Ret (g, 0, - EINVAL).
Proof.
  intros Hh Hn Hhd Hb Hc Hu. unfold gralloc_gbm_bo_lock, gralloc_gbm_bo_from_handle. rewrite Hh. destruct (Z.eqb_spec bo 0); [done|].
  unfold gralloc_handle. rewrite Hhd. cbn [mbind outcome_bind]. destruct (_ && _); [done|].
  unfold lock_counted, get_bo. rewrite Hb. cbn [mbind outcome_bind bo_user bo_stride]. rewrite set_bo_same by done.
  by rewrite (proj2 (Z.eqb_neq _ _) Hc), (proj2 (Z.eqb_neq _ _) Hu).
Qed.

(** A further lock of a buffer that is not mapped is counted, and an unlock takes it back. *)
Lemma lock_shared ans g h bo hd st d usage x y w ht :
  gbm_bo_handle_map g !! h = Some bo -> bo <> 0 -> handles g !! h = Some hd -> bos g !! bo = Some (MkBo st (Some d)) -> data_ok d ->
  0 < lock_count d < LOCK_MAX -> map_data d = 0 -> Z.land (locked_for d) usage = usage -> Z.land (gh_usage hd) usage = u32 usage ->
  let g' := set_bo bo (MkBo st (Some (MkBoData 0 (lock_count d + 1) (locked_for d)))) g in
  gralloc_gbm_bo_lock ans g h usage x y w ht = Ret (g', 0, 0) /\ gralloc_gbm_bo_unlock g' h = Ret (g, 0).
Proof.
  intros Hh Hn Hhd Hb [_ _ Hmapped _] Hc Hm Hu Hcheck g'. rewrite Hm in Hmapped. cbn in Hmapped. symmetry in Hmapped. unfold sw in Hmapped. split.
  - rewrite (lock_checked _ _ _ bo hd) by done. unfold lock_counted, get_bo. rewrite Hb. cbn [mbind outcome_bind bo_user bo_stride].
    rewrite set_bo_same, Hu, Z.eqb_refl by done. cbn [negb]. rewrite andb_false_r.
    destruct (if (w =? 0) && (ht =? 0) then _ else _) as [w1 h1]. rewrite has_lor, Hmapped, (has_part usage _ _ Hu Hmapped). cbn [orb mbind outcome_bind Z.eqb negb].
    rewrite Hb. cbn [mbind outcome_bind bo_user bo_stride]. destruct (Z.eqb_spec (lock_count d) LOCK_MAX); [lia|]. by rewrite lor_part, Hm.
  - unfold gralloc_gbm_bo_unlock, gralloc_gbm_bo_from_handle. cbn [gbm_bo_handle_map g' set_bo]. rewrite Hh. destruct (Z.eqb_spec bo 0); [done|].
    assert (bos g' !! bo = Some (MkBo st (Some (MkBoData 0 (lock_count d + 1) (locked_for d))))) as Hb' by (unfold g'; cbn; by rewrite lookup_insert_eq).
    unfold get_bo. rewrite Hb'. cbn [mbind outcome_bind bo_user bo_stride lock_count locked_for map_data].
    destruct (Z.eqb_spec (lock_count d + 1) 0); [lia|]. rewrite Hmapped. cbn [mbind outcome_bind]. rewrite Hb'.
    cbn [mbind outcome_bind bo_user bo_stride map_data lock_count locked_for]. rewrite Z.add_simpl_r. destruct (Z.eqb_spec (lock_count d) 0); [lia|].
    unfold g'. rewrite set_bo_twice, set_bo_same; [done|]. rewrite Hb. destruct d; cbn in *. by rewrite Hm.
Qed.

(** C38: The locks of a buffer are consistent.  In every state the calls of the
    module can reach, a buffer in the table exists and has one handle; it is
    mapped exactly when it is locked for reading or writing by the processor,
    and without locks it is not mapped and locked for nothing.  A further lock for a usage
    that the present locks do not include is refused and changes nothing; one that they
    include and the buffer is for, of a buffer that is locked but not for the
    processor and fewer than 2^31 - 1 times, is counted, and an unlock takes it back. *)
Theorem locks_consistent g h bo hd :
  rtc gstep (MkGralloc ∅ ∅ ∅) g -> gbm_bo_handle_map g !! h = Some bo -> bo <> 0 -> handles g !! h = Some hd ->
  exists b, bos g !! bo = Some b /\ (forall h', gbm_bo_handle_map g !! h' = Some bo -> h' = h)
    /\ forall d, bo_user b = Some d ->
       negb (map_data d =? 0) = has (locked_for d) (Z.lor SW_WRITE_MASK SW_READ_MASK)
       /\ (lock_count d = 0 -> locked_for d = 0 /\ map_data d = 0)
       /\ forall ans usage x y w ht, lock_count d <> 0 ->
            (Z.land (locked_for d) usage <> usage -> gralloc_gbm_bo_lock ans g h usage x y w ht = Ret (g, 0, - EINVAL))
            /\ (Z.land (locked_for d) usage = usage -> map_data d = 0 -> Z.land (gh_usage hd) usage = u32 usage -> lock_count d < LOCK_MAX ->
                let g' := set_bo bo (MkBo (bo_stride b) (Some (MkBoData 0 (lock_count d + 1) (locked_for d)))) g in
                gralloc_gbm_bo_lock ans g h usage x y w ht = Ret (g', 0, 0) /\ gralloc_gbm_bo_unlock g' h = Ret (g, 0)).
Proof.
  intros Hreach Hh Hn Hhd. pose proof (reach_inv g Hreach) as Hinv. destruct (gi_live g Hinv h bo Hh Hn) as [[st u] Hb].
  exists (MkBo st u). split; [done|]. split; [intros h' Hh'; by eapply gi_inj|]. intros d Hd. cbn in Hd. subst u.
  pose proof (gi_bos g Hinv bo _ Hb) as Hok. pose proof Hok as [Hc Hfree Hmapped Honce]. split; [done|]. split.
  - intros H0. split; [by apply Hfree|]. rewrite (Hfree H0) in Hmapped. cbn in Hmapped. by apply negb_false_iff, Z.eqb_eq in Hmapped.
  - intros ans usage x y w ht H0. cbn in Hc. split; [by apply (lock_incompatible ans g h bo hd st d)|]. intros. apply (lock_shared ans g h bo hd st d); try done. cbn in *. lia.
Qed.

(** A lock of the processor is not shared: while a buffer is mapped it has one lock,
    and every further lock, for whatever usage, is refused. *)
Theorem software_lock_exclusive g h bo hd st d :
  rtc gstep (MkGralloc ∅ ∅ ∅) g -> gbm_bo_handle_map g !! h = Some bo -> bo <> 0 -> handles g !! h = Some hd ->
  bos g !! bo = Some (MkBo st (Some d)) -> map_data d <> 0 ->
  lock_count d = 1 /\ forall ans usage x y w ht, gralloc_gbm_bo_lock ans g h usage x y w ht = Ret (g, 0, - EINVAL).
Proof.
  intros Hreach Hh Hn Hhd Hb Hm. pose proof (reach_inv g Hreach) as Hinv.
  pose proof (gi_bos g Hinv bo _ Hb) as [Hc Hfree Hmapped Honce]. cbn in *. split; [by apply Honce|].
  intros ans usage x y w ht. unfold gralloc_gbm_bo_lock, gralloc_gbm_bo_from_handle. rewrite Hh. destruct (Z.eqb_spec bo 0); [done|].
  unfold gralloc_handle. rewrite Hhd. cbn [mbind outcome_bind]. destruct (_ && _); [done|].
  unfold lock_counted, get_bo. rewrite Hb. cbn [mbind outcome_bind bo_user bo_stride]. rewrite set_bo_same by done.
  destruct (_ && _); [done|]. destruct (if (w =? 0) && (ht =? 0) then _ else _) as [w1 h1]. rewrite (has_lor usage (locked_for d) (Z.lor _ _)).
  change (has (locked_for d) (Z.lor SW_WRITE_MASK SW_READ_MASK)) with (sw (locked_for d)). rewrite <- Hmapped.
  destruct (Z.eqb_spec (map_data d) 0); [done|]. cbn [negb]. rewrite orb_true_r.
  unfold gbm_map, gralloc_gbm_bo_from_handle, get_bo. rewrite Hh, Hb. cbn [mbind outcome_bind bo_user].
  destruct (Z.eqb_spec (map_data d) 0); [done|]. done.
Qed.

(** Asking for a handle that is not registered spoils it.  [operator[]] of the
    table adds an entry that is NULL, so after a lock, an unlock or an
    unregistration of an unknown handle, its registration is refused, whatever
    libgbm answers; and unregistering does not help. *)
Theorem unknown_handle_spoiled g h :
  gbm_bo_handle_map g !! h = None ->
  exists g', (forall ans usage x y w ht, gralloc_gbm_bo_lock ans g h usage x y w ht = Ret (g', 0, - EINVAL))
    /\ gralloc_gbm_bo_unlock g h = Ret (g', - EINVAL) /\ gralloc_gbm_handle_unregister g h = Ret (g', 0)
    /\ gralloc_gbm_handle_unregister g' h = Ret (g', 0)
    /\ forall ans, gralloc_gbm_handle_register ans g' h = Ret (g', - EINVAL).
Proof.
  intros Hh. exists (MkGralloc (<[h := 0]> (gbm_bo_handle_map g)) (bos g) (handles g)).
  unfold gralloc_gbm_bo_lock, gralloc_gbm_bo_unlock, gralloc_gbm_handle_unregister, gbm_free, gralloc_gbm_bo_from_handle. rewrite Hh.
  cbn [gbm_bo_handle_map Z.eqb mbind outcome_bind]. rewrite lookup_insert_eq. split_and!; [done|done|done|done|].
  intros ans. unfold gralloc_gbm_handle_register. destruct (h =? 0); [done|]. rewrite decide_True; [done|].
  cbn. rewrite lookup_insert_eq. by eexists.
Qed.

(** ** Planes *)

Lemma align16 v : 0 <= v -> GRALLOC_ALIGN v 16 = 16 * ((v + 15) / 16).
Proof.
  intros Hv. unfold GRALLOC_ALIGN. change (16 - 1) with (Z.ones 4). rewrite <- Z.ldiff_land, Z.ldiff_ones_r by lia.
  rewrite Z.shiftr_div_pow2, Z.shiftl_mul_pow2 by lia. change (2 ^ 4) with 16. change (Z.ones 4) with 15. lia.
Qed.

(** The planes of a YV12 buffer fit.  Its width a multiple of 32, its height
    even and its area below 2^30, the three planes lie one behind the other, do not
    overlap, and end exactly where the buffer asked of libgbm ends when its stride
    is the width: that buffer has half the width in 16-bit pixels and one and a
    half times the height. *)
Theorem yv12_planes_fit h p :
  gh_format h = YV12 -> YV12 <> YCrCb_420_SP -> 0 < gh_width h -> gh_width h mod 32 = 0 -> 0 < gh_height h -> gh_height h mod 2 = 0 ->
  gh_width h * gh_height h < 2 ^ 30 ->
  has (get_pipe_bind (gh_usage h)) GBM_BO_USE_CURSOR = false -> planes h = Some p ->
  yc_y p + yc_ystride p * gh_height h = yc_cr p /\ yc_cr p + yc_cstride p * (gh_height h / 2) = yc_cb p
  /\ yc_cb p + yc_cstride p * (gh_height h / 2) = 2 * rq_width (alloc_request h) * rq_height (alloc_request h)
  /\ yc_cstride p * 2 = yc_ystride p.
Proof.
  intros Hf Hd Hw Hw32 Hh Hh2 Harea Hcur Hp. unfold planes in Hp. unfold alloc_request. rewrite Hcur. cbn [andb].
  rewrite Hf in *. destruct (Z.eqb_spec YV12 YCrCb_420_SP); [done|]. rewrite Z.eqb_refl in *. simplify_eq.
  cbn [yc_y yc_cb yc_cr yc_ystride yc_cstride rq_width rq_height].
  apply Z.mod_divide in Hw32 as [q Hq]; [|done]. apply Z.mod_divide in Hh2 as [k Hk]; [|done].
  rewrite Hq, Hk in *. assert (64 * (q * k) < 2 ^ 30) by lia. assert (0 < q /\ 0 < k) as [Hq0 Hk0] by lia.
  assert (q <= q * k /\ k <= q * k) as [? ?] by nia.
  rewrite !s32_small, Z.quot_div_nonneg by lia. replace (q * 32) with (q * 16 * 2) by lia. rewrite !Z.div_mul by done.
  rewrite align16 by lia. replace ((q * 16 + 15) / 16) with q by (Z.to_euclidean_division_equations; lia).
  rewrite !u32_small by nia.
  replace (16 * q * (k * 2)) with (16 * q * k * 2) by lia. rewrite !Z.div_mul by done. rewrite (s32_small (k * 2)), s32_small by lia. lia.
Qed.

(** ** The device *)

(** The allocator does not survive being closed.  Closing it destroys the device
    but keeps the pointer, so opening it again succeeds without a new device, and
    the next allocation uses the one that is gone. *)
Theorem closed_device_reused m m' err :
  gbm_mod_close_gpu0 m = Ret (m', err) -> mod_gbm m <> 0 ->
  err = 0 /\ (forall gpu0 fd device, gbm_mod_open gpu0 gpu0 fd device m' = (m', 0))
  /\ forall new create errno w h f u, new <> 0 -> gbm_mod_alloc_gpu0 new create errno m' w h f u = Fault.
Proof.
  unfold gbm_mod_close_gpu0, gbm_dev_destroy. intros Hc Hn. destruct (decide _) as [Hin|]; [|done].
  cbn [mbind outcome_bind] in Hc. simplify_eq. split_and!; [done| |].
  - intros gpu0 fd device. unfold gbm_mod_open, gbm_mod_open_gpu0, gbm_init. rewrite bool_decide_eq_true_2 by done. cbn [mod_gbm].
    by destruct (Z.eqb_spec (mod_gbm m) 0).
  - intros new create errno w h f u Hnew. unfold gbm_mod_alloc_gpu0, gralloc_gbm_bo_create, gbm_alloc, gralloc_handle, on_device.
    destruct (Z.eqb_spec new 0); [done|]. cbn [handles mod_bufs mod_gbm mod_devices]. rewrite lookup_insert_eq. cbn [mbind outcome_bind].
    rewrite decide_False by set_solver. done.
Qed.

End claims.

(** ** Runs with Android's numbers *)

Definition android_headers : GrallocHeaders :=
  {| RGBA_8888 := 1; RGBX_8888 := 2; RGB_888 := 3; RGB_565 := 4; BGRA_8888 := 5; YV12 := 842094169;
     YCbCr_422_SP := 16; YCrCb_420_SP := 17; YCbCr_422_I := 20;
     GBM_FORMAT_ABGR8888 := 875708993; GBM_FORMAT_XBGR8888 := 875709016; GBM_FORMAT_RGB888 := 875710290;
     GBM_FORMAT_RGB565 := 909199186; GBM_FORMAT_ARGB8888 := 875713089; GBM_FORMAT_GR88 := 943215175;
     SW_READ_OFTEN := 3; SW_WRITE_OFTEN := 48; SW_READ_MASK := 15; SW_WRITE_MASK := 240;
     HW_RENDER := 512; HW_TEXTURE := 256; HW_FB := 4096; HW_COMPOSER := 2048;
     GBM_BO_USE_LINEAR := 16; GBM_BO_USE_RENDERING := 4; GBM_BO_USE_SCANOUT := 1; GBM_BO_USE_CURSOR := 2 |}.

Definition empty_gralloc : gralloc := MkGralloc ∅ ∅ ∅.

(** libgbm gives a buffer at 700 with 256 bytes per line, and maps it at 4096. *)
Definition demo_create (_ : bo_request) : outcome (option created) := Ret (Some (MkCreated 700 5 256 0)).
Definition demo_mapping : mapping := fun _ => Some (4096, 256, 9).

Definition demo_handle : gralloc_handle_t := MkHandle 64 32 1 307 256 5 0.

(** The state after a buffer of 64x32 was created under handle 50, and locked. *)
Definition demo_created : gralloc :=
  MkGralloc {[ 50 := 700 ]} {[ 700 := MkBo 256 None ]} {[ 50 := demo_handle ]}.
Definition demo_locked : gralloc :=
  MkGralloc {[ 50 := 700 ]} {[ 700 := MkBo 256 (Some (MkBoData 9 1 51)) ]} {[ 50 := demo_handle ]}.

Lemma demo_create_run : @gralloc_gbm_bo_create android_headers 50 demo_create empty_gralloc 64 32 1 307 = Ret (demo_created, 50, 64).
Proof. vm_compute. reflexivity. Qed.

Lemma demo_lock_run : @gralloc_gbm_bo_lock android_headers demo_mapping demo_created 50 51 0 0 0 0 = Ret (demo_locked, 4096, 0).
Proof. vm_compute. reflexivity. Qed.

Lemma demo_reach : rtc (@gstep android_headers) empty_gralloc demo_locked.
Proof.
  eapply rtc_l; [eapply step_create, demo_create_run|].
  { intros rq c Hc. unfold demo_create in Hc. simplify_eq. by split. }
  eapply rtc_l; [eapply step_lock, demo_lock_run|apply rtc_refl].
  intros rq addr stride data Hm. unfold demo_mapping in Hm. by simplify_eq.
Qed.

(** Locked for the graphics processor, and a second time. *)
Definition demo_hw_locked (n : Z) : gralloc :=
  MkGralloc {[ 50 := 700 ]} {[ 700 := MkBo 256 (Some (MkBoData 0 n 256)) ]} {[ 50 := demo_handle ]}.

Lemma demo_hw_reach : rtc (@gstep android_headers) empty_gralloc (demo_hw_locked 1).
Proof.
  eapply rtc_l; [eapply step_create, demo_create_run|].
  { intros rq c Hc. unfold demo_create in Hc. simplify_eq. by split. }
  eapply rtc_l; [eapply (step_lock _ demo_mapping 50 256 0 0 0 0 _ 0 0); [|vm_compute; reflexivity]|apply rtc_refl].
  intros rq addr stride data Hm. unfold demo_mapping in Hm. by simplify_eq.
Qed.

Lemma locks_consistent_witness :
  @gralloc_gbm_bo_lock android_headers demo_mapping (demo_hw_locked 1) 50 256 0 0 0 0 = Ret (demo_hw_locked 2, 0, 0)
  /\ @gralloc_gbm_bo_unlock android_headers (demo_hw_locked 2) 50 = Ret (demo_hw_locked 1, 0)
  /\ @gralloc_gbm_bo_lock android_headers demo_mapping (demo_hw_locked 1) 50 51 0 0 0 0 = Ret (demo_hw_locked 1, 0, - EINVAL).
Proof.
  destruct (@locks_consistent android_headers (demo_hw_locked 1) 50 700 demo_handle demo_hw_reach eq_refl ltac:(discriminate) eq_refl) as (b & Hb & _ & Hd).
  injection Hb as <-. destruct (Hd _ eq_refl) as (_ & _ & Hlock).
  destruct (Hlock demo_mapping 256 0 0 0 0 ltac:(discriminate)) as [_ Hshared].
  destruct (Hshared eq_refl eq_refl eq_refl eq_refl) as [H1 H2]. split; [exact H1|]. split; [exact H2|].
  apply (Hlock demo_mapping 51 0 0 0 0 ltac:(discriminate)). discriminate.
Defined.

Lemma unknown_handle_spoiled_witness :
  exists g', (forall ans usage x y w ht, @gralloc_gbm_bo_lock android_headers ans demo_locked 51 usage x y w ht = Ret (g', 0, - EINVAL))
    /\ @gralloc_gbm_bo_unlock android_headers demo_locked 51 = Ret (g', - EINVAL) /\ gralloc_gbm_handle_unregister demo_locked 51 = Ret (g', 0)
    /\ gralloc_gbm_handle_unregister g' 51 = Ret (g', 0)
    /\ forall ans, @gralloc_gbm_handle_register android_headers ans g' 51 = Ret (g', - EINVAL).
Proof. exact (@unknown_handle_spoiled android_headers demo_locked 51 eq_refl). Defined.

(** A YV12 buffer of 640x480. *)
Definition demo_yv12 : gralloc_handle_t := MkHandle 640 480 842094169 51 640 5 0.
Definition demo_planes : android_ycbcr := MkYcbcr 0 384000 307200 640 320 1.

Lemma yv12_planes_fit_witness :
  yc_y demo_planes + 640 * 480 = yc_cr demo_planes /\ yc_cr demo_planes + 320 * 240 = yc_cb demo_planes
  /\ yc_cb demo_planes + 320 * 240 = 2 * rq_width (@alloc_request android_headers demo_yv12) * rq_height (@alloc_request android_headers demo_yv12)
  /\ 320 * 2 = yc_ystride demo_planes.
Proof.
  exact (@yv12_planes_fit android_headers demo_yv12 demo_planes eq_refl ltac:(discriminate) eq_refl eq_refl eq_refl eq_refl eq_refl eq_refl eq_refl).
Defined.

(** One pixel line less divisible and the planes run past the buffer: 48 pixels
    wide, a line of chroma takes 32 bytes instead of 24. *)
Definition narrow_yv12 : gralloc_handle_t := MkHandle 48 32 842094169 51 48 5 0.

Example narrow_yv12_runs_over :
  @planes android_headers narrow_yv12 = Some (MkYcbcr 0 2048 1536 48 32 1)
  /\ 2048 + 32 * 16 = 2560 /\ 2 * rq_width (@alloc_request android_headers narrow_yv12) * rq_height (@alloc_request android_headers narrow_yv12) = 2304.
Proof. vm_compute. done. Qed.

(** Unlocking a buffer that was never locked reads user data that is not there. *)
Example unlock_unlocked_faults : @gralloc_gbm_bo_unlock android_headers demo_created 50 = Fault.
Proof. vm_compute. reflexivity. Qed.

(** Creating a buffer in a format without a size in bytes divides by zero. *)
Example create_implementation_defined : @gralloc_gbm_bo_create android_headers 50 demo_create empty_gralloc 64 32 34 307 = Fault.
Proof. vm_compute. reflexivity. Qed.
