(* ===== verification/QmiTlv.v ===== *)
(** * The TLV builder of rmtfs (src/qcom/rmtfs/qmi_tlv.c)

    QMI messages put together item by item, and items looked up in a message
    received.  A message is the list of its bytes; a pointer into it is an offset.
    Bytes that [malloc] and [realloc] leave uninitialised have the value [junk]. *)

From Stdlib Require Import ZArith Lia.
From stdpp Require Import base list numbers sets.
From S2P Require Import Prelude.

(** ** State *)

(** [sizeof (struct qmi_packet)], packed: flags, transaction, message and length. *)
Definition sizeof_qmi_packet : Z := 7.

(** [sizeof (struct qmi_tlv_item)], packed: key and length. *)
Definition sizeof_qmi_tlv_item : Z := 3.

(** [struct qmi_tlv]: [tlv_allocated] tells whether the buffer is the builder's
    own ([allocated] is then [buf], and NULL otherwise). *)
Record qmi_tlv : Type := MkTlv { tlv_allocated : bool; tlv_buf : list Z; tlv_size : Z; tlv_error : Z }.

Definition qmi_packet_bytes (flags txn_id msg_id msg_len : Z) : list Z :=
  le_bytes 1 flags ++ le_bytes 2 txn_id ++ le_bytes 2 msg_id ++ le_bytes 2 msg_len.

(** ** Messages *)

(** [mem_tlv] and [mem_buf] tell whether the allocations succeed. *)
Definition qmi_tlv_init (mem_tlv mem_buf : bool) (txn msg_id msg_type : Z) : outcome qmi_tlv :=
  if mem_tlv && mem_buf
  then Ret (MkTlv true (qmi_packet_bytes msg_type txn msg_id 0) sizeof_qmi_packet 0)
  else Fault.

(** The transaction is read when it is asked for. *)
Definition qmi_tlv_decode (mem : bool) (buf : list Z) (len : Z) (want_txn : bool) (msg_type : Z) : outcome (option (qmi_tlv * option Z)) :=
  flags ← load buf 0 1;
  if negb (le_val flags =? msg_type) then Ret None
  else if negb mem then Fault
  else if want_txn then txn_id ← load buf 1 2; Ret (Some (MkTlv false buf len 0, Some (le_val txn_id)))
  else Ret (Some (MkTlv false buf len 0, None)).

(** The message and its length; the length field is written into the buffer. *)
Definition qmi_tlv_encode (tlv : option qmi_tlv) : outcome (option (qmi_tlv * list Z * Z)) :=
  match tlv with
  | None => Ret None
  | Some t =>
      if negb (tlv_error t =? 0) then Ret None
      else
        buf ← store (tlv_buf t) 5 (le_bytes 2 (tlv_size t - sizeof_qmi_packet));
        Ret (Some (MkTlv (tlv_allocated t) buf (tlv_size t) (tlv_error t), buf, tlv_size t))
  end.

(** ** Looking items up *)

(** The loop of [qmi_tlv_get_item]; the result is the offset of the item in the
    buffer. *)
Fixpoint get_item_loop (fuel : nat) (t : qmi_tlv) (id offset : Z) : outcome (option Z) :=
  match fuel with
  | O => OutOfFuel
  | S fuel' =>
      if offset <? tlv_size t then
        key ← load (tlv_buf t) (sizeof_qmi_packet + offset) 1;
        if le_val key =? id then Ret (Some (sizeof_qmi_packet + offset))
        else
          len ← load (tlv_buf t) (sizeof_qmi_packet + offset + 1) 2;
          get_item_loop fuel' t id (u32 (offset + sizeof_qmi_tlv_item + le_val len))
      else Ret None
  end.

Definition qmi_tlv_get_item (t : qmi_tlv) (id : Z) : outcome (option Z) :=
  get_item_loop (S (Z.to_nat (tlv_size t))) t id 0.

(** The offset of the data of an item and its length. *)
Definition qmi_tlv_get (t : qmi_tlv) (id : Z) : outcome (option (Z * Z)) :=
  item ← qmi_tlv_get_item t id;
  match item with
  | None => Ret None
  | Some i => len ← load (tlv_buf t) (i + 1) 2; Ret (Some (i + sizeof_qmi_tlv_item, le_val len))
  end.

(** The offset of the elements, their number and their size.  Behind the count
    the pointer advances by one, whatever the width of the count; for other widths
    the count is not initialised ([junk]). *)
Definition qmi_tlv_get_array (junk : Z) (t : qmi_tlv) (id len_size : Z) : outcome (option (Z * Z * Z)) :=
  item ← qmi_tlv_get_item t id;
  match item with
  | None => Ret None
  | Some i =>
      let ptr := i + sizeof_qmi_tlv_item in
      '(ptr, count) ←
        (if (len_size =? 4) || (len_size =? 2) || (len_size =? 1)
         then c ← load (tlv_buf t) ptr len_size; Ret (ptr + 1, le_val c)
         else Ret (ptr, junk));
      len ← load (tlv_buf t) (i + 1) 2;
      if count =? 0 then Fault
      else Ret (Some (ptr, count, u32 (le_val len - len_size) / count))
  end.

(** ** Adding items *)

(** The new buffer and the offset of the item, [None] when there is no memory.
    The bytes of a buffer that is not the builder's own are copied, those of its
    own are kept by [realloc]. *)
Definition qmi_tlv_alloc_item (mem : bool) (junk : Z) (t : qmi_tlv) (id len : Z) : outcome (option (qmi_tlv * Z)) :=
  if negb mem then Ret None
  else
    old ← load (tlv_buf t) 0 (tlv_size t);
    let new_size := tlv_size t + sizeof_qmi_tlv_item + len in
    let newp := old ++ replicate (Z.to_nat (sizeof_qmi_tlv_item + len)) junk in
    newp ← store newp (tlv_size t) (le_bytes 1 id ++ le_bytes 2 len);
    Ret (Some (MkTlv true newp new_size (tlv_error t), tlv_size t)).

Definition qmi_tlv_set (mem : bool) (junk : Z) (tlv : option qmi_tlv) (id : Z) (buf : list Z) (len : Z) : outcome (option qmi_tlv * Z) :=
  match tlv with
  | None => Ret (None, - EINVAL)
  | Some t =>
      item ← qmi_tlv_alloc_item mem junk t id len;
      match item with
      | None => Ret (Some (MkTlv (tlv_allocated t) (tlv_buf t) (tlv_size t) ENOMEM), - ENOMEM)
      | Some (t, i) =>
          src ← load buf 0 len;
          b ← store (tlv_buf t) (i + sizeof_qmi_tlv_item) src;
          Ret (Some (MkTlv (tlv_allocated t) b (tlv_size t) (tlv_error t)), 0)
      end
  end.

Definition qmi_tlv_set_array (mem : bool) (junk : Z) (tlv : option qmi_tlv) (id len_size : Z) (buf : list Z) (len size : Z)
    : outcome (option qmi_tlv * Z) :=
  match tlv with
  | None => Ret (None, - EINVAL)
  | Some t =>
      let array_size := u64 (len * size) in
      item ← qmi_tlv_alloc_item mem junk t id (u64 (len_size + array_size));
      match item with
      | None => Ret (Some (MkTlv (tlv_allocated t) (tlv_buf t) (tlv_size t) ENOMEM), - ENOMEM)
      | Some (t, i) =>
          let ptr := i + sizeof_qmi_tlv_item in
          '(b, ptr) ←
            (if (len_size =? 4) || (len_size =? 2) || (len_size =? 1)
             then b ← store (tlv_buf t) ptr (le_bytes (Z.to_nat len_size) len); Ret (b, ptr + 1)
             else Ret (tlv_buf t, ptr));
          src ← load buf 0 array_size;
          b ← store b ptr src;
          Ret (Some (MkTlv (tlv_allocated t) b (tlv_size t) (tlv_error t)), 0)
      end
  end.

(** ** What a message holds *)

(** Items in the order they were added, and their bytes. *)
Definition item_bytes (it : Z * list Z) : list Z := le_bytes 1 it.1 ++ le_bytes 2 (Z.of_nat (length it.2)) ++ it.2.
Definition items_bytes (its : list (Z * list Z)) : list Z := its ≫= item_bytes.

Definition item_wf (it : Z * list Z) : Prop := 0 <= it.1 < 256 /\ Z.of_nat (length it.2) < 65536.

(** The builder holds a message with a header of seven bytes and these items. *)
Record holds (t : qmi_tlv) (hdr : list Z) (its : list (Z * list Z)) : Prop := MkHolds
  { h_hdr : length hdr = 7%nat;
    h_buf : tlv_buf t = hdr ++ items_bytes its;
    h_size : tlv_size t = Z.of_nat (length (tlv_buf t));
    h_error : tlv_error t = 0 }.

Lemma length_item it : length (item_bytes it) = (3 + length it.2)%nat.
Proof. unfold item_bytes. by rewrite !length_app, !length_le_bytes. Qed.

Lemma items_app its its' : items_bytes (its ++ its') = items_bytes its ++ items_bytes its'.
Proof. apply bind_app. Qed.

(** [qmi_tlv_set] adds an item behind the others. *)
Lemma set_holds junk t hdr its id data :
  holds t hdr its ->
  exists t', qmi_tlv_set true junk (Some t) id data (Z.of_nat (length data)) = Ret (Some t', 0)
    /\ holds t' hdr (its ++ [(id, data)]).
Proof.
  intros [Hh Hb Hs He]. unfold qmi_tlv_set, qmi_tlv_alloc_item. cbn [negb].
  assert (load (tlv_buf t) 0 (tlv_size t) = Ret (tlv_buf t)) as Hall by (rewrite load_ret, drop_0, Hs, Nat2Z.id, firstn_all by lia; done).
  rewrite Hall. cbn [mbind outcome_bind]. cbv zeta. rewrite Hs.
  replace (Z.to_nat (sizeof_qmi_tlv_item + Z.of_nat (length data))) with (3 + length data)%nat by (unfold sizeof_qmi_tlv_item; lia).
  rewrite replicate_add. rewrite store_mid; [|done|by rewrite length_app, !length_le_bytes, length_replicate].
  cbn [mbind outcome_bind tlv_buf tlv_size tlv_error tlv_allocated].
  pose proof (load_mid [] data [] 0 (Z.of_nat (length data)) eq_refl eq_refl) as Hl. cbn [app] in Hl. rewrite app_nil_r in Hl. rewrite Hl.
  cbn [mbind outcome_bind]. rewrite <- (app_nil_r (replicate (length data) junk)), app_assoc.
  rewrite store_mid; [|rewrite !length_app, !length_le_bytes; unfold sizeof_qmi_tlv_item; lia|by rewrite length_replicate].
  cbn [mbind outcome_bind]. eexists. split; [done|]. split; cbn [tlv_buf tlv_size tlv_error]; [done| | |done].
  - rewrite app_nil_r, items_app, Hb. unfold items_bytes at 2. cbn. unfold item_bytes. cbn [fst snd]. by rewrite app_nil_r, <- !app_assoc.
  - rewrite !length_app, !length_le_bytes. unfold sizeof_qmi_tlv_item. cbn [length]. lia.
Qed.

(** ** Walking over items *)

Section walk.
Context (t : qmi_tlv) (hdr : list Z) (its : list (Z * list Z)) (id : Z).
Hypothesis (Hholds : holds t hdr its) (Hwf : Forall item_wf its) (Hsize : tlv_size t < 4294967296).

Definition at_items (pre : list (Z * list Z)) : Z := Z.of_nat (length (items_bytes pre)).

(** The fields of the item behind [pre]. *)
Lemma load_item pre k d post :
  its = pre ++ (k, d) :: post ->
  load (tlv_buf t) (sizeof_qmi_packet + at_items pre) 1 = Ret (le_bytes 1 k)
  /\ load (tlv_buf t) (sizeof_qmi_packet + at_items pre + 1) 2 = Ret (le_bytes 2 (Z.of_nat (length d)))
  /\ load (tlv_buf t) (sizeof_qmi_packet + at_items pre + sizeof_qmi_tlv_item) (Z.of_nat (length d)) = Ret d
  /\ sizeof_qmi_packet + at_items pre + sizeof_qmi_tlv_item + Z.of_nat (length d) <= tlv_size t.
Proof.
  intros Hi. destruct Hholds as [Hh Hb Hs _].
  assert (tlv_buf t = (hdr ++ items_bytes pre) ++ le_bytes 1 k ++ le_bytes 2 (Z.of_nat (length d)) ++ d ++ items_bytes post) as Hbuf.
  { rewrite Hb, Hi, items_app. unfold items_bytes at 2. cbn [mbind list_bind]. fold (items_bytes post). unfold item_bytes. cbn [fst snd].
    by rewrite <- !app_assoc. }
  assert (sizeof_qmi_packet + at_items pre = Z.of_nat (length (hdr ++ items_bytes pre))) as Hoff.
  { rewrite length_app, Hh. unfold sizeof_qmi_packet, at_items. lia. }
  unfold sizeof_qmi_tlv_item. rewrite Hs, Hoff. split_and!.
  - rewrite Hbuf. apply load_mid; [done|by rewrite length_le_bytes].
  - rewrite Hbuf, app_assoc. apply load_mid; [rewrite (length_app _ (le_bytes _ _)), length_le_bytes; lia|by rewrite length_le_bytes].
  - rewrite Hbuf, !app_assoc, <- app_assoc. apply load_mid; [|done]. rewrite (length_app (_ ++ le_bytes 1 k)), (length_app _ (le_bytes 1 k)), !length_le_bytes. lia.
  - rewrite Hbuf, (length_app (hdr ++ _)), !length_app, !length_le_bytes. lia.
Qed.

Lemma at_items_snoc pre k d : at_items (pre ++ [(k, d)]) = at_items pre + sizeof_qmi_tlv_item + Z.of_nat (length d).
Proof.
  unfold at_items. rewrite items_app, length_app. unfold items_bytes at 2. cbn [mbind list_bind]. rewrite app_nil_r, length_item.
  unfold sizeof_qmi_tlv_item. cbn. lia.
Qed.

(** The loop from behind [pre]: it finds the first item with the key, and without
    one it reads behind the end of the buffer. *)
Lemma get_item_loop_walk : forall post pre fuel,
  its = pre ++ post -> (length post < fuel)%nat ->
  (forall p1 d p2, post = p1 ++ (id, d) :: p2 -> id ∉ p1.*1 ->
     get_item_loop fuel t id (at_items pre) = Ret (Some (sizeof_qmi_packet + at_items (pre ++ p1))))
  /\ (id ∉ post.*1 -> get_item_loop fuel t id (at_items pre) = Fault).
Proof.
  destruct Hholds as [Hh Hb Hs _].
  induction post as [|[k d] post IH]; intros pre fuel Hi Hf; (destruct fuel as [|fuel]; [cbn in Hf; lia|]); cbn [get_item_loop].
  - rewrite app_nil_r in Hi. split; [intros p1 d p2 Hp; by destruct p1|]. intros _.
    assert (tlv_size t = 7 + at_items pre) as Ht by (rewrite Hs, Hb, Hi, length_app, Hh; unfold at_items; lia).
    destruct (Z.ltb_spec (at_items pre) (tlv_size t)); [|lia].
    unfold load, sizeof_qmi_packet. rewrite <- Hs, Ht. destruct (Z.leb_spec (7 + at_items pre + 1) (7 + at_items pre)); [lia|].
    by rewrite andb_false_r.
  - destruct (load_item pre k d post Hi) as (Hk & Hl & _ & Hend). unfold sizeof_qmi_packet, sizeof_qmi_tlv_item in Hend.
    assert (item_wf (k, d)) as [Hk8 Hl16] by (eapply list.Forall_forall; [exact Hwf|]; rewrite Hi; apply elem_of_app; right; by left).
    cbn [fst snd] in Hk8, Hl16. destruct (Z.ltb_spec (at_items pre) (tlv_size t)); [|lia].
    rewrite Hk, Hl. cbn [mbind outcome_bind]. rewrite !le_val_bytes_small by (cbn; lia).
    assert (0 <= at_items pre) by (unfold at_items; lia).
    rewrite u32_small by (unfold sizeof_qmi_tlv_item; lia). rewrite <- (at_items_snoc pre k d).
    destruct (IH (pre ++ [(k, d)]) fuel) as [IH1 IH2]; [by rewrite <- app_assoc|cbn [length] in Hf; lia|].
    destruct (Z.eqb_spec k id) as [->|Hne]; (split; [intros p1 d' p2 Hp Hn|intros Hn]).
    + destruct p1 as [|[k1 d1] p1]; [by rewrite app_nil_r|]. simplify_eq. cbn in Hn. set_solver.
    + cbn in Hn. set_solver.
    + destruct p1 as [|[k1 d1] p1]; simplify_eq/=. rewrite (IH1 p1 d' p2 eq_refl) by set_solver. by rewrite <- app_assoc.
    + apply IH2. cbn in Hn. set_solver.
Qed.

Lemma items_fuel l : (length l <= length (items_bytes l))%nat.
Proof.
  induction l as [|it l IH]; [done|]. unfold items_bytes. cbn [mbind list_bind length]. fold (items_bytes l). rewrite length_app, length_item. lia.
Qed.

Lemma walk_fuel : (length its < S (Z.to_nat (tlv_size t)))%nat.
Proof. destruct Hholds as [Hh Hb Hs _]. pose proof (items_fuel its). rewrite Hs, Hb, length_app. lia. Qed.

Lemma get_present p1 d p2 :
  its = p1 ++ (id, d) :: p2 -> id ∉ p1.*1 ->
  exists off, qmi_tlv_get t id = Ret (Some (off, Z.of_nat (length d))) /\ load (tlv_buf t) off (Z.of_nat (length d)) = Ret d.
Proof.
  intros Hi Hn. destruct (load_item p1 id d p2 Hi) as (_ & Hl & Hd & _).
  assert (item_wf (id, d)) as [_ Hl16] by (eapply list.Forall_forall; [exact Hwf|]; rewrite Hi; apply elem_of_app; right; by left).
  destruct (get_item_loop_walk its [] _ eq_refl walk_fuel) as [Hfound _]. specialize (Hfound p1 d p2 Hi Hn).
  eexists. split; [|exact Hd]. unfold qmi_tlv_get, qmi_tlv_get_item. change 0 with (at_items []) at 1. rewrite Hfound.
  cbn [mbind outcome_bind app]. rewrite Hl. cbn [mbind outcome_bind]. by rewrite le_val_bytes_small by (cbn in *; lia).
Qed.

Lemma get_absent : id ∉ its.*1 -> qmi_tlv_get t id = Fault.
Proof.
  intros Hn. destruct (get_item_loop_walk its [] _ eq_refl walk_fuel) as [_ Hlost]. specialize (Hlost Hn).
  unfold qmi_tlv_get, qmi_tlv_get_item. change 0 with (at_items []) at 1. by rewrite Hlost.
Qed.

End walk.

(** ** Messages from the builder *)

(** A client that adds items one after the other. *)
Fixpoint set_all (junk : Z) (t : qmi_tlv) (its : list (Z * list Z)) : outcome (option qmi_tlv) :=
  match its with
  | [] => Ret (Some t)
  | (id, data) :: its =>
      '(tlv, rc) ← qmi_tlv_set true junk (Some t) id data (Z.of_nat (length data));
      match tlv with None => Ret None | Some t => if rc =? 0 then set_all junk t its else Ret None end
  end.

Lemma set_all_holds junk hdr : forall its2 t its1,
  holds t hdr its1 -> exists t', set_all junk t its2 = Ret (Some t') /\ holds t' hdr (its1 ++ its2).
Proof.
  induction its2 as [|[id data] its2 IH]; intros t its1 Ht; cbn [set_all].
  { exists t. by rewrite app_nil_r. }
  destruct (set_holds junk t hdr its1 id data Ht) as (t1 & -> & Ht1). cbn [mbind outcome_bind Z.eqb].
  destruct (IH t1 _ Ht1) as (t' & Hset & Ht'). exists t'. split; [done|]. by rewrite <- app_assoc in Ht'.
Qed.

Lemma encode_holds t flags txn msg len its :
  holds t (qmi_packet_bytes flags txn msg len) its ->
  exists t', qmi_tlv_encode (Some t) = Ret (Some (t', tlv_buf t', Z.of_nat (length (tlv_buf t'))))
    /\ holds t' (qmi_packet_bytes flags txn msg (Z.of_nat (length (items_bytes its)))) its.
Proof.
  intros [Hh Hb Hs He]. unfold qmi_tlv_encode. rewrite He. cbn [Z.eqb negb].
  assert (tlv_size t - sizeof_qmi_packet = Z.of_nat (length (items_bytes its))) as -> by (rewrite Hs, Hb, length_app, Hh; unfold sizeof_qmi_packet; lia).
  rewrite Hb. unfold qmi_packet_bytes. rewrite !app_assoc, <- !(app_assoc _ (le_bytes 2 _) (items_bytes its)).
  rewrite store_mid; [|by rewrite !length_app, !length_le_bytes|by rewrite !length_le_bytes].
  cbn [mbind outcome_bind]. set (buf := (_ ++ le_bytes 2 (Z.of_nat _) ++ _)%list).
  assert (tlv_size t = Z.of_nat (length buf)) as -> by (unfold buf; rewrite Hs, Hb; unfold qmi_packet_bytes; by rewrite !length_app, !length_le_bytes).
  exists (MkTlv (tlv_allocated t) buf (Z.of_nat (length buf)) 0). split; [by rewrite ?He|]. split; [done| |done|done].
  cbn [tlv_buf]. unfold buf. by rewrite <- !app_assoc.
Qed.

Lemma decode_holds t flags txn msg len its :
  0 <= flags < 256 -> 0 <= txn < 65536 -> holds t (qmi_packet_bytes flags txn msg len) its ->
  exists t', qmi_tlv_decode true (tlv_buf t) (tlv_size t) true flags = Ret (Some (t', Some txn))
    /\ tlv_buf t' = tlv_buf t /\ holds t' (qmi_packet_bytes flags txn msg len) its.
Proof.
  intros Hf Ht [Hh Hb Hs He]. exists (MkTlv false (tlv_buf t) (tlv_size t) 0). split; [|done].
  assert (load (tlv_buf t) 0 1 = Ret (le_bytes 1 flags)) as H1.
  { rewrite Hb. unfold qmi_packet_bytes. rewrite <- !app_assoc. apply (load_mid []); [done|by rewrite length_le_bytes]. }
  assert (load (tlv_buf t) 1 2 = Ret (le_bytes 2 txn)) as H2.
  { rewrite Hb. unfold qmi_packet_bytes. rewrite <- !app_assoc. apply load_mid; by rewrite length_le_bytes. }
  unfold qmi_tlv_decode. rewrite H1, H2. cbn [mbind outcome_bind]. by rewrite !le_val_bytes_small, Z.eqb_refl by (cbn; lia).
Qed.

(** A message that is built is read back.  Whatever items are added to a new
    message, in whatever order, encoding gives its bytes and length with the length
    field set, decoding them gives the transaction, and looking up a key gives
    the data of the first item with that key; lengths fit in 16 bits, the whole
    message in 32. *)
Theorem tlv_roundtrip junk txn msg_id msg_type its :
  0 <= txn < 65536 -> 0 <= msg_type < 256 -> Forall item_wf its -> Z.of_nat (length (items_bytes its)) < 4294967296 - 7 ->
  exists t0 t t1 buf t2, qmi_tlv_init true true txn msg_id msg_type = Ret t0 /\ set_all junk t0 its = Ret (Some t)
    /\ qmi_tlv_encode (Some t) = Ret (Some (t1, buf, Z.of_nat (length buf)))
    /\ load buf 5 2 = Ret (le_bytes 2 (Z.of_nat (length (items_bytes its))))
    /\ qmi_tlv_decode true buf (Z.of_nat (length buf)) true msg_type = Ret (Some (t2, Some txn))
    /\ forall id p1 d p2, its = p1 ++ (id, d) :: p2 -> id ∉ p1.*1 ->
         exists off, qmi_tlv_get t2 id = Ret (Some (off, Z.of_nat (length d))) /\ load buf off (Z.of_nat (length d)) = Ret d.
Proof.
  intros Htxn Htype Hwf Hlen.
  assert (holds (MkTlv true (qmi_packet_bytes msg_type txn msg_id 0) 7 0) (qmi_packet_bytes msg_type txn msg_id 0) []) as H0.
  { split; cbn [tlv_buf tlv_size tlv_error]; [done|by rewrite app_nil_r|done|done]. }
  destruct (set_all_holds junk _ its _ [] H0) as (t & Hset & Ht). cbn [app] in Ht.
  destruct (encode_holds _ _ _ _ _ _ Ht) as (t1 & Henc & Ht1). pose proof Ht1 as [Hh Hb Hs _].
  destruct (decode_holds _ _ _ _ _ _ Htype Htxn Ht1) as (t2 & Hdec & Hbuf & Ht2). rewrite Hs in Hdec.
  assert (tlv_size t2 < 4294967296) as Hsize by (destruct Ht2 as [Hh2 Hb2 Hs2 _]; rewrite Hs2, Hb2, length_app, Hh2; lia).
  eexists _, t, t1, (tlv_buf t1), t2. split_and!; [done|done|done| |done|].
  - rewrite Hb. unfold qmi_packet_bytes. rewrite !app_assoc, <- (app_assoc _ (le_bytes 2 _) (items_bytes its)).
    apply load_mid; [by rewrite !length_app, !length_le_bytes|by rewrite length_le_bytes].
  - intros id p1 d p2 Hi Hn. rewrite <- Hbuf. by eapply get_present.
Qed.

(** Asking for an item that is not there reads behind the message.  The loop
    of [qmi_tlv_get_item] compares the offset of the next item, counted from behind
    the header, with the size of the whole message, header included; so in every
    message of complete items it goes on for seven bytes too many, and the key is
    read outside the buffer. *)
Theorem absent_item_overruns t hdr its id :
  holds t hdr its -> Forall item_wf its -> tlv_size t < 4294967296 -> id ∉ its.*1 ->
  qmi_tlv_get t id = Fault.
Proof. intros. by eapply get_absent. Qed.

(** ** Examples *)

Definition demo_items : list (Z * list Z) := [(1, [10; 20; 30]); (2, []); (16, [7; 0; 0; 0])].

Lemma tlv_roundtrip_witness :
  exists t0 t t1 buf t2, qmi_tlv_init true true 5 2 0 = Ret t0 /\ set_all 170 t0 demo_items = Ret (Some t)
    /\ qmi_tlv_encode (Some t) = Ret (Some (t1, buf, Z.of_nat (length buf)))
    /\ load buf 5 2 = Ret (le_bytes 2 (Z.of_nat (length (items_bytes demo_items))))
    /\ qmi_tlv_decode true buf (Z.of_nat (length buf)) true 0 = Ret (Some (t2, Some 5))
    /\ forall id p1 d p2, demo_items = p1 ++ (id, d) :: p2 -> id ∉ p1.*1 ->
         exists off, qmi_tlv_get t2 id = Ret (Some (off, Z.of_nat (length d))) /\ load buf off (Z.of_nat (length d)) = Ret d.
Proof.
  apply (tlv_roundtrip 170 5 2 0 demo_items); [lia|lia| |vm_compute; reflexivity].
  repeat constructor; vm_compute; congruence.
Defined.

Definition demo_message : qmi_tlv :=
  MkTlv false (qmi_packet_bytes 0 5 2 16 ++ items_bytes demo_items) 23 0.

Lemma absent_item_overruns_witness : qmi_tlv_get demo_message 3 = Fault.
Proof.
  apply (absent_item_overruns demo_message (qmi_packet_bytes 0 5 2 16) demo_items).
  - split; vm_compute; reflexivity.
  - repeat constructor; vm_compute; congruence.
  - vm_compute. reflexivity.
  - vm_compute. intros H. repeat (apply elem_of_cons in H as [H|H]; [discriminate H|]). by apply elem_of_nil in H.
Defined.

(** An array of three bytes with a count of one byte is read back; with a count of
    four bytes the elements overwrite the upper bytes of the count. *)
Definition set_then_get (len_size : Z) : outcome (option (Z * Z * Z)) :=
  '(tlv, _) ← qmi_tlv_set_array true 170 (Some (MkTlv true (qmi_packet_bytes 0 5 2 0) 7 0)) 1 len_size [11; 12; 13] 3 1;
  match tlv with Some t => qmi_tlv_get_array 0 t 1 len_size | None => Ret None end.

Example array_count_1 : set_then_get 1 = Ret (Some (11, 3, 1)).
Proof. vm_compute. reflexivity. Qed.

Example array_count_4 : set_then_get 4 = Ret (Some (11, 3 + 256 * (11 + 256 * (12 + 256 * 13)), 0)).
Proof. vm_compute. reflexivity. Qed.
