(* ===== verification/QrtrTools.v ===== *)
(** * The command-line tools of qrtr (src/qcom/qrtr)

    qrtr-lookup (src/lookup.c) asks the name server for services and prints them,
    qrtr-cfg (src/cfg.c, src/addr.c) sets the address of the node through
    rtnetlink; both log with lib/logging.c.  System calls answer through
    arguments; the processor is little endian, so [cpu_to_le32] is the identity. *)

From Stdlib Require Import ZArith Lia.
From stdpp Require Import base list numbers strings.
From S2P Require Import Prelude CLib Packet.

(** ** Logging (logging.c) *)

Record log_state : Type := MkLog { current_tag : list Z; min_priority : Z; logging_to_syslog : bool }.

Definition LOG_EMERG : Z := 0.
Definition LOG_INFO : Z := 6.
Definition LOG_DEBUG : Z := 7.
Definition QLOG_BUF_SIZE : nat := 512.

Definition qlog_setup (tag : list Z) (use_syslog : bool) (l : log_state) : log_state :=
  MkLog tag (min_priority l) use_syslog.

Definition qlog_set_min_priority (priority : Z) (l : log_state) : log_state :=
  if (priority <? LOG_EMERG) || (LOG_DEBUG <? priority) then l
  else MkLog (current_tag l) priority (logging_to_syslog l).

Definition get_priority_string (priority : Z) : string :=
  match priority with
  | 0 => "EMERG" | 1 => "ALERT" | 2 => "CRIT" | 3 => "ERROR" | 4 => "WARNING" | 5 => "NOTICE" | 6 => "INFO" | 7 => "DEBUG"
  | _ => ""
  end.

(** Where a message goes: to the system log, or as a line to stderr. *)
Inductive log_event : Type := LogSyslog (priority : Z) (msg : list Z) | LogStderr (line : list Z).

(** [msg] is the message with its arguments put in. *)
Definition qlog (l : log_state) (priority : Z) (msg : list Z) : option log_event :=
  if min_priority l <? priority then None
  else if logging_to_syslog l then Some (LogSyslog priority msg)
  else Some (LogStderr (bytes_of_string (get_priority_string priority) ++ 32 :: current_tag l ++ [58; 32] ++ take (QLOG_BUF_SIZE - 1) msg ++ [10])).

(** ** qrtr-lookup (lookup.c) *)

Definition DIAG_SERVICE : Z := 4097.

(** Service, filter for the instance, name. *)
Definition common_names : list (Z * Z * string) :=
  [(0, 0, "Control service");
   (1, 0, "Wireless Data Service");
   (2, 0, "Device Management Service");
   (3, 0, "Network Access Service");
   (4, 0, "Quality Of Service service");
   (5, 0, "Wireless Messaging Service");
   (6, 0, "Position Determination Service");
   (7, 0, "Authentication service");
   (8, 0, "AT service");
   (9, 0, "Voice service");
   (10, 0, "Card Application Toolkit service (v2)");
   (11, 0, "User Identity Module service");
   (12, 0, "Phonebook Management service");
   (13, 0, "QCHAT service");
   (14, 0, "Remote file system service");
   (15, 0, "Test service");
   (16, 0, "Location service (~ PDS v2)");
   (17, 0, "Specific absorption rate service");
   (18, 0, "IMS settings service");
   (19, 0, "Analog to digital converter driver service");
   (20, 0, "Core sound driver service");
   (21, 0, "Modem embedded file system service");
   (22, 0, "Time service");
   (23, 0, "Thermal sensors service");
   (24, 0, "Thermal mitigation device service");
   (25, 0, "Service access proxy service");
   (26, 0, "Wireless data administrative service");
   (27, 0, "TSYNC control service");
   (28, 0, "Remote file system access service");
   (29, 0, "Circuit switched videotelephony service");
   (30, 0, "Qualcomm mobile access point service");
   (31, 0, "IMS presence service");
   (32, 0, "IMS videotelephony service");
   (33, 0, "IMS application service");
   (34, 0, "Coexistence service");
   (36, 0, "Persistent device configuration service");
   (38, 0, "Simultaneous transmit service");
   (39, 0, "Bearer independent transport service");
   (40, 0, "IMS RTP service");
   (41, 0, "RF radiated performance enhancement service");
   (42, 0, "Data system determination service");
   (43, 0, "Subsystem control service");
   (49, 0, "IPA control service");
   (51, 0, "CoreSight remote tracing service");
   (52, 0, "Dynamic Heap Memory Sharing");
   (64, 0, "Service registry locator service");
   (66, 0, "Service registry notification service");
   (69, 0, "ATH10k WLAN firmware service");
   (224, 0, "Card Application Toolkit service (v1)");
   (225, 0, "Remote Management Service");
   (226, 0, "Open Mobile Alliance device management service");
   (312, 0, "QBT1000 Ultrasonic Fingerprint Sensor service");
   (769, 0, "SLIMbus control service");
   (771, 0, "Peripheral Access Control Manager service");
   (DIAG_SERVICE, 0, "DIAG service")].

Definition diag_instance_base_str (instance_base : Z) : string :=
  match instance_base with
  | 0 => "MODEM" | 1 => "LPASS" | 2 => "WCNSS" | 3 => "SENSORS" | 4 => "CDSP" | 5 => "WDSP" | _ => "<unk>"
  end.

Definition diag_instance_str (instance : Z) : string :=
  match instance with
  | 0 => "CNTL" | 1 => "CMD" | 2 => "DATA" | 3 => "DCI_CMD" | 4 => "DCI" | _ => "<unk>"
  end.

(** What [snprintf] leaves in a buffer of [size] bytes. *)
Definition get_diag_instance_info (size : nat) (instance : Z) : list Z :=
  take (size - 1) (bytes_of_string (diag_instance_base_str (Z.shiftr instance 6)) ++ 58
    :: bytes_of_string (diag_instance_str (Z.land instance 63))).

(** The number and [*rcp]. *)
Definition read_num_le (str : list Z) (rc : Z) : Z * Z :=
  if negb (rc =? 0) then (0, rc)
  else
    let '(ret, e, erange) := strtoul 0 str in
    (u32 ret, if (erange : bool) || negb (bool_decide (e = [])) then -1 else 0).

(** The arguments behind the name of the program: service and instance, [None]
    when the usage is printed.  The instance is read first. *)
Definition lookup_args (args : list (list Z)) : option (Z * Z) :=
  let '(service, instance, rc) :=
    match args with
    | [] => (0, 0, 0)
    | [a1] => let '(service, rc) := read_num_le a1 0 in (service, 0, rc)
    | [a1; a2] => let '(instance, rc) := read_num_le a2 0 in let '(service, rc) := read_num_le a1 rc in (service, instance, rc)
    | _ => (0, 0, -1)
    end in
  if rc =? 0 then Some (service, instance) else None.

(** The loop over the names; later entries override earlier ones. *)
Definition find_name (service instance : Z) : option string :=
  foldl (fun name entry =>
           let '(s, ifilter, n) := entry in
           if negb (service =? s) then name
           else if negb (instance =? 0) && negb (Z.land instance ifilter =? ifilter) then name
           else Some n) None common_names.

(** A conversion of [printf] with a width: blanks in front. *)
Definition pad (width : nat) (s : list Z) : list Z := replicate (width - length s) 32 ++ s.

(** [%<width>d] of an unsigned number. *)
Definition fmt_d (width : nat) (z : Z) : list Z := pad width (sprintf_d (s32 z)).

(** The line printed for a packet. *)
Definition lookup_line (p : qrtr_ctrl_pkt) : list Z :=
  let service := pk_service p in
  let version := Z.land (pk_instance p) 255 in
  let instance := Z.shiftr (pk_instance p) 8 in
  let name := bytes_of_string (default "<unknown>" (find_name service instance)) in
  if service =? DIAG_SERVICE then
    fmt_d 9 service ++ 32 :: pad 7 (bytes_of_string "N/A") ++ 32 :: fmt_d 8 (pk_instance p) ++ 32 :: fmt_d 4 (pk_node p)
      ++ 32 :: fmt_d 5 (pk_port p) ++ 32 :: name ++ [32; 40] ++ get_diag_instance_info 24 (pk_instance p) ++ [41; 10]
  else
    fmt_d 9 service ++ 32 :: fmt_d 7 version ++ 32 :: fmt_d 8 instance ++ 32 :: fmt_d 4 (pk_node p)
      ++ 32 :: fmt_d 5 (pk_port p) ++ 32 :: name ++ [10].

(** The loop over the packets received: [rx] are the results of [recv], its result
    and the bytes; behind them it times out.  The lines printed and the exit
    status. *)
Fixpoint lookup_loop (rx : list (Z * list Z)) : list (list Z) * Z :=
  match rx with
  | [] => ([], 1)
  | (len, bytes) :: rx' =>
      if len <=? 0 then ([], if len <? 0 then 1 else 0)
      else
        let p := ctrl_pkt_of_bytes bytes in
        if (len <? sizeof_ctrl_pkt) || negb (cmd p =? QRTR_TYPE_NEW_SERVER) then lookup_loop rx'
        else if (pk_service p =? 0) && (pk_instance p =? 0) && (pk_node p =? 0) && (pk_port p =? 0) then ([], 0)
        else let '(lines, status) := lookup_loop rx' in (lookup_line p :: lines, status)
  end.

Definition lookup_header : list Z := bytes_of_string "  Service Version Instance Node  Port" ++ [10].

(** The whole program: what it sent, the lines printed and the exit status;
    [sock], [g], [rc_opt] and [rc_send] are the answers of the system calls. *)
Definition lookup_main (args : list (list Z)) (sock : Z) (g : sockname) (rc_opt rc_send : Z) (rx : list (Z * list Z))
    : list syscall * list (list Z) * Z :=
  match lookup_args args with
  | None => ([], [], 1)
  | Some (service, instance) =>
      if sock <? 0 then ([], [], 1)
      else
        match qrtr_getname g with
        | None => ([], [], 1)
        | Some sq =>
            let sq := MkSq (sq_family sq) (sq_node sq) QRTR_PORT_CTRL in
            if negb (rc_opt =? 0) then ([], [], 1)
            else
              let sent := [Sendto sq (ctrl_pkt_bytes (MkPkt QRTR_TYPE_NEW_LOOKUP service instance 0 0))] in
              if rc_send <? 0 then (sent, [], 1)
              else let '(lines, status) := lookup_loop rx in (sent, lookup_header :: lines, status)
        end
  end.

(** ** qrtr-cfg (cfg.c, addr.c) *)

(** The netlink request: header, [struct ifaddrmsg] and the attribute with the
    address, as they lie in the buffer that is sent. *)
Definition NLM_F_REQUEST : Z := 1.
Definition NLM_F_ACK : Z := 4.
Definition NLMSG_ERROR : Z := 2.
Definition RTM_NEWADDR : Z := 20.
Definition IFA_LOCAL : Z := 2.

Definition addr_request (addr : Z) : list Z :=
  le_bytes 4 32 ++ le_bytes 2 RTM_NEWADDR ++ le_bytes 2 (Z.lor NLM_F_REQUEST NLM_F_ACK) ++ le_bytes 4 0 ++ le_bytes 4 0
  ++ le_bytes 1 AF_QIPCRTR ++ le_bytes 1 0 ++ le_bytes 1 0 ++ le_bytes 1 0 ++ le_bytes 4 0
  ++ le_bytes 2 8 ++ le_bytes 2 IFA_LOCAL ++ le_bytes 4 addr.

(** What the kernel answers to the calls of [qrtr_set_address]; the response is
    its type and error. *)
Record addr_env : Type := MkAddrEnv
  { ae_sock : Z; ae_getname : sockname; ae_nlsock : Z; ae_send : Z; ae_recv : Z; ae_type : Z; ae_error : Z }.

(** What the program does: nothing as the address is set, the request and an
    exit status (0 when it goes on). *)
Inductive addr_result : Type := AddrSame | AddrFailed (status : Z) | AddrSent (request : list Z) (status : Z).

Definition qrtr_set_address (e : addr_env) (addr : Z) : addr_result :=
  if ae_sock e <? 0 then AddrFailed 1
  else if gs_rc (ae_getname e) <? 0 then AddrFailed 1
  else if (gs_sl (ae_getname e) =? sizeof_sockaddr_qrtr) && (sq_node (gs_sq (ae_getname e)) =? addr) then AddrSame
  else if ae_nlsock e <? 0 then AddrFailed 1
  else if ae_send e <? 0 then AddrSent (addr_request addr) 1
  else if ae_recv e <? 0 then AddrSent (addr_request addr) 1
  else if (ae_type e =? NLMSG_ERROR) && negb (ae_error e =? 0) then AddrSent (addr_request addr) 1
  else AddrSent (addr_request addr) 0.

(** The address on the command line, [None] when the usage is printed. *)
Definition cfg_args (args : list (list Z)) : option Z :=
  match args with
  | [a] =>
      let '(addrul, ep, _) := strtoul 10 a in
      if bool_decide (a = []) || negb (bool_decide (ep = [])) || (UINT_MAX <=? addrul) then None else Some (u32 addrul)
  | _ => None
  end.

Definition cfg_main (e : addr_env) (args : list (list Z)) : addr_result :=
  match cfg_args args with None => AddrFailed 1 | Some addr => qrtr_set_address e addr end.
