(* ===== verification/ToolsClaims.v ===== *)
(** * The command-line tools of qrtr with the name server and the kernel *)

From Stdlib Require Import ZArith Lia.
From stdpp Require Import base gmap list numbers strings.
From S2P Require Import Prelude CLib Hash HashMap Packet NameServer NsProofs NsHandlers NsClaims QrtrClaims QrtrTools.

(** ** Packets of servers *)

(** What an observer reads of the announcement of a server. *)
Definition listed (srv : server) : qrtr_ctrl_pkt :=
  MkPkt QRTR_TYPE_NEW_SERVER (u32 (srv_service srv)) (srv_instance srv) (srv_node srv) (srv_port srv).

Lemma listed_bytes srv : ctrl_pkt_bytes (notify_pkt (Some srv) true) = ctrl_pkt_bytes (listed srv).
Proof. unfold ctrl_pkt_bytes, listed. cbn. by rewrite le_bytes_u32. Qed.

Lemma all_servers_listed st srv : ns_inv st -> srv ∈ all_servers st -> ctrl_pkt_wf (listed srv) /\ srv_port srv <> 0.
Proof.
  intros Hinv Hin. unfold all_servers in Hin. apply list_elem_of_bind in Hin as (p & Hin & Hp).
  destruct (heap st !! p) as [nd|] eqn:Hnd; [|set_solver]. apply list_elem_of_fmap in Hin as (it & -> & Hin).
  pose proof (inv_heap _ Hinv p nd Hnd) as (Hid & _ & Hok). apply Hok in Hin as (_ & Hn & _ & Hp0 & Hport & Hi).
  split; [|done]. unfold ctrl_pkt_wf, listed. cbn. rewrite Hn. split_and!; try apply u32_range; try apply Hid; try apply Hi; try apply Hport; done.
Qed.

(** ** Listing services *)

(** The datagrams an address is sent, as [recv] gives them. *)
Definition datagrams (to : sockaddr_qrtr) (evs : list event) : list (Z * list Z) :=
  omap (fun e => match e with
                 | EvSend dst bytes => if decide (dst = to) then Some (Z.of_nat (length bytes), bytes) else None
                 | EvCalloc => None
                 end) evs.

Lemma datagrams_app to e1 e2 : datagrams to (e1 ++ e2) = datagrams to e1 ++ datagrams to e2.
Proof. apply omap_app. Qed.

Lemma datagrams_reply to srvs :
  datagrams to (reply_events to srvs) = (fun srv => (20, ctrl_pkt_bytes (listed srv))) <$> srvs.
Proof.
  induction srvs as [|srv srvs IH]; [done|]. unfold reply_events, datagrams in *. cbn -[notify_pkt ctrl_pkt_bytes Z.of_nat].
  rewrite decide_True by done. rewrite IH, listed_bytes, length_ctrl_pkt_bytes. done.
Qed.

Lemma lookup_loop_lists srvs :
  (forall srv, srv ∈ srvs -> ctrl_pkt_wf (listed srv) /\ srv_port srv <> 0) ->
  lookup_loop (((fun srv => (20, ctrl_pkt_bytes (listed srv))) <$> srvs) ++ [(20, ctrl_pkt_bytes (MkPkt QRTR_TYPE_NEW_SERVER 0 0 0 0))])
  = ((fun srv => lookup_line (listed srv)) <$> srvs, 0).
Proof.
  induction srvs as [|srv srvs IH]; intros Hok.
  { vm_compute. reflexivity. }
  destruct (Hok srv ltac:(by left)) as [Hwf Hp]. rewrite !fmap_cons. cbn [app lookup_loop]. change (20 <=? 0) with false. cbv iota.
  pose proof (ctrl_pkt_bytes_decode (listed srv) [] Hwf) as Hd. rewrite app_nil_r in Hd. rewrite Hd.
  change (20 <? sizeof_ctrl_pkt) with false. cbn [listed cmd pk_service pk_instance pk_node pk_port orb].
  rewrite Z.eqb_refl, (proj2 (Z.eqb_neq _ _) Hp), andb_false_r. cbn [negb]. rewrite IH; [done|]. intros s Hs. apply Hok. by right.
Qed.

Section lookup_tool.
Context `{Env}.

Lemma dispatch_new_lookup st from service instance stale :
  u32_range_of service -> u32_range_of instance ->
  ctrl_port_fn (received (ctrl_pkt_bytes (MkPkt QRTR_TYPE_NEW_LOOKUP service instance 0 0)) stale from) st
  = (_ ← ctrl_cmd_new_lookup from service instance; mret tt) st.
Proof.
  intros Hs Hi. unfold ctrl_port_fn, received, ctrl_dispatch. cbn [rx_len rx_buf rx_sq].
  rewrite length_ctrl_pkt_bytes, ctrl_pkt_bytes_decode; [reflexivity|].
  unfold ctrl_pkt_wf, QRTR_TYPE_NEW_LOOKUP, u32_range_of in *. cbn. lia.
Qed.

Lemma read_num_range str rc : u32_range_of (read_num_le str rc).1.
Proof. unfold read_num_le. destruct (negb _); [done|]. destruct (strtoul 0 str) as [[v e] b]. apply u32_range. Qed.

Lemma lookup_args_range args service instance : lookup_args args = Some (service, instance) -> u32_range_of service /\ u32_range_of instance.
Proof.
  unfold lookup_args. destruct args as [|a1 [|a2 [|a3 args]]].
  - intros He. by simplify_eq/=.
  - pose proof (read_num_range a1 0) as Hr. destruct (read_num_le a1 0) as [v rc]. destruct (rc =? 0); [|done]. intros He. by simplify_eq/=.
  - pose proof (read_num_range a2 0) as Hr. destruct (read_num_le a2 0) as [v rc].
    pose proof (read_num_range a1 rc) as Hr1. destruct (read_num_le a1 rc) as [v1 rc1]. destruct (rc1 =? 0); [|done]. intros He. by simplify_eq/=.
  - done.
Qed.

(** The tool and the name server together. *)
Lemma lookup_prints st from args service instance stale sock rc_send :
  ns_inv st -> sq_node from = local_id st -> sq_family from = AF_QIPCRTR -> env_calloc (trace st) = true ->
  lookup_args args = Some (service, instance) -> 0 <= sock -> 0 <= rc_send ->
  exists bytes st' evs, ctrl_port_fn (received bytes stale from) st = Ret (tt, st') /\ trace st' = trace st ++ evs
    /\ lookup_main args sock (MkSockname 0 from sizeof_sockaddr_qrtr) 0 rc_send (datagrams from evs)
       = ([Sendto (MkSq AF_QIPCRTR (sq_node from) QRTR_PORT_CTRL) bytes],
          lookup_header :: ((fun srv => lookup_line (listed srv))
            <$> filter (fun srv => Is_true (lookup_match (MkLookup service instance from) (srv_service srv) (srv_instance srv))) (all_servers st)),
          0).
Proof.
  intros Hinv Hl Hfam Hc Hargs Hsock Hsend. destruct (lookup_args_range _ _ _ Hargs) as [Hs Hi].
  destruct (new_lookup_spec st from service instance Hinv) as [[? _]|[[? _]|(_ & _ & _ & Heq)]]; [done|congruence|].
  exists (ctrl_pkt_bytes (MkPkt QRTR_TYPE_NEW_LOOKUP service instance 0 0)). eexists _, (EvCalloc :: lookup_reply st from service instance).
  split; [rewrite dispatch_new_lookup by done; by rewrite (ns_bind_ret _ _ _ _ _ Heq)|]. split; [done|].
  unfold lookup_main. rewrite Hargs. destruct (Z.ltb_spec sock 0); [lia|]. unfold qrtr_getname. cbn [gs_rc gs_sq gs_sl].
  rewrite Hfam. cbn [Z.eqb negb orb sizeof_sockaddr_qrtr Pos.eqb AF_QIPCRTR sq_family sq_node]. destruct (Z.ltb_spec rc_send 0); [lia|].
  change (datagrams from (EvCalloc :: ?e)) with (datagrams from e). unfold lookup_reply. rewrite datagrams_app, datagrams_reply.
  set (found := filter _ _). assert (datagrams from [EvSend from (ctrl_pkt_bytes (MkPkt QRTR_TYPE_NEW_SERVER 0 0 0 0))]
    = [(20, ctrl_pkt_bytes (MkPkt QRTR_TYPE_NEW_SERVER 0 0 0 0))]) as ->.
  { unfold datagrams. cbn -[ctrl_pkt_bytes]. by rewrite decide_True. }
  rewrite lookup_loop_lists.
  - rewrite ?Hfam. do 3 f_equal. f_equal. unfold found.
    apply (filter_ext_elem (fun srv => server_match srv (MkFilter service instance 0))). intros srv Hin. rewrite (server_match_lookup srv service instance from); [done|]. by apply (all_servers_elem st).
  - intros srv Hin. unfold found in Hin. apply list_elem_of_filter in Hin as [_ Hin]. by apply (all_servers_listed st).
Qed.

(** qrtr-lookup lists the services.  On a node whose name server is in a
    consistent state and has memory to spare, the packet the tool sends is
    taken as a lookup; the datagrams the server sends back make the tool print, below
    the heading, one line for each registered server its arguments match, in
    the order of the tables and with the fields that were registered, and
    end with status 0 without waiting for the timeout. *)
Theorem lookup_lists_services st from args service instance stale sock rc_send :
  ns_inv st -> sq_node from = local_id st -> sq_family from = AF_QIPCRTR -> env_calloc (trace st) = true ->
  lookup_args args = Some (service, instance) -> 0 <= sock -> 0 <= rc_send ->
  exists bytes st' evs, ctrl_port_fn (received bytes stale from) st = Ret (tt, st') /\ trace st' = trace st ++ evs
    /\ lookup_main args sock (MkSockname 0 from sizeof_sockaddr_qrtr) 0 rc_send (datagrams from evs)
       = ([Sendto (MkSq AF_QIPCRTR (sq_node from) QRTR_PORT_CTRL) bytes],
          lookup_header :: ((fun srv => lookup_line (listed srv))
            <$> filter (fun srv => Is_true (lookup_match (MkLookup service instance from) (srv_service srv) (srv_instance srv))) (all_servers st)),
          0).
Proof. apply lookup_prints. Qed.


End lookup_tool.

(** A lookup of service 66 on a node with servers. *)
Lemma lookup_lists_services_witness :
  exists bytes st' evs, @ctrl_port_fn demo_env (received bytes [] (MkSq AF_QIPCRTR 1 9)) demo_state = Ret (tt, st')
    /\ trace st' = trace demo_state ++ evs
    /\ lookup_main [bytes_of_string "66"] 3 (MkSockname 0 (MkSq AF_QIPCRTR 1 9) sizeof_sockaddr_qrtr) 0 20 (datagrams (MkSq AF_QIPCRTR 1 9) evs)
       = ([Sendto (MkSq AF_QIPCRTR 1 QRTR_PORT_CTRL) bytes],
          [lookup_header; bytes_of_string "       66       1        2    0     7 Service registry notification service" ++ [10]], 0).
Proof.
  destruct (@lookup_lists_services demo_env demo_state (MkSq AF_QIPCRTR 1 9) [bytes_of_string "66"] 66 0 [] 3 20 demo_state_inv)
    as (bytes & st' & evs & H1 & H2 & H3); [by rewrite demo_local_id|done|done|reflexivity|lia|lia|].
  exists bytes, st', evs. split; [exact H1|]. split; [exact H2|]. rewrite H3. vm_compute. reflexivity.
Defined.


(** ** Names *)

(** The search in a table without filters and with every service once. *)
Lemma find_name_fold service instance name : forall l acc,
  Forall (fun e : Z * Z * string => e.1.2 = 0) l -> NoDup ((fun e => e.1.1) <$> l) ->
  (acc = None \/ forall n, (service, 0, n) ∉ l) ->
  foldl (fun name entry => let '(s, ifilter, n) := entry in
         if negb (service =? s) then name
         else if negb (instance =? 0) && negb (Z.land instance ifilter =? ifilter) then name
         else Some n) acc l = Some name <-> acc = Some name \/ (service, 0, name) ∈ l.
Proof.
  induction l as [|[[s f] n] l IH]; intros acc Hf Hnd Hacc; cbn [foldl]; [set_solver|].
  apply list.Forall_cons in Hf as [Hf Hfl]. cbn in Hf. subst f. rewrite fmap_cons in Hnd. apply NoDup_cons in Hnd as [Hs Hnd]. cbn in Hs.
  destruct (Z.eqb_spec service s) as [->|Hne]; cbn [negb].
  - rewrite Z.land_0_r. rewrite andb_false_r. rewrite IH; [|done|done|].
    + destruct Hacc as [->|Hno]; [|exfalso; apply (Hno n); by left]. rewrite elem_of_cons. naive_solver.
    + right. intros n' Hin. apply Hs. apply list_elem_of_fmap. by exists (s, 0, n').
  - rewrite IH; [|done|done|destruct Hacc as [?|Hno]; [by left|right; intros n' Hin; apply (Hno n'); by right]].
    rewrite elem_of_cons. naive_solver.
Qed.

(** Every service of the table is found under its own name, other services
    have none: no entry hides another. *)
Theorem find_name_spec service instance name :
  find_name service instance = Some name <-> (service, 0, name) ∈ common_names.
Proof.
  unfold find_name. rewrite find_name_fold; [naive_solver|repeat constructor| |by left].
  apply (bool_decide_unpack _). vm_compute. exact I.
Qed.

(** ** Setting the address *)

(** What rtnetlink finds in a request: the address of the first attribute, when
    the lengths, the type and the family are right. *)
Definition netlink_address (msg : list Z) : option Z :=
  let u16_at off := le_val (take 2 (drop off msg)) in
  if (le32_at msg 0 =? Z.of_nat (length msg)) && (u16_at 4%nat =? RTM_NEWADDR) && (le_val (take 1 (drop 16 msg)) =? AF_QIPCRTR)
     && (u16_at 24%nat =? 8) && (u16_at 26%nat =? IFA_LOCAL) && (24 + 8 <=? Z.of_nat (length msg))
  then Some (le32_at msg 28) else None.

Lemma netlink_address_request addr : 0 <= addr < 4294967296 -> netlink_address (addr_request addr) = Some addr.
Proof.
  intros Ha. pose proof (le_val_bytes_small 4 addr ltac:(cbn; lia)) as Hv.
  destruct (le_bytes 4 addr) as [|b0 [|b1 [|b2 [|b3 [|]]]]] eqn:Hb;
    try (pose proof (length_le_bytes 4 addr) as Hl; rewrite Hb in Hl; cbn in Hl; lia).
  unfold addr_request. rewrite Hb, <- Hv. reflexivity.
Qed.

(** qrtr-cfg sets the address it is given.  For every address below the
    broadcast address in decimal, when the node has another one and the kernel
    accepts, the request the tool sends is one in which rtnetlink finds exactly that
    address, and it ends with status 0; when the node has it already nothing is
    sent; the broadcast address is refused. *)
Theorem cfg_sets_address e v :
  0 <= v < UINT_MAX -> 0 <= ae_sock e -> 0 <= gs_rc (ae_getname e) -> gs_sl (ae_getname e) = sizeof_sockaddr_qrtr ->
  0 <= ae_nlsock e -> 0 <= ae_send e -> 0 <= ae_recv e -> ae_error e = 0 ->
  cfg_main e [sprintf_d UINT_MAX] = AddrFailed 1
  /\ if sq_node (gs_sq (ae_getname e)) =? v then cfg_main e [sprintf_d v] = AddrSame
     else exists msg, cfg_main e [sprintf_d v] = AddrSent msg 0 /\ netlink_address msg = Some v.
Proof.
  unfold UINT_MAX. intros Hv Hs Hg Hsl Hnl Hsend Hrecv Herr. split; [vm_compute; reflexivity|].
  assert (cfg_args [sprintf_d v] = Some v) as Ha.
  { destruct (strtoul_sprintf v ltac:(unfold ULONG_MAX; lia)) as [Hst Hne]. unfold cfg_args. rewrite Hst.
    rewrite bool_decide_eq_false_2, bool_decide_eq_true_2 by done. unfold UINT_MAX. cbn [negb orb].
    destruct (Z.leb_spec 4294967295 v); [lia|]. by rewrite u32_small by lia. }
  unfold cfg_main. rewrite Ha. unfold qrtr_set_address. destruct (Z.ltb_spec (ae_sock e) 0); [lia|].
  destruct (Z.ltb_spec (gs_rc (ae_getname e)) 0); [lia|]. rewrite Hsl, Z.eqb_refl. cbn [andb].
  destruct (sq_node _ =? v); [done|]. exists (addr_request v). split; [|apply netlink_address_request; lia].
  destruct (Z.ltb_spec (ae_nlsock e) 0); [lia|]. destruct (Z.ltb_spec (ae_send e) 0); [lia|]. destruct (Z.ltb_spec (ae_recv e) 0); [lia|].
  rewrite Herr. by rewrite andb_false_r.
Qed.

Definition demo_addr_env : addr_env := MkAddrEnv 3 (MkSockname 0 (MkSq AF_QIPCRTR 7 20) sizeof_sockaddr_qrtr) 3 32 36 2 0.

Lemma cfg_sets_address_witness :
  cfg_main demo_addr_env [sprintf_d UINT_MAX] = AddrFailed 1
  /\ exists msg, cfg_main demo_addr_env [sprintf_d 1] = AddrSent msg 0 /\ netlink_address msg = Some 1.
Proof. apply (cfg_sets_address demo_addr_env 1); vm_compute; (congruence || split; congruence). Defined.
