(* ===== verification/NsMain.v ===== *)
(** * The name server as a program (src/qcom/qrtr/src/ns.c)

    [main] reads its options, sets the address of the node, takes the control
    port, says hello and then waits for packets with the waiter of waiter.c, whose
    callback is [ctrl_port_fn].  The theorem composes the three: no packet
    is lost between [poll] and the handlers. *)

From Stdlib Require Import ZArith Lia.
From stdpp Require Import base gmap list numbers strings relations.
From S2P Require Import Prelude CLib Hash HashMap Packet NameServer NsProofs NsHandlers Waiter QrtrTools NsClaims ToolsClaims.

(** ** Arguments *)

Record ns_options : Type := MkNsOptions { o_foreground : bool; o_syslog : bool; o_verbose : bool }.

(** The loop over what [getopt] returns; [None] prints the usage and exits. *)
Fixpoint ns_getopt (opts : list Z) (o : ns_options) : option ns_options :=
  match opts with
  | [] => Some o
  | opt :: opts' =>
      if opt =? 102 then ns_getopt opts' (MkNsOptions true (o_syslog o) (o_verbose o))
      else if opt =? 115 then ns_getopt opts' (MkNsOptions (o_foreground o) true (o_verbose o))
      else if opt =? 118 then ns_getopt opts' (MkNsOptions (o_foreground o) (o_syslog o) true)
      else None
  end.

(** The address of the node; [argv1] is [argv[1]], which is tested for being empty
    though the operand is converted. *)
Definition ns_address (argv1 operand : list Z) : option Z :=
  let '(addr, ep, _) := strtoul 10 operand in
  if bool_decide (argv1 = []) || negb (bool_decide (ep = [])) || (UINT_MAX <=? addr) then None else Some addr.

(** [None] is the usage.  The address is set before further operands are
    noticed, so its result comes first. *)
Definition ns_arguments (e : addr_env) (opts : list Z) (argv1 : list Z) (operands : list (list Z)) : option (ns_options * addr_result) :=
  match ns_getopt opts (MkNsOptions false false false) with
  | None => None
  | Some o =>
      match operands with
      | [] => Some (o, AddrSame)
      | a :: rest =>
          match ns_address argv1 a with
          | None => None
          | Some addr =>
              match qrtr_set_address e (u32 addr), rest with
              | AddrFailed s, _ => Some (o, AddrFailed s)
              | AddrSent m s, [] => Some (o, AddrSent m s)
              | AddrSent m s, _ => if s =? 0 then None else Some (o, AddrSent m s)
              | AddrSame, [] => Some (o, AddrSame)
              | AddrSame, _ => None
              end
          end
      end
  end.

(** ** The loop *)

Section loop.
Context `{Env}.

(** The callback of the control socket is number 1; like every return of [ctrl_port_fn] it
    clears the ticket. *)
Definition ns_callback (fn : Z) (t : waiter_ticket) : waiter_ticket := snd (waiter_ticket_clear t).

(** One wait: the clock before and after [poll], its answer, and what [recvfrom] gives
    if the callback is called. *)
Record ns_input : Type := MkNsInput { i_now1 : Z; i_now2 : Z; i_poll : Z * list bool; i_rx : reception }.

Fixpoint ns_called (calls : list (Z * Z)) (rx : reception) : ns unit :=
  match calls with [] => mret tt | _ :: calls' => _ ← ctrl_port_fn rx; ns_called calls' rx end.

(** [while (ctx.sock >= 0) waiter_wait(w)], for a number of waits; the flag says
    whether it has ended. *)
Fixpoint ns_loop (inputs : list ns_input) (w : waiter) (st : ns_state) : outcome (waiter * ns_state * bool) :=
  if sock st <? 0 then Ret (w, st, true)
  else
    match inputs with
    | [] => Ret (w, st, false)
    | i :: inputs' =>
        '(w, calls, _) ← waiter_wait ns_callback w (i_now1 i) (i_now2 i) (i_poll i);
        '(_, st) ← ns_called calls (i_rx i) st;
        ns_loop inputs' w st
    end.

(** ** [main] *)

(** What the system answers to the calls of the set-up: memory for the waiter,
    its ticket and its poll set, the control socket with its name, [bind] with
    [errno], and [fork]. *)
Record ns_env : Type := MkNsEnv
  { e_waiter : bool; e_sock : Z; e_getname : sockname; e_bind : Z; e_errno : Z; e_fork : Z; e_ticket : option Z; e_pollset : bool }.

Definition EADDRINUSE : Z := 98.

Inductive ns_end : Type :=
| NsExit (status : Z)
| NsDormant (** sleeping without its socket *)
| NsServing (w : waiter) (st : ns_state)
| NsEnded (st : ns_state) (released : list server).

Definition ns_main (a : addr_env) (e : ns_env) (opts argv1 : list Z) (operands : list (list Z)) (inputs : list ns_input) : outcome ns_end :=
  match ns_arguments a opts argv1 operands with
  | None => Ret (NsExit 1)
  | Some (_, AddrFailed s) => Ret (NsExit s)
  | Some (o, ar) =>
      if (match ar with AddrSent _ s => negb (s =? 0) | _ => false end) then Ret (NsExit 1)
      else if negb (e_waiter e) then Ret (NsExit 1)
      else if e_sock e <? 0 then Ret (NsExit 1)
      else if gs_rc (e_getname e) <? 0 then Ret (NsExit 1)
      else if e_bind e <? 0 then (if e_errno e =? EADDRINUSE then Ret NsDormant else Ret (NsExit 1))
      else
        '(rc, st) ← say_hello (ns_init (e_sock e) (sq_node (gs_sq (e_getname e))));
        if negb (rc =? 0) then Ret (NsExit 1)
        else if negb (o_foreground o) && negb (e_fork e =? 0) then Ret (NsExit 0)
        else
          match waiter_add_fd waiter_create (e_sock e) (e_ticket e) (e_pollset e) with
          | (_, None) => Fault
          | (w, Some id) =>
              let w := MkWaiter (on_ticket id (waiter_ticket_callback (Some 1)) (w_tickets w)) (w_pollset w) (w_count w) in
              '(w, st, ended) ← ns_loop inputs w st;
              Ret (if (ended : bool) then NsEnded st (ns_shutdown st) else NsServing w st)
          end
  end.

(** ** Every packet is handled *)

(** The packets [poll] announces. *)
Definition delivered (inputs : list ns_input) : list reception :=
  omap (fun i => match i_poll i with (rc, true :: _) => if 0 <? rc then Some (i_rx i) else None | _ => None end) inputs.

(** Handling packets one after the other until the socket is closed. *)
Fixpoint ns_handles (rxs : list reception) (st : ns_state) : outcome (ns_state * bool) :=
  if sock st <? 0 then Ret (st, true)
  else match rxs with [] => Ret (st, false) | rx :: rxs' => '(_, st) ← ctrl_port_fn rx st; ns_handles rxs' st end.

(** The waiter of the name server: one ticket, cleared, with room to poll. *)
Definition ns_waiter (id s : Z) (w : waiter) : Prop :=
  w_tickets w = [MkTicket id WATCH_TYPE_FD s (Some 1) 0 0] /\ exists ps, w_pollset w = Some ps /\ 1 <= ps_room ps.

Lemma ns_waits id s w now1 now2 rc revents :
  ns_waiter id s w ->
  exists w' ms, ns_waiter id s w'
    /\ waiter_wait ns_callback w now1 now2 (rc, revents)
       = Ret (w', match revents with true :: _ => if 0 <? rc then [(1, id)] else [] | _ => [] end, ms).
Proof.
  intros (Ht & ps & Hps & Hroom). unfold waiter_wait. rewrite Hps, Ht. cbn [gather t_type t_val]. unfold pollset_add_fd, pollset_reset. cbn [ps_room ps_fds ps_cause length].
  destruct (Z.leb_spec (ps_room ps) (Z.of_nat 0)); [lia|]. cbn [mbind outcome_bind app]. unfold poll_ms. rewrite Z.eqb_refl. cbn [pollset_wait].
  assert (forall c, ns_waiter id s (MkWaiter [MkTicket id WATCH_TYPE_FD s (Some 1) 0 0] (Some (MkPollset (ps_room ps) [s] c)) (w_count w))) as Hw by (intros c; split; [done|by eexists]).
  destruct (Z.leb_spec rc 0) as [Hrc|Hrc].
  - destruct (Z.ltb_spec 0 rc); [lia|]. assert (match revents with true :: _ => [] | _ => [] end = @nil (Z * Z)) as -> by (by destruct revents as [|[]]).
    destruct (Z.ltb_spec rc 0); [eexists _, _; split; [apply Hw|done]|]. assert (rc = 0) as -> by lia.
    cbn [fmap list_fmap notify_ticket refresh t_type fst snd concat app Z.eqb negb andb]. eexists _, _. split; [apply Hw|done].
  - destruct (Z.ltb_spec rc 0); [lia|]. destruct (Z.ltb_spec 0 rc); [|lia]. cbn [fmap list_fmap].
    unfold notify_ticket, refresh. cbn [t_type t_val t_updated]. destruct (Z.eqb_spec rc 0); [lia|]. cbn [negb andb].
    unfold pollset_cause_fd. cbn [ps_cause ps_fds length]. destruct revents as [|[] revents]; cbn [find_cause].
    + eexists _, _. split; [apply Hw|done].
    + cbn [Z.leb Z.to_nat]. rewrite bool_decide_eq_true_2 by done. cbn [andb Z.eqb set_updated t_fn]. eexists _, _. split; [apply Hw|done].
    + eexists _, _. split; [apply Hw|]. by destruct revents.
Qed.

Lemma ns_loop_handles id s inputs : forall w st st' b,
  ns_waiter id s w -> ns_handles (delivered inputs) st = Ret (st', b) -> exists w', ns_loop inputs w st = Ret (w', st', b).
Proof.
  induction inputs as [|i inputs IH]; intros w st st' b Hw Hh.
  { cbn [ns_loop delivered omap list_omap ns_handles] in *. destruct (sock st <? 0); simplify_eq; by eexists. }
  cbn [ns_loop]. destruct (sock st <? 0) eqn:Hs; [destruct (delivered (i :: inputs)); cbn [ns_handles] in Hh; rewrite Hs in Hh; simplify_eq; by eexists|].
  destruct (i_poll i) as [rc revents] eqn:Hp. destruct (ns_waits id s w (i_now1 i) (i_now2 i) rc revents Hw) as (w1 & ms & Hw1 & ->). cbn [mbind outcome_bind].
  unfold delivered in Hh. cbn [omap list_omap] in Hh. rewrite Hp in Hh.
  assert (ns_handles (delivered inputs) st = Ret (st', b) -> exists w', ns_loop inputs w1 st = Ret (w', st', b)) as Hskip by (by apply IH).
  destruct revents as [|[] revents]; [by apply Hskip| |by apply Hskip]. destruct (0 <? rc); [|by apply Hskip].
  cbn [ns_handles] in Hh. rewrite Hs in Hh. apply outcome_bind_inv in Hh as ([[] st1] & H1 & Hh).
  assert (ns_called [(1, id)] (i_rx i) st = Ret (tt, st1)) as ->; [|by apply IH]. cbn [ns_called]. unfold mbind, ns_bind. by rewrite H1.
Qed.

Lemma ns_handles_returns rxs : forall st, ns_inv st -> Forall rx_valid rxs ->
  exists st' b, ns_handles rxs st = Ret (st', b) /\ rtc ns_step st st' /\ ns_inv st'.
Proof.
  induction rxs as [|rx rxs IH]; intros st Hinv Hok; cbn [ns_handles]; destruct (Z.ltb_spec (sock st) 0); try by eexists _, _.
  apply list.Forall_cons in Hok as [Hrx Hok]. destruct (ctrl_port_fn_inv st rx Hinv Hrx) as (st1 & H1 & Hinv1). rewrite H1. cbn [mbind outcome_bind].
  destruct (IH st1 Hinv1 Hok) as (st' & b & -> & Hr & Hinv'). eexists _, _. split; [done|]. split; [|done].
  eapply rtc_l; [|exact Hr]. by apply (ns_step_recv rx).
Qed.

End loop.

Lemma ns_ticket_added id s :
  waiter_add_fd waiter_create s (Some id) true = (MkWaiter [MkTicket id WATCH_TYPE_FD s None 0 0] (Some (pollset_create 33)) 1, Some id).
Proof.
  unfold waiter_add_fd, waiter_add_with, waiter_add_null, waiter_create, on_ticket. cbn [w_count w_tickets w_pollset app].
  change (0 mod 32 =? 0) with true. cbv iota. cbn [fmap list_fmap w_tickets w_pollset w_count t_id]. by rewrite Z.eqb_refl.
Qed.

Lemma ns_ticket_callback id s : on_ticket id (waiter_ticket_callback (Some 1)) [MkTicket id WATCH_TYPE_FD s None 0 0] = [MkTicket id WATCH_TYPE_FD s (Some 1) 0 0].
Proof. cbn. by rewrite Z.eqb_refl. Qed.

(** The address on the command line is the one that is set. *)
Lemma ns_arguments_address a opts argv1 v :
  Forall (fun c => c ∈ [102; 115; 118]) opts -> argv1 <> [] -> 0 <= v < UINT_MAX ->
  exists o, ns_arguments a opts argv1 [sprintf_d v] = Some (o, qrtr_set_address a v).
Proof.
  intros Ho Ha Hv. unfold ns_arguments. assert (forall o, exists o', ns_getopt opts o = Some o') as Hopt.
  { induction Ho as [|c opts Hc _ IH]; intros o; [by eexists|]. cbn [ns_getopt]. rewrite !elem_of_cons in Hc.
    destruct Hc as [->|[->|[->|Hc]]]; [apply IH..|]. by apply not_elem_of_nil in Hc. }
  destruct (Hopt (MkNsOptions false false false)) as [o ->]. exists o. unfold ns_address.
  destruct (strtoul_sprintf v) as [-> _]; [unfold ULONG_MAX, UINT_MAX in *; lia|].
  rewrite (bool_decide_eq_false_2 (argv1 = [])), (bool_decide_eq_true_2 ([] = [])) by done. destruct (Z.leb_spec UINT_MAX v); [lia|]. cbn [negb orb].
  rewrite u32_small by (unfold UINT_MAX in *; lia). by destruct (qrtr_set_address a v).
Qed.

(** C8: qrtr-ns handles every packet.  Once its arguments are accepted and the control
    port is its own, whatever packets arrive and however waits are interrupted or end
    early, [main] neither crashes nor hangs, and its state is that of running
    the handler on each packet [poll] announced, in order, until the socket
    fails; no packet is lost in the waiter.  The state is one the theorems on the handlers
    speak of; and when the socket has failed [main] ends and releases the servers. *)
Theorem ns_serves_every_packet `{Env} a e opts argv1 operands o ar id st0 inputs :
  ns_arguments a opts argv1 operands = Some (o, ar) -> (ar = AddrSame \/ exists m, ar = AddrSent m 0) ->
  e_waiter e = true -> 0 <= e_sock e -> 0 <= gs_rc (e_getname e) -> 0 <= e_bind e -> e_ticket e = Some id -> e_pollset e = true ->
  o_foreground o = true \/ e_fork e = 0 ->
  say_hello (ns_init (e_sock e) (sq_node (gs_sq (e_getname e)))) = Ret (0, st0) -> Forall rx_valid (delivered inputs) ->
  exists st ended w,
    ns_handles (delivered inputs) st0 = Ret (st, ended)
    /\ ns_reachable (e_sock e) (sq_node (gs_sq (e_getname e))) st /\ ns_inv st
    /\ ns_main a e opts argv1 operands inputs = Ret (if ended then NsEnded st (ns_shutdown st) else NsServing w st).
Proof.
  intros Hargs Har Hw Hs Hg Hb Hid Hps Hfg Hhello Hrx.
  assert (forall st, rtc ns_step st0 st -> ns_reachable (e_sock e) (sq_node (gs_sq (e_getname e))) st) as Hreach.
  { intros st Hst. by exists 0, st0. }
  destruct (ns_handles_returns (delivered inputs) st0) as (st & ended & Hh & Hr & Hinv); [by apply (ns_reachable_inv _ _ _ (Hreach st0 (rtc_refl _ _)))|done|].
  set (w := MkWaiter [MkTicket id WATCH_TYPE_FD (e_sock e) (Some 1) 0 0] (Some (pollset_create 33)) 1).
  destruct (ns_loop_handles id (e_sock e) inputs w st0 st ended) as (w' & Hl); [split; [done|by exists (pollset_create 33)]|done|].
  exists st, ended, w'. split_and!; [done|by apply Hreach|done|]. unfold ns_main. rewrite Hargs.
  assert (negb (o_foreground o) && negb (e_fork e =? 0) = false) as Hfork by (destruct Hfg as [-> | ->]; [done|by rewrite andb_false_r]).
  destruct Har as [->|[m ->]]; cbn [negb Z.eqb]; rewrite Hw; cbn [negb]; (destruct (Z.ltb_spec (e_sock e) 0); [lia|]); (destruct (Z.ltb_spec (gs_rc (e_getname e)) 0); [lia|]);
    (destruct (Z.ltb_spec (e_bind e) 0); [lia|]); rewrite Hhello; cbn [mbind outcome_bind Z.eqb negb]; rewrite Hfork, Hid, Hps, ns_ticket_added; cbn [w_tickets w_pollset w_count];
    rewrite ns_ticket_callback; fold w; by rewrite Hl.
Qed.

(** A packet between an interrupted wait and the end of the socket, in the background. *)
Definition demo_ns_env : ns_env := MkNsEnv true 3 (MkSockname 0 (MkSq AF_QIPCRTR 1 0) sizeof_sockaddr_qrtr) 0 0 0 (Some 4096) true.

Definition demo_rx (len : Z) : reception :=
  MkRx len (ctrl_pkt_bytes (MkPkt QRTR_TYPE_NEW_SERVER 4096 1 1 17) ++ replicate 4076 0) (MkSq AF_QIPCRTR 1 17).

Definition demo_waits : list ns_input :=
  [MkNsInput 0 5 (-1, []) (demo_rx 0); MkNsInput 5 9 (1, [true]) (demo_rx 20); MkNsInput 9 9 (1, [true]) (demo_rx (-1)); MkNsInput 9 9 (1, [true]) (demo_rx 20)].

Lemma demo_rx_valid len : len <= 4096 -> rx_valid (demo_rx len).
Proof.
  intros Hl. split_and!; [reflexivity| |done|by vm_compute|by vm_compute]. unfold demo_rx. cbn [rx_buf].
  apply Forall_app. split; [repeat constructor; by vm_compute|apply Forall_replicate; by vm_compute].
Qed.

Definition demo_hello : event := EvSend (MkSq AF_QIPCRTR QRTR_NODE_BCAST QRTR_PORT_CTRL) (ctrl_pkt_bytes (MkPkt QRTR_TYPE_HELLO 0 0 0 0)).

Lemma ns_serves_every_packet_witness :
  exists st ended w,
    @ns_handles demo_env (delivered demo_waits) (add_trace (ns_init 3 1) [demo_hello]) = Ret (st, ended)
    /\ @ns_reachable demo_env 3 1 st /\ ns_inv st
    /\ @ns_main demo_env demo_addr_env demo_ns_env [115] (bytes_of_string "-s") [bytes_of_string "1"] demo_waits
       = Ret (if ended then NsEnded st (ns_shutdown st) else NsServing w st).
Proof.
  apply (@ns_serves_every_packet demo_env demo_addr_env demo_ns_env [115] (bytes_of_string "-s") [bytes_of_string "1"]
    (MkNsOptions false true false) (AddrSent (addr_request 1) 0) 4096 (add_trace (ns_init 3 1) [demo_hello]) demo_waits).
  - vm_compute. reflexivity.
  - right. by eexists.
  - reflexivity.
  - vm_compute. discriminate.
  - vm_compute. discriminate.
  - vm_compute. discriminate.
  - reflexivity.
  - reflexivity.
  - by right.
  - vm_compute. reflexivity.
  - change (delivered demo_waits) with [demo_rx 20; demo_rx (-1); demo_rx 20]. do 3 (constructor; [by apply demo_rx_valid|]). constructor.
Defined.

(** An empty operand is taken for address 0 when an option stands before it. *)
Example empty_address_accepted :
  ns_arguments demo_addr_env [102] (bytes_of_string "-f") [[]] = Some (MkNsOptions true false false, AddrSent (addr_request 0) 0).
Proof. vm_compute. reflexivity. Qed.
