(* ===== verification/Fds.v ===== *)
(** * File descriptors

    The descriptors a process has open, as the set of their numbers: opening adds
    one that was not in use, closing takes one out.  What the kernel answers is
    the class [KernelFds]. *)

From Stdlib Require Import ZArith Lia.
From stdpp Require Import base gmap list numbers sets.
From S2P Require Import Prelude.

(** The kernel hands out descriptors that are not in use. *)
Class KernelFds : Type := MkKernelFds
  { new_fd : gset Z -> Z;
    new_fd_fresh : forall fds, new_fd fds ∉ fds;
    new_fd_nonneg : forall fds, 0 <= new_fd fds }.

Section fds.
Context `{KF : KernelFds}.

Definition open_fd (ok : bool) (fds : gset Z) : gset Z * Z := if ok then ({[ new_fd fds ]} ∪ fds, new_fd fds) else (fds, -1).

(** Closing what is not open is an error that nobody looks at. *)
Definition close_fd (fds : gset Z) (fd : Z) : gset Z := fds ∖ {[ fd ]}.

Lemma open_close fds fd X : fd ∉ fds -> fd ∉ X -> close_fd (X ∪ ({[ fd ]} ∪ fds)) fd = X ∪ fds.
Proof. unfold close_fd. set_solver. Qed.

Lemma close_twice fds fd : close_fd (close_fd fds fd) fd = close_fd fds fd.
Proof. unfold close_fd. set_solver. Qed.

End fds.

(** ** A kernel that counts on *)

Lemma max_bound (l : list Z) x : x ∈ l -> x <= foldr Z.max 0 l.
Proof. induction l as [|y l IH]; [by intros ?%elem_of_nil|]. intros [->|Hx]%elem_of_cons; cbn; [lia|]. specialize (IH Hx). lia. Qed.

Lemma max_nonneg (l : list Z) : 0 <= foldr Z.max 0 l.
Proof. induction l; cbn; lia. Qed.

Definition next_fd (fds : gset Z) : Z := 1 + foldr Z.max 0 (elements fds).

Lemma next_fd_fresh fds : next_fd fds ∉ fds.
Proof. intros Hin. unfold next_fd in Hin. apply elem_of_elements, max_bound in Hin. lia. Qed.

Lemma next_fd_nonneg fds : 0 <= next_fd fds.
Proof. unfold next_fd. pose proof (max_nonneg (elements fds)). lia. Qed.

Definition counting_kernel : KernelFds := MkKernelFds next_fd next_fd_fresh next_fd_nonneg.
