(* ===== verification/Rproc.v ===== *)
(** * Control of the modem from rmtfs (src/qcom/rmtfs/rproc.c)

    The search for the control file of the modem in sysfs, with the descriptors
    the process has open, and the two helper threads that write to it. *)

From Stdlib Require Import ZArith Lia.
From stdpp Require Import base gmap list numbers strings sets.
From S2P Require Import Prelude Fds.

(** ** What sysfs holds *)

(** An entry of a directory remoteproc: whether it is a directory that can be
    opened, and whether its file state can. *)
Record rproc_entry : Type := MkRprocEntry { re_name : string; re_dir : bool; re_state : bool }.

(** An entry of the directory of the driver: whether it can be opened, and its
    directory remoteproc, when that can: whether [fdopendir] has memory, and the
    entries. *)
Record device_entry : Type := MkDevice { de_name : string; de_dir : bool; de_remoteproc : option (bool * list rproc_entry) }.

Definition is_dot (name : string) : bool := bool_decide (name = ".") || bool_decide (name = "..").

(** [rproc_state_fd] and [rproc_pipe]. *)
Record rproc : Type := MkRproc { rproc_state_fd : Z; rproc_pipe : Z * Z }.

Section rproc.
Context `{KF : KernelFds}.

(** ** Finding the control file *)

(** The inner loop: the descriptors and [rproc_state_fd]. *)
Fixpoint rproc_entries (es : list rproc_entry) (fds : gset Z) (state_fd : Z) : gset Z * Z :=
  if state_fd <? 0 then
    match es with
    | [] => (fds, state_fd)
    | e :: es' =>
        if is_dot (re_name e) then rproc_entries es' fds state_fd
        else
          let '(fds, rproc_fd) := open_fd (re_dir e) fds in
          if rproc_fd <? 0 then rproc_entries es' fds state_fd
          else
            let '(fds, state_fd) := open_fd (re_state e) fds in
            rproc_entries es' (close_fd fds rproc_fd) state_fd
    end
  else (fds, state_fd).

(** The outer loop.  [closedir] closes the descriptor of the directory, [close]
    then does so again; without memory for the directory it reads through NULL. *)
Fixpoint rproc_devices (ds : list device_entry) (fds : gset Z) (state_fd : Z) : outcome (gset Z * Z) :=
  if state_fd <? 0 then
    match ds with
    | [] => Ret (fds, state_fd)
    | d :: ds' =>
        if is_dot (de_name d) then rproc_devices ds' fds state_fd
        else
          let '(fds, device_fd) := open_fd (de_dir d) fds in
          if device_fd <? 0 then rproc_devices ds' fds state_fd
          else
            let '(fds, rproc_base_fd) := open_fd (bool_decide (is_Some (de_remoteproc d))) fds in
            if rproc_base_fd <? 0 then rproc_devices ds' (close_fd fds device_fd) state_fd
            else
              match de_remoteproc d with
              | Some (true, es) =>
                  let '(fds, state_fd) := rproc_entries es fds state_fd in
                  let fds := close_fd fds rproc_base_fd in
                  let fds := close_fd fds rproc_base_fd in
                  rproc_devices ds' (close_fd fds device_fd) state_fd
              | _ => Fault
              end
    end
  else Ret (fds, state_fd).

(** [base] and [base_dir] tell whether the directory of the driver can be opened
    and read, [piped] whether there is a pipe.  The result is the descriptors, the
    control and what is returned: the end of the pipe to read, or -1. *)
Definition rproc_init (base base_dir piped : bool) (ds : list device_entry) (fds : gset Z) (old : rproc) : outcome (gset Z * rproc * Z) :=
  let '(fds, base_fd) := open_fd base fds in
  if base_fd <? 0 then Ret (fds, MkRproc (-1) (rproc_pipe old), -1)
  else if negb base_dir then Ret (close_fd fds base_fd, MkRproc (-1) (rproc_pipe old), -1)
  else
    '(fds, state_fd) ← rproc_devices ds fds (-1);
    let fds := close_fd fds base_fd in
    let fds := close_fd fds base_fd in
    if state_fd <? 0 then Ret (fds, MkRproc state_fd (rproc_pipe old), -1)
    else if negb piped then Ret (close_fd fds state_fd, MkRproc state_fd (rproc_pipe old), -1)
    else
      let '(fds, rd) := open_fd true fds in
      let '(fds, wr) := open_fd true fds in
      Ret (fds, MkRproc state_fd (rd, wr), rd).

(** ** What is found *)

Definition entry_has_state (e : rproc_entry) : bool := negb (is_dot (re_name e)) && re_dir e && re_state e.
Definition device_has_state (d : device_entry) : bool :=
  negb (is_dot (de_name d)) && de_dir d
  && match de_remoteproc d with Some (_, es) => existsb entry_has_state es | None => false end.

(** [fdopendir] has memory for every directory remoteproc. *)
Definition device_readable (d : device_entry) : Prop := match de_remoteproc d with Some (ok, _) => ok = true | None => True end.

(** A search leaves nothing open but the control file, which it finds when there
    is one. *)
Definition searched (found : bool) (fds fds' : gset Z) (state_fd : Z) : Prop :=
  if found then 0 <= state_fd /\ state_fd ∉ fds /\ fds' = {[ state_fd ]} ∪ fds else state_fd = -1 /\ fds' = fds.

Lemma rproc_entries_spec es : forall fds,
  searched (existsb entry_has_state es) fds (rproc_entries es fds (-1)).1 (rproc_entries es fds (-1)).2.
Proof.
  induction es as [|e es IH]; intros fds; cbn [rproc_entries existsb]; [done|]. change (-1 <? 0) with true. cbv iota.
  unfold entry_has_state at 1. destruct (is_dot (re_name e)); cbn [negb andb orb]; [apply IH|].
  destruct (re_dir e); cbn [open_fd andb orb]; [|apply IH]. pose proof (new_fd_nonneg fds) as H0. pose proof (new_fd_fresh fds) as Hf.
  destruct (Z.ltb_spec (new_fd fds) 0); [lia|]. set (d := new_fd fds) in *. destruct (re_state e); cbn [open_fd orb].
  - pose proof (new_fd_nonneg ({[d]} ∪ fds)) as H1. pose proof (new_fd_fresh ({[d]} ∪ fds)) as Hf1. set (s := new_fd ({[d]} ∪ fds)) in *.
    assert (rproc_entries es (close_fd ({[s]} ∪ ({[d]} ∪ fds)) d) s = (close_fd ({[s]} ∪ ({[d]} ∪ fds)) d, s)) as ->.
    { destruct es; cbn [rproc_entries]; destruct (Z.ltb_spec s 0); done || lia. }
    cbn. split_and!; [done|set_solver|]. apply open_close; set_solver.
  - rewrite <- (union_empty_l_L ({[d]} ∪ fds)), open_close, union_empty_l_L by set_solver. apply IH.
Qed.

(** A search ends where it finds the file. *)
Lemma rproc_devices_found ds fds s : 0 <= s -> rproc_devices ds fds s = Ret (fds, s).
Proof. intros. destruct ds; cbn [rproc_devices]; destruct (Z.ltb_spec s 0); done || lia. Qed.

Lemma rproc_devices_spec ds : forall fds, Forall device_readable ds ->
  exists fds' s, rproc_devices ds fds (-1) = Ret (fds', s) /\ searched (existsb device_has_state ds) fds fds' s.
Proof.
  induction ds as [|d ds IH]; intros fds Hr; cbn [rproc_devices existsb]; [by eexists _, _|]. change (-1 <? 0) with true. cbv iota.
  apply list.Forall_cons in Hr as [Hd Hr]. unfold device_has_state at 1. destruct (is_dot (de_name d)); cbn [negb andb orb]; [by apply IH|].
  destruct (de_dir d); cbn [open_fd andb orb]; [|by apply IH]. pose proof (new_fd_nonneg fds) as H0. pose proof (new_fd_fresh fds) as Hf.
  destruct (Z.ltb_spec (new_fd fds) 0); [lia|]. set (dev := new_fd fds) in *. unfold device_readable in Hd.
  assert (forall X : gset Z, dev ∉ X -> close_fd (X ∪ ({[dev]} ∪ fds)) dev = X ∪ fds) as Hclose by (intros X HX; by apply open_close).
  destruct (de_remoteproc d) as [[ok es]|]; cbn [open_fd].
  2:{ rewrite bool_decide_eq_false_2 by (by intros [? ?]). cbn [open_fd]. change (-1 <? 0) with true. cbv iota.
      rewrite <- (union_empty_l_L ({[dev]} ∪ fds)), Hclose, union_empty_l_L by set_solver. by apply IH. }
  subst ok. rewrite bool_decide_eq_true_2 by done. cbn [open_fd].
  pose proof (new_fd_nonneg ({[dev]} ∪ fds)) as H1. pose proof (new_fd_fresh ({[dev]} ∪ fds)) as Hf1. set (rb := new_fd ({[dev]} ∪ fds)) in *.
  destruct (Z.ltb_spec rb 0); [lia|]. pose proof (rproc_entries_spec es ({[rb]} ∪ ({[dev]} ∪ fds))) as Hs.
  destruct (rproc_entries es _ (-1)) as [fds1 s]. cbn [fst snd] in Hs. rewrite close_twice.
  destruct (existsb entry_has_state es); cbn [orb]; destruct Hs as (Hs0 & Hs).
  - destruct Hs as [Hs1 ->]. eexists _, s. rewrite rproc_devices_found by done. split; [done|]. split_and!; [done|set_solver|].
    rewrite open_close by set_solver. by rewrite Hclose by set_solver.
  - subst s fds1. rewrite <- (union_empty_l_L ({[rb]} ∪ _)), open_close by set_solver. rewrite Hclose, union_empty_l_L by set_solver. by apply IH.
Qed.

(** Setting the control up leaks no descriptor.  Whatever the directories of
    sysfs hold, as long as there is memory to read them, either the control file
    of the modem is found, and exactly it and the two ends of the pipe are opened in
    addition to what was, or -1 is returned and the same descriptors are open as
    before; the file is found exactly when a device has one that can be opened.
    Closing directories twice closes nothing else. *)
Theorem rproc_init_descriptors base base_dir piped ds fds old :
  Forall device_readable ds ->
  exists fds' rp ret, rproc_init base base_dir piped ds fds old = Ret (fds', rp, ret)
    /\ if base && base_dir && existsb device_has_state ds && piped
       then 0 <= ret /\ (rproc_pipe rp).1 = ret
            /\ exists wr, (rproc_pipe rp).2 = wr /\ NoDup [rproc_state_fd rp; ret; wr]
               /\ fds' = {[ wr ]} ∪ ({[ ret ]} ∪ ({[ rproc_state_fd rp ]} ∪ fds)) /\ {[ rproc_state_fd rp; ret; wr ]} ## fds
       else ret = -1 /\ fds' = fds.
Proof.
  intros Hr. unfold rproc_init. destruct base; cbn [open_fd andb]; [|by eexists _, _, _].
  pose proof (new_fd_nonneg fds) as H0. pose proof (new_fd_fresh fds) as Hf. set (b := new_fd fds) in *. destruct (Z.ltb_spec b 0); [lia|].
  assert (forall X : gset Z, b ∉ X -> close_fd (X ∪ ({[b]} ∪ fds)) b = X ∪ fds) as Hclose by (intros X HX; by apply open_close).
  assert (close_fd ({[b]} ∪ fds) b = fds) as Hclose0 by (rewrite <- (union_empty_l_L ({[b]} ∪ fds)), Hclose, union_empty_l_L by set_solver; done).
  destruct base_dir; cbn [negb andb]; [|eexists _, _, _; by rewrite Hclose0].
  destruct (rproc_devices_spec ds ({[b]} ∪ fds) Hr) as (fds1 & s & -> & Hs). cbn [mbind outcome_bind]. rewrite close_twice.
  destruct (existsb device_has_state ds); cbn [andb]; destruct Hs as (Hs0 & Hs).
  2:{ subst s fds1. change (-1 <? 0) with true. eexists _, _, _. by rewrite Hclose0. }
  destruct Hs as [Hs1 ->]. destruct (Z.ltb_spec s 0); [lia|]. rewrite Hclose by set_solver.
  destruct piped; cbn [negb open_fd]; [|eexists _, _, _; split; [done|]; split; [done|]; unfold close_fd; set_solver].
  set (rd := new_fd ({[s]} ∪ fds)). set (wr := new_fd ({[rd]} ∪ ({[s]} ∪ fds))).
  pose proof (new_fd_fresh ({[s]} ∪ fds)) as Hrd. pose proof (new_fd_fresh ({[rd]} ∪ ({[s]} ∪ fds))) as Hwr. fold rd in Hrd. fold wr in Hwr.
  eexists _, _, rd. split; [done|]. cbn [rproc_pipe rproc_state_fd fst snd]. split_and!; [apply new_fd_nonneg|done|].
  exists wr. split_and!; [done| |done|set_solver].
  repeat (apply NoDup_cons; split; [set_solver|]). apply NoDup_nil_2.
Qed.

End rproc.

(** A driver with two devices, the second with a control file. *)
Definition demo_devices : list device_entry :=
  [MkDevice "." true None; MkDevice "bind" false None; MkDevice "other" true (Some (true, []));
   MkDevice "4080000.remoteproc" true (Some (true, [MkRprocEntry ".." true true; MkRprocEntry "remoteproc0" true true]))].

Lemma rproc_init_descriptors_witness :
  exists fds' rp ret, @rproc_init counting_kernel true true true demo_devices {[ 0; 1; 2 ]} (MkRproc 0 (0, 0)) = Ret (fds', rp, ret)
    /\ 0 <= ret /\ (rproc_pipe rp).1 = ret
    /\ exists wr, (rproc_pipe rp).2 = wr /\ NoDup [rproc_state_fd rp; ret; wr]
       /\ fds' = {[ wr ]} ∪ ({[ ret ]} ∪ ({[ rproc_state_fd rp ]} ∪ {[ 0; 1; 2 ]})) /\ {[ rproc_state_fd rp; ret; wr ]} ## ({[ 0; 1; 2 ]} : gset Z).
Proof.
  exact (@rproc_init_descriptors counting_kernel true true true demo_devices {[ 0; 1; 2 ]} (MkRproc 0 (0, 0)) ltac:(repeat constructor)).
Defined.
