(* ===== verification/MemOpen.v ===== *)
(** * Opening the shared memory of rmtfs (src/qcom/rmtfs/sharedmem.c)

    How the region is found and reached: through the character device of the
    kernel driver, through uio, or through /dev/mem with the region from the
    device tree.  The source has two versions of the first two, one for Android and one
    with libudev for other systems.  An answer of the system that can fail is
    [None] when it succeeds and [Some errno] when it does not. *)

From Stdlib Require Import ZArith Lia.
From stdpp Require Import base gmap list numbers strings sets.
From S2P Require Import Prelude CLib Fds SharedMem.

Definition ERANGE : Z := 34.

(** The fields of [struct rmtfs_mem] while it is filled in; [mf_base] is the
    memory mapped. *)
Record mem_fields : Type := MkFields { mf_address : Z; mf_size : Z; mf_base : option (list Z); mf_fd : Z }.

(** The structure the accesses use, [d] being what the descriptor leads to. *)
Definition mem_of_fields {D} (m : mem_fields) (d : D) : rmtfs_mem D := MkMem (mf_address m) (mf_size m) (mf_base m) d.

Definition set_fd (fd : Z) (m : mem_fields) : mem_fields := MkFields (mf_address m) (mf_size m) (mf_base m) fd.
Definition set_address (v : option Z) (m : mem_fields) : mem_fields := MkFields (default (mf_address m) v) (mf_size m) (mf_base m) (mf_fd m).
Definition set_size (v : option Z) (m : mem_fields) : mem_fields := MkFields (mf_address m) (default (mf_size m) v) (mf_base m) (mf_fd m).

(** ** Numbers in sysfs *)

(** [strtoull] in base 16: the value, whether nothing was read, and [errno]. *)
Definition strtoull16 (errno : Z) (s : list Z) : Z * bool * Z :=
  let '(val, endptr, erange) := strtoul 16 s in (val, bool_decide (endptr = s), if (erange : bool) then ERANGE else errno).

(** The result and the value when it is set; [buf] is what libudev gives. *)
Definition parse_hex_sysattr (buf : option (list Z)) : Z * option Z :=
  match buf with
  | None => (- ENOENT, None)
  | Some buf =>
      let '(val, none, errno) := strtoull16 0 buf in
      if ((val =? ULONG_MAX) && (errno =? ERANGE)) || none then (- errno, None) else (0, Some val)
  end.

Section open.
Context `{KF : KernelFds}.

Definition is_ok (e : option Z) : bool := match e with None => true | Some _ => false end.

(** ** With libudev *)

(** What the calls answer: open, fstat, udev_new and udev_device_new_from_devnum,
    and the attributes of the device. *)
Record udev_env : Type := MkUdev
  { ue_open : option Z; ue_fstat : option Z; ue_new : option Z; ue_device : option Z; ue_address : option (list Z); ue_size : option (list Z) }.

(** What rfsa and uio have in common: the descriptors, the fields and the
    result.  When [fstat] fails the descriptor is closed twice. *)
Definition open_by_udev (e : udev_env) (fds : gset Z) (m : mem_fields) : gset Z * mem_fields * Z :=
  let '(fds, fd) := open_fd (is_ok (ue_open e)) fds in
  match ue_open e, ue_fstat e, ue_new e, ue_device e with
  | Some errno, _, _, _ => (fds, m, - errno)
  | None, Some errno, _, _ => (close_fd (close_fd fds fd) fd, set_fd fd m, - errno)
  | None, None, Some errno, _ => (close_fd fds fd, set_fd fd m, - errno)
  | None, None, None, Some errno => (close_fd fds fd, set_fd fd m, - errno)
  | None, None, None, None =>
      let '(ret, v) := parse_hex_sysattr (ue_address e) in
      let m := set_address v (set_fd fd m) in
      if ret <? 0 then (close_fd fds fd, m, ret)
      else
        let '(ret, v) := parse_hex_sysattr (ue_size e) in
        let m := set_size v m in
        if ret <? 0 then (close_fd fds fd, m, ret) else (fds, m, 0)
  end.

Definition rmtfs_mem_open_rfsa_udev := open_by_udev.

(** [mmap] is what mapping a region of a size gives: the memory, or [errno]. *)
Definition rmtfs_mem_open_uio_udev (e : udev_env) (mmap : Z -> Z + list Z) (fds : gset Z) (m : mem_fields) : gset Z * mem_fields * Z :=
  let '(fds, m, ret) := open_by_udev e fds m in
  if ret <? 0 then (fds, m, ret)
  else
    match mmap (mf_size m) with
    | inl errno => (close_fd fds (mf_fd m), m, - errno)
    | inr base => (fds, MkFields (mf_address m) (mf_size m) (Some base) (mf_fd m), 0)
    end.

(** ** On Android *)

(** A file of sysfs: opening it, what [read] puts into the buffer, and [errno]
    when [read] fails. *)
Record sysfs_file : Type := MkSysfs { sf_open : option Z; sf_read : list Z; sf_errno : option Z }.

Record android_env : Type := MkAndroid { an_device : option Z; an_address : sysfs_file; an_size : sysfs_file; an_junk : list Z }.

(** The buffer after [read]; the rest is what it held. *)
Definition overlay (bs buf : list Z) : list Z := bs ++ drop (length bs) buf.

(** [strtoull] of a buffer: a number that runs to its end reads on behind it. *)
Definition strtoull16_buffer (errno : Z) (val : list Z) : outcome (Z * bool * Z) :=
  let s := until_nul val in
  let '(_, endptr, _) := strtoul 16 s in
  if bool_decide (s = val) && bool_decide (endptr = []) then Fault else Ret (strtoull16 errno s).

(** One of the two files: the buffer and [errno] afterwards, the value, and the
    result.  The value is stored before it is looked at; a failed conversion returns
    [-errno], which is 0 when nothing else has failed. *)
Definition read_sysfs (f : sysfs_file) (fds : gset Z) (errno : Z) (val : list Z) : outcome (gset Z * Z * list Z * option Z * Z) :=
  let '(fds, fd) := open_fd (is_ok (sf_open f)) fds in
  match sf_open f with
  | Some e => Ret (fds, e, val, None, - e)
  | None =>
      let val := overlay (sf_read f) val in
      let errno := default errno (sf_errno f) in
      '(v, none, errno) ← strtoull16_buffer errno val;
      if ((v =? ULONG_MAX) && (errno =? ERANGE)) || none then Ret (close_fd fds fd, errno, val, Some v, - errno)
      else Ret (close_fd fds fd, errno, val, Some v, 1)
  end.

(** The result of [read_sysfs] is 1 where the function goes on. *)
Definition rmtfs_mem_open_rfsa (e : android_env) (fds : gset Z) (m : mem_fields) : outcome (gset Z * mem_fields * Z) :=
  let '(fds, fd) := open_fd (is_ok (an_device e)) fds in
  let m := set_fd fd m in
  match an_device e with
  | Some errno => Ret (fds, m, - errno)
  | None =>
      '(fds, errno, val, v, ret) ← read_sysfs (an_address e) fds 0 (an_junk e);
      let m := set_address v m in
      if negb (ret =? 1) then Ret (fds, m, ret)
      else
        '(fds, errno, val, v, ret) ← read_sysfs (an_size e) fds errno val;
        let m := set_size v m in
        if negb (ret =? 1) then Ret (fds, m, ret) else Ret (fds, m, 0)
  end.

Definition rmtfs_mem_open_uio (fds : gset Z) (m : mem_fields) : gset Z * mem_fields * Z := (fds, m, - EINVAL).

(** ** In the device tree *)

Fixpoint be_val (bs : list Z) (acc : Z) : Z :=
  match bs with [] => acc | b :: bs' => be_val bs' (256 * acc + b) end.

(** The property reg, [n] bytes of it read: address and size. *)
Definition rmtfs_mem_reg (reg : list Z) (n : Z) : option (Z * Z) :=
  if n =? 8 then Some (be_val (take 4 reg) 0, be_val (take 4 (drop 4 reg)) 0)
  else if n =? 16 then Some (be_val (take 8 reg) 0, be_val (take 8 (drop 8 reg)) 0)
  else None.

(** An entry of the directory: its name, whether it and its reg can be opened, what
    [read] returns, and the bytes. *)
Record dt_entry : Type := MkDt { dt_name : list Z; dt_dir : bool; dt_regfile : bool; dt_n : Z; dt_reg : list Z }.

Definition is_rmtfs (name : list Z) : bool := bool_decide (take 5 name = bytes_of_string "rmtfs").

(** The loop of [rmtfs_mem_enumerate]: the first entry whose name starts with
    rmtfs decides.  When its reg cannot be opened the directory stays open. *)
Fixpoint enumerate_loop (entries : list dt_entry) (fds : gset Z) (m : mem_fields) : gset Z * mem_fields * Z :=
  match entries with
  | [] => (fds, m, 0)
  | de :: entries' =>
      if negb (is_rmtfs (dt_name de)) then enumerate_loop entries' fds m
      else
        let '(fds, dirfd) := open_fd (dt_dir de) fds in
        if dirfd <? 0 then (fds, m, -1)
        else
          let '(fds, regfd) := open_fd (dt_regfile de) fds in
          if regfd <? 0 then (fds, m, -1)
          else
            let fds := close_fd (close_fd fds regfd) dirfd in
            match rmtfs_mem_reg (dt_reg de) (dt_n de) with
            | Some (a, s) => (fds, MkFields a s (mf_base m) (mf_fd m), 0)
            | None => (fds, m, -1)
            end
  end.

(** [base] tells whether the directory can be opened, [dir] whether [fdopendir]
    has memory for it. *)
Definition rmtfs_mem_enumerate (base dir : bool) (entries : list dt_entry) (fds : gset Z) (m : mem_fields) : gset Z * mem_fields * Z :=
  let '(fds, basefd) := open_fd base fds in
  if negb (base && dir) then (close_fd fds basefd, m, -1)
  else
    let '(fds, m, ret) := enumerate_loop entries fds m in
    (close_fd (close_fd fds basefd) basefd, m, ret).

(** ** Opening and closing *)

(** What is asked of the system on either kind of build. *)
Inductive build : Type :=
| Android (e : android_env)
| Other (rfsa uio : udev_env) (uio_mmap : Z -> Z + list Z).

Definition open_rfsa (b : build) (fds : gset Z) (m : mem_fields) : outcome (gset Z * mem_fields * Z) :=
  match b with Android e => rmtfs_mem_open_rfsa e fds m | Other e _ _ => Ret (rmtfs_mem_open_rfsa_udev e fds m) end.

Definition open_uio (b : build) (fds : gset Z) (m : mem_fields) : gset Z * mem_fields * Z :=
  match b with Android _ => rmtfs_mem_open_uio fds m | Other _ e mmap => rmtfs_mem_open_uio_udev e mmap fds m end.

(** The device tree and /dev/mem: whether it can be opened, and what mapping a
    region of a size at an address gives. *)
Record devmem_env : Type := MkDevmem
  { dm_base : bool; dm_dir : bool; dm_entries : list dt_entry; dm_open : bool; dm_mmap : Z -> Z -> option (list Z) }.

(** The descriptors, and the structure unless NULL is returned. *)
Definition rmtfs_mem_open (mem : bool) (b : build) (d : devmem_env) (fds : gset Z) : outcome (gset Z * option mem_fields) :=
  if negb mem then Ret (fds, None)
  else
    '(fds, m, ret) ← open_rfsa b fds (MkFields 0 0 None 0);
    if (ret <? 0) && negb (ret =? - ENOENT) then Ret (fds, None)
    else if 0 <=? ret then Ret (fds, Some m)
    else
      let '(fds, m, ret) := open_uio b fds m in
      if (ret <? 0) && negb (ret =? - ENOENT) then Ret (fds, None)
      else if 0 <=? ret then Ret (fds, Some m)
      else
        let '(fds, m, ret) := rmtfs_mem_enumerate (dm_base d) (dm_dir d) (dm_entries d) fds m in
        if ret <? 0 then Ret (fds, None)
        else
          let '(fds, fd) := open_fd (dm_open d) fds in
          if fd <? 0 then Ret (fds, None)
          else
            match dm_mmap d (mf_size m) (mf_address m) with
            | None => Ret (close_fd fds fd, None)
            | Some base => Ret (fds, Some (MkFields (mf_address m) (mf_size m) (Some base) fd))
            end.

(** The memory mapped is gone with the structure. *)
Definition rmtfs_mem_close (fds : gset Z) (m : mem_fields) : gset Z := close_fd fds (mf_fd m).

(** ** Descriptors *)

(** An answer that fails has a reason. *)
Definition errno_ok (e : option Z) : Prop := match e with Some errno => 0 < errno | None => True end.

Record udev_ok (e : udev_env) : Prop := MkUdevOk
  { uo_open : errno_ok (ue_open e); uo_fstat : errno_ok (ue_fstat e); uo_new : errno_ok (ue_new e); uo_device : errno_ok (ue_device e) }.

(** The buffer on the stack has a NUL behind what the files put into it. *)
Definition terminated (e : android_env) : Prop :=
  exists n, (length (sf_read (an_address e)) <= n)%nat /\ (length (sf_read (an_size e)) <= n)%nat /\ an_junk e !! n = Some 0.

Definition build_ok (b : build) : Prop :=
  match b with
  | Android e => errno_ok (an_device e) /\ terminated e
  | Other rfsa uio mmap => udev_ok rfsa /\ udev_ok uio /\ forall n e, mmap n = inl e -> 0 < e
  end.

(** An attempt either opens the one descriptor the structure holds, or leaves those
    that were open and at most one more. *)
Definition attempted (fds fds' : gset Z) (m : mem_fields) (ret : Z) : Prop :=
  (0 <= ret /\ mf_fd m ∉ fds /\ fds' = {[ mf_fd m ]} ∪ fds) \/ (ret < 0 /\ exists X, (size X <= 1)%nat /\ fds' = X ∪ fds).

(** A failure that leaves nothing open. *)
Definition clean (fds fds' : gset Z) (m : mem_fields) (ret : Z) : Prop :=
  (0 <= ret /\ mf_fd m ∉ fds /\ fds' = {[ mf_fd m ]} ∪ fds) \/ (ret < 0 /\ fds' = fds).

Lemma clean_attempted fds fds' m ret : clean fds fds' m ret -> attempted fds fds' m ret.
Proof. intros [?|[? ->]]; [by left|right]. split; [done|]. exists ∅. rewrite size_empty. split; [lia|set_solver]. Qed.

Lemma parse_hex_sysattr_nonpos buf : (parse_hex_sysattr buf).1 <= 0.
Proof.
  unfold parse_hex_sysattr, strtoull16. destruct buf as [buf|]; [|done]. destruct (strtoul 16 buf) as [[v e] []].
  - destruct (_ || _); done.
  - destruct (_ || _); done.
Qed.

Lemma new_fd_closed fds : close_fd ({[ new_fd fds ]} ∪ fds) (new_fd fds) = fds.
Proof. pose proof (new_fd_fresh fds). unfold close_fd. set_solver. Qed.

Lemma open_by_udev_clean e fds m fds' m' ret :
  udev_ok e -> open_by_udev e fds m = (fds', m', ret) -> clean fds fds' m' ret /\ mf_base m' = mf_base m.
Proof.
  intros [H1 H2 H3 H4] He. unfold open_by_udev in He. pose proof (new_fd_fresh fds) as Hf.
  destruct (ue_open e) as [e1|]; cbn [is_ok open_fd] in He; [simplify_eq; split; [right; split; [cbn in H1; lia|done]|done]|].
  destruct (ue_fstat e) as [e2|]; [simplify_eq; rewrite close_twice, new_fd_closed; split; [right; split; [cbn in H2; lia|done]|done]|].
  destruct (ue_new e) as [e3|]; [simplify_eq; rewrite new_fd_closed; split; [right; split; [cbn in H3; lia|done]|done]|].
  destruct (ue_device e) as [e4|]; [simplify_eq; rewrite new_fd_closed; split; [right; split; [cbn in H4; lia|done]|done]|].
  destruct (parse_hex_sysattr (ue_address e)) as [r1 v1]. destruct (Z.ltb_spec r1 0); [simplify_eq; rewrite new_fd_closed; split; [by right|done]|].
  destruct (parse_hex_sysattr (ue_size e)) as [r2 v2]. destruct (Z.ltb_spec r2 0); simplify_eq; [rewrite new_fd_closed; split; [by right|done]|].
  split; [by left|done].
Qed.

Lemma open_uio_udev_clean e mmap fds m fds' m' ret :
  udev_ok e -> (forall n x, mmap n = inl x -> 0 < x) -> rmtfs_mem_open_uio_udev e mmap fds m = (fds', m', ret) -> clean fds fds' m' ret.
Proof.
  intros He Hm Hu. unfold rmtfs_mem_open_uio_udev in Hu. destruct (open_by_udev e fds m) as [[fds1 m1] r1] eqn:Ho.
  destruct (open_by_udev_clean _ _ _ _ _ _ He Ho) as [[(H0 & Hn & ->)|[H0 ->]] _].
  - destruct (Z.ltb_spec r1 0); [lia|]. destruct (mmap (mf_size m1)) as [x|b] eqn:Hx; simplify_eq; [|by left].
    right. apply Hm in Hx. split; [lia|]. unfold close_fd. set_solver.
  - destruct (Z.ltb_spec r1 0); [|lia]. simplify_eq. by right.
Qed.

Lemma overlay_behind bs buf n : (length bs <= n)%nat -> overlay bs buf !! n = buf !! n.
Proof. intros Hn. unfold overlay. rewrite lookup_app_r by done. rewrite lookup_drop. f_equal. lia. Qed.

Lemma until_nul_shorter bs n : bs !! n = Some 0 -> until_nul bs <> bs.
Proof.
  revert n. induction bs as [|b bs IH]; intros [|n] Hn; cbn in Hn; simplify_eq; [done|]. cbn [until_nul].
  destruct (Z.eqb_spec b 0); [done|]. intros [=]. by apply (IH n).
Qed.

(** With a NUL in the buffer the conversion ends in it, and the NUL stays. *)
Lemma read_sysfs_returns f fds errno val n :
  (length (sf_read f) <= n)%nat -> val !! n = Some 0 ->
  exists fds' errno' val' v ret, read_sysfs f fds errno val = Ret (fds', errno', val', v, ret) /\ val' !! n = Some 0.
Proof.
  intros Hn Hv. unfold read_sysfs. destruct (sf_open f); cbn [is_ok open_fd]; [by eexists _, _, _, _, _|].
  rewrite <- (overlay_behind (sf_read f)) in Hv by done. unfold strtoull16_buffer.
  rewrite (bool_decide_eq_false_2 (until_nul _ = _)) by (by eapply until_nul_shorter).
  destruct (strtoul 16 _) as [[w en] er]. cbn [andb mbind outcome_bind].
  destruct (strtoull16 _ _) as [[w' none] errno']. destruct (_ || _); by eexists _, _, _, _, _.
Qed.

Lemma open_rfsa_returns b fds m : build_ok b -> exists res, open_rfsa b fds m = Ret res.
Proof.
  destruct b as [e|]; [|by eexists]. intros [_ (n & H1 & H2 & Hj)]. cbn [open_rfsa]. unfold rmtfs_mem_open_rfsa.
  destruct (an_device e); cbn [is_ok open_fd]; [by eexists|].
  destruct (read_sysfs_returns (an_address e) ({[new_fd fds]} ∪ fds) 0 (an_junk e) n H1 Hj) as (fds1 & en1 & val1 & v1 & r1 & -> & Hj1).
  cbn [mbind outcome_bind]. destruct (negb (r1 =? 1)); [by eexists|].
  destruct (read_sysfs_returns (an_size e) fds1 en1 val1 n H2 Hj1) as (fds2 & en2 & val2 & v2 & r2 & -> & _).
  cbn [mbind outcome_bind]. destruct (negb (r2 =? 1)); by eexists.
Qed.

Lemma mem_open_returns mem b d fds : build_ok b -> exists fds' res, rmtfs_mem_open mem b d fds = Ret (fds', res).
Proof.
  intros Hb. unfold rmtfs_mem_open. destruct mem; cbn [negb]; [|by eexists _, _].
  destruct (open_rfsa_returns b fds (MkFields 0 0 None 0) Hb) as [[[fds1 m1] r1] ->]. cbn [mbind outcome_bind].
  repeat (case_match; try (by eexists _, _)).
Qed.

Lemma read_sysfs_fds f fds errno val fds' errno' val' v ret :
  read_sysfs f fds errno val = Ret (fds', errno', val', v, ret) -> fds' = fds.
Proof.
  unfold read_sysfs. destruct (sf_open f); cbn [is_ok open_fd]; intros He; [by simplify_eq|].
  apply outcome_bind_inv in He as ([[w none] en] & _ & He). destruct (_ || _); simplify_eq; apply new_fd_closed.
Qed.

Lemma open_rfsa_android e fds m fds' m' ret :
  errno_ok (an_device e) -> rmtfs_mem_open_rfsa e fds m = Ret (fds', m', ret) ->
  attempted fds fds' m' ret /\ mf_base m' = mf_base m.
Proof.
  intros Hd He. unfold rmtfs_mem_open_rfsa in He. pose proof (new_fd_fresh fds) as Hf.
  destruct (an_device e) as [e1|]; cbn [is_ok open_fd] in He.
  { simplify_eq. split; [|done]. apply clean_attempted. right. cbn in Hd. split; [lia|done]. }
  assert (forall m1 r, mf_fd m1 = new_fd fds -> attempted fds ({[new_fd fds]} ∪ fds) m1 r) as Hatt.
  { intros m1 r Hm. destruct (Z.lt_ge_cases r 0); [right|left; rewrite Hm; done]. split; [done|]. exists {[new_fd fds]}. rewrite size_singleton. split; [lia|done]. }
  apply outcome_bind_inv in He as ([[[[fds1 en1] val1] v1] r1] & Hr1 & He). apply read_sysfs_fds in Hr1 as ->.
  destruct (negb (r1 =? 1)); [simplify_eq; split; [by apply Hatt|done]|].
  apply outcome_bind_inv in He as ([[[[fds2 en2] val2] v2] r2] & Hr2 & He). apply read_sysfs_fds in Hr2 as ->.
  destruct (negb (r2 =? 1)); simplify_eq; (split; [by apply Hatt|done]).
Qed.

(** What is left open by a search, apart from what was. *)
Definition left_open (fds fds' : gset Z) (ret : Z) : Prop :=
  exists X, (size X <= 1)%nat /\ X ## fds /\ fds' = X ∪ fds /\ (0 <= ret -> X = ∅).

Lemma left_nothing fds ret : left_open fds fds ret.
Proof. exists ∅. rewrite size_empty. split_and!; [lia|set_solver|set_solver|done]. Qed.

Lemma enumerate_loop_fds entries : forall fds m fds' m' ret,
  enumerate_loop entries fds m = (fds', m', ret) -> left_open fds fds' ret.
Proof.
  induction entries as [|de entries IH]; intros fds m fds' m' ret He; cbn [enumerate_loop] in He; [simplify_eq; apply left_nothing|].
  destruct (is_rmtfs (dt_name de)); cbn [negb] in He; [|by eapply IH].
  destruct (dt_dir de); cbn [open_fd] in He; [|change (-1 <? 0) with true in He; cbv iota in He; simplify_eq; apply left_nothing].
  pose proof (new_fd_fresh fds) as Hf. destruct (Z.ltb_spec (new_fd fds) 0) as [H0|_]; [pose proof (new_fd_nonneg fds); lia|].
  set (d := new_fd fds) in *. destruct (dt_regfile de); cbn [open_fd] in He.
  - pose proof (new_fd_fresh ({[d]} ∪ fds)) as Hf1. pose proof (new_fd_nonneg ({[d]} ∪ fds)). set (r := new_fd ({[d]} ∪ fds)) in *.
    destruct (Z.ltb_spec r 0); [lia|].
    assert (close_fd (close_fd ({[r]} ∪ ({[d]} ∪ fds)) r) d = fds) as Hc by (unfold close_fd; set_solver). rewrite Hc in He.
    destruct (rmtfs_mem_reg _ _) as [[a sz]|]; simplify_eq; apply left_nothing.
  - change (-1 <? 0) with true in He. cbv iota in He. simplify_eq. exists {[d]}. rewrite size_singleton. split_and!; [lia|set_solver|done|lia].
Qed.

Lemma enumerate_fds base dir entries fds m fds' m' ret :
  -1 ∉ fds -> rmtfs_mem_enumerate base dir entries fds m = (fds', m', ret) -> left_open fds fds' ret.
Proof.
  intros Hneg He. unfold rmtfs_mem_enumerate in He. pose proof (new_fd_fresh fds) as Hf. destruct base; cbn [open_fd andb negb] in He.
  - destruct dir; cbn [negb] in He; [|simplify_eq; rewrite new_fd_closed; apply left_nothing].
    destruct (enumerate_loop entries _ m) as [[fds1 m1] r1] eqn:Hl. apply enumerate_loop_fds in Hl as (X & HX & Hd & -> & H0).
    simplify_eq. rewrite close_twice, open_close by set_solver. exists X. split_and!; [done|set_solver|done|done].
  - simplify_eq. replace (close_fd fds (-1)) with fds by (unfold close_fd; set_solver). apply left_nothing.
Qed.

(** How [rmtfs_mem_open] ends. *)
Definition opened (fds fds' : gset Z) (res : option mem_fields) : Prop :=
  match res with
  | Some m => mf_fd m ∉ fds /\ fds' = {[ mf_fd m ]} ∪ fds
  | None => exists X, (size X <= 1)%nat /\ fds' = X ∪ fds
  end.

Lemma opened_none fds fds' ret : left_open fds fds' ret -> opened fds fds' None.
Proof. intros (X & HX & _ & -> & _). by exists X. Qed.

(** The fall back to /dev/mem. *)
Lemma devmem_opened (d : devmem_env) fds m fds' res :
  -1 ∉ fds ->
  (let '(fds, m, ret) := rmtfs_mem_enumerate (dm_base d) (dm_dir d) (dm_entries d) fds m in
   if ret <? 0 then @Ret (gset Z * option mem_fields) (fds, None)
   else
     let '(fds, fd) := open_fd (dm_open d) fds in
     if fd <? 0 then Ret (fds, None)
     else
       match dm_mmap d (mf_size m) (mf_address m) with
       | None => Ret (close_fd fds fd, None)
       | Some base => Ret (fds, Some (MkFields (mf_address m) (mf_size m) (Some base) fd))
       end) = Ret (fds', res) ->
  opened fds fds' res.
Proof.
  intros Hneg He. destruct (rmtfs_mem_enumerate _ _ _ fds m) as [[fds1 m1] r1] eqn:Hen. pose proof (enumerate_fds _ _ _ _ _ _ _ _ Hneg Hen) as Hl.
  destruct (Z.ltb_spec r1 0); [simplify_eq; by eapply opened_none|]. destruct Hl as (X & _ & _ & -> & H0). rewrite (H0 ltac:(lia)), union_empty_l_L in He.
  pose proof (new_fd_fresh fds) as Hf. pose proof (new_fd_nonneg fds). destruct (dm_open d); cbn [open_fd] in He.
  - destruct (Z.ltb_spec (new_fd fds) 0); [lia|]. destruct (dm_mmap d _ _) as [base|]; simplify_eq; [done|].
    rewrite new_fd_closed. apply (opened_none _ _ 0), left_nothing.
  - change (-1 <? 0) with true in He. cbv iota in He. simplify_eq. apply (opened_none _ _ 0), left_nothing.
Qed.

Lemma mem_open_android mem e d fds fds' res :
  errno_ok (an_device e) -> rmtfs_mem_open mem (Android e) d fds = Ret (fds', res) ->
  opened fds fds' res /\ match res with Some m => mf_base m = None | None => True end.
Proof.
  intros Hd He. unfold rmtfs_mem_open in He. destruct mem; cbn [negb] in He; [|simplify_eq; split; [apply (opened_none _ _ 0), left_nothing|done]].
  apply outcome_bind_inv in He as ([[fds1 m1] r1] & Hr & He). cbn [open_rfsa open_uio rmtfs_mem_open_uio] in *.
  destruct (open_rfsa_android e fds _ fds1 m1 r1 Hd Hr) as [[(H0 & Hn & ->)|(H0 & X & HX & ->)] Hbase].
  - destruct (Z.ltb_spec r1 0); [lia|]. cbn [andb] in He. destruct (Z.leb_spec 0 r1); [|lia]. by simplify_eq.
  - destruct (Z.ltb_spec r1 0); [|lia]. destruct (Z.leb_spec 0 r1); [lia|]. cbn [andb] in He.
    change ((- EINVAL <? 0) && negb (- EINVAL =? - ENOENT)) with true in He.
    assert (fds' = X ∪ fds /\ res = None) as [-> ->] by (destruct (negb (r1 =? - ENOENT)); cbv iota in He; by simplify_eq). split; [by exists X|done].
Qed.

Lemma mem_open_other mem rfsa uio mm d fds fds' res :
  udev_ok rfsa -> udev_ok uio -> (forall n e, mm n = inl e -> 0 < e) -> -1 ∉ fds ->
  rmtfs_mem_open mem (Other rfsa uio mm) d fds = Ret (fds', res) -> opened fds fds' res.
Proof.
  intros Hr Hu Hm Hneg He. unfold rmtfs_mem_open in He.
  assert (opened fds fds None) as Hsame by (apply (opened_none _ _ 0), left_nothing).
  destruct mem; cbn [negb] in He; [|by simplify_eq]. cbn [open_rfsa open_uio mbind outcome_bind] in He.
  destruct (rmtfs_mem_open_rfsa_udev rfsa fds _) as [[fds1 m1] r1] eqn:E1. destruct (open_by_udev_clean _ _ _ _ _ _ Hr E1) as [[(H0 & Hn & ->)|[H0 ->]] _].
  { destruct (Z.ltb_spec r1 0); [lia|]. cbn [andb] in He. destruct (Z.leb_spec 0 r1); [|lia]. by simplify_eq. }
  destruct ((r1 <? 0) && negb (r1 =? - ENOENT)); [by simplify_eq|]. destruct (Z.leb_spec 0 r1); [lia|].
  destruct (rmtfs_mem_open_uio_udev uio mm fds m1) as [[fds2 m2] r2] eqn:E2. destruct (open_uio_udev_clean _ _ _ _ _ _ _ Hu Hm E2) as [(H2 & Hn & ->)|[H2 ->]].
  { destruct (Z.ltb_spec r2 0); [lia|]. cbn [andb] in He. destruct (Z.leb_spec 0 r2); [|lia]. by simplify_eq. }
  destruct ((r2 <? 0) && negb (r2 =? - ENOENT)); [by simplify_eq|]. destruct (Z.leb_spec 0 r2); [lia|]. by eapply devmem_opened.
Qed.

(** C39: Opening the shared memory leaves at most one descriptor behind.  Whatever
    the system answers, on either build and through whichever of the three ways the
    region is found, [rmtfs_mem_open] returns: when it is opened, exactly the descriptor the structure
    holds is open in addition, and closing the memory closes it again; when it is
    not, everything that was open still is, and at most one descriptor more.
    (It is the device on Android, when a file of sysfs cannot be read, or the
    node of the device tree.)  On Android the memory is never mapped. *)
Theorem mem_open_descriptors mem b d fds :
  build_ok b -> -1 ∉ fds ->
  exists fds' res, rmtfs_mem_open mem b d fds = Ret (fds', res) /\
  match res with
  | Some m => mf_fd m ∉ fds /\ fds' = {[ mf_fd m ]} ∪ fds /\ rmtfs_mem_close fds' m = fds
              /\ match b with Android _ => mf_base m = None | Other _ _ _ => True end
  | None => exists X, (size X <= 1)%nat /\ fds' = X ∪ fds
  end.
Proof.
  intros Hb Hneg. destruct (mem_open_returns mem b d fds Hb) as (fds' & res & He). exists fds', res. split; [done|].
  assert (opened fds fds' res /\ match res, b with Some m, Android _ => mf_base m = None | _, _ => True end) as [Ho Hbase].
  { destruct b as [e|rfsa uio mm].
    - destruct (mem_open_android mem e d fds fds' res (proj1 Hb) He) as [Ho Hm]. by destruct res.
    - destruct Hb as (Hr & Hu & Hm). pose proof (mem_open_other mem rfsa uio mm d fds fds' res Hr Hu Hm Hneg He). by destruct res. }
  destruct res as [m|]; [|done]. destruct Ho as [Hn ->]. split_and!; [done|done| |done].
  unfold rmtfs_mem_close, close_fd. set_solver.
Qed.

(** ** The region of the driver *)

(** The number digits of base 16 denote, and how the driver writes it. *)
Definition hex_number (ds : list Z) : Z := foldl (fun a d => a * 16 + digit_value d) 0 ds.
Definition hex_text (ds : list Z) : list Z := [48; 120] ++ ds ++ [10].
Definition is_hex (ds : list Z) : Prop := ds <> [] /\ Forall (fun d => digit_value d < 16) ds /\ hex_number ds <= ULONG_MAX.

Lemma read_digits_run base c r ds : forall any acc,
  Forall (fun d => digit_value d < base) ds -> base <= digit_value c ->
  read_digits base any acc (ds ++ c :: r) = (any || negb (bool_decide (ds = [])), foldl (fun a d => a * base + digit_value d) acc ds, c :: r).
Proof.
  induction ds as [|d ds IH]; intros any acc Hds Hc; cbn [app read_digits foldl].
  - destruct (Z.ltb_spec (digit_value c) base); [lia|]. by rewrite orb_false_r.
  - apply list.Forall_cons in Hds as [Hd Hds]. destruct (Z.ltb_spec (digit_value d) base); [|lia]. rewrite IH by done. cbn. by rewrite orb_true_r.
Qed.

(** [strtoull] reads it, whatever follows. *)
Lemma strtoul_hex ds r : is_hex ds -> strtoul 16 (hex_text ds ++ r) = (hex_number ds, 10 :: r, false).
Proof.
  intros (Hne & Hds & Hmax). destruct ds as [|d ds]; [done|]. pose proof Hds as Hd. apply list.Forall_cons in Hd as [Hd _].
  assert (number_base 16 (hex_text (d :: ds) ++ r) = (16, (d :: ds) ++ 10 :: r)) as Hnb.
  { unfold number_base, hex_text. cbn [app hex_prefix Z.eqb Pos.eqb orb andb]. destruct (Z.ltb_spec (digit_value d) 16); [|lia].
    cbn. by rewrite <- app_assoc. }
  unfold strtoul. change (skip_space (hex_text (d :: ds) ++ r)) with (hex_text (d :: ds) ++ r).
  change (hex_text (d :: ds) ++ r) with (48 :: (120 :: (d :: ds) ++ [10]) ++ r) at 1. cbv beta iota. change (48 =? c_minus) with false.
  change (48 =? 43) with false. cbv iota. rewrite Hnb, read_digits_run by (done || (vm_compute; congruence)).
  rewrite bool_decide_eq_false_2 by done. cbn [orb negb]. fold (hex_number (d :: ds)). destruct (Z.ltb_spec ULONG_MAX (hex_number (d :: ds))); [lia|done].
Qed.

Lemma until_nul_app a b : Forall (fun c => c <> 0) a -> until_nul (a ++ b) = a ++ until_nul b.
Proof.
  induction 1 as [|c a Hc Ha IH]; [done|]. cbn [app until_nul]. destruct (Z.eqb_spec c 0); [done|]. by rewrite IH.
Qed.

Lemma hex_text_no_nul ds : Forall (fun d => digit_value d < 16) ds -> Forall (fun c => c <> 0) (hex_text ds).
Proof.
  intros Hds. unfold hex_text. apply Forall_app_2; [by repeat constructor|]. apply Forall_app_2; [|by repeat constructor].
  eapply Forall_impl; [exact Hds|]. intros d Hd ->. vm_compute in Hd. congruence.
Qed.

(** A file of the driver gives its number and closes again. *)
Lemma read_sysfs_hex ds fds errno val :
  is_hex ds -> errno <> ERANGE ->
  exists val', read_sysfs (MkSysfs None (hex_text ds) None) fds errno val = Ret (fds, errno, val', Some (hex_number ds), 1).
Proof.
  intros Hds He. pose proof Hds as (_ & Hd & _). eexists. unfold read_sysfs. cbn [is_ok open_fd sf_open sf_read sf_errno default].
  unfold strtoull16_buffer, overlay, strtoull16. rewrite until_nul_app by (by apply hex_text_no_nul). rewrite strtoul_hex by done.
  rewrite (bool_decide_eq_false_2 (10 :: _ = [])) by done. rewrite andb_false_r. cbn [mbind outcome_bind].
  rewrite bool_decide_eq_false_2.
  - destruct (Z.eqb_spec errno ERANGE); [done|]. rewrite andb_false_r. cbn [orb]. by rewrite new_fd_closed.
  - intros Heq. apply (f_equal length) in Heq. unfold hex_text in Heq. rewrite !length_app in Heq. cbn [length] in Heq. lia.
Qed.

(** C40: On Android the region of the driver is found.  With the device there and
    its address and size in sysfs as the driver writes them, in hexadecimal of any
    length, [rmtfs_mem_open] gives exactly that region behind the descriptor of
    the device, whatever the buffer held before; the two files are closed again. *)
Theorem android_region_found ds1 ds2 junk d fds :
  is_hex ds1 -> is_hex ds2 ->
  rmtfs_mem_open true (Android (MkAndroid None (MkSysfs None (hex_text ds1) None) (MkSysfs None (hex_text ds2) None) junk)) d fds
  = Ret ({[ new_fd fds ]} ∪ fds, Some (MkFields (hex_number ds1) (hex_number ds2) None (new_fd fds))).
Proof.
  intros H1 H2. unfold rmtfs_mem_open. cbn [negb open_rfsa]. unfold rmtfs_mem_open_rfsa. cbn [an_device an_address an_size an_junk is_ok open_fd].
  destruct (read_sysfs_hex ds1 ({[new_fd fds]} ∪ fds) 0 junk H1) as [v1 ->]; [done|]. cbn [mbind outcome_bind].
  destruct (read_sysfs_hex ds2 ({[new_fd fds]} ∪ fds) 0 v1 H2) as [v2 ->]; [done|]. reflexivity.
Qed.

End open.

(** ** Examples *)

(** The region at 0x85e00000 of two megabytes. *)
Definition demo_region : build :=
  Android (MkAndroid None (MkSysfs None (hex_text (bytes_of_string "85e00000")) None) (MkSysfs None (hex_text (bytes_of_string "200000")) None) []).

(** The same with a stack that was all zero. *)
Definition demo_terminated : build :=
  Android (MkAndroid None (MkSysfs None (hex_text (bytes_of_string "85e00000")) None) (MkSysfs None (hex_text (bytes_of_string "200000")) None) (replicate 64 0)).

Definition no_devmem : devmem_env := MkDevmem false false [] false (fun _ _ => None).

Lemma android_region_found_witness :
  @rmtfs_mem_open counting_kernel true demo_region no_devmem {[ 0; 1; 2 ]} = Ret ({[ 3 ]} ∪ {[ 0; 1; 2 ]}, Some (MkFields 2246049792 2097152 None 3)).
Proof.
  refine (@android_region_found counting_kernel (bytes_of_string "85e00000") (bytes_of_string "200000") [] no_devmem {[ 0; 1; 2 ]} _ _);
    (split; [done|split; [repeat constructor|vm_compute; congruence]]).
Defined.

Lemma mem_open_descriptors_witness :
  exists fds' res, @rmtfs_mem_open counting_kernel true demo_terminated no_devmem {[ 0; 1; 2 ]} = Ret (fds', res) /\
  match res with
  | Some m => mf_fd m ∉ ({[ 0; 1; 2 ]} : gset Z) /\ fds' = {[ mf_fd m ]} ∪ {[ 0; 1; 2 ]} /\ rmtfs_mem_close fds' m = {[ 0; 1; 2 ]} /\ mf_base m = None
  | None => exists X : gset Z, (size X <= 1)%nat /\ fds' = X ∪ {[ 0; 1; 2 ]}
  end.
Proof.
  apply (@mem_open_descriptors counting_kernel true demo_terminated no_devmem {[ 0; 1; 2 ]}); [|set_solver].
  split; [done|]. exists 20%nat. split_and!; [vm_compute; lia|vm_compute; lia|reflexivity].
Defined.

(** An address that is no number is taken for success: the memory is opened with
    address and size 0. *)
Example malformed_address_accepted :
  @rmtfs_mem_open counting_kernel true
    (Android (MkAndroid None (MkSysfs None (bytes_of_string "none" ++ [10]) None) (MkSysfs None (hex_text [50]) None) [])) no_devmem {[ 0; 1; 2 ]}
  = Ret ({[ 3 ]} ∪ {[ 0; 1; 2 ]}, Some (MkFields 0 0 None 3)).
Proof. vm_compute. reflexivity. Qed.

(** Without the files of sysfs the device stays open. *)
Example missing_sysfs_leaks :
  @rmtfs_mem_open counting_kernel true (Android (MkAndroid None (MkSysfs (Some ENOENT) [] None) (MkSysfs None [] None) [])) no_devmem {[ 0; 1; 2 ]}
  = Ret ({[ 3 ]} ∪ {[ 0; 1; 2 ]}, None).
Proof. vm_compute. reflexivity. Qed.

(** The device tree gives the region in big-endian cells. *)
Example device_tree_region :
  @rmtfs_mem_open counting_kernel true (Other (MkUdev (Some ENOENT) None None None None None) (MkUdev (Some ENOENT) None None None None None) (fun _ => inl 1))
    (MkDevmem true true [MkDt (bytes_of_string "rmtfs@85e00000") true true 8 [133; 224; 0; 0; 0; 0; 0; 4]] true (fun n _ => Some (replicate (Z.to_nat n) 0))) {[ 0; 1; 2 ]}
  = Ret ({[ 3 ]} ∪ {[ 0; 1; 2 ]}, Some (MkFields 2246049792 4 (Some [0; 0; 0; 0]) 3)).
Proof. vm_compute. reflexivity. Qed.
