(* ===== verification/RmtfsLoop.v ===== *)
(** * The main loop of rmtfs (src/qcom/rmtfs/rmtfs.c, rproc.c)

    [run_rmtfs] serves requests until the modem has been stopped or signals
    insist; helper threads write to the control file of the modem, and signals
    come at any time.  A state is that of the whole process; a label says which part
    moves and what the kernel answers, so that a run is a list of labels. *)

From Stdlib Require Import ZArith Lia.
From stdpp Require Import base gmap list numbers relations strings.
From S2P Require Import Prelude Packet QmiCodec QmiMessages SharedMem Storage StorageProofs Rmtfs RmtfsSafety RmtfsClaims.

(** ** The loop of a single thread *)

Inductive top_action : Type := ActStop | ActLeave | ActWait.

(** What the loop does before it waits. *)
Definition loop_top (rprocfd sig_int_count : Z) (sig_int_handled : bool) : top_action :=
  if (0 <=? rprocfd) && (sig_int_count =? 1) && negb sig_int_handled then ActStop
  else if 1 <? sig_int_count then ActLeave
  else ActWait.

(** The byte the stop thread sends. *)
Definition c_Y : Z := 89.

(** A request as [handle_rmtfs] finds it: the locals, the result of [recvfrom],
    [errno], the buffer and the sender. *)
Record request : Type := MkReq { rq_stack : stack; rq_ret : Z; rq_errno : Z; rq_buf : list Z; rq_sq : sockaddr_qrtr }.

(** Opening the socket and publishing the service; the socket stays open when
    publishing fails. *)
Definition run_setup (sock rc_opt rc_bind : Z) (g : sockname) (rc : Z) : Z * list syscall * bool :=
  let '(rmtfs_fd, calls) := qrtr_open RMTFS_QMI_SERVICE sock rc_opt rc_bind in
  if rmtfs_fd <? 0 then (rmtfs_fd, calls, false)
  else
    let '(ret, calls') := qrtr_publish RMTFS_QMI_SERVICE RMTFS_QMI_VERSION RMTFS_QMI_INSTANCE g rc in
    if ret <? 0 then (ret, calls ++ calls', false) else (rmtfs_fd, calls ++ calls', true).

(** What the kernel answers to these calls. *)
Record setup : Type := MkSetup { su_sock : Z; su_rc_opt : Z; su_rc_bind : Z; su_name : sockname; su_rc : Z }.

Definition setup_result (su : setup) : Z * list syscall * bool := run_setup (su_sock su) (su_rc_opt su) (su_rc_bind su) (su_name su) (su_rc su).

(** ** The process *)

Inductive pc : Type := Top | Select | Gone.

(** [do_rproc_start] before its write, [do_rproc_stop] before its first and its
    second, and a thread that has ended. *)
Inductive thread : Type := StartBegin | StopBegin | StopTried | ThreadDone.

(** Why the loop is left: the byte of the stop thread, a second signal, an error
    of [select], a reset of the network, or [exit] of the stop thread; or that the
    socket could not be set up, so that the loop was not reached. *)
Inductive reason : Type := ByPipe | BySignals | BySelect | ByReset | ByExit | BySetup.

(** What happens; [StartFailed] and [StopFailed] are writes to the control file
    that wrote less than they should, which are only reported. *)
Inductive log : Type :=
| StartCalled | StopCalled | WroteStart | StartFailed | WroteStop | StopFailed | Signalled
| Replied (rep : reply) | Left_ (r : reason) | Restarted.

#[global] Instance reason_eq_dec : EqDecision reason.
Proof. solve_decision. Defined.
#[global] Instance log_eq_dec : EqDecision log.
Proof. solve_decision. Defined.

Record sys (W D : Type) : Type := MkSys
  { s_pc : pc; s_rprocfd : Z; s_sig : Z; s_handled : bool; s_ret : Z; s_threads : list thread; s_pipe : list Z;
    s_state : rmtfs_state W D; s_log : list log }.
Arguments MkSys {W D}.
Arguments s_pc {W D}.
Arguments s_rprocfd {W D}.
Arguments s_sig {W D}.
Arguments s_handled {W D}.
Arguments s_ret {W D}.
Arguments s_threads {W D}.
Arguments s_pipe {W D}.
Arguments s_state {W D}.
Arguments s_log {W D}.

(** Who moves: a signal arrives; the loop looks at the signals ([created] tells
    whether the stop thread could be created); [select] fails; [select] finds
    the pipe or a request ready; a thread makes a write ([ok] when it wrote what it
    should); [main] runs the service again after a reset of the network. *)
Inductive label : Type :=
| LSignal
| LTop (created : bool)
| LSelectFails (errno : Z)
| LReady (pipe : bool) (req : option request)
| LThread (i : nat) (ok : bool)
| LRestart (su : setup) (created : bool).

Section system.
Context {W D : Type} `{FW : Files W} `{MD : MemDev D}.
Implicit Type s : sys W D.

(** Changes of parts of the state. *)
Definition goes (p : pc) (ret : Z) (evs : list log) s : sys W D :=
  MkSys p (s_rprocfd s) (s_sig s) (s_handled s) ret (s_threads s) (s_pipe s) (s_state s) (s_log s ++ evs).
Definition set_pipe (pipe : list Z) s : sys W D :=
  MkSys (s_pc s) (s_rprocfd s) (s_sig s) (s_handled s) (s_ret s) (s_threads s) pipe (s_state s) (s_log s).
Definition set_threads (ts : list thread) s : sys W D :=
  MkSys (s_pc s) (s_rprocfd s) (s_sig s) (s_handled s) (s_ret s) ts (s_pipe s) (s_state s) (s_log s).
Definition set_handled (h : bool) s : sys W D :=
  MkSys (s_pc s) (s_rprocfd s) (s_sig s) h (s_ret s) (s_threads s) (s_pipe s) (s_state s) (s_log s).
Definition set_state (st : rmtfs_state W D) s : sys W D :=
  MkSys (s_pc s) (s_rprocfd s) (s_sig s) (s_handled s) (s_ret s) (s_threads s) (s_pipe s) st (s_log s).

Definition spawn (created : bool) (t : thread) : list thread := if created then [t] else [].

(** The part of a turn behind [select]: a byte from the pipe, then a request. *)
Definition serve (req : option request) s : option (sys W D) :=
  match req with
  | None => Some (goes Top (s_ret s) [] s)
  | Some q =>
      match handle_rmtfs (s_state s) (rq_stack q) (rq_ret q) (rq_errno q) (rq_buf q) (rq_sq q) with
      | Ret (st', rep, rc) =>
          let s := set_state st' s in
          if rc =? - ENETRESET then Some (goes Gone rc [Replied rep; Left_ ByReset] s)
          else Some (goes Top rc [Replied rep] s)
      | _ => None
      end
  end.

(** What a thread does next.  A failed write to the control file is only reported,
    and the stop thread goes on to wake the loop; a failed write to the pipe ends the
    process. *)
Definition thread_moves (i : nat) (t : thread) (ok : bool) s : option (sys W D) :=
  match t with
  | StartBegin => Some (goes (s_pc s) (s_ret s) [if ok then WroteStart else StartFailed] (set_threads (<[i := ThreadDone]> (s_threads s)) s))
  | StopBegin => Some (goes (s_pc s) (s_ret s) [if ok then WroteStop else StopFailed] (set_threads (<[i := StopTried]> (s_threads s)) s))
  | StopTried =>
      let s := set_threads (<[i := ThreadDone]> (s_threads s)) s in
      if ok then Some (goes (s_pc s) (s_ret s) [Signalled] (set_pipe (s_pipe s ++ [c_Y]) s)) else Some (goes Gone 0 [Left_ ByExit] s)
  | ThreadDone => None
  end.

(** [run_rmtfs] up to its loop: where the socket cannot be opened or the service not
    published it returns the error; otherwise the modem is started, when it is
    controlled. *)
Definition run_enter (su : setup) (created : bool) s : sys W D :=
  let '(ret, _, ok) := setup_result su in
  if (ok : bool)
  then goes Top 0 (if 0 <=? s_rprocfd s then [StartCalled] else [])
         (set_threads (s_threads s ++ if 0 <=? s_rprocfd s then spawn created StartBegin else []) (set_handled false s))
  else goes Gone ret [Left_ BySetup] (set_handled false s).

Definition sys_next (l : label) s : option (sys W D) :=
  match l, s_pc s with
  | LSignal, _ => Some (MkSys (s_pc s) (s_rprocfd s) (s_sig s + 1) (s_handled s) (s_ret s) (s_threads s) (s_pipe s) (s_state s) (s_log s))
  | LTop created, Top =>
      match loop_top (s_rprocfd s) (s_sig s) (s_handled s) with
      | ActStop => Some (goes Select (s_ret s) [StopCalled] (set_threads (s_threads s ++ spawn created StopBegin) (set_handled true s)))
      | ActLeave => Some (goes Gone (s_ret s) [Left_ BySignals] s)
      | ActWait => Some (goes Select (s_ret s) [] s)
      end
  | LSelectFails errno, Select => if errno =? EINTR then Some (goes Top (-1) [] s) else Some (goes Gone (-1) [Left_ BySelect] s)
  | LReady false req, Select => serve req s
  | LReady true req, Select =>
      if 0 <=? s_rprocfd s then
        match s_pipe s with
        | c :: pipe => let s := set_pipe pipe s in if c =? c_Y then Some (goes Gone 1 [Left_ ByPipe] s) else serve req (goes Select 1 [] s)
        | [] => None
        end
      else None
  | LThread i ok, _ => t ← s_threads s !! i; thread_moves i t ok s
  | LRestart su created, Gone =>
      if s_ret s =? - ENETRESET then Some (run_enter su created (goes Gone 0 [Restarted] s)) else None
  | _, _ => None
  end.

Definition sys_step s s' : Prop := exists l, sys_next l s = Some s'.

(** The process when the loop is first reached. *)
Definition sys_init (rprocfd : Z) (created : bool) (st : rmtfs_state W D) : sys W D :=
  MkSys Top rprocfd 0 false 0 (if 0 <=? rprocfd then spawn created StartBegin else []) [] st (if 0 <=? rprocfd then [StartCalled] else []).

(** The process before its first run of the service. *)
Definition sys_boot (rprocfd : Z) (st : rmtfs_state W D) : sys W D := MkSys Gone rprocfd 0 false 0 [] [] st [].

Lemma run_enter_boot su created rprocfd st :
  run_enter su created (sys_boot rprocfd st)
  = match setup_result su with
    | (_, _, true) => sys_init rprocfd created st
    | (ret, _, false) => MkSys Gone rprocfd 0 false ret [] [] st [Left_ BySetup]
    end.
Proof. unfold run_enter. by destruct (setup_result su) as [[ret calls] []]. Qed.

(** Options as [getopt] gives them; for -s, what [rproc_init] returns. *)
Inductive main_opt : Type := OptO (path : list Z) | OptP | OptR | OptS (fd : Z) | OptV | OptUnknown.

Record main_cfg : Type := MkCfg { storage_root : option (list Z); use_partitions : bool; read_only : bool; cfg_rprocfd : Z; dbgprintf_enabled : bool }.

(** The exit status, or the configuration. *)
Fixpoint main_options (opts : list main_opt) (c : main_cfg) : Z + main_cfg :=
  match opts with
  | [] => inr c
  | OptO path :: opts => main_options opts (MkCfg (Some path) (use_partitions c) (read_only c) (cfg_rprocfd c) (dbgprintf_enabled c))
  | OptP :: opts => main_options opts (MkCfg (storage_root c) true (read_only c) (cfg_rprocfd c) (dbgprintf_enabled c))
  | OptR :: opts => main_options opts (MkCfg (storage_root c) (use_partitions c) true (cfg_rprocfd c) (dbgprintf_enabled c))
  | OptS fd :: opts =>
      if fd <? 0 then inl 1 else main_options opts (MkCfg (storage_root c) (use_partitions c) (read_only c) fd (dbgprintf_enabled c))
  | OptV :: opts => main_options opts (MkCfg (storage_root c) (use_partitions c) (read_only c) (cfg_rprocfd c) true)
  | OptUnknown :: _ => inl 1
  end.

(** [main] up to the loop: [mem] is what [rmtfs_mem_open] gives, [w] the files, [su]
    what the calls that set up the socket answer.  A process that is [Gone] with
    another result than the reset of the network leaves [main]. *)
Definition rmtfs_main (opts : list main_opt) (mem : option (rmtfs_mem D)) (w : W) (su : setup) (created : bool) : Z + sys W D :=
  match main_options opts (MkCfg None false false (-1) false), mem with
  | inl status, _ => inl status
  | inr _, None => inl 1
  | inr c, Some m =>
      inr (run_enter su created (sys_boot (cfg_rprocfd c)
        (MkRs (storage_init (storage_static w) (storage_root c) (read_only c) (use_partitions c)) m (dbgprintf_enabled c))))
  end.

(** Runs of labels. *)
Fixpoint sys_run (ls : list label) s : option (sys W D) :=
  match ls with [] => Some s | l :: ls' => s' ← sys_next l s; sys_run ls' s' end.

Lemma sys_run_steps ls : forall s s', sys_run ls s = Some s' -> rtc sys_step s s'.
Proof.
  induction ls as [|l ls IH]; intros s s' Hr; cbn [sys_run] in Hr; [by simplify_eq|].
  apply bind_Some in Hr as (s1 & Hl & Hr). eapply rtc_l; [by exists l|by apply IH].
Qed.

(** ** The order of what happens *)

(** The write of stop to the control file was made, or failed. *)
Definition stop_tried (l : list log) : Prop := WroteStop ∈ l \/ StopFailed ∈ l.

Lemma stop_tried_app l evs : stop_tried l -> stop_tried (l ++ evs).
Proof. intros []; [left|right]; apply elem_of_app; by left. Qed.

(** The loop is left for the byte of the pipe only after that. *)
Definition ordered (l : list log) : Prop := forall l1 l2, l = l1 ++ Left_ ByPipe :: l2 -> stop_tried l1.

Definition count (e : log) (l : list log) : nat := length (filter (.= e) l).
#[local] Arguments count : simpl never.

Lemma ordered_snoc l e : ordered l -> (e = Left_ ByPipe -> stop_tried l) -> ordered (l ++ [e]).
Proof.
  intros Ho He l1 l2 Hl. destruct l2 as [|x l2 _] using rev_ind.
  - apply app_inj_tail in Hl as [-> ->]. by apply He.
  - rewrite app_comm_cons, app_assoc in Hl. apply app_inj_tail in Hl as [-> _]. by eapply Ho.
Qed.

Lemma count_app e l1 l2 : count e (l1 ++ l2) = (count e l1 + count e l2)%nat.
Proof. unfold count. by rewrite filter_app, length_app. Qed.

Record sys_inv s : Prop := MkSysInv
  { si_written : StopTried ∈ s_threads s -> stop_tried (s_log s);
    si_pipe : s_pipe s <> [] -> stop_tried (s_log s);
    si_ordered : ordered (s_log s);
    si_stops : (count StopCalled (s_log s) <= count Restarted (s_log s) + (if s_handled s then 1 else 0))%nat;
    si_called : StopCalled ∈ s_log s -> 0 <= s_rprocfd s /\ 1 <= s_sig s;
    si_signals : Left_ BySignals ∈ s_log s -> 2 <= s_sig s;
    si_sig : 0 <= s_sig s }.

(** Events the invariant does not speak of. *)
Definition plain (e : log) : bool :=
  match e with StopCalled | Restarted | Left_ ByPipe | Left_ BySignals => false | _ => true end.

Lemma count_no_plain e l : plain e = false -> Forall (fun x => plain x = true) l -> count e l = 0%nat.
Proof.
  intros He Hl. unfold count. induction Hl as [|x l Hx Hl IH]; [done|]. rewrite filter_cons, decide_False; [done|]. intros ->. congruence.
Qed.

Lemma ordered_plain l evs : ordered l -> Forall (fun x => plain x = true) evs -> ordered (l ++ evs).
Proof.
  intros Ho. induction evs as [|e evs IH] using rev_ind; intros He; [by rewrite app_nil_r|].
  apply Forall_app in He as [He Hx]. rewrite app_assoc. apply ordered_snoc; [by apply IH|]. intros ->. by inversion Hx.
Qed.

Lemma goes_plain p ret evs s : Forall (fun x => plain x = true) evs -> sys_inv s -> sys_inv (goes p ret evs s).
Proof.
  intros He [Hw Hp Ho Hc Hcal Hsg H0].
  assert (forall e, plain e = false -> e ∉ evs) as Hno by (intros e Hpe Hin; rewrite list.Forall_forall in He; apply He in Hin; congruence).
  split; cbn [goes s_threads s_pipe s_log s_handled s_sig s_rprocfd].
  - intros ?. by apply stop_tried_app, Hw.
  - intros ?. by apply stop_tried_app, Hp.
  - by apply ordered_plain.
  - rewrite !count_app, !(count_no_plain _ evs) by done. lia.
  - intros [?|Hin]%elem_of_app; [by apply Hcal|by apply Hno in Hin].
  - intros [?|Hin]%elem_of_app; [by apply Hsg|by apply Hno in Hin].
  - done.
Qed.

(** An event with what it must come after, and a change of the threads. *)
Lemma event_inv p ret e (h : bool) ts s :
  sys_inv s -> (StopTried ∈ ts -> stop_tried [e] \/ StopTried ∈ s_threads s) ->
  (e = Left_ ByPipe -> stop_tried (s_log s)) -> (e = Left_ BySignals -> 2 <= s_sig s) -> (e = StopCalled -> 0 <= s_rprocfd s /\ 1 <= s_sig s) ->
  (count StopCalled [e] + (if s_handled s then 1 else 0) <= count Restarted [e] + (if h then 1 else 0))%nat ->
  sys_inv (goes p ret [e] (set_threads ts (set_handled h s))).
Proof.
  intros [Hw Hp Ho Hc Hcal Hsg H0] Hts Hpipe Hsig Hcalled Hcount. split; cbn.
  - intros Hin. destruct (Hts Hin) as [[He|He]|?]; [left|right|by apply stop_tried_app, Hw]; apply elem_of_app; by right.
  - intros ?. by apply stop_tried_app, Hp.
  - by apply ordered_snoc.
  - rewrite !count_app. lia.
  - intros [?|Heq%list_elem_of_singleton]%elem_of_app; [by apply Hcal|by apply Hcalled].
  - intros [?|Heq%list_elem_of_singleton]%elem_of_app; [by apply Hsg|by apply Hsig].
  - done.
Qed.

Lemma same_parts s : set_threads (s_threads s) (set_handled (s_handled s) s) = s.
Proof. by destruct s. Qed.

(** An event of the loop alone. *)
Lemma loop_event_inv p ret e s :
  sys_inv s -> (e = Left_ ByPipe -> stop_tried (s_log s)) -> (e = Left_ BySignals -> 2 <= s_sig s) -> e <> StopCalled ->
  sys_inv (goes p ret [e] s).
Proof.
  intros Hinv Hp Hs Hne. rewrite <- (same_parts s). apply event_inv; try done; [by right|].
  assert (count StopCalled [e] = 0%nat) as -> by (unfold count; rewrite filter_cons, decide_False by done; done). lia.
Qed.

(** Changes that log nothing: threads that have not written more, another pipe,
    another state of the service. *)
Lemma quiet_inv ts pipe st s :
  sys_inv s -> (StopTried ∈ ts -> stop_tried (s_log s)) -> (pipe <> [] -> stop_tried (s_log s)) ->
  sys_inv (set_state st (set_threads ts (set_pipe pipe s))).
Proof. intros [Hw Hp Ho Hc Hcal Hsg H0] Ht Hpp. by split. Qed.

Lemma threads_inv ts s : sys_inv s -> (StopTried ∈ ts -> stop_tried (s_log s)) -> sys_inv (set_threads ts s).
Proof. intros [Hw Hp Ho Hc Hcal Hsg H0] Ht. by split. Qed.

Lemma serve_inv req s s' : serve req s = Some s' -> sys_inv s -> sys_inv s'.
Proof.
  unfold serve. intros He Hinv. destruct req as [q|]; [|simplify_eq; by apply goes_plain].
  destruct (handle_rmtfs _ _ _ _ _ _) as [[[st' rep] rc]| |]; [|done|done].
  assert (sys_inv (set_state st' s)) by (destruct Hinv; by split).
  destruct (rc =? - ENETRESET); simplify_eq; apply goes_plain; try done; repeat constructor.
Qed.

Lemma insert_thread (ts : list thread) i t x : x ∈ <[i := t]> ts -> x = t \/ x ∈ ts.
Proof.
  intros (j & Hj)%list_elem_of_lookup. destruct (decide (i = j)) as [<-|].
  - destruct (decide (i < length ts)%nat) as [Hl|Hl]; [rewrite list_lookup_insert_eq in Hj by done; simplify_eq; by left|].
    rewrite list_insert_ge in Hj by lia. right. by eapply list_elem_of_lookup_2.
  - rewrite list_lookup_insert_ne in Hj by done. right. by eapply list_elem_of_lookup_2.
Qed.

Lemma thread_moves_inv i t ok s s' : s_threads s !! i = Some t -> thread_moves i t ok s = Some s' -> sys_inv s -> sys_inv s'.
Proof.
  intros Hi He Hinv.
  assert (forall p ret e, plain e = true -> sys_inv (goes p ret [e] (set_threads (<[i := ThreadDone]> (s_threads s)) s))) as Hdone.
  { intros p ret e Hp. apply goes_plain; [by repeat constructor|]. apply threads_inv; [done|].
    intros [?|Hin]%insert_thread; [done|]. by apply Hinv. }
  destruct t; cbn [thread_moves] in He.
  - simplify_eq. apply Hdone. by destruct ok.
  - simplify_eq. pose proof (event_inv (s_pc s) (s_ret s) (if ok then WroteStop else StopFailed) (s_handled s) (<[i := StopTried]> (s_threads s)) s Hinv) as Hev.
    destruct s. apply Hev; try (by destruct ok). intros _. left. destruct ok; [left|right]; by left.
  - assert (stop_tried (s_log s)) as Hwr by (apply (si_written s Hinv); by eapply list_elem_of_lookup_2).
    destruct ok; simplify_eq; [|by apply Hdone]. apply goes_plain; [by repeat constructor|].
    apply (quiet_inv _ (s_pipe s ++ [c_Y]) (s_state s) s); done.
  - done.
Qed.

Lemma sys_next_inv l s s' : sys_next l s = Some s' -> sys_inv s -> sys_inv s'.
Proof.
  intros He Hinv. destruct l as [|created|errno|pipe req|i ok|su created]; cbn [sys_next] in He.
  - simplify_eq. destruct Hinv as [Hw Hp Ho Hc Hcal Hsg H0]. split; cbn; try done; [|intros Hin; specialize (Hsg Hin); lia|lia].
    intros Hin. specialize (Hcal Hin). lia.
  - destruct (s_pc s); try done. unfold loop_top in He.
    destruct ((0 <=? s_rprocfd s) && (s_sig s =? 1) && negb (s_handled s)) eqn:Hstop.
    + simplify_eq. apply andb_true_iff in Hstop as [Hstop Hh%negb_true_iff].
      pose proof (event_inv Select (s_ret s) StopCalled true (s_threads s ++ spawn created StopBegin) s Hinv) as Hev.
      destruct s. apply Hev; try done; [|intros _; cbn in *; lia|cbn in *; rewrite Hh; done].
      intros [Hin|Hin]%elem_of_app; [by right|]. destruct created; cbn in Hin; set_solver.
    + destruct (Z.ltb_spec 1 (s_sig s)); simplify_eq; [|by apply goes_plain]. apply loop_event_inv; try done. intros _. lia.
  - destruct (s_pc s); try done. destruct (errno =? EINTR); simplify_eq; (apply goes_plain; [repeat constructor|done]).
  - destruct pipe, (s_pc s); try done; [|by eapply serve_inv]. destruct (0 <=? s_rprocfd s); [|done].
    destruct (s_pipe s) as [|c pipe] eqn:Hpipe; [done|]. pose proof (si_pipe s Hinv ltac:(by rewrite Hpipe)) as Hwr.
    assert (sys_inv (set_pipe pipe s)) as Hinv1 by (destruct Hinv; by split).
    destruct (c =? c_Y); [|eapply serve_inv; [exact He|]; by apply goes_plain].
    simplify_eq. by apply loop_event_inv.
  - apply bind_Some in He as (t & Hi & He). by eapply thread_moves_inv.
  - destruct (s_pc s); try done. destruct (s_ret s =? - ENETRESET); [|done].
    simplify_eq. assert (sys_inv (set_handled false (goes Gone 0 [Restarted] s))) as Hr.
    { pose proof (event_inv Gone 0 Restarted false (s_threads s) s Hinv) as Hev. destruct s. apply Hev; try done; [by right|].
      change (count StopCalled [Restarted]) with 0%nat. change (count Restarted [Restarted]) with 1%nat. destruct (RmtfsLoop.s_handled _); lia. }
    unfold run_enter. destruct (setup_result su) as [[ret calls] [|]]; [|by apply goes_plain; [repeat constructor|]].
    apply goes_plain; [cbn [s_rprocfd goes]; destruct (0 <=? s_rprocfd s); repeat constructor|]. apply threads_inv; [done|].
    intros [Hin|Hin]%elem_of_app; [by apply Hr|]. destruct (0 <=? _), created; cbn in Hin; set_solver.
Qed.

Lemma reach_sys_inv rprocfd created st s : rtc sys_step (sys_init rprocfd created st) s -> sys_inv s.
Proof.
  assert (sys_inv (sys_init rprocfd created st)) as H0.
  { unfold sys_init. destruct (0 <=? rprocfd); split; cbn [s_threads s_pipe s_log s_handled s_sig s_rprocfd]; try done; try set_solver.
    - destruct created; cbn; set_solver.
    - intros [|x l1] l2 Hl; simplify_eq/=. by destruct l1.
    - intros l1 l2 Hl. by destruct l1. }
  revert H0. generalize (sys_init rprocfd created st). intros s0 H0 Hr. induction Hr as [|s0 s1 s2 [l Hl] _ IH]; [done|].
  by eapply IH, sys_next_inv.
Qed.

(** C13: The modem is told to stop before rmtfs goes.  However the loop, the
    helper threads, the signals and the requests interleave, whichever calls fail, the
    loop is left for the byte of the stop thread only after that thread has tried to write stop
    to the control file, so that stop is written unless that write failed; stopping is
    asked for only after a signal and when the modem is controlled, and at most once for
    each time the service was run; and signals alone end the loop only from the second
    one on. *)
Theorem stop_written_before_leaving rprocfd created st s :
  rtc sys_step (sys_init rprocfd created st) s ->
  (forall l1 l2, s_log s = l1 ++ Left_ ByPipe :: l2 -> StopFailed ∉ l1 -> WroteStop ∈ l1)
  /\ (StopCalled ∈ s_log s -> 0 <= s_rprocfd s /\ 1 <= s_sig s)
  /\ (count StopCalled (s_log s) <= 1 + count Restarted (s_log s))%nat
  /\ (Left_ BySignals ∈ s_log s -> 2 <= s_sig s).
Proof.
  intros Hr. destruct (reach_sys_inv _ _ _ _ Hr) as [Hw Hp Ho Hc Hcal Hsg H0]. split_and!; [|done| |done].
  - intros l1 l2 Hl Hno. by destruct (Ho _ _ Hl).
  - destruct (s_handled s); lia.
Qed.

(** The service can be ended: where it runs with the modem under control and a
    first signal has come, the stop thread can be created, make its two writes, and
    the loop be left for its byte, without a request being served or another
    signal; threads already there do not get in the way. *)
Theorem stop_can_complete s :
  s_pc s = Top -> 0 <= s_rprocfd s -> s_sig s = 1 -> s_handled s = false -> s_pipe s = [] ->
  exists s', sys_run [LTop true; LThread (length (s_threads s)) true; LThread (length (s_threads s)) true; LReady true None] s = Some s'
    /\ s_pc s' = Gone /\ s_state s' = s_state s /\ s_log s' = s_log s ++ [StopCalled; WroteStop; Signalled; Left_ ByPipe].
Proof.
  intros Hpc Hfd Hsig Hh Hpipe. destruct s as [p fd sig h ret ts pipe rs lg]. cbn in *. subst p sig h pipe.
  unfold loop_top. destruct (Z.leb_spec 0 fd); [|lia]. cbn.
  rewrite lookup_app_r, Nat.sub_diag by lia. cbn. rewrite insert_app_r_alt, Nat.sub_diag by lia. cbn.
  rewrite lookup_app_r, Nat.sub_diag by lia. cbn. destruct (Z.leb_spec 0 fd); [|lia]. cbn.
  eexists. split; [done|]. cbn. split_and!; [done|done|]. by rewrite <- !app_assoc.
Qed.

End system.

(** ** The service in the loop *)

Section service.
Context {W D : Type} `{FO : FilesOk W} `{MO : MemDevOk D}.

(** Requests of the shape the modem sends, and others that avoid the defects of the
    handlers. *)
Definition req_ok (q : request) : Prop :=
  stack_ok (rq_stack q) /\ Forall is_byte (rq_buf q) /\ length (rq_buf q) = 4096%nat /\ rq_ret q <= 4096
  /\ forall node port id, qmi_decode_header (rq_buf q) (rq_ret q) = Ret (0, Some id) -> request_ok (MkPacket node port (rq_buf q) (rq_ret q)) id.

(** Packets that are to be answered: open, close, transfer and allocation requests
    that do not come from the control port. *)
Definition wants_answer (q : request) : Prop :=
  0 <= rq_ret q /\ sq_port (rq_sq q) <> QRTR_PORT_CTRL /\ exists id, qmi_decode_header (rq_buf q) (rq_ret q) = Ret (0, Some id) /\ 1 <= id <= 4.

Definition label_ok (l : label) : Prop := match l with LReady _ (Some q) => req_ok q | _ => True end.

Definition ok_step (s s' : sys W D) : Prop := exists l, label_ok l /\ sys_next l s = Some s'.

Lemma serve_runs (s : sys W D) req :
  rs_ok (s_state s) -> (forall q, req = Some q -> req_ok q) ->
  exists s', serve req s = Some s' /\ rs_ok (s_state s').
Proof.
  intros Hok Hq. unfold serve. destruct req as [q|]; [|by eexists].
  destruct (Hq q eq_refl) as (Hs & Hb & Hl & Hr & Hreq).
  destruct (handle_rmtfs_returns (s_state s) (rq_stack q) (rq_ret q) (rq_errno q) (rq_buf q) (rq_sq q) Hok Hs Hb Hl Hr Hreq) as (st' & rep & rc & -> & Hok' & _).
  destruct (rc =? - ENETRESET); by eexists.
Qed.

Lemma thread_moves_state i t ok (s s' : sys W D) : thread_moves i t ok s = Some s' -> s_state s' = s_state s.
Proof. destruct t; cbn; intros; simplify_eq; try done; destruct ok; by simplify_eq. Qed.

Lemma ok_step_state (s s' : sys W D) : ok_step s s' -> rs_ok (s_state s) -> rs_ok (s_state s').
Proof.
  intros (l & Hl & He) Hok. destruct l as [|created|errno|pipe req|i ok|su created]; cbn [sys_next label_ok] in *.
  - by simplify_eq.
  - destruct (s_pc s); try done. destruct (loop_top _ _ _); by simplify_eq.
  - destruct (s_pc s); try done. destruct (errno =? EINTR); by simplify_eq.
  - assert (forall q, req = Some q -> req_ok q) as Hq by (intros q ->; done). destruct pipe, (s_pc s); try done.
    + destruct (0 <=? s_rprocfd s); [|done]. destruct (s_pipe s) as [|c p]; [done|]. destruct (c =? c_Y); [by simplify_eq|].
      destruct (serve_runs (goes Select 1 [] (set_pipe p s)) req Hok Hq) as (s1 & Hs & Hok1). congruence.
    + destruct (serve_runs s req Hok Hq) as (s1 & Hs & Hok1). congruence.
  - apply bind_Some in He as (t & _ & He). by rewrite (thread_moves_state _ _ _ _ _ He).
  - destruct (s_pc s); try done. destruct (_ =? _); simplify_eq. unfold run_enter. by destruct (setup_result su) as [[ret calls] []].
Qed.

(** C12: The service goes on.  From a consistent state, with the memory mapped or
    behind its device and without -v, whatever signals, threads and requests do in
    whatever order, as long as the requests are of the shape the modem sends or avoid the listed
    defects of the handlers, the storage and the memory stay consistent; and where the
    loop waits, every further such request is served: the loop takes it, sends an
    answer if it is an open, close, transfer or allocation request of a client, and is at its top again, or was left for a
    reset of the network. *)
Theorem service_goes_on rprocfd created st (s : sys W D) :
  rs_ok st -> rtc ok_step (sys_init rprocfd created st) s ->
  rs_ok (s_state s)
  /\ forall q, s_pc s = Select -> req_ok q ->
       exists s' rep, sys_next (LReady false (Some q)) s = Some s' /\ rs_ok (s_state s')
         /\ (wants_answer q -> rep <> None)
         /\ ((s_pc s' = Top /\ s_log s' = s_log s ++ [Replied rep]) \/ (s_pc s' = Gone /\ s_log s' = s_log s ++ [Replied rep; Left_ ByReset])).
Proof.
  intros Hst Hr. assert (rs_ok (s_state s)) as Hok.
  { assert (rs_ok (s_state (sys_init rprocfd created st))) as Hinit by done. revert Hinit. induction Hr as [|s0 s1 s2 Hstep _ IH]; [done|].
    intros Hs0. by apply IH, (ok_step_state s0). }
  split; [done|]. intros q Hpc Hq. cbn [sys_next]. rewrite Hpc. unfold serve. destruct Hq as (Hs & Hb & Hl & Hret & Hreq).
  destruct (handle_rmtfs_returns (s_state s) (rq_stack q) (rq_ret q) (rq_errno q) (rq_buf q) (rq_sq q) Hok Hs Hb Hl Hret Hreq) as (st' & rep & rc & -> & Hok' & Hrep).
  assert (wants_answer q -> rep <> None) as Hans by (intros (Hge & Hp & id & Hid & Hrange); by apply (Hrep id)).
  destruct (rc =? - ENETRESET); eexists _, rep; (split; [done|]); (split; [done|]); (split; [done|]); [by right|by left].
Qed.

End service.

(** ** Runs *)

(** A signal, the stop, and the end of the loop. *)
Definition demo_stop : list label := [LTop false; LThread 0 true; LSignal; LSelectFails EINTR; LTop true; LThread 1 true; LThread 1 true; LReady true None].

Definition demo_logged : list log := [StartCalled; WroteStart; StopCalled; WroteStop; Signalled; Left_ ByPipe].

Definition demo_end : sys (list Z) (list Z) := MkSys Gone 5 1 true 1 [ThreadDone; ThreadDone] [] demo_st demo_logged.

Lemma demo_end_reached : rtc sys_step (sys_init 5 true demo_st) demo_end.
Proof. apply (sys_run_steps demo_stop). reflexivity. Qed.

Lemma stop_written_before_leaving_witness :
  (forall l1 l2, demo_logged = l1 ++ Left_ ByPipe :: l2 -> StopFailed ∉ l1 -> WroteStop ∈ l1)
  /\ (StopCalled ∈ demo_logged -> 0 <= 5 /\ 1 <= 1)
  /\ (count StopCalled demo_logged <= 1 + count Restarted demo_logged)%nat
  /\ (Left_ BySignals ∈ demo_logged -> 2 <= 1).
Proof. exact (stop_written_before_leaving 5 true demo_st demo_end demo_end_reached). Defined.

(** The start thread is not waited for: when it is slow the modem is told to stop
    first and to start then, and rmtfs goes while the modem is started. *)
Example start_after_stop :
  s_log <$> sys_run [LTop false; LSignal; LSelectFails EINTR; LTop true; LThread 1 true; LThread 0 true; LThread 1 true; LReady true None]
    (sys_init 5 true demo_st)
  = Some [StartCalled; StopCalled; WroteStop; WroteStart; Signalled; Left_ ByPipe].
Proof. reflexivity. Qed.

(** When the control file does not take stop, rmtfs goes all the same. *)
Example stop_failed_still_leaves :
  s_log <$> sys_run [LTop false; LThread 0 true; LSignal; LSelectFails EINTR; LTop true; LThread 1 false; LThread 1 true; LReady true None] (sys_init 5 true demo_st)
  = Some [StartCalled; WroteStart; StopCalled; StopFailed; Signalled; Left_ ByPipe].
Proof. reflexivity. Qed.

(** When the service cannot be published again after a reset of the network, [main]
    leaves its loop. *)
Example restart_fails :
  (fun s => (s_pc s, s_ret s, s_log s)) <$> sys_run [LRestart (MkSetup 7 0 0 (MkSockname 0 (MkSq 42 1 9) 12) (-1)) true] (MkSys Gone 5 0 false (- ENETRESET) [] [] demo_st [])
  = Some (Gone, -1, [Restarted; Left_ BySetup]).
Proof. reflexivity. Qed.

(** Without control of the modem a first signal only interrupts [select]. *)
Example first_signal_ignored :
  s_pc <$> sys_run [LTop false; LSignal; LSelectFails EINTR; LTop false] (sys_init (-1) false demo_st) = Some Select.
Proof. reflexivity. Qed.

(** When the stop thread cannot be created nothing is tried again. *)
Example stop_not_retried :
  (fun s => (s_threads s, s_handled s)) <$> sys_run [LSignal; LTop false; LSelectFails EINTR; LTop true] (sys_init 5 true demo_st)
  = Some ([StartBegin], true).
Proof. reflexivity. Qed.

(** Waiting for requests, and a transfer request. *)
Definition demo_waiting : sys (list Z) (list Z) := MkSys Select (-1) 0 false 0 [] [] demo_st [].
Definition demo_request : request := MkReq demo_stack 38 0 (recv_buf (iovec_req_msg 1 1 4096 2)) (MkSq 42 0 20).

Lemma demo_request_req_ok : req_ok demo_request.
Proof.
  split; [split; vm_compute; lia|]. split; [apply bytes_check; reflexivity|]. split; [reflexivity|]. split; [cbn; lia|].
  intros node port id. apply demo_request_ok.
Qed.

Lemma demo_waiting_reached : rtc ok_step (sys_init (-1) false demo_st) demo_waiting.
Proof. eapply rtc_l; [|apply rtc_refl]. exists (LTop false). split; [exact I|reflexivity]. Qed.

Lemma service_goes_on_witness :
  rs_ok demo_st
  /\ forall q, Select = Select -> req_ok q ->
       exists s' rep, sys_next (LReady false (Some q)) demo_waiting = Some s' /\ rs_ok (s_state s') /\ (wants_answer q -> rep <> None)
         /\ ((s_pc s' = Top /\ s_log s' = [] ++ [Replied rep]) \/ (s_pc s' = Gone /\ s_log s' = [] ++ [Replied rep; Left_ ByReset])).
Proof. exact (service_goes_on (-1) false demo_st demo_waiting demo_rs_ok demo_waiting_reached). Defined.

Example demo_request_served : s_pc <$> sys_next (LReady false (Some demo_request)) demo_waiting = Some Top.
Proof. vm_compute. reflexivity. Qed.
