(* ===== verification/RmtfsSession.v ===== *)
(** * Sessions of rmtfs: the service against its contract

    The contract is a small abstract service: ten handles, each with the node
    that used it last and the partition it has open; the contents of the
    partition files; the shared memory.  Requests of any number of nodes act on it
    one after the other.  The theorem says that rmtfs, fed with the bytes of such
    requests, sends the bytes of the answers and leaves the files and the memory the
    contract describes. *)

From Stdlib Require Import ZArith Lia.
From stdpp Require Import base gmap list numbers strings.
From S2P Require Import Prelude Packet QmiCodec QmiMessages QmiDecode QmiEncode QmiTurns.
From S2P Require Import Storage StorageProofs SharedMem Rmtfs RmtfsProofs RmtfsSafety RmtfsWire RmtfsClaims RmtfsLoop.

(** ** The contract *)

(** The node that used a handle last, and the partition it has open. *)
Definition slot : Type := Z * option nat.

Record svc : Type := MkSvc { sv_slots : list slot; sv_files : gmap (list Z) (list Z); sv_mem : list Z }.

Inductive answer : Type := AOpened (id : Z) | AClosed | AMoved | AAllocated (address : Z) | AFailed.

Definition with_slot (sv : svc) (i : nat) (s : slot) : svc := MkSvc (<[i := s]> (sv_slots sv)) (sv_files sv) (sv_mem sv).

(** ** Transfers *)

(** The sector at [off] of an array, with zeros behind the end of the array. *)
Definition sector_at (l : list Z) (off : Z) : list Z :=
  let bs := take 512 (drop (Z.to_nat off) l) in bs ++ replicate (512 - length bs) 0.

(** The array with a sector replaced. *)
Definition put (l : list Z) (off : Z) (bs : list Z) : list Z := take (Z.to_nat off) l ++ bs ++ drop (Z.to_nat off + length bs) l.

(** A sector at [off] lies inside the array. *)
Definition fits (l : list Z) (off : Z) : bool := (0 <=? off) && (off + SECTOR_SIZE <=? Z.of_nat (length l)).

Section moves.
(** Whether the memory is mapped, so that accesses outside it are refused. *)
Variables (mapped : bool) (w : bool).

(** One sector between the file at [sect] and the memory at [phys]: the contents of both and
    whether it went through.  Reads behind the end of a file see zeros; [None] where the
    contract says nothing: writes behind the end of the file, and accesses
    outside memory that is not mapped. *)
Definition move_sector (sect phys : Z) (m mem : list Z) : option (list Z * list Z * bool) :=
  if fits mem phys then
    if w then if fits m sect then Some (put m sect (sector_at mem phys), mem, true) else None
    else Some (m, put mem phys (sector_at m sect), true)
  else if mapped then Some (m, mem, false) else None.

(** [n] sectors, up to the first that does not go through. *)
Fixpoint move_sectors (n : nat) (sect phys : Z) (m mem : list Z) : option (list Z * list Z * bool) :=
  match n with
  | O => Some (m, mem, true)
  | S n' =>
      '(m, mem, ok) ← move_sector sect phys m mem;
      match ok with true => move_sectors n' (sect + SECTOR_SIZE) (phys + SECTOR_SIZE) m mem | false => Some (m, mem, false) end
  end.

(** The entries of a request, for memory at [addr]; the contract says nothing of
    sectors of 2^23 and more, whose byte address does not fit 32 bits. *)
Fixpoint move_entries (addr : Z) (es : list iovec) (m mem : list Z) : option (list Z * list Z * bool) :=
  match es with
  | [] => Some (m, mem, true)
  | e :: es' =>
      if io_sector e <? 8388608 then
        '(m, mem, ok) ← move_sectors (Z.to_nat (io_num e)) (io_sector e * SECTOR_SIZE) (io_phys e - addr) m mem;
        match ok with true => move_entries addr es' m mem | false => Some (m, mem, false) end
      else None
  end.

End moves.

(** ** Requests *)

Section contract.
(** The file of a partition, the address of the memory and whether it is mapped. *)
Variables (file : nat -> list Z) (addr : Z) (mapped : bool).

(** A node that has the partition open gets its handle again; otherwise the first
    free handle is taken, when the file exists. *)
Definition spec_open (sv : svc) (node : Z) (path : list Z) : svc * answer :=
  match find_partition path with
  | None => (sv, AFailed)
  | Some part =>
      match fst <$> list_find (.= (node, Some part)) (sv_slots sv) with
      | Some i => (sv, AOpened (Z.of_nat i))
      | None =>
          match fst <$> list_find (fun s : slot => s.2 = None) (sv_slots sv), sv_files sv !! file part with
          | Some i, Some _ => (with_slot sv i (node, Some part), AOpened (Z.of_nat i))
          | _, _ => (sv, AFailed)
          end
      end
  end.

(** The handle a node names: one it used last. *)
Definition spec_get (sv : svc) (node caller : Z) : option (nat * option nat) :=
  match sv_slots sv !! Z.to_nat caller with
  | Some (n, o) => if n =? node then Some (Z.to_nat caller, o) else None
  | None => None
  end.

Definition spec_close (sv : svc) (node caller : Z) : svc * answer :=
  match spec_get sv node caller with
  | Some (i, _) => (with_slot sv i (node, None), AClosed)
  | None => (sv, AFailed)
  end.

(** Transfers on a handle that is open; the contract says nothing of handles that
    were closed. *)
Definition spec_rw (sv : svc) (node caller : Z) (w : bool) (es : list iovec) : option (svc * answer) :=
  match spec_get sv node caller with
  | None => Some (sv, AFailed)
  | Some (_, None) => None
  | Some (i, Some part) =>
      m ← sv_files sv !! file part;
      '(m', mem', ok) ← move_entries mapped w addr es m (sv_mem sv);
      Some (MkSvc (sv_slots sv) (<[file part := m']> (sv_files sv)) mem', match ok with true => AMoved | false => AFailed end)
  end.

Definition spec_alloc (sv : svc) (size : Z) : svc * answer :=
  (sv, if Z.of_nat (length (sv_mem sv)) <? size then AFailed else AAllocated addr).

Definition spec (sv : svc) (node : Z) (r : modem_req) : option (svc * answer) :=
  match r with
  | ROpen path => Some (spec_open sv node path)
  | RClose caller => Some (spec_close sv node caller)
  | RRw caller w es _ => spec_rw sv node caller w es
  | RAlloc _ size => Some (spec_alloc sv size)
  end.

(** What happens: a node asks, or the modem writes to the memory. *)
Inductive event : Type :=
| Asks (from : sockaddr_qrtr) (txn : Z) (r : modem_req)
| Writes (mem : list Z).

(** The answers to a sequence of events, with the transaction and kind of each
    request. *)
Fixpoint spec_run (sv : svc) (evs : list event) : option (svc * list (Z * modem_req * answer)) :=
  match evs with
  | [] => Some (sv, [])
  | Asks from txn r :: evs' =>
      '(sv1, a) ← spec sv (sq_node from) r;
      '(sv2, l) ← spec_run sv1 evs';
      Some (sv2, (txn, r, a) :: l)
  | Writes mem :: evs' => spec_run (MkSvc (sv_slots sv) (sv_files sv) mem) evs'
  end.

End contract.

(** ** The bytes of the answers *)

Definition answer_tlvs (r : modem_req) (a : answer) : list Z :=
  match a with
  | AOpened id => result_tlv result_ok ++ value_tlv true (le_bytes 4 id)
  | AClosed | AMoved => result_tlv result_ok
  | AAllocated address => result_tlv result_ok ++ value_tlv true (le_bytes 8 address)
  | AFailed => result_tlv (MkResult QMI_RMTFS_RESULT_FAILURE QMI_RMTFS_ERR_INTERNAL)
  end.

Definition answer_bytes (x : Z * modem_req * answer) : list Z :=
  let '(txn, r, a) := x in message_bytes QMI_RESPONSE (req_id r) txn (answer_tlvs r a).

(** ** The files *)

(** What the file system promises: files with names and contents, descriptors
    open on names; a file that exists can be opened. *)
Class DiskOk (W : Type) `{Files W} : Type := MkDiskOk
  { dk_files : W -> gmap (list Z) (list Z);
    dk_fds : W -> gmap Z (list Z);
    dk_open : forall w p, is_Some (dk_files w !! p) ->
      0 <= fst (f_open w p) /\ dk_fds w !! fst (f_open w p) = None
      /\ dk_files (snd (f_open w p)) = dk_files w /\ dk_fds (snd (f_open w p)) = <[fst (f_open w p) := p]> (dk_fds w);
    dk_missing : forall w p, dk_files w !! p = None ->
      fst (f_open w p) < 0 /\ dk_files (snd (f_open w p)) = dk_files w /\ dk_fds (snd (f_open w p)) = dk_fds w;
    dk_pread : forall w fd p m n off, dk_fds w !! fd = Some p -> dk_files w !! p = Some m -> 0 <= off -> 0 <= n ->
      f_pread w fd n off = (Z.of_nat (length (take (Z.to_nat n) (drop (Z.to_nat off) m))), take (Z.to_nat n) (drop (Z.to_nat off) m));
    dk_pwrite : forall w fd p m bs off m', dk_fds w !! fd = Some p -> dk_files w !! p = Some m -> store m off bs = Ret m' ->
      fst (f_pwrite w fd bs off) = Z.of_nat (length bs)
      /\ dk_files (snd (f_pwrite w fd bs off)) = <[p := m']> (dk_files w) /\ dk_fds (snd (f_pwrite w fd bs off)) = dk_fds w;
    dk_close : forall w fd, dk_files (f_close w fd) = dk_files w /\ dk_fds (f_close w fd) = delete fd (dk_fds w) }.

(** The name of the file of a partition. *)
Definition part_file (dir : list Z) (use_partitions : bool) (part : nat) : list Z :=
  match partition_table !! part with
  | Some p => dir ++ [47] ++ (if use_partitions then pt_partlabel p else pt_actual p)
  | None => []
  end.

(** ** The storage implements the handles *)

Lemma list_find_through {A B} (f : A -> B) (P : A -> Prop) (Q : B -> Prop) `{forall x, Decision (P x)} `{forall y, Decision (Q y)} l :
  Forall (fun x => P x <-> Q (f x)) l -> fst <$> list_find P l = fst <$> list_find Q (f <$> l).
Proof.
  induction 1 as [|x l Hx _ IH]; [done|]. cbn [list_find fmap list_fmap]. destruct (decide (P x)), (decide (Q (f x))); [done|tauto|tauto|].
  destruct (list_find P l) as [[]|], (list_find Q (f <$> l)) as [[]|]; cbn in *; congruence.
Qed.

(** The handle as the contract sees it. *)
Definition slot_of (r : rmtfd) : slot := (rf_node r, if rf_fd r =? -1 then None else rf_partition r).

Section storage.
Context {W : Type} `{DiskOk W}.
Variables (dir : list Z) (use : bool).

Record handle_ok (w : W) (i : nat) (r : rmtfd) : Prop := MkHandleOk
  { ho_id : rf_id r = Z.of_nat i;
    ho_shadow : rf_shadow_buf r = None;
    ho_open : rf_fd r <> -1 ->
      0 <= rf_fd r /\ exists part, rf_partition r = Some part /\ dk_fds w !! rf_fd r = Some (part_file dir use part) }.

(** The storage shows [slots] and [files], and no two handles share a descriptor. *)
Record stores (slots : list slot) (files : gmap (list Z) (list Z)) (st : storage W) : Prop := MkStores
  { sr_dir : storage_dir st = dir;
    sr_use : storage_use_partitions st = use;
    sr_rw : storage_read_only st = false;
    sr_files : dk_files (world st) = files;
    sr_slots : slots = slot_of <$> rmtfds st;
    sr_len : length (rmtfds st) = MAX_CALLERS;
    sr_handles : forall i r, rmtfds st !! i = Some r -> handle_ok (world st) i r;
    sr_fds : forall i j r r', rmtfds st !! i = Some r -> rmtfds st !! j = Some r' -> rf_fd r = rf_fd r' -> rf_fd r <> -1 -> i = j }.

Lemma stores_shadow slots files st : stores slots files st -> Forall (fun r => rf_shadow_buf r = None) (rmtfds st).
Proof. intros Hs. apply Forall_lookup. intros i r Hr. apply (ho_shadow _ _ _ (sr_handles _ _ _ Hs i r Hr)). Qed.

Lemma find_open_slots slots files st node part :
  stores slots files st -> find_open st node part = fst <$> list_find (.= (node, Some part)) slots.
Proof.
  intros Hs. unfold find_open. rewrite (sr_slots _ _ _ Hs). apply list_find_through.
  eapply Forall_impl; [by eapply stores_shadow|]. intros r Hsh. unfold rmtfd_live, slot_of. rewrite Hsh, orb_false_r.
  destruct (rf_fd r =? -1); cbn [negb]; split; [by intros (? & _)|by intros [= ]|by intros (_ & -> & ->)|by intros [= -> ->]].
Qed.

Lemma find_free_slots slots files st :
  stores slots files st -> find_free st = fst <$> list_find (fun s : slot => s.2 = None) slots.
Proof.
  intros Hs. unfold find_free. rewrite (sr_slots _ _ _ Hs). apply list_find_through.
  apply Forall_lookup. intros i r Hr. destruct (sr_handles _ _ _ Hs i r Hr) as [_ Hsh Ho]. unfold slot_of. rewrite Hsh. cbn [snd].
  destruct (Z.eqb_spec (rf_fd r) (-1)) as [|Hn]; [done|]. destruct (Ho Hn) as (_ & part & -> & _). split; [by intros [? _]|done].
Qed.

(** A handle replaced, in a world where the other descriptors are as before. *)
Lemma stores_insert slots files st i r w :
  stores slots files st -> (i < MAX_CALLERS)%nat -> handle_ok w i r -> dk_files w = files ->
  (forall j r', j <> i -> rmtfds st !! j = Some r' -> rf_fd r' <> -1 -> dk_fds w !! rf_fd r' = dk_fds (world st) !! rf_fd r' /\ rf_fd r' <> rf_fd r) ->
  stores (<[i := slot_of r]> slots) files (set_rmtfds st (<[i := r]> (rmtfds st)) w).
Proof.
  intros Hs Hi Hr Hf Hother. pose proof Hs as [Hd Hu Hrw Hfs Hsl Hlen Hh Hfds]. split; cbn; try done.
  - by rewrite Hsl, list_fmap_insert.
  - by rewrite length_insert.
  - intros j r'. destruct (decide (j = i)) as [->|Hne].
    + rewrite list_lookup_insert_eq by lia. by intros [= <-].
    + rewrite list_lookup_insert_ne by done. intros Hj. destruct (Hh j r' Hj) as [? ? Ho]. split; [done|done|]. intros Hlive.
      destruct (Hother j r' Hne Hj Hlive) as [-> _]. by apply Ho.
  - assert (forall j r', j <> i -> rmtfds st !! j = Some r' -> rf_fd r' = rf_fd r -> rf_fd r' <> -1 -> False) as Hx
      by (intros j r' Hne Hj E Hlive; by destruct (Hother j r' Hne Hj Hlive)).
    intros j k r1 r2. destruct (decide (j = i)) as [->|Hj], (decide (k = i)) as [->|Hk]; [done|..];
      rewrite ?list_lookup_insert_eq, ?list_lookup_insert_ne by (done || lia).
    + intros [= <-] H2 E Hl. destruct (Hx k r2); congruence.
    + intros H1 [= <-] E Hl. destruct (Hx j r1); congruence.
    + by apply Hfds.
Qed.

Lemma stores_same_rmtfds slots files st w : stores slots files st -> dk_files w = files -> dk_fds w = dk_fds (world st) -> stores slots files (set_rmtfds st (rmtfds st) w).
Proof.
  intros [Hd Hu Hrw Hfs Hsl Hlen Hh Hfds] Hf He. split; cbn; try done. intros i r Hr. destruct (Hh i r Hr) as [? ? Ho]. split; [done|done|]. by rewrite He.
Qed.

Lemma open_stores slots files mem st node path sv' a :
  stores slots files st -> spec_open (part_file dir use) (MkSvc slots files mem) node path = (sv', a) ->
  exists h st', storage_open st node path = (h, st') /\ stores (sv_slots sv') (sv_files sv') st' /\ sv_mem sv' = mem
    /\ match h with
       | Some i => a = AOpened (Z.of_nat i) /\ (i < MAX_CALLERS)%nat
       | None => a = AFailed
       end.
Proof.
  intros Hs. unfold spec_open, storage_open. cbn [sv_slots sv_files]. destruct (find_partition path) as [part|] eqn:Hpart.
  2:{ intros [= <- <-]. by eexists None, st. }
  rewrite (find_open_slots slots files) by done.
  destruct (fst <$> list_find (.= (node, Some part)) slots) as [i|] eqn:Ho.
  { intros [= <- <-]. eexists _, _. split_and!; [done..|]. cbn. split; [done|]. apply fmap_Some in Ho as ([j s] & (Hj & _)%list_find_Some & ->). cbn.
    rewrite <- (sr_len _ _ _ Hs), <- (length_fmap slot_of), <- (sr_slots _ _ _ Hs). by eapply lookup_lt_Some. }
  rewrite (find_free_slots slots files) by done.
  destruct (fst <$> list_find (fun s : slot => s.2 = None) slots) as [i|] eqn:Hfree; [|intros [= <- <-]; by eexists None, st].
  assert (exists r, rmtfds st !! i = Some r /\ (i < MAX_CALLERS)%nat) as (r & Hr & Hi).
  { apply fmap_Some in Hfree as ([j s] & (Hj & _)%list_find_Some & ->). cbn in *. rewrite (sr_slots _ _ _ Hs) in Hj.
    apply list_lookup_fmap_Some in Hj as (r & _ & Hr). exists r. split; [done|]. rewrite <- (sr_len _ _ _ Hs). by eapply lookup_lt_Some. }
  cbn [mbind option_bind]. rewrite Hr. cbn [fmap option_fmap option_map]. destruct (find_partition_lt _ _ Hpart) as (p & Hp & _). rewrite Hp, (sr_rw _ _ _ Hs). cbn [negb].
  set (path' := storage_dir st ++ _). assert (path' = part_file dir use part) as Hpath
    by (unfold path', part_file; by rewrite Hp, (sr_dir _ _ _ Hs), (sr_use _ _ _ Hs)).
  rewrite <- Hpath, <- (sr_files _ _ _ Hs). destruct (f_open (world st) path') as [fd w] eqn:Hf. destruct (dk_files (world st) !! path') as [m|] eqn:Hm; intros [= <- <-].
  - destruct (dk_open (world st) path') as (Hfd & Hnew & Hfs & Hfds); [by rewrite Hm|]. rewrite Hf in *. cbn [fst snd] in *.
    destruct (Z.ltb_spec fd 0); [lia|]. eexists (Some i), _. split; [done|]. split_and!; [|done|done|done]. cbn.
    match goal with |- context [<[i := ?r1]> (rmtfds st)] => set (r' := r1) end.
    assert ((node, Some part) = slot_of r') as -> by (unfold slot_of, r'; cbn; destruct (Z.eqb_spec fd (-1)); [lia|done]).
    apply stores_insert; [by rewrite (sr_files _ _ _ Hs)|done| |by rewrite Hfs|].
    + destruct (sr_handles _ _ _ Hs i r Hr) as [Hid Hsh _]. split; cbn; [done|done|]. intros _. split; [done|]. exists part. split; [done|].
      by rewrite Hfds, Hpath, lookup_insert_eq.
    + intros j r2 _ Hj Hlive. cbn. destruct (sr_handles _ _ _ Hs j r2 Hj) as [_ _ Ho2]. destruct (Ho2 Hlive) as (_ & q & _ & Hq).
      assert (rf_fd r2 <> fd) as Hne by (intros E; rewrite E, Hnew in Hq; done). by rewrite Hfds, lookup_insert_ne.
  - destruct (dk_missing (world st) path' Hm) as (Hfd & Hfs & Hfds). rewrite Hf in *. cbn [fst snd] in *.
    destruct (Z.ltb_spec fd 0); [|lia]. eexists None, _. split; [done|]. split_and!; [|done|done]. cbn.
    apply stores_same_rmtfds; [by rewrite (sr_files _ _ _ Hs)|done|done].
Qed.

Lemma get_stores slots files mem st node caller :
  stores slots files st -> 0 <= caller -> storage_get st node caller = Ret (fst <$> spec_get (MkSvc slots files mem) node caller).
Proof.
  intros Hs Hc. unfold storage_get, spec_get. cbn [sv_slots]. rewrite (sr_slots _ _ _ Hs), list_lookup_fmap. pose proof (sr_len _ _ _ Hs) as Hlen.
  destruct (Z.leb_spec (Z.of_nat MAX_CALLERS) caller). { by rewrite (lookup_ge_None_2 (rmtfds st)) by lia. }
  destruct (Z.ltb_spec caller 0); [lia|]. destruct (lookup_lt_is_Some_2 (rmtfds st) (Z.to_nat caller)) as [r Hr]; [lia|].
  rewrite Hr. cbn. by destruct (rf_node r =? node).
Qed.

(** What [spec_get] finds is the handle. *)
Lemma spec_get_handle slots files mem st node caller i o :
  stores slots files st -> spec_get (MkSvc slots files mem) node caller = Some (i, o) ->
  exists r, rmtfds st !! i = Some r /\ slot_of r = (node, o) /\ (i < MAX_CALLERS)%nat.
Proof.
  intros Hs. unfold spec_get. cbn [sv_slots]. rewrite (sr_slots _ _ _ Hs), list_lookup_fmap.
  destruct (rmtfds st !! Z.to_nat caller) as [r|] eqn:Hr; [|done]. cbn. destruct (Z.eqb_spec (rf_node r) node) as [<-|]; [|done]. intros [= <- <-].
  exists r. split_and!; [done|done|]. rewrite <- (sr_len _ _ _ Hs). by eapply lookup_lt_Some.
Qed.

Lemma close_stores slots files st i r :
  stores slots files st -> rmtfds st !! i = Some r ->
  exists st', storage_close st i = Ret st' /\ stores (<[i := (rf_node r, None)]> slots) files st'.
Proof.
  intros Hs Hr. unfold storage_close. rewrite Hr. eexists. split; [done|].
  destruct (dk_close (world st) (rf_fd r)) as [Hf Hd]. destruct (sr_handles _ _ _ Hs i r Hr) as [Hid Hsh _].
  match goal with |- context [<[i := ?r1]> (rmtfds st)] => change (rf_node r, None) with (slot_of r1) end.
  apply stores_insert; [done|rewrite <- (sr_len _ _ _ Hs); by eapply lookup_lt_Some|by split|by rewrite Hf, (sr_files _ _ _ Hs)|].
  intros j r' Hj Hr' Hlive. cbn. split; [|done]. rewrite Hd, lookup_delete_ne; [done|]. intros E.
  apply Hj. symmetry. eapply (sr_fds _ _ _ Hs i j r r'); congruence.
Qed.

(** A handle that is open on a partition, whose file holds [m]. *)
Definition slot_view (slots : list slot) (files : gmap (list Z) (list Z)) (part : nat) (st : storage W) (i : nat) (m : list Z) : Prop :=
  stores slots (<[part_file dir use part := m]> files) st /\ exists node, slots !! i = Some (node, Some part).

Lemma slot_view_handle slots files part st i m :
  slot_view slots files part st i m ->
  exists r, rmtfds st !! i = Some r /\ dk_fds (world st) !! rf_fd r = Some (part_file dir use part)
    /\ dk_files (world st) !! part_file dir use part = Some m.
Proof.
  intros [Hs (node & Hn)]. rewrite (sr_slots _ _ _ Hs), list_lookup_fmap in Hn. destruct (rmtfds st !! i) as [r|] eqn:Hr; [|done]. cbn in Hn.
  exists r. split; [done|]. rewrite (sr_files _ _ _ Hs), lookup_insert_eq. split; [|done]. destruct (sr_handles _ _ _ Hs i r Hr) as [_ _ Ho].
  unfold slot_of in Hn. destruct (Z.eqb_spec (rf_fd r) (-1)) as [|Hlive]; [done|]. destruct (Ho Hlive) as (_ & q & Hq & Hfd). rewrite Hq in Hn. congruence.
Qed.

(** Reads and writes of a sector of such a handle. *)
Lemma slot_read slots files part st i m buf off :
  slot_view slots files part st i m -> 0 <= off -> Z.of_nat (length buf) = SECTOR_SIZE ->
  storage_pread st i buf SECTOR_SIZE off = Ret (sector_at m off, SECTOR_SIZE).
Proof.
  intros Hv Hoff Hb. destruct (slot_view_handle _ _ _ _ _ _ Hv) as (r & Hr & Hfd & Hm). destruct Hv as [Hs _]. unfold SECTOR_SIZE in *.
  unfold storage_pread. rewrite Hr, (sr_rw _ _ _ Hs). cbn [negb]. rewrite (dk_pread _ _ _ _ 512 off Hfd Hm) by lia.
  unfold sector_at. change (Z.to_nat 512) with 512%nat. set (bs := take 512 (drop (Z.to_nat off) m)). rewrite Nat2Z.id.
  assert (length bs <= 512)%nat as Hl by (unfold bs; rewrite length_take; lia).
  rewrite take_ge by done. rewrite store_ret by lia. cbn [mbind outcome_bind]. change (Z.to_nat 0) with 0%nat. rewrite take_0, app_nil_l.
  apply (pread_finish_pad _ bs); [rewrite length_app, length_drop; lia|done|by rewrite take_app_length|lia].
Qed.

Lemma slot_write slots files part st i m bs off :
  slot_view slots files part st i m -> fits m off = true -> length bs = 512%nat ->
  exists st', storage_pwrite st i bs off = Ret (st', SECTOR_SIZE) /\ slot_view slots files part st' i (put m off bs).
Proof.
  intros Hv [Hoff Hle]%andb_true_iff Hb. apply Z.leb_le in Hoff, Hle. destruct (slot_view_handle _ _ _ _ _ _ Hv) as (r & Hr & Hfd & Hm). destruct Hv as [Hs Hn].
  unfold SECTOR_SIZE in *. assert (store m off bs = Ret (put m off bs)) as Hst by (apply store_ret; lia).
  destruct (dk_pwrite _ _ _ _ _ _ _ Hfd Hm Hst) as (Hw & Hf & Hd).
  exists (set_rmtfds st (rmtfds st) (snd (f_pwrite (world st) (rf_fd r) bs off))). unfold storage_pwrite. rewrite Hr, (sr_rw _ _ _ Hs). cbn [negb].
  destruct (f_pwrite (world st) (rf_fd r) bs off) as [k w]. cbn [fst snd] in *. split; [by rewrite Hw, Hb|]. split; [|done].
  destruct Hs as [Hdir Hu Hrw Hfs Hsl Hlen Hh Hfds]. split; cbn; try done; [by rewrite Hf, Hfs, insert_insert_eq|].
  intros j r' Hj. destruct (Hh j r' Hj) as [? ? Ho]. split; [done|done|]. by rewrite Hd.
Qed.

(** A fresh storage. *)
Lemma init_stores (w : W) root use' :
  dir = storage_dir (storage_init (storage_static w) root false use') -> use = use' ->
  stores (replicate MAX_CALLERS (0, None)) (dk_files w) (storage_init (storage_static w) root false use').
Proof.
  intros Hd Hu. split; cbn; try done; [by rewrite orb_false_r| |].
  - intros i r Hi. do 10 (destruct i as [|i]; [by injection Hi as <-|]). done.
  - intros i j r r' Hi _ _ Hne. destruct Hne. do 10 (destruct i as [|i]; [by injection Hi as <-|]). done.
Qed.

End storage.

(** ** The handlers implement the contract *)

(** Comparisons of message numbers. *)
Ltac consts :=
  repeat match goal with
         | |- context [Z.eqb ?x ?y] => let v := eval cbv in (Z.eqb x y) in first [constr_eq v true | constr_eq v false]; change (Z.eqb x y) with v
         end; cbv iota.

Section refinement.
Context {W D : Type} `{DiskOk W} `{MemDevOk D}.
Variables (dir : list Z) (use : bool) (addr : Z) (mapped : bool).
Hypothesis (Haddr : addr < 9223372036854775808).
Implicit Type st : rmtfs_state W D.

(** The memory shows [mem]. *)
Record shows (rmem : rmtfs_mem D) (mem : list Z) : Prop := MkShows
  { sh_mem : mem_ok rmem mem;
    sh_addr : rm_address rmem = addr;
    sh_mapped : mapped = true -> is_Some (rm_base rmem) }.

Record implements (sv : svc) st : Prop := MkImpl
  { im_stores : stores dir use (sv_slots sv) (sv_files sv) (rs_storage st);
    im_shows : shows (rs_mem st) (sv_mem sv);
    im_quiet : rs_dbg st = false }.

(** ** Transfers sector by sector *)

Lemma length_sector_at l off : length (sector_at l off) = 512%nat.
Proof. unfold sector_at. rewrite length_app, length_replicate, length_take. lia. Qed.

Lemma sector_at_load l off : fits l off = true -> load l off SECTOR_SIZE = Ret (sector_at l off).
Proof.
  intros [H0' Hl]%andb_true_iff. apply Z.leb_le in H0', Hl. unfold SECTOR_SIZE in *. rewrite load_ret by lia. unfold sector_at. change (Z.to_nat 512) with 512%nat.
  rewrite length_take, length_drop, Nat.min_l by lia. rewrite Nat.sub_diag. by rewrite app_nil_r.
Qed.

Lemma put_store l off bs : fits l off = true -> length bs = 512%nat -> store l off bs = Ret (put l off bs).
Proof. intros [H0' Hl]%andb_true_iff Hb. apply Z.leb_le in H0', Hl. unfold SECTOR_SIZE in *. apply store_ret; lia. Qed.

Section memory.
Variables (rmem : rmtfs_mem D) (mem : list Z) (phys : Z).
Hypothesis (Hsh : shows rmem mem) (Hphys : 0 <= phys < 4611686018427387904).

Lemma fits_region : fits mem (phys - addr) = true -> in_region rmem phys SECTOR_SIZE.
Proof. intros [H0' Hl]%andb_true_iff. apply Z.leb_le in H0', Hl. destruct Hsh as [[_ Hs _ _ _] Ha _]. unfold in_region. lia. Qed.

Lemma not_fits_region : fits mem (phys - addr) = false -> ~ in_region rmem phys SECTOR_SIZE.
Proof.
  intros Hf [Hlo Hhi]. destruct Hsh as [[_ Hs _ _ _] Ha _]. unfold fits in Hf. destruct (Z.leb_spec 0 (phys - addr)); [|lia].
  destruct (Z.leb_spec (phys - addr + SECTOR_SIZE) (Z.of_nat (length mem))); [done|lia].
Qed.

Lemma read_shows buf :
  Z.of_nat (length buf) = SECTOR_SIZE -> fits mem (phys - addr) = true ->
  rmtfs_mem_read rmem phys buf SECTOR_SIZE = Ret (sector_at mem (phys - addr), SECTOR_SIZE).
Proof.
  intros Hb Hf. pose proof Hsh as [Hok Ha _]. destruct (rmtfs_mem_read_spec rmem mem phys buf Hok) as (bs & Hld & Hrd); [rewrite Hb; by apply fits_region|lia|].
  rewrite Ha, Hb, (sector_at_load _ _ Hf) in Hld. injection Hld as <-. by rewrite <- Hb.
Qed.

Lemma write_shows bs :
  length bs = 512%nat -> fits mem (phys - addr) = true ->
  exists rmem', rmtfs_mem_write rmem phys bs SECTOR_SIZE = Ret (rmem', SECTOR_SIZE) /\ shows rmem' (put mem (phys - addr) bs).
Proof.
  intros Hb Hf. assert (Z.of_nat (length bs) = SECTOR_SIZE) as Hb' by (unfold SECTOR_SIZE; lia). pose proof Hsh as [Hok Ha Hm].
  destruct (rmtfs_mem_write_spec rmem mem phys bs Hok) as (rmem' & mem' & Hst & Hwr & (Ea & _ & Eb) & Hok'); [rewrite Hb'; by apply fits_region|lia|].
  rewrite Ha, (put_store _ _ _ Hf Hb) in Hst. injection Hst as <-. exists rmem'. rewrite <- Hb' at 1 2. split; [by rewrite Hwr|].
  split; [done|by rewrite Ea|]. intros Hmap. apply Eb. by apply Hm.
Qed.

Lemma refused buf :
  mapped = true -> fits mem (phys - addr) = false ->
  rmtfs_mem_read rmem phys buf SECTOR_SIZE = Ret (buf, - EINVAL) /\ rmtfs_mem_write rmem phys buf SECTOR_SIZE = Ret (rmem, - EINVAL).
Proof.
  intros Hm Hf. pose proof Hsh as [Hok _ Hmap]. apply (rmtfs_mem_outside rmem mem); [done|by apply Hmap|by apply not_fits_region|lia|done|unfold SECTOR_SIZE; lia].
Qed.

End memory.

Section transfers.
Variables (slots : list slot) (files : gmap (list Z) (list Z)) (part i : nat) (w : bool).

(** A transfer under way between the file of handle [i] and the memory. *)
Definition moving st (m mem : list Z) : Prop :=
  slot_view dir use slots files part (rs_storage st) i m /\ shows (rs_mem st) mem /\ rs_dbg st = false.

Lemma sector_moves st m mem buf phys sect m' mem' ok :
  moving st m mem -> Z.of_nat (length buf) = SECTOR_SIZE -> 0 <= sect -> 0 <= phys < 4611686018427387904 ->
  move_sector mapped w sect (phys - addr) m mem = Some (m', mem', ok) ->
  exists st' buf' k, iovec_sector st w i buf phys sect = Ret (st', buf', k) /\ (k =? SECTOR_SIZE) = ok /\ moving st' m' mem' /\ Z.of_nat (length buf') = SECTOR_SIZE.
Proof.
  intros (Hv & Hsh & Hq) Hb Hs Hp Hmv. unfold move_sector in Hmv. unfold iovec_sector. destruct (fits mem (phys - addr)) eqn:Hf.
  - destruct w.
    + destruct (fits m sect) eqn:Hfm; [|done]. injection Hmv as <- <- <-. rewrite (read_shows _ _ _ Hsh Hp buf Hb Hf). cbn [mbind outcome_bind].
      rewrite Z.eqb_refl. destruct (slot_write _ _ _ _ _ _ _ _ (sector_at mem (phys - addr)) sect Hv Hfm (length_sector_at _ _)) as (s' & -> & Hv'). cbn [mbind outcome_bind].
      eexists _, _, _. split; [done|]. split; [done|]. split; [by split|]. by rewrite length_sector_at.
    + injection Hmv as <- <- <-. rewrite (slot_read _ _ _ _ _ _ _ _ buf sect Hv Hs Hb). cbn [mbind outcome_bind].
      change (0 <=? SECTOR_SIZE) with true. rewrite Z.ltb_irrefl. cbv iota. cbn [mbind outcome_bind].
      destruct (write_shows _ _ _ Hsh Hp (sector_at m sect) (length_sector_at _ _) Hf) as (rmem' & -> & Hsh'). cbn [mbind outcome_bind].
      eexists _, _, _. split; [done|]. split; [done|]. split; [by split|]. by rewrite length_sector_at.
  - destruct mapped eqn:Em; [|done]. injection Hmv as <- <- <-. destruct w.
    + destruct (refused _ _ _ Hsh Hp buf Em Hf) as [-> _]. cbn [mbind outcome_bind]. change (- EINVAL =? SECTOR_SIZE) with false. cbv iota.
      by eexists _, _, _.
    + rewrite (slot_read _ _ _ _ _ _ _ _ buf sect Hv Hs Hb). cbn [mbind outcome_bind].
      change (0 <=? SECTOR_SIZE) with true. rewrite Z.ltb_irrefl. cbv iota. cbn [mbind outcome_bind].
      destruct (refused _ _ _ Hsh Hp (sector_at m sect) Em Hf) as [_ ->]. cbn [mbind outcome_bind].
      eexists _, _, _. split; [done|]. split; [done|]. split; [by split|]. by rewrite length_sector_at.
Qed.

Lemma sectors_move n : forall st m mem buf phys sect off m' mem' ok,
  moving st m mem -> Z.of_nat (length buf) = SECTOR_SIZE -> 0 <= sect + off -> 0 <= phys + off -> phys + off + SECTOR_SIZE * Z.of_nat n < 4611686018427387904 ->
  move_sectors mapped w n (sect + off) (phys + off - addr) m mem = Some (m', mem', ok) ->
  exists st' buf', iovec_sectors st w i buf phys sect off n = Ret (st', buf', ok) /\ moving st' m' mem' /\ Z.of_nat (length buf') = SECTOR_SIZE.
Proof.
  assert (SECTOR_SIZE = 512) as H512 by done.
  induction n as [|n IH]; intros st m mem buf phys sect off m' mem' ok Hmv Hb Hs Hp Hmax Hr; cbn [move_sectors iovec_sectors] in *.
  { injection Hr as <- <- <-. by eexists _, _. }
  apply bind_Some in Hr as ([[m1 mem1] ok1] & H1' & Hr).
  destruct (sector_moves st m mem buf (phys + off) (sect + off) m1 mem1 ok1 Hmv Hb Hs ltac:(lia) H1') as (st1 & buf1 & k & -> & Hk & Hmv1 & Hb1).
  cbn [mbind outcome_bind]. rewrite Hk. destruct ok1; cbn [negb].
  - apply (IH st1 m1 mem1 buf1 phys sect (off + SECTOR_SIZE)); [done|done|lia|lia|lia|].
    by replace (sect + (off + SECTOR_SIZE)) with (sect + off + SECTOR_SIZE) by lia;
      replace (phys + (off + SECTOR_SIZE) - addr) with (phys + off - addr + SECTOR_SIZE) by lia.
  - injection Hr as <- <- <-. by eexists _, _.
Qed.

Lemma entries_move c es : forall k st m mem buf m' mem' ok,
  Forall iovec_ok es ->
  (forall j e, es !! j = Some e ->
     let off := 16 + 12 * (k + Z.of_nat j) in field c off 4 = Ret (io_sector e) /\ field c (off + 4) 4 = Ret (io_phys e) /\ field c (off + 8) 4 = Ret (io_num e)) ->
  moving st m mem -> Z.of_nat (length buf) = SECTOR_SIZE -> move_entries mapped w addr es m mem = Some (m', mem', ok) ->
  exists st', iovec_entries st w i buf c k (length es) = Ret (st', ok) /\ moving st' m' mem'.
Proof.
  induction es as [|e es IH]; intros k st m mem buf m' mem' ok Hok Hc Hmv Hb Hr; cbn [move_entries iovec_entries length] in *.
  { injection Hr as <- <- <-. by exists st. }
  apply list.Forall_cons in Hok as [He Hes]. pose proof He as (Hsec & Hph & Hnum). destruct (Hc 0%nat e eq_refl) as (F1 & F2 & F3).
  change (Z.of_nat 0) with 0 in *. rewrite Z.add_0_r in F1, F2, F3. rewrite F1, F2, F3. cbn [mbind outcome_bind].
  destruct (Z.ltb_spec (io_sector e) 8388608); [|done].
  apply bind_Some in Hr as ([[m1 mem1] ok1] & H1' & Hr). assert (SECTOR_SIZE = 512) as H512 by done. rewrite u32_small by lia.
  destruct (sectors_move (Z.to_nat (io_num e)) st m mem buf (io_phys e) (io_sector e * SECTOR_SIZE) 0 m1 mem1 ok1) as (st1 & buf1 & -> & Hmv1 & Hb1);
    [done|done|lia|lia|lia|by rewrite !Z.add_0_r|]. cbn [mbind outcome_bind]. destruct ok1.
  - apply (IH (k + 1) st1 m1 mem1 buf1); [done| |done|done|done]. intros j e' Hj.
    replace (k + 1 + Z.of_nat j) with (k + Z.of_nat (S j)) by lia. by apply Hc.
  - injection Hr as <- <- <-. by exists st1.
Qed.

End transfers.

Section request.
Variables (txn node port : Z) (junk : list Z) (stk : stack).
Hypothesis (Htxn : 0 <= txn < 65536) (Hstk : stack_ok stk).

(** The packet of a request. *)
Definition req_packet (r : modem_req) : packet :=
  MkPacket node port (req_message txn r ++ junk) (7 + Z.of_nat (length (req_body r))).

Lemma open_refines sv st path sv' a :
  implements sv st -> req_fits (ROpen path) -> spec_open (part_file dir use) sv node path = (sv', a) ->
  exists st', rmtfs_open st stk (req_packet (ROpen path)) = Ret (st', Some (answer_bytes (txn, ROpen path, a))) /\ implements sv' st'.
Proof.
  intros [Hs Hsh Hq] Hf Hsp. destruct Hstk as [Hj _]. unfold rmtfs_open. cbn [req_packet pk_data pk_len pk_from].
  pose proof (req_decodes txn junk Htxn (ROpen path) Hf) as Hd. unfold decodes in Hd. cbn [req_size req_id req_ei] in Hd. rewrite Hd. cbn [mbind outcome_bind txn_or].
  destruct (Z.ltb_spec (Z.of_nat (length (req_body (ROpen path)))) 0); [lia|]. destruct (name_struct_string 260 path Hf) as [Hlen Hld]; [done|].
  unfold cstr. cbn [req_struct]. rewrite Hlen. cbn [mbind outcome_bind]. rewrite Hld. cbn [mbind outcome_bind].
  destruct sv as [slots files mem]. destruct (open_stores dir use slots files mem (rs_storage st) node path sv' a Hs Hsp) as (h & s' & -> & Hs' & Hmem & Hh).
  assert (implements sv' (MkRs s' (rs_mem st) (rs_dbg st))) as Himp by (split; [done|by rewrite Hmem|done]).
  destruct h as [i|]; [destruct Hh as [-> Hi]|subst a].
  - unfold storage_get_caller_id. destruct (lookup_lt_is_Some_2 (rmtfds s') i) as [r Hr]; [by rewrite (sr_len _ _ _ _ _ Hs')|].
    rewrite Hr, (ho_id _ _ _ _ _ (sr_handles _ _ _ _ _ Hs' i r Hr)). cbn [mbind outcome_bind]. rewrite respond_open by done. by eexists.
  - rewrite respond_open by done. cbn [mbind outcome_bind]. by eexists.
Qed.

Lemma close_refines sv st caller sv' a :
  implements sv st -> req_fits (RClose caller) -> spec_close sv node caller = (sv', a) ->
  exists st', rmtfs_close st stk (req_packet (RClose caller)) = Ret (st', Some (answer_bytes (txn, RClose caller, a))) /\ implements sv' st'.
Proof.
  intros Hi Hf Hsp. pose proof Hi as [Hs Hsh Hq]. destruct Hstk as [Hj _]. unfold rmtfs_close, close_dbgprintf. rewrite Hq. cbn [req_packet pk_data pk_len pk_from].
  pose proof (req_decodes txn junk Htxn (RClose caller) Hf) as Hd. unfold decodes in Hd. cbn [req_size req_id req_ei] in Hd. rewrite Hd. cbn [mbind outcome_bind txn_or].
  destruct (Z.ltb_spec (Z.of_nat (length (req_body (RClose caller)))) 0); [lia|]. cbn [req_fits] in Hf.
  rewrite (close_members caller Hf).
  cbn [mbind outcome_bind]. rewrite s32_small by lia. destruct sv as [slots files mem].
  rewrite (get_stores dir use slots files mem) by (done || lia). cbn [mbind outcome_bind]. unfold spec_close in Hsp.
  destruct (spec_get (MkSvc slots files mem) node caller) as [[i o]|] eqn:Hg; injection Hsp as <- <-; cbn [fmap option_fmap option_map fst].
  - destruct (spec_get_handle _ _ _ _ _ _ _ _ _ _ Hs Hg) as (r & Hr & Hsl & _). destruct (close_stores dir use _ _ _ _ _ Hs Hr) as (s' & -> & Hs').
    cbn [mbind outcome_bind]. rewrite respond_result by done. eexists. split; [done|]. split; [|done|done]. injection Hsl as <- _. exact Hs'.
  - rewrite respond_result by done. by exists st.
Qed.

Lemma alloc_refines sv st caller size sv' a :
  implements sv st -> req_fits (RAlloc caller size) -> spec_alloc addr sv size = (sv', a) ->
  exists st', rmtfs_alloc_buf st stk (req_packet (RAlloc caller size)) = Ret (st', Some (answer_bytes (txn, RAlloc caller size, a))) /\ implements sv' st'.
Proof.
  intros Hi Hf [= <- <-]. pose proof Hi as [Hs [Hm Ha _] _]. destruct Hstk as [Hj _]. unfold rmtfs_alloc_buf. cbn [req_packet pk_data pk_len pk_from].
  pose proof (req_decodes txn junk Htxn (RAlloc caller size) Hf) as Hd. unfold decodes in Hd. cbn [req_size req_id req_ei] in Hd. rewrite Hd. cbn [mbind outcome_bind txn_or].
  destruct (Z.ltb_spec (Z.of_nat (length (req_body (RAlloc caller size)))) 0); [lia|]. cbn [req_fits] in Hf.
  assert (field (req_struct (RAlloc caller size)) 4 4 = Ret size) as ->.
  { cbn [req_struct]. rewrite <- (app_nil_r (le_bytes 4 size)). apply (field_le (le_bytes 4 caller) 4); [done|done|]. change (2 ^ (8 * Z.of_nat 4)) with 4294967296. lia. }
  cbn [mbind outcome_bind]. unfold rmtfs_mem_alloc. pose proof Hm as [_ Hsz Ha0 _ _]. rewrite <- Hsz, Ha. exists st. split; [|done].
  destruct (Z.ltb_spec (Z.of_nat (length (sv_mem sv))) size).
  - change (- EINVAL <? 0) with true. cbv iota. rewrite respond_alloc_buf by done. cbn [mbind outcome_bind]. reflexivity.
  - rewrite s64_small by lia. destruct (Z.ltb_spec addr 0); [lia|]. by rewrite respond_alloc_buf by done.
Qed.

Lemma rw_refines sv st caller w es force sv' a :
  implements sv st -> req_fits (RRw caller w es force) -> spec_rw (part_file dir use) addr mapped sv node caller w es = Some (sv', a) ->
  exists st', rmtfs_iovec st stk (req_packet (RRw caller w es force)) = Ret (st', Some (answer_bytes (txn, RRw caller w es force, a))) /\ implements sv' st'.
Proof.
  intros Hi Hf Hsp. pose proof Hi as [Hs Hsh Hq]. pose proof (req_decodes txn junk Htxn _ Hf) as Hd. unfold decodes in Hd.
  destruct (rw_members caller w es force Hf) as (Hcal & Hdir & Hn). pose proof Hf as (Hc & Hes & _). pose proof Hstk as [Hj Hsec].
  destruct sv as [slots files mem]. cbn [sv_slots sv_files sv_mem] in *.
  assert (storage_get (rs_storage st) node (s32 caller) = Ret (fst <$> spec_get (MkSvc slots files mem) node caller)) as Hget
    by (rewrite s32_small by lia; apply (get_stores dir use); [done|lia]).
  unfold rmtfs_iovec. cbn [req_packet pk_data pk_len pk_from]. cbn [req_id req_ei req_size] in Hd.
  change (replicate (Z.to_nat 3080) 0) with (replicate 3080 0) in Hd. rewrite Hd. cbn [mbind outcome_bind txn_or].
  destruct (Z.ltb_spec (Z.of_nat (length (req_body (RRw caller w es force)))) 0); [lia|]. rewrite Hcal, Hdir, Hn. cbn [mbind outcome_bind].
  rewrite Hget. cbn [mbind outcome_bind]. change rmtfs_iovec_resp_ei with rmtfs_close_resp_ei.
  unfold spec_rw in Hsp. cbn [sv_slots sv_files sv_mem] in Hsp.
  destruct (spec_get (MkSvc slots files mem) node caller) as [[i [part|]]|] eqn:Hg; cbn [fmap option_fmap option_map fst]; [|done|].
  - apply bind_Some in Hsp as (m & Hfile & Hsp). apply bind_Some in Hsp as ([[m' mem'] ok] & Hmv & [= <- <-]).
    assert (moving slots files part i st m mem) as Hx.
    { split; [|by split]. split; [by rewrite insert_id|]. exists node. destruct (spec_get_handle _ _ _ _ _ _ _ _ _ _ Hs Hg) as (r & Hr & Hsl & _).
      by rewrite (sr_slots _ _ _ _ _ Hs), list_lookup_fmap, Hr, <- Hsl. }
    replace (negb (bool_byte w =? 0)) with w by (by destruct w). rewrite Nat2Z.id.
    destruct (entries_move slots files part i w (req_struct (RRw caller w es force)) es 0 st m mem (take 512 (stk_sector stk)) m' mem' ok) as (st' & -> & ([Hs' _] & Hsh' & Hq'));
      [done|intros j e Hj'; rewrite Z.add_0_l; by apply rw_entry|done|rewrite length_take; unfold SECTOR_SIZE; lia|done|].
    cbn [mbind outcome_bind]. rewrite respond_result by done. exists st'. split; [by destruct ok|by split].
  - injection Hsp as <- <-. rewrite respond_result by done. by exists st.
Qed.

End request.

(** A request of any kind, as [handle_rmtfs] gets it. *)
Lemma handle_refines sv st sv' a from txn r stk errno junk :
  implements sv st -> req_fits r -> 0 <= txn < 65536 -> stack_ok stk -> sq_port from <> QRTR_PORT_CTRL ->
  spec (part_file dir use) addr mapped sv (sq_node from) r = Some (sv', a) ->
  exists st', handle_rmtfs st stk (Z.of_nat (length (req_message txn r))) errno (req_message txn r ++ junk) from = Ret (st', Some (answer_bytes (txn, r, a)), 0)
    /\ implements sv' st'.
Proof.
  intros Hi Hf Ht Hstk Hp Hsp. pose proof (length_req_body r Hf) as Hlen. unfold req_message. rewrite length_message, Nat2Z.inj_add. change (Z.of_nat 7) with 7.
  unfold handle_rmtfs. destruct (Z.ltb_spec (7 + Z.of_nat (length (req_body r))) 0); [lia|].
  unfold qrtr_decode. rewrite (proj2 (Z.eqb_neq _ _) Hp). change (0 <? 0) with false. cbv iota. cbn [p_type p_node p_port].
  change (QRTR_TYPE_DATA =? QRTR_TYPE_BYE) with false. change (QRTR_TYPE_DATA =? QRTR_TYPE_DEL_CLIENT) with false. rewrite Z.eqb_refl.
  assert (0 <= req_id r < 65536) as Hid by (by destruct r).
  rewrite message_decode_header by (done || lia). cbn [mbind outcome_bind]. change (0 <? 0) with false. cbv iota.
  fold (req_message txn r). fold (req_packet txn (sq_node from) (sq_port from) junk r).
  destruct r as [path|caller|caller w es force|caller size]; cbn [spec] in Hsp; cbn [req_id].
  - apply (inj Some) in Hsp. destruct (open_refines txn (sq_node from) (sq_port from) junk stk Ht Hstk sv st path sv' a Hi Hf Hsp) as (st' & Heq & Hi').
    consts. rewrite Heq. by exists st'.
  - apply (inj Some) in Hsp. destruct (close_refines txn (sq_node from) (sq_port from) junk stk Ht Hstk sv st caller sv' a Hi Hf Hsp) as (st' & Heq & Hi').
    consts. rewrite Heq. by exists st'.
  - destruct (rw_refines txn (sq_node from) (sq_port from) junk stk Ht Hstk sv st caller w es force sv' a Hi Hf Hsp) as (st' & Heq & Hi').
    consts. rewrite Heq. by exists st'.
  - apply (inj Some) in Hsp. destruct (alloc_refines txn (sq_node from) (sq_port from) junk stk Ht Hstk sv st caller size sv' a Hi Hf Hsp) as (st' & Heq & Hi').
    consts. rewrite Heq. by exists st'.
Qed.

(** ** Runs of the program *)

(** What the process meets: a packet that makes its socket ready, or the modem
    changing the memory. *)
Inductive input : Type := Packet (q : request) | ModemWrites (rmem : rmtfs_mem D).

(** The loop of [run_rmtfs] on such inputs: for a packet, the look at the signals
    and the turn that serves it. *)
Fixpoint session (s : sys W D) (ins : list input) : option (sys W D) :=
  match ins with
  | [] => Some s
  | Packet q :: ins' => s' ← sys_run [LTop false; LReady false (Some q)] s; session s' ins'
  | ModemWrites rmem :: ins' => session (set_state (MkRs (rs_storage (s_state s)) rmem (rs_dbg (s_state s))) s) ins'
  end.

(** The event as the process meets it, whatever the stack and the rest of the
    buffer hold. *)
Inductive meets : event -> input -> Prop :=
| meets_asks from txn r stk errno junk :
    sq_port from <> QRTR_PORT_CTRL -> 0 <= txn < 65536 -> req_fits r -> stack_ok stk ->
    meets (Asks from txn r) (Packet (MkReq stk (Z.of_nat (length (req_message txn r))) errno (req_message txn r ++ junk) from))
| meets_writes mem rmem : shows rmem mem -> meets (Writes mem) (ModemWrites rmem).

(** The loop waits for requests, with no signal pending. *)
Definition at_rest (s : sys W D) : Prop := s_pc s = Top /\ s_sig s = 0.

Definition replied (x : Z * modem_req * answer) : log := Replied (Some (answer_bytes x)).

Lemma packet_turn sv (s : sys W D) sv' a from txn r i :
  implements sv (s_state s) -> at_rest s -> meets (Asks from txn r) i ->
  spec (part_file dir use) addr mapped sv (sq_node from) r = Some (sv', a) ->
  exists q s', i = Packet q /\ sys_run [LTop false; LReady false (Some q)] s = Some s' /\ implements sv' (s_state s') /\ at_rest s'
    /\ s_log s' = s_log s ++ [replied (txn, r, a)].
Proof.
  intros Hi [Hpc Hsig] Hm Hsp. inversion Hm as [? ? ? stk errno junk Hp Ht Hf Hstk|]; subst.
  destruct (handle_refines sv (s_state s) sv' a from txn r stk errno junk Hi Hf Ht Hstk Hp Hsp) as (st' & Hh & Hi').
  eexists _, _. split; [done|]. cbn [sys_run sys_next]. rewrite Hpc. unfold loop_top. rewrite Hsig. change (0 =? 1) with false. rewrite andb_false_r.
  change (1 <? 0) with false. cbn [andb mbind option_bind sys_run sys_next goes s_pc serve rq_stack rq_ret rq_errno rq_buf rq_sq s_state].
  rewrite Hh. change (0 =? - ENETRESET) with false. cbv iota. cbn [mbind option_bind]. split; [done|]. split_and!; [done|by split|].
  cbn. by rewrite app_nil_r.
Qed.

Lemma session_refines evs ins : Forall2 meets evs ins -> forall sv (s : sys W D) sv' answers,
  implements sv (s_state s) -> at_rest s -> spec_run (part_file dir use) addr mapped sv evs = Some (sv', answers) ->
  exists s', session s ins = Some s' /\ implements sv' (s_state s') /\ at_rest s' /\ s_log s' = s_log s ++ (replied <$> answers).
Proof.
  induction 1 as [|ev i evs ins Hm _ IH]; intros sv s sv' answers Hi Hr Hrun.
  { injection Hrun as <- <-. exists s. split_and!; try done. cbn. by rewrite app_nil_r. }
  destruct ev as [from txn r|mem]; cbn [spec_run] in Hrun.
  - apply bind_Some in Hrun as ([sv1 a] & Hsp & Hrun). apply bind_Some in Hrun as ([sv2 l] & Hrun & [= <- <-]).
    destruct (packet_turn sv s sv1 a from txn r i Hi Hr Hm Hsp) as (q & s1 & -> & Hs1 & Hi1 & Hr1 & Hlog). cbn [session]. rewrite Hs1. cbn [mbind option_bind].
    destruct (IH sv1 s1 sv2 l Hi1 Hr1 Hrun) as (s' & Hs' & Hi' & Hr' & Hlog'). exists s'. split_and!; try done. by rewrite Hlog', Hlog, <- app_assoc.
  - inversion Hm as [|? rmem Hsh]; subst. cbn [session]. apply (IH _ (set_state (MkRs (rs_storage (s_state s)) rmem (rs_dbg (s_state s))) s) sv' answers) in Hrun; [done| |done].
    destruct Hi as [Hs _ Hq]. by split.
Qed.

End refinement.

Definition is_mapped {D} (rmem : rmtfs_mem D) : bool := match rm_base rmem with Some _ => true | None => false end.

(** C3: rmtfs keeps its contract.  Started by [main] with options for normal
    operation (neither -r nor -v), the socket set up, on partition files that exist or not, and shared memory of any
    contents, the service answers the open, close, transfer and allocation requests of
    the shape the modem sends, of any nodes in any order and with the modem changing
    the memory in between, with exactly the answers of the abstract service: one
    for each request, in order; a node gets the handle it has open again, otherwise
    the first free one; names without a partition or a file, and handles of others, are
    refused; transfers move whole sectors between the file of the handle and the
    memory, reads see zeros behind the end of the file, and at the first sector outside
    mapped memory a transfer fails.  Afterwards files and memory hold what the
    contract says, and the loop waits for the next request.  The sequences are
    those the abstract service is defined on: transfers only through handles that are
    open, with sector numbers below 2^23, writes inside the file, and accesses inside the
    memory where it is not mapped. *)
Theorem rmtfs_keeps_contract {W D} `{DiskOk W} `{MemDevOk D} opts cfg (rmem : rmtfs_mem D) (w : W) su created mem evs ins sv' answers :
  main_options opts (MkCfg None false false (-1) false) = inr cfg -> read_only cfg = false -> dbgprintf_enabled cfg = false ->
  snd (setup_result su) = true -> mem_ok rmem mem -> rm_address rmem < 9223372036854775808 ->
  spec_run (part_file (storage_dir (storage_init (storage_static w) (storage_root cfg) false (use_partitions cfg))) (use_partitions cfg)) (rm_address rmem)
    (is_mapped rmem) (MkSvc (replicate MAX_CALLERS (0, None)) (dk_files w) mem) evs = Some (sv', answers) ->
  Forall2 (meets (rm_address rmem) (is_mapped rmem)) evs ins ->
  exists s0 s', rmtfs_main opts (Some rmem) w su created = inr s0 /\ session s0 ins = Some s'
    /\ s_log s' = s_log s0 ++ (replied <$> answers) /\ s_pc s' = Top
    /\ dk_files (world (rs_storage (s_state s'))) = sv_files sv' /\ mem_ok (rs_mem (s_state s')) (sv_mem sv').
Proof.
  intros Hopt Hro Hv Hsu Hm Ha Hrun Hins. unfold rmtfs_main. rewrite Hopt, run_enter_boot. destruct (setup_result su) as [[r calls] []]; [|done]. eexists.
  set (s0 := sys_init _ _ _). destruct (session_refines (storage_dir (storage_init (storage_static w) (storage_root cfg) false (use_partitions cfg)))
    (use_partitions cfg) (rm_address rmem) (is_mapped rmem) Ha evs ins Hins (MkSvc (replicate MAX_CALLERS (0, None)) (dk_files w) mem) s0 sv' answers)
    as (s' & Hs & [Hst [Hmem _ _] _] & [Hpc _] & Hlog).
  - split; [cbn; rewrite Hro; by apply init_stores| |done]. split; [done|done|]. unfold is_mapped. cbn. by destruct (rm_base rmem).
  - done.
  - done.
  - exists s'. split_and!; try done. by rewrite (sr_files _ _ _ _ _ Hst).
Qed.

(** ** Transfers inside the file and the memory *)

(** Entries inside the file and the memory are block transfers. *)
Theorem in_range_moves_whole mapped w n : forall sect phys m mem,
  0 <= sect -> sect + SECTOR_SIZE * Z.of_nat n <= Z.of_nat (length m) -> 0 <= phys -> phys + SECTOR_SIZE * Z.of_nat n <= Z.of_nat (length mem) ->
  exists m' mem', move_sectors mapped w n sect phys m mem = Some (m', mem', true)
    /\ transfer w m mem sect phys (SECTOR_SIZE * Z.of_nat n) = Ret (m', mem') /\ length m' = length m /\ length mem' = length mem.
Proof.
  assert (SECTOR_SIZE = 512) as H512 by done.
  induction n as [|n IH]; intros sect phys m mem Hs Hsl Hp Hpl; cbn [move_sectors].
  { exists m, mem. split; [done|]. change (SECTOR_SIZE * Z.of_nat 0) with 0 in *. rewrite transfer_nil by lia. done. }
  assert (fits m sect = true /\ fits mem phys = true) as [Fm Fmem] by (split; apply andb_true_iff; split; apply Z.leb_le; lia).
  assert (exists m1 mem1, move_sector mapped w sect phys m mem = Some (m1, mem1, true) /\ transfer w m mem sect phys SECTOR_SIZE = Ret (m1, mem1)
            /\ length m1 = length m /\ length mem1 = length mem) as (m1 & mem1 & -> & Ht & L1 & L2).
  { unfold move_sector, transfer. rewrite Fm, Fmem. destruct w.
    - rewrite (sector_at_load _ _ Fmem). cbn [mbind outcome_bind]. pose proof (put_store _ _ _ Fm (length_sector_at mem phys)) as Hst. rewrite Hst.
      eexists _, _. split_and!; [done|done|by eapply length_store|done].
    - rewrite (sector_at_load _ _ Fm). cbn [mbind outcome_bind]. pose proof (put_store _ _ _ Fmem (length_sector_at m sect)) as Hst. rewrite Hst.
      eexists _, _. split_and!; [done|done|done|by eapply length_store]. }
  cbn [mbind option_bind]. destruct (IH (sect + SECTOR_SIZE) (phys + SECTOR_SIZE) m1 mem1) as (m2 & mem2 & -> & Ht2 & L3 & L4); try lia.
  exists m2, mem2. split; [done|]. split_and!; [|lia|lia].
  replace (SECTOR_SIZE * Z.of_nat (S n)) with (SECTOR_SIZE + SECTOR_SIZE * Z.of_nat n) by lia. eapply transfer_join; try done; lia.
Qed.

(** ** A file system and a session *)

(** Files by name and descriptors by number. *)
Record disk : Type := MkDisk { disk_by_name : gmap (list Z) (list Z); disk_open_fds : gmap Z (list Z) }.

Definition fresh_fd (fds : gmap Z (list Z)) : Z := 1 + map_fold (fun k _ z => Z.max k z) 2 fds.

Lemma fd_is_fresh fds : 0 <= fresh_fd fds /\ fds !! fresh_fd fds = None.
Proof.
  unfold fresh_fd. assert (forall z m, z = map_fold (fun k (_ : list Z) z => Z.max k z) 2 m -> 2 <= z /\ forall k p, (m : gmap Z (list Z)) !! k = Some p -> k <= z) as Hb.
  { intros z m ->. apply (map_fold_weak_ind (fun z m => 2 <= z /\ forall k p, (m : gmap Z (list Z)) !! k = Some p -> k <= z)).
    - split; [lia|]. intros k p. by rewrite lookup_empty.
    - intros k p m' r _ [Hr IH]. split; [lia|]. intros k' p'. destruct (decide (k' = k)) as [->|Hne]; [lia|]. rewrite lookup_insert_ne by done. intros Hk%IH. lia. }
  destruct (Hb _ fds eq_refl) as [H2 Hall]. split; [lia|]. apply eq_None_not_Some. intros [p Hp]. apply Hall in Hp. lia.
Qed.

#[global] Instance named_files : Files disk :=
  MkFiles disk
    (fun w p => match disk_by_name w !! p with
                | Some _ => (fresh_fd (disk_open_fds w), MkDisk (disk_by_name w) (<[fresh_fd (disk_open_fds w) := p]> (disk_open_fds w)))
                | None => (-1, w)
                end)
    (fun _ _ => MkSlurp (-1) 0 false 0 [])
    (fun w fd n off => match disk_open_fds w !! fd ≫= (disk_by_name w !!.) with
                       | Some m => let bs := take (Z.to_nat n) (drop (Z.to_nat off) m) in (Z.of_nat (length bs), bs)
                       | None => (-1, [])
                       end)
    (fun w fd bs off => match disk_open_fds w !! fd with
                        | Some p => match store (default [] (disk_by_name w !! p)) off bs with
                                    | Ret m' => (Z.of_nat (length bs), MkDisk (<[p := m']> (disk_by_name w)) (disk_open_fds w))
                                    | _ => (-1, w)
                                    end
                        | None => (-1, w)
                        end)
    (fun w fd => MkDisk (disk_by_name w) (delete fd (disk_open_fds w))) (fun _ _ => None).

#[global] Instance named_disk_ok : DiskOk disk.
Proof.
  refine (MkDiskOk disk _ disk_by_name disk_open_fds _ _ _ _ _); cbn.
  - intros w p [m ->]. destruct (fd_is_fresh (disk_open_fds w)). done.
  - by intros w p ->.
  - intros w fd p m n off -> Hm _ _. cbn. by rewrite Hm.
  - intros w fd p m bs off m' -> Hm Hs. rewrite Hm. cbn. by rewrite Hs.
  - done.
Defined.

Definition fs1 : list Z := bytes_of_string "/boot/modem_fs1".
Definition demo_names : disk := MkDisk {[ fs1 := replicate 512 1 ++ replicate 512 2 ]} ∅.

(** Node 0 opens a partition, learns the address, and writes a sector; the modem
    clears the memory; node 5 opens the same partition and reads it, also behind its end
    and beyond the memory; it is refused the handle of node 0 and a partition whose file is missing; node 0
    closes. *)
Definition demo_session : list event :=
  [Asks (MkSq 42 0 20) 1 (ROpen fs1); Asks (MkSq 42 0 20) 2 (RAlloc 0 1024); Asks (MkSq 42 0 20) 3 (RRw 0 true [MkIovec 1 4096 1] 0);
   Writes (replicate 1024 0); Asks (MkSq 42 5 30) 4 (ROpen fs1); Asks (MkSq 42 5 30) 5 (RRw 1 false [MkIovec 0 4096 1; MkIovec 1 4608 1] 0);
   Asks (MkSq 42 5 30) 9 (RRw 1 false [MkIovec 1 4096 2] 0); Asks (MkSq 42 5 30) 10 (RRw 1 false [MkIovec 0 4608 2] 0);
   Asks (MkSq 42 5 30) 6 (RRw 0 false [] 0); Asks (MkSq 42 5 30) 7 (ROpen (bytes_of_string "/boot/modem_fs2")); Asks (MkSq 42 0 20) 8 (RClose 0)].

Definition demo_answers : list (Z * modem_req * answer) :=
  zip_with (fun x a => (x, a))
    [(1, ROpen fs1); (2, RAlloc 0 1024); (3, RRw 0 true [MkIovec 1 4096 1] 0); (4, ROpen fs1); (5, RRw 1 false [MkIovec 0 4096 1; MkIovec 1 4608 1] 0);
     (9, RRw 1 false [MkIovec 1 4096 2] 0); (10, RRw 1 false [MkIovec 0 4608 2] 0); (6, RRw 0 false [] 0); (7, ROpen (bytes_of_string "/boot/modem_fs2")); (8, RClose 0)]
    [AOpened 0; AAllocated 4096; AMoved; AOpened 1; AMoved; AMoved; AFailed; AFailed; AFailed; AClosed].

Definition demo_after : svc :=
  MkSvc ((0, None) :: (5, Some 0%nat) :: replicate 8 (0, None)) {[ fs1 := replicate 512 1 ++ replicate 512 9 ]} (replicate 512 9 ++ replicate 512 1).

Definition session_input (ev : event) : input (D := list Z) :=
  match ev with
  | Asks from txn r => Packet (MkReq demo_stack (Z.of_nat (length (req_message txn r))) 0 (req_message txn r ++ replicate 100 170) from)
  | Writes mem => ModemWrites (MkMem 4096 1024 (Some mem) [])
  end.

Definition demo_setup : setup := MkSetup 7 0 0 (MkSockname 0 (MkSq 42 1 9) 12) 20.

Lemma rmtfs_keeps_contract_witness :
  exists s0 s', rmtfs_main [] (Some demo_mapped) demo_names demo_setup true = inr s0 /\ session s0 (session_input <$> demo_session) = Some s'
    /\ s_log s' = s_log s0 ++ (replied <$> demo_answers) /\ s_pc s' = Top
    /\ dk_files (world (rs_storage (s_state s'))) = sv_files demo_after /\ mem_ok (rs_mem (s_state s')) (sv_mem demo_after).
Proof.
  apply (rmtfs_keeps_contract [] (MkCfg None false false (-1) false) demo_mapped demo_names demo_setup true demo_mem demo_session (session_input <$> demo_session) demo_after demo_answers).
  - reflexivity.
  - reflexivity.
  - reflexivity.
  - reflexivity.
  - by split.
  - reflexivity.
  - vm_compute. reflexivity.
  - repeat constructor; try done; vm_compute; try done; repeat constructor; done || lia.
Defined.
