(* ===== verification/HexDump.v ===== *)
(** * The hex dump of rmtfs (src/qcom/rmtfs/util.c)

    [print_hex_dump] prints a buffer in lines of sixteen bytes, each built in an
    array of 65 characters.  The theorem reads the lines back. *)

From Stdlib Require Import ZArith Lia.
From stdpp Require Import base list numbers strings.
From S2P Require Import Prelude CLib.

Definition to_hex (ch : Z) : Z := let ch := Z.land ch 15 in if ch <=? 9 then 48 + ch else 97 + ch - 10.

(** [isprint] of the C locale. *)
Definition isprint (ch : Z) : bool := (32 <=? ch) && (ch <? 127).

(** [line[li++] = c] for the characters [cs]. *)
Fixpoint puts_line (line : list Z) (li : Z) (cs : list Z) : outcome (list Z * Z) :=
  match cs with [] => Ret (line, li) | c :: cs' => line ← store line li [c]; puts_line line (li + 1) cs' end.

(** The three loops over [j], each for [n] turns from [ptr[k]] on. *)
Fixpoint hex_loop (n : nat) (ptr : list Z) (k : Z) (line : list Z) (li : Z) : outcome (list Z * Z) :=
  match n with
  | O => Ret (line, li)
  | S n' =>
      bs ← load ptr k 1;
      let ch := default 0 (head bs) in
      '(line, li) ← puts_line line li [to_hex (Z.shiftr ch 4); to_hex ch; 32];
      hex_loop n' ptr (k + 1) line li
  end.

Fixpoint blank_loop (n : nat) (line : list Z) (li : Z) : outcome (list Z * Z) :=
  match n with O => Ret (line, li) | S n' => '(line, li) ← puts_line line li [32; 32; 32]; blank_loop n' line li end.

Fixpoint text_loop (n : nat) (ptr : list Z) (k : Z) (line : list Z) (li : Z) : outcome (list Z * Z) :=
  match n with
  | O => Ret (line, li)
  | S n' =>
      bs ← load ptr k 1;
      let ch := default 0 (head bs) in
      '(line, li) ← puts_line line li [if isprint ch then ch else 46];
      text_loop n' ptr (k + 1) line li
  end.

(** The digits of [%04x]. *)
Fixpoint hex_digits (fuel : nat) (z : Z) (acc : list Z) : list Z :=
  match fuel with
  | O => acc
  | S fuel' => let acc := to_hex z :: acc in if z <? 16 then acc else hex_digits fuel' (Z.shiftr z 4) acc
  end.

Definition sprintf_04x (z : Z) : list Z := let ds := hex_digits 8 z [] in replicate (4 - length ds) 48 ++ ds.

(** The string in [line], printed by [%s]. *)
Definition line_text (line : list Z) : outcome (list Z) := let s := until_nul line in if bool_decide (s = line) then Fault else Ret s.

(** One turn of the outer loop: the line printed, and the array. *)
Definition dump_line (prefix ptr : list Z) (len i : Z) (line : list Z) : outcome (list Z * list Z) :=
  let linelen := Z.to_nat (Z.min 16 (len - i)) in
  '(line, li) ← hex_loop linelen ptr i line 0;
  '(line, li) ← blank_loop (16 - linelen) line li;
  '(line, li) ← text_loop linelen ptr i line li;
  line ← store line li [0];
  text ← line_text line;
  Ret (prefix ++ [32] ++ sprintf_04x i ++ bytes_of_string ": " ++ text ++ [10], line).

(** [i] is an [int]; [line] is the array with its old content.  A turn moves on by 16. *)
Fixpoint dump_loop (fuel : nat) (prefix ptr : list Z) (len i : Z) (line : list Z) : outcome (list (list Z)) :=
  match fuel with
  | O => OutOfFuel
  | S fuel' =>
      if i <? len then
        '(out, line) ← dump_line prefix ptr len i line;
        if 2147483647 <? i + 16 then Fault else outs ← dump_loop fuel' prefix ptr len (i + 16) line; Ret (out :: outs)
      else Ret []
  end.

Definition print_hex_dump (prefix ptr : list Z) (len : Z) (line : list Z) : outcome (list (list Z)) :=
  dump_loop (S (Z.to_nat len)) prefix ptr len 0 line.

(** ** One line *)

Lemma puts_line_at a b c cs :
  length b = length cs -> puts_line (a ++ b ++ c) (Z.of_nat (length a)) cs = Ret (a ++ cs ++ c, Z.of_nat (length a + length cs)).
Proof.
  revert a b. induction cs as [|x cs IH]; intros a b Hb; [destruct b; [|done]; cbn; by rewrite Nat.add_0_r|].
  destruct b as [|y b]; [done|]. cbn [puts_line]. change (a ++ (y :: b) ++ c) with (a ++ [y] ++ (b ++ c)).
  rewrite (store_mid a [y] [x] (b ++ c)) by done. cbn [mbind outcome_bind]. rewrite app_assoc.
  replace (Z.of_nat (length a) + 1) with (Z.of_nat (length (a ++ [x]))) by (rewrite length_app; cbn [length]; lia).
  rewrite IH by (by injection Hb). rewrite length_app, <- !app_assoc. cbn [length app]. do 2 f_equal. lia.
Qed.

Definition hex_cols (bs : list Z) : list Z := concat ((fun ch => [to_hex (Z.shiftr ch 4); to_hex ch; 32]) <$> bs).
Definition text_cols (bs : list Z) : list Z := (fun ch => if isprint ch then ch else 46) <$> bs.

Lemma length_hex_cols bs : length (hex_cols bs) = (3 * length bs)%nat.
Proof. unfold hex_cols. induction bs as [|b bs IH]; [done|]. cbn [fmap list_fmap concat length app] in *. lia. Qed.

(** A loop that writes [f ch] for every byte it reads. *)
Lemma hex_loop_at bs : forall p q a b c,
  length b = (3 * length bs)%nat ->
  hex_loop (length bs) (p ++ bs ++ q) (Z.of_nat (length p)) (a ++ b ++ c) (Z.of_nat (length a)) = Ret (a ++ hex_cols bs ++ c, Z.of_nat (length a + length b)).
Proof.
  induction bs as [|x bs IH]; intros p q a b c Hb; [destruct b; [|done]; cbn; by rewrite Nat.add_0_r|].
  cbn [length hex_loop]. change (p ++ (x :: bs) ++ q) with (p ++ [x] ++ (bs ++ q)). rewrite (load_mid p [x]) by done. cbn [mbind outcome_bind head default from_option id].
  rewrite <- (take_drop 3 b), <- app_assoc. rewrite (puts_line_at a (take 3 b)) by (rewrite length_take; cbn [length] in *; lia). cbn [mbind outcome_bind].
  rewrite (app_assoc a), (app_assoc p). replace (Z.of_nat (length p) + 1) with (Z.of_nat (length (p ++ [x]))) by (rewrite length_app; cbn [length]; lia).
  rewrite <- length_app. rewrite IH by (rewrite length_drop; cbn [length] in *; lia).
  unfold hex_cols. rewrite fmap_cons. cbn [concat]. rewrite <- !app_assoc. do 2 f_equal. rewrite !length_app, length_take, length_drop. cbn [length] in *. lia.
Qed.

Lemma blank_loop_at n : forall a b c,
  length b = (3 * n)%nat -> blank_loop n (a ++ b ++ c) (Z.of_nat (length a)) = Ret (a ++ replicate (3 * n) 32 ++ c, Z.of_nat (length a + length b)).
Proof.
  induction n as [|n IH]; intros a b c Hb; [destruct b; [|done]; cbn; by rewrite Nat.add_0_r|]. cbn [blank_loop].
  rewrite <- (take_drop 3 b), <- app_assoc. rewrite (puts_line_at a (take 3 b)) by (rewrite length_take; cbn [length]; lia). cbn [mbind outcome_bind].
  rewrite (app_assoc a), <- length_app. rewrite IH by (rewrite length_drop; lia).
  replace (3 * S n)%nat with (S (S (S (3 * n)))) by lia. cbn [replicate]. rewrite <- !app_assoc. do 2 f_equal. rewrite !length_app, length_take, length_drop. cbn [length]. lia.
Qed.

Lemma text_loop_at bs : forall p q a b c,
  length b = length bs ->
  text_loop (length bs) (p ++ bs ++ q) (Z.of_nat (length p)) (a ++ b ++ c) (Z.of_nat (length a)) = Ret (a ++ text_cols bs ++ c, Z.of_nat (length a + length b)).
Proof.
  induction bs as [|x bs IH]; intros p q a b c Hb; [destruct b; [|done]; cbn; by rewrite Nat.add_0_r|].
  destruct b as [|y b]; [done|]. cbn [length text_loop]. change (p ++ (x :: bs) ++ q) with (p ++ [x] ++ (bs ++ q)). rewrite (load_mid p [x]) by done.
  cbn [mbind outcome_bind head default from_option id]. change (a ++ (y :: b) ++ c) with (a ++ [y] ++ (b ++ c)). rewrite (puts_line_at a [y]) by done. cbn [mbind outcome_bind].
  rewrite (app_assoc a), (app_assoc p). replace (Z.of_nat (length p) + 1) with (Z.of_nat (length (p ++ [x]))) by (rewrite length_app; cbn [length]; lia).
  rewrite <- length_app. rewrite IH by (by injection Hb). rewrite <- !app_assoc, !length_app. cbn [app length]. do 2 f_equal. lia.
Qed.

(** The text of a line for up to sixteen bytes. *)
Definition line_of (bs : list Z) : list Z := hex_cols bs ++ replicate (3 * (16 - length bs)) 32 ++ text_cols bs.

Lemma to_hex_nonzero ch : to_hex ch <> 0.
Proof. unfold to_hex. assert (0 <= Z.land ch 15) by (apply Z.land_nonneg; lia). destruct (Z.leb_spec (Z.land ch 15) 9); lia. Qed.

Lemma until_nul_line bs rest : until_nul (line_of bs ++ 0 :: rest) = line_of bs.
Proof.
  assert (Forall (fun c => c <> 0) (line_of bs)) as Hn.
  { unfold line_of. rewrite !Forall_app. split_and!.
    - unfold hex_cols. induction bs as [|b bs IH]; [constructor|]. rewrite fmap_cons. cbn [concat app]. repeat (constructor; [first [apply to_hex_nonzero|done]|]). exact IH.
    - by apply Forall_replicate.
    - unfold text_cols. apply Forall_fmap, list.Forall_forall. intros ch _. cbn. unfold isprint. destruct (Z.leb_spec 32 ch); cbn [andb]; [|done]. destruct (_ <? 127); lia. }
  induction Hn as [|c l Hc _ IH]; [done|]. cbn [app until_nul]. destruct (Z.eqb_spec c 0); [done|]. by rewrite IH.
Qed.

Lemma dump_line_spec prefix p bs q len line :
  (length bs <= 16)%nat -> Z.min 16 (len - Z.of_nat (length p)) = Z.of_nat (length bs) -> length line = 65%nat ->
  exists line', length line' = 65%nat /\
    dump_line prefix (p ++ bs ++ q) len (Z.of_nat (length p)) line
    = Ret (prefix ++ [32] ++ sprintf_04x (Z.of_nat (length p)) ++ bytes_of_string ": " ++ line_of bs ++ [10], line').
Proof.
  intros Hn Hmin Hl. unfold dump_line. rewrite Hmin, Nat2Z.id. set (n := length bs) in *.
  assert (exists l1 l2 l3 z l4, line = l1 ++ l2 ++ l3 ++ [z] ++ l4 /\ length l1 = (3 * n)%nat /\ length l2 = (3 * (16 - n))%nat /\ length l3 = n) as (l1 & l2 & l3 & z & l4 & -> & H1 & H2 & H3).
  { exists (take (3 * n) line), (take (3 * (16 - n)) (drop (3 * n) line)), (take n (drop 48 line)). destruct (drop (48 + n) line) as [|z l4] eqn:E.
    - apply (f_equal length) in E. rewrite length_drop in E. cbn [length] in E. lia.
    - exists z, l4. rewrite !length_take, !length_drop. split_and!; [|lia..].
      cbn [app]. rewrite <- E. rewrite <- (drop_drop line n 48), take_drop.
      replace (drop 48 line) with (drop (3 * (16 - n)) (drop (3 * n) line)) by (rewrite drop_drop; f_equal; lia). by rewrite !take_drop. }
  pose proof (hex_loop_at bs p q [] l1 (l2 ++ l3 ++ [z] ++ l4) H1) as Hh. cbn [app length Nat.add] in Hh. change (Z.of_nat 0) with 0 in Hh. fold n in Hh. cbn [app]. rewrite Hh. cbn [mbind outcome_bind].
  rewrite H1. replace (3 * n)%nat with (length (hex_cols bs)) by (rewrite length_hex_cols; done). rewrite (blank_loop_at (16 - n)) by done. cbn [mbind outcome_bind].
  rewrite (app_assoc (hex_cols bs)). replace (length (hex_cols bs) + length l2)%nat with (length (hex_cols bs ++ replicate (3 * (16 - n)) 32%Z)) by (rewrite length_app, length_replicate; lia).
  pose proof (text_loop_at bs p q (hex_cols bs ++ replicate (3 * (16 - n)) 32) l3 (z :: l4) H3) as Ht. fold n in Ht. rewrite Ht. cbn [mbind outcome_bind]. rewrite (app_assoc (hex_cols bs ++ _)).
  set (lt := (hex_cols bs ++ replicate (3 * (16 - n)) 32) ++ text_cols bs). assert (lt = line_of bs) as Hlt by (unfold lt, line_of; by rewrite <- app_assoc).
  rewrite H3 in *. replace (length (hex_cols bs ++ replicate (3 * (16 - n)) 32%Z) + n)%nat with (length lt) by (unfold lt, text_cols; rewrite !length_app, length_fmap; lia).
  change (lt ++ z :: l4) with (lt ++ [z] ++ l4). rewrite (store_mid lt [z] [0] l4) by done. cbn [mbind outcome_bind app].
  unfold line_text. rewrite Hlt, until_nul_line. rewrite bool_decide_eq_false_2.
  2:{ intros He. apply (f_equal length) in He. rewrite length_app in He. cbn [length] in He. lia. }
  cbn [mbind outcome_bind]. eexists. split; [|done]. rewrite <- Hl. rewrite !length_app. cbn [length]. rewrite <- Hlt. unfold lt, text_cols. rewrite !length_app, length_replicate, length_fmap, length_hex_cols. lia.
Qed.

(** ** The whole dump *)

(** The dump of [bs], whose first byte is at offset [i] of the buffer. *)
Fixpoint dump_of (fuel : nat) (prefix bs : list Z) (i : Z) : list (list Z) :=
  match fuel, bs with
  | S fuel', _ :: _ => (prefix ++ [32] ++ sprintf_04x i ++ bytes_of_string ": " ++ line_of (take 16 bs) ++ [10]) :: dump_of fuel' prefix (drop 16 bs) (i + 16)
  | _, _ => []
  end.

Lemma dump_loop_spec prefix fuel : forall p bs line,
  (length bs < fuel)%nat -> Z.of_nat (length p + length bs) < 2147483632 -> length line = 65%nat ->
  dump_loop fuel prefix (p ++ bs) (Z.of_nat (length p + length bs)) (Z.of_nat (length p)) line = Ret (dump_of fuel prefix bs (Z.of_nat (length p))).
Proof.
  induction fuel as [|fuel IH]; intros p bs line Hf Hb Hl; [lia|]. cbn [dump_loop dump_of]. destruct bs as [|b bs']; [cbn [length]; rewrite Nat.add_0_r, Z.ltb_irrefl; done|].
  set (bs := b :: bs') in *. destruct (Z.ltb_spec (Z.of_nat (length p)) (Z.of_nat (length p + length bs))) as [_|H]; [|cbn [bs length] in H; lia].
  assert (length (take 16 bs) <= 16)%nat as Ht by (rewrite length_take; lia).
  destruct (dump_line_spec prefix p (take 16 bs) (drop 16 bs) (Z.of_nat (length p + length bs)) line Ht) as (line' & Hl' & E); [rewrite length_take; lia|done|].
  rewrite take_drop in E. rewrite E. cbn [mbind outcome_bind]. destruct (Z.ltb_spec 2147483647 (Z.of_nat (length p) + 16)) as [H|_]; [lia|].
  destruct (decide (length bs <= 16)%nat) as [Hs|Hs].
  - rewrite (drop_ge bs) by lia. destruct fuel; [cbn [bs length] in Hf; lia|]. cbn [dump_loop dump_of]. destruct (Z.ltb_spec (Z.of_nat (length p) + 16) (Z.of_nat (length p + length bs))); [lia|done].
  - specialize (IH (p ++ take 16 bs) (drop 16 bs) line'). rewrite <- app_assoc, take_drop, !length_app, length_take, length_drop in IH.
    replace (length p + 16 `min` length bs + (length bs - 16))%nat with (length p + length bs)%nat in IH by lia.
    replace (Z.of_nat (length p + 16 `min` length bs)) with (Z.of_nat (length p) + 16) in IH by lia.
    by rewrite IH by lia.
Qed.

(** ** Reading a dump *)

Definition hex_value (c : Z) : Z := if c <=? 57 then c - 48 else c - 87.

(** Up to [n] columns, of which the first blank one ends the line. *)
Fixpoint read_cols (n : nat) (l : list Z) : list Z :=
  match n, l with
  | S n', h :: lo :: _ :: rest => if h =? 32 then [] else 16 * hex_value h + hex_value lo :: read_cols n' rest
  | _, _ => []
  end.

Fixpoint after_colon (l : list Z) : list Z := match l with [] => [] | c :: l' => if c =? 58 then l' else after_colon l' end.

(** A line of a dump with a prefix of [n] characters. *)
Definition undump (n : nat) (l : list Z) : list Z := read_cols 16 (drop 1 (after_colon (drop n l))).

Lemma to_hex_char ch : 48 <= to_hex ch <= 57 \/ 97 <= to_hex ch <= 102.
Proof.
  unfold to_hex. assert (0 <= Z.land ch 15 < 16) as H by (change 15 with (Z.ones 4); rewrite Z.land_ones by lia; apply Z.mod_pos_bound; lia).
  destruct (Z.leb_spec (Z.land ch 15) 9); lia.
Qed.

Lemma hex_value_to_hex ch : hex_value (to_hex ch) = ch mod 16.
Proof.
  unfold hex_value, to_hex. change 15 with (Z.ones 4). rewrite Z.land_ones by lia. change (2 ^ 4) with 16. pose proof (Z.mod_pos_bound ch 16 ltac:(lia)).
  destruct (Z.leb_spec (ch mod 16) 9); [destruct (Z.leb_spec (48 + ch mod 16) 57)|destruct (Z.leb_spec (97 + ch mod 16 - 10) 57)]; lia.
Qed.

Lemma read_hex_cols bs : forall n rest,
  Forall is_byte bs -> (length bs <= n)%nat -> (length bs = n \/ exists r, rest = 32 :: r) -> read_cols n (hex_cols bs ++ rest) = bs.
Proof.
  induction bs as [|b bs IH]; intros n rest Hb Hn Hr.
  - cbn [hex_cols fmap list_fmap concat app]. destruct n as [|n]; [done|]. destruct Hr as [|[r ->]]; [done|]. by destruct r as [|? [|? ?]].
  - destruct n as [|n]; [cbn [length] in Hn; lia|]. apply list.Forall_cons in Hb as [Hb Hbs]. unfold is_byte in Hb. cbn [length] in *.
    change (hex_cols (b :: bs)) with ([to_hex (Z.shiftr b 4); to_hex b; 32] ++ hex_cols bs). cbn [app read_cols].
    destruct (Z.eqb_spec (to_hex (Z.shiftr b 4)) 32) as [E|_]; [pose proof (to_hex_char (Z.shiftr b 4)); lia|].
    rewrite !hex_value_to_hex, Z.shiftr_div_pow2 by lia. change (2 ^ 4) with 16. f_equal; [Z.div_mod_to_equations; lia|].
    apply IH; [done|lia|]. destruct Hr as [Hr|Hr]; [left; lia|by right].
Qed.

Lemma hex_digits_no_colon fuel : forall z acc, Forall (fun c => c <> 58) acc -> Forall (fun c => c <> 58) (hex_digits fuel z acc).
Proof.
  induction fuel as [|fuel IH]; intros z acc Ha; [done|]. cbn [hex_digits].
  assert (Forall (fun c => c <> 58) (to_hex z :: acc)) by (constructor; [pose proof (to_hex_char z); lia|done]). destruct (z <? 16); auto.
Qed.

Lemma after_colon_app l rest : Forall (fun c => c <> 58) l -> after_colon (l ++ 58 :: rest) = rest.
Proof. induction 1 as [|c l Hc _ IH]; [done|]. cbn [app after_colon]. by destruct (Z.eqb_spec c 58). Qed.

Lemma undump_line prefix i bs :
  Forall is_byte bs -> (length bs <= 16)%nat -> undump (length prefix) (prefix ++ [32] ++ sprintf_04x i ++ bytes_of_string ": " ++ line_of bs ++ [10]) = bs.
Proof.
  intros Hb Hn. unfold undump. rewrite drop_app_length.
  replace ([32] ++ sprintf_04x i ++ bytes_of_string ": " ++ line_of bs ++ [10]) with ((32 :: sprintf_04x i) ++ 58 :: 32 :: line_of bs ++ [10]) by done.
  rewrite after_colon_app.
  - cbn [drop]. unfold line_of. rewrite <- !app_assoc. apply read_hex_cols; [done|done|]. destruct (decide (length bs = 16%nat)); [by left|right].
    destruct (3 * (16 - length bs))%nat eqn:E; [lia|]. cbn [replicate app]. eauto.
  - constructor; [done|]. unfold sprintf_04x. apply Forall_app. split; [by apply Forall_replicate|by apply hex_digits_no_colon].
Qed.

Lemma undump_dump_of prefix fuel : forall bs i,
  (length bs < fuel)%nat -> Forall is_byte bs -> concat (undump (length prefix) <$> dump_of fuel prefix bs i) = bs.
Proof.
  induction fuel as [|fuel IH]; intros bs i Hf Hb; [lia|]. cbn [dump_of]. destruct bs as [|b bs']; [done|]. set (bs := b :: bs') in *.
  rewrite fmap_cons. cbn [concat]. rewrite undump_line; [|by apply Forall_take|rewrite length_take; lia].
  rewrite IH; [apply take_drop|rewrite length_drop; cbn [bs length] in *; lia|by apply Forall_drop].
Qed.

(** The dump of a buffer of bytes stays inside the line of 65 characters and inside the
    buffer, ends, and its lines read back as the buffer. *)
Theorem hex_dump_read_back prefix buf line :
  Forall is_byte buf -> Z.of_nat (length buf) < 2147483632 -> length line = 65%nat ->
  exists outs, print_hex_dump prefix buf (Z.of_nat (length buf)) line = Ret outs /\ concat (undump (length prefix) <$> outs) = buf.
Proof.
  intros Hb Hlen Hl. exists (dump_of (S (length buf)) prefix buf 0). split; [|apply undump_dump_of; [lia|done]].
  unfold print_hex_dump. rewrite Nat2Z.id. exact (dump_loop_spec prefix (S (length buf)) [] buf line ltac:(lia) Hlen Hl).
Qed.

Example hex_dump_example :
  exists outs, print_hex_dump (bytes_of_string "<") [0; 65; 255] 3 (replicate 65 0) = Ret outs
    /\ outs = [bytes_of_string "< 0000: 00 41 ff                                        .A." ++ [10]].
Proof. eexists. split; [vm_compute; reflexivity|reflexivity]. Qed.
