(* ===== verification/Locks.v ===== *)
(** * Threads that take locks

    A program is a sequence of lock operations and accesses to shared fields.
    Threads run their programs interleaved.  Where each program takes its locks in the order of a
    rank and accesses guarded fields under their lock, the threads cannot block
    each other for good and do not race for these fields.  The HALs of the repository give the
    locks, fields and programs. *)

From Stdlib Require Import ZArith Lia.
From stdpp Require Import base list numbers.
From S2P Require Import Prelude.

(** The locks of a component, the fields they guard and the order they are taken in. *)
Class LockSystem (L F : Type) : Type := MkLocks
  { lock_eqb : L -> L -> bool;
    lock_eqb_spec : forall a b, lock_eqb a b = true <-> a = b;
    guard : F -> option L;
    rank : L -> nat;
    rank_max : nat;
    rank_below : forall l, (rank l < rank_max)%nat }.

Inductive action (L F : Type) : Type := Lock (l : L) | Unlock (l : L) | Read (f : F) | Write (f : F).
Arguments Lock {L F}.
Arguments Unlock {L F}.
Arguments Read {L F}.
Arguments Write {L F}.

(** A section of code under a lock. *)
Definition locked {L F} (l : L) (acts : list (action L F)) : list (action L F) := [Lock l] ++ acts ++ [Unlock l].

Section threads.
Context {L F : Type} `{LockSystem L F}.
Let act : Type := action L F.

(** ** Threads

    A mutex can be taken when no thread holds it, and is given back by its
    holder; anything else blocks. *)

Record thread : Type := MkThread { held : list L; rest : list act }.

Definition mem (l : L) (h : list L) : bool := existsb (lock_eqb l) h.
Definition without (l : L) (h : list L) : list L := List.filter (fun k => negb (lock_eqb l k)) h.

Definition thread_step (ts : list thread) (t : thread) : option thread :=
  match rest t with
  | [] => None
  | Lock l :: p => if existsb (fun t' => mem l (held t')) ts then None else Some (MkThread (l :: held t) p)
  | Unlock l :: p => if mem l (held t) then Some (MkThread (without l (held t)) p) else None
  | (Read _ | Write _) :: p => Some (MkThread (held t) p)
  end.

Definition sys_step (i : nat) (ts : list thread) : option (list thread) :=
  t ← ts !! i; t' ← thread_step ts t; Some (<[i := t']> ts).

Fixpoint run (sched : list nat) (ts : list thread) : option (list thread) :=
  match sched with [] => Some ts | i :: sched' => ts' ← sys_step i ts; run sched' ts' end.

(** Threads at the start of their programs. *)
Definition start_threads (progs : list (list act)) : list thread := MkThread [] <$> progs.

Definition finished (ts : list thread) : Prop := Forall (fun t => rest t = []) ts.
Definition remaining (ts : list thread) : nat := sum_list ((fun t => length (rest t)) <$> ts).

(** Two threads about to access the same field, one of them writing. *)
Definition racing (f : F) (ts : list thread) : Prop :=
  exists i j ti tj p q, i <> j /\ ts !! i = Some ti /\ ts !! j = Some tj /\ rest ti = Write f :: p /\ (rest tj = Write f :: q \/ rest tj = Read f :: q).

(** ** The order of the locks *)

(** A thread that holds [h] takes locks in the order of their rank, gives back what
    it holds, accesses the guarded fields of [chk] under their lock, and ends with
    nothing held. *)
Fixpoint ordered (chk : F -> bool) (h : list L) (p : list act) : bool :=
  match p with
  | [] => match h with [] => true | _ => false end
  | Lock l :: p' => forallb (fun k => (rank k <? rank l)%nat) h && ordered chk (l :: h) p'
  | Unlock l :: p' => mem l h && ordered chk (without l h) p'
  | (Read f | Write f) :: p' => match guard f with Some l => negb (chk f) || mem l h | None => true end && ordered chk h p'
  end.

Lemma ordered_app chk q : ordered chk [] q = true -> forall p h, ordered chk h p = true -> ordered chk h (p ++ q) = true.
Proof.
  intros Hq p. induction p as [|[l|l|f|f] p IH]; intros h Hp; cbn [app ordered] in *.
  1: by destruct h.
  all: apply andb_true_iff in Hp as [H1 H2]; by rewrite H1, IH.
Qed.

(** ** The invariant of a run *)

Lemma mem_spec l h : mem l h = true <-> l ∈ h.
Proof.
  unfold mem. rewrite existsb_exists. split.
  - intros (k & Hk & ->%lock_eqb_spec). by apply list_elem_of_In.
  - intros Hl. exists l. split; [by apply list_elem_of_In|by apply lock_eqb_spec].
Qed.

Lemma without_spec l k h : k ∈ without l h <-> k ∈ h /\ k <> l.
Proof.
  unfold without. rewrite !list_elem_of_In, filter_In, negb_true_iff, <- not_true_iff_false, lock_eqb_spec. intuition congruence.
Qed.

Definition exclusive (ts : list thread) : Prop :=
  forall i j ti tj l, ts !! i = Some ti -> ts !! j = Some tj -> l ∈ held ti -> l ∈ held tj -> i = j.

Definition invariant (chk : F -> bool) (ts : list thread) : Prop := Forall (fun t => ordered chk (held t) (rest t) = true) ts /\ exclusive ts.

Lemma start_invariant chk progs : Forall (fun p => ordered chk [] p = true) progs -> invariant chk (start_threads progs).
Proof.
  intros Hp. split.
  - apply Forall_fmap. exact Hp.
  - intros i j ti tj l Hi _ Hl _. unfold start_threads in Hi. rewrite list_lookup_fmap in Hi. destruct (progs !! i); [|done]. injection Hi as <-. by apply not_elem_of_nil in Hl.
Qed.

(** What a step does to its thread. *)
Lemma thread_step_facts chk ts t t' :
  thread_step ts t = Some t' -> ordered chk (held t) (rest t) = true ->
  ordered chk (held t') (rest t') = true /\ length (rest t) = S (length (rest t'))
  /\ forall l, l ∈ held t' -> l ∈ held t \/ Forall (fun t0 => l ∉ held t0) ts.
Proof.
  intros Hs Ho. destruct t as [h [|[l|l|f|f] p]]; cbn [thread_step held rest ordered] in *; [done|..]; apply andb_true_iff in Ho as [H1 H2].
  - destruct (existsb _ ts) eqn:E; [done|]. injection Hs as <-. cbn [held rest length]. split_and!; [done|done|]. intros k [->|Hk]%elem_of_cons; [right|by left].
    apply list.Forall_forall. intros t0 Ht Hin. rewrite <- not_true_iff_false, existsb_exists in E. apply E. exists t0. split; [by apply list_elem_of_In|by apply mem_spec].
  - destruct (mem l h); [|done]. injection Hs as <-. cbn [held rest length]. split_and!; [done|done|]. intros k [Hk _]%without_spec. by left.
  - injection Hs as <-. cbn [held rest length]. split_and!; [done|done|]. by left.
  - injection Hs as <-. cbn [held rest length]. split_and!; [done|done|]. by left.
Qed.

Lemma sum_list_insert (ns : list nat) i n m : ns !! i = Some (S n) -> m = n -> S (sum_list (<[i := m]> ns)) = sum_list ns.
Proof.
  intros Hi ->. revert i Hi. induction ns as [|k ns IH]; intros [|i] Hi; [done|done|injection Hi as ->; cbn; lia|]. specialize (IH i Hi). change (S (k + sum_list (<[i := n]> ns)) = k + sum_list ns)%nat. lia.
Qed.

Lemma step_invariant chk i ts ts' : sys_step i ts = Some ts' -> invariant chk ts -> invariant chk ts' /\ S (remaining ts') = remaining ts.
Proof.
  unfold sys_step. intros Hs [Ho He]. destruct (ts !! i) as [t|] eqn:Hi; [|done]. cbn [mbind option_bind] in Hs. destruct (thread_step ts t) as [t'|] eqn:E; [|done]. injection Hs as <-.
  destruct (thread_step_facts chk _ _ _ E (Forall_lookup_1 _ _ _ _ Ho Hi)) as (Ho' & Hlen & Hheld). split; [split|].
  - by apply Forall_insert.
  - assert (forall j tj l, j <> i -> ts !! j = Some tj -> l ∈ held t' -> l ∈ held tj -> False) as Hnew.
    { intros j tj l Hji Hj Hl Hlj. destruct (Hheld l Hl) as [Hold|Hfree]; [by apply Hji; eapply He|]. by apply (Forall_lookup_1 _ _ _ _ Hfree Hj). }
    intros a b ta tb l Ha Hb Hla Hlb. destruct (decide (a = i)) as [->|Hai], (decide (b = i)) as [->|Hbi]; [done|..].
    + rewrite list_lookup_insert_eq in Ha by (by eapply lookup_lt_Some). injection Ha as <-. rewrite list_lookup_insert_ne in Hb by done. by exfalso; eapply Hnew.
    + rewrite list_lookup_insert_eq in Hb by (by eapply lookup_lt_Some). injection Hb as <-. rewrite list_lookup_insert_ne in Ha by done. by exfalso; eapply Hnew.
    + rewrite list_lookup_insert_ne in Ha, Hb by done. by eapply He.
  - unfold remaining. rewrite list_fmap_insert. apply sum_list_insert with (n := length (rest t')); [|done]. by rewrite list_lookup_fmap, Hi, <- Hlen.
Qed.

Lemma run_invariant chk sched : forall ts ts', run sched ts = Some ts' -> invariant chk ts -> invariant chk ts' /\ (length sched + remaining ts' = remaining ts)%nat.
Proof.
  induction sched as [|i sched IH]; intros ts ts' Hr Hi; cbn [run] in Hr; [injection Hr as <-; by split|].
  destruct (sys_step i ts) as [ts1|] eqn:E; [|done]. destruct (step_invariant chk _ _ _ E Hi) as [Hi1 Hm]. destruct (IH _ _ Hr Hi1) as [Hi' Hm']. split; [done|]. cbn [length]. lia.
Qed.

(** ** What follows *)

(** A thread that cannot go on waits for a lock of a thread that holds it, whose own next
    lock has a higher rank. *)
Lemma progress_from chk n : forall ts i t a p,
  invariant chk ts -> ts !! i = Some t -> rest t = a :: p -> (match a with Lock l => rank_max - rank l | _ => 0 end <= n)%nat -> exists j ts', sys_step j ts = Some ts'.
Proof.
  induction n as [|n IH]; intros ts i t a p Hinv Hi Hr Hn; destruct (thread_step ts t) as [t'|] eqn:E; try (exists i, (<[i := t']> ts); unfold sys_step; rewrite Hi; cbn [mbind option_bind]; by rewrite E).
  - pose proof (Forall_lookup_1 _ _ _ _ (proj1 Hinv) Hi) as Ho. cbn beta in Ho. unfold thread_step in E. rewrite Hr in E, Ho. destruct a as [l|l|f|f]; cbn [ordered] in Ho; [pose proof (rank_below l); lia| |done|done].
    apply andb_true_iff in Ho as [H1 _]. by rewrite H1 in E.
  - pose proof (Forall_lookup_1 _ _ _ _ (proj1 Hinv) Hi) as Ho. cbn beta in Ho. unfold thread_step in E. rewrite Hr in E, Ho. destruct a as [l|l|f|f]; cbn [ordered] in Ho; [|apply andb_true_iff in Ho as [H1 _]; by rewrite H1 in E|done|done].
    destruct (existsb _ ts) eqn:Ex; [|done]. apply existsb_exists in Ex as (t1 & Ht1 & Hm). apply list_elem_of_In, list_elem_of_lookup in Ht1 as [j Hj].
    pose proof (Forall_lookup_1 _ _ _ _ (proj1 Hinv) Hj) as Ho1. cbn beta in Ho1. destruct (rest t1) as [|a1 p1] eqn:Hr1; [cbn [ordered] in Ho1; by destruct (held t1)|].
    apply (IH ts j t1 a1 p1 Hinv Hj Hr1). destruct a1 as [l1|l1|f1|f1]; try lia. cbn [ordered] in Ho1. apply andb_true_iff in Ho1 as [Hrank _].
    rewrite forallb_forall in Hrank. apply mem_spec in Hm. specialize (Hrank l (proj1 (list_elem_of_In _ _) Hm)). apply Nat.ltb_lt in Hrank. lia.
Qed.

Lemma progress chk ts : invariant chk ts -> finished ts \/ exists j ts', sys_step j ts = Some ts'.
Proof.
  intros Hinv. destruct (decide (Forall (fun t => rest t = []) ts)) as [Hf|Hf] eqn:Ed; [by left|right]. clear Ed.
  apply not_Forall_Exists in Hf; [|intros t; destruct (rest t); [by left|by right]]. apply list.Exists_exists in Hf as (t & Ht & Hne). apply list_elem_of_lookup in Ht as [i Hi].
  destruct (rest t) as [|a p] eqn:Hr; [done|]. by eapply progress_from.
Qed.

Lemma no_race chk (f : F) l ts : invariant chk ts -> guard f = Some l -> chk f = true -> ~ racing f ts.
Proof.
  intros [Ho He] Hg Hc (i & j & ti & tj & p & q & Hij & Hi & Hj & Hri & Hrj). apply Hij.
  pose proof (Forall_lookup_1 _ _ _ _ Ho Hi) as Hoi. pose proof (Forall_lookup_1 _ _ _ _ Ho Hj) as Hoj. cbn beta in Hoi, Hoj. rewrite Hri in Hoi. cbn [ordered] in Hoi. rewrite Hg, Hc in Hoi. apply andb_true_iff in Hoi as [Hli%mem_spec _].
  assert (l ∈ held tj) as Hlj by (destruct Hrj as [E|E]; rewrite E in Hoj; cbn [ordered] in Hoj; rewrite Hg, Hc in Hoj; apply andb_true_iff in Hoj as [Hm _]; by apply mem_spec).
  by eapply He.
Qed.

Lemma finished_free chk ts : invariant chk ts -> finished ts -> Forall (fun t => held t = []) ts.
Proof.
  intros [Ho _] Hf. unfold finished in Hf. apply list.Forall_forall. intros t Ht. rewrite list.Forall_forall in Ho, Hf. specialize (Ho t Ht). rewrite (Hf t Ht) in Ho. cbn [ordered] in Ho. by destruct (held t).
Qed.

(** What threads with ordered programs are sure of. *)
Lemma threads_complete chk progs sched ts :
  Forall (fun p => ordered chk [] p = true) progs -> run sched (start_threads progs) = Some ts ->
  (finished ts \/ exists i ts', sys_step i ts = Some ts')
  /\ (length sched + remaining ts = remaining (start_threads progs))%nat
  /\ (finished ts -> Forall (fun t => held t = []) ts)
  /\ forall f, is_Some (guard f) -> chk f = true -> ~ racing f ts.
Proof.
  intros Hp Hr. destruct (run_invariant chk _ _ _ Hr (start_invariant chk progs Hp)) as [Hinv Hlen].
  split_and!; [by eapply progress|done|by eapply finished_free|]. intros f [l Hg] Hc. by eapply no_race.
Qed.

(** ** What a thread has done

    A thread has run a part of its program and has the rest before it. *)

Lemma step_suffix i ts ts' : sys_step i ts = Some ts' -> forall j t', ts' !! j = Some t' -> exists t q, ts !! j = Some t /\ rest t = q ++ rest t'.
Proof.
  unfold sys_step. intros Hs j t' Hj. destruct (ts !! i) as [t|] eqn:Hi; [|done]. cbn [mbind option_bind] in Hs.
  destruct (thread_step ts t) as [t1|] eqn:E; [|done]. injection Hs as <-. destruct (decide (j = i)) as [->|Hji].
  - rewrite list_lookup_insert_eq in Hj by (by eapply lookup_lt_Some). injection Hj as <-. exists t. unfold thread_step in E.
    destruct (rest t) as [|[l|l|f|f] p] eqn:Hr; [done|..].
    + destruct (existsb _ ts); [done|]. injection E as <-. by exists [Lock l].
    + destruct (mem l (held t)); [|done]. injection E as <-. by exists [Unlock l].
    + injection E as <-. by exists [Read f].
    + injection E as <-. by exists [Write f].
  - rewrite list_lookup_insert_ne in Hj by done. by exists t', [].
Qed.

Lemma run_suffix sched : forall ts ts', run sched ts = Some ts' -> forall j t', ts' !! j = Some t' -> exists t q, ts !! j = Some t /\ rest t = q ++ rest t'.
Proof.
  induction sched as [|i sched IH]; intros ts ts' Hr j t' Hj; cbn [run] in Hr; [injection Hr as <-; by exists t', []|].
  destruct (sys_step i ts) as [ts1|] eqn:E; [|done]. destruct (IH _ _ Hr j t' Hj) as (t1 & q1 & H1 & Hq1).
  destruct (step_suffix _ _ _ E j t1 H1) as (t & q & Ht & Hq). exists t, (q ++ q1). split; [done|]. by rewrite Hq, Hq1, app_assoc.
Qed.

Lemma run_program progs sched ts i t :
  run sched (start_threads progs) = Some ts -> ts !! i = Some t -> exists p q, progs !! i = Some p /\ p = q ++ rest t.
Proof.
  intros Hr Hi. destruct (run_suffix _ _ _ Hr i t Hi) as (t0 & q & H0 & Hq). unfold start_threads in H0. rewrite list_lookup_fmap in H0.
  destruct (progs !! i) as [p|]; [|done]. injection H0 as <-. by exists p, q.
Qed.

(** The part of its program that a thread has run. *)
Definition past (prog : list act) (t : thread) : list act := take (length prog - length (rest t)) prog.

Lemma past_app q t : past (q ++ rest t) t = q.
Proof. unfold past. rewrite length_app, Nat.add_sub. by rewrite take_app_length. Qed.

End threads.
