(* ===== verification/AudioLocks.v ===== *)
(** * The mutexes of the audio HAL (src/audio/audio_hw.c and audio_aec.c)

    The calls of the HAL may come from several threads.  AudioHw models what they
    compute; here a call is the sequence of its lock operations and of its accesses to
    shared fields, in the order of the code, for every way its branches may go.
    Threads run such sequences interleaved.  The theorem says that they cannot
    block each other for good, that the guarded fields are not raced for and that a
    stream is not used after it was freed, where each stream is opened and closed
    by a thread that shares it with no other. *)

From Stdlib Require Import ZArith Lia.
From stdpp Require Import base list numbers strings.
From S2P Require Import Prelude Locks.

(** ** Locks and fields

    [Dev] is the lock of the device, [Aec] that of the echo reference, [Out o] and
    [In i] those of the streams. *)

Inductive lock : Type := In (i : Z) | Dev | Out (o : Z) | Aec.

Definition audio_lock_eqb (a b : lock) : bool :=
  match a, b with In i, In j => i =? j | Dev, Dev => true | Out o, Out p => o =? p | Aec, Aec => true | _, _ => false end.

Inductive stream : Type := OutStream (o : Z) | InStream (i : Z).

(** [OutState] and [InState] are [standby], [unavailable] and [pcm] of a stream, [OutDevices] its devices,
    [OutEq] its equaliser, [OutFrames] and [InFrames] its frame count and time
    stamp; [Fifos] the queues of the echo reference and what is kept with them,
    [MicBufs] the buffers for the microphone and what is kept with them.  [Fixed]
    is what does not change after a stream was opened, its configuration, source and
    device.  A write to [Memory s] gives the memory of the stream back. *)
Inductive field : Type :=
| MicMute | ActiveOutput | ActiveInput | SpkRunning | OutState (o : Z) | OutDevices (o : Z) | OutEq (o : Z) | InState (i : Z)
| OutFrames (o : Z) | InFrames (i : Z) | Fifos | MicBufs | Fixed (s : stream) | Memory (s : stream).

(** The lock a field is accessed under; the others have none. *)
Definition audio_guard (f : field) : option lock :=
  match f with
  | MicMute | ActiveOutput | ActiveInput => Some Dev
  | SpkRunning => Some Aec
  | OutState o | OutDevices o | OutEq o => Some (Out o)
  | InState i => Some (In i)
  | OutFrames _ | InFrames _ | Fifos | MicBufs | Fixed _ | Memory _ => None
  end.

(** The order the locks are taken in. *)
Definition audio_rank (l : lock) : nat := match l with In _ => 0 | Dev => 1 | Out _ => 2 | Aec => 3 end.

#[export] Instance audio_locks : LockSystem lock field.
Proof.
  refine (MkLocks lock field audio_lock_eqb _ audio_guard audio_rank 4 _).
  - intros a b. destruct a, b; cbn; rewrite ?Z.eqb_eq; (split; [congruence|]); by intros [=].
  - intros []; cbn; lia.
Defined.

#[local] Notation action := (Locks.action lock field).

(** ** The calls

    The boolean arguments are the conditions of the branches. *)

Definition aec_set_spk_running_acts : list action := locked Aec [Write SpkRunning].
Definition aec_get_spk_running_acts : list action := locked Aec [Read SpkRunning].

Definition destroy_aec_reference_config_no_lock_acts (initialized : bool) : list action :=
  [Read Fifos] ++ if initialized then [Write SpkRunning; Write Fifos] else [].
Definition destroy_aec_reference_config_acts (initialized : bool) : list action :=
  locked Aec (destroy_aec_reference_config_no_lock_acts initialized).
Definition init_aec_reference_config_acts (initialized : bool) : list action :=
  locked Aec (destroy_aec_reference_config_no_lock_acts initialized ++ [Write Fifos]).

Definition destroy_aec_mic_config_no_lock_acts (initialized : bool) : list action :=
  [Read MicBufs] ++ if initialized then [Write MicBufs] else [].
Definition destroy_aec_mic_config_acts (initialized : bool) : list action := locked Aec (destroy_aec_mic_config_no_lock_acts initialized).

(** [ready]: the buffers were allocated and there is a resampler where one is needed. *)
Definition init_aec_mic_config_acts (initialized ready : bool) : list action :=
  locked Aec (destroy_aec_mic_config_no_lock_acts initialized ++ [Read Fifos; Write MicBufs] ++ if ready then [Write Fifos; Write MicBufs] else []).

Definition write_to_reference_fifo_acts : list action := [Write Fifos].

(** [waited]: enough bytes arrived in time. *)
Definition get_reference_samples_acts (initialized waited : bool) : list action :=
  [Read Fifos] ++ if initialized && waited then [Write Fifos; Write MicBufs] else [].

(** [hal]: built with AEC_HAL; [ready]: both sides are configured; [fresh]: the speaker was not running before;
    [data]: there is something in the queue; [diverged]: the times are too far
    apart; [failed]: the canceller failed. *)
Definition process_aec_acts (hal ready running fresh data waited diverged failed : bool) : list action :=
  let ends (failed : bool) : list action := [Write MicBufs] ++ if failed then [Read MicBufs; Write Fifos] else [] in
  if negb hal then []
  else
    [Read MicBufs; Read Fifos]
    ++ if negb ready then []
       else
         [Write MicBufs] ++ aec_get_spk_running_acts
         ++ if negb running then ends false
            else
              [Read MicBufs] ++ (if fresh then [Write Fifos] else []) ++ [Read Fifos]
              ++ if negb data then ends false
                 else
                   get_reference_samples_acts true waited
                   ++ if negb waited then ends true
                      else
                        [Write MicBufs]
                        ++ if diverged then [Write Fifos] ++ ends false else [Read MicBufs] ++ ends failed.

Definition start_output_stream_acts (o : Z) (started : bool) : list action :=
  [Write (OutState o); Read (OutDevices o)] ++ if started then [Write (OutState o); Write ActiveOutput] else [].
Definition start_input_stream_acts (i : Z) (started : bool) : list action :=
  [Write (InState i)] ++ if started then [Write (InState i); Write ActiveInput] else [].

Definition do_output_standby_acts (o : Z) (standby : bool) : list action :=
  [Write (OutEq o); Read (OutState o)] ++ (if standby then [] else [Write (OutState o); Write ActiveOutput; Write (OutState o)]) ++ aec_set_spk_running_acts.
Definition out_standby_acts (o : Z) (standby : bool) : list action :=
  [Read (Fixed (OutStream o)); Lock Dev; Lock (Out o)] ++ do_output_standby_acts o standby ++ [Unlock (Out o); Unlock Dev].

(** [routing]: the parameter is there; [changed]: it names other devices. *)
Definition out_set_parameters_acts (o : Z) (routing changed : bool) : list action :=
  [Read (Fixed (OutStream o))]
  ++ if routing then
       [Lock Dev; Lock (Out o); Read (OutDevices o)] ++ (if changed then [Write (OutDevices o)] else []) ++ [Unlock (Out o); Unlock Dev]
     else [].

Definition out_write_acts (o : Z) (standby started wrote : bool) : list action :=
  let write :=
    [Unlock Dev; Read (OutEq o); Write (OutEq o); Read (OutState o)]
    ++ (if wrote then [Write (OutFrames o)] ++ write_to_reference_fifo_acts ++ [Unlock (Out o)]
        else [Unlock (Out o); Read (Fixed (OutStream o))]) in
  [Read (Fixed (OutStream o)); Lock Dev; Lock (Out o); Read (OutState o)]
  ++ if standby then
       start_output_stream_acts o started
       ++ (if started then [Write (OutState o)] ++ aec_set_spk_running_acts ++ write
           else [Unlock Dev; Unlock (Out o); Read (Fixed (OutStream o))])
     else write.

Definition out_get_presentation_position_acts (o : Z) : list action := [Read (OutFrames o)].

Definition in_standby_acts (i : Z) (standby : bool) : list action :=
  [Lock (In i); Read (Fixed (InStream i)); Lock Dev; Read (InState i)] ++ (if standby then [] else [Write (InState i); Write ActiveInput; Write (InState i)]) ++ [Unlock Dev; Unlock (In i)].

Definition adev_get_mic_mute_acts : list action := locked Dev [Read MicMute].
Definition adev_set_mic_mute_acts : list action := locked Dev [Write MicMute].

(** The echo reference takes no lock of its stream. *)
Definition in_read_reference_acts (i : Z) (running initialized waited : bool) : list action :=
  [Read (Fixed (InStream i))] ++ aec_get_spk_running_acts ++ (if running then get_reference_samples_acts initialized waited else []) ++ [Write (InFrames i)].

Definition in_read_microphone_acts (i : Z) (standby started read muted : bool) (process : list action) : list action :=
  let rest := [Unlock Dev; Read (InState i)] ++ (if read then [Write (InFrames i)] else []) ++ [Unlock (In i)] in
  let opened := negb standby || started in
  [Read (Fixed (InStream i)); Lock (In i); Lock Dev; Read (InState i)]
  ++ (if standby then start_input_stream_acts i started ++ (if started then [Write (InState i)] ++ rest else [Unlock Dev; Unlock (In i)]) else rest)
  ++ adev_get_mic_mute_acts
  ++ (if opened && read then if muted then [] else process else [Read (Fixed (InStream i))]).

Definition in_get_active_microphones_acts (i : Z) : list action := [Read (Fixed (InStream i))] ++ adev_get_mic_mute_acts ++ [Read (Fixed (InStream i))].
Definition in_get_capture_position_acts (i : Z) : list action := [Read (InFrames i)].

(** The sample rate, channels, format, size of the buffer and latency of a stream. *)
Definition getter_acts (s : stream) : list action := [Read (Fixed s)].

(** A new stream is set up, and an old one freed, without its lock.  [found]: the card
    has the port and there is memory; [accepted]: the format is the right one;
    [ready]: the queues were allocated. *)
Definition out_fields (o : Z) : list action :=
  [Write (Fixed (OutStream o)); Write (OutState o); Write (OutDevices o); Write (OutEq o); Write (OutFrames o)].
Definition in_fields (i : Z) : list action := [Write (Fixed (InStream i)); Write (InState i); Write (InFrames i)].
Definition fir_release_acts (o : Z) : list action := [Write (OutEq o)].
Definition free_acts (s : stream) : list action :=
  match s with OutStream o => out_fields o | InStream i => in_fields i end ++ [Write (Memory s)].

Definition adev_open_output_stream_acts (o : Z) (found accepted initialized ready : bool) : list action :=
  if found then
    out_fields o
    ++ if accepted then
         [Write (Fixed (OutStream o)); Write (OutState o); Write (OutDevices o); Write (OutEq o); Read (Fixed (OutStream o))] ++ init_aec_reference_config_acts initialized
         ++ if ready then [] else fir_release_acts o ++ free_acts (OutStream o)
       else free_acts (OutStream o)
  else [].
Definition adev_close_output_stream_acts (o : Z) (initialized : bool) : list action :=
  destroy_aec_reference_config_acts initialized ++ fir_release_acts o ++ free_acts (OutStream o).

(** [aec]: the stream is for the microphone or the echo reference. *)
Definition adev_open_input_stream_acts (i : Z) (found accepted aec initialized ready : bool) : list action :=
  if found then
    in_fields i
    ++ if accepted then
         [Write (Fixed (InStream i)); Write (InState i); Read (Fixed (InStream i))]
         ++ if aec then init_aec_mic_config_acts initialized ready ++ (if ready then [] else free_acts (InStream i)) else []
       else free_acts (InStream i)
  else [].
Definition adev_close_input_stream_acts (i : Z) (aec initialized : bool) : list action :=
  [Read (Fixed (InStream i))] ++ (if aec then destroy_aec_mic_config_acts initialized else []) ++ free_acts (InStream i).

(** A call on the open device. *)
Inductive call : Type :=
| CallOutStandby (o : Z) (standby : bool)
| CallOutSetParameters (o : Z) (routing changed : bool)
| CallOutWrite (o : Z) (standby started wrote : bool)
| CallOutPosition (o : Z)
| CallInStandby (i : Z) (standby : bool)
| CallInReadReference (i : Z) (running initialized waited : bool)
| CallInReadMicrophone (i : Z) (standby started read muted hal ready running fresh data waited diverged failed : bool)
| CallInPosition (i : Z)
| CallActiveMicrophones (i : Z)
| CallGetter (s : stream)
| CallGetMicMute
| CallSetMicMute
| CallOpenOutput (o : Z) (found accepted initialized ready : bool)
| CallCloseOutput (o : Z) (initialized : bool)
| CallOpenInput (i : Z) (found accepted aec initialized ready : bool)
| CallCloseInput (i : Z) (aec initialized : bool).

Definition acts (c : call) : list action :=
  match c with
  | CallOutStandby o standby => out_standby_acts o standby
  | CallOutSetParameters o routing changed => out_set_parameters_acts o routing changed
  | CallOutWrite o standby started wrote => out_write_acts o standby started wrote
  | CallOutPosition o => out_get_presentation_position_acts o
  | CallInStandby i standby => in_standby_acts i standby
  | CallInReadReference i running initialized waited => in_read_reference_acts i running initialized waited
  | CallInReadMicrophone i standby started read muted hal ready running fresh data waited diverged failed =>
      in_read_microphone_acts i standby started read muted (process_aec_acts hal ready running fresh data waited diverged failed)
  | CallInPosition i => in_get_capture_position_acts i
  | CallActiveMicrophones i => in_get_active_microphones_acts i
  | CallGetter s => getter_acts s
  | CallGetMicMute => adev_get_mic_mute_acts
  | CallSetMicMute => adev_set_mic_mute_acts
  | CallOpenOutput o found accepted initialized ready => adev_open_output_stream_acts o found accepted initialized ready
  | CallCloseOutput o initialized => adev_close_output_stream_acts o initialized
  | CallOpenInput i found accepted aec initialized ready => adev_open_input_stream_acts i found accepted aec initialized ready
  | CallCloseInput i aec initialized => adev_close_input_stream_acts i aec initialized
  end.

(** ** Threads that make calls *)

Definition program (cs : list call) : list action := concat (acts <$> cs).
Definition start (calls : list (list call)) : list thread := start_threads (program <$> calls).

(** The stream a call is made on. *)
Definition on (c : call) : option stream :=
  match c with
  | CallOutStandby o _ | CallOutSetParameters o _ _ | CallOutWrite o _ _ _ | CallOutPosition o
  | CallOpenOutput o _ _ _ _ | CallCloseOutput o _ => Some (OutStream o)
  | CallInStandby i _ | CallInReadReference i _ _ _ | CallInReadMicrophone i _ _ _ _ _ _ _ _ _ _ _ _ | CallInPosition i
  | CallActiveMicrophones i | CallOpenInput i _ _ _ _ _ | CallCloseInput i _ _ => Some (InStream i)
  | CallGetter s => Some s
  | CallGetMicMute | CallSetMicMute => None
  end.

(** The stream that a call opens or closes, and the one it frees. *)
Definition begins_or_ends (c : call) : option stream :=
  match c with
  | CallOpenOutput o _ _ _ _ | CallCloseOutput o _ => Some (OutStream o)
  | CallOpenInput i _ _ _ _ _ | CallCloseInput i _ _ => Some (InStream i)
  | _ => None
  end.
Definition frees (c : call) : option stream := match last (acts c) with Some (Write (Memory s)) => Some s | _ => None end.

(** A stream that is opened or closed by a thread is used by no other thread. *)
Definition owned (calls : list (list call)) : Prop :=
  forall i j cs ds c d s, i <> j -> calls !! i = Some cs -> calls !! j = Some ds -> c ∈ cs -> d ∈ ds ->
  begins_or_ends c = Some s -> on d <> Some s.

(** A thread makes no call on a stream that it freed. *)
Fixpoint not_after (cs : list call) : Prop :=
  match cs with
  | [] => True
  | c :: cs' => (forall d s, d ∈ cs' -> frees c = Some s -> on d <> Some s) /\ not_after cs'
  end.

(** The stream whose memory an action uses. *)
Definition memory_of (a : action) : option stream :=
  match a with
  | Lock (Out o) | Unlock (Out o) => Some (OutStream o)
  | Lock (In i) | Unlock (In i) => Some (InStream i)
  | Read f | Write f =>
      match f with
      | OutState o | OutDevices o | OutEq o | OutFrames o => Some (OutStream o)
      | InState i | InFrames i => Some (InStream i)
      | Fixed s | Memory s => Some s
      | _ => None
      end
  | _ => None
  end.

Ltac all_branches c :=
  destruct c; repeat match goal with b : bool |- _ => destruct b end; cbn; rewrite ?Z.eqb_refl; cbn; rewrite ?Z.eqb_refl.

(** Is [f] of no stream that the calls open or close? *)
Definition lasting (cs : list call) (f : field) : bool :=
  forallb (fun c => match begins_or_ends c, memory_of (Write f) with
    | Some (OutStream o), Some (OutStream p) => negb (o =? p)
    | Some (InStream i), Some (InStream j) => negb (i =? j)
    | _, _ => true end) cs.

(** A call keeps to the order, and to the guards but for a stream it opens or closes. *)
Lemma call_ordered chk c :
  (forall f s, begins_or_ends c = Some s -> memory_of (Write f) = Some s -> chk f = false) -> ordered chk [] (acts c) = true.
Proof.
  intros Hc. destruct (begins_or_ends c) as [s|] eqn:E.
  - assert (forall f, memory_of (Write f) = Some s -> chk f = false) as Hs by (intros f Hf; by apply (Hc f s)).
    destruct c; try done; injection E as <-; repeat match goal with b : bool |- _ => destruct b end;
      cbn; rewrite ?(Hs (OutState _)), ?(Hs (OutDevices _)), ?(Hs (OutEq _)), ?(Hs (InState _)) by done; cbn; by rewrite ?orb_true_r.
  - all_branches c; try discriminate E; by rewrite ?orb_true_r.
Qed.

(** ** What the actions of a call are about *)

Definition stream_eqb (s t : stream) : bool :=
  match s, t with OutStream o, OutStream p => o =? p | InStream i, InStream j => i =? j | _, _ => false end.

Lemma stream_eqb_eq s t : stream_eqb s t = true <-> s = t.
Proof. destruct s, t; cbn; rewrite ?Z.eqb_eq; split; congruence. Qed.

Definition frees_here (a : action) : bool := match a with Write (Memory _) => true | _ => false end.

(** An action of a call uses the memory of the stream the call is made on only; what
    is fixed is written by opening and closing only. *)
Definition stays (c : call) (a : action) : bool :=
  match memory_of a, on c with Some s, Some t => stream_eqb s t | Some _, None => false | None, _ => true end
  && match a, begins_or_ends c with Write (Fixed _ | Memory _), None => false | _, _ => true end.

(** Giving the memory back is the last action. *)
Fixpoint frees_last (p : list action) : bool :=
  match p with [] => true | [_] => true | a :: p' => negb (frees_here a) && frees_last p' end.

Lemma call_checked c : forallb (stays c) (acts c) && frees_last (acts c) = true.
Proof.
  destruct c; repeat match goal with b : bool |- _ => destruct b | s : stream |- _ => destruct s end;
    cbv -[Z.eqb]; by rewrite ?Z.eqb_refl.
Qed.

Lemma begins_on c s : begins_or_ends c = Some s -> on c = Some s.
Proof. by destruct c. Qed.

Lemma action_stays c a : a ∈ acts c -> stays c a = true.
Proof.
  intros Ha. pose proof (call_checked c) as [Hs _]%andb_true_iff. rewrite forallb_forall in Hs. by apply Hs, list_elem_of_In.
Qed.

Lemma action_on c a s : a ∈ acts c -> memory_of a = Some s -> on c = Some s.
Proof.
  intros Ha Hm. pose proof (action_stays c a Ha) as [Hs _]%andb_true_iff. rewrite Hm in Hs.
  destruct (on c) as [t|]; [|done]. by apply stream_eqb_eq in Hs as ->.
Qed.

Lemma fixed_written c f s : Write f ∈ acts c -> f = Fixed s \/ f = Memory s -> begins_or_ends c = Some s.
Proof.
  intros Ha Hf. assert (memory_of (Write f) = Some s) as Hm by (by destruct Hf as [->| ->]).
  pose proof (action_on c _ s Ha Hm) as Hon. pose proof (action_stays c _ Ha) as [_ Hs]%andb_true_iff.
  destruct (begins_or_ends c) as [t|] eqn:E; [|by destruct Hf as [->| ->]]. apply begins_on in E. congruence.
Qed.

Lemma freed_at_end p q a s : frees_last (p ++ a :: q) = true -> Write (Memory s) ∈ p -> False.
Proof.
  induction p as [|b p IH]; intros Hl Hin; [by apply not_elem_of_nil in Hin|].
  assert (frees_last ((b :: p) ++ a :: q) = negb (frees_here b) && frees_last (p ++ a :: q)) as E by (cbn; by destruct p).
  rewrite E in Hl. apply andb_true_iff in Hl as [Hb Hl]. apply elem_of_cons in Hin as [<-|Hin]; [done|by apply IH].
Qed.

Lemma frees_spec c s : Write (Memory s) ∈ acts c -> frees c = Some s.
Proof.
  intros (p & q & E)%list_elem_of_split. pose proof (call_checked c) as [_ Hl]%andb_true_iff. unfold frees.
  destruct q as [|a q]; [by rewrite E, last_snoc|].
  exfalso. apply (freed_at_end (p ++ [Write (Memory s)]) q a s); [rewrite <- app_assoc; cbn [app]; by rewrite <- E|]. apply elem_of_app. right. by apply list_elem_of_singleton.
Qed.

(** ** The programs of the threads *)

Lemma program_action cs a : a ∈ program cs -> exists c, c ∈ cs /\ a ∈ acts c.
Proof.
  unfold program. rewrite list_elem_of_In, in_concat. intros (l & Hl & Ha). apply list_elem_of_In, list_elem_of_fmap in Hl as (c & -> & Hc).
  exists c. split; [done|by apply list_elem_of_In].
Qed.

(** A thread does not use what it freed. *)
Lemma program_not_after cs : not_after cs -> forall p a q s,
  program cs = p ++ a :: q -> memory_of a = Some s -> Write (Memory s) ∈ p -> False.
Proof.
  induction cs as [|c cs IH]; intros Hn p a q s E Hm Hw; [by destruct p|]. destruct Hn as [Hc Hn].
  change (program (c :: cs)) with (acts c ++ program cs) in E. apply app_eq_inv in E as [(k & E1 & E2)|(k & E1 & E2)].
  - destruct k as [|b k].
    + rewrite app_nil_r in E1. subst p. assert (a ∈ program cs) as Hin by (cbn in E2; rewrite <- E2; by apply elem_of_cons; left).
      destruct (program_action _ _ Hin) as (d & Hd & Ha). by apply (Hc d s Hd (frees_spec c s Hw)), (action_on d a).
    + injection E2 as <- E2. apply (freed_at_end p k a s); [|done]. rewrite <- E1. by pose proof (call_checked c) as [_ ?]%andb_true_iff.
  - subst p. apply elem_of_app in Hw as [Hw|Hw].
    + assert (a ∈ program cs) as Hin by (rewrite E2; apply elem_of_app; right; by apply elem_of_cons; left).
      destruct (program_action _ _ Hin) as (d & Hd & Ha). by apply (Hc d s Hd (frees_spec c s Hw)), (action_on d a).
    + by apply (IH Hn k a q s).
Qed.

Lemma lasting_spec cs f : lasting cs f = false -> exists c s, c ∈ cs /\ begins_or_ends c = Some s /\ memory_of (Write f) = Some s.
Proof.
  induction cs as [|c cs IH]; [done|]. cbn [lasting forallb]. intros [H|H]%andb_false_iff.
  - exists c. destruct (begins_or_ends c) as [s|] eqn:E; [|done]. exists s. destruct (memory_of (Write f)) as [t|] eqn:Em; [|by destruct s].
    split; [by apply elem_of_cons; left|]. split; [done|]. f_equal. destruct s, t; try done; by apply negb_false_iff, Z.eqb_eq in H as ->.
  - destruct (IH H) as (d & s & Hd & Hs). exists d, s. split; [by apply elem_of_cons; right|done].
Qed.

Lemma lasting_not cs c f s : c ∈ cs -> begins_or_ends c = Some s -> memory_of (Write f) = Some s -> lasting cs f = false.
Proof.
  intros Hc Hs Hm. apply not_true_iff_false. intros Hl. unfold lasting in Hl. rewrite forallb_forall in Hl.
  specialize (Hl c (proj1 (list_elem_of_In _ _) Hc)). rewrite Hs, Hm in Hl. by destruct s; rewrite Z.eqb_refl in Hl.
Qed.

Lemma program_ordered all cs : cs ⊆ all -> ordered (lasting all) [] (program cs) = true.
Proof.
  induction cs as [|c cs IH]; intros Hsub; [done|]. change (program (c :: cs)) with (acts c ++ program cs). apply ordered_app.
  - apply IH. intros d Hd. apply Hsub. by apply elem_of_cons; right.
  - apply call_ordered. intros f s Hs Hm. apply (lasting_not all c f s); [|done|done]. apply Hsub. by apply elem_of_cons; left.
Qed.

(** ** Interleavings *)

Section interleavings.
Context (calls : list (list call)) (sched : list nat) (ts : list (@thread lock field)).
Hypothesis Hrun : run sched (start calls) = Some ts.

Lemma next_action i t a q : ts !! i = Some t -> rest t = a :: q ->
  exists cs p, calls !! i = Some cs /\ program cs = p ++ a :: q /\ past (program cs) t = p /\ exists c, c ∈ cs /\ a ∈ acts c.
Proof.
  intros Hi Hr. destruct (run_program _ _ _ _ _ Hrun Hi) as (pr & p & Hp & E). rewrite list_lookup_fmap in Hp.
  destruct (calls !! i) as [cs|]; [|done]. injection Hp as <-. exists cs, p. split; [done|]. rewrite E at 2. rewrite past_app, E, Hr.
  split; [done|]. split; [done|]. apply program_action. rewrite E, Hr. apply elem_of_app. right. by apply elem_of_cons; left.
Qed.

(** Two threads do not both use a stream that a call opens or closes. *)
Lemma owner_alone i j cs ds c d e s : owned calls -> i <> j -> calls !! i = Some cs -> calls !! j = Some ds -> c ∈ cs -> d ∈ ds ->
  on c = Some s -> on d = Some s -> e ∈ concat calls -> begins_or_ends e <> Some s.
Proof.
  intros Ho Hij Hi Hj Hc Hd Hcs Hds He Hb. rewrite list_elem_of_In, in_concat in He. destruct He as (es & Hes & He).
  apply list_elem_of_In in He, Hes. apply list_elem_of_lookup in Hes as [k Hk]. destruct (decide (k = i)) as [->|Hki].
  - by apply (Ho i j es ds e d s).
  - by apply (Ho k i es cs e c s).
Qed.

Lemma in_all i cs (c : call) : calls !! i = Some cs -> c ∈ cs -> c ∈ concat calls.
Proof.
  intros Hi Hc. apply list_elem_of_In, in_concat. exists cs. split; apply list_elem_of_In; [by eapply list_elem_of_lookup_2|done].
Qed.

Lemma stream_not_raced f s : owned calls -> memory_of (Write f) = Some s -> lasting (concat calls) f = false -> ~ racing f ts.
Proof.
  intros Ho Hm (e & s' & He & Hb & Hm')%lasting_spec (i & j & ti & tj & p & q & Hij & Hi & Hj & Hri & Hrj).
  assert (s' = s) as -> by congruence. destruct (next_action i ti _ _ Hi Hri) as (cs & _ & Hcs & _ & _ & c & Hc & Hca).
  assert (exists ds d, calls !! j = Some ds /\ d ∈ ds /\ on d = Some s) as (ds & d & Hds & Hd & Hdon).
  { destruct Hrj as [Hrj|Hrj]; destruct (next_action j tj _ _ Hj Hrj) as (ds & _ & Hds & _ & _ & d & Hd & Hda);
      exists ds, d; split_and!; try done; by apply (action_on _ _ _ Hda). }
  by apply (owner_alone i j cs ds c d e s Ho Hij Hcs Hds Hc Hd (action_on _ _ _ Hca Hm) Hdon He).
Qed.

Lemma fixed_not_raced s : owned calls -> ~ racing (Fixed s) ts.
Proof.
  intros Ho. destruct (lasting (concat calls) (Fixed s)) eqn:E; [|by apply (stream_not_raced _ s)].
  intros (i & j & ti & tj & p & q & _ & Hi & _ & Hri & _). destruct (next_action i ti _ _ Hi Hri) as (cs & _ & Hcs & _ & _ & c & Hc & Hca).
  pose proof (fixed_written c _ s Hca (or_introl eq_refl)) as Hb. by rewrite (lasting_not _ c (Fixed s) s (in_all _ _ _ Hcs Hc) Hb eq_refl) in E.
Qed.

Lemma not_freed i t a q s k cs u :
  owned calls -> Forall not_after calls -> ts !! i = Some t -> rest t = a :: q -> memory_of a = Some s ->
  calls !! k = Some cs -> ts !! k = Some u -> Write (Memory s) ∉ past (program cs) u.
Proof.
  intros Ho Hn Hi Hr Hm Hk Hu Hw. destruct (next_action i t a q Hi Hr) as (ds & p & Hds & E & Hp & d & Hd & Hda).
  destruct (decide (k = i)) as [->|Hki].
  - assert (ds = cs) as -> by congruence. assert (u = t) as -> by congruence. rewrite Hp in Hw.
    by apply (program_not_after cs (Forall_lookup_1 _ _ _ _ Hn Hk) p a q s).
  - assert (Write (Memory s) ∈ program cs) as Hin by (by eapply elem_of_submseteq; [exact Hw|apply sublist_submseteq, sublist_take]).
    destruct (program_action _ _ Hin) as (c & Hc & Hca). pose proof (fixed_written c _ s Hca (or_intror eq_refl)) as Hb.
    by apply (Ho k i cs ds c d s Hki Hk Hds Hc Hd Hb), (action_on d a).
Qed.

End interleavings.

(** C16: Calls of the audio HAL on an open device run to their end in any number of threads.
    The calls are those on the streams, opening and closing a stream, and the
    mute flag.  A stream that a thread opens or closes is used by no other
    thread, and no thread makes a call on a stream that it has freed.  Then, in
    every interleaving, the calls never block each other for good: in every state some
    thread can go on or all calls are done, each step brings the end nearer, and at
    the end every mutex is free.  The mute flag, the active streams, the flag of
    the speaker, and the state, devices, equaliser and fixed part of a stream are
    never accessed by two threads at once with one of them writing.  No thread
    uses a stream, its mutex included, that any thread has freed.  The queues and buffers of
    the echo reference and the frame counts are not among these fields: they are raced for, as
    shown below. *)
Theorem audio_calls_complete calls sched ts :
  owned calls -> Forall not_after calls -> run sched (start calls) = Some ts ->
  (finished ts \/ exists i ts', sys_step i ts = Some ts')
  /\ (length sched + remaining ts = remaining (start calls))%nat
  /\ (finished ts -> Forall (fun t => held t = []) ts)
  /\ (forall f, is_Some (guard f) \/ (exists s, f = Fixed s) -> ~ racing f ts)
  /\ (forall i t a q s k cs u, ts !! i = Some t -> rest t = a :: q -> memory_of a = Some s ->
        calls !! k = Some cs -> ts !! k = Some u -> Write (Memory s) ∉ past (program cs) u).
Proof.
  intros Ho Hn Hr. destruct (threads_complete (lasting (concat calls)) (program <$> calls) sched ts) as (H1 & H2 & H3 & H4); [|done|].
  { apply Forall_fmap, list.Forall_forall. intros cs Hcs. apply program_ordered. intros c Hc. apply list_elem_of_lookup in Hcs as [i Hi]. by eapply in_all. }
  split_and!; [done|done|done| |intros i t a q s k cs u; by apply not_freed with sched].
  intros f [Hg|[s ->]]; [|by apply (fixed_not_raced calls sched)]. destruct (lasting (concat calls) f) eqn:E; [by apply H4|].
  pose proof E as (c & s & _ & _ & Hm)%lasting_spec. by apply (stream_not_raced calls sched ts Hr f s).
Qed.

(** A thread opens an output, plays and closes it, another records: the first holds the lock of the device, the second
    has to wait for it. *)
Definition demo_calls : list (list call) :=
  [[CallOpenOutput 1 true true false true; CallOutWrite 1 true true true; CallOutStandby 1 false; CallCloseOutput 1 true];
   [CallInReadMicrophone 2 true true true false true true true true true true false false]].
Definition demo_schedule : list nat := replicate 16 0%nat ++ [1; 1; 0; 0]%nat.

Lemma demo_owned : owned demo_calls.
Proof.
  intros i j cs ds c d s Hij Hi Hj Hc Hd Hb. destruct i as [|[|i]], j as [|[|j]]; try done; injection Hi as <-; injection Hj as <-.
  - apply list_elem_of_singleton in Hd as ->. apply begins_on in Hb. rewrite !elem_of_cons in Hc.
    destruct Hc as [->|[->|[->|[->|Hc]]]]; [by injection Hb as <-..|by apply not_elem_of_nil in Hc].
  - apply list_elem_of_singleton in Hc as ->. discriminate Hb.
Qed.

Lemma demo_not_after : Forall not_after demo_calls.
Proof. repeat constructor; try (intros d s _ E; discriminate E). intros d s Hd. by apply not_elem_of_nil in Hd. Qed.

Lemma audio_calls_complete_witness :
  exists ts, run demo_schedule (start demo_calls) = Some ts /\ sys_step 1 ts = None /\ exists ts', sys_step 0 ts = Some ts'.
Proof.
  eexists. split; [reflexivity|]. split; [reflexivity|].
  destruct (audio_calls_complete demo_calls demo_schedule _ demo_owned demo_not_after eq_refl) as [[Hf|Hp] _].
  - exfalso. inversion Hf as [|? ? H _]. discriminate H.
  - destruct Hp as ([|[|i]] & ts' & H); [exists ts'; exact H|discriminate H|discriminate H].
Defined.

(** Closing a stream that another thread plays on: it is freed without its lock while it
    is used under it. *)
Example close_races :
  exists ts, run [0; 0; 0; 1; 1; 1; 1; 1; 1; 1]%nat (start [[CallOutWrite 1 false true true]; [CallCloseOutput 1 true]]) = Some ts /\ racing (OutState 1) ts.
Proof. eexists. split; [reflexivity|]. exists 1%nat, 0%nat. do 4 eexists. split; [done|]. split; [reflexivity|]. split; [reflexivity|]. split; [reflexivity|]. right. reflexivity. Qed.

(** The queues have no guard: closing the output can release them while the echo reference is being
    read. *)
Example queues_raced_for :
  exists ts, run [0; 0; 0; 0; 1; 1; 1]%nat (start [[CallInReadReference 2 true true true]; [CallCloseOutput 1 true]]) = Some ts /\ racing Fifos ts.
Proof. eexists. split; [reflexivity|]. exists 1%nat, 0%nat. do 4 eexists. split; [done|]. split; [reflexivity|]. split; [reflexivity|]. split; [reflexivity|]. right. reflexivity. Qed.

(** Nor have the buffers for the microphone, which closing an input frees while another one is
    read. *)
Example buffers_raced_for :
  exists ts, run [0; 0; 0; 0; 0; 0; 1; 1; 1]%nat (start [[CallInReadReference 2 true true true]; [CallCloseInput 3 true true]]) = Some ts /\ racing MicBufs ts.
Proof. eexists. split; [reflexivity|]. exists 1%nat, 0%nat. do 4 eexists. split; [done|]. split; [reflexivity|]. split; [reflexivity|]. split; [reflexivity|]. left. reflexivity. Qed.

(** Nor have the frame counts that getters read. *)
Example position_raced_for :
  exists ts, run [0; 0; 0; 0; 0; 0; 0; 0]%nat (start [[CallOutWrite 1 false true true]; [CallOutPosition 1]]) = Some ts /\ racing (OutFrames 1) ts.
Proof. eexists. split; [reflexivity|]. exists 0%nat, 1%nat. do 4 eexists. split; [done|]. split; [reflexivity|]. split; [reflexivity|]. split; [reflexivity|]. right. reflexivity. Qed.
