(* ===== verification/GrallocLocks.v ===== *)
(** * The mutex of the graphics allocator (src/gralloc/gralloc.cpp)

    Gralloc models what the calls of the module compute; here a call is the
    sequence of its lock operations and of its accesses to what threads share. *)

From Stdlib Require Import ZArith Lia.
From stdpp Require Import base list numbers strings.
From S2P Require Import Prelude Locks.

(** [dmod->mutex]. *)
Inductive mutex : Type := Mutex.

(** [GbmPtr] is [dmod->gbm], [GbmDev] the device it points to, [Buffers] the table
    of handles and the buffers in it. *)
Inductive shared : Type := GbmPtr | GbmDev | Buffers.

(** Only the buffers are accessed under the mutex by every call. *)
Definition gralloc_guard (f : shared) : option mutex := match f with Buffers => Some Mutex | _ => None end.

#[export] Instance gralloc_locks : LockSystem mutex shared.
Proof.
  refine (MkLocks mutex shared (fun _ _ => true) _ gralloc_guard (fun _ => 0%nat) 1 _).
  - by intros [] [].
  - intros _. lia.
Defined.

#[local] Notation acts := (list (Locks.action mutex shared)).

(** ** The calls

    [fresh]: the module has no device yet; [ok]: there is one afterwards. *)

Definition gbm_init_acts (fresh : bool) : acts := locked Mutex ([Read GbmPtr] ++ if fresh then [Write GbmPtr; Read GbmPtr] else []).

(** [known]: the operation asks for the descriptor of the device. *)
Definition gbm_mod_perform_acts (fresh ok known : bool) : acts :=
  gbm_init_acts fresh ++ if ok && known then [Read GbmPtr; Read GbmDev] else [].
Definition gbm_mod_register_buffer_acts (fresh ok : bool) : acts :=
  gbm_init_acts fresh ++ if ok then locked Mutex [Read GbmPtr; Read GbmDev; Write Buffers] else [].
Definition gbm_mod_unregister_buffer_acts : acts := locked Mutex [Write Buffers].
Definition gbm_mod_lock_acts : acts := locked Mutex [Write Buffers].
Definition gbm_mod_unlock_acts : acts := locked Mutex [Write Buffers].
Definition gbm_mod_lock_ycbcr_acts : acts := locked Mutex [Write Buffers].
Definition gbm_mod_free_gpu0_acts : acts := locked Mutex [Write Buffers].
Definition gbm_mod_alloc_gpu0_acts : acts := locked Mutex [Read GbmPtr; Read GbmDev; Write Buffers].
Definition gbm_mod_open_gpu0_acts (fresh : bool) : acts := gbm_init_acts fresh.
Definition gbm_mod_close_gpu0_acts : acts := [Read GbmPtr; Write GbmDev].

Inductive gcall : Type :=
| GPerform (fresh ok known : bool)
| GRegister (fresh ok : bool)
| GUnregister
| GLock
| GUnlock
| GLockYcbcr
| GFree
| GAlloc
| GOpen (fresh : bool)
| GClose.

Definition gcall_acts (c : gcall) : acts :=
  match c with
  | GPerform fresh ok known => gbm_mod_perform_acts fresh ok known
  | GRegister fresh ok => gbm_mod_register_buffer_acts fresh ok
  | GUnregister => gbm_mod_unregister_buffer_acts
  | GLock => gbm_mod_lock_acts
  | GUnlock => gbm_mod_unlock_acts
  | GLockYcbcr => gbm_mod_lock_ycbcr_acts
  | GFree => gbm_mod_free_gpu0_acts
  | GAlloc => gbm_mod_alloc_gpu0_acts
  | GOpen fresh => gbm_mod_open_gpu0_acts fresh
  | GClose => gbm_mod_close_gpu0_acts
  end.

Definition gstart (calls : list (list gcall)) : list thread := start_threads ((fun cs => concat (gcall_acts <$> cs)) <$> calls).

Lemma gcalls_ordered cs : ordered (fun _ => true) [] (concat (gcall_acts <$> cs)) = true.
Proof.
  induction cs as [|c cs IH]; [done|]. rewrite fmap_cons. cbn [concat]. apply ordered_app; [done|].
  destruct c; repeat match goal with b : bool |- _ => destruct b end; reflexivity.
Qed.

(** Calls of the allocator in any number of threads never block each other for
    good, and the buffers and their table are never accessed by two of them at once. *)
Theorem gralloc_calls_complete calls sched ts :
  run sched (gstart calls) = Some ts ->
  (finished ts \/ exists i ts', sys_step i ts = Some ts')
  /\ (length sched + remaining ts = remaining (gstart calls))%nat
  /\ (finished ts -> Forall (fun t => held t = []) ts) /\ ~ racing Buffers ts.
Proof.
  intros Hr. destruct (threads_complete (fun _ => true) _ sched ts (proj2 (Forall_fmap _ _ _) (proj2 (list.Forall_forall _ _) (fun cs _ => gcalls_ordered cs))) Hr) as (H1 & H2 & H3 & H4).
  split_and!; [done|done|done|]. apply H4; [by exists Mutex|done].
Qed.

(** The device is destroyed without the mutex: an allocation under way may use it
    meanwhile. *)
Example device_raced_for :
  exists ts, run [0; 0; 1]%nat (gstart [[GAlloc]; [GClose]]) = Some ts /\ racing GbmDev ts.
Proof. eexists. split; [reflexivity|]. exists 1%nat, 0%nat. do 4 eexists. split; [done|]. split; [reflexivity|]. split; [reflexivity|]. split; [reflexivity|]. right. reflexivity. Qed.
