(* ===== verification/Hal.v ===== *)
(** * The device tables of the HALs

    What is left of the HALs: opening and closing the lights device
    (src/liblight/lights.c), the memory tracker (src/libmemtrack/memtrack_generic.c),
    and the calls of the audio HAL (src/audio/audio_hw.c) that describe the
    microphone or answer without looking at a state. *)

From Stdlib Require Import ZArith Lia.
From stdpp Require Import base gmap list numbers strings.
From S2P Require Import Prelude CLib QmiCodec QmiTurns Aec Rmtfs Lights AudioHw.

(** ** Memory tracker *)

(** [module]: the pointer is not NULL. *)
Definition generic_memtrack_init (module : bool) : Z := if negb module then -1 else 0.

(** ** Lights *)

Module LightsHal.

(** [struct light_device_t], of which the open call sets the module and the methods; the
    lights device knows one method of its own. *)
Inductive set_light_method : Type := SetLightBacklight.
Record light_device_t : Type := MkLight { ld_module : Z; ld_set_light : set_light_method }.

(** The devices that are allocated, by address; whether [init_globals] ran, and
    [rgb_brightness_ratio]. *)
Record lights_state : Type := MkLights { ls_devs : gmap Z light_device_t; ls_once : bool; ls_ratio : Z }.

Definition lights_static : lights_state := MkLights ∅ false 255.

(** [block] is what [malloc] returns, 0 for NULL; [prop] the value of the colour property. The
    result is [*device], when it is assigned, and the return value. *)
Definition open_lights (module block : Z) (prop : list Z) (s : lights_state) : lights_state * option Z * Z :=
  let s := if ls_once s then s else MkLights (ls_devs s) true (init_globals prop) in
  if block =? 0 then (s, None, - ENOMEM)
  else (MkLights (<[block := MkLight module SetLightBacklight]> (ls_devs s)) (ls_once s) (ls_ratio s), Some block, 0).

Definition close_lights (dev : Z) (s : lights_state) : outcome (lights_state * Z) :=
  if dev =? 0 then Ret (s, 0)
  else match ls_devs s !! dev with
       | Some _ => Ret (MkLights (delete dev (ls_devs s)) (ls_once s) (ls_ratio s), 0)
       | None => Fault
       end.

(** A call through the table of the device. *)
Definition set_light `{LightFiles} (dev color : Z) (s : lights_state) : outcome (Z * option (list Z)) :=
  d ← match ls_devs s !! dev with Some d => Ret d | None => Fault end;
  match ld_set_light d with SetLightBacklight => Ret (set_light_backlight true color) end.

(** A device that was opened sets the backlight until it is closed; closing frees
    it and nothing else, the ratio is computed by the first open only, and without memory there is no device. *)
Theorem lights_open_close `{LightFiles} module block prop color s :
  block <> 0 -> ls_devs s !! block = None ->
  let '(s1, dev, rc) := open_lights module block prop s in
  rc = 0 /\ dev = Some block /\ set_light block color s1 = Ret (set_light_backlight true color)
  /\ ls_once s1 = true /\ (ls_once s = true -> ls_ratio s1 = ls_ratio s)
  /\ (exists s2, close_lights block s1 = Ret (s2, 0) /\ ls_devs s2 = ls_devs s /\ set_light block color s2 = Fault)
  /\ (let '(s3, dev3, rc3) := open_lights module 0 prop s in ls_devs s3 = ls_devs s /\ dev3 = None /\ rc3 = - ENOMEM).
Proof.
  intros Hb Hn. unfold open_lights. rewrite (proj2 (Z.eqb_neq _ _) Hb). destruct (ls_once s) eqn:Eo; cbn; unfold set_light, close_lights; cbn;
    rewrite lookup_insert_eq, (proj2 (Z.eqb_neq _ _) Hb); cbn; split_and!; try done;
    eexists; (split; [done|]); cbn; rewrite delete_insert_id, Hn by done; done.
Qed.

Lemma lights_open_close_witness :
  exists s1, open_lights 1 64 (bytes_of_string "GRA00") lights_static = (s1, Some 64, 0) /\ ls_ratio s1 = 25
    /\ exists s2, close_lights 64 s1 = Ret (s2, 0) /\ ls_devs s2 = ∅.
Proof.
  pose proof (@lights_open_close open_panel 1 64 (bytes_of_string "GRA00") 0 lights_static ltac:(done) eq_refl) as (_ & _ & _ & _ & _ & (s2 & H1 & H2 & _) & _).
  eexists. split; [reflexivity|]. split; [reflexivity|]. exists s2. split; [exact H1|exact H2].
Defined.

End LightsHal.

(** ** The microphone *)

Module Microphone.

(** What the headers of the framework define; the floating-point constants are
    whole numbers. *)
Class MicHeaders : Type :=
  { AUDIO_MICROPHONE_ID_MAX_LEN : Z;
    AUDIO_DEVICE_MAX_ADDRESS_LEN : Z;
    sizeof_channel_mapping : Z;
    AUDIO_MICROPHONE_CHANNEL_MAPPING_UNUSED : Z;
    AUDIO_DEVICE_IN_BUILTIN_MIC : Z;
    AUDIO_MICROPHONE_SPL_UNKNOWN : Z;
    AUDIO_MICROPHONE_COORDINATE_UNKNOWN : Z }.

(** The arrays are long enough for the strings put into them. *)
Class MicHeadersOk `{MicHeaders} : Prop :=
  { id_fits : 12 < AUDIO_MICROPHONE_ID_MAX_LEN; address_fits : 4 < AUDIO_DEVICE_MAX_ADDRESS_LEN }.

Section mic.
Context `{MicHeaders}.

(** [strlcpy(dst, src, size)] on the array [dst]. *)
Definition strlcpy (dst src : list Z) (size : Z) : outcome (list Z) :=
  if size =? 0 then Ret dst else store dst 0 (take (Z.to_nat (size - 1)) src ++ [0]).

Definition coordinate : Type := Z * Z * Z.

(** [struct audio_microphone_characteristic_t], as far as it is filled in. *)
Record microphone : Type := MkMic
  { device_id : list Z; mic_address : list Z; channel_mapping : list Z; mic_device : Z; sensitivity : Z; max_spl : Z; min_spl : Z;
    orientation : coordinate; geometric_location : coordinate }.

Definition get_mic_characteristics : outcome (microphone * Z) :=
  device_id ← strlcpy (replicate (Z.to_nat AUDIO_MICROPHONE_ID_MAX_LEN) 0) (bytes_of_string "builtin_mic") (AUDIO_MICROPHONE_ID_MAX_LEN - 1);
  address ← strlcpy (replicate (Z.to_nat AUDIO_DEVICE_MAX_ADDRESS_LEN) 0) (bytes_of_string "top") (AUDIO_DEVICE_MAX_ADDRESS_LEN - 1);
  Ret (MkMic device_id address (replicate (Z.to_nat sizeof_channel_mapping) (u8 AUDIO_MICROPHONE_CHANNEL_MAPPING_UNUSED))
         AUDIO_DEVICE_IN_BUILTIN_MIC (-37) AUDIO_MICROPHONE_SPL_UNKNOWN AUDIO_MICROPHONE_SPL_UNKNOWN (0, 0, 0)
         (AUDIO_MICROPHONE_COORDINATE_UNKNOWN, AUDIO_MICROPHONE_COORDINATE_UNKNOWN, AUDIO_MICROPHONE_COORDINATE_UNKNOWN), 1).

(** [mic_array] and [mic_count]: the pointers are not NULL. The result is what they
    point to, when it is assigned, and the return value. *)
Definition adev_get_microphones (mic_array mic_count : bool) : outcome (option (microphone * Z) * Z) :=
  if negb mic_array || negb mic_count then Ret (None, - EINVAL)
  else r ← get_mic_characteristics; Ret (Some r, 0).

(** ["%.2f"] of a whole number. *)
Definition sprintf_2f (z : Z) : list Z := sprintf_d z ++ bytes_of_string ".00".

(** The lines for one microphone. *)
Definition dump_mic (idx : Z) (m : microphone) : outcome (list (list Z)) :=
  address ← cstr (mic_address m) 0;
  Ret [bytes_of_string "  Microphone: " ++ sprintf_d idx ++ [10];
       bytes_of_string "    Address: " ++ address ++ [10];
       bytes_of_string "    Device: " ++ sprintf_d (mic_device m) ++ [10];
       bytes_of_string "    Sensitivity (dB): " ++ sprintf_2f (sensitivity m) ++ [10]].

(** What is written to the file, line by line; the return value is 0. *)
Definition in_dump `{AudioHeaders} (source : Z) : outcome (list (list Z)) :=
  if source =? AUDIO_SOURCE_ECHO_REFERENCE then Ret []
  else
    '(m, count) ← get_mic_characteristics;
    lines ← dump_mic 0 m;
    Ret ((bytes_of_string "  Microphone count: " ++ sprintf_d count ++ [10]) :: lines).

Lemma strlcpy_reads n src size :
  Forall (fun b => b <> 0) src -> Z.of_nat (length src) < size -> size < n ->
  exists bs, strlcpy (replicate (Z.to_nat n) 0) src size = Ret bs /\ cstr bs 0 = Ret src /\ Z.of_nat (length bs) = n.
Proof.
  intros Hs Hl Hn. unfold strlcpy. rewrite (proj2 (Z.eqb_neq _ _)) by lia. rewrite take_ge by lia.
  set (k := S (length src)). replace (Z.to_nat n) with (k + (Z.to_nat n - k))%nat by (unfold k; lia).
  rewrite replicate_add, <- (app_nil_l (replicate k 0 ++ _)).
  rewrite (store_mid [] (replicate k 0) (src ++ [0])) by (done || (rewrite length_app, length_replicate; unfold k; cbn [length]; lia)).
  eexists. split; [done|]. rewrite <- (app_assoc src). split.
  - unfold cstr. pose proof (strlen_at [] src (replicate (Z.to_nat n - k) 0) Hs) as Hlen. change (Z.of_nat (length [])) with 0 in Hlen.
    cbn [app] in *. rewrite Hlen. cbn [mbind outcome_bind]. by apply (load_mid [] src).
  - rewrite !length_app, length_replicate. cbn [length]. unfold k. lia.
Qed.

(** The device has one microphone, whose name and address arrive as strings in
    arrays of the right size; without a place for it the call is refused; a dump lists
    it, and one of the echo reference nothing. *)
Theorem microphone_described `{AudioHeaders} `{!MicHeadersOk} source :
  exists m, adev_get_microphones true true = Ret (Some (m, 1), 0)
    /\ cstr (device_id m) 0 = Ret (bytes_of_string "builtin_mic") /\ cstr (mic_address m) 0 = Ret (bytes_of_string "top")
    /\ Z.of_nat (length (device_id m)) = AUDIO_MICROPHONE_ID_MAX_LEN /\ Z.of_nat (length (mic_address m)) = AUDIO_DEVICE_MAX_ADDRESS_LEN
    /\ (forall a c, a && c = false -> adev_get_microphones a c = Ret (None, - EINVAL))
    /\ exists lines, in_dump source = Ret lines /\ length lines = if source =? AUDIO_SOURCE_ECHO_REFERENCE then 0%nat else 5%nat.
Proof.
  destruct (strlcpy_reads AUDIO_MICROPHONE_ID_MAX_LEN (bytes_of_string "builtin_mic") (AUDIO_MICROPHONE_ID_MAX_LEN - 1)) as (b1 & E1 & R1 & L1);
    [repeat constructor; done|change (Z.of_nat _) with 11; pose proof id_fits; lia|lia|].
  destruct (strlcpy_reads AUDIO_DEVICE_MAX_ADDRESS_LEN (bytes_of_string "top") (AUDIO_DEVICE_MAX_ADDRESS_LEN - 1)) as (b2 & E2 & R2 & L2);
    [repeat constructor; done|change (Z.of_nat _) with 3; pose proof address_fits; lia|lia|].
  unfold adev_get_microphones, in_dump, get_mic_characteristics. rewrite E1. cbn [mbind outcome_bind]. rewrite E2. cbn [mbind outcome_bind negb orb].
  eexists. split; [done|]. cbn [device_id mic_address]. split_and!; try done; [by intros [] []|].
  destruct (source =? AUDIO_SOURCE_ECHO_REFERENCE); [by eexists|]. unfold dump_mic. cbn [mic_address]. rewrite R2. by eexists.
Qed.

End mic.
End Microphone.

(** ** Calls that answer without a state *)

Module AudioConstants.
Section constants.
Context `{AudioHeaders}.

Definition PORT_INTERNAL_SPEAKER : Z := 0.
Definition get_audio_output_port (devices : Z) : Z := PORT_INTERNAL_SPEAKER.

(** Streams for playing. *)
Definition out_set_sample_rate (rate : Z) : Z := - ENOSYS.
Definition out_get_channels (o : alsa_stream_out) : Z := audio_channel_out_mask_from_count (pc_channels (so_config o)).
Definition out_get_format (o : alsa_stream_out) : Z := audio_format_from_pcm_format (pc_format (so_config o)).
Definition out_set_format (format : Z) : Z := - ENOSYS.
Definition out_dump : Z := 0.
Definition out_get_parameters (keys : list Z) : list Z := [].
Definition out_set_volume : Z := - ENOSYS.
Definition out_get_render_position : Z := - ENOSYS.
Definition out_add_audio_effect : Z := 0.
Definition out_remove_audio_effect : Z := 0.

(** [*timestamp] and the return value. *)
Definition out_get_next_write_timestamp : Z * Z := (0, - ENOSYS).

(** Streams for recording. *)
Definition in_set_sample_rate (rate : Z) : Z := - ENOSYS.
Definition in_get_channels (i : alsa_stream_in) : Z := audio_channel_in_mask_from_count (pc_channels (si_config i)).
Definition in_get_format (i : alsa_stream_in) : Z := audio_format_from_pcm_format (pc_format (si_config i)).
Definition in_set_format (format : Z) : Z := - ENOSYS.
Definition in_set_parameters (kvpairs : list Z) : Z := 0.
Definition in_get_parameters (keys : list Z) : list Z := [].
Definition in_set_gain : Z := 0.
Definition in_get_input_frames_lost : Z := 0.
Definition in_add_audio_effect : Z := 0.
Definition in_remove_audio_effect : Z := 0.

(** The device. *)
Definition adev_set_parameters (kvpairs : list Z) : Z := - ENOSYS.
Definition adev_get_parameters (keys : list Z) : list Z := [].
Definition adev_init_check : Z := 0.
Definition adev_set_voice_volume : Z := - ENOSYS.
Definition adev_set_master_volume : Z := - ENOSYS.
Definition adev_get_master_volume : Z := - ENOSYS.
Definition adev_set_master_mute (muted : bool) : Z := - ENOSYS.
Definition adev_get_master_mute : Z := - ENOSYS.
Definition adev_set_mode (mode : Z) : Z := 0.
Definition adev_dump : Z := 0.

End constants.
End AudioConstants.
